(* ===== verification/_CoqProject ===== *)
-Q . S2P
Prelude.v
Sha256.v
Json.v
JsonParse.v
JsonDecode.v
JsonIndent.v
Identity.v
Crypto.v
State.v
Protocol.v
Codec.v
Quorum.v
Store.v
Consortium.v
Anchors.v
AnchorScenario.v
Client.v
Evidence.v
Auth.v
Observability.v
RateLimit.v
Signing.v
Node.v
NodeApi.v
NodeInit.v
NodeProps.v
NodeVotes.v
NodeRecovery.v
NodeSafety.v
NodeRun.v
NodeLive.v
Cluster.v
Bundle.v
Channel.v
AiContext.v
Custody.v
Reconcile.v
BundleScenario.v
FileStore.v
Sql.v
Sqlite.v
SqliteTables.v
SqliteRefine.v
Stores.v
Backup.v
BackupProps.v
Gcm.v
Circuit.v
Stream.v
Relay.v
Socks5.v
Testbed.v
Scenario.v
Ccsds.v
Health.v
Deployment.v
Filepath.v
Bootstrap.v
Smoke.v
BootstrapProps.v
