(* ===== verification/Prelude.v ===== *)
(** * pq-fabric: a verification of its core

    pq-fabric is a permissioned fabric of seven validators that agree on hash-chained
    blocks with post-quantum signatures, keep them in a store, serve evidence receipts to
    API callers, carry bundles of AI context over interrupted links, and route payloads
    through onion circuits.  This library models the Go code under src/ and proves what
    makes it correct.  The Prelude opens it: bytes, integers, errors and the state monad
    that every other file uses, and the lemmas and tactics they share.

    ** The parts of the program and the files that model them

    Hashing and encoding.  [Sha256] (crypto/sha256, hex, base64), [Json], [JsonParse],
    [JsonDecode] and [JsonIndent] (encoding/json both ways; core/messages/canonical.go).
    Every hash, signature and record of the program is over such text.

    Keys and identities.  [Identity] (core/crypto/crypto.go, core/identity/identity.go)
    has the interfaces of signers and key encapsulation as records; [Crypto]
    (core/crypto/dev.go, mldsa, mlkem, suite) has the adapters over the primitives and
    shows that each selectable suite keeps the contract [LawfulSuite], against which the
    protocol's theorems are stated.  [Signing] (core/signing/provider.go) has the local
    and the cloud signer.

    Consensus.  [State] (consensus/state/state.go) is the replicated machine, [Protocol]
    and [Codec] (consensus/protocol/protocol.go) the blocks, votes and certificates and
    their encodings, [Node] (consensus/validator/node.go) the validator: its state is the
    record [Node], each method an operation on it.  [NodeApi] (node.go, tls.go) is the
    HTTP service, [NodeInit] building and starting a node, [RateLimit] (rate_limit.go) the
    token bucket, [Health] (consensus/health/health.go) the failure detector.  What is
    proved of a node is in [NodeProps] (the chain invariant), [NodeVotes] (what it votes
    for), [NodeRecovery] (durability, restart, catch-up), [NodeSafety] (the group of
    validators as a step relation, restarts included, and agreement), [NodeRun] (the HTTP
    service takes only those steps) and [NodeLive] (a node that hears a quorum commits;
    what a restart forgets).  [Quorum] builds certificates from a group's votes, and
    [Cluster] connects the nodes of a group through their HTTP services and runs a proposal
    through all of them.

    Membership, access, evidence.  [Consortium] (core/consortium/manifest.go), [Auth]
    (core/auth/auth.go), [Anchors] (core/anchors/anchors.go, mock.go), [AnchorScenario]
    (core/anchors/evidence.go, the scripted run over them), [Client]
    (contracts/client/client.go), [Evidence] (core/evidence/evidence.go), [Observability]
    (core/observability/observability.go).

    Stores.  [Store] has the interface [ValidatorStore] (core/storage/store.go) as a class
    and the in-memory store (memory.go); [FileStore] the store of log files (file.go);
    [Sql], [Sqlite], [SqliteTables] and [SqliteRefine] the SQLite store (sqlite.go) over a
    meaning of its statements; [Stores] the choice between them.  [Backup] and
    [BackupProps] are core/backup/sqlite.go.  The node is written against the class, so
    its theorems hold over each of the stores that implement it.

    Bundles.  [Bundle] (bundle/protocol, bundle/retransmit), [Channel] (bundle/channel),
    [AiContext] and [Ccsds] (bundle/ai_context, bundle/ccsds), [Custody] (bundle/custody),
    [Reconcile] (bundle/reconcile) and [BundleScenario] (bundle/evidence), which runs them
    together.

    Routing.  [Gcm] (AES-GCM and HMAC of the Go library), [Circuit], [Stream], [Relay],
    [Socks5] and [Testbed] (the packages of that name under routing/), and [Scenario],
    the scripted run of routing/testbed/testbed.go.

    Deployment.  [Deployment] (core/deployment/profile.go and how cmd/validator/main.go
    reads its environment), [Filepath] (path/filepath), [Bootstrap] and [Smoke]
    (core/deployment/bootstrap/bootstrap.go and smoke.go), [BootstrapProps].

    ** How state and operations correspond to the code

    A Go [string] and a Go [[]byte] are both the Rocq [string] of their bytes; a struct is
    a record whose fields carry a short prefix and the Go name; an integer is a [Z], with
    the wrap of its width written out where the code computes with it ([u64], [i64]), and
    the bounds of its type as hypotheses where a theorem needs them.  A map is a [gmap];
    where the order in which Go ranges over a map can be seen, it is an argument.  An
    error is its text and the sentinel it wraps.  A panic is an error with the sentinel
    "panic".

    A method with a receiver is an operation of the monad [M]: it maps the state to the
    state it leaves and its result, and what it changed before an error stays changed.
    Methods that hold their object's mutex are one step; where one lets go of it
    ([Relay.ProcessCell], the peer requests of [Node]) the model has several, and the
    group of [NodeSafety] interleaves them freely.  The clock is an argument (a [Time],
    read once per operation), and so is what is drawn at random.  What HTTP peers, files,
    YAML, certificates, sockets and SQL engines answer is an argument or a class, with
    the documented behaviour that a theorem relies on as its laws: a theorem over such a
    class comes with an instance for which the laws are proved and at which it is
    evaluated.

    A loop without a structural measure takes fuel, the size of what it consumes: the
    bytes of a text for the parser and the escapes, the items held for the eviction of a
    channel, the bundles held for the drain of a stream and one more, the number of
    validators for the rounds of a proposal, the depth of the heap.  Each turn consumes at
    least one, and where that is not plain it is proved: whatever is encoded is parsed
    back ([JsonParse.parses_all]), the drain ends ([Bundle.drain_complete]), the evictions
    end within the budgets ([Channel.budgets_kept]), the heap is sorted
    ([Ccsds.scheduler_refines]).

    ** What the theorems show

    - Safety of consensus: agreement of any two honest nodes in every reachable state of
      the group, over any interleaving and any messages of the faulty, with or without a
      manifest, and with restarts of nodes that had no vote pending - given n + f < 2t for n
      identities, f faulty and the threshold t, votes that are not forged and stores that
      do not fail ([NodeSafety]); the chain invariant of [ApplyCommit] ([NodeProps]); that
      the HTTP service, its authorization included, does no more than those steps
      ([NodeRun]); when a certificate verifies or can be formed ([Protocol]).
    - Durability and liveness: a restart recovers the chain, every applied commit is on
      disk, catch-up adopts a valid longer chain ([NodeRecovery]); a proposer that hears a
      quorum commits ([NodeLive]), and in a cluster in step a payload proposed at any node
      is committed by all of them ([Cluster.cluster_commits]); the scripted runs succeed
      ([Scenario], [BundleScenario], [AnchorScenario]).
    - Refinement: the file store and the SQLite store answer as the in-memory store,
      whichever is opened ([FileStore], [SqliteRefine], [Stores]); the suites keep their
      contract ([Crypto]); the frame scheduler is a sorted queue ([Ccsds]); the smoke
      test's key service implements the signer the validators call ([Smoke]).
    - Round trips: messages and their JSON ([Codec]), onions ([Circuit]), circuits and
      direct calls ([Testbed]), backups ([BackupProps]).
    - Access and configuration: the external API ([NodeRun]), what production mode
      guarantees of a node ([NodeInit]), that the validator that reads the files a
      bootstrap report passed is configured with them, what a passed profile says of the
      node that starts ([BootstrapProps], [Deployment]), and that a bootstrap report
      hides the secrets it has read.
    - Bundles: any order of arrival is applied once ([Bundle]), budgets ([Channel]),
      custody once ([Custody]), the whole scenario ([BundleScenario]).
    - Where the code falls short: the theorems on a vote that a restart forgets, a
      precommit without a quorum of prevotes, a node that has left a round, a stalled
      stream, an unreadable log, a backup of nothing, and the examples next to them.

    ** What is not modelled

    - The periodic loops, goroutines, sockets and process start-up around the modelled
      operations: net/http (but for its routes, bodies and status codes), slog and
      OpenTelemetry, [NewRuntime] and the spans of core/observability.
    - Making x509 certificates, starting seven validators and waiting for them
      (core/deployment/bootstrap/smoke.go), and the fault scenarios of consensus/fault,
      which do the same with validators that are stopped and restarted.
    - The commands under cmd/, but for how a validator reads its environment: flags,
      printing and process start-up around the modelled operations.
    - internal/e2e and tests/: scripts that drive the commands, and vectors.
    - YAML, gzip, x509, the ML-DSA, ML-KEM, Ed25519 and X25519 primitives and the SQLite
      engine: third-party or library code, parameters with laws.
    - [strings.ToLower] beyond ASCII, and the texts of JSON decoding errors. *)

From Stdlib Require Export ZArith Ascii String List Lia.
From stdpp Require Export base tactics list gmap strings sorting fin_maps.
#[export] Set Default Proof Using "Type".
#[export] Set Warnings "-clear-no-such-hyp,-register-all,-level-tolerance".
Local Open Scope Z_scope.

Declare Scope go_scope.
Delimit Scope go_scope with go.

(** ** Bytes and strings

    A Go [string] and a Go [[]byte] are both represented by the [string] of
    their bytes. *)

Definition code (c : ascii) : Z := Z.of_N (N_of_ascii c).

Definition char_of (z : Z) : ascii := ascii_of_N (Z.to_N z).

Definition bytes_of_string (s : string) : list Z := map code (list_ascii_of_string s).

Definition string_of_bytes (bs : list Z) : string := string_of_list_ascii (map char_of bs).

(** [len(s)]. *)
Definition len (s : string) : Z := Z.of_nat (String.length s).

(** The decimal digits of a non-negative number, most significant first. *)
Fixpoint digits (fuel : nat) (z : Z) (acc : string) : string :=
  match fuel with
  | O => acc
  | S n =>
      let acc' := String (char_of (48 + z mod 10)) acc in
      if z <? 10 then acc' else digits n (z / 10) acc'
  end.

(** [strconv.Itoa] and the verb [%d]. *)
Definition itoa (z : Z) : string :=
  let n := S (Z.to_nat (Z.log2 (Z.abs z))) in
  if z <? 0 then String.append "-" (digits n (- z) EmptyString) else digits n z EmptyString.

(** [strings.HasPrefix] and [strings.TrimPrefix]. *)
Fixpoint HasPrefix (s p : string) : bool :=
  match p, s with
  | EmptyString, _ => true
  | String a p', String b s' => Ascii.eqb a b && HasPrefix s' p'
  | _, _ => false
  end.

Definition TrimPrefix (s p : string) : string :=
  if HasPrefix s p then String.substring (String.length p) (String.length s - String.length p) s
  else s.

(** The UTF-8 encodings of the runes [unicode.IsSpace] accepts. *)
Definition space_runes : list (list Z) :=
  [[9]; [10]; [11]; [12]; [13]; [32]; [0xC2; 0x85]; [0xC2; 0xA0]; [0xE1; 0x9A; 0x80];
   [0xE2; 0x80; 0x80]; [0xE2; 0x80; 0x81]; [0xE2; 0x80; 0x82]; [0xE2; 0x80; 0x83];
   [0xE2; 0x80; 0x84]; [0xE2; 0x80; 0x85]; [0xE2; 0x80; 0x86]; [0xE2; 0x80; 0x87];
   [0xE2; 0x80; 0x88]; [0xE2; 0x80; 0x89]; [0xE2; 0x80; 0x8A]; [0xE2; 0x80; 0xA8];
   [0xE2; 0x80; 0xA9]; [0xE2; 0x80; 0xAF]; [0xE2; 0x81; 0x9F]; [0xE3; 0x80; 0x80]].

Definition space_seqs : list (list ascii) := map (map char_of) space_runes.

(** [strip p l] is what follows the prefix [p] of [l]. *)
Fixpoint strip (p l : list ascii) : option (list ascii) :=
  match p, l with
  | [], _ => Some l
  | a :: p', b :: l' => if Ascii.eqb a b then strip p' l' else None
  | _ :: _, [] => None
  end.

Fixpoint strip_any (ps : list (list ascii)) (l : list ascii) : option (list ascii) :=
  match ps with
  | [] => None
  | p :: ps' => match strip p l with Some r => Some r | None => strip_any ps' l end
  end.

Fixpoint trim_left (fuel : nat) (ps : list (list ascii)) (l : list ascii) : list ascii :=
  match fuel with
  | O => l
  | S n => match strip_any ps l with Some r => trim_left n ps r | None => l end
  end.

Definition trim_front (l : list ascii) : list ascii := trim_left (length l) space_seqs l.

Definition trim_back (l : list ascii) : list ascii :=
  rev (trim_left (length l) (map (@rev ascii) space_seqs) (rev l)).

(** [strings.TrimSpace]. *)
Definition TrimSpace (s : string) : string :=
  string_of_list_ascii (trim_back (trim_front (list_ascii_of_string s))).

(** [strings.TrimRight(s, "/")]. *)
Definition TrimRightSlash (s : string) : string :=
  let l := list_ascii_of_string s in
  string_of_list_ascii (rev (trim_left (length l) [["/"%char]] (rev l))).

(** [strings.Contains(s, c)] for a one-byte [c]. *)
Definition contains_byte (c : ascii) (s : string) : bool :=
  existsb (Ascii.eqb c) (list_ascii_of_string s).

(** [strings.Contains]. *)
Fixpoint Contains (s sub : string) : bool :=
  HasPrefix s sub || match s with EmptyString => false | String _ s' => Contains s' sub end.

(** [strings.Split(s, c)] for a one-byte separator: at least one part. *)
Fixpoint SplitByte (c : ascii) (s : string) : list string :=
  match s with
  | EmptyString => [EmptyString]
  | String a s' =>
      if Ascii.eqb a c then EmptyString :: SplitByte c s'
      else match SplitByte c s' with
           | part :: parts => String a part :: parts
           | [] => [String a EmptyString]
           end
  end.

(** [strings.Cut(s, c)] for a one-byte separator. *)
Fixpoint CutByte (c : ascii) (s : string) : option (string * string) :=
  match s with
  | EmptyString => None
  | String a s' =>
      if Ascii.eqb a c then Some (EmptyString, s')
      else match CutByte c s' with
           | Some (before, after) => Some (String a before, after)
           | None => None
           end
  end.

(** [s[:n]]. *)
Definition prefix (n : nat) (s : string) : string := String.substring 0 n s.

(** [strings.ToLower] on ASCII text. *)
Definition ToLower (s : string) : string :=
  string_of_bytes (map (fun b => if (65 <=? b) && (b <=? 90) then b + 32 else b) (bytes_of_string s)).

(** The verb [%q], [strconv.Quote]: runes above ASCII are taken to be printable. *)
Definition quote_byte (b : Z) : list Z :=
  let hex d := if d <? 10 then 48 + d else 87 + d in
  if (b =? 34) || (b =? 92) then [92; b]
  else if b =? 7 then [92; 97] else if b =? 8 then [92; 98] else if b =? 12 then [92; 102]
  else if b =? 10 then [92; 110] else if b =? 13 then [92; 114] else if b =? 9 then [92; 116]
  else if b =? 11 then [92; 118]
  else if (b <? 32) || (b =? 127) then [92; 120; hex (b / 16); hex (b mod 16)]
  else [b].

Definition Quote (s : string) : string :=
  String.append (String "034" EmptyString)
    (String.append (string_of_bytes (flat_map quote_byte (bytes_of_string s)))
       (String "034" EmptyString)).

(** ** Fallible operations *)

(** A Go error: its text, and the package-level sentinel it wraps with [%w]
    ([errors.Is] looks at it), named [package.Variable]. *)
Record error := mkError { err_is : option string; err_text : string }.

Definition errors_New (text : string) : error := mkError None text.

(** [fmt.Errorf("%w: text", sentinel)]. *)
Definition wrap_err (sentinel base text : string) : error :=
  mkError (Some sentinel) (String.append base (String.append ": " text)).

(** [fmt.Errorf("text: %w", err)]. *)
Definition prefix_err (text : string) (e : error) : error :=
  mkError (err_is e) (String.append text (String.append ": " (err_text e))).

Definition errors_Is (e : error) (sentinel : string) : bool :=
  match err_is e with Some s => String.eqb s sentinel | None => false end.

Inductive result (A : Type) :=
| Ok (a : A)
| Err (e : error).
Arguments Ok {A} a.
Arguments Err {A} e.

#[export] Instance result_ret : MRet result := fun A a => Ok a.
#[export] Instance result_bind : MBind result :=
  fun A B f r => match r with Ok a => f a | Err e => Err e end.

Definition is_ok {A} (r : result A) : bool := match r with Ok _ => true | Err _ => false end.

Definition fail {A} (text : string) : result A := Err (errors_New text).

(** [fs.ErrNotExist]. *)
Definition ErrNotExist : string := "os.ErrNotExist"%string.

(** The verb [%t]. *)
Definition show_bool (b : bool) : string := (if b then "true" else "false")%string.

(** A panic ends the program; it is an error no caller can handle. *)
Definition panic {A} (text : string) : result A := Err (mkError (Some "panic"%string) text).

Definition is_panic {A} (r : result A) : bool :=
  match r with Err e => errors_Is e "panic"%string | Ok _ => false end.

Infix "++" := String.append : string_scope.

(** ** Operations on a state

    A method that changes its receiver and may fail maps a state to the state
    it leaves and its result; the changes made before an error stay. *)
Definition M (S A : Type) : Type := S -> S * result A.

#[export] Instance M_ret S : MRet (M S) := fun A a s => (s, Ok a).
#[export] Instance M_bind S : MBind (M S) :=
  fun A B f m s => match m s with (s', Ok a) => f a s' | (s', Err e) => (s', Err e) end.

Definition lift {S A} (r : result A) : M S A := fun s => (s, r).
Definition raise {S A} (e : error) : M S A := lift (Err e).
Definition gets {S A} (f : S -> A) : M S A := fun s => (s, Ok (f s)).
Definition modify {S} (f : S -> S) : M S unit := fun s => (f s, Ok tt).

(** The result of an operation as a value: [if err := m(); err != nil]. *)
Definition attempt {S A} (m : M S A) : M S (result A) :=
  fun s => let '(s', r) := m s in (s', Ok r).

(** [if cond { return err }]. *)
Definition guard_err {S} (cond : bool) (e : error) : M S unit := if cond then raise e else mret tt.

(** ** Machine integers *)

Definition two64 : Z := 2 ^ 64.

(** A [uint64] is a number between 0 and [two64 - 1]; its operations wrap. *)
Definition u64 (z : Z) : Z := z mod two64.

Definition is_u64 (z : Z) : Prop := 0 <= z < two64.

(** The [int64] conversion of Go: two's complement. *)
Definition i64 (z : Z) : Z :=
  let w := z mod two64 in if w <? 2 ^ 63 then w else w - two64.

(** ** The clock

    [time.Now()]: what the code reads of a time value. *)
Record Time := mkTime { UnixMilli : Z; RFC3339Nano : string }.

(** What the code reads of an HTTP response. *)
Record Response := mkResponse { hr_StatusCode : Z; hr_Status : string; hr_Body : string }.

(** [fmt.Errorf] with its arguments already formatted. *)
Definition errorf (parts : list string) : error := errors_New (String.concat "" parts).

#[global] Arguments errorf : simpl never.

(** [strings.TrimSpace(s) == ""] and [len(l) == 0]. *)
Definition blank (s : string) : bool := String.eqb (TrimSpace s) EmptyString.

Definition is_nil {A} (l : list A) : bool := match l with [] => true | _ => false end.

(** ** Sorting and maps *)

(** [sort.Strings]. *)
Definition sort_strings (l : list string) : list string := merge_sort String.le l.

(** [sort.SliceStable], the order being a total preorder: an element goes before the ones it
    is not greater than, so elements that compare equal keep their order. *)
Fixpoint insert_stable {A} (R : A -> A -> Prop) `{RelDecision A A R} (x : A) (l : list A) : list A :=
  match l with
  | [] => [x]
  | y :: l => if decide (R x y) then x :: y :: l else y :: insert_stable R x l
  end.

Definition stable_sort {A} (R : A -> A -> Prop) `{RelDecision A A R} (l : list A) : list A :=
  foldr (insert_stable R) [] l.

Definition keys {K V} `{Countable K} (m : gmap K V) : list K := (map_to_list m).*1.

(** The keys of a [map[string]V] collected in a slice and sorted, the way the
    code makes an iteration order deterministic. *)
Definition sorted_keys {V} (m : gmap string V) : list string := sort_strings (keys m).

(** The values of a map in the order of its sorted keys. *)
Definition sorted_values {V} (m : gmap string V) : list V :=
  omap (fun k => m !! k) (sorted_keys m).

(** ** Automation *)

Create HintDb go.
Create Rewrite HintDb go_bool.

#[export] Hint Rewrite Z.eqb_eq Z.eqb_neq Z.ltb_lt Z.ltb_ge Z.leb_le Z.leb_gt
  String.eqb_eq String.eqb_neq Nat.eqb_eq Nat.eqb_neq Nat.ltb_lt Nat.ltb_ge Nat.leb_le Nat.leb_gt
  negb_true_iff negb_false_iff andb_true_iff orb_false_iff orb_true_iff andb_false_iff : go_bool.

(** Turns the boolean tests among the hypotheses into propositions. *)
Ltac reflect_bools := autorewrite with go_bool in *.

(** Case analysis on the test of the outermost [if] or [match] of [H]. *)
Ltac split_guard H :=
  let E := fresh "Hg" in
  match type of H with
  | (if ?b then _ else _) = _ => destruct b eqn:E
  | (match ?b with _ => _ end) = _ => destruct b eqn:E
  end.

(** Follows the early returns of an operation known to have succeeded: the
    branches that return an error contradict [H]. *)
Ltac run_ok H := repeat (split_guard H; try discriminate H).

(** ** Generic lemmas *)

Lemma is_ok_spec {A} (r : result A) : is_ok r = true <-> exists a, r = Ok a.
Proof. destruct r; naive_solver. Qed.

Lemma bind_ok {A B} (r : result A) (f : A -> result B) b :
  (r ≫= f) = Ok b <-> exists a, r = Ok a /\ f a = Ok b.
Proof. destruct r; cbn; naive_solver. Qed.

Lemma M_bind_ok {S A B} (m : M S A) (f : A -> M S B) s s' b :
  (m ≫= f) s = (s', Ok b) <-> exists a s1, m s = (s1, Ok a) /\ f a s1 = (s', Ok b).
Proof.
  unfold mbind, M_bind. destruct (m s) as [s1 [a|e]]; [|naive_solver].
  split; [intros H; by exists a, s1|]. by intros (a' & s2 & [= -> ->] & ?).
Qed.

(** *** Running an operation step by step *)

Section run.
Context {S A B : Type}.
Implicit Types (f : A -> M S B) (s : S).

Lemma run_gets (g : S -> A) f s : (gets g ≫= f) s = f (g s) s.
Proof. reflexivity. Qed.

Lemma run_ret (a : A) f s : ((mret a : M S A) ≫= f) s = f a s.
Proof. reflexivity. Qed.

Lemma run_lift (r : result A) f s :
  (lift r ≫= f) s = match r with Ok a => f a s | Err e => (s, Err e) end.
Proof. by destruct r. Qed.

Lemma run_raise e f s : ((raise e : M S A) ≫= f) s = (s, Err e).
Proof. reflexivity. Qed.

Lemma run_bind (m : M S A) f s :
  (m ≫= f) s = match m s with (s', Ok a) => f a s' | (s', Err e) => (s', Err e) end.
Proof. reflexivity. Qed.
End run.

Lemma run_modify {S B} (g : S -> S) (f : unit -> M S B) s : (modify g ≫= f) s = f tt (g s).
Proof. reflexivity. Qed.

Lemma run_guard {S B} cond e (f : unit -> M S B) s :
  (guard_err cond e ≫= f) s = if cond then (s, Err e) else f tt s.
Proof. by destruct cond. Qed.

Lemma run_attempt {S A B} (m : M S A) (f : result A -> M S B) s :
  (attempt m ≫= f) s = let '(s', r) := m s in f r s'.
Proof. unfold attempt, mbind, M_bind. by destruct (m s). Qed.

#[export] Hint Rewrite @run_gets @run_ret @run_lift @run_raise @run_modify @run_guard
  @run_attempt : go_run.

(** A property of the state that every part of an operation keeps. *)
Definition keeps {S A} (P : S -> Prop) (m : M S A) : Prop := forall s, P s -> P (m s).1.

Lemma keeps_bind {S A B} (P : S -> Prop) (m : M S A) (f : A -> M S B) :
  keeps P m -> (forall a, keeps P (f a)) -> keeps P (m ≫= f).
Proof.
  intros Hm Hf s Hs. unfold mbind, M_bind. specialize (Hm s Hs).
  destruct (m s) as [s' [a|e]]; cbn in *; [|done]. by apply Hf.
Qed.

Lemma keeps_lift {S A} (P : S -> Prop) (r : result A) : keeps P (lift r).
Proof. by intros s. Qed.

Lemma keeps_ret {S A} (P : S -> Prop) (a : A) : keeps P (mret a : M S A).
Proof. by intros s. Qed.

Lemma keeps_raise {S A} (P : S -> Prop) e : keeps P (raise e : M S A).
Proof. by intros s. Qed.

Lemma keeps_gets {S A} (P : S -> Prop) (f : S -> A) : keeps P (gets f).
Proof. by intros s. Qed.

Lemma keeps_modify {S} (P : S -> Prop) (f : S -> S) : (forall s, P s -> P (f s)) -> keeps P (modify f).
Proof. intros H s. apply H. Qed.

Lemma keeps_attempt {S A} (P : S -> Prop) (m : M S A) : keeps P m -> keeps P (attempt m).
Proof. intros H s Hs. specialize (H s Hs). unfold attempt. by destruct (m s). Qed.

Lemma keeps_guard {S} (P : S -> Prop) cond e : keeps P (guard_err cond e : M S unit).
Proof. unfold guard_err. destruct cond; [apply keeps_raise|apply keeps_ret]. Qed.

#[export] Hint Resolve keeps_lift keeps_ret keeps_raise keeps_gets keeps_attempt keeps_guard : go.

Lemma u64_small z : is_u64 z -> u64 z = z.
Proof. apply Z.mod_small. Qed.

Lemma u64_range z : is_u64 (u64 z).
Proof. apply Z.mod_pos_bound. reflexivity. Qed.

#[export] Hint Resolve u64_range : go.

Section stable.
Context {A : Type} (R : A -> A -> Prop) `{RelDecision A A R}.
Implicit Types (l : list A).

Lemma insert_stable_perm x l : insert_stable R x l ≡ₚ x :: l.
Proof.
  induction l as [|y l IH]; [done|]. cbn [insert_stable]. case_decide; [done|].
  rewrite IH. apply Permutation_swap.
Qed.

Lemma stable_sort_perm l : stable_sort R l ≡ₚ l.
Proof. induction l as [|x l IH]; [done|]. cbn [stable_sort foldr]. fold (stable_sort R l). by rewrite insert_stable_perm, IH. Qed.

Lemma insert_stable_sorted `{!Total R} x l : Sorted R l -> Sorted R (insert_stable R x l).
Proof.
  induction 1 as [|y l Hs IH Hhd]; [by repeat constructor|]. cbn [insert_stable]. case_decide as Hxy.
  { by repeat constructor. }
  destruct (total R x y) as [|Hyx]; [done|]. constructor; [exact IH|].
  destruct l as [|z l]; cbn [insert_stable]; [by constructor|]. inversion Hhd; subst.
  case_decide; by constructor.
Qed.

Lemma stable_sort_sorted `{!Total R} l : Sorted R (stable_sort R l).
Proof. induction l; [constructor|]. by apply insert_stable_sorted. Qed.

(** Elements that compare equal to [z] keep their order. *)
Lemma insert_stable_filter (P : A -> bool) x l : (forall y, P x = true -> P y = true -> R x y) ->
  List.filter P (insert_stable R x l) = List.filter P (x :: l).
Proof.
  intros HP. induction l as [|y l IH]; [done|]. cbn [insert_stable]. case_decide as Hxy; [done|].
  cbn [List.filter] in *. rewrite IH. destruct (P x) eqn:Px, (P y) eqn:Py; try done. by destruct Hxy; apply HP.
Qed.

Lemma stable_sort_filter (P : A -> bool) l : (forall x y, P x = true -> P y = true -> R x y) ->
  List.filter P (stable_sort R l) = List.filter P l.
Proof.
  intros HP. induction l as [|x l IH]; [done|]. cbn [stable_sort foldr]. fold (stable_sort R l).
  rewrite insert_stable_filter by auto. cbn [List.filter]. by rewrite IH.
Qed.
End stable.

Section sorting.
Implicit Types (l : list string).

Lemma sort_strings_perm l : sort_strings l ≡ₚ l.
Proof. apply merge_sort_Permutation. Qed.

Lemma sort_strings_sorted l : StronglySorted String.le (sort_strings l).
Proof. apply StronglySorted_merge_sort; apply _. Qed.

Lemma sort_strings_unique l l' : l ≡ₚ l' -> sort_strings l = sort_strings l'.
Proof.
  intros Hp. apply (StronglySorted_unique String.le);
    auto using sort_strings_sorted.
  by rewrite !sort_strings_perm.
Qed.

Lemma sort_strings_id l : StronglySorted String.le l -> sort_strings l = l.
Proof.
  intros Hs. apply (StronglySorted_unique String.le);
    auto using sort_strings_sorted, sort_strings_perm.
Qed.

Lemma elem_of_sort_strings l x : x ∈ sort_strings l <-> x ∈ l.
Proof. by rewrite sort_strings_perm. Qed.

Lemma length_sort_strings l : length (sort_strings l) = length l.
Proof. by rewrite sort_strings_perm. Qed.

Lemma NoDup_sort_strings l : NoDup (sort_strings l) <-> NoDup l.
Proof. by rewrite sort_strings_perm. Qed.
End sorting.

Section maps.
Context {V : Type}.
Implicit Types (m : gmap string V).

Lemma elem_of_keys m k : k ∈ keys m <-> is_Some (m !! k).
Proof.
  unfold keys. rewrite list_elem_of_fmap. split.
  - intros ([k' v] & -> & Hin%elem_of_map_to_list). by exists v.
  - intros [v Hv]. exists (k, v). by rewrite elem_of_map_to_list.
Qed.

Lemma NoDup_keys m : NoDup (keys m).
Proof. apply NoDup_fst_map_to_list. Qed.

Lemma elem_of_sorted_keys m k : k ∈ sorted_keys m <-> is_Some (m !! k).
Proof. unfold sorted_keys. by rewrite elem_of_sort_strings, elem_of_keys. Qed.

Lemma NoDup_sorted_keys m : NoDup (sorted_keys m).
Proof. apply NoDup_sort_strings, NoDup_keys. Qed.

Lemma sorted_keys_sorted m : StronglySorted String.le (sorted_keys m).
Proof. apply sort_strings_sorted. Qed.

Lemma length_sorted_keys m : length (sorted_keys m) = size m.
Proof.
  unfold sorted_keys, keys. rewrite length_sort_strings, length_fmap.
  apply length_map_to_list.
Qed.

Lemma elem_of_sorted_values m v : v ∈ sorted_values m <-> exists k, m !! k = Some v.
Proof.
  unfold sorted_values. rewrite list_elem_of_omap. split.
  - intros (k & _ & Hk). by exists k.
  - intros [k Hk]. exists k. split; [|done]. apply elem_of_sorted_keys. by exists v.
Qed.
(** When the values carry their keys, the sorted values list the sorted keys. *)
Lemma sorted_values_keys m (f : V -> string) :
  (forall k v, m !! k = Some v -> f v = k) -> map f (sorted_values m) = sorted_keys m.
Proof.
  intros Hf. unfold sorted_values.
  assert (Hin : Forall (fun k => is_Some (m !! k)) (sorted_keys m)).
  { apply Forall_forall. intros k. apply elem_of_sorted_keys. }
  induction Hin as [|k ks [v Hv] _ IH]; [done|].
  cbn. rewrite Hv. cbn. by rewrite (Hf k v Hv), IH.
Qed.
End maps.

#[export] Hint Resolve sort_strings_sorted sorted_keys_sorted NoDup_sorted_keys NoDup_keys : go.

(** *** Sorted lists and lists with keys *)

(** A sorted list is determined by its elements when no two of them are
    interchangeable. *)
Lemma sorted_unique_on {A} (R : A -> A -> Prop) (l1 l2 : list A) :
  StronglySorted R l1 -> StronglySorted R l2 -> l1 ≡ₚ l2 ->
  (forall a b, a ∈ l1 -> b ∈ l1 -> R a b -> R b a -> a = b) -> l1 = l2.
Proof.
  intros H1. revert l2. induction H1 as [|x l1 H1 IH Hx]; intros l2 H2 Hp Hanti.
  - by apply Permutation_nil in Hp.
  - destruct H2 as [|y l2 H2 Hy]; [by apply Permutation_nil_r in Hp|].
    assert (x = y) as <-.
    { assert (Hxin : x ∈ y :: l2) by (rewrite <-Hp; left).
      assert (Hyin : y ∈ x :: l1) by (rewrite Hp; left).
      apply elem_of_cons in Hxin as [?|Hxin]; [done|]. apply elem_of_cons in Hyin as [?|Hyin]; [done|].
      rewrite Forall_forall in Hx, Hy.
      apply Hanti; [left|by right|by apply Hx|by apply Hy]. }
    f_equal. apply IH; [done|by eapply Permutation_cons_inv|].
    intros a b Ha Hb. apply Hanti; by right.
Qed.

Section keyed.
Context {K A : Type} `{Countable K} (f : A -> K).
Implicit Types (l : list A) (a : A).

(** The map from the keys of a list to its elements. *)
Definition keyed l : gmap K A := list_to_map (map (fun a => (f a, a)) l).

Lemma keyed_fst l : (map (fun a => (f a, a)) l).*1 = map f l.
Proof. induction l as [|a l IH]; [done|]. cbn. by rewrite <-IH. Qed.

Lemma lookup_keyed l k a : NoDup (map f l) -> keyed l !! k = Some a <-> a ∈ l /\ f a = k.
Proof.
  intros Hnd. unfold keyed. rewrite <-elem_of_list_to_map by (by rewrite keyed_fst).
  rewrite list_elem_of_fmap. split; [by intros (b & [= -> ->] & Hb)|]. intros [Ha <-]. by exists a.
Qed.

Lemma keyed_None l k : keyed l !! k = None <-> k ∉ map f l.
Proof. unfold keyed. by rewrite <-not_elem_of_list_to_map, keyed_fst. Qed.

Lemma keyed_cons l a : keyed (a :: l) = <[f a := a]> (keyed l).
Proof. reflexivity. Qed.

Lemma keyed_snoc l a : f a ∉ map f l -> keyed (l ++ [a]) = <[f a := a]> (keyed l).
Proof.
  intros Ha. unfold keyed. rewrite map_app. cbn [map]. rewrite list_to_map_snoc; [done|].
  by rewrite keyed_fst.
Qed.

Lemma size_keyed l : NoDup (map f l) -> size (keyed l) = length l.
Proof.
  intros Hnd. unfold keyed. rewrite <-length_map_to_list, map_to_list_to_map by (by rewrite keyed_fst).
  by rewrite length_map.
Qed.

(** The elements with a key are the one the map has for it. *)
Lemma filter_key `{EqDecision K} l k : NoDup (map f l) ->
  List.filter (fun a => bool_decide (f a = k)) l = option_list (keyed l !! k).
Proof.
  intros Hnd. induction l as [|a l IH]; [done|]. cbn [map] in Hnd. apply NoDup_cons in Hnd as [Ha Hnd].
  cbn [List.filter]. rewrite keyed_cons, (IH Hnd). case_bool_decide as E.
  - subst k. by rewrite lookup_insert_eq, (proj2 (keyed_None l (f a))).
  - by rewrite lookup_insert_ne.
Qed.
End keyed.

#[global] Arguments keyed : simpl never.

(** Two duplicate-free sublists of a common set of [n] elements that are large
    enough share more than [f] elements: the quorum intersection bound. *)
Lemma quorum_intersection {A} `{EqDecision A} (U q1 q2 : list A) (n f : nat) :
  NoDup q1 -> NoDup q2 -> q1 ⊆ U -> q2 ⊆ U -> (length U <= n)%nat ->
  (n + f < length q1 + length q2)%nat ->
  (f < length (filter (fun x => x ∈ q2) q1))%nat.
Proof.
  intros Hd1 Hd2 Hs1 Hs2 Hn Hlen.
  set (both := filter (fun x => x ∈ q2) q1).
  set (only1 := filter (fun x => x ∉ q2) q1).
  assert (Hsum : (length both + length only1 = length q1)%nat).
  { subst both only1. clear. induction q1 as [|x q IH]; [done|].
    rewrite !filter_cons. destruct (decide (x ∈ q2)), (decide (x ∉ q2)); cbn; try lia; tauto. }
  assert (Hdisj : NoDup (only1 ++ q2)).
  { apply NoDup_app. split_and!; [by apply NoDup_filter| |done].
    intros x [Hx _]%list_elem_of_filter. exact Hx. }
  assert (Hle : (length (only1 ++ q2) <= length U)%nat).
  { apply submseteq_length, NoDup_submseteq; [done|].
    intros x [[_ Hx]%list_elem_of_filter|Hx]%elem_of_app; auto. }
  rewrite length_app in Hle. lia.
Qed.

Lemma length_string_of_list_ascii l : String.length (string_of_list_ascii l) = length l.
Proof. induction l; cbn; congruence. Qed.

Lemma length_string_of_bytes l : String.length (string_of_bytes l) = length l.
Proof. unfold string_of_bytes. by rewrite length_string_of_list_ascii, length_map. Qed.

(** ** Concatenation *)

Lemma append_empty_r s : (s ++ EmptyString)%string = s.
Proof. induction s as [|a s IH]; [done|]. change (String a (s ++ EmptyString) = String a s). by rewrite IH. Qed.

Lemma append_assoc s t u : ((s ++ t) ++ u)%string = (s ++ (t ++ u))%string.
Proof.
  induction s as [|a s IH]; [done|].
  change (String a ((s ++ t) ++ u) = String a (s ++ (t ++ u))). by rewrite IH.
Qed.

Lemma HasPrefix_app p s : HasPrefix (p ++ s)%string p = true.
Proof.
  induction p as [|a p IH]; [by destruct s|]. change (String a p ++ s)%string with (String a (p ++ s)).
  cbn [HasPrefix]. by rewrite Ascii.eqb_refl, IH.
Qed.

Lemma append_inj p s t : (p ++ s)%string = (p ++ t)%string -> s = t.
Proof. intros E. induction p as [|a p IH]; [done|]. injection E as E. by apply IH. Qed.

(** A string is its first bytes and the bytes after them. *)
Lemma substring_all s : String.substring 0 (String.length s) s = s.
Proof. induction s as [|a s IH]; [done|]. cbn [String.length String.substring]. by rewrite IH. Qed.

Lemma prefix_substring n m s :
  String.length s = (n + m)%nat -> (prefix n s ++ String.substring n m s)%string = s.
Proof.
  unfold prefix. revert s. induction n as [|n IH]; intros s Hl; cbn [String.substring].
  - replace (String.substring 0 0 s) with EmptyString by (by destruct s).
    change (EmptyString ++ ?x)%string with x. cbn in Hl. subst m. apply substring_all.
  - destruct s as [|a s]; [cbn in Hl; lia|]. cbn [String.substring].
    change (String a ?x ++ ?y)%string with (String a (x ++ y)). f_equal. apply IH. cbn in Hl. lia.
Qed.

Lemma length_substring n m s : (n + m <= String.length s)%nat -> String.length (String.substring n m s) = m.
Proof.
  revert n m. induction s as [|a s IH]; intros [|n] [|m] Hl; cbn in Hl |- *; try lia; try done.
  - rewrite IH; lia.
  - apply IH. lia.
  - apply IH. lia.
Qed.

Lemma length_prefix n s : (n <= String.length s)%nat -> String.length (prefix n s) = n.
Proof. intros Hn. by apply length_substring. Qed.

Lemma length_append s t : String.length (s ++ t) = (String.length s + String.length t)%nat.
Proof. induction s as [|a s IH]; [done|]. change (S (String.length (s ++ t)) = S (String.length s + String.length t)). by rewrite IH. Qed.

(** ** Trimming *)

Lemma strip_app p l r : strip p l = Some r -> l = (p ++ r)%list.
Proof.
  revert l. induction p as [|a p IH]; intros [|b l]; cbn; try naive_solver.
  destruct (Ascii.eqb_spec a b); [|done]. intros ?%IH. naive_solver.
Qed.

Lemma strip_prefix p l k r : strip p l = Some r -> strip p (l ++ k)%list = Some (r ++ k)%list.
Proof.
  revert l. induction p as [|a p IH]; intros [|b l]; cbn; try naive_solver.
  destruct (Ascii.eqb a b); naive_solver.
Qed.

Lemma strip_any_None ps l : strip_any ps l = None <-> Forall (fun p => strip p l = None) ps.
Proof.
  induction ps as [|p ps IH]; cbn; [split; auto|].
  rewrite Forall_cons, <-IH. destruct (strip p l); naive_solver.
Qed.

Lemma strip_any_shorter ps l r :
  Forall (fun p => p <> []) ps -> strip_any ps l = Some r -> (length r < length l)%nat.
Proof.
  induction 1 as [|p ps Hp _ IH]; cbn; [done|].
  destruct (strip p l) as [r'|] eqn:E; [|done].
  intros [= ->]. apply strip_app in E as ->. rewrite length_app.
  destruct p; [done|]. cbn. lia.
Qed.

(** The result of trimming starts with no trimmed sequence, and is a suffix. *)
Lemma trim_left_spec fuel ps l :
  Forall (fun p => p <> []) ps -> (length l <= fuel)%nat ->
  strip_any ps (trim_left fuel ps l) = None /\
  exists p, l = (p ++ trim_left fuel ps l)%list.
Proof.
  intros Hps. revert l. induction fuel as [|n IH]; intros l Hl; cbn.
  - destruct l; [|cbn in Hl; lia]. split; [|by exists []].
    destruct (strip_any ps []) eqn:E; [|done].
    apply strip_any_shorter in E; [cbn in E; lia|done].
  - destruct (strip_any ps l) as [r|] eqn:E; [|split; [done|by exists []]].
    pose proof (strip_any_shorter _ _ _ Hps E) as Hr.
    destruct (IH r) as [H1 [p Hp]]; [lia|]. split; [done|].
    assert (exists q, l = (q ++ r)%list) as [q ->].
    { clear -E. induction ps as [|p' ps IHp]; [done|]. cbn in E.
      destruct (strip p' l) eqn:E'; [|by apply IHp].
      injection E as ->. exists p'. by apply strip_app. }
    exists (q ++ p)%list. by rewrite <-app_assoc, <-Hp.
Qed.

Lemma trim_left_id fuel ps l : strip_any ps l = None -> trim_left fuel ps l = l.
Proof. destruct fuel; [done|]. cbn. by intros ->. Qed.

Lemma strip_any_prefix_None ps l k : strip_any ps (l ++ k)%list = None -> strip_any ps l = None.
Proof.
  rewrite !strip_any_None, !Forall_forall. intros H p Hp.
  destruct (strip p l) eqn:E; [|done]. apply (strip_prefix _ _ k) in E.
  rewrite H in E; done.
Qed.

Lemma space_seqs_nonempty : Forall (fun p => p <> []) space_seqs.
Proof. repeat constructor; done. Qed.

Lemma space_seqs_rev_nonempty : Forall (fun p => p <> []) (map (@rev ascii) space_seqs).
Proof. repeat constructor; done. Qed.

Lemma trim_back_front l :
  strip_any space_seqs l = None -> strip_any space_seqs (trim_back l) = None.
Proof.
  intros H. unfold trim_back.
  destruct (trim_left_spec (length l) _ (rev l) space_seqs_rev_nonempty) as [_ [p Hp]];
    [by rewrite length_rev|].
  apply (strip_any_prefix_None _ _ (rev p)).
  by rewrite <-rev_app_distr, <-Hp, rev_involutive.
Qed.

Lemma trim_back_idemp l : trim_back (trim_back l) = trim_back l.
Proof.
  unfold trim_back at 1. rewrite trim_left_id; [by rewrite rev_involutive|].
  unfold trim_back. rewrite rev_involutive.
  apply trim_left_spec; [apply space_seqs_rev_nonempty|by rewrite length_rev].
Qed.

Lemma TrimSpace_idemp s : TrimSpace (TrimSpace s) = TrimSpace s.
Proof.
  unfold TrimSpace. rewrite list_ascii_of_string_of_list_ascii. f_equal.
  set (l := list_ascii_of_string s).
  assert (Hf : strip_any space_seqs (trim_front l) = None).
  { apply trim_left_spec; [apply space_seqs_nonempty|done]. }
  unfold trim_front at 1. rewrite trim_left_id by (by apply trim_back_front).
  apply trim_back_idemp.
Qed.

(** No part of a space. *)
Definition solid (c : ascii) : bool := forallb (fun p => negb (existsb (Ascii.eqb c) p)) space_seqs.

Lemma trim_left_solid ps fuel l :
  Forall (fun p => p <> []) ps -> Forall (fun c => Forall (fun p => c ∉ p) ps) l -> trim_left fuel ps l = l.
Proof.
  intros Hne Hl. apply trim_left_id, strip_any_None, Forall_forall. intros p Hp.
  destruct (strip p l) as [r|] eqn:E; [|done]. apply strip_app in E as ->. rewrite Forall_forall in Hne.
  destruct p as [|c p]; [by destruct (Hne [])|]. cbn [app] in Hl. apply Forall_cons in Hl as [Hc _].
  rewrite Forall_forall in Hc. destruct (Hc _ Hp). by left.
Qed.

Lemma TrimSpace_solid s : Forall (fun c => solid c = true) (list_ascii_of_string s) -> TrimSpace s = s.
Proof.
  intros Hs. assert (Hl : Forall (fun c => Forall (fun p => c ∉ p) space_seqs) (list_ascii_of_string s)).
  { eapply Forall_impl; [exact Hs|]. intros c Hc. apply Forall_forall. intros p Hp Hin.
    unfold solid in Hc. rewrite List.forallb_forall in Hc. apply list_elem_of_In, Hc, negb_true_iff in Hp.
    assert (existsb (Ascii.eqb c) p = true); [|congruence]. apply existsb_exists. exists c.
    by rewrite Ascii.eqb_refl, <-list_elem_of_In. }
  unfold TrimSpace, trim_front. rewrite trim_left_solid by (done || apply space_seqs_nonempty). unfold trim_back.
  rewrite trim_left_solid; [by rewrite rev_involutive, string_of_list_ascii_of_string|apply space_seqs_rev_nonempty|].
  apply Forall_rev. eapply Forall_impl; [exact Hl|]. intros c Hc. apply Forall_map. eapply Forall_impl; [exact Hc|].
  intros p Hp Hin. apply Hp. by apply list_elem_of_In, in_rev, list_elem_of_In.
Qed.

Lemma append_nil s : (s ++ "")%string = s.
Proof. induction s as [|c s IH]; [done|]. change (String c s ++ "")%string with (String c (s ++ "")). by rewrite IH. Qed.

Lemma list_ascii_app s t :
  list_ascii_of_string (s ++ t)%string = (list_ascii_of_string s ++ list_ascii_of_string t)%list.
Proof.
  induction s as [|c s IH]; [done|]. change (String c s ++ t)%string with (String c (s ++ t)). cbn. by rewrite IH.
Qed.

Lemma TrimPrefix_app p s : TrimPrefix (p ++ s)%string p = s.
Proof.
  unfold TrimPrefix. rewrite HasPrefix_app, length_append.
  replace (String.length p + String.length s - String.length p)%nat with (String.length s) by lia.
  induction p as [|c p IH]; [apply substring_all|]. exact IH.
Qed.

#[export] Hint Rewrite TrimSpace_idemp : go_bool.

#[global] Arguments TrimSpace : simpl never.
#[global] Arguments TrimRightSlash : simpl never.
#[global] Arguments Quote : simpl never.
#[global] Arguments itoa : simpl never.
