(* ===== verification/Sha256.v ===== *)
(** * SHA-256 and the text encodings of byte strings

    The pieces of the Go standard library that [core/messages] and
    [core/identity] call: [crypto/sha256] (FIPS 180-4, on 32-bit words held in
    [Z] and wrapped after every addition), [encoding/hex] and the standard
    alphabet of [encoding/base64].  A Go [string] and a Go [[]byte] are both
    the Rocq [string] of their bytes.  Everything is executable: the known
    answers at the end are checked by computation. *)

From S2P Require Import Prelude.
Local Open Scope Z_scope.

Module Sha256.

Definition mask32 : Z := 0xffffffff.

Definition add32 (x y : Z) : Z := Z.land (x + y) mask32.

Definition rotr32 (x n : Z) : Z :=
  Z.lor (Z.shiftr x n) (Z.land (Z.shiftl x (32 - n)) mask32).

Definition Ch (x y z : Z) : Z := Z.lxor (Z.land x y) (Z.land (Z.lxor x mask32) z).

Definition Maj (x y z : Z) : Z :=
  Z.lxor (Z.land x y) (Z.lxor (Z.land x z) (Z.land y z)).

Definition big_sigma0 (x : Z) : Z := Z.lxor (rotr32 x 2) (Z.lxor (rotr32 x 13) (rotr32 x 22)).

Definition big_sigma1 (x : Z) : Z := Z.lxor (rotr32 x 6) (Z.lxor (rotr32 x 11) (rotr32 x 25)).

Definition small_sigma0 (x : Z) : Z := Z.lxor (rotr32 x 7) (Z.lxor (rotr32 x 18) (Z.shiftr x 3)).

Definition small_sigma1 (x : Z) : Z := Z.lxor (rotr32 x 17) (Z.lxor (rotr32 x 19) (Z.shiftr x 10)).

(** The [n]th round constant is the first 32 bits of the fractional part of the
    cube root of the [n]th prime, [floor (cbrt p * 2^32) mod 2^32]; the initial
    state takes the square roots.  Both tables are computed from this. *)
Fixpoint bisect (fuel : nat) (ok : Z -> bool) (lo hi : Z) : Z :=
  match fuel with
  | O => lo
  | S n => let mid := (lo + hi) / 2 in if ok mid then bisect n ok mid hi else bisect n ok lo mid
  end.

Definition primes : list Z :=
  List.filter (fun p => forallb (fun d => negb (p mod Z.of_nat d =? 0)) (seq 2 16))
    (map Z.of_nat (seq 19 293)).

Definition small_primes : list Z := [2; 3; 5; 7; 11; 13; 17].

Definition cbrt_bits (p : Z) : Z :=
  bisect 40 (fun x => x * x * x <=? Z.shiftl p 96) 0 (2 ^ 36) mod 2 ^ 32.

Definition sqrt_bits (p : Z) : Z := Z.sqrt (Z.shiftl p 64) mod 2 ^ 32.

Definition K : list Z := Eval vm_compute in map cbrt_bits (small_primes ++ primes).

Record hash_state := mkHash { ha : Z; hb : Z; hc : Z; hd : Z; he : Z; hf : Z; hg : Z; hh : Z }.

Definition initial : hash_state := Eval vm_compute in
  mkHash (sqrt_bits 2) (sqrt_bits 3) (sqrt_bits 5) (sqrt_bits 7)
    (sqrt_bits 11) (sqrt_bits 13) (sqrt_bits 17) (sqrt_bits 19).

(** One round, then the message schedule: [w] is the window of the next sixteen
    schedule words, its head the word of this round. *)
Fixpoint rounds (ks w : list Z) (s : hash_state) : hash_state :=
  match ks with
  | [] => s
  | k :: ks' =>
      let w0 := nth 0 w 0 in
      let t1 := add32 (hh s) (add32 (big_sigma1 (he s))
                  (add32 (Ch (he s) (hf s) (hg s)) (add32 k w0))) in
      let t2 := add32 (big_sigma0 (ha s)) (Maj (ha s) (hb s) (hc s)) in
      let w16 := add32 (small_sigma1 (nth 14 w 0))
                   (add32 (nth 9 w 0) (add32 (small_sigma0 (nth 1 w 0)) w0)) in
      rounds ks' (tl w ++ [w16])
        (mkHash (add32 t1 t2) (ha s) (hb s) (hc s) (add32 (hd s) t1) (he s) (hf s) (hg s))
  end.

Definition block (s : hash_state) (w : list Z) : hash_state :=
  let r := rounds K w s in
  mkHash (add32 (ha s) (ha r)) (add32 (hb s) (hb r)) (add32 (hc s) (hc r)) (add32 (hd s) (hd r))
         (add32 (he s) (he r)) (add32 (hf s) (hf r)) (add32 (hg s) (hg r)) (add32 (hh s) (hh r)).

(** Big-endian words of a byte list whose length is a multiple of four. *)
Fixpoint words_of_bytes (bs : list Z) : list Z :=
  match bs with
  | b0 :: b1 :: b2 :: b3 :: rest =>
      (Z.shiftl b0 24 + Z.shiftl b1 16 + Z.shiftl b2 8 + b3) :: words_of_bytes rest
  | _ => []
  end.

Definition be_bytes (n : nat) (z : Z) : list Z :=
  map (fun i => Z.land (Z.shiftr z (8 * Z.of_nat i)) 255) (rev (seq 0 n)).

(** Padding: a one bit, zeros up to 56 modulo 64, the bit length in 64 bits. *)
Definition pad (bs : list Z) : list Z :=
  let n := Z.of_nat (length bs) in
  bs ++ [128] ++ repeat 0 (Z.to_nat ((55 - n) mod 64)) ++ be_bytes 8 (8 * n).

Fixpoint blocks (fuel : nat) (ws : list Z) (s : hash_state) : hash_state :=
  match fuel, ws with
  | S n, _ :: _ => blocks n (skipn 16 ws) (block s (firstn 16 ws))
  | _, _ => s
  end.

Definition Sum256_bytes (bs : list Z) : list Z :=
  let ws := words_of_bytes (pad bs) in
  let s := blocks (length ws) ws initial in
  flat_map (be_bytes 4) [ha s; hb s; hc s; hd s; he s; hf s; hg s; hh s].

(** [sha256.Sum256]: the 32 bytes of the digest. *)
Definition Sum256 (m : string) : string := string_of_bytes (Sum256_bytes (bytes_of_string m)).

(** A digest is 32 bytes long. *)
Lemma length_Sum256_bytes bs : length (Sum256_bytes bs) = 32%nat.
Proof. unfold Sum256_bytes. cbv zeta. generalize (blocks (length (words_of_bytes (pad bs)))
  (words_of_bytes (pad bs)) initial). intros h. cbn [flat_map].
  unfold be_bytes. rewrite !length_app, !length_map, !length_rev, !length_seq. reflexivity. Qed.

Lemma length_Sum256 m : String.length (Sum256 m) = 32%nat.
Proof.
  unfold Sum256, string_of_bytes.
  rewrite length_string_of_list_ascii, length_map. apply length_Sum256_bytes.
Qed.

End Sha256.

(** The known answers of FIPS 180-4 for ["abc"] and the empty message. *)
Example Sum256_abc :
  bytes_of_string (Sha256.Sum256 "abc") =
  [0xba; 0x78; 0x16; 0xbf; 0x8f; 0x01; 0xcf; 0xea; 0x41; 0x41; 0x40; 0xde; 0x5d; 0xae; 0x22; 0x23;
   0xb0; 0x03; 0x61; 0xa3; 0x96; 0x17; 0x7a; 0x9c; 0xb4; 0x10; 0xff; 0x61; 0xf2; 0x00; 0x15; 0xad].
Proof. vm_compute. reflexivity. Qed.

Module Hex.

Definition digit (d : Z) : ascii := char_of (if d <? 10 then 48 + d else 87 + d).

(** [hex.EncodeToString]: two lower-case digits per byte. *)
Definition EncodeToString (s : string) : string :=
  string_of_list_ascii
    (flat_map (fun c => [digit (Z.shiftr (code c) 4); digit (Z.land (code c) 15)])
              (list_ascii_of_string s)).

(** Whether [hex.DecodeString] accepts a text: an even number of hexadecimal
    digits of either case. *)
Definition is_digit (c : ascii) : bool :=
  let n := code c in
  ((48 <=? n) && (n <=? 57)) || ((97 <=? n) && (n <=? 102)) || ((65 <=? n) && (n <=? 70)).

Definition DecodeString_ok (s : string) : bool :=
  Nat.even (String.length s) && forallb is_digit (list_ascii_of_string s).

Lemma length_EncodeToString s : String.length (EncodeToString s) = (2 * String.length s)%nat.
Proof.
  unfold EncodeToString. rewrite length_string_of_list_ascii.
  induction s as [|c s IH]; [done|]. cbn in *. lia.
Qed.

End Hex.


Module Base64.

(** The standard alphabet, as a position in [A-Za-z0-9+/]. *)
Definition enc_char (i : Z) : ascii :=
  char_of (if i <? 26 then 65 + i else if i <? 52 then 71 + i else if i <? 62 then i - 4
           else if i =? 62 then 43 else 47).

Definition dec_char (c : ascii) : option Z :=
  let n := code c in
  if (65 <=? n) && (n <=? 90) then Some (n - 65)
  else if (97 <=? n) && (n <=? 122) then Some (n - 71)
  else if (48 <=? n) && (n <=? 57) then Some (n + 4)
  else if n =? 43 then Some 62 else if n =? 47 then Some 63 else None.

Definition pad_char : ascii := "="%char.

Definition enc3 (b0 b1 b2 : Z) : list Z :=
  let n := b0 * 65536 + b1 * 256 + b2 in
  [n / 262144; (n / 4096) mod 64; (n / 64) mod 64; n mod 64].

Fixpoint encode_bytes (bs : list Z) : list ascii :=
  match bs with
  | b0 :: b1 :: b2 :: rest => map enc_char (enc3 b0 b1 b2) ++ encode_bytes rest
  | [b0; b1] => map enc_char (firstn 3 (enc3 b0 b1 0)) ++ [pad_char]
  | [b0] => map enc_char (firstn 2 (enc3 b0 0 0)) ++ [pad_char; pad_char]
  | [] => []
  end%list.

(** [base64.StdEncoding.EncodeToString]. *)
Definition EncodeToString (s : string) : string :=
  string_of_list_ascii (encode_bytes (bytes_of_string s)).

Definition dec4 (v0 v1 v2 v3 : Z) : list Z :=
  let n := v0 * 262144 + v1 * 4096 + v2 * 64 + v3 in
  [n / 65536; (n / 256) mod 256; n mod 256].

(** The text without its line breaks, which the decoder skips. *)
Definition skip_newlines (l : list ascii) : list ascii :=
  List.filter (fun c => negb ((code c =? 10) || (code c =? 13))) l.

Fixpoint decode_chars (l : list ascii) : option (list Z) :=
  match l with
  | [] => Some []
  | c0 :: c1 :: c2 :: c3 :: rest =>
      v0 ← dec_char c0; v1 ← dec_char c1;
      match dec_char c2, dec_char c3 with
      | Some v2, Some v3 => r ← decode_chars rest; Some (dec4 v0 v1 v2 v3 ++ r)
      | Some v2, None =>
          if Ascii.eqb c3 pad_char && bool_decide (rest = [])
          then Some (firstn 2 (dec4 v0 v1 v2 0)) else None
      | None, _ =>
          if Ascii.eqb c2 pad_char && Ascii.eqb c3 pad_char && bool_decide (rest = [])
          then Some (firstn 1 (dec4 v0 v1 0 0)) else None
      end
  | _ => None
  end%list.

(** [base64.StdEncoding.DecodeString]; the offset in the text of
    [CorruptInputError] is left out. *)
Definition DecodeString (s : string) : result string :=
  match decode_chars (skip_newlines (list_ascii_of_string s)) with
  | Some bs => Ok (string_of_bytes bs)
  | None => fail "illegal base64 data"
  end.

Lemma code_range c : 0 <= code c < 256.
Proof. unfold code. pose proof (N_ascii_bounded c). lia. Qed.

Lemma char_of_code c : char_of (code c) = c.
Proof. unfold char_of, code. by rewrite N2Z.id, ascii_N_embedding. Qed.

Lemma below_64 (P : Z -> bool) :
  forallb (fun n => P (Z.of_nat n)) (seq 0 64) = true -> forall i, 0 <= i < 64 -> P i = true.
Proof.
  intros Hall i Hi. rewrite forallb_forall in Hall.
  replace i with (Z.of_nat (Z.to_nat i)) by lia.
  apply Hall, in_seq. lia.
Qed.

Lemma dec_enc_char i : 0 <= i < 64 -> dec_char (enc_char i) = Some i.
Proof.
  intros Hi.
  pose proof (below_64 (fun i => match dec_char (enc_char i) with Some j => j =? i | None => false end)
                eq_refl i Hi) as H. cbv beta in H.
  destruct (dec_char (enc_char i)); [|done]. f_equal. lia.
Qed.

Lemma enc_char_not_newline i :
  0 <= i < 64 -> negb ((code (enc_char i) =? 10) || (code (enc_char i) =? 13)) = true.
Proof.
  apply (below_64 (fun i => negb ((code (enc_char i) =? 10) || (code (enc_char i) =? 13)))).
  vm_compute. reflexivity.
Qed.

Ltac div_lia := Z.div_mod_to_equations; lia.

Lemma enc3_range b0 b1 b2 :
  0 <= b0 < 256 -> 0 <= b1 < 256 -> 0 <= b2 < 256 ->
  Forall (fun v => 0 <= v < 64) (enc3 b0 b1 b2).
Proof. intros. unfold enc3. repeat constructor; div_lia. Qed.

Lemma dec4_enc3 b0 b1 b2 :
  0 <= b0 < 256 -> 0 <= b1 < 256 -> 0 <= b2 < 256 ->
  forall v0 v1 v2 v3, enc3 b0 b1 b2 = [v0; v1; v2; v3] -> dec4 v0 v1 v2 v3 = [b0; b1; b2].
Proof.
  intros H0 H1 H2 v0 v1 v2 v3 He. unfold enc3 in He. cbv zeta in He.
  injection He as <- <- <- <-. unfold dec4.
  set (n := b0 * 65536 + b1 * 256 + b2).
  replace (n / 262144 * 262144 + (n / 4096) mod 64 * 4096 + (n / 64) mod 64 * 64 + n mod 64)
    with n by div_lia.
  subst n. repeat f_equal; div_lia.
Qed.

(** Induction on a list three elements at a time. *)
Lemma list_ind3 {A} (P : list A -> Prop) :
  P [] -> (forall a, P [a]) -> (forall a b, P [a; b]) ->
  (forall a b c l, P l -> P (a :: b :: c :: l)) -> forall l, P l.
Proof.
  intros H0 H1 H2 H3. fix IH 1. intros [|a [|b [|c l]]];
    [apply H0|apply H1|apply H2|apply H3, IH].
Qed.

Lemma skip_newlines_enc vs l :
  Forall (fun v => 0 <= v < 64) vs ->
  skip_newlines (map enc_char vs ++ l)%list = (map enc_char vs ++ skip_newlines l)%list.
Proof.
  induction 1 as [|v vs Hv _ IH]; [done|].
  cbn. rewrite enc_char_not_newline by done. unfold skip_newlines in *. by rewrite IH.
Qed.

Ltac inv_forall H := rewrite ?Forall_cons in H; destruct_and? H.

Lemma skip_newlines_encode_bytes bs :
  Forall (fun b => 0 <= b < 256) bs -> skip_newlines (encode_bytes bs) = encode_bytes bs.
Proof.
  induction bs as [|b0|b0 b1|b0 b1 b2 bs IH] using list_ind3; [done|..]; intros Hbs;
    inv_forall Hbs; cbn [encode_bytes]; rewrite skip_newlines_enc;
    try (apply Forall_take); try (apply enc3_range; lia); [done..|].
  by rewrite IH.
Qed.

Lemma decode_quantum v0 v1 v2 v3 l :
  Forall (fun v => 0 <= v < 64) [v0; v1; v2; v3] ->
  decode_chars (map enc_char [v0; v1; v2; v3] ++ l)%list
  = (r ← decode_chars l; Some (dec4 v0 v1 v2 v3 ++ r)%list).
Proof. intros H. inv_forall H. cbn. by rewrite !dec_enc_char by lia. Qed.

Lemma decode_encode_bytes bs :
  Forall (fun b => 0 <= b < 256) bs -> decode_chars (encode_bytes bs) = Some bs.
Proof.
  induction bs as [|b0|b0 b1|b0 b1 b2 bs IH] using list_ind3; [done|..]; intros Hbs;
    inv_forall Hbs; cbn [encode_bytes].
  - pose proof (enc3_range b0 0 0 ltac:(lia) ltac:(lia) ltac:(lia)) as Hr.
    pose proof (dec4_enc3 b0 0 0 ltac:(lia) ltac:(lia) ltac:(lia) _ _ _ _ eq_refl) as Hd.
    unfold enc3 in *. cbv zeta in *. inv_forall Hr. revert Hd.
    replace ((b0 * 65536 + 0 * 256 + 0) mod 64) with 0 by div_lia.
    replace ((b0 * 65536 + 0 * 256 + 0) / 64 mod 64) with 0 by div_lia.
    intros Hd. cbn -[Z.div Z.modulo dec4]. rewrite !dec_enc_char by lia.
    cbn -[Z.div Z.modulo dec4]. by rewrite Hd.
  - pose proof (enc3_range b0 b1 0 ltac:(lia) ltac:(lia) ltac:(lia)) as Hr.
    pose proof (dec4_enc3 b0 b1 0 ltac:(lia) ltac:(lia) ltac:(lia) _ _ _ _ eq_refl) as Hd.
    unfold enc3 in *. cbv zeta in *. inv_forall Hr. revert Hd.
    replace ((b0 * 65536 + b1 * 256 + 0) mod 64) with 0 by div_lia.
    intros Hd. cbn -[Z.div Z.modulo dec4]. rewrite !dec_enc_char by lia.
    cbn -[Z.div Z.modulo dec4]. by rewrite Hd.
  - pose proof (enc3_range b0 b1 b2 ltac:(lia) ltac:(lia) ltac:(lia)) as Hr.
    pose proof (dec4_enc3 b0 b1 b2 ltac:(lia) ltac:(lia) ltac:(lia) _ _ _ _ eq_refl) as Hd.
    unfold enc3 in *. cbv zeta in *.
    rewrite decode_quantum, IH by done. cbn -[Z.div Z.modulo dec4]. by rewrite Hd.
Qed.

Lemma bytes_of_string_range s : Forall (fun b => 0 <= b < 256) (bytes_of_string s).
Proof.
  unfold bytes_of_string. apply Forall_fmap, Forall_true. intros c. apply code_range.
Qed.

Lemma string_of_bytes_of_string s : string_of_bytes (bytes_of_string s) = s.
Proof.
  unfold string_of_bytes, bytes_of_string. rewrite map_map.
  rewrite (map_ext _ id) by apply char_of_code.
  by rewrite map_id, string_of_list_ascii_of_string.
Qed.

(** Decoding inverts encoding, on every byte string. *)
Lemma DecodeString_EncodeToString s : DecodeString (EncodeToString s) = Ok s.
Proof.
  unfold DecodeString, EncodeToString. rewrite list_ascii_of_string_of_list_ascii.
  pose proof (bytes_of_string_range s) as Hs.
  by rewrite skip_newlines_encode_bytes, decode_encode_bytes, string_of_bytes_of_string.
Qed.

End Base64.
