(* ===== verification/Json.v ===== *)
(** * Canonical JSON and hashing: core/messages/canonical.go

    [CanonicalJSON] is [encoding/json]'s [Marshal].  The types the program
    marshals are structs of strings, integers, booleans, slices, byte slices
    and maps with string keys; a type's encoding is its value tree [json],
    written next to the type in the file that models it, and [Marshal] renders
    a tree the way the Go encoder does, HTML escaping and the replacement of
    invalid UTF-8 included. *)

From S2P Require Import Prelude Sha256.
Local Open Scope Z_scope.

#[warnings="-register-all"]
Inductive json :=
| JNull
| JBool (b : bool)
| JInt (z : Z)
| JNum (literal : string)   (* any other number literal; no type of the program encodes to one *)
| JStr (s : string)
| JArr (l : list json)
| JObj (fields : list (string * json)).

(** A [[]byte] value is encoded as base64 text; the nil slice as [null]. *)
Definition JBytes (b : string) : json := JStr (Base64.EncodeToString b).

Definition JBytes_nil (b : option string) : json :=
  match b with Some b => JBytes b | None => JNull end.

(** A slice of bytes that is [nil] when it is empty: [append([]byte(nil), b...)]. *)
Definition bytes_json (s : string) : json := if String.eqb s "" then JNull else JBytes s.

(** [omitempty] on a number and on a string. *)
Definition omit_int (key : string) (z : Z) : list (string * json) :=
  if z =? 0 then [] else [(key, JInt z)].

Definition omit_str (key s : string) : list (string * json) :=
  if String.eqb s "" then [] else [(key, JStr s)].

(** A map is encoded with its keys sorted. *)
Definition JMap {V} (enc : V -> json) (m : gmap string V) : json :=
  JObj (omap (fun k => v ← m !! k; Some (k, enc v)) (sorted_keys m)).

(** ** Strings *)

Definition in_range (lo hi b : Z) : bool := (lo <=? b) && (b <=? hi).

Definition cont (b : Z) : bool := in_range 0x80 0xBF b.

(** The number of bytes of the first rune, [0] when the bytes are not the UTF-8
    encoding of one. *)
Definition rune_width (bs : list Z) : nat :=
  match bs with
  | [] => 0%nat
  | b0 :: r =>
      if b0 <? 0x80 then 1%nat
      else match r with
      | b1 :: r1 =>
          if in_range 0xC2 0xDF b0 then (if cont b1 then 2 else 0)%nat
          else match r1 with
          | b2 :: r2 =>
              if in_range 0xE0 0xEF b0 then
                let ok1 := if b0 =? 0xE0 then in_range 0xA0 0xBF b1
                           else if b0 =? 0xED then in_range 0x80 0x9F b1 else cont b1 in
                (if ok1 && cont b2 then 3 else 0)%nat
              else match r2 with
              | b3 :: _ =>
                  let ok1 := if b0 =? 0xF0 then in_range 0x90 0xBF b1
                             else if b0 =? 0xF4 then in_range 0x80 0x8F b1
                             else in_range 0xF1 0xF3 b0 && cont b1 in
                  (if ok1 && cont b2 && cont b3 then 4 else 0)%nat
              | [] => 0%nat
              end
          | [] => 0%nat
          end
      | [] => 0%nat
      end
  end.

Definition hex_digit (d : Z) : Z := if d <? 10 then 48 + d else 87 + d.

(** The text of [\u00xx]. *)
Definition u00 (b : Z) : list Z := [92; 117; 48; 48; hex_digit (b / 16); hex_digit (b mod 16)].

Definition escape_ascii (b : Z) : list Z :=
  if (b =? 34) || (b =? 92) then [92; b]
  else if b =? 8 then [92; 98] else if b =? 12 then [92; 102]
  else if b =? 10 then [92; 110] else if b =? 13 then [92; 114]
  else if b =? 9 then [92; 116]
  else if (b <? 32) || (b =? 60) || (b =? 62) || (b =? 38) then u00 b
  else [b].

(** The bytes of the text [\ufffd]. *)
Definition replacement : list Z := [92; 117; 102; 102; 102; 100].

Definition escape_rune (rune : list Z) : list Z :=
  match rune with
  | [b] => escape_ascii b
  | _ =>
      if bool_decide (rune = [0xE2; 0x80; 0xA8]) then [92; 117; 50; 48; 50; 56]
      else if bool_decide (rune = [0xE2; 0x80; 0xA9]) then [92; 117; 50; 48; 50; 57]
      else rune
  end.

Fixpoint escape (fuel : nat) (bs : list Z) : list Z :=
  match fuel, bs with
  | S n, _ :: _ =>
      match rune_width bs with
      | O => replacement ++ escape n (skipn 1 bs)
      | w => escape_rune (firstn w bs) ++ escape n (skipn w bs)
      end
  | _, _ => []
  end%list.

Definition quote (s : string) : string :=
  let bs := bytes_of_string s in
  String "034"%char (String.append (string_of_bytes (escape (length bs) bs)) (String "034"%char EmptyString)).

(** ** The encoder *)

Definition join (parts : list string) : string := String.concat "," parts.

Fixpoint Marshal (v : json) : string :=
  match v with
  | JNull => "null"
  | JBool b => if b then "true" else "false"
  | JInt z => itoa z
  | JNum literal => literal
  | JStr s => quote s
  | JArr l => String.append "[" (String.append (join (map Marshal l)) "]")
  | JObj fs =>
      String.append "{" (String.append
        (join (map (fun '(k, v) => String.append (quote k) (String.append ":" (Marshal v))) fs)) "}")
  end.

(** ** core/messages *)

(** The encoder fails on no value of the types the program marshals. *)
Definition CanonicalJSON (v : json) : result string := Ok (Marshal v).

Definition HashBytes (message : string) : string := Hex.EncodeToString (Sha256.Sum256 message).

Definition HashCanonical (v : json) : result string :=
  b ← CanonicalJSON v; Ok (HashBytes b).

(** A hash is 64 hexadecimal digits, in particular not the empty string. *)
Lemma length_HashBytes m : String.length (HashBytes m) = 64%nat.
Proof. unfold HashBytes. by rewrite Hex.length_EncodeToString, Sha256.length_Sum256. Qed.

Lemma HashCanonical_ok v : HashCanonical v = Ok (HashBytes (Marshal v)).
Proof. reflexivity. Qed.

#[export] Hint Rewrite HashCanonical_ok : go_bool.

(** A tree with every kind of value, checked against the Go encoder's output. *)
Example Marshal_example :
  Marshal (JObj [("a", JArr [JInt 1; JInt (-20); JNull]); ("b<&", JStr "x
y"); ("c", JBytes "ab"); ("d", JBool true)])
  = ("{" ++ quote "a" ++ ":[1,-20,null]," ++ quote "b<&" ++ ":" ++ quote "x
y" ++ "," ++ quote "c" ++ ":" ++ quote "YWI=" ++ "," ++ quote "d" ++ ":true}")%string.
Proof. vm_compute. reflexivity. Qed.

Example quote_example :
  bytes_of_string (quote (string_of_bytes [60; 10; 0xFF; 0xC3; 0xA9]))
  = bytes_of_string (string_of_bytes
      ([34; 92; 117; 48; 48; 51; 99; 92; 110] ++ replacement ++ [0xC3; 0xA9; 34])%list).
Proof. vm_compute. reflexivity. Qed.

Lemma HashBytes_eq m : HashBytes m = Hex.EncodeToString (Sha256.Sum256 m).
Proof. reflexivity. Qed.

(** Hashes and encodings are compared, never unfolded, in proofs. *)
#[global] Opaque HashBytes Marshal.
#[global] Arguments HashCanonical : simpl never.
#[global] Arguments HashBytes : simpl never.
#[global] Arguments Marshal : simpl never.
