(* ===== verification/JsonParse.v ===== *)
(** * Decoding JSON: encoding/json's Unmarshal

    The inverse of [Marshal]: a parser of JSON text into the value tree, and
    the readers that fill a field of a struct from an object.  Keys match field
    names case-insensitively, unknown keys are skipped, [null] leaves a field
    alone, and a value of the wrong type is an error, as in the Go package.
    The text of a decoding error is not modelled: it is [json_error]. *)

From S2P Require Import Prelude Sha256 Json.
Local Open Scope Z_scope.

Definition json_error {A} : result A := fail "invalid JSON".

(** ** Strings *)

(** The UTF-8 encoding of a code point below [0x10000], and of one above. *)
Definition encode_rune (r : Z) : list Z :=
  if r <? 0x80 then [r]
  else if r <? 0x800 then [0xC0 + r / 64; 0x80 + r mod 64]
  else if r <? 0x10000 then [0xE0 + r / 4096; 0x80 + r / 64 mod 64; 0x80 + r mod 64]
  else [0xF0 + r / 262144; 0x80 + r / 4096 mod 64; 0x80 + r / 64 mod 64; 0x80 + r mod 64].

Definition replacement_rune : list Z := [0xEF; 0xBF; 0xBD].

Definition hex_value (b : Z) : option Z :=
  if in_range 48 57 b then Some (b - 48)
  else if in_range 97 102 b then Some (b - 87)
  else if in_range 65 70 b then Some (b - 55)
  else None.

Definition hex4 (bs : list Z) : option (Z * list Z) :=
  match bs with
  | a :: b :: c :: d :: r =>
      a ← hex_value a; b ← hex_value b; c ← hex_value c; d ← hex_value d;
      Some (((a * 16 + b) * 16 + c) * 16 + d, r)
  | _ => None
  end.

(** The low half of a surrogate pair, when the text goes on with one. *)
Definition low_surrogate (bs : list Z) : option (Z * list Z) :=
  match bs with
  | a :: b :: r =>
      if (a =? 92) && (b =? 117) then
        '(lo, r) ← hex4 r; if in_range 0xDC00 0xDFFF lo then Some (lo, r) else None
      else None
  | _ => None
  end.

(** What follows a backslash: the bytes it stands for and the rest. *)
Definition escape_sequence (bs : list Z) : option (list Z * list Z) :=
  match bs with
  | [] => None
  | c :: r =>
      if (c =? 34) || (c =? 92) || (c =? 47) then Some ([c], r)
      else if c =? 98 then Some ([8], r) else if c =? 102 then Some ([12], r)
      else if c =? 110 then Some ([10], r) else if c =? 114 then Some ([13], r)
      else if c =? 116 then Some ([9], r)
      else if c =? 117 then
        '(u, r) ← hex4 r;
        if in_range 0xD800 0xDBFF u then
          match low_surrogate r with
          | Some (lo, r') =>
              Some (encode_rune (0x10000 + (u - 0xD800) * 1024 + (lo - 0xDC00)), r')
          | None => Some (replacement_rune, r)
          end
        else if in_range 0xDC00 0xDFFF u then Some (replacement_rune, r)
        else Some (encode_rune u, r)
      else None
  end.

(** The content of a string literal whose opening quote has been read. *)
Fixpoint unquote (fuel : nat) (bs : list Z) : option (list Z * list Z) :=
  match fuel, bs with
  | S n, b :: r =>
      if b =? 34 then Some ([], r)
      else if b =? 92 then
        '(out, r) ← escape_sequence r; '(s, r) ← unquote n r; Some (out ++ s, r)
      else if b <? 32 then None
      else match rune_width bs with
           | O => '(s, r) ← unquote n r; Some (replacement_rune ++ s, r)
           | w => '(s, r) ← unquote n (skipn w bs); Some (firstn w bs ++ s, r)
           end
  | _, _ => None
  end%list.

(** ** Numbers *)

Definition is_digit (b : Z) : bool := in_range 48 57 b.

Definition number_byte (b : Z) : bool :=
  is_digit b || (b =? 45) || (b =? 43) || (b =? 46) || (b =? 101) || (b =? 69).

Fixpoint span (p : Z -> bool) (bs : list Z) : list Z * list Z :=
  match bs with
  | b :: r => if p b then let '(l, r) := span p r in (b :: l, r) else ([], bs)
  | [] => ([], [])
  end.

Definition decimal (a : Z) (bs : list Z) : Z := fold_left (fun a b => 10 * a + (b - 48)) bs a.

(** A run of digits without a superfluous leading zero. *)
Definition integer_digits (bs : list Z) : bool :=
  match bs with
  | [] => false
  | [b] => is_digit b
  | b :: _ => negb (b =? 48) && forallb is_digit bs
  end.

Definition exponent (bs : list Z) : bool :=
  match bs with
  | [] => true
  | e :: r =>
      ((e =? 101) || (e =? 69)) &&
      match r with
      | [] => false
      | s :: r' =>
          if (s =? 43) || (s =? 45) then
            match r' with [] => false | _ => forallb is_digit r' end
          else forallb is_digit r
      end
  end.

Definition number_literal (bs : list Z) : bool :=
  let bs := match bs with b :: r => if b =? 45 then r else bs | [] => [] end in
  let '(int, rest) := span is_digit bs in
  integer_digits int &&
  match rest with
  | b :: r =>
      if b =? 46 then
        let '(frac, rest) := span is_digit r in
        match frac with [] => false | _ => exponent rest end
      else exponent rest
  | [] => true
  end.

Definition number (bs : list Z) : option json :=
  match bs with
  | [] => None
  | b :: r =>
      if integer_digits bs then Some (JInt (decimal 0 bs))
      else if (b =? 45) && integer_digits r && negb (decimal 0 r =? 0)
      then Some (JInt (- decimal 0 r))
      else if number_literal bs then Some (JNum (string_of_bytes bs))
      else None
  end.

(** ** Values *)

Definition is_space (b : Z) : bool := (b =? 32) || (b =? 9) || (b =? 10) || (b =? 13).

Definition skip_space (bs : list Z) : list Z := snd (span is_space bs).

(** [expect lit bs] is what follows the literal [lit]. *)
Fixpoint expect (lit bs : list Z) : option (list Z) :=
  match lit, bs with
  | [], _ => Some bs
  | a :: lit', b :: bs' => if a =? b then expect lit' bs' else None
  | _ :: _, [] => None
  end.

(** The values of the open array or object: an element or a member, then a
    comma and the next one, or the closing bracket. *)
Fixpoint parse_value (fuel : nat) (bs : list Z) : option (json * list Z) :=
  match fuel with
  | O => None
  | S n =>
      match skip_space bs with
      | [] => None
      | b :: r =>
          if b =? 34 then '(s, r) ← unquote (length r) r; Some (JStr (string_of_bytes s), r)
          else if b =? 91 then
            match expect [93] (skip_space r) with
            | Some r' => Some (JArr [], r')
            | None => '(l, r) ← parse_elements n r; Some (JArr l, r)
            end
          else if b =? 123 then
            match expect [125] (skip_space r) with
            | Some r' => Some (JObj [], r')
            | None => '(l, r) ← parse_members n r; Some (JObj l, r)
            end
          else if b =? 116 then r ← expect [114; 117; 101] r; Some (JBool true, r)
          else if b =? 102 then r ← expect [97; 108; 115; 101] r; Some (JBool false, r)
          else if b =? 110 then r ← expect [117; 108; 108] r; Some (JNull, r)
          else
            let '(lit, r) := span number_byte (b :: r) in v ← number lit; Some (v, r)
      end
  end
with parse_elements (fuel : nat) (bs : list Z) : option (list json * list Z) :=
  match fuel with
  | O => None
  | S n =>
      '(v, r) ← parse_value n bs;
      match skip_space r with
      | c :: r =>
          if c =? 44 then '(l, r) ← parse_elements n r; Some (v :: l, r)
          else if c =? 93 then Some ([v], r) else None
      | [] => None
      end
  end
with parse_members (fuel : nat) (bs : list Z) : option (list (string * json) * list Z) :=
  match fuel with
  | O => None
  | S n =>
      r ← expect [34] (skip_space bs);
      '(k, r) ← unquote (length r) r;
      r ← expect [58] (skip_space r);
      '(v, r) ← parse_value n r;
      let kv := (string_of_bytes k, v) in
      match skip_space r with
      | c :: r =>
          if c =? 44 then '(l, r) ← parse_members n r; Some (kv :: l, r)
          else if c =? 125 then Some ([kv], r) else None
      | [] => None
      end
  end.

(** Every nested value consumes a byte, so the length of the text is fuel
    enough. *)
Definition parse (s : string) : result json :=
  let bs := bytes_of_string s in
  match parse_value (2 * length bs + 1) bs with
  | Some (v, r) => match skip_space r with [] => Ok v | _ => json_error end
  | None => json_error
  end.

(** ** Well-formed values *)

(** The bytes are the UTF-8 encoding of a sequence of runes. *)
Fixpoint valid_utf8 (fuel : nat) (bs : list Z) : bool :=
  match fuel, bs with
  | S n, _ :: _ =>
      match rune_width bs with O => false | w => valid_utf8 n (skipn w bs) end
  | _, _ => true
  end.

Definition utf8 (s : string) : bool := valid_utf8 (String.length s) (bytes_of_string s).

(** The values a program's type encodes to, with every string valid UTF-8. *)
Fixpoint json_ok (v : json) : bool :=
  match v with
  | JNull | JBool _ | JInt _ => true
  | JNum _ => false
  | JStr s => utf8 s
  | JArr l => forallb json_ok l
  | JObj fs => forallb (fun '(k, v) => utf8 k && json_ok v) fs
  end.

(** ** Strings round trip *)

Definition byte (b : Z) : Prop := 0 <= b < 256.

Lemma code_byte c : byte (code c).
Proof. apply Base64.code_range. Qed.

Lemma bytes_of_string_bytes s : Forall byte (bytes_of_string s).
Proof. apply Base64.bytes_of_string_range. Qed.

Lemma bytes_of_string_app a b :
  bytes_of_string (a ++ b)%string = (bytes_of_string a ++ bytes_of_string b)%list.
Proof.
  induction a as [|c a IH]; [done|].
  change (code c :: bytes_of_string (a ++ b)%string
          = code c :: (bytes_of_string a ++ bytes_of_string b)%list). by rewrite IH.
Qed.

Lemma code_char_of b : byte b -> code (char_of b) = b.
Proof. unfold byte, char_of, code. intros Hb. rewrite N_ascii_embedding; lia. Qed.

Lemma bytes_of_string_of_bytes bs :
  Forall byte bs -> bytes_of_string (string_of_bytes bs) = bs.
Proof.
  intros H. unfold bytes_of_string, string_of_bytes.
  rewrite list_ascii_of_string_of_list_ascii, map_map.
  induction H as [|b bs Hb _ IH]; [done|]. cbn. by rewrite code_char_of, IH.
Qed.

Lemma length_bytes_of_string s : length (bytes_of_string s) = String.length s.
Proof. unfold bytes_of_string. rewrite length_map. induction s; cbn; congruence. Qed.

Lemma in_range_spec lo hi b : in_range lo hi b = true <-> lo <= b <= hi.
Proof. unfold in_range. autorewrite with go_bool. done. Qed.

Ltac zdiv := Z.to_euclidean_division_equations; lia.

Lemma hex_value_digit d : 0 <= d < 16 -> hex_value (hex_digit d) = Some d.
Proof.
  intros Hd. unfold hex_value, hex_digit. destruct (Z.ltb_spec d 10).
  - rewrite (proj2 (in_range_spec 48 57 _)) by lia. f_equal. lia.
  - replace (in_range 48 57 (87 + d)) with false by (symmetry; unfold in_range; lia).
    rewrite (proj2 (in_range_spec 97 102 _)) by lia. f_equal. lia.
Qed.

(** The width of a rune depends on its own bytes only, and is at most theirs. *)
Lemma rune_width_firstn bs tail :
  rune_width bs <> 0%nat ->
  rune_width (firstn (rune_width bs) bs ++ tail)%list = rune_width bs /\
  length (firstn (rune_width bs) bs) = rune_width bs.
Proof.
  remember (rune_width bs) as w eqn:Hw. intros Hnz. unfold rune_width in Hw.
  repeat (match type of Hw with
          | _ = match ?l with [] => _ | _ => _ end => destruct l
          | _ = if ?c then _ else _ => let E := fresh "E" in destruct c eqn:E
          end; try (by subst w));
    subst w; cbn; unfold in_range, cont in *;
    repeat match goal with E : ?c = _ |- context [?c] => rewrite E; cbn end; done.
Qed.

(** A multi-byte rune starts with a byte that is not ASCII. *)
Lemma rune_width_ascii b bs : rune_width (b :: bs) = 1%nat <-> b <? 0x80 = true.
Proof.
  split; [|by cbn; intros ->]. unfold rune_width. destruct (b <? 0x80); [done|].
  destruct bs as [|b1 [|b2 [|b3 bs]]]; try done;
    repeat (match goal with |- context [if ?c then _ else _] => destruct c end; try done).
Qed.

Lemma unquote_ascii n b tail :
  0 <= b < 0x80 ->
  unquote (S n) (escape_ascii b ++ tail)%list
  = ('(s, r) ← unquote n tail; Some (b :: s, r)).
Proof.
  intros Hb. unfold escape_ascii.
  destruct ((b =? 34) || (b =? 92)) eqn:E1.
  { cbn. rewrite orb_true_iff in E1. by destruct E1 as [->| ->], (b =? 34). }
  apply orb_false_iff in E1 as [E34 E92].
  repeat match goal with |- context [if b =? ?k then _ else _] =>
    destruct (Z.eqb_spec b k) as [->|]; [done|] end.
  destruct (_ || _) eqn:E2.
  - cbn. rewrite !hex_value_digit by zdiv. cbn.
    replace ((((48 - 48) * 16 + (48 - 48)) * 16 + b / 16) * 16 + b mod 16) with b by zdiv.
    replace (in_range 0xD800 0xDBFF b) with false by (symmetry; unfold in_range; lia).
    replace (in_range 0xDC00 0xDFFF b) with false by (symmetry; unfold in_range; lia).
    unfold encode_rune. by rewrite (proj2 (Z.ltb_lt b _)) by lia.
  - cbn. rewrite E34, E92. apply orb_false_iff in E2 as [[[E2 _]%orb_false_iff _]%orb_false_iff _].
    rewrite E2. by rewrite (proj2 (Z.ltb_lt b 128)) by lia.
Qed.

Lemma unquote_rune n bs tail :
  Forall byte bs -> rune_width bs <> 0%nat ->
  let rune := firstn (rune_width bs) bs in
  unquote (S n) (escape_rune rune ++ tail)%list
  = ('(s, r) ← unquote n tail; Some (rune ++ s, r))%list.
Proof.
  intros Hb Hw rune. destruct (rune_width_firstn bs tail Hw) as [Hw' Hlen].
  fold rune in Hw', Hlen. destruct bs as [|b bs]; [done|].
  apply Forall_cons in Hb as [Hb _].
  destruct (decide (b < 0x80)) as [Hlt|Hge].
  { assert (rune = [b]) as ->.
    { subst rune. by rewrite (proj2 (rune_width_ascii b bs)) by (apply Z.ltb_lt; lia). }
    apply unquote_ascii. unfold byte in Hb. lia. }
  assert (Hr : exists c l, rune = b :: c :: l).
  { destruct (rune_width (b :: bs)) as [|[|w]] eqn:E; [done| |].
    - apply rune_width_ascii, Z.ltb_lt in E. lia.
    - subst rune. cbn in *. destruct bs as [|c bs]; [cbn in Hlen; lia|]. by eexists _, _. }
  destruct Hr as (c & l & Hr). rewrite Hr in Hw', Hlen |- *.
  cbn [escape_rune]. case_bool_decide as E1; [by rewrite E1|].
  case_bool_decide as E2; [by rewrite E2|].
  cbn [app unquote]. rewrite !(proj2 (Z.eqb_neq b _)), (proj2 (Z.ltb_ge b _)) by lia.
  cbn [app] in Hw'. rewrite Hw'. destruct (rune_width (b :: bs)) as [|w]; [done|].
  change (b :: c :: l ++ tail)%list with ((b :: c :: l) ++ tail)%list. rewrite <-Hlen.
  by rewrite skipn_app, firstn_app, Nat.sub_diag, skipn_all, firstn_all, app_nil_r.
Qed.

Lemma unquote_escape fuel bs n rest :
  Forall byte bs -> valid_utf8 fuel bs = true -> (length bs <= fuel < n)%nat ->
  unquote n (escape fuel bs ++ 34 :: rest)%list = Some (bs, rest).
Proof.
  revert bs n. induction fuel as [|fuel IH]; intros bs [|n] Hb Hv Hl; try lia.
  { destruct bs; [done|cbn in Hl; lia]. }
  destruct bs as [|b bs]; [done|].
  cbn [valid_utf8 escape] in *.
  destruct (rune_width (b :: bs)) as [|w] eqn:E; [done|]. rewrite <-E in Hv |- *.
  rewrite <-app_assoc. rewrite unquote_rune by (done || congruence).
  rewrite IH; [cbn; by rewrite firstn_skipn|by apply Forall_drop|done|].
  rewrite length_skipn, E. cbn in *. lia.
Qed.

Lemma escape_length fuel bs : (length bs <= fuel)%nat -> (length bs <= length (escape fuel bs))%nat.
Proof.
  revert bs. induction fuel as [|fuel IH]; intros bs Hl; [done|].
  destruct bs as [|b bs]; [cbn; lia|]. cbn [escape].
  assert (Hstep : forall w, (length (skipn w (b :: bs)) <= length (escape fuel (skipn w (b :: bs))) \/ w = O)%nat).
  { intros [|w]; [by right|left]. apply IH. rewrite length_skipn. cbn in *. lia. }
  destruct (rune_width (b :: bs)) as [|w] eqn:E.
  - rewrite length_app. destruct (Hstep 1%nat) as [H|]; [|done].
    change (drop 1 (b :: bs)) with bs in *.
    cbn [length] in *. change (length replacement) with 6%nat. lia.
  - assert (Hw : rune_width (b :: bs) <> 0%nat) by congruence.
    destruct (rune_width_firstn (b :: bs) [] Hw) as [_ Hf]. rewrite E in Hf.
    destruct (Hstep (S w)) as [H|]; [|done]. rewrite length_app.
    assert (length (firstn (S w) (b :: bs)) <= length (escape_rune (firstn (S w) (b :: bs))))%nat.
    { unfold escape_rune. destruct (firstn _ _) as [|x [|y l]]; [done| |].
      - unfold escape_ascii. repeat case_match; cbn; lia.
      - repeat case_bool_decide; [| |done]; cbn;
          match goal with H : _ = _ |- _ => injection H as _ _ -> end; cbn; lia. }
    rewrite <-(firstn_skipn (S w) (b :: bs)) at 1. rewrite length_app. lia.
Qed.

(** ASCII text, such as a hash, is valid UTF-8. *)
Lemma ascii_utf8 s : Forall (fun b => b < 0x80) (bytes_of_string s) -> utf8 s = true.
Proof.
  intros H. unfold utf8. generalize (String.length s). intros n.
  revert H. generalize (bytes_of_string s). clear s.
  induction n as [|n IH]; intros bs Hbs; [done|]. destruct Hbs as [|b bs Hb Hbs]; [done|].
  cbn [valid_utf8]. rewrite (proj2 (rune_width_ascii b bs)) by by apply Z.ltb_lt.
  by apply IH.
Qed.

Lemma utf8_hex s : utf8 (Hex.EncodeToString s) = true.
Proof.
  apply ascii_utf8. unfold Hex.EncodeToString, bytes_of_string.
  rewrite list_ascii_of_string_of_list_ascii.
  assert (Hd : forall d, 0 <= d < 16 -> code (Hex.digit d) < 0x80).
  { intros d Hd. unfold Hex.digit. rewrite code_char_of; unfold byte; destruct (Z.ltb_spec d 10); lia. }
  induction s as [|c s IH]; [constructor|]. cbn.
  pose proof (Base64.code_range c).
  constructor; [|constructor; [|exact IH]]; apply Hd.
  - rewrite Z.shiftr_div_pow2 by lia. change (2 ^ 4) with 16. zdiv.
  - change 15 with (Z.ones 4). rewrite Z.land_ones by lia. change (2 ^ 4) with 16. zdiv.
Qed.

Lemma enc_char_ascii i : 0 <= i < 64 -> code (Base64.enc_char i) < 0x80.
Proof.
  intros Hi. assert (Hall : forallb (fun n => code (Base64.enc_char (Z.of_nat n)) <? 0x80) (seq 0 64) = true)
    by (vm_compute; reflexivity).
  rewrite forallb_forall in Hall. specialize (Hall (Z.to_nat i)). rewrite in_seq, Z2Nat.id in Hall by lia.
  by apply Z.ltb_lt, Hall; lia.
Qed.

Lemma enc3_no_newline b0 b1 b2 :
  byte b0 -> byte b1 -> byte b2 -> Forall (fun c => code c < 0x80) (map Base64.enc_char (Base64.enc3 b0 b1 b2)).
Proof.
  unfold byte. intros H0 H1 H2. unfold Base64.enc3. cbv zeta. set (n := b0 * 65536 + b1 * 256 + b2).
  assert (Hn : 0 <= n < 16777216) by (unfold n; lia).
  assert (Hm : forall z, 0 <= z mod 64 < 64) by (intros z; apply Z.mod_pos_bound; lia).
  repeat (constructor; [apply enc_char_ascii; done || idtac|]); [|constructor].
  split; [apply Z.div_pos; lia|apply Z.div_lt_upper_bound; lia].
Qed.

Lemma encode_bytes_ascii k bs :
  (length bs <= k)%nat -> Forall byte bs -> Forall (fun c => code c < 0x80) (Base64.encode_bytes bs).
Proof.
  revert bs. induction k as [|k IH]; intros bs Hk Hb; [destruct bs; [constructor|cbn in Hk; lia]|].
  assert (Hpad : code Base64.pad_char < 0x80) by (vm_compute; reflexivity).
  destruct bs as [|b0 [|b1 [|b2 rest]]]; [constructor|..]; cbn [Base64.encode_bytes];
    repeat match goal with Hf : Forall _ (_ :: _) |- _ => apply Forall_cons in Hf as [? ?] end.
  - apply Forall_app. split; [|by repeat constructor]. rewrite <-firstn_map.
    apply Forall_take, enc3_no_newline; [done|unfold byte; lia..].
  - apply Forall_app. split; [|by repeat constructor]. rewrite <-firstn_map.
    apply Forall_take, enc3_no_newline; [done|done|unfold byte; lia].
  - apply Forall_app. split; [by apply enc3_no_newline|]. apply IH; [cbn in Hk; lia|done].
Qed.

(** Base64 text is ASCII. *)
Lemma base64_utf8 s : utf8 (Base64.EncodeToString s) = true.
Proof.
  apply ascii_utf8. unfold Base64.EncodeToString, bytes_of_string.
  rewrite list_ascii_of_string_of_list_ascii. apply Forall_map.
  apply (encode_bytes_ascii _ _ (le_n _)), bytes_of_string_bytes.
Qed.

Lemma utf8_HashBytes m : utf8 (HashBytes m) = true.
Proof. rewrite HashBytes_eq. apply utf8_hex. Qed.

(** Nor does it have anything to trim. *)
Lemma hex_solid s : TrimSpace (Hex.EncodeToString s) = Hex.EncodeToString s.
Proof.
  apply TrimSpace_solid. unfold Hex.EncodeToString. rewrite list_ascii_of_string_of_list_ascii.
  assert (Hd : forall d, 0 <= d < 16 -> solid (Hex.digit d) = true).
  { intros d Hd. assert (Hall : forallb (fun n => solid (Hex.digit (Z.of_nat n))) (seq 0 16) = true)
      by (vm_compute; reflexivity).
    rewrite forallb_forall in Hall. specialize (Hall (Z.to_nat d)). rewrite in_seq, Z2Nat.id in Hall by lia.
    apply Hall. lia. }
  induction s as [|c s IH]; [constructor|]. cbn. pose proof (Base64.code_range c).
  constructor; [|constructor; [|exact IH]]; apply Hd.
  - rewrite Z.shiftr_div_pow2 by lia. change (2 ^ 4) with 16. zdiv.
  - change 15 with (Z.ones 4). rewrite Z.land_ones by lia. change (2 ^ 4) with 16. zdiv.
Qed.

Lemma HashBytes_not_blank m : blank (HashBytes m) = false.
Proof.
  unfold blank. rewrite HashBytes_eq, hex_solid, <-HashBytes_eq. apply String.eqb_neq. intros H.
  pose proof (length_HashBytes m) as Hl. by rewrite H in Hl.
Qed.

(** ** Numbers round trip *)

Lemma digits_spec fuel z acc :
  0 <= z < 2 ^ Z.of_nat fuel -> (1 <= fuel)%nat ->
  exists l, l <> [] /\ bytes_of_string (digits fuel z acc) = (l ++ bytes_of_string acc)%list /\
    forallb is_digit l = true /\ (forall a, decimal a l = 10 ^ Z.of_nat (length l) * a + z) /\
    (0 < z -> hd 0 l <> 48) /\ (z = 0 -> l = [48]).
Proof.
  revert z acc. induction fuel as [|fuel IH]; intros z acc Hz Hf; [lia|].
  set (d := 48 + z mod 10).
  assert (Hd : byte d /\ is_digit d = true).
  { subst d. unfold byte, is_digit. rewrite in_range_spec. zdiv. }
  assert (Hacc : bytes_of_string (String (char_of d) acc) = d :: bytes_of_string acc).
  { change (code (char_of d) :: bytes_of_string acc = d :: bytes_of_string acc).
    by rewrite code_char_of by apply Hd. }
  cbn [digits]. fold d. destruct (Z.ltb_spec z 10) as [Hlt|Hge].
  - exists [d]. split_and!; [done|done|cbn; by rewrite (proj2 Hd)| | |].
    + intros a. cbn. subst d. zdiv.
    + cbn. subst d. zdiv.
    + intros H0. subst d. by rewrite H0.
  - assert (Hq : z / 10 < 2 ^ Z.of_nat fuel).
    { rewrite Nat2Z.inj_succ, Z.pow_succ_r in Hz by lia. zdiv. }
    assert (1 <= fuel)%nat by (destruct fuel; [cbn in Hz; lia|lia]).
    destruct (IH (z / 10) (String (char_of d) acc)) as (l & Hne & Hl & Hdig & Hdec & Hhd & _);
      [zdiv|done|].
    exists (l ++ [d])%list. split_and!.
    + by destruct l.
    + by rewrite Hl, Hacc, <-app_assoc.
    + rewrite forallb_app, Hdig. cbn. by rewrite (proj2 Hd).
    + intros a. unfold decimal in *. rewrite fold_left_app, Hdec. cbn [fold_left].
      rewrite length_app. cbn [length]. rewrite Nat2Z.inj_add, Z.pow_add_r by lia.
      change (10 ^ Z.of_nat 1) with 10. subst d. zdiv.
    + intros _. destruct l; [done|]. cbn in *. apply Hhd. zdiv.
    + lia.
Qed.

Lemma integer_digits_spec l :
  l <> [] -> forallb is_digit l = true -> (hd 0 l <> 48 \/ length l = 1%nat) ->
  integer_digits l = true.
Proof.
  intros Hne Hd Hh. unfold integer_digits. destruct l as [|b [|c l]]; [done| |].
  - cbn in Hd. by rewrite andb_true_r in Hd.
  - destruct Hh as [Hh|Hh]; [|done]. rewrite Hd. cbn in Hh.
    by rewrite (proj2 (Z.eqb_neq b 48)).
Qed.

Lemma number_digits n z :
  0 <= z < 2 ^ Z.of_nat n -> (1 <= n)%nat ->
  let l := bytes_of_string (digits n z EmptyString) in
  l <> [] /\ integer_digits l = true /\ forallb is_digit l = true /\ decimal 0 l = z.
Proof.
  intros Hz Hn l. destruct (digits_spec n z EmptyString Hz Hn) as (l' & Hne & Hl & Hd & Hdec & Hh & H0).
  subst l. rewrite app_nil_r in Hl. rewrite Hl. split_and!; [done| |done|rewrite Hdec; lia].
  apply integer_digits_spec; [done|done|]. destruct (decide (z = 0)) as [E|E].
  - right. by rewrite (H0 E).
  - left. apply Hh. lia.
Qed.

Lemma log2_fuel z : 0 <= z -> z < 2 ^ Z.of_nat (S (Z.to_nat (Z.log2 z))).
Proof.
  intros Hz. destruct (decide (z = 0)) as [->|]; [done|].
  rewrite Nat2Z.inj_succ, Z2Nat.id by apply Z.log2_nonneg. apply Z.log2_spec. lia.
Qed.

Lemma number_itoa z :
  number (bytes_of_string (itoa z)) = Some (JInt z) /\
  forallb number_byte (bytes_of_string (itoa z)) = true /\
  exists b l, bytes_of_string (itoa z) = b :: l /\ (is_digit b = true \/ b = 45).
Proof.
  unfold itoa. cbv zeta. pose proof (log2_fuel (Z.abs z) ltac:(lia)) as Hf.
  set (n := S (Z.to_nat (Z.log2 (Z.abs z)))) in *.
  assert (Hnum : forall l, forallb is_digit l = true -> forallb number_byte l = true).
  { intros l. rewrite !forallb_forall. intros H x Hx. unfold number_byte. by rewrite H. }
  destruct (Z.ltb_spec z 0).
  - destruct (number_digits n (- z)) as (Hne & Hi & Hd & Hdec); [lia|lia|].
    rewrite bytes_of_string_app. set (l := bytes_of_string _) in *.
    change (bytes_of_string "-") with [45]. cbn [app]. split_and!.
    + unfold number. replace (integer_digits (45 :: l)) with false
        by (symmetry; by destruct l). rewrite Z.eqb_refl, Hi, Hdec. cbn.
      rewrite (proj2 (Z.eqb_neq (- z) 0)) by lia. cbn. do 2 f_equal. lia.
    + cbn. by apply Hnum.
    + eexists _, _. split; [done|]. by right.
  - destruct (number_digits n z) as (Hne & Hi & Hd & Hdec); [lia|lia|].
    set (l := bytes_of_string _) in *. split_and!.
    + unfold number. destruct l; [done|]. by rewrite Hi, Hdec.
    + by apply Hnum.
    + destruct l as [|b l]; [done|]. cbn in Hd. apply andb_true_iff in Hd as [Hd _]. eauto.
Qed.

Lemma span_all (p : Z -> bool) l rest :
  forallb p l = true -> match rest with [] => True | b :: _ => p b = false end ->
  span p (l ++ rest)%list = (l, rest).
Proof.
  intros Hl Hr. induction l as [|x l IH]; cbn in *.
  - destruct rest as [|b rest]; cbn; [done|]. by rewrite Hr.
  - apply andb_true_iff in Hl as [-> Hl]. by rewrite IH.
Qed.

(** ** Values round trip *)

Section json_induction.
Context (P : json -> Prop).
Hypotheses (Hnull : P JNull) (Hbool : forall b, P (JBool b)) (Hint : forall z, P (JInt z))
  (Hnum : forall l, P (JNum l)) (Hstr : forall s, P (JStr s))
  (Harr : forall l, Forall P l -> P (JArr l))
  (Hobj : forall fs, Forall (fun kv => P kv.2) fs -> P (JObj fs)).

Fixpoint json_nested_ind (v : json) : P v :=
  match v with
  | JNull => Hnull
  | JBool b => Hbool b
  | JInt z => Hint z
  | JNum l => Hnum l
  | JStr s => Hstr s
  | JArr l =>
      Harr l ((fix go l : Forall P l :=
                 match l with
                 | [] => Forall_nil_2 _
                 | x :: l => Forall_cons_2 _ _ _ (json_nested_ind x) (go l)
                 end) l)
  | JObj fs =>
      Hobj fs ((fix go fs : Forall (fun kv => P kv.2) fs :=
                  match fs with
                  | [] => Forall_nil_2 _
                  | kv :: fs => Forall_cons_2 _ _ _ (json_nested_ind kv.2) (go fs)
                  end) fs)
  end.
End json_induction.

#[local] Transparent Marshal.

(** The bytes of a value's text, and of the members of an array or object. *)
Definition text (v : json) : list Z := bytes_of_string (Marshal v).

Definition quoted (s : string) : list Z :=
  34 :: escape (String.length s) (bytes_of_string s) ++ [34].

Fixpoint comma_sep (parts : list (list Z)) : list Z :=
  match parts with
  | [] => []
  | [p] => p
  | p :: rest => p ++ 44 :: comma_sep rest
  end.

Definition member_text (kv : string * json) : list Z := quoted kv.1 ++ 58 :: text kv.2.

Lemma escape_bytes fuel bs : Forall byte bs -> Forall byte (escape fuel bs).
Proof.
  revert bs. induction fuel as [|fuel IH]; intros bs Hb; [constructor|].
  destruct bs as [|b bs]; [constructor|]. cbn [escape].
  destruct (rune_width (b :: bs)) as [|w].
  - apply Forall_app. split; [|apply IH; by apply Forall_drop].
    repeat (constructor; [unfold byte; lia|]). constructor.
  - apply Forall_app. split; [|apply IH; by apply Forall_drop].
    assert (Hf : Forall byte (firstn (S w) (b :: bs))) by by apply Forall_take.
    unfold escape_rune. destruct (firstn _ _) as [|x [|y l]]; [constructor| |].
    + apply Forall_cons in Hf as [Hx _]. unfold escape_ascii, u00, hex_digit, byte in *.
      repeat case_match; repeat (constructor; [unfold byte; zdiv|]); try constructor.
    + repeat case_bool_decide; [| |done];
        repeat (constructor; [unfold byte; lia|]); constructor.
Qed.

Lemma text_str s : text (JStr s) = quoted s.
Proof.
  unfold text. change (Marshal (JStr s)) with (quote s). unfold quote, quoted. cbv zeta.
  change (bytes_of_string (String "034" ?x)) with (34 :: bytes_of_string x).
  rewrite bytes_of_string_app, bytes_of_string_of_bytes, length_bytes_of_string; [done|].
  apply escape_bytes, bytes_of_string_bytes.
Qed.

Lemma bytes_join parts : bytes_of_string (join parts) = comma_sep (map bytes_of_string parts).
Proof.
  induction parts as [|p [|q parts] IH]; [done|done|].
  change (join (p :: q :: parts)) with (p ++ ("," ++ join (q :: parts)))%string.
  rewrite bytes_of_string_app, bytes_of_string_app, IH. done.
Qed.

Lemma text_arr l : text (JArr l) = (91 :: comma_sep (map text l) ++ [93])%list.
Proof.
  unfold text at 1.
  change (Marshal (JArr l)) with ("[" ++ (join (map Marshal l) ++ "]"))%string.
  rewrite !bytes_of_string_app, bytes_join, map_map. done.
Qed.

Lemma text_obj fs : text (JObj fs) = (123 :: comma_sep (map member_text fs) ++ [125])%list.
Proof.
  unfold text at 1.
  change (Marshal (JObj fs)) with
    ("{" ++ (join (map (fun '(k, v) => (quote k ++ (":" ++ Marshal v))%string) fs) ++ "}"))%string.
  rewrite !bytes_of_string_app, bytes_join, map_map.
  rewrite (map_ext _ member_text); [done|].
  intros [k v]. rewrite !bytes_of_string_app. unfold member_text. cbn [fst snd].
  by rewrite <-text_str.
Qed.

Lemma text_int z : text (JInt z) = bytes_of_string (itoa z).
Proof. done. Qed.

(** The first byte of a value's text; what [parse_value] dispatches on. *)
Lemma text_head v : json_ok v = true -> exists b l, text v = b :: l /\ is_space b = false /\
  b <> 93 /\ b <> 125 /\ b <> 44.
Proof.
  destruct v as [|[]|z| |s|l|fs]; intros Hok; try discriminate Hok.
  1-3: by eexists _, _.
  - destruct (number_itoa z) as (_ & _ & b & l & Hl & Hb). exists b, l.
    rewrite text_int, Hl. split; [done|]. unfold is_space.
    destruct Hb as [Hb| ->]; [|done]. apply in_range_spec in Hb.
    rewrite !(proj2 (Z.eqb_neq b _)) by lia. split_and!; [done|lia..].
  - rewrite text_str. by eexists _, _.
  - rewrite text_arr. by eexists _, _.
  - rewrite text_obj. by eexists _, _.
Qed.

Definition ends (rest : list Z) : Prop :=
  match rest with [] => True | b :: _ => number_byte b = false end.

Lemma skip_space_head b l : is_space b = false -> skip_space (b :: l) = b :: l.
Proof. unfold skip_space. cbn. by intros ->. Qed.

(** What the parser has to do on the text of one value. *)
Definition parses (v : json) : Prop :=
  json_ok v = true -> forall n rest, ends rest -> (2 * length (text v) <= n)%nat ->
  parse_value n (text v ++ rest) = Some (v, rest).

Lemma parse_quoted s rest :
  utf8 s = true ->
  exists r, quoted s ++ rest = (34 :: r)%list /\ unquote (length r) r = Some (bytes_of_string s, rest).
Proof.
  intros Hs. exists (escape (String.length s) (bytes_of_string s) ++ 34 :: rest)%list.
  split; [unfold quoted; cbn [app]; by rewrite <-app_assoc|].
  apply unquote_escape; [apply bytes_of_string_bytes|done|].
  rewrite length_bytes_of_string. split; [done|]. rewrite length_app.
  pose proof (escape_length (String.length s) (bytes_of_string s)) as H.
  rewrite length_bytes_of_string in H. specialize (H ltac:(lia)). cbn. lia.
Qed.

Lemma ends_close b rest : (b = 44 \/ b = 93 \/ b = 125) -> ends (b :: rest).
Proof. by intros [-> | [-> | ->]]. Qed.

Lemma comma_sep_cons p q parts :
  comma_sep (p :: q :: parts) = (p ++ 44 :: comma_sep (q :: parts))%list.
Proof. done. Qed.

Lemma parse_elements_text l n rest :
  Forall parses l -> forallb json_ok l = true -> l <> [] ->
  (2 * length (comma_sep (map text l)) + 1 <= n)%nat ->
  parse_elements n (comma_sep (map text l) ++ 93 :: rest) = Some (l, rest).
Proof.
  intros Hp. revert n. induction Hp as [|v l Hv _ IH]; intros n Hok Hne Hn; [done|].
  cbn in Hok. apply andb_true_iff in Hok as [Hokv Hokl].
  destruct n as [|n]; [lia|]. destruct l as [|w l].
  - cbn [map comma_sep parse_elements] in *.
    rewrite Hv by first [done | lia | apply ends_close; auto]. done.
  - cbn [map parse_elements] in *. rewrite comma_sep_cons in *.
    rewrite <-app_assoc. rewrite length_app in Hn. cbn [length app] in Hn |- *.
    rewrite Hv by first [done | lia | apply ends_close; auto]. cbn [mbind option_bind].
    rewrite skip_space_head by done. cbn [Z.eqb Pos.eqb].
    rewrite IH by (done || lia). done.
Qed.

Lemma parse_members_text fs n rest :
  Forall (fun kv => parses kv.2) fs ->
  forallb (fun '(k, v) => utf8 k && json_ok v) fs = true -> fs <> [] ->
  (2 * length (comma_sep (map member_text fs)) + 1 <= n)%nat ->
  parse_members n (comma_sep (map member_text fs) ++ 125 :: rest) = Some (fs, rest).
Proof.
  assert (Hmember : forall k v n r, parses v -> utf8 k = true -> json_ok v = true -> ends r ->
    (2 * length (member_text (k, v)) <= n)%nat ->
    exists r1 r2,
      expect [34] (skip_space (member_text (k, v) ++ r)%list) = Some r1 /\
      unquote (length r1) r1 = Some (bytes_of_string k, r2) /\
      exists r3, expect [58] (skip_space r2) = Some r3 /\ parse_value n r3 = Some (v, r)).
  { intros k v n' r Hv Hk Hok Hr Hn'. unfold member_text in *. cbn [fst snd] in *.
    rewrite <-app_assoc. cbn [app].
    destruct (parse_quoted k (58 :: text v ++ r) Hk) as (r1 & E & Hun).
    exists r1, (58 :: text v ++ r)%list. rewrite E. split_and!; [done|done|].
    exists (text v ++ r)%list. split; [done|]. apply Hv; [done|done|].
    rewrite length_app in Hn'. cbn in Hn'. lia. }
  intros Hp. revert n. induction Hp as [|[k v] fs Hv _ IH]; intros n Hok Hne Hn; [done|].
  cbn in Hok, Hv. apply andb_true_iff in Hok as [[Hk Hokv]%andb_true_iff Hokl].
  destruct n as [|n]; [lia|]. destruct fs as [|kw fs].
  - cbn [map comma_sep parse_members] in *.
    destruct (Hmember k v n (125 :: rest)) as (r1 & r2 & E1 & E2 & r3 & E3 & E4);
      [done..|apply ends_close; auto|lia|].
    rewrite E1. cbn [mbind option_bind]. rewrite E2. cbn [mbind option_bind].
    rewrite E3. cbn [mbind option_bind]. rewrite E4. cbn [mbind option_bind].
    rewrite skip_space_head by done. by rewrite Base64.string_of_bytes_of_string.
  - cbn [map parse_members] in *. rewrite comma_sep_cons in *.
    rewrite <-app_assoc. rewrite length_app in Hn. cbn [length app] in Hn |- *.
    destruct (Hmember k v n (44 :: (comma_sep (member_text kw :: map member_text fs) ++ 125 :: rest))%list)
      as (r1 & r2 & E1 & E2 & r3 & E3 & E4);
      [done..|apply ends_close; auto|lia|].
    rewrite E1. cbn [mbind option_bind]. rewrite E2. cbn [mbind option_bind].
    rewrite E3. cbn [mbind option_bind]. rewrite E4. cbn [mbind option_bind].
    rewrite skip_space_head by done. cbn [Z.eqb Pos.eqb].
    rewrite IH by (done || lia). by rewrite Base64.string_of_bytes_of_string.
Qed.

Lemma parses_all v : parses v.
Proof.
  induction v as [|[]|z| |s|l IH|fs IH] using json_nested_ind; intros Hok n rest Hends Hn;
    try discriminate Hok; (destruct n as [|n]; [by rewrite ?text_str, ?text_arr, ?text_obj in Hn;
      cbn in Hn; try lia; destruct (text_head _ Hok) as (b & l' & E & _); rewrite E in Hn; cbn in Hn; lia|]).
  1-3: done.
  - destruct (number_itoa z) as (Hnum & Hall & b & l & Hl & Hb).
    rewrite text_int. cbn [parse_value].
    assert (Hsp : skip_space (bytes_of_string (itoa z) ++ rest) = bytes_of_string (itoa z) ++ rest).
    { rewrite Hl. apply skip_space_head. unfold is_space.
      destruct Hb as [Hb| ->]; [|done]. apply in_range_spec in Hb.
      by rewrite !(proj2 (Z.eqb_neq b _)) by lia. }
    rewrite Hsp. pose proof (span_all number_byte _ rest Hall Hends) as Hspan.
    rewrite Hl in Hspan, Hnum |- *. cbn [app] in Hspan |- *.
    rewrite Hspan. cbn [mbind option_bind]. rewrite Hnum. cbn [mbind option_bind].
    assert (Hb' : b = 45 \/ 48 <= b <= 57)
      by (destruct Hb as [Hb| ->]; [apply in_range_spec in Hb|]; lia).
    by rewrite !(proj2 (Z.eqb_neq b _)) by lia.
  - rewrite text_str. destruct (parse_quoted s rest Hok) as (r & -> & Hun).
    cbn [parse_value]. rewrite skip_space_head by done. cbn [Z.eqb Pos.eqb].
    rewrite Hun. cbn [mbind option_bind]. by rewrite Base64.string_of_bytes_of_string.
  - rewrite text_arr in *. cbn [app]. rewrite <-app_assoc. cbn [app parse_value].
    rewrite skip_space_head by done. cbn [Z.eqb Pos.eqb].
    destruct l as [|v l].
    { cbn [map comma_sep app]. by rewrite skip_space_head. }
    cbn [json_ok] in Hok. pose proof Hok as Hok'. cbn in Hok'. apply andb_true_iff in Hok' as [Hv _].
    assert (Hexp : expect [93] (skip_space (comma_sep (map text (v :: l)) ++ 93 :: rest)) = None).
    { destruct (text_head v Hv) as (b & t & Ht & Hsp & H93 & _).
      assert (exists t', (comma_sep (map text (v :: l)) ++ 93 :: rest)%list = b :: t') as [t' ->].
      { destruct l; cbn [map]; rewrite ?comma_sep_cons; cbn [comma_sep]; rewrite Ht; eauto. }
      rewrite skip_space_head by done. cbn [expect]. by rewrite (proj2 (Z.eqb_neq 93 b)) by lia. }
    rewrite Hexp. cbn [length app] in Hn. rewrite length_app in Hn. cbn [length] in Hn.
    rewrite parse_elements_text by (done || lia). done.
  - rewrite text_obj in *. cbn [app]. rewrite <-app_assoc. cbn [app parse_value].
    rewrite skip_space_head by done. cbn [Z.eqb Pos.eqb].
    destruct fs as [|kv fs].
    { cbn [map comma_sep app]. by rewrite skip_space_head. }
    assert (Hexp : expect [125] (skip_space (comma_sep (map member_text (kv :: fs)) ++ 125 :: rest)) = None).
    { assert (exists t', (comma_sep (map member_text (kv :: fs)) ++ 125 :: rest)%list = 34 :: t') as [t' ->].
      { destruct fs; cbn [map]; rewrite ?comma_sep_cons; cbn [comma_sep]; eexists; reflexivity. }
      rewrite skip_space_head by done. done. }
    rewrite Hexp. cbn [length app] in Hn. rewrite length_app in Hn. cbn [length] in Hn.
    rewrite parse_members_text by (done || lia). done.
Qed.

(** Parsing what [Marshal] prints gives back the value tree, for every tree whose
    strings and keys are valid UTF-8, whatever its nesting, the size of its
    integers and the characters that are escaped. *)
Lemma parse_text v : json_ok v = true -> parse (Marshal v) = Ok v.
Proof.
  intros Hok. unfold parse. cbv zeta.
  pose proof (parses_all v Hok (2 * length (bytes_of_string (Marshal v)) + 1)%nat [] I) as H.
  rewrite app_nil_r in H. unfold text in H. by rewrite H by lia.
Qed.

Example parse_example :
  let v := JObj [("a", JArr [JInt (-40); JNull; JObj []]); ("<é>", JStr (quote "tab	")); ("", JBool true)] in
  parse (Marshal v) = Ok v.
Proof. vm_compute. reflexivity. Qed.

#[global] Opaque parse.
