(* ===== verification/JsonDecode.v ===== *)
(** * Reading structs from JSON objects

    How encoding/json fills a struct: a field takes the values whose key equals
    its name up to case, in order, each one replacing the last; [null] leaves
    it alone; a value of another type makes the whole call fail.  The objects
    of a repeated key that holds a struct are merged.  *)

From S2P Require Import Prelude Sha256 Json JsonParse.
Local Open Scope Z_scope.

(** Case folding, the two non-ASCII runes that fold to ASCII letters included
    (U+212A and U+017F). *)
Fixpoint fold_bytes (bs : list Z) : list Z :=
  match bs with
  | [] => []
  | b :: r =>
      if in_range 65 90 b then (b + 32) :: fold_bytes r
      else match r with
           | c :: r' =>
               if (b =? 0xC5) && (c =? 0xBF) then 115 :: fold_bytes r'
               else match r' with
                    | d :: r'' =>
                        if (b =? 0xE2) && (c =? 0x84) && (d =? 0xAA) then 107 :: fold_bytes r''
                        else b :: fold_bytes r
                    | [] => b :: fold_bytes r
                    end
           | [] => [b]
           end
  end.

Definition fold_name (s : string) : string := string_of_bytes (fold_bytes (bytes_of_string s)).

Definition is_null (v : json) : bool := match v with JNull => true | _ => false end.

Definition key_is (name : string) (kv : string * json) : bool :=
  String.eqb (fold_name kv.1) name && negb (is_null kv.2).

(** The values given for a field. *)
Definition field (name : string) (fs : list (string * json)) : list json :=
  map snd (List.filter (key_is name) fs).

Definition get {A} (zero : A) (dec : json -> result A) (name : string)
  (fs : list (string * json)) : result A :=
  foldl (fun acc v => _ ← acc; dec v) (Ok zero) (field name fs).

Definition dec_string (v : json) : result string :=
  match v with JStr s => Ok s | _ => json_error end.

Definition dec_bool (v : json) : result bool :=
  match v with JBool b => Ok b | _ => json_error end.

Definition dec_uint64 (v : json) : result Z :=
  match v with JInt z => if (0 <=? z) && (z <? two64) then Ok z else json_error | _ => json_error end.

(** [int] and [int64]. *)
Definition dec_int (v : json) : result Z :=
  match v with
  | JInt z => if (- 2 ^ 63 <=? z) && (z <? 2 ^ 63) then Ok z else json_error
  | JNum lit => if String.eqb lit "-0" then Ok 0 else json_error
  | _ => json_error
  end.

Definition dec_bytes (v : json) : result string :=
  match v with JStr s => Base64.DecodeString s | _ => json_error end.

(** A struct: [null] leaves the zero value. *)
Definition dec_struct {A} (f : list (string * json) -> result A) (v : json) : result A :=
  match v with JObj fs => f fs | JNull => f [] | _ => json_error end.

Fixpoint dec_all {A} (dec : json -> result A) (l : list json) : result (list A) :=
  match l with
  | [] => Ok []
  | v :: l => x ← dec v; xs ← dec_all dec l; Ok (x :: xs)
  end.

(** A slice; a [null] element is the zero value. *)
Definition dec_list {A} (zero : A) (dec : json -> result A) (v : json) : result (list A) :=
  match v with
  | JArr l => dec_all (fun v => if is_null v then Ok zero else dec v) l
  | JNull => Ok []
  | _ => json_error
  end.

Definition objects (l : list json) : result (list (string * json)) :=
  foldl (fun acc v => fs ← acc; match v with JObj fs' => Ok (fs ++ fs')%list | _ => json_error end)
    (Ok []) l.

Definition get_struct {A} (f : list (string * json) -> result A) (name : string)
  (fs : list (string * json)) : result A :=
  inner ← objects (field name fs); f inner.

Definition get_string := get "" dec_string.
Definition get_uint64 := get 0 dec_uint64.
Definition get_int := get 0 dec_int.
Definition get_bool := get false dec_bool.
Definition get_bytes := get "" dec_bytes.
Definition get_list {A} (zero : A) dec := get [] (dec_list zero dec).

(** A map: the members are put into the map there is, [null] drops it, and a
    [null] member is the zero value. *)
Definition dec_map {V} (zero : V) (dec : json -> result V) (m : gmap string V) (v : json)
    : result (gmap string V) :=
  match v with
  | JNull => Ok ∅
  | JObj fs =>
      foldl (fun acc kv =>
               m ← acc; x ← (if is_null kv.2 then Ok zero else dec kv.2); Ok (<[kv.1 := x]> m)) (Ok m) fs
  | _ => json_error
  end.

Definition get_map {V} (zero : V) (dec : json -> result V) (name : string)
    (fs : list (string * json)) : result (gmap string V) :=
  foldl (fun acc kv =>
           m ← acc; if String.eqb (fold_name kv.1) name then dec_map zero dec m kv.2 else Ok m) (Ok ∅) fs.

(** [json.Unmarshal(data, &v)] for a zero [v] of a struct type. *)
Definition Unmarshal {A} (f : list (string * json) -> result A) (data : string) : result A :=
  v ← parse data; dec_struct f v.

(** The error a decoder reports at the end of its input. *)
Definition io_EOF : string := "io.EOF".

(** [json.NewDecoder(r).Decode(&v)]: the first value of the input; what follows
    it is not read. *)
Definition Decode_value {A} (dec : json -> result A) (data : string) : result A :=
  let bs := bytes_of_string data in
  match skip_space bs with
  | [] => Err (mkError (Some io_EOF) "EOF")
  | _ =>
      match parse_value (2 * length bs + 1) bs with
      | Some (v, _) => dec v
      | None => json_error
      end
  end.

Definition Decode {A} (f : list (string * json) -> result A) (data : string) : result A :=
  Decode_value (dec_struct f) data.

(** [io.LimitReader(r, 1<<20)]. *)
Definition limit_body (data : string) : string :=
  if len data <=? 2 ^ 20 then data else prefix (Z.to_nat (2 ^ 20)) data.

(** ** Reading back an encoded object *)

Definition is_int64 (z : Z) : Prop := - 2 ^ 63 <= z < 2 ^ 63.

Section field_lemmas.
Implicit Types (k : string) (fs : list (string * json)).

Lemma field_app k fs fs' : field k (fs ++ fs')%list = (field k fs ++ field k fs')%list.
Proof. unfold field. by rewrite List.filter_app, map_app. Qed.

Lemma field_skip k k' v fs :
  String.eqb (fold_name k') k = false -> field k ((k', v) :: fs) = field k fs.
Proof. unfold field, key_is. cbn [List.filter fst snd]. by intros ->. Qed.

Lemma field_here k v fs :
  String.eqb (fold_name k) k = true -> is_null v = false ->
  field k ((k, v) :: fs) = v :: field k fs.
Proof. unfold field, key_is. cbn [List.filter fst snd]. by intros -> ->. Qed.

Lemma field_null k v fs : is_null v = true -> field k ((k, v) :: fs) = field k fs.
Proof.
  unfold field, key_is. cbn [List.filter fst snd]. intros ->. by rewrite andb_false_r.
Qed.

Lemma field_omit_int_skip k k' z fs :
  String.eqb (fold_name k') k = false -> field k (omit_int k' z ++ fs) = field k fs.
Proof. intros H. unfold omit_int. destruct (z =? 0); [done|]. by apply field_skip. Qed.

Lemma field_omit_str_skip k k' s fs :
  String.eqb (fold_name k') k = false -> field k (omit_str k' s ++ fs) = field k fs.
Proof. intros H. unfold omit_str. destruct (String.eqb s ""); [done|]. by apply field_skip. Qed.

Lemma get_none {A} (zero : A) dec k fs : field k fs = [] -> get zero dec k fs = Ok zero.
Proof. unfold get. by intros ->. Qed.

Lemma get_one {A} (zero : A) dec k fs v :
  field k fs = [v] -> get zero dec k fs = dec v.
Proof. unfold get. by intros ->. Qed.
End field_lemmas.

Lemma dec_uint64_ok z : is_u64 z -> dec_uint64 (JInt z) = Ok z.
Proof.
  intros [H1 H2]. unfold dec_uint64.
  by rewrite (proj2 (Z.leb_le _ _) H1), (proj2 (Z.ltb_lt _ _) H2).
Qed.

Lemma dec_int_ok z : is_int64 z -> dec_int (JInt z) = Ok z.
Proof.
  intros [H1 H2]. unfold dec_int.
  by rewrite (proj2 (Z.leb_le _ _) H1), (proj2 (Z.ltb_lt _ _) H2).
Qed.

Lemma dec_all_map {A} (dec : json -> result A) (enc : A -> json) l :
  (forall x, x ∈ l -> dec (enc x) = Ok x) -> dec_all dec (map enc l) = Ok l.
Proof.
  induction l as [|x l IH]; intros H; [done|]. cbn.
  rewrite H by left. cbn. rewrite IH by (intros y Hy; apply H; by right). done.
Qed.

Lemma dec_list_map {A} (zero : A) dec (enc : A -> json) l :
  (forall x, is_null (enc x) = false) -> (forall x, x ∈ l -> dec (enc x) = Ok x) ->
  dec_list zero dec (JArr (map enc l)) = Ok l.
Proof. intros Hn H. cbn. apply dec_all_map. intros x Hx. rewrite Hn. by apply H. Qed.

(** Decides a closed test. *)
Ltac vm_compute_refl := solve [vm_compute; reflexivity].

(** Computes [field k fs] for an object literal. *)
Ltac simpl_field :=
  repeat first
    [ rewrite field_here by vm_compute_refl
    | rewrite field_skip by vm_compute_refl
    | rewrite field_omit_int_skip by vm_compute_refl
    | rewrite field_omit_str_skip by vm_compute_refl ];
  try reflexivity.

Section readers.
Context {A : Type} (zero : A) (dec : json -> result A) (k : string).
Implicit Types (fs : list (string * json)).

Lemma get_skip k' v fs :
  String.eqb (fold_name k') k = false -> get zero dec k ((k', v) :: fs) = get zero dec k fs.
Proof. intros Hk. unfold get. by rewrite field_skip. Qed.

Lemma get_omit_int_skip k' z fs :
  String.eqb (fold_name k') k = false -> get zero dec k (omit_int k' z ++ fs) = get zero dec k fs.
Proof. intros Hk. unfold get. by rewrite field_omit_int_skip. Qed.

Lemma get_omit_str_skip k' s fs :
  String.eqb (fold_name k') k = false -> get zero dec k (omit_str k' s ++ fs) = get zero dec k fs.
Proof. intros Hk. unfold get. by rewrite field_omit_str_skip. Qed.

Lemma get_here v fs :
  String.eqb (fold_name k) k = true -> is_null v = false -> field k fs = [] ->
  get zero dec k ((k, v) :: fs) = dec v.
Proof. intros Hk Hv Hf. apply get_one. by rewrite field_here, Hf. Qed.

Lemma get_struct_here (f : _ -> result A) o fs :
  String.eqb (fold_name k) k = true -> field k fs = [] ->
  get_struct f k ((k, JObj o) :: fs) = f o.
Proof. intros Hk Hf. unfold get_struct. by rewrite field_here, Hf. Qed.

Lemma get_struct_skip (f : _ -> result A) k' v fs :
  String.eqb (fold_name k') k = false -> get_struct f k ((k', v) :: fs) = get_struct f k fs.
Proof. intros Hk. unfold get_struct. by rewrite field_skip. Qed.

Lemma get_struct_omit_int_skip (f : _ -> result A) k' z fs :
  String.eqb (fold_name k') k = false -> get_struct f k (omit_int k' z ++ fs) = get_struct f k fs.
Proof. intros Hk. unfold get_struct. by rewrite field_omit_int_skip. Qed.

Lemma get_struct_omit_str_skip (f : _ -> result A) k' s fs :
  String.eqb (fold_name k') k = false -> get_struct f k (omit_str k' s ++ fs) = get_struct f k fs.
Proof. intros Hk. unfold get_struct. by rewrite field_omit_str_skip. Qed.
End readers.

Lemma get_omit_int dec k z fs :
  String.eqb (fold_name k) k = true -> field k fs = [] -> dec (JInt z) = Ok z ->
  get 0 dec k (omit_int k z ++ fs) = Ok z.
Proof.
  intros Hk Hf Hz. unfold omit_int. destruct (Z.eqb_spec z 0) as [->|].
  - by apply get_none.
  - cbn [app]. by rewrite get_here.
Qed.

Lemma get_omit_str k s fs :
  String.eqb (fold_name k) k = true -> field k fs = [] ->
  get "" dec_string k (omit_str k s ++ fs) = Ok s.
Proof.
  intros Hk Hf. unfold omit_str. destruct (String.eqb_spec s "") as [->|].
  - by apply get_none.
  - cbn [app]. by rewrite get_here.
Qed.

(** Bytes that are [null] when there are none. *)
Lemma get_bytes_json k s fs :
  String.eqb (fold_name k) k = true -> field k fs = [] ->
  get "" dec_bytes k ((k, bytes_json s) :: fs) = Ok s.
Proof.
  intros Hk Hf. unfold bytes_json. destruct (String.eqb_spec s "") as [->|].
  - apply get_none. by rewrite field_null.
  - rewrite get_here by done. apply Base64.DecodeString_EncodeToString.
Qed.

(** A slice encoded by [enc] element by element, [null] when it is empty. *)
Definition list_json {A} (enc : A -> json) (l : list A) : json :=
  match l with [] => JNull | _ => JArr (map enc l) end.

Lemma get_list_json {A} (zero : A) dec (enc : A -> json) k l fs :
  String.eqb (fold_name k) k = true -> field k fs = [] ->
  (forall x, is_null (enc x) = false) -> (forall x, x ∈ l -> dec (enc x) = Ok x) ->
  get [] (dec_list zero dec) k ((k, list_json enc l) :: fs) = Ok l.
Proof.
  intros Hk Hf Hn Hd. destruct l as [|x l].
  - apply get_none. by rewrite field_null.
  - rewrite get_here by done. apply (dec_list_map zero dec enc (x :: l)); auto.
Qed.

Lemma read_bind {A B} (r : result A) (a : A) (f : A -> result B) (b : result B) :
  r = Ok a -> f a = b -> (r ≫= f) = b.
Proof. by intros -> ?. Qed.

Definition no_member (k : string) (fs : list (string * json)) : bool :=
  forallb (fun kv => negb (String.eqb (fold_name kv.1) k)) fs.

(** A map encoded by [JMap] is read back, wherever it stands among the fields. *)
Lemma dec_JMap {V} (zero : V) (dec : json -> result V) (enc : V -> json) (m : gmap string V) :
  (forall x, is_null (enc x) = false) -> (forall k x, m !! k = Some x -> dec (enc x) = Ok x) ->
  dec_map zero dec ∅ (JMap enc m) = Ok m.
Proof.
  intros Hn Hd. unfold JMap, dec_map.
  assert (Hgo : forall ks (m0 : gmap string V), exists m1 : gmap string V,
    foldl (fun acc kv => m ← acc; x ← (if is_null kv.2 then Ok zero else dec kv.2); Ok (<[kv.1 := x]> m))
      (Ok m0) (omap (fun k => v ← m !! k; Some (k, enc v)) ks) = Ok m1 /\
    forall k, m1 !! k = if decide (k ∈ ks /\ is_Some (m !! k)) then m !! k else m0 !! k).
  { intros ks. induction ks as [|k ks IH]; intros m0.
    - exists m0. split; [done|]. intros k. rewrite decide_False; [done|]. by intros [?%elem_of_nil _].
    - cbn. destruct (m !! k) as [x|] eqn:Ex; cbn.
      + rewrite Hn, (Hd k x Ex). cbn. destruct (IH (<[k := x]> m0)) as (m1 & -> & Hm1).
        exists m1. split; [done|]. intros k'. rewrite Hm1.
        destruct (decide (k' = k)) as [->|Hne].
        * rewrite lookup_insert_eq, Ex. rewrite (decide_True (P := k ∈ k :: ks /\ _)) by (split; [left|done]).
          by case_decide.
        * rewrite lookup_insert_ne by done. apply decide_ext. rewrite elem_of_cons. naive_solver.
      + destruct (IH m0) as (m1 & -> & Hm1). exists m1. split; [done|]. intros k'. rewrite Hm1.
        apply decide_ext. rewrite elem_of_cons. split; [naive_solver|].
        intros [[->|?] [? ?]]; [congruence|eauto]. }
  destruct (Hgo (sorted_keys m) ∅) as (m1 & -> & Hm1). f_equal. apply map_eq. intros k. rewrite Hm1.
  case_decide as Hc; [done|]. rewrite lookup_empty. destruct (m !! k) as [x|] eqn:Ex; [|done].
  exfalso. apply Hc. split; [|done]. apply elem_of_sorted_keys. by exists x.
Qed.

Lemma get_map_none {V} (zero : V) dec k fs m :
  no_member k fs = true ->
  foldl (fun acc kv => m ← acc; if String.eqb (fold_name kv.1) k then dec_map zero dec m kv.2 else Ok m)
    (Ok m) fs = Ok m.
Proof.
  induction fs as [|[k' v] fs IH]; cbn; [done|]. intros [Hk Hfs]%andb_true_iff.
  apply negb_true_iff in Hk. rewrite Hk. by apply IH.
Qed.

Lemma get_map_skip {V} (zero : V) dec k k' v fs :
  String.eqb (fold_name k') k = false -> get_map zero dec k ((k', v) :: fs) = get_map zero dec k fs.
Proof. intros Hk. unfold get_map. cbn [foldl mbind result_bind fst]. by rewrite Hk. Qed.

Lemma get_map_here {V} (zero : V) dec (enc : V -> json) (m : gmap string V) k fs :
  String.eqb (fold_name k) k = true -> no_member k fs = true ->
  (forall x, is_null (enc x) = false) -> (forall k' x, m !! k' = Some x -> dec (enc x) = Ok x) ->
  get_map zero dec k ((k, JMap enc m) :: fs) = Ok m.
Proof.
  intros Hk Hfs Hn Hd. unfold get_map. cbn [foldl mbind result_bind fst snd].
  rewrite Hk, dec_JMap by done. by apply get_map_none.
Qed.

(** Reads the fields of an encoded struct one after the other: each reader
    skips the other keys, finds its own, and nothing after it. *)
Ltac skip_keys :=
  repeat first
    [ rewrite get_skip by vm_compute_refl
    | rewrite get_struct_skip by vm_compute_refl
    | rewrite get_map_skip by vm_compute_refl
    | rewrite get_omit_int_skip by vm_compute_refl
    | rewrite get_omit_str_skip by vm_compute_refl
    | rewrite get_struct_omit_int_skip by vm_compute_refl
    | rewrite get_struct_omit_str_skip by vm_compute_refl ].

Ltac read_here :=
  first
    [ apply get_omit_str; [vm_compute_refl|simpl_field]
    | apply get_omit_int;
      [vm_compute_refl|simpl_field|first [by apply dec_uint64_ok | by apply dec_int_ok]]
    | apply get_bytes_json; [vm_compute_refl|simpl_field]
    | rewrite get_here;
      [first [reflexivity | by apply dec_uint64_ok | by apply dec_int_ok | eassumption]
      |vm_compute_refl|reflexivity|simpl_field]
    | rewrite get_struct_here; [eassumption|vm_compute_refl|simpl_field] ].

Ltac read_struct :=
  cbn [app]; unfold get_string, get_uint64, get_int, get_bool, get_bytes, get_list;
  repeat (eapply read_bind; [skip_keys; solve [read_here]|]).

(** Goes to the next reader, which [read_here] cannot read. *)
Ltac read_next := eapply read_bind; [skip_keys|].

(** ** Decoding an encoded value *)

(** A decoder reads back the text of a value, and stops at its end. *)
Lemma Decode_value_Marshal {A} (dec : json -> result A) v rest :
  json_ok v = true -> ends (bytes_of_string rest) ->
  Decode_value dec (Marshal v ++ rest) = dec v.
Proof.
  intros Hok Hrest. unfold Decode_value. cbv zeta. rewrite bytes_of_string_app.
  change (bytes_of_string (Marshal v)) with (text v).
  rewrite (parses_all v Hok) by (done || rewrite length_app; lia).
  destruct (text_head v Hok) as (b & l & E & Hb & _). rewrite E. cbn [app]. by rewrite skip_space_head.
Qed.
