(* ===== verification/JsonIndent.v ===== *)
(** * Indented JSON: json.MarshalIndent

    The encoder with an empty prefix and an indent of two spaces, that its text
    of a flat object is read back, and that no encoded text holds a line break. *)

From S2P Require Import Prelude Sha256 Json JsonParse JsonDecode.
Local Open Scope Z_scope.

(** A line break and the indentation of depth [d]. *)
Definition break (d : nat) : list Z := 10 :: repeat 32 (2 * d).

Fixpoint sep_by (sep : list Z) (parts : list (list Z)) : list Z :=
  match parts with
  | [] => []
  | [p] => p
  | p :: parts => p ++ sep ++ sep_by sep parts
  end.

(** An empty array or object is not broken into lines. *)
Fixpoint indent (d : nat) (v : json) : list Z :=
  match v with
  | JArr ((_ :: _) as l) =>
      91 :: break (S d) ++ sep_by (44 :: break (S d)) (map (indent (S d)) l) ++ break d ++ [93]
  | JObj ((_ :: _) as fs) =>
      123 :: break (S d) ++
      sep_by (44 :: break (S d))
        (map (fun '(k, v) => bytes_of_string (quote k) ++ [58; 32] ++ indent (S d) v) fs) ++
      break d ++ [125]
  | _ => bytes_of_string (Marshal v)
  end.

Definition MarshalIndent (v : json) : string := string_of_bytes (indent 0 v).

Definition newline : string := String "010"%char EmptyString.

Example MarshalIndent_example :
  MarshalIndent (JObj [("a", JInt 1); ("b", JArr [JStr "x"; JObj []])])
  = String.concat newline
      ["{"; "  " ++ quote "a" ++ ": 1,"; "  " ++ quote "b" ++ ": ["; "    " ++ quote "x" ++ ",";
       "    {}"; "  ]"; "}"]%string.
Proof. vm_compute. reflexivity. Qed.

(** ** A flat object is read back *)

Definition scalar (v : json) : bool :=
  match v with JArr (_ :: _) | JObj (_ :: _) => false | _ => true end.

Definition flat_field (kv : string * json) : bool := utf8 kv.1 && json_ok kv.2 && scalar kv.2.

Lemma indent_scalar d v : scalar v = true -> indent d v = text v.
Proof. by destruct v as [| | | | |[]|[]]. Qed.

(** The text of a member, after the break that comes before it. *)
Definition member_line (kv : string * json) : list Z := quoted kv.1 ++ 58 :: 32 :: text kv.2.

Lemma skip_space_break d b l : is_space b = false -> skip_space (break d ++ b :: l) = b :: l.
Proof.
  intros Hb. unfold skip_space, break. cbn [app].
  assert (Hrep : forall n, (span is_space (repeat 32 n ++ b :: l)%list).2 = b :: l).
  { intros n. induction n as [|n IH]; cbn; [by rewrite Hb|]. by destruct (span is_space _). }
  specialize (Hrep (2 * d)%nat). cbn [span]. change (is_space 10) with true. cbv iota.
  by destruct (span is_space _).
Qed.

#[local] Transparent parse.

Lemma parse_value_space n rest : parse_value n (32 :: rest) = parse_value n rest.
Proof.
  destruct n as [|n]; [done|]. cbn [parse_value].
  assert (Hsk : skip_space (32 :: rest) = skip_space rest) by (unfold skip_space; cbn; by destruct (span _ rest)).
  by rewrite Hsk.
Qed.

Lemma parse_member_line k v n tail :
  utf8 k = true -> json_ok v = true -> ends tail -> (2 * length (text v) <= n)%nat ->
  exists r1 r2 r3,
    expect [34] (quoted k ++ 58 :: 32 :: text v ++ tail)%list = Some r1 /\
    unquote (length r1) r1 = Some (bytes_of_string k, r2) /\
    expect [58] (skip_space r2) = Some r3 /\ parse_value n r3 = Some (v, tail).
Proof.
  intros Hk Hv Htail Hn. destruct (parse_quoted k (58 :: 32 :: text v ++ tail) Hk) as (r1 & E & Hun).
  exists r1, (58 :: 32 :: text v ++ tail)%list, (32 :: text v ++ tail)%list. rewrite E.
  split_and!; [done|done|done|]. rewrite parse_value_space. by apply parses_all.
Qed.

Definition member_lines (d : nat) (fs : list (string * json)) : list Z :=
  sep_by (44 :: break d) (map member_line fs).

Lemma parse_members_lines fs n d rest :
  forallb flat_field fs = true -> fs <> [] -> (2 * length (member_lines d fs) + 1 <= n)%nat ->
  parse_members n (break d ++ member_lines d fs ++ 10 :: 125 :: rest) = Some (fs, rest).
Proof.
  revert n. induction fs as [|[k v] fs IH]; intros n Hok Hne Hn; [done|].
  cbn in Hok. apply andb_true_iff in Hok as [Hkv Hok].
  unfold flat_field in Hkv. cbn [fst snd] in Hkv. apply andb_true_iff in Hkv as [[Hk Hv]%andb_true_iff _].
  destruct n as [|n]; [lia|].
  assert (Hsp : forall x, skip_space (break d ++ quoted k ++ x) = (quoted k ++ x)%list)
    by (intros x; unfold quoted; cbn [app]; by apply skip_space_break).
  destruct fs as [|kw fs].
  - unfold member_lines in *. cbn [map sep_by] in *. cbn [parse_members]. unfold member_line in *. cbn [fst snd] in *.
    rewrite <-(app_assoc (quoted k)). cbn [app]. rewrite Hsp.
    destruct (parse_member_line k v n (10 :: 125 :: rest) Hk Hv) as (r1 & r2 & r3 & E1 & E2 & E3 & E4);
      [done|rewrite length_app in Hn; cbn in Hn; lia|].
    rewrite E1. cbn [mbind option_bind]. rewrite E2. cbn [mbind option_bind].
    rewrite E3. cbn [mbind option_bind]. rewrite E4. cbn. by rewrite Base64.string_of_bytes_of_string.
  - assert (Hsep : member_lines d ((k, v) :: kw :: fs)
                   = (member_line (k, v) ++ 44 :: break d ++ member_lines d (kw :: fs))%list) by done.
    rewrite Hsep in *. cbn [parse_members].
    change (member_line (k, v)) with (quoted k ++ 58 :: 32 :: text v)%list in *.
    rewrite <-!app_assoc. cbn [app]. rewrite Hsp. rewrite <-app_assoc.
    destruct (parse_member_line k v n (44 :: (break d ++ member_lines d (kw :: fs) ++ 10 :: 125 :: rest))%list Hk Hv)
      as (r1 & r2 & r3 & E1 & E2 & E3 & E4);
      [done|rewrite !length_app in Hn; cbn in Hn; lia|].
    rewrite E1. cbn [mbind option_bind]. rewrite E2. cbn [mbind option_bind].
    rewrite E3. cbn [mbind option_bind]. rewrite E4. cbn [mbind option_bind].
    rewrite skip_space_head by done. cbn [Z.eqb Pos.eqb].
    rewrite IH; [by rewrite Base64.string_of_bytes_of_string|done|done|].
    rewrite !length_app in Hn. cbn [length] in Hn. rewrite length_app in Hn. lia.
Qed.

Lemma scalar_parts d fs :
  forallb flat_field fs = true ->
  map (fun '(k, v) => bytes_of_string (quote k) ++ [58; 32] ++ indent d v)%list fs = map member_line fs.
Proof.
  intros Hok. apply map_ext_in. intros [k v] Hin.
  rewrite forallb_forall in Hok. specialize (Hok _ Hin). unfold flat_field in Hok. cbn [fst snd] in Hok.
  apply andb_true_iff in Hok as [_ Hs]. rewrite (indent_scalar d v Hs).
  unfold member_line. cbn [fst snd]. by rewrite <-(text_str k).
Qed.

Lemma sep_by_bytes sep parts :
  Forall byte sep -> Forall (Forall byte) parts -> Forall byte (sep_by sep parts).
Proof.
  intros Hsep. induction 1 as [|p parts Hp Hps IH]; [constructor|]. destruct parts; [done|].
  cbn [sep_by]. rewrite !Forall_app. by split_and!.
Qed.

Lemma break_bytes d : Forall byte (break d).
Proof.
  unfold break. constructor; [unfold byte; lia|]. apply Forall_forall. intros x Hx.
  apply list_elem_of_In, repeat_spec in Hx. subst. unfold byte. lia.
Qed.

(** A flat object written by [MarshalIndent], with the line break the program
    puts after it, parses to itself. *)
Lemma parse_indent fs :
  fs <> [] -> forallb flat_field fs = true ->
  parse (MarshalIndent (JObj fs) ++ newline) = Ok (JObj fs).
Proof.
  intros Hne Hok. unfold parse. cbv zeta.
  assert (Hbytes : bytes_of_string (MarshalIndent (JObj fs) ++ newline)
                   = (123 :: break 1 ++ member_lines 1 fs ++ 10 :: 125 :: [10])%list).
  { rewrite bytes_of_string_app. unfold MarshalIndent. destruct fs as [|kv fs']; [done|].
    cbn [indent]. rewrite scalar_parts by done. rewrite bytes_of_string_of_bytes.
    - unfold member_lines, break. cbn. rewrite <-!app_assoc. done.
    - constructor; [unfold byte; lia|]. rewrite !Forall_app. split_and!; [apply break_bytes| |apply break_bytes|].
      + apply sep_by_bytes; [constructor; [unfold byte; lia|apply break_bytes]|].
        apply Forall_forall. intros l Hl. apply list_elem_of_In, in_map_iff in Hl as ([k v] & <- & _).
        unfold member_line. cbn [fst snd]. rewrite <-text_str, Forall_app.
        split; [apply bytes_of_string_bytes|]. repeat (constructor; [unfold byte; lia|]).
        apply bytes_of_string_bytes.
      + constructor; [unfold byte; lia|constructor]. }
  rewrite Hbytes. set (fuel := (2 * _ + 1)%nat).
  assert (Hfuel : exists n, fuel = S n /\ (2 * length (member_lines 1 fs) + 1 <= n)%nat).
  { exists (fuel - 1)%nat. unfold fuel. cbn [length]. rewrite !length_app. cbn [length]. lia. }
  destruct Hfuel as (n & -> & Hn). cbn [parse_value]. rewrite skip_space_head by done. cbn [Z.eqb Pos.eqb].
  assert (Hexp : expect [125] (skip_space (break 1 ++ member_lines 1 fs ++ [10; 125; 10])) = None).
  { destruct fs as [|kv fs']; [done|].
    assert (Hq : exists r, (member_lines 1 (kv :: fs') ++ [10; 125; 10] = 34 :: r)%list).
    { unfold member_lines, member_line, quoted. destruct fs'; cbn; by eexists. }
    destruct Hq as [r ->]. rewrite skip_space_break by done. done. }
  rewrite Hexp, parse_members_lines by done. done.
Qed.

(** ** No line break in an encoded text *)

Definition no_break (l : list Z) : Prop := Forall (fun b => b <> 10) l.

Lemma no_break_app l1 l2 : no_break (l1 ++ l2) <-> no_break l1 /\ no_break l2.
Proof. apply Forall_app. Qed.

(** A run of constants and of bytes known not to be 10. *)
Ltac no_break_run := repeat (apply Forall_cons; split; [lia|]); apply Forall_nil; exact I.

Lemma cont_high b : cont b = true -> 128 <= b.
Proof. unfold cont. intros ?%in_range_spec. lia. Qed.

(** A rune of more than one byte has none below 128. *)
Lemma rune_high bs w :
  rune_width bs = w -> w <> 1%nat -> Forall (fun b => 128 <= b) (firstn w bs).
Proof.
  destruct bs as [|b0 r]; [by intros <-|]. cbn [rune_width].
  destruct (Z.ltb_spec b0 0x80); [intros <-; done|].
  destruct r as [|b1 r1]; [by intros <-|].
  destruct (in_range 0xC2 0xDF b0).
  { destruct (cont b1) eqn:E1; intros <- _; [|constructor]. apply cont_high in E1.
    repeat constructor; lia. }
  destruct r1 as [|b2 r2]; [by intros <-|].
  assert (H1 : forall lo hi, 128 <= lo -> in_range lo hi b1 = true -> 128 <= b1)
    by (intros lo hi ? ?%in_range_spec; lia).
  destruct (in_range 0xE0 0xEF b0).
  { destruct (_ && _) eqn:E; intros <- _; [|constructor]. apply andb_true_iff in E as [E1 E2%cont_high].
    assert (128 <= b1) by (repeat case_match; [by apply (H1 0xA0 0xBF)|by apply (H1 0x80 0x9F)|by apply cont_high]).
    repeat constructor; lia. }
  destruct r2 as [|b3 r3]; [by intros <-|].
  destruct (_ && _) eqn:E; intros <- _; [|constructor].
  apply andb_true_iff in E as [[E1 E2%cont_high]%andb_true_iff E3%cont_high].
  assert (128 <= b1).
  { repeat case_match; [by apply (H1 0x90 0xBF)|by apply (H1 0x80 0x8F)|].
    apply andb_true_iff in E1 as [_ E1]. by apply cont_high. }
  repeat constructor; lia.
Qed.

Lemma escape_ascii_no_break b : 0 <= b < 256 -> no_break (escape_ascii b).
Proof.
  intros Hb. assert (Hall : forallb (fun n => forallb (fun x => negb (x =? 10)) (escape_ascii (Z.of_nat n)))
                              (seq 0 256) = true) by (vm_compute; reflexivity).
  rewrite forallb_forall in Hall. specialize (Hall (Z.to_nat b)). rewrite in_seq, Z2Nat.id in Hall by lia.
  specialize (Hall ltac:(lia)). apply Forall_forall. intros x Hx. rewrite forallb_forall in Hall.
  apply list_elem_of_In, Hall in Hx. by apply negb_true_iff, Z.eqb_neq in Hx.
Qed.

Lemma escape_no_break fuel bs : Forall byte bs -> no_break (escape fuel bs).
Proof.
  revert bs. induction fuel as [|fuel IH]; intros bs Hb; [constructor|].
  destruct bs as [|b bs]; [constructor|]. cbn [escape].
  destruct (rune_width (b :: bs)) as [|w] eqn:Ew; apply no_break_app; (split; [|apply IH; by apply Forall_drop]).
  - no_break_run.
  - assert (Hf : Forall byte (firstn (S w) (b :: bs))) by by apply Forall_take.
    destruct w as [|w].
    { cbn [firstn escape_rune] in *. apply Forall_cons in Hf as [Hf _]. by apply escape_ascii_no_break. }
    assert (Hhigh : Forall (fun b => 128 <= b) (firstn (S (S w)) (b :: bs))) by (apply rune_high; [done|lia]).
    unfold escape_rune. destruct (firstn _ _) as [|x [|y l]]; [constructor| |].
    { apply Forall_cons in Hf as [Hf _]. by apply escape_ascii_no_break. }
    repeat case_bool_decide; [no_break_run|no_break_run|].
    eapply Forall_impl; [exact Hhigh|]. cbn. intros z Hz. lia.
Qed.

Lemma quoted_no_break s : no_break (quoted s).
Proof.
  unfold quoted. apply Forall_cons. split; [lia|]. apply no_break_app.
  split; [apply escape_no_break, bytes_of_string_bytes|no_break_run].
Qed.

Lemma comma_sep_no_break parts : Forall no_break parts -> no_break (comma_sep parts).
Proof.
  induction 1 as [|p parts Hp _ IH]; [constructor|]. destruct parts; [done|].
  rewrite comma_sep_cons. apply no_break_app. split; [done|]. apply Forall_cons. split; [lia|done].
Qed.

(** The encoder's text of a value takes one line. *)
Lemma text_no_break v : json_ok v = true -> no_break (text v).
Proof.
  induction v as [|[]|z| |s|l IH|fs IH] using json_nested_ind; intros Hok; try discriminate Hok.
  1-3: apply (bool_decide_unpack (Forall _ _)); vm_compute; reflexivity.
  - destruct (number_itoa z) as (_ & Hall & _). rewrite text_int. apply Forall_forall. intros x Hx.
    rewrite forallb_forall in Hall. apply list_elem_of_In, Hall in Hx. by intros ->.
  - rewrite text_str. apply quoted_no_break.
  - rewrite text_arr. apply Forall_cons. split; [lia|]. apply no_break_app. split; [|no_break_run].
    apply comma_sep_no_break, Forall_forall. intros t Ht. apply list_elem_of_In, in_map_iff in Ht as (x & <- & Hx).
    rewrite Forall_forall in IH. apply list_elem_of_In in Hx. apply IH; [done|].
    cbn [json_ok] in Hok. rewrite forallb_forall in Hok. by apply Hok, list_elem_of_In.
  - rewrite text_obj. apply Forall_cons. split; [lia|]. apply no_break_app. split; [|no_break_run].
    apply comma_sep_no_break, Forall_forall. intros t Ht. apply list_elem_of_In, in_map_iff in Ht as ([k x] & <- & Hx).
    unfold member_text. cbn [fst snd]. apply no_break_app. split; [apply quoted_no_break|].
    apply Forall_cons. split; [lia|]. rewrite Forall_forall in IH. apply list_elem_of_In in Hx.
    apply (IH (k, x) Hx). cbn [json_ok] in Hok. rewrite forallb_forall in Hok.
    apply list_elem_of_In, Hok in Hx. by apply andb_true_iff in Hx as [_ ?].
Qed.
