(* ===== verification/Identity.v ===== *)
(** * Cryptographic interfaces and validator identities

    [core/crypto/crypto.go] declares the signature and KEM interfaces the
    protocol code is written against; the adapters behind them are Ed25519 and
    X25519 of the Go library or the CIRCL package.  An interface is a record of
    its methods here, and every definition that signs or verifies takes one.
    [core/identity/identity.go] builds the validators' public records. *)

From S2P Require Import Prelude Sha256 Json.
Local Open Scope Z_scope.

(** ** core/crypto: the interfaces *)

Record Signer := mkSigner {
  sg_NodeID : string;
  sg_Algorithm : string;
  sg_PublicKey : string;
  sg_Sign : string -> result string
}.

Record SignatureVerifier := mkVerifier {
  ver_Algorithm : string;
  ver_Verify : string -> string -> string -> bool   (* public key, message, signature *)
}.

Record KEMPrivateKey := mkKEMPrivate {
  kp_Algorithm : string;
  kp_PublicKey : string;
  kp_Decapsulate : string -> result string
}.

(** [Encapsulate] draws from the system's random source: what it drew is an
    argument.  It yields the ciphertext and the shared secret. *)
Record KEMPublicKey := mkKEMPublic {
  kq_Algorithm : string;
  kq_Bytes : string;
  kq_Encapsulate : string -> result (string * string)
}.

(** core/crypto/suite: the adapters of one suite. *)
Record CryptoSuite := mkSuite {
  cs_Name : string;
  cs_SignatureAlgorithm : string;
  cs_KEMAlgorithm : string;
  cs_NewSigner : string -> result Signer;
  cs_NewVerifier : SignatureVerifier;
  cs_NewKEMPrivate : string -> result KEMPrivateKey;
  cs_NewKEMPublic : string -> result KEMPublicKey
}.

Definition Dev : string := "dev".
Definition PQ : string := "pq".

(** [Lookup], over the development suite and the post-quantum one. *)
Definition Lookup (devSuite pqSuite : CryptoSuite) (raw : string) : result CryptoSuite :=
  let name := ToLower (TrimSpace raw) in
  if String.eqb name "" || String.eqb name Dev then Ok devSuite
  else if String.eqb name PQ then Ok pqSuite
  else fail ("unsupported crypto suite " ++ Quote raw ++ "; supported suites: " ++ Dev ++ ", " ++ PQ).

(** A signer and a verifier belong together when the verifier accepts, under
    the signer's public key, what the signer signs: the documented contract of
    a signature scheme. *)
Definition signs_for (s : Signer) (v : SignatureVerifier) : Prop :=
  sg_Algorithm s = ver_Algorithm v /\
  forall m sig, sg_Sign s m = Ok sig -> ver_Verify v (sg_PublicKey s) m sig = true.

(** A private key and a parser of public keys belong together when the parser
    accepts the private key's public key, and the secret encapsulated to it is
    the one the private key decapsulates: the contract of a KEM. *)
Definition kem_pair (k : KEMPrivateKey) (newPublic : string -> result KEMPublicKey) : Prop :=
  exists p, newPublic (kp_PublicKey k) = Ok p /\
    forall entropy c s, kq_Encapsulate p entropy = Ok (c, s) ->
      c <> ""%string /\ kp_Decapsulate k c = Ok s.

(** ** core/identity *)

Record ValidatorIdentity := mkIdentity {
  vi_ID : string;
  vi_Region : string;
  vi_PublicURL : string;
  vi_Algorithm : string;
  vi_PublicKey : string;
  vi_SignatureAlgorithm : string;
  vi_SignaturePublicKey : string;
  vi_KEMAlgorithm : string;
  vi_KEMPublicKey : string;
  vi_KeyID : string
}.

Definition SignatureAlgorithmName (v : ValidatorIdentity) : string :=
  if negb (String.eqb (vi_SignatureAlgorithm v) "") then vi_SignatureAlgorithm v
  else vi_Algorithm v.

Definition SignaturePublicKeyBytes (v : ValidatorIdentity) : string :=
  if 0 <? len (vi_SignaturePublicKey v) then vi_SignaturePublicKey v else vi_PublicKey v.

Definition DefaultValidatorIDs : list string :=
  ["validator-1"; "validator-2"; "validator-3"; "validator-4"; "validator-5"; "validator-6";
   "validator-7"].

Definition DefaultRegionFor (id : string) : string :=
  if bool_decide (id ∈ ["validator-1"; "validator-2"]) then "nyc"
  else if bool_decide (id ∈ ["validator-3"; "validator-4"]) then "london"
  else if bool_decide (id ∈ ["validator-5"; "validator-6"; "validator-7"]) then "singapore"
  else "unknown".

(** The separator byte written between hashed fields. *)
Definition nul : string := String "000"%char EmptyString.

Definition ValidatorKeyID (validatorID signatureAlgorithm signaturePublicKey
                           kemAlgorithm kemPublicKey : string) : string :=
  Hex.EncodeToString (Sha256.Sum256
    ("pq-fabric/validator-key-id/v1" ++ nul ++ validatorID ++ nul ++ signatureAlgorithm ++ nul ++
     signaturePublicKey ++ nul ++ kemAlgorithm ++ nul ++ kemPublicKey)%string).

Definition PublicKeyFingerprint (algorithm publicKey : string) : string :=
  Hex.EncodeToString (Sha256.Sum256
    ("pq-fabric/public-key-fingerprint/v1" ++ nul ++ algorithm ++ nul ++ publicKey)%string).

Definition ValidatorIdentityForSuite (id region publicURL : string) (selected : CryptoSuite)
  : result ValidatorIdentity :=
  match cs_NewSigner selected id with
  | Err e => Err (prefix_err ("create signer for " ++ id)%string e)
  | Ok signer =>
      match cs_NewKEMPrivate selected id with
      | Err e => Err (prefix_err ("create KEM key for " ++ id)%string e)
      | Ok kemPrivate =>
          let signaturePublicKey := sg_PublicKey signer in
          let kemPublicKey := kp_PublicKey kemPrivate in
          let keyID := ValidatorKeyID id (cs_SignatureAlgorithm selected) signaturePublicKey
                         (cs_KEMAlgorithm selected) kemPublicKey in
          Ok (mkIdentity id region publicURL (sg_Algorithm signer) signaturePublicKey
                (cs_SignatureAlgorithm selected) signaturePublicKey
                (cs_KEMAlgorithm selected) kemPublicKey keyID)
      end
  end.

(** [publicURLs[id]] of an absent key is the empty string. *)
Definition ValidatorIdentitiesForSuite (publicURLs : gmap string string) (selected : CryptoSuite)
  : result (gmap string ValidatorIdentity) :=
  foldl (fun acc id =>
           out ← acc;
           identity ← ValidatorIdentityForSuite id (DefaultRegionFor id)
                        (default "" (publicURLs !! id)) selected;
           Ok (<[id := identity]> out))
    (Ok ∅) DefaultValidatorIDs.

Definition RequireIdentity (identities : gmap string ValidatorIdentity) (id : string)
  : result ValidatorIdentity :=
  match identities !! id with
  | Some identity => Ok identity
  | None => fail ("unknown validator identity: " ++ id)%string
  end.

(** An identity record of the signer's public key and algorithm. *)
Definition identity_of (vi : ValidatorIdentity) (signer : Signer) : Prop :=
  SignatureAlgorithmName vi = sg_Algorithm signer /\
  SignaturePublicKeyBytes vi = sg_PublicKey signer.

(** *** A concrete scheme

    The signature of a message names the key and the message, so that it is
    checked by comparison: an instance of the interfaces at which the theorems
    about signed messages are evaluated. *)
Definition demo_signer (id : string) : Signer :=
  mkSigner id "demo" ("pk-" ++ id)%string (fun m => Ok ("pk-" ++ id ++ ":" ++ m)%string).

Definition demo_verifier : SignatureVerifier :=
  mkVerifier "demo" (fun pk m sig => String.eqb sig (pk ++ ":" ++ m)%string).

Definition demo_identity (id : string) : ValidatorIdentity :=
  mkIdentity id "nyc" "" "demo" ("pk-" ++ id)%string "demo" ("pk-" ++ id)%string "kem" "k" "id".

Definition demo_suite : CryptoSuite :=
  mkSuite "demo" "demo" "demo-kem" (fun id => Ok (demo_signer id)) demo_verifier
    (fun label => Ok (mkKEMPrivate "demo-kem" ("kem-" ++ label)%string (fun c => Ok c)))
    (fun public => Ok (mkKEMPublic "demo-kem" public (fun entropy => Ok ("c" ++ entropy, "c" ++ entropy)%string))).

Definition demo_identities (ids : list string) : gmap string ValidatorIdentity :=
  list_to_map (map (fun id => (id, demo_identity id)) ids).

Lemma demo_signs_for id : signs_for (demo_signer id) demo_verifier.
Proof. split; [done|]. cbn. intros m sig [= <-]. apply String.eqb_refl. Qed.

Lemma demo_kem_pair label k :
  cs_NewKEMPrivate demo_suite label = Ok k -> kem_pair k (cs_NewKEMPublic demo_suite).
Proof.
  cbn. intros [= <-]. eexists. split; [done|]. cbn. by intros entropy c s [= <- <-].
Qed.

Lemma RequireIdentity_ok ids id v : RequireIdentity ids id = Ok v <-> ids !! id = Some v.
Proof. unfold RequireIdentity. destruct (ids !! id); naive_solver. Qed.

Lemma DefaultValidatorIDs_NoDup : NoDup DefaultValidatorIDs.
Proof. apply (bool_decide_eq_true_1 _). vm_compute. reflexivity. Qed.

#[export] Hint Resolve DefaultValidatorIDs_NoDup : go.
