(* ===== verification/Crypto.v ===== *)
(** * The cryptographic adapters and suites

    core/crypto/dev.go and dev/dev.go (Ed25519 and X25519), core/crypto/mldsa and
    core/crypto/mlkem (ML-DSA-87 and ML-KEM-768 of CIRCL), and core/crypto/suite.  The
    primitives are parameters, classes whose laws are their documented correctness: what
    a key signs verifies under its public half, two X25519 keys agree on a secret, an
    encapsulated secret is recovered.  The adapters over them keep the contracts of the
    interfaces, [LawfulSuite], which is what the protocol code relies on. *)

From S2P Require Import Prelude Sha256 Json Identity.
Local Open Scope Z_scope.
Local Open Scope string_scope.

(** ** The contract of a suite *)

Class LawfulSuite (s : CryptoSuite) : Prop := {
  suite_signer : forall id, exists signer, cs_NewSigner s id = Ok signer /\
    sg_NodeID signer = id /\ sg_Algorithm signer = cs_SignatureAlgorithm s /\
    signs_for signer (cs_NewVerifier s) /\ forall m, exists sig, sg_Sign signer m = Ok sig;
  suite_kem : forall label, exists k, cs_NewKEMPrivate s label = Ok k /\
    kp_Algorithm k = cs_KEMAlgorithm s /\ kem_pair k (cs_NewKEMPublic s)
}.

(** ** The primitives *)

(** crypto/ed25519: keys are made from seeds of 32 bytes. *)
Class Ed25519 := {
  ed_Public : string -> string;
  ed_Sign : string -> string -> string;
  ed_Verify : string -> string -> string -> bool
}.

Class Ed25519Laws `{Ed25519} : Prop := {
  ed_public_size : forall seed, String.length seed = 32%nat -> String.length (ed_Public seed) = 32%nat;
  ed_signature_size : forall seed m, String.length (ed_Sign seed m) = 64%nat;
  ed_verifies : forall seed m, String.length seed = 32%nat -> ed_Verify (ed_Public seed) m (ed_Sign seed m) = true
}.

(** crypto/ecdh: the function X25519 of RFC 7748 on strings of 32 bytes. *)
Class X25519 := {
  x25519 : string -> string -> string;
  x_Base : string
}.

Class X25519Laws `{X25519} : Prop := {
  x_size : forall k u, String.length k = 32%nat -> String.length u = 32%nat -> String.length (x25519 k u) = 32%nat;
  x_base_size : String.length x_Base = 32%nat;
  x_agree : forall a b, String.length a = 32%nat -> String.length b = 32%nat ->
    x25519 a (x25519 b x_Base) = x25519 b (x25519 a x_Base)
}.

(** github.com/cloudflare/circl/sign/mldsa/mldsa87.  Signing is deterministic and
    without a context. *)
Class Mldsa87 := {
  md_PublicKey : Type;
  md_PrivateKey : Type;
  md_SeedSize : nat;
  md_PublicKeySize : nat;
  md_SignatureSize : nat;
  md_NewKeyFromSeed : string -> md_PublicKey * md_PrivateKey;
  md_GenerateKey : string -> result (md_PublicKey * md_PrivateKey);
  md_Bytes : md_PublicKey -> string;
  md_UnmarshalBinary : string -> result md_PublicKey;
  md_SignTo : md_PrivateKey -> string -> result string;
  md_Verify : md_PublicKey -> string -> string -> bool
}.

Class Mldsa87Laws `{Mldsa87} : Prop := {
  md_roundtrip : forall seed, String.length seed = md_SeedSize ->
    let public := (md_NewKeyFromSeed seed).1 in
    String.length (md_Bytes public) = md_PublicKeySize /\ md_UnmarshalBinary (md_Bytes public) = Ok public;
  md_signs : forall seed m, String.length seed = md_SeedSize ->
    exists sig, md_SignTo (md_NewKeyFromSeed seed).2 m = Ok sig /\ String.length sig = md_SignatureSize /\
      md_Verify (md_NewKeyFromSeed seed).1 m sig = true
}.

(** github.com/cloudflare/circl/kem/mlkem/mlkem768 and its [Scheme]. *)
Class Mlkem768 := {
  mk_PublicKey : Type;
  mk_PrivateKey : Type;
  mk_SeedSize : nat;
  mk_PublicKeySize : nat;
  mk_CiphertextSize : nat;
  mk_GenerateKeyPair : string -> result (mk_PublicKey * mk_PrivateKey);
  mk_DeriveKeyPair : string -> mk_PublicKey * mk_PrivateKey;
  mk_MarshalBinary : mk_PublicKey -> result string;
  mk_UnmarshalBinaryPublicKey : string -> result mk_PublicKey;
  mk_UnmarshalBinaryPrivateKey : string -> result mk_PrivateKey;
  mk_Public : mk_PrivateKey -> mk_PublicKey;
  mk_Encapsulate : mk_PublicKey -> string -> result (string * string);
  mk_EncapsulateDeterministically : mk_PublicKey -> string -> result (string * string);
  mk_Decapsulate : mk_PrivateKey -> string -> result string
}.

Class Mlkem768Laws `{Mlkem768} : Prop := {
  mk_ciphertext_size : mk_CiphertextSize <> 0%nat;
  mk_roundtrip : forall seed, String.length seed = mk_SeedSize ->
    let public := (mk_DeriveKeyPair seed).1 in
    exists bytes, mk_MarshalBinary public = Ok bytes /\
      String.length bytes = mk_PublicKeySize /\ mk_UnmarshalBinaryPublicKey bytes = Ok public;
  mk_recovers : forall seed entropy c s, String.length seed = mk_SeedSize ->
    mk_Encapsulate (mk_DeriveKeyPair seed).1 entropy = Ok (c, s) ->
    String.length c = mk_CiphertextSize /\ mk_Decapsulate (mk_DeriveKeyPair seed).2 c = Ok s
}.

(** ** dev.go: Ed25519 and X25519 *)

Definition DevSignatureAlgorithm : string := "DEV-ED25519-SLOT-FOR-ML-DSA-87".
Definition DevKEMAlgorithm : string := "DEV-X25519-SLOT-FOR-ML-KEM-768".

Section dev.
Context `{Ed25519, X25519}.

(** [DevSigner] keeps the key of its seed. *)
Definition NewDeterministicDevSigner (nodeID : string) : Signer :=
  let seed := Sha256.Sum256 ("pq-fabric/dev-signer/" ++ nodeID) in
  mkSigner nodeID DevSignatureAlgorithm (ed_Public seed) (fun m => Ok (ed_Sign seed m)).

Definition DevSignatureVerifier : SignatureVerifier :=
  mkVerifier DevSignatureAlgorithm (fun publicKey message signature =>
    if negb (Nat.eqb (String.length publicKey) 32) || negb (Nat.eqb (String.length signature) 64) then false
    else ed_Verify publicKey message signature).

(** *** crypto/ecdh *)

Definition NewX25519PrivateKey (key : string) : result string :=
  if Nat.eqb (String.length key) 32 then Ok key else fail "crypto/ecdh: invalid private key size".

Definition NewX25519PublicKey (key : string) : result string :=
  if Nat.eqb (String.length key) 32 then Ok key else fail "crypto/ecdh: invalid public key".

Definition all_zero (s : string) : bool := forallb (fun c => Ascii.eqb c "000"%char) (list_ascii_of_string s).

(** The shared secret of a low-order point is refused. *)
Definition ECDH (private public : string) : result string :=
  let shared := x25519 private public in
  if all_zero shared then fail "crypto/ecdh: bad X25519 remote ECDH input: low order point" else Ok shared.

(** A key drawn from the random source is what was drawn. *)
Definition GenerateX25519Key (entropy : string) : result string :=
  if Nat.eqb (String.length entropy) 32 then Ok entropy else fail "unexpected EOF".

Definition DevKEMPrivate_Decapsulate (private ciphertext : string) : result string :=
  if Nat.eqb (String.length ciphertext) 0 then fail "empty development KEM ciphertext"
  else match NewX25519PublicKey ciphertext with
       | Err e => Err (prefix_err "invalid development KEM ciphertext" e)
       | Ok peerPublic => ECDH private peerPublic
       end.

Definition DevKEMPrivate (private : string) : KEMPrivateKey :=
  mkKEMPrivate DevKEMAlgorithm (x25519 private x_Base) (DevKEMPrivate_Decapsulate private).

Definition NewRandomDevKEMPrivate (entropy : string) : result KEMPrivateKey :=
  private ← GenerateX25519Key entropy; Ok (DevKEMPrivate private).

Definition NewDeterministicDevKEMPrivate (label : string) : result KEMPrivateKey :=
  private ← NewX25519PrivateKey (Sha256.Sum256 ("pq-fabric/dev-kem/" ++ label)); Ok (DevKEMPrivate private).

Definition DevKEMPublic_Encapsulate (public entropy : string) : result (string * string) :=
  ephemeral ← GenerateX25519Key entropy;
  shared ← ECDH ephemeral public;
  Ok (x25519 ephemeral x_Base, shared).

Definition DevKEMPublic (public : string) : KEMPublicKey :=
  mkKEMPublic DevKEMAlgorithm public (DevKEMPublic_Encapsulate public).

Definition NewDevKEMPublic (publicBytes : string) : result KEMPublicKey :=
  if Nat.eqb (String.length publicBytes) 0 then fail "empty development KEM public key"
  else match NewX25519PublicKey publicBytes with
       | Err e => Err (prefix_err "invalid development KEM public key" e)
       | Ok public => Ok (DevKEMPublic public)
       end.

(** [DevKEMPrivate.Public]. *)
Definition DevKEMPrivate_Public (private : string) : KEMPublicKey := DevKEMPublic (x25519 private x_Base).
End dev.

(** ** The seeds of mldsa.go and mlkem.go *)

Definition put_uint32 (counter : Z) : string := string_of_bytes (Sha256.be_bytes 4 counter).

(** The loop of [deterministicSeed]; every turn adds 32 bytes, so that [size] turns
    are enough. *)
Fixpoint seed_loop (fuel : nat) (label : string) (size : nat) (counter : Z) (out : string) : string :=
  match fuel with
  | O => out
  | S fuel =>
      if Nat.ltb (String.length out) size
      then seed_loop fuel label size ((counter + 1) mod 2 ^ 32) (out ++ Sha256.Sum256 (label ++ put_uint32 counter))
      else out
  end.

Definition deterministicSeed (label : string) (size : nat) : string := prefix size (seed_loop size label size 0 "").

#[global] Arguments deterministicSeed : simpl never.

(** ** mldsa.go *)

Definition MldsaAlgorithm : string := "ML-DSA-87".

Section mldsa.
Context `{Mldsa87}.

Definition parsePublicKey (publicKey : string) : result md_PublicKey :=
  if negb (Nat.eqb (String.length publicKey) md_PublicKeySize) then
    Err (errorf ["ML-DSA-87 public key length "; itoa (len publicKey); " does not match ";
                 itoa (Z.of_nat md_PublicKeySize)])
  else md_UnmarshalBinary publicKey.

Definition mldsa_newSigner (nodeID : string) (public : md_PublicKey) (private : md_PrivateKey) : Signer :=
  mkSigner nodeID MldsaAlgorithm (md_Bytes public) (md_SignTo private).

Definition mldsa_NewRandomSigner (nodeID entropy : string) : result Signer :=
  '(public, private) ← md_GenerateKey entropy; Ok (mldsa_newSigner nodeID public private).

Definition mldsa_NewDeterministicSigner (nodeID : string) : result Signer :=
  let '(public, private) := md_NewKeyFromSeed (deterministicSeed ("pq-fabric/mldsa87/signer/" ++ nodeID) md_SeedSize) in
  Ok (mldsa_newSigner nodeID public private).

Definition mldsa_Verify (publicKey message signature : string) : bool :=
  if negb (Nat.eqb (String.length signature) md_SignatureSize) then false
  else match parsePublicKey publicKey with
       | Err _ => false
       | Ok public => md_Verify public message signature
       end.

Definition mldsa_NewVerifier : SignatureVerifier := mkVerifier MldsaAlgorithm mldsa_Verify.
End mldsa.

(** ** mlkem.go *)

Definition MlkemAlgorithm : string := "ML-KEM-768".

Section mlkem.
Context `{Mlkem768}.

Definition mlkem_Decapsulate (private : mk_PrivateKey) (ciphertext : string) : result string :=
  if negb (Nat.eqb (String.length ciphertext) mk_CiphertextSize) then
    Err (errorf ["ML-KEM-768 ciphertext length "; itoa (len ciphertext); " does not match ";
                 itoa (Z.of_nat mk_CiphertextSize)])
  else mk_Decapsulate private ciphertext.

Definition mlkem_newPrivate (public : mk_PublicKey) (private : mk_PrivateKey) : result KEMPrivateKey :=
  publicBytes ← mk_MarshalBinary public;
  Ok (mkKEMPrivate MlkemAlgorithm publicBytes (mlkem_Decapsulate private)).

Definition mlkem_NewRandomPrivate (entropy : string) : result KEMPrivateKey :=
  '(public, private) ← mk_GenerateKeyPair entropy; mlkem_newPrivate public private.

Definition mlkem_NewDeterministicPrivate (label : string) : result KEMPrivateKey :=
  let '(public, private) := mk_DeriveKeyPair (deterministicSeed ("pq-fabric/mlkem768/private/" ++ label) mk_SeedSize) in
  mlkem_newPrivate public private.

Definition mlkem_NewPrivate (privateBytes : string) : result KEMPrivateKey :=
  match mk_UnmarshalBinaryPrivateKey privateBytes with
  | Err e => Err (prefix_err "invalid ML-KEM-768 private key" e)
  | Ok private => mlkem_newPrivate (mk_Public private) private
  end.

(** [PublicKey.EncapsulateDeterministically], on the key itself. *)
Definition mlkem_EncapsulateDeterministically (public : mk_PublicKey) (seed : string) : result (string * string) :=
  mk_EncapsulateDeterministically public seed.

Definition mlkem_NewPublic (publicBytes : string) : result KEMPublicKey :=
  if negb (Nat.eqb (String.length publicBytes) mk_PublicKeySize) then
    Err (errorf ["ML-KEM-768 public key length "; itoa (len publicBytes); " does not match ";
                 itoa (Z.of_nat mk_PublicKeySize)])
  else match mk_UnmarshalBinaryPublicKey publicBytes with
       | Err e => Err (prefix_err "invalid ML-KEM-768 public key" e)
       | Ok public => Ok (mkKEMPublic MlkemAlgorithm publicBytes (mk_Encapsulate public))
       end.
End mlkem.

(** ** suite.go *)

Section suites.
Context `{Ed25519, X25519, Mldsa87, Mlkem768}.

Definition devSuite : CryptoSuite :=
  mkSuite Dev DevSignatureAlgorithm DevKEMAlgorithm (fun nodeID => Ok (NewDeterministicDevSigner nodeID))
    DevSignatureVerifier NewDeterministicDevKEMPrivate NewDevKEMPublic.

Definition pqSuite : CryptoSuite :=
  mkSuite PQ MldsaAlgorithm MlkemAlgorithm mldsa_NewDeterministicSigner mldsa_NewVerifier
    mlkem_NewDeterministicPrivate mlkem_NewPublic.

(** The value of PQ_FABRIC_CRYPTO_SUITE is an argument. *)
Definition FromEnv (suite_var : string) : result CryptoSuite := Lookup devSuite pqSuite suite_var.

Definition MustLookup (raw : string) : result CryptoSuite :=
  match Lookup devSuite pqSuite raw with
  | Ok selected => Ok selected
  | Err e => panic (err_text e)
  end.
End suites.

(** ** The adapters keep the contracts *)

Lemma seed_loop_long fuel label size counter out :
  (size <= String.length out + fuel)%nat -> (size <= String.length (seed_loop fuel label size counter out))%nat.
Proof.
  revert counter out. induction fuel as [|fuel IH]; intros counter out Hf; cbn [seed_loop]; [lia|].
  destruct (Nat.ltb_spec (String.length out) size); [|lia].
  apply IH. rewrite length_append, Sha256.length_Sum256. lia.
Qed.

Lemma length_deterministicSeed label size : String.length (deterministicSeed label size) = size.
Proof. apply length_prefix. apply seed_loop_long. cbn. lia. Qed.

Section laws.
Context `{HE : Ed25519, !Ed25519Laws, HX : X25519, !X25519Laws}.
#[local] Set Default Proof Using "All".

Lemma dev_signs nodeID : signs_for (NewDeterministicDevSigner nodeID) DevSignatureVerifier.
Proof.
  split; [done|]. cbn -[Sha256.Sum256 String.append]. intros m sig [= <-].
  by rewrite ed_public_size, ed_signature_size, ed_verifies by apply Sha256.length_Sum256.
Qed.

Lemma dev_kem_pair label : exists k, NewDeterministicDevKEMPrivate label = Ok k /\
  kp_Algorithm k = DevKEMAlgorithm /\ kem_pair k NewDevKEMPublic.
Proof.
  unfold NewDeterministicDevKEMPrivate, NewX25519PrivateKey. rewrite Sha256.length_Sum256. cbn [Nat.eqb mbind result_bind].
  set (private := Sha256.Sum256 _). assert (Hp : String.length private = 32%nat) by apply Sha256.length_Sum256.
  clearbody private. eexists. split; [reflexivity|]. split; [done|].
  pose proof x_base_size as Hb. exists (DevKEMPublic (x25519 private x_Base)). split.
  - unfold NewDevKEMPublic, NewX25519PublicKey. cbn [DevKEMPrivate kp_PublicKey]. by rewrite x_size.
  - cbn. unfold DevKEMPublic_Encapsulate, GenerateX25519Key, ECDH. intros entropy c s.
    destruct (Nat.eqb_spec (String.length entropy) 32) as [He|]; [|done]. cbn [mbind result_bind].
    rewrite (x_agree entropy private) by done.
    destruct (all_zero _) eqn:Hz; [done|]. cbn. intros [= <- <-].
    assert (Hc : String.length (x25519 entropy x_Base) = 32%nat) by by apply x_size.
    split; [by intros E; rewrite E in Hc|].
    unfold DevKEMPrivate_Decapsulate, NewX25519PublicKey, ECDH. rewrite Hc. cbn [Nat.eqb]. by rewrite Hz.
Qed.
End laws.

Section pq_laws.
Context `{HD : Mldsa87, !Mldsa87Laws, HK : Mlkem768, !Mlkem768Laws}.
#[local] Set Default Proof Using "All".

Lemma mldsa_signs nodeID : exists signer, mldsa_NewDeterministicSigner nodeID = Ok signer /\
  sg_NodeID signer = nodeID /\ sg_Algorithm signer = MldsaAlgorithm /\
  signs_for signer mldsa_NewVerifier /\ forall m, exists sig, sg_Sign signer m = Ok sig.
Proof.
  unfold mldsa_NewDeterministicSigner. pose proof (length_deterministicSeed ("pq-fabric/mldsa87/signer/" ++ nodeID) md_SeedSize) as Hs.
  revert Hs. generalize (deterministicSeed ("pq-fabric/mldsa87/signer/" ++ nodeID) md_SeedSize). intros seed Hs.
  pose proof (fun m => md_signs seed m Hs) as Hsigns. destruct (md_roundtrip seed Hs) as [Hpub Hu].
  destruct (md_NewKeyFromSeed seed) as [pub priv] eqn:E. cbn in Hsigns, Hpub, Hu.
  eexists. split; [reflexivity|]. split_and!; [done|done|split; [done|]|].
  - cbn. intros m sig Hm. destruct (Hsigns m) as (sig' & Hm' & Hl & Hv). assert (sig' = sig) as -> by congruence.
    unfold mldsa_Verify, parsePublicKey. cbn. by rewrite Hl, Hpub, !Nat.eqb_refl, Hu.
  - intros m. destruct (Hsigns m) as (sig & Hm & _). by exists sig.
Qed.

Lemma mlkem_pair label : exists k, mlkem_NewDeterministicPrivate label = Ok k /\
  kp_Algorithm k = MlkemAlgorithm /\ kem_pair k mlkem_NewPublic.
Proof.
  unfold mlkem_NewDeterministicPrivate.
  pose proof (length_deterministicSeed ("pq-fabric/mlkem768/private/" ++ label) mk_SeedSize) as Hs.
  revert Hs. generalize (deterministicSeed ("pq-fabric/mlkem768/private/" ++ label) mk_SeedSize). intros seed Hs.
  pose proof (fun e c s => mk_recovers seed e c s Hs) as Hr. destruct (mk_roundtrip seed Hs) as (bytes & Hm & Hl & Hu).
  destruct (mk_DeriveKeyPair seed) as [pub priv] eqn:E. cbn in Hr, Hm, Hu. unfold mlkem_newPrivate. rewrite Hm. cbn [mbind result_bind].
  eexists. split; [reflexivity|]. split; [done|]. eexists. split.
  - cbn. unfold mlkem_NewPublic. by rewrite Hl, Nat.eqb_refl, Hu.
  - cbn. intros entropy c s Hc. apply Hr in Hc as [Hlen Hd]. split.
    + intros ->. by destruct mk_ciphertext_size.
    + unfold mlkem_Decapsulate. by rewrite Hlen, Nat.eqb_refl.
Qed.
End pq_laws.

Section lawful.
Context `{HE : Ed25519, !Ed25519Laws, HX : X25519, !X25519Laws, HD : Mldsa87, !Mldsa87Laws, HK : Mlkem768, !Mlkem768Laws}.
#[local] Set Default Proof Using "All".

#[export] Instance devSuite_lawful : LawfulSuite devSuite.
Proof.
  split; [|apply dev_kem_pair]. intros id. eexists. split; [reflexivity|].
  split_and!; [done|done|apply dev_signs|]. intros m. by eexists.
Qed.

#[export] Instance pqSuite_lawful : LawfulSuite pqSuite.
Proof. split; [apply mldsa_signs|apply mlkem_pair]. Qed.

(** C13: the suites keep the contracts the protocol code relies on.  Whatever suite a name
    selects, every node has a signer of the suite's algorithm that signs every message
    and whose signatures the suite's verifier accepts under its public key, and every
    label has a KEM key whose public key the suite parses and which recovers every
    secret encapsulated to it. *)
Theorem selected_suite_lawful raw s : FromEnv raw = Ok s -> LawfulSuite s.
Proof.
  unfold FromEnv, Lookup. destruct (_ || _); [intros [= <-]; apply _|].
  destruct (String.eqb _ PQ); [intros [= <-]; apply _|done].
Qed.
End lawful.

(** ** What a lawful suite gives the validators *)

Section identities.
Context (s : CryptoSuite) `{!LawfulSuite s}.
#[local] Set Default Proof Using "All".

Lemma ValidatorIdentityForSuite_ok id region url : exists v signer,
  ValidatorIdentityForSuite id region url s = Ok v /\ cs_NewSigner s id = Ok signer /\ identity_of v signer.
Proof.
  destruct (suite_signer id) as (signer & Hs & _ & Ha & _). destruct (suite_kem id) as (k & Hk & _).
  unfold ValidatorIdentityForSuite. rewrite Hs, Hk. eexists _, signer. split; [reflexivity|]. split; [done|].
  unfold identity_of, SignatureAlgorithmName, SignaturePublicKeyBytes. cbn. split.
  - rewrite <-Ha. by destruct (String.eqb _ _).
  - by destruct (Z.ltb 0 _).
Qed.

(** The identities of a lawful suite: one for each default validator, of its signer. *)
Definition suite_identities (ids : gmap string ValidatorIdentity) (l : list string) : Prop :=
  (forall id, id ∈ l -> exists v signer, ids !! id = Some v /\ cs_NewSigner s id = Ok signer /\ identity_of v signer) /\
  dom ids = list_to_set l.

Lemma ValidatorIdentitiesForSuite_ok urls : exists ids,
  ValidatorIdentitiesForSuite urls s = Ok ids /\ suite_identities ids DefaultValidatorIDs.
Proof.
  unfold ValidatorIdentitiesForSuite. set (step := fun acc id => _).
  assert (Hfold : forall l seen acc, suite_identities acc seen ->
    exists ids, foldl step (Ok acc) l = Ok ids /\ suite_identities ids (seen ++ l)).
  { induction l as [|id l IH]; intros seen acc Hacc; [exists acc; by rewrite app_nil_r|].
    destruct (ValidatorIdentityForSuite_ok id (DefaultRegionFor id) (default "" (urls !! id))) as (v & signer & Hv & Hs & Hid).
    cbn [foldl step mbind result_bind]. rewrite Hv. cbn [mbind result_bind].
    destruct (IH (seen ++ [id])%list (<[id := v]> acc)) as (ids & E & Hids);
      [|exists ids; split; [exact E|by rewrite <-(assoc_L (++)%list) in Hids]].
    destruct Hacc as [Hall Hdom]. split.
    - intros i Hi. destruct (decide (i = id)) as [->|Hne]; [exists v, signer; by rewrite lookup_insert_eq|].
      rewrite lookup_insert_ne by done. apply Hall. set_solver.
    - rewrite dom_insert_L, Hdom, list_to_set_app_L. set_solver. }
  destruct (Hfold DefaultValidatorIDs [] ∅) as (ids & E & Hids); [|by exists ids].
  split; [by intros i ?%elem_of_nil|]. by rewrite dom_empty_L.
Qed.
End identities.

(** ** Primitives of which the laws hold

    Signatures that hash the key with the message, and a key agreement by the exclusive
    or of the keys: enough to evaluate the theorems, nothing more. *)

Definition demo_hash (key m : string) : string := Sha256.Sum256 (key ++ m).

Definition demo_ed25519 : Ed25519 := {|
  ed_Public seed := seed;
  ed_Sign seed m := demo_hash seed m ++ demo_hash seed m;
  ed_Verify public m sig := String.eqb sig (demo_hash public m ++ demo_hash public m)
|}.

Lemma demo_ed25519_laws : @Ed25519Laws demo_ed25519.
Proof.
  split; cbn -[demo_hash String.append]; [done| |]; intros.
  - unfold demo_hash. by rewrite length_append, !Sha256.length_Sum256.
  - apply String.eqb_refl.
Qed.

Definition ascii_xor (a b : ascii) : ascii :=
  let '(Ascii a0 a1 a2 a3 a4 a5 a6 a7) := a in let '(Ascii b0 b1 b2 b3 b4 b5 b6 b7) := b in
  Ascii (xorb a0 b0) (xorb a1 b1) (xorb a2 b2) (xorb a3 b3) (xorb a4 b4) (xorb a5 b5) (xorb a6 b6) (xorb a7 b7).

Definition string_xor (s t : string) : string :=
  string_of_list_ascii (zip_with ascii_xor (list_ascii_of_string s) (list_ascii_of_string t)).

Lemma ascii_xor_swap a b c : ascii_xor a (ascii_xor b c) = ascii_xor b (ascii_xor a c).
Proof.
  assert (Hx : forall x y z, xorb x (xorb y z) = xorb y (xorb x z)) by by intros [] [] [].
  destruct a, b, c. cbn. by f_equal.
Qed.

Definition demo_base : string := String.concat "" (repeat "9" 32).

Definition demo_x25519 : X25519 := {| x25519 := string_xor; x_Base := demo_base |}.

Lemma length_list_ascii s : length (list_ascii_of_string s) = String.length s.
Proof. induction s; cbn; congruence. Qed.

Lemma demo_x25519_laws : @X25519Laws demo_x25519.
Proof.
  split; cbn -[demo_base].
  - intros k u Hk Hu. unfold string_xor. rewrite length_string_of_list_ascii, length_zip_with, !length_list_ascii. lia.
  - reflexivity.
  - intros a b _ _. unfold string_xor. rewrite !list_ascii_of_string_of_list_ascii. f_equal.
    generalize (list_ascii_of_string demo_base), (list_ascii_of_string b). intros l.
    generalize (list_ascii_of_string a). clear. induction l as [|c l IH]; intros la lb; destruct la, lb; cbn; try done.
    by rewrite ascii_xor_swap, IH.
Qed.

Definition demo_mldsa87 : Mldsa87 := {|
  md_PublicKey := string; md_PrivateKey := string;
  md_SeedSize := 32; md_PublicKeySize := 32; md_SignatureSize := 32;
  md_NewKeyFromSeed seed := (seed, seed);
  md_GenerateKey entropy := Ok (entropy, entropy);
  md_Bytes public := public;
  md_UnmarshalBinary bytes := Ok bytes;
  md_SignTo private m := Ok (demo_hash private m);
  md_Verify public m sig := String.eqb sig (demo_hash public m)
|}.

Lemma demo_mldsa87_laws : @Mldsa87Laws demo_mldsa87.
Proof.
  split; cbn -[demo_hash]; [done|]. intros seed m _. exists (demo_hash seed m).
  split_and!; [done|apply Sha256.length_Sum256|apply String.eqb_refl].
Qed.

Definition demo_mlkem768 : Mlkem768 := {|
  mk_PublicKey := string; mk_PrivateKey := string;
  mk_SeedSize := 32; mk_PublicKeySize := 32; mk_CiphertextSize := 32;
  mk_GenerateKeyPair entropy := Ok (entropy, entropy);
  mk_DeriveKeyPair seed := (seed, seed);
  mk_MarshalBinary public := Ok public;
  mk_UnmarshalBinaryPublicKey bytes := Ok bytes;
  mk_UnmarshalBinaryPrivateKey bytes := Ok bytes;
  mk_Public private := private;
  mk_Encapsulate public entropy := Ok (demo_hash "c" entropy, demo_hash public (demo_hash "c" entropy));
  mk_EncapsulateDeterministically public seed := Ok (demo_hash "c" seed, demo_hash public (demo_hash "c" seed));
  mk_Decapsulate private ciphertext := Ok (demo_hash private ciphertext)
|}.

Lemma demo_mlkem768_laws : @Mlkem768Laws demo_mlkem768.
Proof.
  split; cbn -[demo_hash]; [done| |].
  - intros seed Hs. by exists seed.
  - intros seed entropy c s _ [= <- <-]. by split; [apply Sha256.length_Sum256|].
Qed.

#[local] Existing Instances demo_ed25519 demo_x25519 demo_mldsa87 demo_mlkem768.
#[local] Existing Instances demo_ed25519_laws demo_x25519_laws demo_mldsa87_laws demo_mlkem768_laws.

Lemma selected_suite_lawful_witness : LawfulSuite pqSuite /\ LawfulSuite devSuite.
Proof.
  split; [apply (selected_suite_lawful " PQ ")|apply (selected_suite_lawful "")]; unfold FromEnv, Lookup.
  - by replace (ToLower (TrimSpace " PQ ")) with PQ by (vm_compute; reflexivity).
  - by replace (ToLower (TrimSpace "")) with "" by (vm_compute; reflexivity).
Defined.

(** The post-quantum suite over them. *)
Definition demo_pq : CryptoSuite := pqSuite.

Lemma demo_pq_lawful : LawfulSuite demo_pq.
Proof. apply pqSuite_lawful. Qed.

(** What a validator signs with its key its peers accept. *)
Example demo_suite_signs :
  match cs_NewSigner demo_pq "validator-1" with
  | Ok signer => match sg_Sign signer "block" with
                 | Ok sig => ver_Verify (cs_NewVerifier demo_pq) (sg_PublicKey signer) "block" sig
                 | Err _ => false
                 end
  | Err _ => false
  end = true.
Proof. vm_compute. reflexivity. Qed.
