(* ===== verification/State.v ===== *)
(** * The replicated transaction state: consensus/state/state.go

    A [Machine] is a digest and the set of applied transaction ids.  A block's
    transactions are filtered of those already applied, and the digest of the
    rest is chained to the previous digest. *)

From S2P Require Import Prelude Sha256 Json Identity.
Local Open Scope Z_scope.

Record Transaction := mkTx { tx_ID : string; tx_Payload : string }.

#[export] Instance Transaction_eq_dec : EqDecision Transaction.
Proof. solve_decision. Defined.

Definition tx_json (tx : Transaction) : json :=
  JObj (("id", JStr (tx_ID tx)) :: omit_str "payload" (tx_Payload tx)).

Record transitionRecord := mkRecord { tr_PreviousDigest : string; tr_Applied : list Transaction }.

Definition transitionRecord_json (r : transitionRecord) : json :=
  JObj [("previous_digest", JStr (tr_PreviousDigest r));
        ("applied", JArr (map tx_json (tr_Applied r)))].

Record Machine := mkMachine { m_digest : string; m_applied : gset string }.

Definition GenesisDigest : string := HashBytes "pq-fabric/consensus/state/genesis/v1".

Definition NewMachine : Machine := mkMachine GenesisDigest ∅.

Definition TransactionID (payload : string) : string :=
  HashBytes ("pq-fabric/consensus/state/tx/v1" ++ nul ++ payload)%string.

Definition TransactionsFromPayload (payload : string) : list Transaction :=
  [mkTx (TransactionID payload) payload].

(** A blank id is replaced by the hash of the payload. *)
Definition fill_id (tx : Transaction) : Transaction :=
  if String.eqb (TrimSpace (tx_ID tx)) "" && negb (String.eqb (tx_Payload tx) "")
  then mkTx (TransactionID (tx_Payload tx)) (tx_Payload tx) else tx.

Definition NormalizeTransactions (payload : string) (txs : list Transaction) : list Transaction :=
  match txs with [] => TransactionsFromPayload payload | _ => map fill_id txs end.

(** The loop of [transitionDigest]: [seen] is [seenInBlock]. *)
Fixpoint newly_applied (alreadyApplied seen : gset string) (txs : list Transaction)
  : result (list Transaction) :=
  match txs with
  | [] => Ok []
  | raw :: rest =>
      let tx := fill_id raw in
      if String.eqb (TrimSpace (tx_ID tx)) "" then fail "transaction id is required"
      else if bool_decide (tx_ID tx ∈ alreadyApplied) then newly_applied alreadyApplied seen rest
      else if bool_decide (tx_ID tx ∈ seen) then newly_applied alreadyApplied seen rest
      else applied ← newly_applied alreadyApplied ({[tx_ID tx]} ∪ seen) rest; Ok (tx :: applied)
  end.

Definition transitionDigest (previousDigest : string) (alreadyApplied : gset string)
  (txs : list Transaction) : result (string * list Transaction) :=
  if String.eqb previousDigest "" then fail "previous state digest is required"
  else
    applied ← newly_applied alreadyApplied ∅ txs;
    match applied with
    | [] => Ok (previousDigest, [])
    | _ =>
        match HashCanonical (transitionRecord_json (mkRecord previousDigest applied)) with
        | Err e => Err (prefix_err "hash state transition" e)
        | Ok digest => Ok (digest, applied)
        end
    end.

Definition Preview (m : Machine) (txs : list Transaction) : result (string * Z) :=
  '(digest, applied) ← transitionDigest (m_digest m) (m_applied m) txs;
  Ok (digest, Z.of_nat (length applied)).

(** The machine is a pointer in the code: [Apply] returns the machine after the
    call along with its result. *)
Definition Apply (m : Machine) (txs : list Transaction) : Machine * result (string * Z) :=
  match transitionDigest (m_digest m) (m_applied m) txs with
  | Err e => (m, Err e)
  | Ok (digest, newlyApplied) =>
      let m' := mkMachine digest
                  (foldl (fun s tx => {[tx_ID tx]} ∪ s) (m_applied m) newlyApplied) in
      (m', Ok (digest, Z.of_nat (length newlyApplied)))
  end.

(** [Clone] copies the set, so that the copy and the original do not share. *)
Definition Clone (m : Machine) : Machine := mkMachine (m_digest m) (m_applied m).

Definition SortedAppliedIDs (txs : list Transaction) : list string :=
  sort_strings (List.filter (fun id => negb (String.eqb id "")) (map tx_ID txs)).

(** ** The collected transactions *)

(** The ids of a block after normalisation. *)
Definition block_ids (txs : list Transaction) : gset string :=
  list_to_set (map (fun tx => tx_ID (fill_id tx)) txs).

(** Whether a transaction is accepted: it has an id or a payload. *)
Definition has_id (tx : Transaction) : Prop := TrimSpace (tx_ID (fill_id tx)) <> "".

Lemma block_ids_cons tx txs : block_ids (tx :: txs) = {[tx_ID (fill_id tx)]} ∪ block_ids txs.
Proof. reflexivity. Qed.

Lemma newly_applied_spec A seen txs l :
  newly_applied A seen txs = Ok l ->
  Forall has_id txs /\ NoDup (map tx_ID l) /\
  (forall id, id ∈ map tx_ID l <-> (id ∈ block_ids txs /\ id ∉ A /\ id ∉ seen)).
Proof.
  revert seen l. induction txs as [|raw rest IH]; intros seen l Hl.
  - injection Hl as <-. split_and!; [done|constructor|].
    intros id. cbn. split; [by intros ?%elem_of_nil|intros [H%elem_of_empty _]; done].
  - cbn in Hl. destruct (String.eqb_spec (TrimSpace (tx_ID (fill_id raw))) ""); [done|].
    setoid_rewrite block_ids_cons. setoid_rewrite elem_of_union.
    setoid_rewrite elem_of_singleton.
    case_bool_decide as HA; [|case_bool_decide as Hs].
    + destruct (IH _ _ Hl) as (? & ? & Hi). split_and!; [by constructor|done|].
      intros id. rewrite Hi. split; [tauto|]. intros ([->|] & ? & ?); tauto.
    + destruct (IH _ _ Hl) as (? & ? & Hi). split_and!; [by constructor|done|].
      intros id. rewrite Hi. split; [tauto|]. intros ([->|] & ? & ?); tauto.
    + apply bind_ok in Hl as (l' & Hl' & [= <-]).
      destruct (IH _ _ Hl') as (? & Hnd & Hi). setoid_rewrite elem_of_union in Hi.
      setoid_rewrite elem_of_singleton in Hi.
      split_and!; [by constructor| |]; cbn.
      * constructor; [|done]. rewrite Hi. tauto.
      * intros id. rewrite elem_of_cons, Hi.
        destruct (decide (id = tx_ID (fill_id raw))) as [->|]; tauto.
Qed.

Lemma newly_applied_total A seen txs :
  Forall has_id txs -> exists l, newly_applied A seen txs = Ok l.
Proof.
  intros Htxs. revert seen. induction Htxs as [|raw rest Hid _ IH]; cbn; intros seen; [eauto|].
  destruct (String.eqb_spec (TrimSpace (tx_ID (fill_id raw))) ""); [done|].
  repeat case_bool_decide; try apply IH.
  destruct (IH ({[tx_ID (fill_id raw)]} ∪ seen)) as [l ->]. cbn. eauto.
Qed.

Lemma foldl_union_ids (l : list Transaction) (s : gset string) :
  foldl (fun s tx => {[tx_ID tx]} ∪ s) s l = list_to_set (map tx_ID l) ∪ s.
Proof.
  revert s. induction l as [|tx l IH]; cbn; intros s; [set_solver|]. rewrite IH. set_solver.
Qed.

Lemma HashBytes_nonempty s : HashBytes s <> "".
Proof.
  intros H. pose proof (length_HashBytes s) as Hl. by rewrite H in Hl.
Qed.

(** The outcome of [transitionDigest] in terms of the collected list. *)
Lemma transitionDigest_ok d A txs d' l :
  transitionDigest d A txs = Ok (d', l) <->
  d <> "" /\ newly_applied A ∅ txs = Ok l /\
  d' = match l with [] => d
       | _ => HashBytes (Marshal (transitionRecord_json (mkRecord d l))) end.
Proof.
  unfold transitionDigest. destruct (String.eqb_spec d ""); [naive_solver|].
  rewrite bind_ok. split.
  - intros (l' & Hl & H). destruct l'; [naive_solver|]. rewrite HashCanonical_ok in H.
    naive_solver.
  - intros (_ & Hl & ->). exists l. split; [done|]. by destruct l.
Qed.

(** ** Properties *)

(** The machine a successful [Apply] leaves. *)
Lemma Apply_state m txs m' d n :
  Apply m txs = (m', Ok (d, n)) ->
  exists l, transitionDigest (m_digest m) (m_applied m) txs = Ok (d, l) /\
    n = Z.of_nat (length l) /\ m' = mkMachine d (block_ids txs ∪ m_applied m).
Proof.
  unfold Apply. destruct (transitionDigest _ _ _) as [[d' l]|] eqn:E; [|done].
  intros [= <- <- <-]. exists l. split_and!; [done..|].
  rewrite foldl_union_ids. f_equal.
  apply transitionDigest_ok in E as (_ & E & _). apply newly_applied_spec in E as (_ & _ & Hi).
  apply set_eq. intros id. specialize (Hi id).
  rewrite !elem_of_union, elem_of_list_to_set, Hi.
  destruct (decide (id ∈ m_applied m)); set_solver.
Qed.

(** Applying the same transactions a second time changes nothing and applies none of them:
    a retry after reconnect or a replayed block cannot apply an operation
    twice. *)
Theorem Apply_idempotent m txs m' d n :
  Apply m txs = (m', Ok (d, n)) -> Apply m' txs = (m', Ok (d, 0)).
Proof.
  intros H. destruct (Apply_state _ _ _ _ _ H) as (l & E & -> & ->).
  apply transitionDigest_ok in E as (Hd & Hl & ->).
  pose proof (newly_applied_spec _ _ _ _ Hl) as (Hids & _ & _).
  set (d' := match l with [] => _ | _ => _ end).
  assert (d' <> "") as Hd' by (subst d'; destruct l; [done|apply HashBytes_nonempty]).
  destruct (newly_applied_total (block_ids txs ∪ m_applied m) ∅ txs Hids) as [l2 Hl2].
  pose proof (newly_applied_spec _ _ _ _ Hl2) as (_ & _ & Hi).
  assert (l2 = []) as ->.
  { destruct l2 as [|tx l2]; [done|]. specialize (Hi (tx_ID tx)). cbn in Hi. set_solver. }
  unfold Apply. cbn. unfold transitionDigest.
  destruct (String.eqb_spec d' ""); [done|]. by rewrite Hl2.
Qed.

(** what [Apply] does on every branch. It succeeds exactly when every
    transaction has an id or a payload (and the machine has a digest), and then
    the applied set grows by exactly the block's ids, the count is the number
    of ids that were new, and the digest moves exactly when there is a new one;
    on an error the machine is unchanged.  [Preview] returns the same result. *)
Theorem Apply_effect m txs :
  m_digest m <> "" ->
  let '(m', r) := Apply m txs in
  (is_ok r = true <-> Forall has_id txs) /\
  Preview m txs = r /\
  match r with
  | Err _ => m' = m
  | Ok (d, n) =>
      d = m_digest m' /\ m_applied m' = block_ids txs ∪ m_applied m /\
      n = Z.of_nat (size (block_ids txs ∖ m_applied m)) /\
      (n = 0 -> d = m_digest m) /\
      (n <> 0 -> exists applied, NoDup (map tx_ID applied) /\
         d = HashBytes (Marshal (transitionRecord_json (mkRecord (m_digest m) applied))))
  end.
Proof.
  intros Hm. destruct (Apply m txs) as [m' r] eqn:E.
  assert (Hprev : Preview m txs = r).
  { revert E. unfold Apply, Preview. destruct (transitionDigest _ _ _) as [[d l]|]; naive_solver. }
  split_and!; [|done|].
  - revert E. unfold Apply, transitionDigest. destruct (String.eqb_spec (m_digest m) ""); [done|].
    destruct (newly_applied (m_applied m) ∅ txs) as [l|e] eqn:El; cbn.
    + apply newly_applied_spec in El as (? & _). destruct l;
        rewrite ?HashCanonical_ok; intros [= <- <-]; done.
    + intros [= <- <-]. split; [done|]. intros Hids.
      destruct (newly_applied_total (m_applied m) ∅ txs Hids). congruence.
  - destruct r as [[d n]|e]; [|unfold Apply in E; destruct (transitionDigest _ _ _) as [[]|]; by simplify_eq].
    destruct (Apply_state _ _ _ _ _ E) as (l & Et & -> & ->).
    apply transitionDigest_ok in Et as (_ & El & ->).
    pose proof (newly_applied_spec _ _ _ _ El) as (_ & Hnd & Hi).
    assert (Hsz : length l = size (block_ids txs ∖ m_applied m)).
    { rewrite <-(length_map tx_ID l), <-(size_list_to_set (C := gset string)) by done.
      f_equal. apply set_eq. intros id. rewrite elem_of_list_to_set, Hi. set_solver. }
    split_and!; [done|done|by rewrite Hsz|by destruct l|].
    intros Hn. exists l. split; [done|]. by destruct l.
Qed.


(** *** Witnesses *)

Lemma Apply_idempotent_witness :
  let txs := [mkTx "" "pay 10"; mkTx "t-2" "x"; mkTx "t-2" "x"] in
  let '(m, r) := Apply NewMachine txs in
  snd <$> (match r with Ok p => Some p | Err _ => None end) = Some 2 /\
  exists d, Apply m txs = (m, Ok (d, 0)).
Proof.
  intros txs. destruct (Apply NewMachine txs) as [m r] eqn:E.
  assert (Hr : r = snd (Apply NewMachine txs)) by by rewrite E.
  vm_compute in Hr. rewrite Hr in E |- *. split; [reflexivity|].
  eexists. eapply Apply_idempotent. exact E.
Defined.

Lemma Apply_effect_witness :
  is_ok (snd (Apply NewMachine [mkTx "" "  "])) = true <-> Forall has_id [mkTx "" "  "].
Proof.
  assert (Hd : m_digest NewMachine <> "") by apply HashBytes_nonempty.
  pose proof (Apply_effect NewMachine [mkTx "" "  "] Hd) as H.
  destruct (Apply NewMachine [mkTx "" "  "]) as [m r]. apply H.
Defined.
