(* ===== verification/Protocol.v ===== *)
(** * Consensus messages and quorum certificates: consensus/protocol/protocol.go

    Blocks, proposals, votes and certificates, the proposer schedule, signing
    and verification, and the formation of quorum certificates. *)

From S2P Require Import Prelude Sha256 Json Identity State.
Local Open Scope Z_scope.

Definition DecisionCommit : string := "commit".
Definition GenesisHash : string := "GENESIS".
Definition StageProposal : string := "proposal".
Definition StagePrevote : string := "prevote".
Definition StagePrecommit : string := "precommit".
Definition StageCommit : string := "commit".

(** ** Messages *)

Record Block := mkBlock {
  b_Height : Z;
  b_Round : Z;
  b_PreviousHash : string;
  b_Payload : string;
  b_Transactions : list Transaction;
  b_StateDigest : string;
  b_ProposerID : string;
  b_MembershipVersion : Z;
  b_ValidatorSetHash : string;
  b_CreatedAtUnixMilli : Z
}.

Definition Block_json (b : Block) : json :=
  JObj ([("height", JInt (b_Height b)); ("round", JInt (b_Round b));
         ("previous_hash", JStr (b_PreviousHash b)); ("payload", JStr (b_Payload b))] ++
        match b_Transactions b with
        | [] => []
        | txs => [("transactions", JArr (map tx_json txs))]
        end ++
        omit_str "state_digest" (b_StateDigest b) ++
        [("proposer_id", JStr (b_ProposerID b))] ++
        omit_int "membership_version" (b_MembershipVersion b) ++
        omit_str "validator_set_hash" (b_ValidatorSetHash b) ++
        [("created_at_unix_milli", JInt (b_CreatedAtUnixMilli b))])%list.

Definition NewRoundBlock (now : Time) (height round : Z)
  (previousHash payload proposerID stateDigest : string) : Block :=
  mkBlock height round previousHash payload (NormalizeTransactions payload []) stateDigest
    proposerID 0 "" (UnixMilli now).

Definition NewBlock (now : Time) (height : Z) (previousHash payload proposerID : string) : Block :=
  NewRoundBlock now height 0 previousHash payload proposerID "".

(** [Block.Hash]. *)
Definition Block_Hash (b : Block) : result string := HashCanonical (Block_json b).

(** The value [Block_Hash] returns, which is never an error. *)
Definition hash_of (b : Block) : string := HashBytes (Marshal (Block_json b)).

Record Proposal := mkProposal {
  p_Block : Block;
  p_Round : Z;
  p_Algorithm : string;
  p_Signature : string
}.

Record Vote := mkVote {
  v_Height : Z;
  v_Round : Z;
  v_Stage : string;
  v_BlockHash : string;
  v_VoterID : string;
  v_Decision : string;
  v_Algorithm : string;
  v_Signature : string
}.

Definition set_v_Stage (stage : string) (v : Vote) : Vote :=
  mkVote (v_Height v) (v_Round v) stage (v_BlockHash v) (v_VoterID v) (v_Decision v)
    (v_Algorithm v) (v_Signature v).

Record VoteToSign := mkVoteToSign {
  vs_Height : Z;
  vs_Round : Z;
  vs_Stage : string;
  vs_BlockHash : string;
  vs_VoterID : string;
  vs_Decision : string
}.

Definition VoteToSign_json (v : VoteToSign) : json :=
  JObj [("height", JInt (vs_Height v)); ("round", JInt (vs_Round v));
        ("stage", JStr (vs_Stage v)); ("block_hash", JStr (vs_BlockHash v));
        ("voter_id", JStr (vs_VoterID v)); ("decision", JStr (vs_Decision v))].

Record QuorumCertificate := mkQC {
  qc_Height : Z;
  qc_Round : Z;
  qc_Stage : string;
  qc_BlockHash : string;
  qc_Decision : string;
  qc_Threshold : Z;
  qc_MembershipVersion : Z;
  qc_ValidatorSetHash : string;
  qc_FormedAtUnixMilli : Z;
  qc_ValidatorVoteCount : Z;
  qc_Votes : list Vote
}.

Definition set_qc_Stage (stage : string) (c : QuorumCertificate) : QuorumCertificate :=
  mkQC (qc_Height c) (qc_Round c) stage (qc_BlockHash c) (qc_Decision c) (qc_Threshold c)
    (qc_MembershipVersion c) (qc_ValidatorSetHash c) (qc_FormedAtUnixMilli c)
    (qc_ValidatorVoteCount c) (qc_Votes c).

Record PrecommitRequest := mkPrecommitRequest {
  pr_Proposal : Proposal;
  pr_PrevoteQC : QuorumCertificate
}.

Record LockState := mkLock {
  l_Height : Z;
  l_Round : Z;
  l_BlockHash : string;
  l_SourceQCBlockHash : string;
  l_SourceQCRound : Z;
  l_SourceQCStage : string;
  l_SourceVoteCount : Z;
  l_UpdatedAtUnixMilli : Z
}.

Definition no_lock : LockState := mkLock 0 0 "" "" 0 "" 0 0.

Record CommitRequest := mkCommit {
  c_Block : Block;
  c_Certificate : QuorumCertificate
}.

Record StateSnapshot := mkSnapshot {
  ss_NodeID : string;
  ss_Region : string;
  ss_Height : Z;
  ss_Round : Z;
  ss_LastHash : string;
  ss_StateDigest : string;
  ss_Lock : LockState;
  ss_CommitCount : Z;
  ss_Running : bool;
  ss_LastEvent : string;
  ss_CryptoSigner : string;
  ss_SignerProvider : string;
  ss_MembershipVersion : Z;
  ss_ValidatorSetHash : string
}.

(** ** The proposer schedule *)

(** [height], [round] and the offset are [uint64]s: the arithmetic wraps. *)
Definition ProposerFor (height round : Z) (validatorIDs : list string) : result string :=
  if bool_decide (validatorIDs = []) then fail "validator set is empty"
  else if height =? 0 then fail "height must be positive"
  else
    let offset := u64 (u64 (height - 1) + round) mod Z.of_nat (length validatorIDs) in
    match nth_error validatorIDs (Z.to_nat offset) with
    | Some id => Ok id
    | None => fail "index out of range"   (* a panic, never reached *)
    end.

Definition ProposerForRound (validatorIDs : list string) (height round : Z) : result string :=
  ProposerFor height round validatorIDs.

(** ** Stages *)

Definition NormalizeStage (stage : string) : string :=
  if String.eqb stage "" then StagePrecommit else stage.

Definition IsVoteStage (stage : string) : bool :=
  String.eqb stage StagePrevote || String.eqb stage StagePrecommit.

(** ** Proposals *)

Definition SignProposal (block : Block) (signer : Signer) : result Proposal :=
  blockHash ← Block_Hash block;
  sig ← sg_Sign signer blockHash;
  Ok (mkProposal block (b_Round block) (sg_Algorithm signer) (Base64.EncodeToString sig)).

Definition VerifyProposal (proposal : Proposal) (identities : gmap string ValidatorIdentity)
  (verifier : SignatureVerifier) : result unit :=
  let block := p_Block proposal in
  if b_Height block =? 0 then fail "proposal height must be positive"
  else if String.eqb (b_PreviousHash block) "" then fail "proposal previous hash is required"
  else if String.eqb (b_ProposerID block) "" then fail "proposal proposer id is required"
  else if negb (p_Round proposal =? b_Round block) then
    fail ("proposal round " ++ itoa (p_Round proposal) ++ " does not match block round " ++
          itoa (b_Round block))%string
  else
    proposer ← RequireIdentity identities (b_ProposerID block);
    if negb (String.eqb (SignatureAlgorithmName proposer) (p_Algorithm proposal)) then
      fail ("proposal algorithm mismatch: identity=" ++ SignatureAlgorithmName proposer ++
            " proposal=" ++ p_Algorithm proposal)%string
    else if negb (String.eqb (ver_Algorithm verifier) (p_Algorithm proposal)) then
      fail ("proposal verifier algorithm mismatch: verifier=" ++ ver_Algorithm verifier ++
            " proposal=" ++ p_Algorithm proposal)%string
    else
      blockHash ← Block_Hash block;
      match Base64.DecodeString (p_Signature proposal) with
      | Err e => Err (prefix_err "invalid proposal signature encoding" e)
      | Ok signature =>
          if negb (ver_Verify verifier (SignaturePublicKeyBytes proposer) blockHash signature)
          then fail "invalid proposal signature"
          else Ok tt
      end.

(** ** Votes *)

Definition SignStageVote (height round : Z) (stage blockHash voterID : string) (signer : Signer)
  : result Vote :=
  let stage := NormalizeStage stage in
  let payload := mkVoteToSign height round stage blockHash voterID DecisionCommit in
  canonical ← CanonicalJSON (VoteToSign_json payload);
  sig ← sg_Sign signer canonical;
  Ok (mkVote height round stage blockHash voterID DecisionCommit (sg_Algorithm signer)
        (Base64.EncodeToString sig)).

Definition SignVote (height : Z) (blockHash voterID : string) (signer : Signer) : result Vote :=
  SignStageVote height 0 StagePrecommit blockHash voterID signer.

(** The bytes a vote's signature is over. *)
Definition vote_payload (vote : Vote) : VoteToSign :=
  mkVoteToSign (v_Height vote) (v_Round vote) (v_Stage vote) (v_BlockHash vote) (v_VoterID vote)
    (v_Decision vote).

Definition VerifyVote (vote : Vote) (identities : gmap string ValidatorIdentity)
  (verifier : SignatureVerifier) : result unit :=
  let vote := set_v_Stage (NormalizeStage (v_Stage vote)) vote in
  if negb (String.eqb (v_Decision vote) DecisionCommit) then
    fail ("unsupported vote decision: " ++ v_Decision vote)%string
  else if negb (IsVoteStage (v_Stage vote)) then
    fail ("unsupported vote stage: " ++ v_Stage vote)%string
  else if v_Height vote =? 0 then fail "vote height must be positive"
  else if String.eqb (v_BlockHash vote) "" then fail "vote block hash is required"
  else
    voter ← RequireIdentity identities (v_VoterID vote);
    if negb (String.eqb (SignatureAlgorithmName voter) (v_Algorithm vote)) then
      fail ("vote algorithm mismatch for " ++ v_VoterID vote ++ ": identity=" ++
            SignatureAlgorithmName voter ++ " vote=" ++ v_Algorithm vote)%string
    else if negb (String.eqb (ver_Algorithm verifier) (v_Algorithm vote)) then
      fail ("vote verifier algorithm mismatch: verifier=" ++ ver_Algorithm verifier ++
            " vote=" ++ v_Algorithm vote)%string
    else
      canonical ← CanonicalJSON (VoteToSign_json (vote_payload vote));
      match Base64.DecodeString (v_Signature vote) with
      | Err e => Err (prefix_err ("invalid vote signature encoding for " ++ v_VoterID vote)%string e)
      | Ok signature =>
          if negb (ver_Verify verifier (SignaturePublicKeyBytes voter) canonical signature)
          then fail ("invalid vote signature from " ++ v_VoterID vote)%string
          else Ok tt
      end.

(** ** Quorum certificates *)

Definition normalize_vote (vote : Vote) : Vote := set_v_Stage (NormalizeStage (v_Stage vote)) vote.

(** The votes a certificate for this height, round, stage and block counts. *)
Definition vote_matches (height round : Z) (stage blockHash : string) (vote : Vote) : bool :=
  (v_Height vote =? height) && (v_Round vote =? round) && String.eqb (v_Stage vote) stage &&
  String.eqb (v_BlockHash vote) blockHash && String.eqb (v_Decision vote) DecisionCommit.

(** One iteration of the loop that keeps the first matching vote of each voter. *)
Definition collect_vote (height round : Z) (stage blockHash : string)
  (unique : gmap string Vote) (vote : Vote) : gmap string Vote :=
  let vote := normalize_vote vote in
  if vote_matches height round stage blockHash vote then
    match unique !! v_VoterID vote with
    | Some _ => unique
    | None => <[v_VoterID vote := vote]> unique
    end
  else unique.

Definition unique_votes (height round : Z) (stage blockHash : string) (votes : list Vote)
  : gmap string Vote := foldl (collect_vote height round stage blockHash) ∅ votes.

Definition FormStageQuorumCertificate (now : Time) (height round : Z) (stage blockHash : string)
  (votes : list Vote) (threshold : Z) : result QuorumCertificate :=
  let stage := NormalizeStage stage in
  if threshold <=? 0 then fail "quorum threshold must be positive"
  else if negb (IsVoteStage stage) then fail ("unsupported quorum vote stage: " ++ stage)%string
  else
    let unique := unique_votes height round stage blockHash votes in
    if Z.of_nat (size unique) <? threshold then
      fail ("insufficient votes for quorum: got " ++ itoa (Z.of_nat (size unique)) ++ " need " ++
            itoa threshold)%string
    else
      Ok (mkQC height round stage blockHash DecisionCommit threshold 0 "" (UnixMilli now)
            (Z.of_nat (size unique)) (sorted_values unique)).

Definition FormQuorumCertificate (now : Time) (height : Z) (blockHash : string)
  (votes : list Vote) (threshold : Z) : result QuorumCertificate :=
  FormStageQuorumCertificate now height 0 StagePrecommit blockHash votes threshold.

(** The loop of [VerifyQuorumCertificate]; [unique] is the set of voters seen. *)
Fixpoint verify_votes (cert : QuorumCertificate) (identities : gmap string ValidatorIdentity)
  (verifier : SignatureVerifier) (unique : gset string) (votes : list Vote)
  : result (gset string) :=
  match votes with
  | [] => Ok unique
  | vote :: rest =>
      let vote := normalize_vote vote in
      if negb (v_Height vote =? qc_Height cert) || negb (v_Round vote =? qc_Round cert) ||
         negb (String.eqb (v_Stage vote) (qc_Stage cert)) ||
         negb (String.eqb (v_BlockHash vote) (qc_BlockHash cert)) ||
         negb (String.eqb (v_Decision vote) (qc_Decision cert))
      then fail ("vote from " ++ v_VoterID vote ++ " does not match certificate")%string
      else if bool_decide (v_VoterID vote ∈ unique)
      then fail ("duplicate vote from " ++ v_VoterID vote)%string
      else
        _ ← VerifyVote vote identities verifier;
        verify_votes cert identities verifier ({[v_VoterID vote]} ∪ unique) rest
  end.

Definition VerifyQuorumCertificate (cert : QuorumCertificate)
  (identities : gmap string ValidatorIdentity) (verifier : SignatureVerifier) : result unit :=
  let cert := set_qc_Stage (NormalizeStage (qc_Stage cert)) cert in
  if negb (String.eqb (qc_Decision cert) DecisionCommit) then
    fail ("unsupported certificate decision: " ++ qc_Decision cert)%string
  else if negb (IsVoteStage (qc_Stage cert)) then
    fail ("unsupported certificate vote stage: " ++ qc_Stage cert)%string
  else if qc_Height cert =? 0 then fail "certificate height must be positive"
  else if String.eqb (qc_BlockHash cert) "" then fail "certificate block hash is required"
  else if qc_Threshold cert <=? 0 then fail "certificate threshold must be positive"
  else if Z.of_nat (size identities) <? qc_Threshold cert then
    fail ("certificate threshold " ++ itoa (qc_Threshold cert) ++ " exceeds validator set size " ++
          itoa (Z.of_nat (size identities)))%string
  else
    unique ← verify_votes cert identities verifier ∅ (qc_Votes cert);
    if negb (qc_ValidatorVoteCount cert =? Z.of_nat (length (qc_Votes cert))) then
      fail ("certificate validator vote count " ++ itoa (qc_ValidatorVoteCount cert) ++
            " does not match vote list length " ++ itoa (Z.of_nat (length (qc_Votes cert))))%string
    else if Z.of_nat (size unique) <? qc_Threshold cert then
      fail ("certificate has insufficient unique votes: got " ++ itoa (Z.of_nat (size unique)) ++
            " need " ++ itoa (qc_Threshold cert))%string
    else Ok tt.

(** ** Lemmas *)

Lemma Block_Hash_ok b : Block_Hash b = Ok (hash_of b).
Proof. reflexivity. Qed.

Lemma hash_of_nonempty b : hash_of b <> "".
Proof. apply HashBytes_nonempty. Qed.

Lemma hash_of_eq b : hash_of b = HashBytes (Marshal (Block_json b)).
Proof. reflexivity. Qed.

#[global] Opaque hash_of.
#[global] Arguments Block_Hash : simpl never.
#[export] Hint Resolve hash_of_nonempty : go.

Lemma NormalizeStage_idemp s : NormalizeStage (NormalizeStage s) = NormalizeStage s.
Proof. unfold NormalizeStage. destruct (String.eqb_spec s ""); [done|]. by destruct (String.eqb_spec s ""). Qed.

Lemma NormalizeStage_vote s : IsVoteStage s = true -> NormalizeStage s = s.
Proof. unfold NormalizeStage. destruct (String.eqb_spec s "") as [->|]; done. Qed.

Lemma normalize_vote_idemp v : normalize_vote (normalize_vote v) = normalize_vote v.
Proof. unfold normalize_vote, set_v_Stage. cbn. by rewrite NormalizeStage_idemp. Qed.

Lemma vote_matches_spec h r s bh v :
  vote_matches h r s bh v = true <->
  v_Height v = h /\ v_Round v = r /\ v_Stage v = s /\ v_BlockHash v = bh /\
  v_Decision v = DecisionCommit.
Proof. unfold vote_matches. autorewrite with go_bool. tauto. Qed.

(** A vote whose signature the verifier accepts for a known voter: what
    [VerifyVote] establishes. *)
Definition valid_vote (identities : gmap string ValidatorIdentity) (verifier : SignatureVerifier)
  (vote : Vote) : Prop :=
  exists voter signature,
    identities !! v_VoterID vote = Some voter /\
    Base64.DecodeString (v_Signature vote) = Ok signature /\
    ver_Verify verifier (SignaturePublicKeyBytes voter)
      (Marshal (VoteToSign_json (vote_payload vote))) signature = true /\
    v_Decision vote = DecisionCommit /\ IsVoteStage (v_Stage vote) = true /\
    v_Height vote <> 0 /\ v_BlockHash vote <> "" /\
    v_Algorithm vote = SignatureAlgorithmName voter /\ v_Algorithm vote = ver_Algorithm verifier.

Lemma VerifyVote_ok vote ids ver :
  VerifyVote vote ids ver = Ok tt <-> valid_vote ids ver (normalize_vote vote).
Proof.
  unfold VerifyVote, valid_vote. fold (normalize_vote vote).
  generalize (normalize_vote vote). clear vote. intros v. cbv zeta. split.
  - intros H. run_ok H. reflect_bools.
    apply bind_ok in H as (voter & Hv%RequireIdentity_ok & H).
    run_ok H.
    unfold CanonicalJSON in H. cbn [mbind result_bind] in H.
    run_ok H. reflect_bools.
    exists voter, a. split_and!; congruence.
  - intros (voter & sig & Hv & Hb & Hver & -> & Hs & Hh & Hbh & Ha1 & Ha2).
    rewrite Hs. cbn [negb String.eqb]. rewrite (proj2 (Z.eqb_neq _ _) Hh).
    rewrite (proj2 (String.eqb_neq _ _) Hbh).
    rewrite (proj2 (RequireIdentity_ok _ _ _) Hv). cbn [mbind result_bind].
    rewrite <-Ha1, <-Ha2, !String.eqb_refl. cbn [negb].
    unfold CanonicalJSON. cbn [mbind result_bind]. by rewrite Hb, Hver.
Qed.

(** *** Collecting votes *)

(** The votes of a list that a certificate counts, normalised. *)
Definition matching_votes (h r : Z) (s bh : string) (votes : list Vote) : list Vote :=
  List.filter (vote_matches h r s bh) (map normalize_vote votes).

Lemma elem_of_matching_votes h r s bh votes v :
  v ∈ matching_votes h r s bh votes <->
  vote_matches h r s bh v = true /\ exists vote, vote ∈ votes /\ v = normalize_vote vote.
Proof.
  unfold matching_votes. rewrite list_elem_of_In, filter_In, <-list_elem_of_In.
  rewrite list_elem_of_fmap. naive_solver.
Qed.

Section collect.
Context (h r : Z) (s bh : string).

Lemma collect_vote_spec unique vote id v :
  collect_vote h r s bh unique vote !! id = Some v <->
  unique !! id = Some v \/
  (unique !! id = None /\ v = normalize_vote vote /\ v_VoterID v = id /\
   vote_matches h r s bh v = true).
Proof.
  unfold collect_vote. cbv zeta.
  destruct (vote_matches h r s bh (normalize_vote vote)) eqn:Hm;
    [|naive_solver congruence].
  destruct (unique !! v_VoterID (normalize_vote vote)) as [w|] eqn:Hu.
  - split; [auto|]. intros [?|(Hn & -> & <- & _)]; [done|congruence].
  - destruct (decide (v_VoterID (normalize_vote vote) = id)) as [<-|Hne].
    + rewrite lookup_insert_eq, Hu. naive_solver.
    + rewrite lookup_insert_ne by done. naive_solver.
Qed.

(** The kept vote of a voter is one of the matching votes, and every voter of
    a matching vote has one. *)
Lemma unique_votes_spec votes :
  (forall id v, unique_votes h r s bh votes !! id = Some v ->
     v ∈ matching_votes h r s bh votes /\ v_VoterID v = id) /\
  (forall v, v ∈ matching_votes h r s bh votes ->
     is_Some (unique_votes h r s bh votes !! v_VoterID v)).
Proof.
  setoid_rewrite elem_of_matching_votes. unfold unique_votes.
  induction votes as [|vote votes [IH1 IH2]] using rev_ind.
  { split; cbn; [intros id v; by rewrite lookup_empty|].
    intros v (_ & ? & H & _). by apply elem_of_nil in H. }
  rewrite foldl_app. cbn [foldl]. set (u := foldl _ _ _) in *. split.
  - intros id v [Hu|(Hn & -> & <- & Hm)]%collect_vote_spec.
    + apply IH1 in Hu as [(? & w & ? & ?) ?]. split_and!; [done| |done].
      exists w. rewrite elem_of_app. auto.
    + split_and!; [done| |done]. exists vote. rewrite elem_of_app.
      split; [right; left|done].
  - intros v (Hm & w & [Hw|Hw%list_elem_of_singleton]%elem_of_app & ->).
    + destruct (IH2 (normalize_vote w)) as [w' Hw']; [eauto|].
      exists w'. apply collect_vote_spec. by left.
    + subst w. destruct (u !! v_VoterID (normalize_vote vote)) as [w'|] eqn:Hu.
      * exists w'. apply collect_vote_spec. by left.
      * exists (normalize_vote vote). apply collect_vote_spec. naive_solver.
Qed.
End collect.

(** The voters of the votes a certificate counts. *)
Definition matching_voters (h r : Z) (s bh : string) (votes : list Vote) : gset string :=
  list_to_set (map v_VoterID (matching_votes h r s bh votes)).

Lemma dom_unique_votes h r s bh votes :
  dom (unique_votes h r s bh votes) = matching_voters h r s bh votes.
Proof.
  destruct (unique_votes_spec h r s bh votes) as [H1 H2].
  apply set_eq. intros id. unfold matching_voters.
  rewrite elem_of_dom, elem_of_list_to_set, list_elem_of_fmap. split.
  - intros [v Hv]. apply H1 in Hv as [? <-]. eauto.
  - intros (v & -> & Hv). by apply H2.
Qed.

Lemma size_unique_votes h r s bh votes :
  size (unique_votes h r s bh votes) = size (matching_voters h r s bh votes).
Proof. by rewrite <-dom_unique_votes, size_dom. Qed.

Lemma unique_votes_ids h r s bh votes :
  map v_VoterID (sorted_values (unique_votes h r s bh votes))
  = sorted_keys (unique_votes h r s bh votes).
Proof. apply sorted_values_keys. intros k v. apply unique_votes_spec. Qed.

(** What [VerifyQuorumCertificate] requires of one vote of a certificate. *)
Definition good_vote (cert : QuorumCertificate) (ids : gmap string ValidatorIdentity)
  (ver : SignatureVerifier) (vote : Vote) : Prop :=
  v_Height vote = qc_Height cert /\ v_Round vote = qc_Round cert /\
  NormalizeStage (v_Stage vote) = NormalizeStage (qc_Stage cert) /\
  v_BlockHash vote = qc_BlockHash cert /\ v_Decision vote = qc_Decision cert /\
  valid_vote ids ver (normalize_vote vote).

Lemma verify_votes_ok cert ids ver seen votes u :
  NormalizeStage (qc_Stage cert) = qc_Stage cert ->
  verify_votes cert ids ver seen votes = Ok u <->
  Forall (good_vote cert ids ver) votes /\ NoDup (map v_VoterID votes) /\
  (forall id, id ∈ map v_VoterID votes -> id ∉ seen) /\
  u = list_to_set (map v_VoterID votes) ∪ seen.
Proof.
  intros Hst. revert seen. induction votes as [|v votes IH]; intros seen.
  - cbn. split; [intros [= <-]|intros (_ & _ & _ & ->)]; [|f_equal; set_solver].
    split_and!; [done|constructor|by intros id ?%elem_of_nil|set_solver].
  - cbn [verify_votes map list_to_set]. cbv zeta. rewrite Forall_cons, NoDup_cons.
    unfold good_vote at 1. rewrite Hst. cbn [normalize_vote set_v_Stage v_Height v_Round v_Stage
      v_BlockHash v_Decision v_VoterID].
    destruct (_ || _) eqn:Hne.
    { split; [done|]. intros [[(?&?&?&?&?&?) _] _]. reflect_bools. naive_solver. }
    reflect_bools. destruct Hne as ((((? & ?) & ?) & ?) & ?).
    case_bool_decide as Hseen.
    { split; [done|]. intros (_ & _ & Hs & _). exfalso. apply (Hs (v_VoterID v)); [left|done]. }
    destruct (VerifyVote (normalize_vote v) ids ver) as [[]|e] eqn:Hv.
    + apply VerifyVote_ok in Hv. rewrite normalize_vote_idemp in Hv. cbn [mbind result_bind].
      rewrite IH. setoid_rewrite elem_of_cons. split.
      * intros (? & ? & Hs & ->). split_and!; try done.
        -- intros Hin%Hs. apply Hin. apply elem_of_union. left. by apply elem_of_singleton.
        -- intros id [->|Hin%Hs]; [done|]. intros ?. apply Hin, elem_of_union. by right.
        -- set_solver.
      * intros ([(?&?&?&?&?&?) ?] & [??] & Hs & ->). split_and!; try done.
        -- intros id Hin Hu. apply elem_of_union in Hu as [->%elem_of_singleton|Hu]; [done|].
           by apply (Hs id); [right|].
        -- set_solver.
    + cbn. split; [done|]. intros ([(_&_&_&_&_&Hg) _] & _). exfalso.
      rewrite <-normalize_vote_idemp in Hg. apply VerifyVote_ok in Hg. congruence.
Qed.

Lemma good_vote_normal cert ids ver v :
  good_vote (set_qc_Stage (NormalizeStage (qc_Stage cert)) cert) ids ver v <-> good_vote cert ids ver v.
Proof. unfold good_vote. cbn. by rewrite NormalizeStage_idemp. Qed.

Lemma size_voters (votes : list Vote) :
  NoDup (map v_VoterID votes) ->
  size (list_to_set (map v_VoterID votes) ∪ ∅ : gset string) = length votes.
Proof. intros Hnd. rewrite union_empty_r_L, size_list_to_set by done. apply length_map. Qed.

(** What a certificate that verifies holds. *)
Lemma certificate_facts cert ids ver :
  VerifyQuorumCertificate cert ids ver = Ok tt ->
  qc_Decision cert = DecisionCommit /\ IsVoteStage (NormalizeStage (qc_Stage cert)) = true /\
  qc_Height cert <> 0 /\ qc_BlockHash cert <> "" /\
  0 < qc_Threshold cert <= Z.of_nat (size ids) /\
  Forall (good_vote cert ids ver) (qc_Votes cert) /\ NoDup (map v_VoterID (qc_Votes cert)) /\
  qc_ValidatorVoteCount cert = Z.of_nat (length (qc_Votes cert)) /\
  qc_Threshold cert <= Z.of_nat (length (qc_Votes cert)).
Proof.
  unfold VerifyQuorumCertificate. cbv zeta. intros H.
  set (c := set_qc_Stage (NormalizeStage (qc_Stage cert)) cert) in *.
  assert (Hst : NormalizeStage (qc_Stage c) = qc_Stage c) by apply NormalizeStage_idemp.
  run_ok H. apply bind_ok in H as (u & Hu & H).
  apply (verify_votes_ok _ _ _ _ _ _ Hst) in Hu as (Hf & Hnd & _ & ->).
  run_ok H. reflect_bools. rewrite size_voters in * by done.
  assert (Forall (good_vote cert ids ver) (qc_Votes cert)).
  { eapply Forall_impl; [exact Hf|]. intros v. apply good_vote_normal. }
  subst c. cbn in *. split_and!; try done; lia.
Qed.

(** The converse: what is enough for a certificate to verify. *)
Lemma certificate_verifies cert ids ver :
  qc_Decision cert = DecisionCommit -> IsVoteStage (NormalizeStage (qc_Stage cert)) = true ->
  qc_Height cert <> 0 -> qc_BlockHash cert <> "" -> 0 < qc_Threshold cert <= Z.of_nat (size ids) ->
  Forall (good_vote cert ids ver) (qc_Votes cert) -> NoDup (map v_VoterID (qc_Votes cert)) ->
  qc_ValidatorVoteCount cert = Z.of_nat (length (qc_Votes cert)) ->
  qc_Threshold cert <= Z.of_nat (length (qc_Votes cert)) ->
  VerifyQuorumCertificate cert ids ver = Ok tt.
Proof.
  intros Hd Hs Hh Hb Ht Hf Hnd Hc Hl.
  unfold VerifyQuorumCertificate. cbv zeta.
  set (c := set_qc_Stage (NormalizeStage (qc_Stage cert)) cert).
  assert (Hst : NormalizeStage (qc_Stage c) = qc_Stage c) by apply NormalizeStage_idemp.
  assert (Hv : verify_votes c ids ver ∅ (qc_Votes c)
    = Ok (list_to_set (map v_VoterID (qc_Votes c)) ∪ ∅)).
  { apply (verify_votes_ok _ _ _ _ _ _ Hst). split_and!; [|done|set_solver|done].
    eapply Forall_impl; [exact Hf|]. intros v. apply good_vote_normal. }
  rewrite Hv. cbn [mbind result_bind]. rewrite size_voters by done. subst c.
  cbn [set_qc_Stage qc_Height qc_Stage qc_BlockHash qc_Decision qc_Threshold qc_Votes
    qc_ValidatorVoteCount]. rewrite Hd, Hs, Hc, Z.eqb_refl, String.eqb_refl. cbn [negb].
  rewrite (proj2 (Z.eqb_neq _ _) Hh), (proj2 (String.eqb_neq _ _) Hb).
  rewrite !(proj2 (Z.ltb_ge _ _)), (proj2 (Z.leb_gt _ _)) by lia. done.
Qed.

(** ** Properties *)

(** C11: a certificate verifies exactly when it is a decision to commit at a
    height other than zero and a block hash that is not empty, its stage is, once
    normalised, one that is voted on, its threshold is positive and at most the
    number of identities, the count of votes it states is the length of its vote
    list, and the list has at least the threshold's number of votes, no two of one
    voter, each of them a correctly signed vote of a known validator for the
    certificate's own height, round, stage and block. *)
Theorem VerifyQuorumCertificate_ok cert ids ver :
  VerifyQuorumCertificate cert ids ver = Ok tt <->
  qc_Decision cert = DecisionCommit /\ IsVoteStage (NormalizeStage (qc_Stage cert)) = true /\
  qc_Height cert <> 0 /\ qc_BlockHash cert <> "" /\
  0 < qc_Threshold cert <= Z.of_nat (size ids) /\
  Forall (good_vote cert ids ver) (qc_Votes cert) /\ NoDup (map v_VoterID (qc_Votes cert)) /\
  qc_ValidatorVoteCount cert = Z.of_nat (length (qc_Votes cert)) /\
  qc_Threshold cert <= Z.of_nat (length (qc_Votes cert)).
Proof.
  split; [apply certificate_facts|]. intros (? & ? & ? & ? & ? & ? & ? & ? & ?).
  by apply certificate_verifies.
Qed.

(** The certificate [FormStageQuorumCertificate] builds when it succeeds. *)
Lemma FormStage_ok now h r st bh votes t c :
  FormStageQuorumCertificate now h r st bh votes t = Ok c <->
  let s := NormalizeStage st in
  let unique := unique_votes h r s bh votes in
  0 < t /\ IsVoteStage s = true /\ t <= Z.of_nat (size unique) /\
  c = mkQC h r s bh DecisionCommit t 0 "" (UnixMilli now) (Z.of_nat (size unique))
        (sorted_values unique).
Proof.
  unfold FormStageQuorumCertificate. cbv zeta. split.
  - intros H. run_ok H. injection H as <-. reflect_bools.
    split_and!; done || lia.
  - intros (Ht & Hs & Hle & ->). rewrite Hs. cbn [negb].
    by rewrite (proj2 (Z.leb_gt _ _)), (proj2 (Z.ltb_ge _ _)) by lia.
Qed.

Lemma length_sorted_values_unique h r s bh votes :
  length (sorted_values (unique_votes h r s bh votes)) = size (unique_votes h r s bh votes).
Proof. by rewrite <-(length_map v_VoterID), unique_votes_ids, length_sorted_keys. Qed.

(** C12: formation succeeds exactly when the threshold is positive, the stage is
    one that is voted on and the matching votes have at least [threshold]
    distinct voters; the certificate then lists one vote of each of those
    voters, in increasing order of voter id, each a matching vote of the input. *)
Theorem FormStageQuorumCertificate_spec now h r st bh votes t :
  let s := NormalizeStage st in
  let voters := matching_voters h r s bh votes in
  match FormStageQuorumCertificate now h r st bh votes t with
  | Err _ => t <= 0 \/ IsVoteStage s = false \/ Z.of_nat (size voters) < t
  | Ok c =>
      0 < t <= Z.of_nat (size voters) /\ IsVoteStage s = true /\
      qc_Height c = h /\ qc_Round c = r /\ qc_Stage c = s /\ qc_BlockHash c = bh /\
      qc_Decision c = DecisionCommit /\ qc_Threshold c = t /\
      qc_ValidatorVoteCount c = Z.of_nat (size voters) /\
      length (qc_Votes c) = size voters /\
      NoDup (map v_VoterID (qc_Votes c)) /\
      StronglySorted String.le (map v_VoterID (qc_Votes c)) /\
      (forall id, id ∈ map v_VoterID (qc_Votes c) <-> id ∈ voters) /\
      (forall v, v ∈ qc_Votes c -> v ∈ matching_votes h r s bh votes)
  end.
Proof.
  intros s voters. destruct (FormStageQuorumCertificate _ _ _ _ _ _ _) as [c|e] eqn:E.
  - apply FormStage_ok in E as (Ht & Hs & Hle & ->). fold s in Ht, Hs, Hle |- *. subst voters.
    rewrite <-size_unique_votes. cbn.
    rewrite length_sorted_values_unique, unique_votes_ids.
    split_and!; try done; auto with go.
    + intros id. rewrite elem_of_sorted_keys, <-dom_unique_votes. by rewrite elem_of_dom.
    + intros v [k Hk]%elem_of_sorted_values. by apply unique_votes_spec in Hk as [? _].
  - revert E. unfold FormStageQuorumCertificate. cbv zeta. fold s. rewrite size_unique_votes.
    fold voters. intros E. run_ok E; reflect_bools; auto.
Qed.

(** The certificate of a quorum of correctly signed votes verifies: if every
    matching vote is valid, then formation succeeds whenever there are enough
    distinct voters, and what it returns passes [VerifyQuorumCertificate]. *)
Theorem formed_certificate_verifies now h r st bh votes t ids ver :
  let s := NormalizeStage st in
  IsVoteStage s = true -> h <> 0 -> bh <> "" ->
  0 < t <= Z.of_nat (size (matching_voters h r s bh votes)) -> t <= Z.of_nat (size ids) ->
  (forall v, v ∈ matching_votes h r s bh votes -> valid_vote ids ver v) ->
  exists c, FormStageQuorumCertificate now h r st bh votes t = Ok c /\
            VerifyQuorumCertificate c ids ver = Ok tt.
Proof.
  intros s Hs Hh Hbh [Ht Hle] Hids Hvalid.
  eexists. split.
  { apply FormStage_ok. cbv zeta. rewrite size_unique_votes. fold s. by split_and!. }
  pose proof (NormalizeStage_idemp st) as Hss. fold s in Hss.
  apply certificate_verifies; cbn; fold s;
    rewrite ?length_sorted_values_unique, ?unique_votes_ids, ?size_unique_votes, ?Hss; auto with go.
  apply Forall_forall. intros v [k Hk]%elem_of_sorted_values.
  apply unique_votes_spec in Hk as [Hv _]. pose proof (Hvalid v Hv) as Hval.
  apply elem_of_matching_votes in Hv as [(? & ? & Hvs & ? & ?)%vote_matches_spec _].
  unfold good_vote. cbn. rewrite Hvs, Hss. split_and!; try done.
  unfold normalize_vote. rewrite Hvs, Hss, <-Hvs. by destruct v.
Qed.

(** the certificate depends only on which votes were collected: for votes
    among which no voter cast two different matching ones, every order of
    arrival gives the same certificate. *)
Theorem FormStageQuorumCertificate_order now h r st bh votes votes' t :
  votes ≡ₚ votes' ->
  (forall v w, v ∈ matching_votes h r (NormalizeStage st) bh votes ->
     w ∈ matching_votes h r (NormalizeStage st) bh votes -> v_VoterID v = v_VoterID w -> v = w) ->
  FormStageQuorumCertificate now h r st bh votes t
  = FormStageQuorumCertificate now h r st bh votes' t.
Proof.
  intros Hp Huniq. set (s := NormalizeStage st) in *.
  assert (Hin : forall v, v ∈ matching_votes h r s bh votes <-> v ∈ matching_votes h r s bh votes').
  { intros v. rewrite !elem_of_matching_votes. by setoid_rewrite Hp. }
  assert (Heq : unique_votes h r s bh votes = unique_votes h r s bh votes').
  { destruct (unique_votes_spec h r s bh votes) as [Ha1 Ha2].
    destruct (unique_votes_spec h r s bh votes') as [Hb1 Hb2].
    apply map_eq. intros id.
    destruct (unique_votes h r s bh votes !! id) as [v|] eqn:E1.
    - destruct (Ha1 _ _ E1) as [Hv <-]. destruct (Hb2 v) as [w Hw]; [by apply Hin|].
      rewrite Hw. destruct (Hb1 _ _ Hw) as [Hw' Hid]. f_equal. apply Huniq; [done|by apply Hin|done].
    - destruct (unique_votes h r s bh votes' !! id) as [w|] eqn:E2; [|done].
      destruct (Hb1 _ _ E2) as [Hw <-]. apply Hin, Ha2 in Hw as [v Hv]. congruence. }
  unfold FormStageQuorumCertificate. fold s. by rewrite Heq.
Qed.

(** Signing and verification agree: a vote and a proposal signed with a
    validator's key verify against its registered identity, for every voting
    stage, positive height and hash. *)
Theorem signed_messages_verify signer ver ids :
  signs_for signer ver ->
  (forall h r st bh voter vi v, ids !! voter = Some vi -> identity_of vi signer ->
     IsVoteStage (NormalizeStage st) = true -> h <> 0 -> bh <> "" ->
     SignStageVote h r st bh voter signer = Ok v -> VerifyVote v ids ver = Ok tt) /\
  (forall block vi p, ids !! b_ProposerID block = Some vi -> identity_of vi signer ->
     b_Height block <> 0 -> b_PreviousHash block <> "" -> b_ProposerID block <> "" ->
     SignProposal block signer = Ok p -> VerifyProposal p ids ver = Ok tt).
Proof.
  intros [Halg Hsign]. split.
  - intros h r st bh voter vi v Hvi [Ha Hk] Hs Hh Hbh Hv.
    unfold SignStageVote, CanonicalJSON in Hv. cbv zeta in Hv. cbn [mbind result_bind] in Hv.
    apply bind_ok in Hv as (sig & Hsig & [= <-]).
    apply VerifyVote_ok. exists vi, sig. unfold normalize_vote, vote_payload. cbn.
    rewrite !NormalizeStage_idemp. rewrite Base64.DecodeString_EncodeToString, Hk.
    split_and!; try done. by apply Hsign.
  - intros block vi p Hvi [Ha Hk] Hh Hp Hid Hsp.
    unfold SignProposal in Hsp. rewrite Block_Hash_ok in Hsp. cbn [mbind result_bind] in Hsp.
    apply bind_ok in Hsp as (sig & Hsig & [= <-]). unfold VerifyProposal.
    cbn [p_Block p_Round p_Algorithm p_Signature].
    rewrite (proj2 (Z.eqb_neq _ _) Hh), (proj2 (String.eqb_neq _ _) Hp),
      (proj2 (String.eqb_neq _ _) Hid), Z.eqb_refl. cbn [negb].
    rewrite (proj2 (RequireIdentity_ok _ _ _) Hvi), Block_Hash_ok. cbn [mbind result_bind].
    rewrite Ha, Halg, !String.eqb_refl, Base64.DecodeString_EncodeToString, Hk,
      (Hsign _ _ Hsig). done.
Qed.

Lemma nth_error_lookup {A} (l : list A) i : nth_error l i = l !! i.
Proof. revert i. induction l as [|x l IH]; intros [|i]; cbn; auto. Qed.

(** The scheduled proposer is one of the validators. *)
Lemma ProposerFor_lookup h r ids :
  ids <> [] -> 1 <= h -> is_u64 h ->
  exists id, ProposerFor h r ids = Ok id /\
    ids !! Z.to_nat (u64 (h - 1 + r) mod Z.of_nat (length ids)) = Some id.
Proof.
  intros Hne Hh Hu. unfold ProposerFor. rewrite bool_decide_eq_false_2 by done.
  rewrite (proj2 (Z.eqb_neq _ _)) by lia. cbv zeta.
  rewrite (u64_small (h - 1)) by (unfold is_u64 in *; lia).
  rewrite nth_error_lookup.
  destruct (lookup_lt_is_Some_2 ids (Z.to_nat (u64 (h - 1 + r) mod Z.of_nat (length ids))))
    as [id Hid].
  { assert (0 < Z.of_nat (length ids)) by (destruct ids; [done|cbn; lia]).
    pose proof (Z.mod_pos_bound (u64 (h - 1 + r)) (Z.of_nat (length ids)) ltac:(done)). lia. }
  rewrite Hid. eauto.
Qed.

(** the schedule is a rotation of the validator list: over any [n]
    consecutive rounds of a height ([n] the number of validators) every
    validator is the proposer exactly once, in list order from the position
    [(height - 1 + round) mod n], as long as the counter does not pass the end
    of the [uint64] range. *)
Theorem ProposerFor_rotation h r ids :
  ids <> [] -> 1 <= h < two64 -> 0 <= r -> h - 1 + r + Z.of_nat (length ids) <= two64 ->
  let k := Z.to_nat ((h - 1 + r) mod Z.of_nat (length ids)) in
  map (fun i => ProposerFor h (r + Z.of_nat i) ids) (seq 0 (length ids))
  = map Ok (drop k ids ++ take k ids).
Proof.
  intros Hne Hh Hr Hmax k. set (n := length ids) in *.
  assert (Hn : 0 < Z.of_nat n) by (subst n; destruct ids; [done|cbn; lia]).
  assert (Hk : (k < n)%nat).
  { pose proof (Z.mod_pos_bound (h - 1 + r) (Z.of_nat n) Hn). subst k. lia. }
  apply list_eq. intros i. rewrite !list_lookup_fmap.
  destruct (decide (i < n)%nat) as [Hi|Hi].
  2: { rewrite lookup_seq_ge, lookup_ge_None_2 by (rewrite ?length_app, ?length_drop, ?length_take; fold n; lia).
       done. }
  rewrite lookup_seq_lt by done. cbn [fmap option_fmap option_map]. rewrite Nat.add_0_l.
  destruct (ProposerFor_lookup h (r + Z.of_nat i) ids Hne) as (id & -> & Hid);
    [unfold is_u64, two64 in *; lia..|].
  rewrite u64_small in Hid by (unfold is_u64, two64 in *; lia). fold n in Hid.
  replace (h - 1 + (r + Z.of_nat i)) with (h - 1 + r + Z.of_nat i) in Hid by lia.
  rewrite <-Z.add_mod_idemp_l in Hid by lia.
  replace ((h - 1 + r) mod Z.of_nat n) with (Z.of_nat k) in Hid
    by (subst k; rewrite Z2Nat.id; [done|by apply Z.mod_pos_bound]).
  destruct (decide (k + i < n)%nat) as [Hlt|Hge].
  - rewrite Z.mod_small in Hid by lia.
    rewrite lookup_app_l by (rewrite length_drop; fold n; lia). rewrite lookup_drop.
    replace (Z.to_nat (Z.of_nat k + Z.of_nat i)) with (k + i)%nat in Hid by lia. by rewrite Hid.
  - replace (Z.of_nat k + Z.of_nat i) with (Z.of_nat (k + i - n) + 1 * Z.of_nat n) in Hid by lia.
    rewrite Z.mod_add, Z.mod_small, Nat2Z.id in Hid by lia.
    rewrite lookup_app_r, length_drop by (rewrite length_drop; fold n; lia). fold n.
    rewrite lookup_take. replace (i - (n - k))%nat with (k + i - n)%nat by lia.
    rewrite decide_True by lia. by rewrite Hid.
Qed.


(** *** Witnesses *)

Definition demo_ids : list string := ["v1"; "v2"; "v3"; "v4"].

Definition demo_vote (stage bh id : string) : Vote :=
  match SignStageVote 1 0 stage bh id (demo_signer id) with
  | Ok v => v
  | Err _ => mkVote 0 0 "" "" "" "" "" ""
  end.

Lemma formed_certificate_verifies_witness :
  exists c,
    FormStageQuorumCertificate (mkTime 5 "") 1 0 "" "b1"
      [demo_vote "" "b1" "v3"; demo_vote "" "b1" "v1"; demo_vote "" "b2" "v2";
       demo_vote "" "b1" "v1"; demo_vote "" "b1" "v2"] 3 = Ok c /\
    VerifyQuorumCertificate c (demo_identities demo_ids) demo_verifier = Ok tt.
Proof.
  apply formed_certificate_verifies; [reflexivity|lia|done|vm_compute; by split|by vm_compute|].
  intros v Hv. apply elem_of_matching_votes in Hv as [Hm (w & Hw & ->)].
  apply VerifyVote_ok. rewrite !elem_of_cons, elem_of_nil in Hw.
  destruct_or! Hw; subst; vm_compute; reflexivity || (vm_compute in Hm; discriminate Hm).
Defined.

Lemma FormStageQuorumCertificate_order_witness :
  let votes := [demo_vote "" "b1" "v1"; demo_vote "" "b1" "v2"; demo_vote "" "b1" "v1"] in
  FormStageQuorumCertificate (mkTime 5 "") 1 0 "" "b1" votes 2
  = FormStageQuorumCertificate (mkTime 5 "") 1 0 "" "b1" (rev votes) 2.
Proof.
  intros votes. apply FormStageQuorumCertificate_order.
  - symmetry. apply Permutation_rev.
  - intros v w (_ & v' & Hv & ->)%elem_of_matching_votes (_ & w' & Hw & ->)%elem_of_matching_votes.
    subst votes. rewrite !elem_of_cons, elem_of_nil in Hv, Hw.
    destruct_or! Hv; destruct_or! Hw; subst; vm_compute; reflexivity || discriminate.
Defined.

Lemma signed_messages_verify_witness :
  VerifyVote (demo_vote StagePrevote "b1" "v2") (demo_identities demo_ids) demo_verifier = Ok tt.
Proof.
  eapply (proj1 (signed_messages_verify (demo_signer "v2") demo_verifier
                   (demo_identities demo_ids) (demo_signs_for "v2")) 1 0 StagePrevote "b1" "v2");
    [reflexivity|by split|reflexivity|lia|done|reflexivity].
Defined.

Lemma ProposerFor_rotation_witness :
  map (fun i => ProposerFor 2 (0 + Z.of_nat i) demo_ids) (seq 0 4)
  = map Ok ["v2"; "v3"; "v4"; "v1"].
Proof.
  apply (ProposerFor_rotation 2 0 demo_ids); [done|unfold two64; lia|lia|vm_compute; discriminate].
Defined.
