(* ===== verification/Codec.v ===== *)
(** * JSON encodings of the consensus messages

    The struct tags of consensus/state/state.go and
    consensus/protocol/protocol.go read both ways: the encoder of each message
    (next to [Block_json] and [VoteToSign_json], which are hashed and signed)
    and the reader that [json.Unmarshal] is for it.  A slice is [null] when it
    has no element: a nil and an empty slice are not told apart. *)

From S2P Require Import Prelude Sha256 Json JsonParse JsonDecode Identity State Protocol.
Local Open Scope Z_scope.

Definition Transaction_of (fs : list (string * json)) : result Transaction :=
  id ← get_string "id" fs; payload ← get_string "payload" fs; Ok (mkTx id payload).

Definition Block_of (fs : list (string * json)) : result Block :=
  height ← get_uint64 "height" fs;
  round ← get_uint64 "round" fs;
  previous ← get_string "previous_hash" fs;
  payload ← get_string "payload" fs;
  txs ← get_list (mkTx "" "") (dec_struct Transaction_of) "transactions" fs;
  digest ← get_string "state_digest" fs;
  proposer ← get_string "proposer_id" fs;
  version ← get_uint64 "membership_version" fs;
  set_hash ← get_string "validator_set_hash" fs;
  created ← get_int "created_at_unix_milli" fs;
  Ok (mkBlock height round previous payload txs digest proposer version set_hash created).

Definition Vote_json (v : Vote) : json :=
  JObj [("height", JInt (v_Height v)); ("round", JInt (v_Round v)); ("stage", JStr (v_Stage v));
        ("block_hash", JStr (v_BlockHash v)); ("voter_id", JStr (v_VoterID v));
        ("decision", JStr (v_Decision v)); ("algorithm", JStr (v_Algorithm v));
        ("signature", JStr (v_Signature v))].

Definition zero_vote : Vote := mkVote 0 0 "" "" "" "" "" "".

Definition Vote_of (fs : list (string * json)) : result Vote :=
  height ← get_uint64 "height" fs;
  round ← get_uint64 "round" fs;
  stage ← get_string "stage" fs;
  block_hash ← get_string "block_hash" fs;
  voter ← get_string "voter_id" fs;
  decision ← get_string "decision" fs;
  algorithm ← get_string "algorithm" fs;
  signature ← get_string "signature" fs;
  Ok (mkVote height round stage block_hash voter decision algorithm signature).

Definition QC_json (c : QuorumCertificate) : json :=
  JObj ([("height", JInt (qc_Height c)); ("round", JInt (qc_Round c)); ("stage", JStr (qc_Stage c));
         ("block_hash", JStr (qc_BlockHash c)); ("decision", JStr (qc_Decision c));
         ("threshold", JInt (qc_Threshold c))] ++
        omit_int "membership_version" (qc_MembershipVersion c) ++
        omit_str "validator_set_hash" (qc_ValidatorSetHash c) ++
        [("formed_at_unix_milli", JInt (qc_FormedAtUnixMilli c));
         ("validator_vote_count", JInt (qc_ValidatorVoteCount c));
         ("votes", list_json Vote_json (qc_Votes c))])%list.

Definition QC_of (fs : list (string * json)) : result QuorumCertificate :=
  height ← get_uint64 "height" fs;
  round ← get_uint64 "round" fs;
  stage ← get_string "stage" fs;
  block_hash ← get_string "block_hash" fs;
  decision ← get_string "decision" fs;
  threshold ← get_int "threshold" fs;
  version ← get_uint64 "membership_version" fs;
  set_hash ← get_string "validator_set_hash" fs;
  formed ← get_int "formed_at_unix_milli" fs;
  count ← get_int "validator_vote_count" fs;
  votes ← get_list zero_vote (dec_struct Vote_of) "votes" fs;
  Ok (mkQC height round stage block_hash decision threshold version set_hash formed count votes).

Definition Proposal_json (p : Proposal) : json :=
  JObj [("block", Block_json (p_Block p)); ("round", JInt (p_Round p));
        ("algorithm", JStr (p_Algorithm p)); ("signature", JStr (p_Signature p))].

Definition Proposal_of (fs : list (string * json)) : result Proposal :=
  block ← get_struct Block_of "block" fs;
  round ← get_uint64 "round" fs;
  algorithm ← get_string "algorithm" fs;
  signature ← get_string "signature" fs;
  Ok (mkProposal block round algorithm signature).

Definition PrecommitRequest_json (r : PrecommitRequest) : json :=
  JObj [("proposal", Proposal_json (pr_Proposal r)); ("prevote_qc", QC_json (pr_PrevoteQC r))].

Definition PrecommitRequest_of (fs : list (string * json)) : result PrecommitRequest :=
  proposal ← get_struct Proposal_of "proposal" fs;
  qc ← get_struct QC_of "prevote_qc" fs;
  Ok (mkPrecommitRequest proposal qc).

Definition Commit_json (c : CommitRequest) : json :=
  JObj [("block", Block_json (c_Block c)); ("certificate", QC_json (c_Certificate c))].

Definition Commit_of (fs : list (string * json)) : result CommitRequest :=
  block ← get_struct Block_of "block" fs;
  certificate ← get_struct QC_of "certificate" fs;
  Ok (mkCommit block certificate).

Definition Lock_json (l : LockState) : json :=
  JObj (omit_int "height" (l_Height l) ++ omit_int "round" (l_Round l) ++
        omit_str "block_hash" (l_BlockHash l) ++
        omit_str "source_qc_block_hash" (l_SourceQCBlockHash l) ++
        omit_int "source_qc_round" (l_SourceQCRound l) ++
        omit_str "source_qc_stage" (l_SourceQCStage l) ++
        omit_int "source_vote_count" (l_SourceVoteCount l) ++
        omit_int "updated_at_unix_milli" (l_UpdatedAtUnixMilli l))%list.

Definition Lock_of (fs : list (string * json)) : result LockState :=
  height ← get_uint64 "height" fs;
  round ← get_uint64 "round" fs;
  block_hash ← get_string "block_hash" fs;
  source_hash ← get_string "source_qc_block_hash" fs;
  source_round ← get_uint64 "source_qc_round" fs;
  source_stage ← get_string "source_qc_stage" fs;
  votes ← get_int "source_vote_count" fs;
  updated ← get_int "updated_at_unix_milli" fs;
  Ok (mkLock height round block_hash source_hash source_round source_stage votes updated).

(** [omitempty] has no effect on the struct [lock]. *)
Definition Snapshot_json (s : StateSnapshot) : json :=
  JObj ([("node_id", JStr (ss_NodeID s)); ("region", JStr (ss_Region s));
         ("height", JInt (ss_Height s)); ("round", JInt (ss_Round s));
         ("last_hash", JStr (ss_LastHash s)); ("state_digest", JStr (ss_StateDigest s));
         ("lock", Lock_json (ss_Lock s)); ("commit_count", JInt (ss_CommitCount s));
         ("running", JBool (ss_Running s))] ++
        omit_str "last_event" (ss_LastEvent s) ++
        [("crypto_signer", JStr (ss_CryptoSigner s))] ++
        omit_str "signer_provider" (ss_SignerProvider s) ++
        omit_int "membership_version" (ss_MembershipVersion s) ++
        omit_str "validator_set_hash" (ss_ValidatorSetHash s))%list.

Definition Snapshot_of (fs : list (string * json)) : result StateSnapshot :=
  node ← get_string "node_id" fs;
  region ← get_string "region" fs;
  height ← get_uint64 "height" fs;
  round ← get_uint64 "round" fs;
  last_hash ← get_string "last_hash" fs;
  digest ← get_string "state_digest" fs;
  lock ← get_struct Lock_of "lock" fs;
  count ← get_int "commit_count" fs;
  running ← get_bool "running" fs;
  event ← get_string "last_event" fs;
  signer ← get_string "crypto_signer" fs;
  provider ← get_string "signer_provider" fs;
  version ← get_uint64 "membership_version" fs;
  set_hash ← get_string "validator_set_hash" fs;
  Ok (mkSnapshot node region height round last_hash digest lock count running event signer provider
        version set_hash).

(** ** Round trips *)

(** The values a struct's fields can hold: integers in the range of their type
    and strings that are valid UTF-8 (what the HTTP and JSON layers hand over). *)
Definition tx_wf (tx : Transaction) : Prop :=
  utf8 (tx_ID tx) = true /\ utf8 (tx_Payload tx) = true.

Definition block_wf (b : Block) : Prop :=
  is_u64 (b_Height b) /\ is_u64 (b_Round b) /\ is_u64 (b_MembershipVersion b) /\
  is_int64 (b_CreatedAtUnixMilli b) /\ Forall tx_wf (b_Transactions b) /\
  utf8 (b_PreviousHash b) = true /\ utf8 (b_Payload b) = true /\ utf8 (b_StateDigest b) = true /\
  utf8 (b_ProposerID b) = true /\ utf8 (b_ValidatorSetHash b) = true.

Definition vote_wf (v : Vote) : Prop :=
  is_u64 (v_Height v) /\ is_u64 (v_Round v) /\ utf8 (v_Stage v) = true /\
  utf8 (v_BlockHash v) = true /\ utf8 (v_VoterID v) = true /\ utf8 (v_Decision v) = true /\
  utf8 (v_Algorithm v) = true /\ utf8 (v_Signature v) = true.

Definition qc_wf (c : QuorumCertificate) : Prop :=
  is_u64 (qc_Height c) /\ is_u64 (qc_Round c) /\ is_int64 (qc_Threshold c) /\
  is_u64 (qc_MembershipVersion c) /\ is_int64 (qc_FormedAtUnixMilli c) /\
  is_int64 (qc_ValidatorVoteCount c) /\ Forall vote_wf (qc_Votes c) /\
  utf8 (qc_Stage c) = true /\ utf8 (qc_BlockHash c) = true /\ utf8 (qc_Decision c) = true /\
  utf8 (qc_ValidatorSetHash c) = true.

Definition proposal_wf (p : Proposal) : Prop :=
  block_wf (p_Block p) /\ is_u64 (p_Round p) /\ utf8 (p_Algorithm p) = true /\
  utf8 (p_Signature p) = true.

Definition commit_wf (c : CommitRequest) : Prop := block_wf (c_Block c) /\ qc_wf (c_Certificate c).

(** The same as a test. *)
Definition u64_ok (z : Z) : bool := (0 <=? z) && (z <? two64).
Definition int64_ok (z : Z) : bool := (- 2 ^ 63 <=? z) && (z <? 2 ^ 63).

Definition block_ok (b : Block) : bool :=
  u64_ok (b_Height b) && u64_ok (b_Round b) && u64_ok (b_MembershipVersion b) &&
  int64_ok (b_CreatedAtUnixMilli b) &&
  forallb (fun tx => utf8 (tx_ID tx) && utf8 (tx_Payload tx)) (b_Transactions b) &&
  forallb utf8 [b_PreviousHash b; b_Payload b; b_StateDigest b; b_ProposerID b; b_ValidatorSetHash b].

Definition vote_ok (v : Vote) : bool :=
  u64_ok (v_Height v) && u64_ok (v_Round v) &&
  forallb utf8 [v_Stage v; v_BlockHash v; v_VoterID v; v_Decision v; v_Algorithm v; v_Signature v].

Definition commit_ok (c : CommitRequest) : bool :=
  let q := c_Certificate c in
  block_ok (c_Block c) && u64_ok (qc_Height q) && u64_ok (qc_Round q) && int64_ok (qc_Threshold q) &&
  u64_ok (qc_MembershipVersion q) && int64_ok (qc_FormedAtUnixMilli q) &&
  int64_ok (qc_ValidatorVoteCount q) && forallb vote_ok (qc_Votes q) &&
  forallb utf8 [qc_Stage q; qc_BlockHash q; qc_Decision q; qc_ValidatorSetHash q].

Lemma forallb_Forall {A} (p : A -> bool) (P : A -> Prop) l :
  (forall x, p x = true -> P x) -> forallb p l = true -> Forall P l.
Proof.
  intros Hp Hl. apply Forall_forall. intros x Hx. apply Hp.
  rewrite forallb_forall in Hl. by apply Hl, list_elem_of_In.
Qed.

Lemma vote_ok_wf v : vote_ok v = true -> vote_wf v.
Proof.
  unfold vote_ok, vote_wf, u64_ok, is_u64. cbn [forallb]. rewrite !andb_true_iff, !Z.leb_le, !Z.ltb_lt.
  intros H. destruct_and?. by split_and!.
Qed.

Lemma commit_ok_wf c : commit_ok c = true -> commit_wf c.
Proof.
  unfold commit_ok, block_ok, commit_wf, block_wf, qc_wf, u64_ok, int64_ok, is_u64, is_int64.
  cbv zeta. cbn [forallb]. rewrite !andb_true_iff, !Z.leb_le, !Z.ltb_lt. intros H. destruct_and?.
  split_and!; try done.
  - eapply forallb_Forall; [|eassumption]. intros tx. by rewrite andb_true_iff.
  - eapply forallb_Forall; [apply vote_ok_wf|eassumption].
Qed.

Lemma Transaction_of_json tx : dec_struct Transaction_of (tx_json tx) = Ok tx.
Proof.
  destruct tx as [id payload]. unfold tx_json, dec_struct, Transaction_of. cbn [tx_ID tx_Payload].
  rewrite <-(app_nil_r (omit_str _ _)). by read_struct.
Qed.

Lemma Block_of_json b : block_wf b -> dec_struct Block_of (Block_json b) = Ok b.
Proof.
  destruct b as [h r prev payload txs d p mv vh t]. intros (? & ? & ? & ? & _).
  cbn in * |-. unfold Block_json, dec_struct, Block_of.
  cbn [b_Height b_Round b_PreviousHash b_Payload b_Transactions b_StateDigest b_ProposerID
    b_MembershipVersion b_ValidatorSetHash b_CreatedAtUnixMilli].
  destruct txs as [|tx txs]; read_struct; read_next.
  - apply get_none. simpl_field.
  - by read_struct.
  - change (JArr (map tx_json (tx :: txs))) with (list_json tx_json (tx :: txs)).
    apply get_list_json; [reflexivity|simpl_field|done|intros x _; apply Transaction_of_json].
  - by read_struct.
Qed.

Lemma Vote_of_json v : vote_wf v -> dec_struct Vote_of (Vote_json v) = Ok v.
Proof.
  destruct v as [h r st bh id d a sig]. intros (? & ? & _). cbn in * |-.
  unfold Vote_json, dec_struct, Vote_of.
  cbn [v_Height v_Round v_Stage v_BlockHash v_VoterID v_Decision v_Algorithm v_Signature].
  by read_struct.
Qed.

Lemma QC_of_json c : qc_wf c -> dec_struct QC_of (QC_json c) = Ok c.
Proof.
  destruct c as [h r s bh d t mv vh f n votes].
  intros (? & ? & ? & ? & ? & ? & Hvotes & _). cbn in * |-. unfold QC_json, dec_struct, QC_of.
  cbn [qc_Height qc_Round qc_Stage qc_BlockHash qc_Decision qc_Threshold qc_MembershipVersion
    qc_ValidatorSetHash qc_FormedAtUnixMilli qc_ValidatorVoteCount qc_Votes].
  read_struct. read_next; [|done]. apply get_list_json; [reflexivity|reflexivity|done|].
  intros v Hv. apply Vote_of_json. rewrite Forall_forall in Hvotes. by apply Hvotes.
Qed.

Lemma Proposal_of_json p : proposal_wf p -> dec_struct Proposal_of (Proposal_json p) = Ok p.
Proof.
  destruct p as [b r a sig]. intros (Hb%Block_of_json & Hr & _). cbn in Hr.
  unfold Proposal_json, dec_struct, Proposal_of. cbn [p_Block p_Round p_Algorithm p_Signature] in *.
  unfold Block_json in *. cbn [dec_struct] in Hb. by read_struct.
Qed.

Lemma Commit_of_json c : commit_wf c -> dec_struct Commit_of (Commit_json c) = Ok c.
Proof.
  destruct c as [b q]. intros [Hb%Block_of_json Hq%QC_of_json].
  unfold Commit_json, dec_struct, Commit_of. cbn [c_Block c_Certificate] in *.
  unfold Block_json, QC_json in *. cbn [dec_struct] in Hb, Hq. by read_struct.
Qed.

Lemma PrecommitRequest_of_json r :
  proposal_wf (pr_Proposal r) -> qc_wf (pr_PrevoteQC r) ->
  dec_struct PrecommitRequest_of (PrecommitRequest_json r) = Ok r.
Proof.
  destruct r as [p q]. cbn [pr_Proposal pr_PrevoteQC]. intros Hp%Proposal_of_json Hq%QC_of_json.
  unfold PrecommitRequest_json, dec_struct, PrecommitRequest_of. cbn [pr_Proposal pr_PrevoteQC].
  unfold Proposal_json, QC_json in *. cbn [dec_struct] in Hp, Hq. by read_struct.
Qed.

(** *** Well-formed messages encode to printable trees *)

Definition fields_ok (fs : list (string * json)) : bool :=
  forallb (fun '(k, v) => utf8 k && json_ok v) fs.

Lemma fields_ok_app fs fs' : fields_ok (fs ++ fs')%list = fields_ok fs && fields_ok fs'.
Proof. apply forallb_app. Qed.

Lemma fields_ok_cons k v fs :
  utf8 k = true -> json_ok v = true -> fields_ok fs = true -> fields_ok ((k, v) :: fs) = true.
Proof. unfold fields_ok. cbn. by intros -> -> ->. Qed.

Lemma fields_ok_int k z : utf8 k = true -> fields_ok (omit_int k z) = true.
Proof. intros Hk. unfold omit_int. destruct (z =? 0); [done|]. unfold fields_ok. cbn. by rewrite Hk. Qed.

Lemma fields_ok_str k s : utf8 k = true -> utf8 s = true -> fields_ok (omit_str k s) = true.
Proof.
  intros Hk Hs. unfold omit_str. destruct (String.eqb s ""); [done|].
  unfold fields_ok. cbn. by rewrite Hk, Hs.
Qed.

Lemma json_ok_list {A} (enc : A -> json) l :
  (forall x, x ∈ l -> json_ok (enc x) = true) -> json_ok (list_json enc l) = true.
Proof.
  intros H. destruct l as [|x l]; [done|]. unfold list_json. cbn [json_ok].
  apply forallb_forall. intros v (y & <- & Hy)%in_map_iff. by apply H, list_elem_of_In.
Qed.

Lemma json_ok_map {V} (enc : V -> json) (m : gmap string V) :
  (forall k x, m !! k = Some x -> utf8 k = true /\ json_ok (enc x) = true) -> json_ok (JMap enc m) = true.
Proof.
  intros H. unfold JMap. cbn [json_ok]. apply forallb_forall. intros [k v] Hin.
  apply list_elem_of_In, list_elem_of_omap in Hin as (k' & _ & Hv).
  destruct (m !! k') as [x|] eqn:Ex; [|done]. injection Hv as -> <-.
  destruct (H k x Ex) as [-> ->]. done.
Qed.

Lemma bytes_json_ok s : json_ok (bytes_json s) = true.
Proof. unfold bytes_json. case_match; [done|]. apply base64_utf8. Qed.

Ltac json_ok_tac :=
  match goal with |- json_ok (JObj ?fs) = true => change (fields_ok fs = true) end;
  rewrite ?fields_ok_app; repeat match goal with |- _ && _ = true => apply andb_true_iff; split end;
  repeat first
    [ assumption
    | apply fields_ok_cons; [reflexivity| |]
    | apply fields_ok_int; reflexivity
    | apply fields_ok_str; [reflexivity|]
    | apply bytes_json_ok
    | reflexivity ].

Lemma tx_json_ok tx : tx_wf tx -> json_ok (tx_json tx) = true.
Proof. intros [? ?]. unfold tx_json. json_ok_tac. Qed.

Lemma Vote_json_ok v : vote_wf v -> json_ok (Vote_json v) = true.
Proof. intros (? & ? & ? & ? & ? & ? & ? & ?). unfold Vote_json. json_ok_tac. Qed.

Lemma Block_json_ok b : block_wf b -> json_ok (Block_json b) = true.
Proof.
  intros (? & ? & ? & ? & Htx & ? & ? & ? & ? & ?). unfold Block_json. json_ok_tac.
  destruct (b_Transactions b) as [|tx txs] eqn:E; [done|]. apply fields_ok_cons; [done| |done].
  apply (json_ok_list tx_json (tx :: txs)). intros x Hx. apply tx_json_ok.
  rewrite Forall_forall in Htx. by apply Htx.
Qed.

Lemma QC_json_ok c : qc_wf c -> json_ok (QC_json c) = true.
Proof.
  intros (? & ? & ? & ? & ? & ? & Hv & ? & ? & ? & ?). unfold QC_json. json_ok_tac.
  apply json_ok_list. intros x Hx. apply Vote_json_ok. rewrite Forall_forall in Hv. by apply Hv.
Qed.

Lemma Commit_json_ok c : commit_wf c -> json_ok (Commit_json c) = true.
Proof. intros [?%Block_json_ok ?%QC_json_ok]. unfold Commit_json.
  json_ok_tac.
Qed.

Lemma Proposal_json_ok p : proposal_wf p -> json_ok (Proposal_json p) = true.
Proof. intros (?%Block_json_ok & ? & ? & ?). unfold Proposal_json. json_ok_tac. Qed.

Lemma Unmarshal_Marshal {A} (f : list (string * json) -> result A) (v : json) (x : A) :
  json_ok v = true -> dec_struct f v = Ok x -> Unmarshal f (Marshal v) = Ok x.
Proof. intros Hok Hf. unfold Unmarshal. by rewrite parse_text. Qed.

(** C22: the messages survive their wire and storage format: decoding the JSON
    text of a proposal, a vote, a precommit request or a commit gives the same
    message back, for every message with integers in the range of their Go
    types and valid UTF-8 strings. *)
Theorem messages_roundtrip :
  (forall c, commit_wf c -> Unmarshal Commit_of (Marshal (Commit_json c)) = Ok c) /\
  (forall p, proposal_wf p -> Unmarshal Proposal_of (Marshal (Proposal_json p)) = Ok p) /\
  (forall v, vote_wf v -> Unmarshal Vote_of (Marshal (Vote_json v)) = Ok v) /\
  (forall r, proposal_wf (pr_Proposal r) -> qc_wf (pr_PrevoteQC r) ->
     Unmarshal PrecommitRequest_of (Marshal (PrecommitRequest_json r)) = Ok r).
Proof.
  split_and!.
  - intros c Hc. apply Unmarshal_Marshal; [by apply Commit_json_ok|by apply Commit_of_json].
  - intros p Hp. apply Unmarshal_Marshal; [by apply Proposal_json_ok|by apply Proposal_of_json].
  - intros v Hv. apply Unmarshal_Marshal; [by apply Vote_json_ok|by apply Vote_of_json].
  - intros r Hp Hq. apply Unmarshal_Marshal; [|by apply PrecommitRequest_of_json].
    apply Proposal_json_ok in Hp. apply QC_json_ok in Hq.
    unfold PrecommitRequest_json. json_ok_tac.
Qed.

Lemma messages_roundtrip_witness :
  let c := mkCommit (mkBlock 1 0 "GENESIS" "pay <10>" [mkTx "t1" "pay <10>"] "d" "v2" 0 "" 7)
             (mkQC 1 0 StagePrecommit "h" DecisionCommit 1 0 "" 9 1
                [mkVote 1 0 StagePrecommit "h" "v1" DecisionCommit "demo" "c2ln"]) in
  Unmarshal Commit_of (Marshal (Commit_json c)) = Ok c.
Proof.
  apply (proj1 messages_roundtrip).
  assert (Hz : forall z, 0 <= z < 1000 -> is_u64 z /\ is_int64 z)
    by (unfold is_u64, two64, is_int64; lia).
  repeat first [apply conj | apply Forall_cons | apply Forall_nil | apply Hz; cbn; lia | reflexivity].
Defined.

(** *** What the hashes and signatures cover *)

Lemma Marshal_inj v v' : json_ok v = true -> json_ok v' = true -> Marshal v = Marshal v' -> v = v'.
Proof.
  intros H H' E. apply parse_text in H, H'. rewrite E in H. rewrite H in H'. by injection H'.
Qed.

Lemma VoteToSign_json_ok v :
  utf8 (vs_Stage v) = true -> utf8 (vs_BlockHash v) = true -> utf8 (vs_VoterID v) = true ->
  utf8 (vs_Decision v) = true -> json_ok (VoteToSign_json v) = true.
Proof. intros ? ? ? ?. unfold VoteToSign_json. json_ok_tac. Qed.

(** A block hash commits to the whole block and a vote's signature to the whole
    vote: two blocks of the same hash are equal, or their encodings are an
    explicit SHA-256 collision; and two votes whose signed bytes are equal agree
    on height, round, stage, block hash, voter and decision. *)
Theorem hashes_bind :
  (forall b b', block_wf b -> block_wf b' -> hash_of b = hash_of b' ->
     b = b' \/ exists m m', m <> m' /\ HashBytes m = HashBytes m') /\
  (forall v v', vote_wf v -> vote_wf v' ->
     Marshal (VoteToSign_json (vote_payload v)) = Marshal (VoteToSign_json (vote_payload v')) ->
     vote_payload v = vote_payload v').
Proof.
  split.
  - intros b b' Hb Hb' Hh.
    destruct (String.eqb_spec (Marshal (Block_json b)) (Marshal (Block_json b'))) as [E|E].
    + left. apply Marshal_inj in E; [|by apply Block_json_ok..].
      apply Block_of_json in Hb, Hb'. rewrite E in Hb. rewrite Hb in Hb'. by injection Hb'.
    + right. eexists _, _. split; [exact E|]. by rewrite <-!hash_of_eq.
  - intros v v' (_ & _ & ? & ? & ? & ? & _) (_ & _ & ? & ? & ? & ? & _) E.
    apply Marshal_inj in E; [|by apply VoteToSign_json_ok..].
    unfold vote_payload, VoteToSign_json in *. cbn in E. by injection E as -> -> -> -> -> ->.
Qed.

Lemma hashes_bind_witness :
  let v := mkVote 1 0 StagePrecommit "h" "v1" DecisionCommit "demo" "c2ln" in
  let w := mkVote 1 0 StagePrecommit "h" "v1" DecisionCommit "other" "" in
  vote_payload v = vote_payload w.
Proof.
  intros v w. apply (proj2 hashes_bind v w); [..|reflexivity];
    (repeat first [apply conj | reflexivity]; vm_compute; discriminate).
Defined.
