(* ===== verification/Quorum.v ===== *)
(** * Quorums of a lawful suite

    What the scripted runs of the repository share: the validators of a lawful suite sign
    votes that verify, and the votes of enough of them form a certificate that verifies. *)

From S2P Require Import Prelude Sha256 Json Identity Crypto Protocol.
Local Open Scope string_scope.
Local Open Scope Z_scope.

Section quorum.
Context (s : CryptoSuite) `{!LawfulSuite s} (ids : gmap string ValidatorIdentity) (l : list string).
Context (Hids : suite_identities s ids l).
Context (h r : Z) (stage hash : string) (Hh : h <> 0) (Hstage : IsVoteStage stage = true) (Hhash : hash <> "").
#[local] Set Default Proof Using "All".

(** A vote for [hash] that verifies. *)
Definition quorum_vote (v : Vote) : Prop :=
  vote_matches h r stage hash v = true /\ VerifyVote v ids (cs_NewVerifier s) = Ok tt.

(** The validators of the suite sign such votes. *)
Lemma suite_vote voter : voter ∈ l -> exists signer v, cs_NewSigner s voter = Ok signer /\
  SignStageVote h r stage hash voter signer = Ok v /\ v_VoterID v = voter /\ quorum_vote v.
Proof.
  intros Hin. destruct (proj1 Hids voter Hin) as (vi & signer & Hid & Hs & Hof).
  destruct (suite_signer (s := s) voter) as (signer' & Hs' & _ & _ & Hlaw & Hsign).
  assert (signer' = signer) as -> by congruence. pose proof (NormalizeStage_vote stage Hstage) as Hn.
  destruct (Hsign (Marshal (VoteToSign_json (mkVoteToSign h r stage hash voter DecisionCommit)))) as [sig Hsig].
  assert (Hv : SignStageVote h r stage hash voter signer
    = Ok (mkVote h r stage hash voter DecisionCommit (sg_Algorithm signer) (Base64.EncodeToString sig))).
  { unfold SignStageVote. rewrite Hn. cbn [mbind result_bind CanonicalJSON]. cbv zeta. unfold CanonicalJSON.
    cbn [mbind result_bind]. by rewrite Hsig. }
  eexists signer, _. split; [done|]. split; [exact Hv|]. split; [done|]. split.
  - apply vote_matches_spec. by split_and!.
  - apply (proj1 (signed_messages_verify signer (cs_NewVerifier s) ids Hlaw) h r stage hash voter vi); try done.
    by rewrite Hn.
Qed.

Lemma quorum_vote_normal v : quorum_vote v -> normalize_vote v = v.
Proof.
  intros [(_ & _ & Hs & _)%vote_matches_spec _]. unfold normalize_vote. rewrite Hs, (NormalizeStage_vote stage Hstage), <-Hs.
  by destruct v.
Qed.

Lemma quorum_matching votes : Forall quorum_vote votes -> matching_votes h r stage hash votes = votes.
Proof.
  intros Hall. unfold matching_votes. induction Hall as [|v votes Hv _ IH]; [done|]. cbn.
  by rewrite (quorum_vote_normal v Hv), (proj1 Hv), IH.
Qed.

(** Enough of them form a certificate that verifies, of one vote of each voter. *)
Lemma suite_quorum now votes threshold : Forall quorum_vote votes -> NoDup (map v_VoterID votes) ->
  0 < threshold <= Z.of_nat (length votes) -> threshold <= Z.of_nat (size ids) ->
  exists cert, FormStageQuorumCertificate now h r stage hash votes threshold = Ok cert /\
    VerifyQuorumCertificate cert ids (cs_NewVerifier s) = Ok tt /\ qc_Height cert = h /\ qc_Round cert = r /\
    qc_BlockHash cert = hash /\ qc_Threshold cert = threshold /\
    qc_ValidatorVoteCount cert = Z.of_nat (length votes) /\ length (qc_Votes cert) = length votes.
Proof.
  intros Hall Hnd Ht Hle. pose proof (quorum_matching votes Hall) as Hm. pose proof (NormalizeStage_vote stage Hstage) as Hn.
  assert (Hsize : size (matching_voters h r stage hash votes) = length votes).
  { unfold matching_voters. rewrite Hm, size_list_to_set by done. apply length_map. }
  destruct (formed_certificate_verifies now h r stage hash votes threshold ids (cs_NewVerifier s)) as (cert & Hf & Hv);
    rewrite ?Hn, ?Hsize; try done.
  { rewrite Hm. intros v Hin. rewrite Forall_forall in Hall. pose proof (Hall v Hin) as Hv. pose proof (proj2 Hv) as Hok.
    apply VerifyVote_ok in Hok. by rewrite (quorum_vote_normal v Hv) in Hok. }
  exists cert. split; [done|]. split; [done|]. apply FormStage_ok in Hf as (_ & _ & _ & ->). rewrite Hn. cbn.
  by rewrite length_sorted_values_unique, size_unique_votes, Hsize.
Qed.
End quorum.
