(* ===== verification/Store.v ===== *)
(** * The validator store: core/storage/store.go and core/storage/memory.go

    The records a validator persists, the interface [ValidatorStore] the node
    is written against, its laws, and the in-memory implementation.  An
    operation takes the store and returns it with the result: the methods hold
    the store's mutex for their whole body, so each of them is one step. *)

From S2P Require Import Prelude.
Local Open Scope Z_scope.

(** ** Records *)

Record ValidatorState := mkValidatorState {
  st_NodeID : string;
  st_Region : string;
  st_Height : Z;
  st_Round : Z;
  st_LastHash : string;
  st_StateDigest : string;
  st_LockedHeight : Z;
  st_LockedRound : Z;
  st_LockedBlockHash : string;
  st_CommitCount : Z;
  st_IdentityKeyID : string;
  st_SignatureAlgorithm : string;
  st_KEMAlgorithm : string;
  st_UpdatedAtUnixMilli : Z
}.

Record CommitRecord := mkCommitRecord {
  cr_Height : Z;
  cr_Round : Z;
  cr_BlockHash : string;
  cr_StateDigest : string;
  cr_CommitJSON : string;
  cr_CertificateJSON : string;
  cr_IdentityKeyID : string;
  cr_CreatedAtUnixMilli : Z
}.

Record IdempotencyRecord := mkIdempotencyRecord {
  ir_ID : string;
  ir_ResultHash : string;
  ir_AppliedAtUnixMilli : Z
}.

Record SnapshotRecord := mkSnapshotRecord {
  sr_ID : string;
  sr_Height : Z;
  sr_LastHash : string;
  sr_SnapshotJSON : string;
  sr_CreatedAtUnixMilli : Z
}.

Record EvidenceRecord := mkEvidenceRecord {
  er_EvidenceID : string;
  er_ReceiptID : string;
  er_EventHash : string;
  er_QCHash : string;
  er_CommitHeight : Z;
  er_SubmittingOrg : string;
  er_IdempotencyKey : string;
  er_ReceiptJSON : string;
  er_CreatedAtUnixMilli : Z
}.

Definition zero_evidence : EvidenceRecord := mkEvidenceRecord "" "" "" "" 0 "" "" "" 0.

Record AuditRecord := mkAuditRecord {
  ar_RequestID : string;
  ar_TimestampUnixMilli : Z;
  ar_PrincipalID : string;
  ar_Organization : string;
  ar_Method : string;
  ar_Path : string;
  ar_StatusCode : Z;
  ar_DurationMillis : Z;
  ar_ClientAddr : string;
  ar_DeniedReason : string
}.

Definition ErrNotFound : error := errors_New "storage record not found".

(** ** The interface

    A Go result [(T, bool, error)] is [result (option T)]. *)
Class ValidatorStore (S : Type) := {
  LoadValidatorState : S -> result (option ValidatorState);
  SaveValidatorState : S -> ValidatorState -> S * result unit;
  SaveCommit : S -> CommitRecord -> ValidatorState -> S * result unit;
  ListCommits : S -> result (list CommitRecord);
  RecentCommits : S -> Z -> result (list CommitRecord);
  Commit : S -> Z -> result (option CommitRecord);
  RecordIdempotency : S -> Time -> string -> string -> S * result (bool * string);
  IdempotencyResult : S -> string -> result (option string);
  IdempotencyCount : S -> result Z;
  SaveSnapshot : S -> SnapshotRecord -> S * result unit;
  ListSnapshots : S -> result (list SnapshotRecord);
  SaveEvidence : S -> EvidenceRecord -> S * (bool * EvidenceRecord * option error);
  EvidenceByID : S -> string -> result (option EvidenceRecord);
  EvidenceByReceiptID : S -> string -> result (option EvidenceRecord);
  EvidenceByIdempotencyKey : S -> string -> result (option EvidenceRecord);
  EvidenceByQCHash : S -> string -> result (option EvidenceRecord);
  ListEvidence : S -> result (list EvidenceRecord);
  RecentEvidence : S -> Z -> result (list EvidenceRecord);
  SaveAudit : S -> AuditRecord -> S * result unit;
  ListAudit : S -> Z -> result (list AuditRecord)
}.

(** ** The in-memory store *)

Record MemoryStore := mkMemoryStore {
  ms_state : ValidatorState;
  ms_hasState : bool;
  ms_commits : gmap Z CommitRecord;
  ms_idempotency : gmap string IdempotencyRecord;
  ms_snapshots : list SnapshotRecord;
  ms_evidence : gmap string EvidenceRecord;
  ms_receipts : gmap string string;
  ms_evidenceByQ : gmap string string;
  ms_evidenceByI : gmap string string;
  ms_audit : list AuditRecord
}.

Definition zero_state : ValidatorState := mkValidatorState "" "" 0 0 "" "" 0 0 "" 0 "" "" "" 0.

Definition NewMemoryStore : MemoryStore := mkMemoryStore zero_state false ∅ ∅ [] ∅ ∅ ∅ ∅ [].

Definition set_state (state : ValidatorState) (s : MemoryStore) : MemoryStore :=
  mkMemoryStore state true (ms_commits s) (ms_idempotency s) (ms_snapshots s) (ms_evidence s)
    (ms_receipts s) (ms_evidenceByQ s) (ms_evidenceByI s) (ms_audit s).

Definition set_commits (commits : gmap Z CommitRecord) (s : MemoryStore) : MemoryStore :=
  mkMemoryStore (ms_state s) (ms_hasState s) commits (ms_idempotency s) (ms_snapshots s)
    (ms_evidence s) (ms_receipts s) (ms_evidenceByQ s) (ms_evidenceByI s) (ms_audit s).

Definition set_idempotency (i : gmap string IdempotencyRecord) (s : MemoryStore) : MemoryStore :=
  mkMemoryStore (ms_state s) (ms_hasState s) (ms_commits s) i (ms_snapshots s) (ms_evidence s)
    (ms_receipts s) (ms_evidenceByQ s) (ms_evidenceByI s) (ms_audit s).

Definition set_snapshots (l : list SnapshotRecord) (s : MemoryStore) : MemoryStore :=
  mkMemoryStore (ms_state s) (ms_hasState s) (ms_commits s) (ms_idempotency s) l (ms_evidence s)
    (ms_receipts s) (ms_evidenceByQ s) (ms_evidenceByI s) (ms_audit s).

Definition set_evidence (evidence : gmap string EvidenceRecord) (receipts byQ byI : gmap string string)
  (s : MemoryStore) : MemoryStore :=
  mkMemoryStore (ms_state s) (ms_hasState s) (ms_commits s) (ms_idempotency s) (ms_snapshots s)
    evidence receipts byQ byI (ms_audit s).

Definition set_audit (l : list AuditRecord) (s : MemoryStore) : MemoryStore :=
  mkMemoryStore (ms_state s) (ms_hasState s) (ms_commits s) (ms_idempotency s) (ms_snapshots s)
    (ms_evidence s) (ms_receipts s) (ms_evidenceByQ s) (ms_evidenceByI s) l.

(** [heights[:limit]] and the like: a limit that is not positive is no limit. *)
Definition limited {A} (limit : Z) (l : list A) : list A :=
  if (0 <? limit) && (limit <? Z.of_nat (length l)) then take (Z.to_nat limit) l else l.

(** The heights are compared as [int]s. *)
Definition sortedCommitRecords (commits : gmap Z CommitRecord) (ascending : bool) (limit : Z)
  : list CommitRecord :=
  let heights := merge_sort Z.le (map i64 (keys commits)) in
  let heights := if ascending then heights else rev heights in
  omap (fun h => commits !! u64 h) (limited limit heights).

(** The order of [RecentEvidence]: newest first, then the larger id first. *)
Definition evidence_before (a b : EvidenceRecord) : Prop :=
  if er_CreatedAtUnixMilli a =? er_CreatedAtUnixMilli b
  then String.le (er_EvidenceID b) (er_EvidenceID a)
  else er_CreatedAtUnixMilli b < er_CreatedAtUnixMilli a.

#[export] Instance evidence_before_dec : RelDecision evidence_before.
Proof. intros a b. unfold evidence_before. destruct (_ =? _); apply _. Defined.

Module Memory.

Definition LoadValidatorState (s : MemoryStore) : result (option ValidatorState) :=
  Ok (if ms_hasState s then Some (ms_state s) else None).

Definition SaveValidatorState (s : MemoryStore) (state : ValidatorState) : MemoryStore * result unit :=
  (set_state state s, Ok tt).

Definition SaveCommit (s : MemoryStore) (record : CommitRecord) (state : ValidatorState)
  : MemoryStore * result unit :=
  match ms_commits s !! cr_Height record with
  | Some existing =>
      if negb (String.eqb (cr_BlockHash existing) (cr_BlockHash record))
      then (s, fail ("conflicting commit at height " ++ itoa (cr_Height record))%string)
      else (set_state state s, Ok tt)
  | None =>
      (set_state state (set_commits (<[cr_Height record := record]> (ms_commits s)) s), Ok tt)
  end.

Definition ListCommits (s : MemoryStore) : result (list CommitRecord) :=
  Ok (sortedCommitRecords (ms_commits s) true 0).

Definition RecentCommits (s : MemoryStore) (limit : Z) : result (list CommitRecord) :=
  Ok (sortedCommitRecords (ms_commits s) false limit).

Definition Commit (s : MemoryStore) (height : Z) : result (option CommitRecord) :=
  Ok (ms_commits s !! height).

Definition RecordIdempotency (s : MemoryStore) (now : Time) (id resultHash : string)
  : MemoryStore * result (bool * string) :=
  match ms_idempotency s !! id with
  | Some existing => (s, Ok (false, ir_ResultHash existing))
  | None =>
      (set_idempotency (<[id := mkIdempotencyRecord id resultHash (UnixMilli now)]> (ms_idempotency s)) s,
       Ok (true, resultHash))
  end.

Definition IdempotencyResult (s : MemoryStore) (id : string) : result (option string) :=
  Ok (ir_ResultHash <$> ms_idempotency s !! id).

Definition IdempotencyCount (s : MemoryStore) : result Z := Ok (Z.of_nat (size (ms_idempotency s))).

Definition SaveSnapshot (s : MemoryStore) (record : SnapshotRecord) : MemoryStore * result unit :=
  (set_snapshots (ms_snapshots s ++ [record])%list s, Ok tt).

Definition ListSnapshots (s : MemoryStore) : result (list SnapshotRecord) := Ok (ms_snapshots s).

(** [s.evidence[id]] of an absent id is the zero record. *)
Definition evidence_at (s : MemoryStore) (id : string) : EvidenceRecord :=
  default zero_evidence (ms_evidence s !! id).

Definition SaveEvidence (s : MemoryStore) (record : EvidenceRecord)
  : MemoryStore * (bool * EvidenceRecord * option error) :=
  match ms_evidence s !! er_EvidenceID record with
  | Some existing =>
      if negb (String.eqb (er_ReceiptID existing) (er_ReceiptID record))
      then (s, (false, existing,
                Some (errors_New ("conflicting evidence record for " ++ er_EvidenceID record)%string)))
      else (s, (false, existing, None))
  | None =>
      match (if negb (String.eqb (er_IdempotencyKey record) "")
             then ms_evidenceByI s !! er_IdempotencyKey record else None) with
      | Some evidenceID => (s, (false, evidence_at s evidenceID, None))
      | None =>
          let conflict :=
            match ms_receipts s !! er_ReceiptID record with
            | Some existingID =>
                if negb (String.eqb existingID (er_EvidenceID record)) then Some existingID else None
            | None => None
            end in
          match conflict with
          | Some existingID =>
              (s, (false, evidence_at s existingID,
                   Some (errors_New ("conflicting receipt id " ++ er_ReceiptID record)%string)))
          | None =>
              (set_evidence
                 (<[er_EvidenceID record := record]> (ms_evidence s))
                 (<[er_ReceiptID record := er_EvidenceID record]> (ms_receipts s))
                 (if negb (String.eqb (er_QCHash record) "")
                  then <[er_QCHash record := er_EvidenceID record]> (ms_evidenceByQ s)
                  else ms_evidenceByQ s)
                 (if negb (String.eqb (er_IdempotencyKey record) "")
                  then <[er_IdempotencyKey record := er_EvidenceID record]> (ms_evidenceByI s)
                  else ms_evidenceByI s) s,
               (true, record, None))
          end
      end
  end.

Definition EvidenceByID (s : MemoryStore) (evidenceID : string) : result (option EvidenceRecord) :=
  Ok (ms_evidence s !! evidenceID).

Definition EvidenceByReceiptID (s : MemoryStore) (receiptID : string)
  : result (option EvidenceRecord) :=
  Ok (evidenceID ← ms_receipts s !! receiptID; ms_evidence s !! evidenceID).

Definition EvidenceByIdempotencyKey (s : MemoryStore) (idempotencyKey : string)
  : result (option EvidenceRecord) :=
  Ok (evidenceID ← ms_evidenceByI s !! idempotencyKey; ms_evidence s !! evidenceID).

Definition EvidenceByQCHash (s : MemoryStore) (qcHash : string) : result (option EvidenceRecord) :=
  Ok (evidenceID ← ms_evidenceByQ s !! qcHash; ms_evidence s !! evidenceID).

Definition ListEvidence (s : MemoryStore) : result (list EvidenceRecord) :=
  Ok (sorted_values (ms_evidence s)).

Definition RecentEvidence (s : MemoryStore) (limit : Z) : result (list EvidenceRecord) :=
  Ok (limited limit (merge_sort evidence_before (map_to_list (ms_evidence s)).*2)).

Definition SaveAudit (s : MemoryStore) (record : AuditRecord) : MemoryStore * result unit :=
  (set_audit (ms_audit s ++ [record])%list s, Ok tt).

Definition ListAudit (s : MemoryStore) (limit : Z) : result (list AuditRecord) :=
  let n := Z.of_nat (length (ms_audit s)) in
  let limit := if (limit <=? 0) || (n <? limit) then n else limit in
  Ok (take (Z.to_nat limit) (rev (ms_audit s))).

End Memory.

#[export] Instance memory_store : ValidatorStore MemoryStore := {
  LoadValidatorState := Memory.LoadValidatorState;
  SaveValidatorState := Memory.SaveValidatorState;
  SaveCommit := Memory.SaveCommit;
  ListCommits := Memory.ListCommits;
  RecentCommits := Memory.RecentCommits;
  Commit := Memory.Commit;
  RecordIdempotency := Memory.RecordIdempotency;
  IdempotencyResult := Memory.IdempotencyResult;
  IdempotencyCount := Memory.IdempotencyCount;
  SaveSnapshot := Memory.SaveSnapshot;
  ListSnapshots := Memory.ListSnapshots;
  SaveEvidence := Memory.SaveEvidence;
  EvidenceByID := Memory.EvidenceByID;
  EvidenceByReceiptID := Memory.EvidenceByReceiptID;
  EvidenceByIdempotencyKey := Memory.EvidenceByIdempotencyKey;
  EvidenceByQCHash := Memory.EvidenceByQCHash;
  ListEvidence := Memory.ListEvidence;
  RecentEvidence := Memory.RecentEvidence;
  SaveAudit := Memory.SaveAudit;
  ListAudit := Memory.ListAudit
}.

(** ** The idempotency ledger *)

Definition IdempotencyLedger := gmap string string.

Definition NewIdempotencyLedger : IdempotencyLedger := ∅.

Definition Ledger_Apply (l : IdempotencyLedger) (id resultHash : string) : IdempotencyLedger * bool :=
  match l !! id with
  | Some _ => (l, false)
  | None => (<[id := resultHash]> l, true)
  end.

Definition Ledger_Result (l : IdempotencyLedger) (id : string) : option string := l !! id.

Definition Ledger_Count (l : IdempotencyLedger) : Z := Z.of_nat (size l).

(** ** The laws of the interface

    What the node's theorems rely on: the commits and the validator state a
    store holds, how [SaveCommit] changes them, and that nothing else does. *)
Definition commits_wf (m : gmap Z CommitRecord) : Prop :=
  forall h r, m !! h = Some r -> 0 <= h < 2 ^ 63 /\ cr_Height r = h.

Class StoreLaws (S : Type) `{ValidatorStore S} := {
  committed : S -> gmap Z CommitRecord;
  saved_state : S -> option ValidatorState;
  SaveCommit_law s record state s' :
    SaveCommit s record state = (s', Ok tt) ->
    (forall old, committed s !! cr_Height record = Some old ->
       cr_BlockHash old = cr_BlockHash record) /\
    committed s' = match committed s !! cr_Height record with
                   | Some _ => committed s
                   | None => <[cr_Height record := record]> (committed s)
                   end /\
    saved_state s' = Some state;
  ListCommits_law s l :
    ListCommits s = Ok l -> commits_wf (committed s) ->
    StronglySorted Z.le (map cr_Height l) /\ NoDup (map cr_Height l) /\
    (forall r, r ∈ l <-> exists h, committed s !! h = Some r);
  LoadValidatorState_law s v : LoadValidatorState s = Ok v -> v = saved_state s;
  SaveEvidence_frame s record :
    committed (SaveEvidence s record).1 = committed s /\
    saved_state (SaveEvidence s record).1 = saved_state s;
  SaveAudit_frame s record :
    committed (SaveAudit s record).1 = committed s /\
    saved_state (SaveAudit s record).1 = saved_state s
}.

(** A store that does not fail: its reads return, and it saves a commit at a
    height it holds none for. *)
Class ReliableStore (S : Type) `{StoreLaws S} := {
  ListCommits_total s : exists l, ListCommits s = Ok l;
  LoadValidatorState_total s : exists v, LoadValidatorState s = Ok v;
  SaveCommit_accepts s record state :
    committed s !! cr_Height record = None -> exists s', SaveCommit s record state = (s', Ok tt)
}.

(** ** The order of the commit records *)

Lemma i64_small z : 0 <= z < 2 ^ 63 -> i64 z = z.
Proof.
  intros Hz. unfold i64, two64. cbv zeta.
  rewrite Z.mod_small by lia. by rewrite (proj2 (Z.ltb_lt _ _)) by lia.
Qed.

Lemma limited_all {A} (l : list A) : limited 0 l = l.
Proof. done. Qed.

Lemma elem_of_keysZ {V} (m : gmap Z V) k : k ∈ keys m <-> is_Some (m !! k).
Proof.
  unfold keys. rewrite list_elem_of_fmap. split.
  - intros ([k' v] & -> & Hin%elem_of_map_to_list). by exists v.
  - intros [v Hv]. exists (k, v). by rewrite elem_of_map_to_list.
Qed.

(** The heights in the order the records are listed in. *)
Lemma sorted_heights (m : gmap Z CommitRecord) :
  commits_wf m -> merge_sort Z.le (map i64 (keys m)) ≡ₚ keys m.
Proof.
  intros Hr. rewrite merge_sort_Permutation.
  rewrite (map_ext_in _ id); [by rewrite map_id|].
  intros h Hh. apply list_elem_of_In, elem_of_keysZ in Hh as [r Hh].
  apply i64_small, (Hr h r Hh).
Qed.

Lemma omap_lookup_heights (m : gmap Z CommitRecord) (hs : list Z) :
  commits_wf m -> Forall (fun h => is_Some (m !! h)) hs ->
  map cr_Height (omap (fun h => m !! u64 h) hs) = hs.
Proof.
  intros Hwf Hhs. induction Hhs as [|h hs [r Hr] _ IH]; [done|].
  destruct (Hwf h r Hr) as [Hh Hk].
  cbn. rewrite u64_small, Hr by (unfold is_u64, two64; lia). cbn. by rewrite Hk, IH.
Qed.

Section sorted_commits.
Context (m : gmap Z CommitRecord) (Hwf : commits_wf m).

Let heights := merge_sort Z.le (map i64 (keys m)).

Lemma heights_good : Forall (fun h => is_Some (m !! h)) heights.
Proof using Hwf.
  apply Forall_forall. intros h Hh.
  unfold heights in Hh. rewrite sorted_heights in Hh by done. by apply elem_of_keysZ.
Qed.

(** All the records, each once, in increasing order of height. *)
Lemma sortedCommitRecords_ascending :
  StronglySorted Z.le (map cr_Height (sortedCommitRecords m true 0)) /\
  NoDup (map cr_Height (sortedCommitRecords m true 0)) /\
  (forall r, r ∈ sortedCommitRecords m true 0 <-> exists h, m !! h = Some r).
Proof using Hwf.
  unfold sortedCommitRecords. cbv zeta. rewrite limited_all. fold heights.
  rewrite omap_lookup_heights by (apply heights_good || done). split_and!.
  - apply StronglySorted_merge_sort; apply _.
  - unfold heights. rewrite sorted_heights by done. apply NoDup_fst_map_to_list.
  - intros r. rewrite list_elem_of_omap. split.
    + intros (h & _ & Hr). by eexists.
    + intros [h Hr]. exists h. destruct (Hwf h r Hr).
      rewrite u64_small by (unfold is_u64, two64; lia). split; [|done].
      unfold heights. rewrite sorted_heights by done. apply elem_of_keysZ. by exists r.
Qed.
End sorted_commits.

(** When [SaveEvidence] stores a record. *)
Definition evidence_fresh (s : MemoryStore) (r : EvidenceRecord) : Prop :=
  ms_evidence s !! er_EvidenceID r = None /\
  (er_IdempotencyKey r <> "" -> ms_evidenceByI s !! er_IdempotencyKey r = None) /\
  (forall id, ms_receipts s !! er_ReceiptID r = Some id -> id = er_EvidenceID r).

Lemma SaveEvidence_cases s r :
  (exists existing err, SaveEvidence s r = (s, (false, existing, err)) /\ ~ evidence_fresh s r) \/
  (evidence_fresh s r /\
   SaveEvidence s r =
     (set_evidence (<[er_EvidenceID r := r]> (ms_evidence s))
        (<[er_ReceiptID r := er_EvidenceID r]> (ms_receipts s))
        (if negb (String.eqb (er_QCHash r) "")
         then <[er_QCHash r := er_EvidenceID r]> (ms_evidenceByQ s) else ms_evidenceByQ s)
        (if negb (String.eqb (er_IdempotencyKey r) "")
         then <[er_IdempotencyKey r := er_EvidenceID r]> (ms_evidenceByI s)
         else ms_evidenceByI s) s,
      (true, r, None))).
Proof.
  unfold evidence_fresh. cbn. unfold Memory.SaveEvidence. cbv zeta.
  destruct (ms_evidence s !! er_EvidenceID r) as [old|] eqn:E1.
  { left. destruct (negb _); eexists _, _; (split; [done|]); naive_solver. }
  destruct (String.eqb_spec (er_IdempotencyKey r) "") as [Hk|Hk]; cbn [negb];
    [|destruct (ms_evidenceByI s !! er_IdempotencyKey r) as [id|] eqn:E2;
      [left; eexists _, _; split; [done|]; naive_solver|]];
  (destruct (ms_receipts s !! er_ReceiptID r) as [id|] eqn:E3;
    [destruct (String.eqb_spec id (er_EvidenceID r)); cbn [negb];
      [right; split; [naive_solver|done]|left; eexists _, _; split; [done|]; naive_solver]
    |right; split; [naive_solver|done]]).
Qed.

#[export] Instance memory_store_laws : StoreLaws MemoryStore.
Proof.
  refine {| committed := ms_commits;
            saved_state s := if ms_hasState s then Some (ms_state s) else None |}.
  - intros s record state s'. cbn. unfold Memory.SaveCommit.
    destruct (ms_commits s !! cr_Height record) as [old|] eqn:E.
    + destruct (String.eqb_spec (cr_BlockHash old) (cr_BlockHash record)); [|done].
      cbn. intros [= <-]. cbn. split_and!; [intros ? [= <-]|..]; done.
    + intros [= <-]. done.
  - intros s l [= <-] Hwf. by apply sortedCommitRecords_ascending.
  - by intros s v [= <-].
  - intros s record. destruct (SaveEvidence_cases s record) as [(? & ? & -> & _)|[_ ->]]; done.
  - done.
Defined.

#[export] Instance memory_store_reliable : ReliableStore MemoryStore.
Proof.
  constructor; intros s; [by eexists..|]. intros record state. cbn.
  unfold Memory.SaveCommit. intros ->. by eexists.
Qed.

(** ** The evidence indexes *)

(** The receipt, certificate and idempotency indexes point at stored records
    that carry the indexed value, and a receipt id or an idempotency key of a
    stored record is indexed. *)
Record evidence_inv (s : MemoryStore) : Prop := {
  ei_id id r : ms_evidence s !! id = Some r -> er_EvidenceID r = id;
  ei_receipt rid id : ms_receipts s !! rid = Some id <->
    exists r, ms_evidence s !! id = Some r /\ er_ReceiptID r = rid;
  ei_qc q id : ms_evidenceByQ s !! q = Some id ->
    q <> "" /\ exists r, ms_evidence s !! id = Some r /\ er_QCHash r = q;
  ei_key k id : ms_evidenceByI s !! k = Some id <->
    k <> "" /\ exists r, ms_evidence s !! id = Some r /\ er_IdempotencyKey r = k
}.


(** Evidence records are stored once and found again. [SaveEvidence] keeps the
    indexes exact; it stores a record exactly when its id and its idempotency
    key are new and its receipt id is not another record's, and the record is
    then returned by its id, its receipt id and its idempotency key; otherwise
    the store is unchanged.  What was stored stays as it was. *)
Theorem SaveEvidence_spec s r :
  evidence_inv s ->
  let '(s', (created, returned, err)) := SaveEvidence s r in
  evidence_inv s' /\
  (created = true <-> evidence_fresh s r) /\
  (forall id old, EvidenceByID s id = Ok (Some old) -> EvidenceByID s' id = Ok (Some old)) /\
  (created = true -> err = None /\ returned = r /\
     EvidenceByID s' (er_EvidenceID r) = Ok (Some r) /\
     EvidenceByReceiptID s' (er_ReceiptID r) = Ok (Some r) /\
     (er_IdempotencyKey r <> "" ->
      EvidenceByIdempotencyKey s' (er_IdempotencyKey r) = Ok (Some r))) /\
  (created = false -> s' = s).
Proof.
  intros Hinv. destruct (SaveEvidence_cases s r) as [(old & err & -> & Hnf)|[Hf ->]].
  { split_and!; done. }
  destruct Hf as (Hid & Hkey & Hrec). destruct Hinv as [Hi Hr Hq Hk].
  assert (Hlift : forall id P, id <> er_EvidenceID r ->
    (exists r', <[er_EvidenceID r := r]> (ms_evidence s) !! id = Some r' /\ P r') <->
    (exists r', ms_evidence s !! id = Some r' /\ P r')).
  { intros id P Hne. by rewrite lookup_insert_ne. }
  assert (Hself : forall P : EvidenceRecord -> Prop,
    (exists r', <[er_EvidenceID r := r]> (ms_evidence s) !! er_EvidenceID r = Some r' /\ P r') <-> P r).
  { intros P. rewrite lookup_insert_eq. naive_solver. }
  split_and!.
  - constructor; cbn.
    + intros id r'. rewrite lookup_insert_Some. naive_solver.
    + intros rid id. rewrite lookup_insert_Some. destruct (decide (id = er_EvidenceID r)) as [->|Hne].
      * rewrite Hself, Hr. split; [|naive_solver]. intros [[? _]|[_ (r' & Hr' & _)]]; congruence.
      * rewrite Hlift, Hr by done. split; [naive_solver|]. intros (r' & Hr' & <-).
        right. split; [|eauto]. intros E. apply Hne. apply Hrec. rewrite E. apply Hr. eauto.
    + intros q id. destruct (String.eqb_spec (er_QCHash r) "") as [Eq|Eq]; cbn [negb].
      * intros (? & r' & Hr' & ?)%Hq. rewrite lookup_insert_ne by congruence. eauto.
      * rewrite lookup_insert_Some. intros [[<- <-]|[Hne (? & r' & Hr' & ?)%Hq]].
        -- rewrite lookup_insert_eq. eauto.
        -- rewrite lookup_insert_ne by congruence. eauto.
    + intros k id. destruct (String.eqb_spec (er_IdempotencyKey r) "") as [Ek|Ek]; cbn [negb];
        rewrite ?lookup_insert_Some; (destruct (decide (id = er_EvidenceID r)) as [->|Hne];
          [rewrite Hself|rewrite Hlift by done]); rewrite Hk.
      * split; [intros (_ & r' & Hr' & _)|intros []]; congruence.
      * done.
      * split; [|by intros [? <-]; left]. intros [[<- _]|(_ & _ & r' & Hr' & _)]; [done|congruence].
      * split; [intros [[_ ?]|[_ ?]]; [congruence|done]|]. intros (Hne' & r' & Hr' & <-).
        right. split; [|eauto]. intros E. specialize (Hkey Ek). rewrite E in Hkey.
        assert (ms_evidenceByI s !! er_IdempotencyKey r' = Some id) by (apply Hk; eauto). congruence.
  - done.
  - cbn. unfold Memory.EvidenceByID. cbn. intros id old [= Hold].
    by rewrite lookup_insert_ne, Hold by congruence.
  - intros _. cbn. unfold Memory.EvidenceByID, Memory.EvidenceByReceiptID,
      Memory.EvidenceByIdempotencyKey. cbn. rewrite !lookup_insert_eq. cbn.
    rewrite lookup_insert_eq. split_and!; try done. intros Hne.
    destruct (String.eqb_spec (er_IdempotencyKey r) ""); [done|]. cbn [negb].
    rewrite lookup_insert_eq. cbn. by rewrite lookup_insert_eq.
  - done.
Qed.

(** a logical operation is applied once: the first [RecordIdempotency] of an id
    reports it as applied and every later one, whatever result it brings,
    reports the first result and leaves the ledger alone; other ids are not
    affected. *)
Theorem RecordIdempotency_once (s : MemoryStore) now id result_hash :
  IdempotencyResult s id = Ok None ->
  let '(s1, r1) := RecordIdempotency s now id result_hash in
  r1 = Ok (true, result_hash) /\
  IdempotencyCount s1 = Ok (Z.of_nat (size (ms_idempotency s)) + 1) /\
  (forall now' other, RecordIdempotency s1 now' id other = (s1, Ok (false, result_hash))) /\
  (forall id', id' <> id -> IdempotencyResult s1 id' = IdempotencyResult s id').
Proof.
  cbn. unfold Memory.IdempotencyResult, Memory.RecordIdempotency, Memory.IdempotencyCount.
  destruct (ms_idempotency s !! id) as [r|] eqn:E; [done|]. intros _. cbn. split_and!.
  - done.
  - rewrite map_size_insert_None by done. f_equal. lia.
  - intros now' other. by rewrite lookup_insert_eq.
  - intros id' Hne. by rewrite lookup_insert_ne.
Qed.

(** *** Witnesses *)

Lemma evidence_inv_new : evidence_inv NewMemoryStore.
Proof.
  constructor; cbn; intros; rewrite ?lookup_empty in *; try done;
    (split; [done|intros; destruct_and?; naive_solver]).
Qed.

Lemma SaveEvidence_spec_witness :
  let r := mkEvidenceRecord "e1" "r1" "e1" "q1" 1 "org" "k1" "{}" 5 in
  let s1 := (SaveEvidence NewMemoryStore r).1 in
  EvidenceByIdempotencyKey s1 "k1" = Ok (Some r) /\
  (SaveEvidence s1 (mkEvidenceRecord "e2" "r1" "e2" "q2" 2 "org" "k2" "{}" 6)).1 = s1.
Proof.
  intros r s1. pose proof (SaveEvidence_spec NewMemoryStore r evidence_inv_new) as H.
  split; [|reflexivity]. apply H; done.
Defined.

Lemma RecordIdempotency_once_witness :
  (RecordIdempotency NewMemoryStore (mkTime 7 "") "tx-1" "h1").2 = Ok (true, "h1").
Proof. apply (RecordIdempotency_once NewMemoryStore (mkTime 7 "") "tx-1" "h1"). reflexivity. Defined.
