(* ===== verification/Consortium.v ===== *)
(** * The consortium manifest: core/consortium/manifest.go

    The list of the validators that form a consortium, its validation, its
    hash, the identities it gives, and the history of manifests a node keeps so
    that commits of earlier memberships stay verifiable. *)

From S2P Require Import Prelude Sha256 Json JsonParse JsonDecode Identity.
Local Open Scope Z_scope.

Definition SchemaVersion : string := "pq-fabric.consortium.v1".

Record ValidatorRecord := mkValidatorRecord {
  vr_ID : string;
  vr_Operator : string;
  vr_Region : string;
  vr_PublicURL : string;
  vr_SignatureAlgorithm : string;
  vr_SignaturePublicKey : string;
  vr_SignatureKeyFingerprint : string;
  vr_KEMAlgorithm : string;
  vr_KEMPublicKey : string;
  vr_KEMKeyFingerprint : string;
  vr_KeyID : string;
  vr_SigningKeyRef : string;
  vr_TLSURISAN : string;
  vr_Active : bool
}.

Record Manifest := mkManifest {
  mf_SchemaVersion : string;
  mf_ConsortiumID : string;
  mf_MembershipVersion : Z;
  mf_QuorumThreshold : Z;
  mf_Validators : list ValidatorRecord
}.

Record History := mkHistory {
  hi_Manifests : list Manifest;
  hi_byHash : gmap string Manifest;
  hi_byVersion : gmap Z Manifest
}.

Definition empty_history : History := mkHistory [] ∅ ∅.

Definition ValidatorRecord_json (r : ValidatorRecord) : json :=
  JObj ([("id", JStr (vr_ID r)); ("operator", JStr (vr_Operator r)); ("region", JStr (vr_Region r));
         ("public_url", JStr (vr_PublicURL r));
         ("signature_algorithm", JStr (vr_SignatureAlgorithm r));
         ("signature_public_key", JStr (vr_SignaturePublicKey r));
         ("signature_key_fingerprint", JStr (vr_SignatureKeyFingerprint r));
         ("kem_algorithm", JStr (vr_KEMAlgorithm r)); ("kem_public_key", JStr (vr_KEMPublicKey r));
         ("kem_key_fingerprint", JStr (vr_KEMKeyFingerprint r)); ("key_id", JStr (vr_KeyID r))] ++
        omit_str "signing_key_ref" (vr_SigningKeyRef r) ++
        [("tls_uri_san", JStr (vr_TLSURISAN r)); ("active", JBool (vr_Active r))])%list.

Definition Manifest_json (m : Manifest) : json :=
  JObj [("schema_version", JStr (mf_SchemaVersion m)); ("consortium_id", JStr (mf_ConsortiumID m));
        ("membership_version", JInt (mf_MembershipVersion m));
        ("quorum_threshold", JInt (mf_QuorumThreshold m));
        ("validators", list_json ValidatorRecord_json (mf_Validators m))].

Definition ErrInvalidManifest : string := "consortium.ErrInvalidManifest".

(** [fmt.Errorf("%w: text", ErrInvalidManifest)]. *)
Definition invalid {A} (text : string) : result A :=
  Err (wrap_err ErrInvalidManifest "invalid consortium manifest" text).

Definition ExpectedTLSURISAN (consortiumID validatorID : string) : string :=
  ("spiffe://" ++ TrimSpace consortiumID ++ "/validator/" ++ TrimSpace validatorID)%string.

(** ** Validation *)

(** The checks of one active record, [id] its trimmed identifier. *)
Definition validate_active (m : Manifest) (id : string) (r : ValidatorRecord) : result unit :=
  if String.eqb (TrimSpace (vr_Operator r)) "" then
    invalid ("active validator " ++ id ++ " operator required")%string
  else if String.eqb (TrimSpace (vr_Region r)) "" then
    invalid ("active validator " ++ id ++ " region required")%string
  else if String.eqb (TrimSpace (vr_SignatureAlgorithm r)) "" ||
          String.eqb (TrimSpace (vr_KEMAlgorithm r)) "" then
    invalid ("validator " ++ id ++ " algorithms required")%string
  else if String.eqb (TrimSpace (vr_SignaturePublicKey r)) "" ||
          String.eqb (TrimSpace (vr_KEMPublicKey r)) "" then
    invalid ("validator " ++ id ++ " public keys required")%string
  else
    match Base64.DecodeString (vr_SignaturePublicKey r) with
    | Err _ => invalid ("validator " ++ id ++ " signature public key must be base64")%string
    | Ok signaturePublic =>
        match Base64.DecodeString (vr_KEMPublicKey r) with
        | Err _ => invalid ("validator " ++ id ++ " KEM public key must be base64")%string
        | Ok kemPublic =>
            if String.eqb (TrimSpace (vr_SignatureKeyFingerprint r)) "" ||
               String.eqb (TrimSpace (vr_KEMKeyFingerprint r)) "" ||
               String.eqb (TrimSpace (vr_KeyID r)) "" then
              invalid ("validator " ++ id ++ " key fingerprints required")%string
            else if negb (String.eqb (vr_SignatureKeyFingerprint r)
                            (PublicKeyFingerprint (vr_SignatureAlgorithm r) signaturePublic)) then
              invalid ("validator " ++ id ++ " signature fingerprint mismatch")%string
            else if negb (String.eqb (vr_KEMKeyFingerprint r)
                            (PublicKeyFingerprint (vr_KEMAlgorithm r) kemPublic)) then
              invalid ("validator " ++ id ++ " KEM fingerprint mismatch")%string
            else if negb (String.eqb (vr_KeyID r)
                            (ValidatorKeyID id (vr_SignatureAlgorithm r) signaturePublic
                               (vr_KEMAlgorithm r) kemPublic)) then
              invalid ("validator " ++ id ++ " key id mismatch")%string
            else if vr_Active r && negb (String.eqb (TrimSpace (vr_TLSURISAN r))
                                           (ExpectedTLSURISAN (mf_ConsortiumID m) id)) then
              invalid ("active validator " ++ id ++ " TLS URI SAN must be " ++
                       ExpectedTLSURISAN (mf_ConsortiumID m) id)%string
            else Ok tt
        end
    end.

(** The loop over the records: the ids seen and the number of active ones. *)
Fixpoint validate_records (m : Manifest) (seen : gset string) (activeCount : Z)
  (records : list ValidatorRecord) : result Z :=
  match records with
  | [] => Ok activeCount
  | r :: rest =>
      let id := TrimSpace (vr_ID r) in
      if String.eqb id "" then invalid "validator id required"
      else if bool_decide (id ∈ seen) then invalid ("duplicate validator id " ++ id)%string
      else if negb (vr_Active r) then validate_records m ({[id]} ∪ seen) activeCount rest
      else
        _ ← validate_active m id r;
        validate_records m ({[id]} ∪ seen) (activeCount + 1) rest
  end.

Definition Validate (m : Manifest) : result unit :=
  if negb (String.eqb (TrimSpace (mf_SchemaVersion m)) SchemaVersion) then
    invalid ("unsupported schema version " ++ Quote (mf_SchemaVersion m))%string
  else if String.eqb (TrimSpace (mf_ConsortiumID m)) "" then invalid "consortium id required"
  else if mf_MembershipVersion m =? 0 then invalid "membership version must be positive"
  else if mf_QuorumThreshold m <=? 0 then invalid "quorum threshold must be positive"
  else if bool_decide (mf_Validators m = []) then invalid "validators required"
  else
    activeCount ← validate_records m ∅ 0 (mf_Validators m);
    if activeCount <? mf_QuorumThreshold m then
      invalid ("active validator count " ++ itoa activeCount ++ " below threshold " ++
               itoa (mf_QuorumThreshold m))%string
    else Ok tt.

(** [Manifest.Hash]. *)
Definition Manifest_Hash (m : Manifest) : result string :=
  _ ← Validate m; HashCanonical (Manifest_json m).

(** ** Validators and identities *)

Definition TrimURL (url : string) : string := TrimRightSlash (TrimSpace url).

Definition set_record_id_url (id url : string) (r : ValidatorRecord) : ValidatorRecord :=
  mkValidatorRecord id (vr_Operator r) (vr_Region r) url (vr_SignatureAlgorithm r)
    (vr_SignaturePublicKey r) (vr_SignatureKeyFingerprint r) (vr_KEMAlgorithm r)
    (vr_KEMPublicKey r) (vr_KEMKeyFingerprint r) (vr_KeyID r) (vr_SigningKeyRef r)
    (vr_TLSURISAN r) (vr_Active r).

Definition set_record_san (san : string) (r : ValidatorRecord) : ValidatorRecord :=
  mkValidatorRecord (vr_ID r) (vr_Operator r) (vr_Region r) (vr_PublicURL r)
    (vr_SignatureAlgorithm r) (vr_SignaturePublicKey r) (vr_SignatureKeyFingerprint r)
    (vr_KEMAlgorithm r) (vr_KEMPublicKey r) (vr_KEMKeyFingerprint r) (vr_KeyID r)
    (vr_SigningKeyRef r) san (vr_Active r).

Definition trimmed_record (r : ValidatorRecord) : ValidatorRecord :=
  set_record_id_url (TrimSpace (vr_ID r)) (TrimURL (vr_PublicURL r)) r.

Definition ActiveValidators (m : Manifest) : list ValidatorRecord :=
  map trimmed_record (List.filter vr_Active (mf_Validators m)).

Definition ActiveValidatorIDs (m : Manifest) : list string := map vr_ID (ActiveValidators m).

Definition ValidatorByID (m : Manifest) (id : string) : option ValidatorRecord :=
  trimmed_record <$> List.find (fun r => String.eqb (TrimSpace (vr_ID r)) (TrimSpace id)) (mf_Validators m).

Definition PublicURLs (m : Manifest) : gmap string string :=
  foldl (fun out r => if negb (String.eqb (vr_PublicURL r) "")
                      then <[vr_ID r := vr_PublicURL r]> out else out)
    ∅ (ActiveValidators m).

Definition SortedOperators (m : Manifest) : list string :=
  sorted_keys (foldl (fun seen r => if negb (String.eqb (vr_Operator r) "")
                                    then <[vr_Operator r := tt]> seen else seen)
                 (∅ : gmap string unit) (ActiveValidators m)).

(** The identity of a record, keyed by its identifier as it is written. *)
Definition record_identity (r : ValidatorRecord) : result ValidatorIdentity :=
  signaturePublic ← Base64.DecodeString (vr_SignaturePublicKey r);
  kemPublic ← Base64.DecodeString (vr_KEMPublicKey r);
  Ok (mkIdentity (vr_ID r) (vr_Region r) (TrimURL (vr_PublicURL r)) (vr_SignatureAlgorithm r)
        signaturePublic (vr_SignatureAlgorithm r) signaturePublic (vr_KEMAlgorithm r) kemPublic
        (vr_KeyID r)).

Definition identities (activeOnly : bool) (m : Manifest) : result (gmap string ValidatorIdentity) :=
  _ ← Validate m;
  foldl (fun acc r =>
           out ← acc;
           if activeOnly && negb (vr_Active r) then Ok out
           else v ← record_identity r; Ok (<[vr_ID r := v]> out))
    (Ok ∅) (mf_Validators m).

Definition ActiveIdentities (m : Manifest) : result (gmap string ValidatorIdentity) :=
  identities true m.

Definition AllIdentities (m : Manifest) : result (gmap string ValidatorIdentity) :=
  identities false m.

Definition ValidatorRecordFromIdentity (v : ValidatorIdentity) (operator : string) (active : bool)
  : ValidatorRecord :=
  let signatureAlgorithm := SignatureAlgorithmName v in
  mkValidatorRecord (vi_ID v) (TrimSpace operator) (vi_Region v) (TrimURL (vi_PublicURL v))
    signatureAlgorithm (Base64.EncodeToString (SignaturePublicKeyBytes v))
    (PublicKeyFingerprint signatureAlgorithm (SignaturePublicKeyBytes v))
    (vi_KEMAlgorithm v) (Base64.EncodeToString (vi_KEMPublicKey v))
    (PublicKeyFingerprint (vi_KEMAlgorithm v) (vi_KEMPublicKey v))
    (vi_KeyID v) (vi_KeyID v) "" active.

Definition ManifestFromIdentities (consortiumID : string) (membershipVersion threshold : Z)
  (ids : gmap string ValidatorIdentity) (order : list string) : Manifest :=
  let order := match order with [] => DefaultValidatorIDs | _ => order end in
  mkManifest SchemaVersion consortiumID membershipVersion threshold
    (omap (fun id =>
             v ← ids !! id;
             Some (set_record_san (ExpectedTLSURISAN consortiumID id)
                     (ValidatorRecordFromIdentity v ("operator-" ++ id)%string true)))
       order).

(** The comparison of one active record with the local identity. *)
Definition against_identity (ids : gmap string ValidatorIdentity) (r : ValidatorRecord)
  : result unit :=
  match ids !! vr_ID r with
  | None => invalid ("active validator " ++ vr_ID r ++ " missing local identity")%string
  | Some v =>
      let expected := ValidatorRecordFromIdentity v (vr_Operator r) true in
      if negb (String.eqb (vr_Region r) (vr_Region expected)) then
        invalid ("validator " ++ vr_ID r ++ " region mismatch manifest=" ++ vr_Region r ++
                 " local=" ++ vr_Region expected)%string
      else if negb (String.eqb (vr_SignatureAlgorithm r) (vr_SignatureAlgorithm expected)) ||
              negb (String.eqb (vr_SignatureKeyFingerprint r) (vr_SignatureKeyFingerprint expected))
      then invalid ("validator " ++ vr_ID r ++ " signature identity mismatch")%string
      else if negb (String.eqb (vr_KEMAlgorithm r) (vr_KEMAlgorithm expected)) ||
              negb (String.eqb (vr_KEMKeyFingerprint r) (vr_KEMKeyFingerprint expected))
      then invalid ("validator " ++ vr_ID r ++ " KEM identity mismatch")%string
      else if negb (String.eqb (vr_KeyID r) (vr_KeyID expected))
      then invalid ("validator " ++ vr_ID r ++ " key id mismatch")%string
      else Ok tt
  end.

Definition ValidateAgainstIdentities (m : Manifest) (ids : gmap string ValidatorIdentity)
  (threshold : Z) : result unit :=
  _ ← Validate m;
  if (0 <? threshold) && negb (mf_QuorumThreshold m =? threshold) then
    invalid ("manifest threshold " ++ itoa (mf_QuorumThreshold m) ++
             " does not match configured threshold " ++ itoa threshold)%string
  else
    foldl (fun acc r => _ ← acc; against_identity ids r) (Ok tt) (ActiveValidators m).

(** [uris] are the texts of the certificate's URI names, nil pointers left out. *)
Fixpoint ValidatorIDFromTLSURIs (uris : list string) (consortiumID : string) : result string :=
  let prefix := ("spiffe://" ++ TrimSpace consortiumID ++ "/validator/")%string in
  match uris with
  | [] => invalid ("validator TLS URI SAN with prefix " ++ prefix ++ " not found")%string
  | value :: rest =>
      if negb (HasPrefix value prefix) then ValidatorIDFromTLSURIs rest consortiumID
      else
        let id := TrimSpace (TrimPrefix value prefix) in
        if String.eqb id "" || contains_byte "/"%char id
        then invalid ("malformed validator TLS URI SAN " ++ Quote value)%string
        else Ok id
  end.

(** ** The history *)

Definition version_le (a b : Manifest) : Prop := mf_MembershipVersion a <= mf_MembershipVersion b.

#[export] Instance version_le_dec : RelDecision version_le.
Proof. intros a b. unfold version_le. apply _. Defined.

Definition add_manifest (consortiumID : string) (h : History) (m : Manifest) : result History :=
  _ ← Validate m;
  if negb (String.eqb (mf_ConsortiumID m) consortiumID) then
    invalid ("manifest history mixes consortium ids " ++ Quote consortiumID ++ " and " ++
             Quote (mf_ConsortiumID m))%string
  else
    hash ← Manifest_Hash m;
    match hi_byHash h !! hash with
    | Some _ => invalid ("duplicate manifest hash " ++ hash)%string
    | None =>
        match hi_byVersion h !! mf_MembershipVersion m with
        | Some _ => invalid ("duplicate membership version " ++ itoa (mf_MembershipVersion m))%string
        | None => Ok (mkHistory (hi_Manifests h) (<[hash := m]> (hi_byHash h))
                        (<[mf_MembershipVersion m := m]> (hi_byVersion h)))
        end
    end.

Definition NewHistory (manifests : list Manifest) : result History :=
  match manifests with
  | [] => Ok empty_history
  | first :: _ =>
      h ← foldl (fun acc m => h ← acc; add_manifest (TrimSpace (mf_ConsortiumID first)) h m)
            (Ok (mkHistory manifests ∅ ∅)) manifests;
      Ok (mkHistory (merge_sort version_le manifests) (hi_byHash h) (hi_byVersion h))
  end.

(** The scan of [WithManifest]: [Some] is an early return. *)
Fixpoint scan_history (manifest : Manifest) (hash : string) (all l : list Manifest)
  : option (result History) :=
  match l with
  | [] => None
  | existing :: rest =>
      match Manifest_Hash existing with
      | Err e => Some (Err e)
      | Ok existingHash =>
          if String.eqb existingHash hash then Some (NewHistory all)
          else if mf_MembershipVersion existing =? mf_MembershipVersion manifest then
            Some (invalid ("history has version " ++ itoa (mf_MembershipVersion manifest) ++
                           " with a different hash")%string)
          else scan_history manifest hash all rest
      end
  end.

Definition WithManifest (h : History) (manifest : Manifest) : result History :=
  hash ← Manifest_Hash manifest;
  match scan_history manifest hash (hi_Manifests h) (hi_Manifests h) with
  | Some r => r
  | None => NewHistory (hi_Manifests h ++ [manifest])%list
  end.

Definition ManifestByHash (h : History) (hash : string) : option Manifest :=
  hi_byHash h !! TrimSpace hash.

Definition ManifestByVersion (h : History) (version : Z) : option Manifest :=
  hi_byVersion h !! version.

Definition Contains (h : History) (manifest : Manifest) : result bool :=
  hash ← Manifest_Hash manifest;
  Ok (match ManifestByHash h hash with Some _ => true | None => false end).

(** ** Files

    [read_file] is [os.ReadFile], [unquote] [strconv.Unquote]. *)

Definition ValidatorRecord_of (fs : list (string * json)) : result ValidatorRecord :=
  id ← get_string "id" fs;
  operator ← get_string "operator" fs;
  region ← get_string "region" fs;
  url ← get_string "public_url" fs;
  sig_alg ← get_string "signature_algorithm" fs;
  sig_key ← get_string "signature_public_key" fs;
  sig_print ← get_string "signature_key_fingerprint" fs;
  kem_alg ← get_string "kem_algorithm" fs;
  kem_key ← get_string "kem_public_key" fs;
  kem_print ← get_string "kem_key_fingerprint" fs;
  key_id ← get_string "key_id" fs;
  key_ref ← get_string "signing_key_ref" fs;
  san ← get_string "tls_uri_san" fs;
  active ← get_bool "active" fs;
  Ok (mkValidatorRecord id operator region url sig_alg sig_key sig_print kem_alg kem_key kem_print
        key_id key_ref san active).

Definition zero_record : ValidatorRecord :=
  mkValidatorRecord "" "" "" "" "" "" "" "" "" "" "" "" "" false.

Definition Manifest_of (fs : list (string * json)) : result Manifest :=
  schema ← get_string "schema_version" fs;
  id ← get_string "consortium_id" fs;
  version ← get_uint64 "membership_version" fs;
  threshold ← get_int "quorum_threshold" fs;
  validators ← get_list zero_record (dec_struct ValidatorRecord_of) "validators" fs;
  Ok (mkManifest schema id version threshold validators).

Section files.
Context (read_file : string -> result string) (unquote : string -> option string).

Definition LoadManifest (path : string) : result Manifest :=
  data ← read_file path;
  match Unmarshal Manifest_of data with
  | Err e => invalid ("parse " ++ path ++ ": " ++ err_text e)%string
  | Ok manifest => _ ← Validate manifest; Ok manifest
  end.

(** The loop of [splitPathList]: the paths seen so far, in order. *)
Fixpoint split_paths (seen : list string) (items : list string) : list string :=
  match items with
  | [] => seen
  | item :: rest =>
      let item := TrimSpace item in
      if String.eqb item "" then split_paths seen rest
      else
        let item := default item (unquote item) in
        if bool_decide (item ∈ seen) then split_paths seen rest
        else split_paths (seen ++ [item])%list rest
  end.

Definition splitPathList (raw : string) : list string := split_paths [] (SplitByte ","%char raw).

Definition LoadManifestHistory (raw : string) : result History :=
  manifests ← foldl (fun acc path =>
                       acc ← acc;
                       match LoadManifest path with
                       | Err e => Err (prefix_err ("load manifest history " ++ path)%string e)
                       | Ok manifest => Ok (acc ++ [manifest])%list
                       end) (Ok []) (splitPathList raw);
  NewHistory manifests.
End files.

(** ** Lemmas *)

(** What [Validate] requires of an active record. *)
Definition active_ok (m : Manifest) (r : ValidatorRecord) : Prop :=
  let id := TrimSpace (vr_ID r) in
  exists signaturePublic kemPublic,
    Base64.DecodeString (vr_SignaturePublicKey r) = Ok signaturePublic /\
    Base64.DecodeString (vr_KEMPublicKey r) = Ok kemPublic /\
    TrimSpace (vr_Operator r) <> "" /\ TrimSpace (vr_Region r) <> "" /\
    TrimSpace (vr_SignatureAlgorithm r) <> "" /\ TrimSpace (vr_KEMAlgorithm r) <> "" /\
    TrimSpace (vr_SignaturePublicKey r) <> "" /\ TrimSpace (vr_KEMPublicKey r) <> "" /\
    TrimSpace (vr_SignatureKeyFingerprint r) <> "" /\ TrimSpace (vr_KEMKeyFingerprint r) <> "" /\
    TrimSpace (vr_KeyID r) <> "" /\
    vr_SignatureKeyFingerprint r = PublicKeyFingerprint (vr_SignatureAlgorithm r) signaturePublic /\
    vr_KEMKeyFingerprint r = PublicKeyFingerprint (vr_KEMAlgorithm r) kemPublic /\
    vr_KeyID r = ValidatorKeyID id (vr_SignatureAlgorithm r) signaturePublic
                   (vr_KEMAlgorithm r) kemPublic /\
    TrimSpace (vr_TLSURISAN r) = ExpectedTLSURISAN (mf_ConsortiumID m) id.

#[local] Opaque PublicKeyFingerprint ValidatorKeyID.

Lemma validate_active_ok m r :
  vr_Active r = true -> validate_active m (TrimSpace (vr_ID r)) r = Ok tt <-> active_ok m r.
Proof.
  intros Ha. unfold validate_active, active_ok. rewrite Ha. cbv zeta. cbn [andb]. split.
  - intros H. run_ok H. reflect_bools.
    destruct_and?. exists a, a0. split_and!; first [assumption | reflexivity].
  - intros (sp & kp & -> & -> & H1 & H2 & H3 & H4 & H5 & H6 & H7 & H8 & H9 & E1 & E2 & E3 & E4).
    rewrite !(proj2 (String.eqb_neq _ _) H1), !(proj2 (String.eqb_neq _ _) H2),
      !(proj2 (String.eqb_neq _ _) H3), !(proj2 (String.eqb_neq _ _) H4),
      !(proj2 (String.eqb_neq _ _) H5), !(proj2 (String.eqb_neq _ _) H6),
      !(proj2 (String.eqb_neq _ _) H7), !(proj2 (String.eqb_neq _ _) H8),
      !(proj2 (String.eqb_neq _ _) H9). cbn [orb].
    by rewrite E1, E2, E3, E4, !String.eqb_refl.
Qed.

Lemma validate_records_ok m seen c rs n :
  validate_records m seen c rs = Ok n <->
  (forall r, r ∈ rs -> TrimSpace (vr_ID r) <> "" /\ TrimSpace (vr_ID r) ∉ seen /\
     (vr_Active r = true -> active_ok m r)) /\
  NoDup (map (fun r => TrimSpace (vr_ID r)) rs) /\
  n = c + Z.of_nat (length (List.filter vr_Active rs)).
Proof.
  revert seen c. induction rs as [|r rs IH]; intros seen c; cbn [validate_records map List.filter].
  { split; [intros [= <-]|intros (_ & _ & ->)]; [|f_equal; cbn; lia].
    split_and!; [by intros r ?%elem_of_nil|constructor|cbn; lia]. }
  cbv zeta. rewrite NoDup_cons. setoid_rewrite elem_of_cons.
  destruct (String.eqb_spec (TrimSpace (vr_ID r)) "") as [E|E].
  { split; [done|]. intros (H & _). by destruct (H r (or_introl eq_refl)). }
  case_bool_decide as Hseen.
  { split; [done|]. intros (H & _). by destruct (H r (or_introl eq_refl)) as (_ & ? & _). }
  assert (Hin : forall r', r' ∈ rs -> TrimSpace (vr_ID r) ∉ map (fun r => TrimSpace (vr_ID r)) rs ->
    TrimSpace (vr_ID r') <> TrimSpace (vr_ID r)).
  { intros r' Hr' Hn Heq. apply Hn. rewrite list_elem_of_fmap. eauto. }
  destruct (vr_Active r) eqn:Ea; cbn [negb].
  - destruct (validate_active m (TrimSpace (vr_ID r)) r) as [[]|e] eqn:Ev.
    + apply (validate_active_ok m r Ea) in Ev. cbn [mbind result_bind length]. rewrite IH. split.
      * intros (H & Hnd & ->). split_and!; [| |done|lia].
        -- intros r' [->|Hr']; [done|]. destruct (H r' Hr') as (? & ? & ?). set_solver.
        -- intros (r' & Heq & Hr')%list_elem_of_fmap. destruct (H r' Hr') as (_ & Hs & _). set_solver.
      * intros (H & [Hn Hnd] & ->). split_and!; [|done|lia]. intros r' Hr'.
        destruct (H r' (or_intror Hr')) as (? & ? & ?). specialize (Hin r' Hr' Hn). set_solver.
    + cbn. split; [done|]. intros (H & _). destruct (H r (or_introl eq_refl)) as (_ & _ & Ho).
      apply (validate_active_ok m r Ea) in Ho; [congruence|done].
  - rewrite IH. split.
    + intros (H & Hnd & ->). split_and!; [| |done|lia].
      * intros r' [->|Hr']; [by rewrite Ea|]. destruct (H r' Hr') as (? & ? & ?). set_solver.
      * intros (r' & Heq & Hr')%list_elem_of_fmap. destruct (H r' Hr') as (_ & Hs & _). set_solver.
    + intros (H & [Hn Hnd] & ->). split_and!; [|done|lia]. intros r' Hr'.
      destruct (H r' (or_intror Hr')) as (? & ? & ?). specialize (Hin r' Hr' Hn). set_solver.
Qed.

(** [Validate] accepts a manifest exactly when it is of the supported schema,
    names a consortium, has a positive version and threshold, its validators
    have distinct identifiers, each active one passes [active_ok], and there
    are at least [threshold] active ones. *)
Lemma Validate_ok m :
  Validate m = Ok tt <->
  TrimSpace (mf_SchemaVersion m) = SchemaVersion /\ TrimSpace (mf_ConsortiumID m) <> "" /\
  mf_MembershipVersion m <> 0 /\ 0 < mf_QuorumThreshold m /\ mf_Validators m <> [] /\
  (forall r, r ∈ mf_Validators m -> TrimSpace (vr_ID r) <> "" /\
     (vr_Active r = true -> active_ok m r)) /\
  NoDup (map (fun r => TrimSpace (vr_ID r)) (mf_Validators m)) /\
  mf_QuorumThreshold m <= Z.of_nat (length (List.filter vr_Active (mf_Validators m))).
Proof.
  unfold Validate. split.
  - intros H. run_ok H. reflect_bools.
    apply bind_ok in H as (n & (Hr & Hnd & ->)%validate_records_ok & H).
    split_guard H; [done|]. reflect_bools. rewrite bool_decide_eq_false in *.
    split_and!; try done; try lia. intros r Hin. by destruct (Hr r Hin) as (? & _ & ?).
  - intros (Hs & Hc & Hv & Ht & Hne & Hr & Hnd & Hn). rewrite Hs, String.eqb_refl. cbn [negb].
    rewrite (proj2 (String.eqb_neq _ _) Hc), (proj2 (Z.eqb_neq _ _) Hv).
    rewrite (proj2 (Z.leb_gt _ _)), bool_decide_eq_false_2 by (done || lia).
    rewrite (proj2 (validate_records_ok m ∅ 0 _ (0 + Z.of_nat (length (List.filter vr_Active (mf_Validators m)))))).
    { cbn [mbind result_bind]. by rewrite (proj2 (Z.ltb_ge _ _)) by lia. }
    split_and!; [|done|done]. intros r Hin. destruct (Hr r Hin). set_solver.
Qed.

(** The loop of [identities]. *)
Definition add_identity (activeOnly : bool) (acc : result (gmap string ValidatorIdentity))
  (r : ValidatorRecord) : result (gmap string ValidatorIdentity) :=
  out ← acc;
  if activeOnly && negb (vr_Active r) then Ok out
  else v ← record_identity r; Ok (<[vr_ID r := v]> out).

Lemma add_identities_spec rs out :
  NoDup (map vr_ID rs) ->
  (forall r, r ∈ rs -> vr_Active r = true -> is_ok (record_identity r) = true) ->
  (forall r, r ∈ rs -> out !! vr_ID r = None) ->
  exists ids, foldl (add_identity true) (Ok out) rs = Ok ids /\
    size ids = (size out + length (List.filter vr_Active rs))%nat /\
    (forall id v, ids !! id = Some v <-> out !! id = Some v \/
       exists r, r ∈ rs /\ vr_Active r = true /\ vr_ID r = id /\ record_identity r = Ok v).
Proof.
  revert out. induction rs as [|r rs IH]; intros out Hnd Hok Hfresh.
  - exists out. split_and!; [done|cbn; lia|]. intros id v. split; [by left|].
    intros [?|(r & ?%elem_of_nil & _)]; done.
  - cbn [foldl map List.filter] in *. apply NoDup_cons in Hnd as [Hn Hnd].
    assert (Hne : forall r', r' ∈ rs -> vr_ID r' <> vr_ID r).
    { intros r' Hr' E. apply Hn. rewrite list_elem_of_fmap. eauto. }
    destruct (vr_Active r) eqn:Ea.
    + pose proof (Hok r ltac:(left) Ea) as [v Hv]%is_ok_spec.
      assert (Hstep : add_identity true (Ok out) r = Ok (<[vr_ID r := v]> out)).
      { unfold add_identity. cbn [mbind result_bind]. by rewrite Ea, Hv. }
      rewrite Hstep. destruct (IH (<[vr_ID r := v]> out)) as (ids & Hf & Hsz & Hids); [done| | |].
      { intros r' Hr'. apply Hok. by right. }
      { intros r' Hr'. rewrite lookup_insert_ne by (intros E; by apply (Hne r' Hr')).
        apply Hfresh. by right. }
      exists ids. split_and!; [done| |].
      * rewrite Hsz, map_size_insert_None by (apply Hfresh; left). cbn. lia.
      * intros id w. rewrite Hids, lookup_insert_Some. split.
        -- intros [[[<- <-]|[? ?]]|(r' & ? & ? & ? & ?)].
           ++ right. exists r. split_and!; [left|done..].
           ++ by left.
           ++ right. exists r'. split_and!; [by right|done..].
        -- intros [Ho|(r' & [->|Hr']%elem_of_cons & ? & <- & Hw)].
           ++ left. right. split; [|done]. intros <-. rewrite Hfresh in Ho by left. done.
           ++ left. left. split; [done|]. congruence.
           ++ right. eauto.
    + assert (Hstep : add_identity true (Ok out) r = Ok out).
      { unfold add_identity. cbn [mbind result_bind]. by rewrite Ea. }
      rewrite Hstep. destruct (IH out) as (ids & Hf & Hsz & Hids); [done| | |].
      { intros r' Hr'. apply Hok. by right. }
      { intros r' Hr'. apply Hfresh. by right. }
      exists ids. split_and!; [done|done|]. intros id w. rewrite Hids. setoid_rewrite elem_of_cons.
      split; [naive_solver|]. intros [?|(r' & [->|?] & ? & ?)]; [by left|congruence|]. right; eauto.
Qed.

Lemma NoDup_map_trimmed rs : NoDup (map (fun r => TrimSpace (vr_ID r)) rs) -> NoDup (map vr_ID rs).
Proof. rewrite <-(map_map vr_ID TrimSpace). apply NoDup_fmap_1. Qed.

(** A valid manifest gives one identity per active validator, keyed by the
    record's id: at least [quorum_threshold] of them, each with the record's
    decoded keys, and each bound to its keys by its key id. When the ids are
    written without surrounding space, these are the validators of the
    proposer schedule. *)
Theorem ActiveIdentities_spec m :
  Validate m = Ok tt ->
  exists ids, ActiveIdentities m = Ok ids /\
    mf_QuorumThreshold m <= Z.of_nat (size ids) /\
    size ids = length (ActiveValidatorIDs m) /\
    (forall id v, ids !! id = Some v <->
       exists r, r ∈ mf_Validators m /\ vr_Active r = true /\ vr_ID r = id /\
                 record_identity r = Ok v) /\
    (forall id v, ids !! id = Some v -> vi_ID v = id /\
       vi_KeyID v = ValidatorKeyID (TrimSpace id) (vi_SignatureAlgorithm v)
                      (vi_SignaturePublicKey v) (vi_KEMAlgorithm v) (vi_KEMPublicKey v)) /\
    ((forall r, r ∈ mf_Validators m -> TrimSpace (vr_ID r) = vr_ID r) ->
     NoDup (ActiveValidatorIDs m) /\ dom ids = list_to_set (ActiveValidatorIDs m)).
Proof.
  intros Hval. pose proof Hval as (_ & _ & _ & _ & _ & Hr & Hnd & Hn)%Validate_ok.
  assert (Hrec : forall r, r ∈ mf_Validators m -> vr_Active r = true ->
    exists v, record_identity r = Ok v /\ vi_ID v = vr_ID r /\
      vi_KeyID v = ValidatorKeyID (TrimSpace (vr_ID r)) (vi_SignatureAlgorithm v)
                      (vi_SignaturePublicKey v) (vi_KEMAlgorithm v) (vi_KEMPublicKey v)).
  { intros r Hin Ha. destruct (Hr r Hin) as [_ Ho].
    destruct (Ho Ha) as (sp & kp & Hs & Hk & H). unfold record_identity. rewrite Hs, Hk.
    eexists. split; [reflexivity|]. cbn. split; [done|]. apply H. }
  destruct (add_identities_spec (mf_Validators m) ∅) as (ids & Hf & Hsz & Hids).
  { by apply NoDup_map_trimmed. }
  { intros r Hin Ha. destruct (Hrec r Hin Ha) as (v & -> & _). done. }
  { intros r _. apply lookup_empty. }
  assert (Hspec : forall id v, ids !! id = Some v <->
       exists r, r ∈ mf_Validators m /\ vr_Active r = true /\ vr_ID r = id /\
                 record_identity r = Ok v).
  { intros id v. rewrite Hids, lookup_empty. naive_solver. }
  assert (Hlen : length (ActiveValidatorIDs m) = length (List.filter vr_Active (mf_Validators m))).
  { unfold ActiveValidatorIDs, ActiveValidators. by rewrite !length_map. }
  exists ids. split_and!.
  - unfold ActiveIdentities, identities. rewrite Hval. exact Hf.
  - rewrite Hsz, map_size_empty. lia.
  - by rewrite Hsz, map_size_empty, Hlen.
  - done.
  - intros id v (r & Hin & Ha & <- & Hv)%Hspec. destruct (Hrec r Hin Ha) as (w & Hw & ? & ?).
    rewrite Hv in Hw. injection Hw as <-. done.
  - intros Htrim.
    assert (HA : ActiveValidatorIDs m = map vr_ID (List.filter vr_Active (mf_Validators m))).
    { unfold ActiveValidatorIDs, ActiveValidators. rewrite map_map. apply map_ext_in.
      intros r [Hin _]%filter_In. cbn. apply Htrim. by apply list_elem_of_In. }
    rewrite HA. split.
    + apply NoDup_map_trimmed in Hnd. clear -Hnd. induction (mf_Validators m) as [|r rs IH]; [constructor|].
      cbn in *. apply NoDup_cons in Hnd as [Hn Hnd]. destruct (vr_Active r); [|by apply IH].
      cbn. apply NoDup_cons. split; [|by apply IH]. intros (r' & E & Hr')%list_elem_of_fmap.
      apply Hn. apply list_elem_of_fmap. exists r'. split; [done|].
      apply list_elem_of_In, filter_In in Hr' as [? _]. by apply list_elem_of_In.
    + apply set_eq. intros id. rewrite elem_of_dom, elem_of_list_to_set, list_elem_of_fmap. split.
      * intros [v (r & Hin & Ha & <- & _)%Hspec]. exists r. split; [done|].
        apply list_elem_of_In, filter_In. split; [by apply list_elem_of_In|done].
      * intros (r & -> & Hr'). apply list_elem_of_In, filter_In in Hr' as [Hin%list_elem_of_In Ha].
        destruct (Hrec r Hin Ha) as (v & Hv & _). exists v. apply Hspec. eauto.
Qed.

(** *** The history *)

(** The indexes of a history are exactly its manifests, which are all valid, of
    one consortium, and in increasing order of their distinct versions. *)
Record history_ok (h : History) : Prop := {
  ho_valid m : m ∈ hi_Manifests h -> Validate m = Ok tt;
  ho_consortium m m' : m ∈ hi_Manifests h -> m' ∈ hi_Manifests h ->
    mf_ConsortiumID m = mf_ConsortiumID m';
  ho_hash hash m : hi_byHash h !! hash = Some m <->
    m ∈ hi_Manifests h /\ Manifest_Hash m = Ok hash;
  ho_version v m : hi_byVersion h !! v = Some m <->
    m ∈ hi_Manifests h /\ mf_MembershipVersion m = v;
  ho_sorted : StronglySorted version_le (hi_Manifests h);
  ho_nodup : NoDup (map mf_MembershipVersion (hi_Manifests h))
}.

Lemma Manifest_Hash_ok m hash :
  Manifest_Hash m = Ok hash <-> Validate m = Ok tt /\ hash = HashBytes (Marshal (Manifest_json m)).
Proof.
  unfold Manifest_Hash. rewrite bind_ok. split.
  - intros ([] & Hv & [= <-]). done.
  - intros [Hv ->]. by exists tt.
Qed.

Lemma add_manifest_ok cid h m h' :
  add_manifest cid h m = Ok h' <->
  Validate m = Ok tt /\ mf_ConsortiumID m = cid /\
  exists hash, Manifest_Hash m = Ok hash /\ hi_byHash h !! hash = None /\
    hi_byVersion h !! mf_MembershipVersion m = None /\
    h' = mkHistory (hi_Manifests h) (<[hash := m]> (hi_byHash h))
           (<[mf_MembershipVersion m := m]> (hi_byVersion h)).
Proof.
  unfold add_manifest. rewrite bind_ok. split.
  - intros ([] & Hv & H). split_guard H; [done|]. reflect_bools.
    apply bind_ok in H as (hash & Hh & H). run_ok H.
    injection H as <-. eauto 10.
  - intros (Hv & Hc & hash & Hh & H1 & H2 & ->). exists tt. split; [done|].
    rewrite Hc, String.eqb_refl, Hh. cbn. by rewrite H1, H2.
Qed.

(** The loop of [NewHistory]: [l] has been added to the indexes of [h]. *)
Record indexed (l : list Manifest) (h : History) : Prop := {
  ix_hash hash m : hi_byHash h !! hash = Some m <-> m ∈ l /\ Manifest_Hash m = Ok hash;
  ix_version v m : hi_byVersion h !! v = Some m <-> m ∈ l /\ mf_MembershipVersion m = v
}.

Lemma add_manifests_ok cid l h ms h' :
  indexed l h -> NoDup (map mf_MembershipVersion l) ->
  foldl (fun acc m => h ← acc; add_manifest cid h m) (Ok h) ms = Ok h' ->
  indexed (l ++ ms)%list h' /\ NoDup (map mf_MembershipVersion (l ++ ms)%list) /\
  (forall m, m ∈ ms -> Validate m = Ok tt /\ mf_ConsortiumID m = cid).
Proof.
  revert l h. induction ms as [|m ms IH]; intros l h Hix Hnd.
  { intros [= <-]. rewrite app_nil_r. split_and!; [done..|]. by intros m ?%elem_of_nil. }
  cbn [foldl]. cbn [mbind result_bind].
  destruct (add_manifest cid h m) as [h1|e] eqn:E.
  2: { intros H. exfalso. revert H. clear. induction ms as [|m' ms IH]; [done|]. exact IH. }
  apply add_manifest_ok in E as (Hv & Hc & hash & Hh & Hn1 & Hn2 & ->).
  destruct Hix as [Hix1 Hix2]. intros H.
  apply (IH (l ++ [m])%list) in H.
  - rewrite <-app_assoc in H. destruct H as (? & ? & Hms). split_and!; [done..|].
    intros m' [->|?]%elem_of_cons; auto.
  - constructor; cbn.
    + intros hash' m'. rewrite lookup_insert_Some, elem_of_app, list_elem_of_singleton, Hix1.
      split; [intros [[<- <-]|[? [? ?]]]; auto|]. intros [[Hin| ->] Hh'].
      * right. split; [|done]. intros <-. assert (Hs : hi_byHash h !! hash = Some m')
          by by apply Hix1. congruence.
      * left. split; [congruence|done].
    + intros v m'. rewrite lookup_insert_Some, elem_of_app, list_elem_of_singleton, Hix2.
      split; [intros [[<- <-]|[? [? ?]]]; auto|]. intros [[Hin| ->] Hv'].
      * right. split; [|done]. intros <-.
        assert (Hs : hi_byVersion h !! mf_MembershipVersion m = Some m') by by apply Hix2.
        congruence.
      * by left.
  - rewrite map_app. apply NoDup_app. split_and!; [done| |apply NoDup_singleton].
    intros v Hv1 Hv2. apply list_elem_of_singleton in Hv2 as ->.
    apply list_elem_of_fmap in Hv1 as (m' & E & Hin).
    assert (Hs : hi_byVersion h !! mf_MembershipVersion m = Some m') by by apply Hix2.
    congruence.
Qed.

Lemma NewHistory_ok ms h :
  NewHistory ms = Ok h -> history_ok h /\ hi_Manifests h ≡ₚ ms.
Proof.
  unfold NewHistory. destruct ms as [|first ms0] eqn:Ems.
  { intros [= <-]. split; [|done]. constructor; cbn.
    - by intros m Hm%elem_of_nil.
    - by intros m m' Hm%elem_of_nil.
    - intros hash m. rewrite lookup_empty. split; [done|]. by intros [Hm%elem_of_nil _].
    - intros v m. rewrite lookup_empty. split; [done|]. by intros [Hm%elem_of_nil _].
    - constructor.
    - constructor. }
  rewrite <-Ems. intros (h1 & H & [= <-])%bind_ok.
  apply (add_manifests_ok _ []) in H as ([H1 H2] & Hnd & Hall); [| |constructor].
  2: { constructor; cbn; intros ? m; rewrite lookup_empty; (split; [done|]); by intros [Hm%elem_of_nil _]. }
  cbn [app] in *.
  assert (Hp : merge_sort version_le ms ≡ₚ ms) by apply merge_sort_Permutation.
  assert (Hin : forall m, m ∈ merge_sort version_le ms <-> m ∈ ms) by by intros m; rewrite Hp.
  split; [|done]. constructor; cbn.
  - intros m Hm%Hin. by apply Hall.
  - intros m m' Hm%Hin Hm'%Hin. destruct (Hall m Hm), (Hall m' Hm'). congruence.
  - intros hash m. by rewrite Hin.
  - intros v m. by rewrite Hin.
  - apply StronglySorted_merge_sort; unfold version_le; intros ?; intros; lia.
  - by rewrite Hp.
Qed.

Lemma scan_history_spec m hash all l r :
  scan_history m hash all l = Some r ->
  (exists e, r = Err e) \/
  (r = NewHistory all /\ exists existing, existing ∈ l /\ Manifest_Hash existing = Ok hash).
Proof.
  induction l as [|x l IH]; [done|]. cbn [scan_history].
  destruct (Manifest_Hash x) as [hx|e] eqn:Ex; [|intros [= <-]; eauto].
  destruct (String.eqb_spec hx hash) as [->|].
  { intros [= <-]. right. split; [done|]. exists x. split; [left|done]. }
  destruct (_ =? _); [intros [= <-]; left; by eexists|]. intros H.
  destruct (IH H) as [?|[? (y & ? & ?)]]; [by left|]. right. split; [done|].
  exists y. split; [by right|done].
Qed.

(** Manifests that can be one history: valid, of one consortium whose id has no outer
    spaces, with distinct versions, and no two with the same hash. *)
Record consistent (cid : string) (ms : list Manifest) : Prop := {
  co_trimmed : TrimSpace cid = cid;
  co_valid m : m ∈ ms -> Validate m = Ok tt /\ mf_ConsortiumID m = cid;
  co_versions : NoDup (map mf_MembershipVersion ms);
  co_hashes m m' hash : m ∈ ms -> m' ∈ ms -> Manifest_Hash m = Ok hash -> Manifest_Hash m' = Ok hash -> m = m'
}.

Lemma valid_hash m : Validate m = Ok tt -> exists hash, Manifest_Hash m = Ok hash.
Proof. intros Hv. eexists. by apply Manifest_Hash_ok. Qed.

Lemma add_manifests_complete cid l h ms :
  consistent cid (l ++ ms)%list -> indexed l h -> NoDup (map mf_MembershipVersion l) ->
  is_ok (foldl (fun acc m => h ← acc; add_manifest cid h m) (Ok h) ms) = true.
Proof.
  intros Hco. revert l h Hco. induction ms as [|m ms IH]; intros l h Hco Hix Hnd; [done|].
  destruct (co_valid _ _ Hco m) as [Hv Hc]; [set_solver|]. destruct (valid_hash m Hv) as [hash Hh].
  pose proof (co_versions _ _ Hco) as Hver. rewrite map_app in Hver. cbn [map] in Hver.
  apply NoDup_app in Hver as (_ & Hdis & _).
  assert (Hnew : mf_MembershipVersion m ∉ map mf_MembershipVersion l).
  { intros Hin. apply (Hdis _ Hin). left. }
  assert (Hadd : exists h1, add_manifest cid h m = Ok h1).
  { eexists. apply add_manifest_ok. split_and!; [done|done|]. exists hash. split_and!; [done| | |reflexivity].
    - destruct (hi_byHash h !! hash) as [m'|] eqn:E; [|done]. exfalso.
      apply (ix_hash _ _ Hix) in E as [Hin Hh']. apply Hnew.
      rewrite (co_hashes _ _ Hco m m' hash); [|set_solver..|done|done].
      by apply list_elem_of_fmap_2.
    - destruct (hi_byVersion h !! _) as [m'|] eqn:E; [|done]. exfalso.
      apply (ix_version _ _ Hix) in E as [Hin Hv']. apply Hnew. rewrite <-Hv'. by apply list_elem_of_fmap_2. }
  destruct Hadd as [h1 Hadd]. cbn [foldl mbind result_bind]. rewrite Hadd.
  destruct (add_manifests_ok cid l h [m] h1 Hix Hnd) as (Hix1 & Hnd1 & _); [exact Hadd|].
  apply (IH (l ++ [m])%list); [by rewrite <-app_assoc|done|done].
Qed.

Lemma indexed_nil ms : indexed [] (mkHistory ms ∅ ∅).
Proof. constructor; cbn; intros ? m; rewrite lookup_empty; (split; [done|]); by intros [Hm%elem_of_nil _]. Qed.

Lemma NewHistory_complete cid ms : consistent cid ms -> is_ok (NewHistory ms) = true.
Proof.
  intros Hco. destruct ms as [|first ms]; [done|].
  destruct (co_valid _ _ Hco first) as [_ Hc]; [left|]. unfold NewHistory. rewrite Hc, (co_trimmed _ _ Hco).
  pose proof (add_manifests_complete cid [] (mkHistory (first :: ms) ∅ ∅) (first :: ms) Hco (indexed_nil _)) as Hok.
  destruct (foldl _ _ _); [done|]. by apply Hok; constructor.
Qed.

Lemma history_consistent cid h : TrimSpace cid = cid -> history_ok h ->
  (forall m, m ∈ hi_Manifests h -> mf_ConsortiumID m = cid) -> consistent cid (hi_Manifests h).
Proof.
  intros Ht Hok Hc. split; [done| |apply (ho_nodup _ Hok)|].
  - intros m Hm. split; [by apply (ho_valid _ Hok)|by apply Hc].
  - intros m m' hash Hm Hm' Hh Hh'. assert (E : hi_byHash h !! hash = Some m) by by apply (ho_hash _ Hok).
    assert (E' : hi_byHash h !! hash = Some m') by by apply (ho_hash _ Hok). congruence.
Qed.

(** A manifest fits a history: of its consortium, and a version that both have is the
    same manifest, as far as the hash tells. *)
Definition fits_history (h : History) (m : Manifest) : Prop :=
  forall old, old ∈ hi_Manifests h -> mf_ConsortiumID old = mf_ConsortiumID m /\
    (mf_MembershipVersion old = mf_MembershipVersion m -> Manifest_Hash old = Manifest_Hash m).

Lemma WithManifest_complete h m :
  history_ok h -> fits_history h m -> Validate m = Ok tt -> TrimSpace (mf_ConsortiumID m) = mf_ConsortiumID m ->
  is_ok (WithManifest h m) = true.
Proof.
  intros Hok Hfit Hv Ht. set (cid := mf_ConsortiumID m) in *.
  assert (Hco : consistent cid (hi_Manifests h)) by (apply history_consistent; [done..|]; intros; by apply Hfit).
  destruct (valid_hash m Hv) as [hash Hh]. unfold WithManifest. rewrite Hh. cbn [mbind result_bind].
  assert (Hscan : forall l, (forall old, old ∈ l -> old ∈ hi_Manifests h) ->
    match scan_history m hash (hi_Manifests h) l with
    | Some r => is_ok r = true
    | None => forall old, old ∈ l -> Manifest_Hash old <> Ok hash /\ mf_MembershipVersion old <> mf_MembershipVersion m
    end).
  { induction l as [|x l IH]; intros Hl; [by intros ? ?%elem_of_nil|].
    destruct (Hfit x) as [_ Hsame]; [apply Hl; left|].
    destruct (valid_hash x) as [hx Hx]; [apply (ho_valid _ Hok), Hl; left|]. cbn [scan_history]. rewrite Hx.
    destruct (String.eqb_spec hx hash) as [->|Hne]; [by apply (NewHistory_complete cid)|].
    assert (Hver : mf_MembershipVersion x <> mf_MembershipVersion m) by (intros E; specialize (Hsame E); congruence).
    rewrite (proj2 (Z.eqb_neq _ _) Hver). specialize (IH (fun old Ho => Hl old (list_elem_of_further _ _ _ Ho))).
    destruct (scan_history _ _ _ l); [done|]. intros old [->|Ho]%elem_of_cons; [|by apply IH].
    split; [congruence|done]. }
  specialize (Hscan (hi_Manifests h) (fun _ Ho => Ho)). destruct (scan_history _ _ _ _); [done|].
  apply (NewHistory_complete cid). split; [done| | |].
  - intros x [Hx| ->%list_elem_of_singleton]%elem_of_app; [by apply Hco|done].
  - rewrite map_app. cbn [map]. apply NoDup_app. split_and!; [apply Hco| |apply NoDup_singleton].
    intros v (old & -> & Ho)%list_elem_of_fmap Hv'%list_elem_of_singleton. by apply (Hscan old Ho).
  - intros x y hx Hx Hy Hhx Hhy.
    apply elem_of_app in Hx as [Hx| ->%list_elem_of_singleton], Hy as [Hy| ->%list_elem_of_singleton]; [|exfalso..|done].
    + by apply (co_hashes _ _ Hco x y hx).
    + apply (proj1 (Hscan x Hx)). congruence.
    + apply (proj1 (Hscan y Hy)). congruence.
Qed.

Lemma WithManifest_ok h m h' : WithManifest h m = Ok h' -> history_ok h'.
Proof.
  intros (hash & Hh & H)%bind_ok. destruct (scan_history _ _ _ _) as [r|] eqn:E; [|by apply NewHistory_ok in H as [? _]].
  subst r. apply scan_history_spec in E as [[e He]|[Hn _]]; [done|]. symmetry in Hn. by apply NewHistory_ok in Hn as [? _].
Qed.

(** C29: adding a manifest to a history keeps every manifest it had and makes the
    new one available by its hash, and the result is well formed: the indexes
    by hash and by version are exactly the manifests, all valid, of one
    consortium and with distinct versions in increasing order; a manifest
    whose version is taken by another one is refused. *)
Theorem WithManifest_spec h m h' :
  WithManifest h m = Ok h' ->
  history_ok h' /\
  (forall x, x ∈ hi_Manifests h -> x ∈ hi_Manifests h') /\
  (forall x, x ∈ hi_Manifests h' -> x ∈ hi_Manifests h \/ x = m) /\
  (exists hash known, Manifest_Hash m = Ok hash /\ hi_byHash h' !! hash = Some known /\
     Manifest_Hash known = Ok hash).
Proof.
  intros (hash & Hh & H)%bind_ok.
  destruct (scan_history m hash (hi_Manifests h) (hi_Manifests h)) as [r|] eqn:E.
  - subst r. apply scan_history_spec in E as [[e He]|[Hn (known & Hk & Hkh)]]; [done|].
    symmetry in Hn. apply NewHistory_ok in Hn as [Hok Hp].
    split_and!; [done|by intros x; rewrite Hp|intros x; rewrite Hp; auto|].
    exists hash, known. split_and!; [done| |done]. apply (ho_hash h' Hok). by rewrite Hp.
  - apply NewHistory_ok in H as [Hok Hp]. split_and!; [done| | |].
    + intros x Hx. rewrite Hp. set_solver.
    + intros x. rewrite Hp. set_solver.
    + exists hash, m. split_and!; [done| |done]. apply (ho_hash h' Hok). rewrite Hp. set_solver.
Qed.

(** *** Witnesses *)

Definition demo_manifest (version : Z) : Manifest :=
  ManifestFromIdentities "demo" version 2
    (omap (fun id => match ValidatorIdentityForSuite id "nyc" "https://v/" demo_suite with
                     | Ok v => Some v | Err _ => None end)
       (list_to_map [("v1", "v1"); ("v2", "v2"); ("v3", "v3")] : gmap string string))
    ["v3"; "v1"; "v2"].

Lemma ActiveIdentities_spec_witness :
  exists ids, ActiveIdentities (demo_manifest 1) = Ok ids /\
    dom ids = list_to_set (ActiveValidatorIDs (demo_manifest 1)) /\
    ActiveValidatorIDs (demo_manifest 1) = ["v3"; "v1"; "v2"].
Proof.
  destruct (ActiveIdentities_spec (demo_manifest 1)) as (ids & Hids & _ & _ & _ & _ & Hdom);
    [vm_compute; reflexivity|].
  exists ids. split; [exact Hids|]. split; [|vm_compute; reflexivity].
  apply Hdom.
  assert (H : forallb (fun r => String.eqb (TrimSpace (vr_ID r)) (vr_ID r))
                (mf_Validators (demo_manifest 1)) = true) by (vm_compute; reflexivity).
  intros r Hr. apply String.eqb_eq. rewrite forallb_forall in H. by apply H, list_elem_of_In.
Defined.

Lemma WithManifest_spec_witness :
  exists h1 h2, NewHistory [demo_manifest 2] = Ok h1 /\ WithManifest h1 (demo_manifest 1) = Ok h2 /\
    history_ok h2.
Proof.
  assert (Hok : is_ok (h ← NewHistory [demo_manifest 2]; WithManifest h (demo_manifest 1)) = true)
    by (vm_compute; reflexivity).
  apply is_ok_spec in Hok as [h2 (h1 & H1 & H2)%bind_ok].
  exists h1, h2. split; [exact H1|]. split; [exact H2|].
  exact (proj1 (WithManifest_spec h1 _ h2 H2)).
Defined.
