(* ===== verification/Anchors.v ===== *)
(** * Anchors: core/anchors/anchors.go and core/anchors/mock.go

    The records anchored outside the validators, their derivation from
    identities and certificates, their validation, and the mock backend: a
    registry with roles that hands out ticks.  A [context.Context] is the error
    of [ctx.Err()], absent while the call is alive. *)

From S2P Require Import Prelude Sha256 Json JsonParse JsonDecode Identity State Protocol Codec.
Local Open Scope Z_scope.

Definition RoleIdentityAdmin : string := "identity_admin".
Definition RoleCredentialIssuer : string := "credential_issuer".
Definition RoleGovernanceAdmin : string := "governance_admin".
Definition RoleQCAnchorer : string := "qc_anchorer".

Definition ProposalStateAnchored : string := "anchored".

Definition ErrUnauthorized : string := "anchors.ErrUnauthorized".
Definition ErrInvalid : string := "anchors.ErrInvalid".
Definition ErrDuplicate : string := "anchors.ErrDuplicate".
Definition ErrNotFound : string := "anchors.ErrNotFound".
Definition ErrMismatch : string := "anchors.ErrMismatch".

Definition unauthorized (text : string) : error :=
  wrap_err ErrUnauthorized "anchor operation unauthorized" text.
Definition invalid (text : string) : error := wrap_err ErrInvalid "invalid anchor record" text.
Definition duplicate (text : string) : error :=
  wrap_err ErrDuplicate "anchor record already exists" text.
Definition not_found (text : string) : error := wrap_err ErrNotFound "anchor record not found" text.
Definition mismatch (text : string) : error := wrap_err ErrMismatch "anchor record mismatch" text.

(** ** Records *)

Record IdentityRecord := mkIdentityRecord {
  id_ValidatorID : string;
  id_Region : string;
  id_SignatureAlgorithm : string;
  id_SignatureKeyFingerprint : string;
  id_KEMAlgorithm : string;
  id_KEMKeyFingerprint : string;
  id_MetadataURI : string;
  id_MetadataHash : string;
  id_UpdatedTick : Z
}.

Record CredentialRecord := mkCredentialRecord {
  cd_CredentialHash : string;
  cd_SubjectValidatorID : string;
  cd_IssuerValidatorID : string;
  cd_ValidFromTick : Z;
  cd_ValidUntilTick : Z;
  cd_MetadataHash : string;
  cd_AnchoredTick : Z
}.

Record GovernanceProposalRecord := mkGovernanceProposal {
  gp_ProposalHash : string;
  gp_CreatorID : string;
  gp_MetadataURI : string;
  gp_MetadataHash : string;
  gp_State : string;
  gp_CreatedTick : Z;
  gp_UpdatedTick : Z
}.

Record QuorumCertificateRecord := mkQCRecord {
  qr_QCHash : string;
  qr_Height : Z;
  qr_Round : Z;
  qr_BlockHash : string;
  qr_EventHash : string;
  qr_Threshold : Z;
  qr_SignerCount : Z;
  qr_MetadataHash : string;
  qr_AnchoredTick : Z
}.

Record Status := mkStatus {
  s_Backend : string;
  s_IdentityCount : Z;
  s_CredentialCount : Z;
  s_GovernanceProposalCount : Z;
  s_QuorumCertificateCount : Z;
  s_Configured : bool
}.

(** ** Validation *)

Definition ValidateIdentityRecord (r : IdentityRecord) : result unit :=
  if String.eqb (id_ValidatorID r) "" then Err (invalid "validator id required")
  else if String.eqb (id_SignatureAlgorithm r) "" || String.eqb (id_KEMAlgorithm r) ""
  then Err (invalid "signature and KEM algorithms required")
  else if String.eqb (id_SignatureKeyFingerprint r) "" || String.eqb (id_KEMKeyFingerprint r) ""
  then Err (invalid "key fingerprints required")
  else if String.eqb (id_MetadataHash r) "" then Err (invalid "metadata hash required")
  else Ok tt.

Definition ValidateCredentialRecord (r : CredentialRecord) : result unit :=
  if String.eqb (cd_CredentialHash r) "" then Err (invalid "credential hash required")
  else if String.eqb (cd_SubjectValidatorID r) "" || String.eqb (cd_IssuerValidatorID r) ""
  then Err (invalid "subject and issuer identities required")
  else if (0 <? cd_ValidUntilTick r) && (cd_ValidUntilTick r <? cd_ValidFromTick r)
  then Err (invalid "invalid credential validity window")
  else Ok tt.

Definition ValidateGovernanceProposalRecord (r : GovernanceProposalRecord) : result unit :=
  if String.eqb (gp_ProposalHash r) "" then Err (invalid "proposal hash required")
  else if String.eqb (gp_CreatorID r) "" then Err (invalid "proposal creator required")
  else if String.eqb (gp_State r) "" then Err (invalid "proposal state required")
  else Ok tt.

Definition ValidateQuorumCertificateRecord (r : QuorumCertificateRecord) : result unit :=
  if String.eqb (qr_QCHash r) "" then Err (invalid "quorum certificate hash required")
  else if String.eqb (qr_BlockHash r) "" && String.eqb (qr_EventHash r) ""
  then Err (invalid "block hash or event hash required")
  else if (qr_Threshold r <=? 0) || (qr_SignerCount r <? qr_Threshold r)
  then Err (invalid "invalid quorum metadata")
  else Ok tt.

(** ** Derived records *)

(** What the metadata hash of an identity record covers. *)
Definition identity_metadata_json (r : IdentityRecord) : json :=
  JObj ([("validator_id", JStr (id_ValidatorID r)); ("region", JStr (id_Region r));
         ("signature_algorithm", JStr (id_SignatureAlgorithm r));
         ("signature_key_fingerprint", JStr (id_SignatureKeyFingerprint r));
         ("kem_algorithm", JStr (id_KEMAlgorithm r));
         ("kem_key_fingerprint", JStr (id_KEMKeyFingerprint r))] ++
        omit_str "metadata_uri" (id_MetadataURI r))%list.

Definition set_metadata_hash (hash : string) (r : IdentityRecord) : IdentityRecord :=
  mkIdentityRecord (id_ValidatorID r) (id_Region r) (id_SignatureAlgorithm r)
    (id_SignatureKeyFingerprint r) (id_KEMAlgorithm r) (id_KEMKeyFingerprint r)
    (id_MetadataURI r) hash (id_UpdatedTick r).

(** The record is returned together with the error of its validation. *)
Definition IdentityRecordFromValidator (v : ValidatorIdentity) (metadataURI : string)
  : result IdentityRecord :=
  let signatureAlgorithm := SignatureAlgorithmName v in
  let record :=
    mkIdentityRecord (vi_ID v) (vi_Region v) signatureAlgorithm
      (PublicKeyFingerprint signatureAlgorithm (SignaturePublicKeyBytes v))
      (vi_KEMAlgorithm v) (PublicKeyFingerprint (vi_KEMAlgorithm v) (vi_KEMPublicKey v))
      metadataURI "" 0 in
  metadataHash ← HashCanonical (identity_metadata_json record);
  let record := set_metadata_hash metadataHash record in
  _ ← ValidateIdentityRecord record; Ok record.

Definition CompareIdentityToValidator (record : IdentityRecord) (v : ValidatorIdentity)
  : result unit :=
  expected ← IdentityRecordFromValidator v (id_MetadataURI record);
  if negb (String.eqb (id_ValidatorID record) (id_ValidatorID expected)) ||
     negb (String.eqb (id_Region record) (id_Region expected)) ||
     negb (String.eqb (id_SignatureAlgorithm record) (id_SignatureAlgorithm expected)) ||
     negb (String.eqb (id_SignatureKeyFingerprint record) (id_SignatureKeyFingerprint expected)) ||
     negb (String.eqb (id_KEMAlgorithm record) (id_KEMAlgorithm expected)) ||
     negb (String.eqb (id_KEMKeyFingerprint record) (id_KEMKeyFingerprint expected)) ||
     negb (String.eqb (id_MetadataHash record) (id_MetadataHash expected))
  then Err (mismatch ("validator identity anchor does not match local metadata for " ++ vi_ID v)%string)
  else Ok tt.

Definition voter_le (a b : Vote) : Prop := String.le (v_VoterID a) (v_VoterID b).

#[export] Instance voter_le_dec : RelDecision voter_le.
Proof. intros a b. unfold voter_le. apply _. Defined.

(** [sort.Slice] leaves the order of votes of one voter open; the model keeps
    the order they came in. *)
Definition sort_votes (votes : list Vote) : list Vote := merge_sort voter_le votes.

Definition QCHash_json (cert : QuorumCertificate) : json :=
  JObj [("height", JInt (qc_Height cert)); ("round", JInt (qc_Round cert));
        ("stage", JStr (NormalizeStage (qc_Stage cert))); ("block_hash", JStr (qc_BlockHash cert));
        ("decision", JStr (qc_Decision cert)); ("threshold", JInt (qc_Threshold cert));
        ("validator_vote_count", JInt (qc_ValidatorVoteCount cert));
        ("votes", list_json Vote_json (sort_votes (qc_Votes cert)))].

Definition QuorumCertificateHash (cert : QuorumCertificate) : result string :=
  HashCanonical (QCHash_json cert).

Definition QuorumCertificateRecordFromCertificate (cert : QuorumCertificate)
  (eventHash metadataHash : string) : result QuorumCertificateRecord :=
  qcHash ← QuorumCertificateHash cert;
  let record :=
    mkQCRecord qcHash (qc_Height cert) (qc_Round cert) (qc_BlockHash cert) eventHash
      (qc_Threshold cert) (Z.of_nat (length (qc_Votes cert))) metadataHash 0 in
  _ ← ValidateQuorumCertificateRecord record; Ok record.

Definition SortedIdentityRecords (records : gmap string IdentityRecord) : list IdentityRecord :=
  sorted_values records.

(** ** The mock backend *)

Record MockBackend := mkMockBackend {
  mb_admin : string;
  mb_roles : gmap string (gmap string bool);
  mb_identities : gmap string IdentityRecord;
  mb_credentials : gmap string CredentialRecord;
  mb_proposals : gmap string GovernanceProposalRecord;
  mb_qcs : gmap string QuorumCertificateRecord;
  mb_tick : Z
}.

Definition all_roles : list string :=
  [RoleIdentityAdmin; RoleCredentialIssuer; RoleGovernanceAdmin; RoleQCAnchorer].

Definition NewMockBackend (admin : string) : MockBackend :=
  mkMockBackend admin (foldl (fun m role => <[role := {[admin := true]}]> m) ∅ all_roles) ∅ ∅ ∅ ∅ 0.

(** [b.roles[role][actor]], where an absent map or key reads as [false]. *)
Definition authorizedLocked (b : MockBackend) (role actor : string) : bool :=
  negb (String.eqb actor "") && default false (mb_roles b !! role ≫= (fun m => m !! actor)).

Definition Authorize (b : MockBackend) (role actor : string) (allowed : bool) : MockBackend :=
  mkMockBackend (mb_admin b)
    (<[role := <[actor := allowed]> (default ∅ (mb_roles b !! role))]> (mb_roles b))
    (mb_identities b) (mb_credentials b) (mb_proposals b) (mb_qcs b) (mb_tick b).

(** [nextTickLocked] and the record stored with the new tick. *)
Definition next_tick (b : MockBackend) : Z := u64 (mb_tick b + 1).

Definition put_identity (r : IdentityRecord) (b : MockBackend) : MockBackend :=
  let r := mkIdentityRecord (id_ValidatorID r) (id_Region r) (id_SignatureAlgorithm r)
             (id_SignatureKeyFingerprint r) (id_KEMAlgorithm r) (id_KEMKeyFingerprint r)
             (id_MetadataURI r) (id_MetadataHash r) (next_tick b) in
  mkMockBackend (mb_admin b) (mb_roles b) (<[id_ValidatorID r := r]> (mb_identities b))
    (mb_credentials b) (mb_proposals b) (mb_qcs b) (next_tick b).

Definition put_credential (r : CredentialRecord) (b : MockBackend) : MockBackend :=
  let r := mkCredentialRecord (cd_CredentialHash r) (cd_SubjectValidatorID r)
             (cd_IssuerValidatorID r) (cd_ValidFromTick r) (cd_ValidUntilTick r)
             (cd_MetadataHash r) (next_tick b) in
  mkMockBackend (mb_admin b) (mb_roles b) (mb_identities b)
    (<[cd_CredentialHash r := r]> (mb_credentials b)) (mb_proposals b) (mb_qcs b) (next_tick b).

Definition put_proposal (r : GovernanceProposalRecord) (created : Z) (b : MockBackend) : MockBackend :=
  let r := mkGovernanceProposal (gp_ProposalHash r) (gp_CreatorID r) (gp_MetadataURI r)
             (gp_MetadataHash r) (gp_State r) created (next_tick b) in
  mkMockBackend (mb_admin b) (mb_roles b) (mb_identities b) (mb_credentials b)
    (<[gp_ProposalHash r := r]> (mb_proposals b)) (mb_qcs b) (next_tick b).

Definition put_qc (r : QuorumCertificateRecord) (b : MockBackend) : MockBackend :=
  let r := mkQCRecord (qr_QCHash r) (qr_Height r) (qr_Round r) (qr_BlockHash r) (qr_EventHash r)
             (qr_Threshold r) (qr_SignerCount r) (qr_MetadataHash r) (next_tick b) in
  mkMockBackend (mb_admin b) (mb_roles b) (mb_identities b) (mb_credentials b) (mb_proposals b)
    (<[qr_QCHash r := r]> (mb_qcs b)) (next_tick b).

Definition lacks (actor role : string) : error := unauthorized (actor ++ " lacks " ++ role)%string.

Definition RegisterIdentity (b : MockBackend) (ctx : option error) (actor : string)
  (record : IdentityRecord) : MockBackend * result unit :=
  match ctx with
  | Some e => (b, Err e)
  | None =>
      match ValidateIdentityRecord record with
      | Err e => (b, Err e)
      | Ok _ =>
          if negb (authorizedLocked b RoleIdentityAdmin actor) then
            (b, Err (lacks actor RoleIdentityAdmin))
          else match mb_identities b !! id_ValidatorID record with
               | Some _ => (b, Err (duplicate ("identity " ++ id_ValidatorID record)%string))
               | None => (put_identity record b, Ok tt)
               end
      end
  end.

Definition UpdateIdentity (b : MockBackend) (ctx : option error) (actor : string)
  (record : IdentityRecord) : MockBackend * result unit :=
  match ctx with
  | Some e => (b, Err e)
  | None =>
      match ValidateIdentityRecord record with
      | Err e => (b, Err e)
      | Ok _ =>
          if negb (authorizedLocked b RoleIdentityAdmin actor) then
            (b, Err (lacks actor RoleIdentityAdmin))
          else match mb_identities b !! id_ValidatorID record with
               | None => (b, Err (not_found ("identity " ++ id_ValidatorID record)%string))
               | Some _ => (put_identity record b, Ok tt)
               end
      end
  end.

Definition AnchorCredential (b : MockBackend) (ctx : option error) (actor : string)
  (record : CredentialRecord) : MockBackend * result unit :=
  match ctx with
  | Some e => (b, Err e)
  | None =>
      match ValidateCredentialRecord record with
      | Err e => (b, Err e)
      | Ok _ =>
          if negb (authorizedLocked b RoleCredentialIssuer actor) then
            (b, Err (lacks actor RoleCredentialIssuer))
          else match mb_identities b !! cd_SubjectValidatorID record,
                     mb_identities b !! cd_IssuerValidatorID record,
                     mb_credentials b !! cd_CredentialHash record with
               | None, _, _ =>
                   (b, Err (not_found ("credential subject " ++ cd_SubjectValidatorID record)%string))
               | Some _, None, _ =>
                   (b, Err (not_found ("credential issuer " ++ cd_IssuerValidatorID record)%string))
               | Some _, Some _, Some _ =>
                   (b, Err (duplicate ("credential " ++ cd_CredentialHash record)%string))
               | Some _, Some _, None => (put_credential record b, Ok tt)
               end
      end
  end.

Definition set_gp_State (state : string) (r : GovernanceProposalRecord) : GovernanceProposalRecord :=
  mkGovernanceProposal (gp_ProposalHash r) (gp_CreatorID r) (gp_MetadataURI r) (gp_MetadataHash r)
    state (gp_CreatedTick r) (gp_UpdatedTick r).

Definition AnchorGovernanceProposal (b : MockBackend) (ctx : option error) (actor : string)
  (record : GovernanceProposalRecord) : MockBackend * result unit :=
  match ctx with
  | Some e => (b, Err e)
  | None =>
      let record := if String.eqb (gp_State record) "" then set_gp_State ProposalStateAnchored record
                    else record in
      match ValidateGovernanceProposalRecord record with
      | Err e => (b, Err e)
      | Ok _ =>
          if negb (authorizedLocked b RoleGovernanceAdmin actor) then
            (b, Err (lacks actor RoleGovernanceAdmin))
          else match mb_proposals b !! gp_ProposalHash record with
               | Some _ => (b, Err (duplicate ("proposal " ++ gp_ProposalHash record)%string))
               | None => (put_proposal record (next_tick b) b, Ok tt)
               end
      end
  end.

Definition UpdateGovernanceProposalState (b : MockBackend) (ctx : option error)
  (actor proposalHash state : string) : MockBackend * result unit :=
  match ctx with
  | Some e => (b, Err e)
  | None =>
      if String.eqb proposalHash "" || String.eqb state "" then
        (b, Err (invalid "proposal hash and state required"))
      else if negb (authorizedLocked b RoleGovernanceAdmin actor) then
        (b, Err (lacks actor RoleGovernanceAdmin))
      else match mb_proposals b !! proposalHash with
           | None => (b, Err (not_found ("proposal " ++ proposalHash)%string))
           | Some record =>
               (mkMockBackend (mb_admin b) (mb_roles b) (mb_identities b) (mb_credentials b)
                  (<[proposalHash :=
                       mkGovernanceProposal (gp_ProposalHash record) (gp_CreatorID record)
                         (gp_MetadataURI record) (gp_MetadataHash record) state
                         (gp_CreatedTick record) (next_tick b)]> (mb_proposals b))
                  (mb_qcs b) (next_tick b), Ok tt)
           end
  end.

Definition AnchorQuorumCertificate (b : MockBackend) (ctx : option error) (actor : string)
  (record : QuorumCertificateRecord) : MockBackend * result unit :=
  match ctx with
  | Some e => (b, Err e)
  | None =>
      match ValidateQuorumCertificateRecord record with
      | Err e => (b, Err e)
      | Ok _ =>
          if negb (authorizedLocked b RoleQCAnchorer actor) then (b, Err (lacks actor RoleQCAnchorer))
          else match mb_qcs b !! qr_QCHash record with
               | Some _ => (b, Err (duplicate ("qc " ++ qr_QCHash record)%string))
               | None => (put_qc record b, Ok tt)
               end
      end
  end.

Definition read {A} (ctx : option error) (x : A) : result A :=
  match ctx with Some e => Err e | None => Ok x end.

Definition GetIdentity (b : MockBackend) (ctx : option error) (validatorID : string)
  : result (option IdentityRecord) := read ctx (mb_identities b !! validatorID).

Definition GetCredential (b : MockBackend) (ctx : option error) (credentialHash : string)
  : result (option CredentialRecord) := read ctx (mb_credentials b !! credentialHash).

Definition GetGovernanceProposal (b : MockBackend) (ctx : option error) (proposalHash : string)
  : result (option GovernanceProposalRecord) := read ctx (mb_proposals b !! proposalHash).

Definition GetQuorumCertificateAnchor (b : MockBackend) (ctx : option error) (qcHash : string)
  : result (option QuorumCertificateRecord) := read ctx (mb_qcs b !! qcHash).

Definition Backend_Status (b : MockBackend) (ctx : option error) : result Status :=
  read ctx (mkStatus "mock" (Z.of_nat (size (mb_identities b))) (Z.of_nat (size (mb_credentials b)))
              (Z.of_nat (size (mb_proposals b))) (Z.of_nat (size (mb_qcs b))) true).

Definition IdentityRecords (b : MockBackend) : gmap string IdentityRecord := mb_identities b.

(** ** Properties *)

Lemma sort_votes_perm votes : sort_votes votes ≡ₚ votes.
Proof. apply merge_sort_Permutation. Qed.

#[local] Instance voter_le_total : Total voter_le.
Proof. intros a b. unfold voter_le. apply (total String.le). Qed.

#[local] Instance voter_le_trans : Transitive voter_le.
Proof. intros a b c. unfold voter_le. apply transitivity. Qed.

Lemma sort_votes_unique votes votes' :
  NoDup (map v_VoterID votes) -> votes ≡ₚ votes' -> sort_votes votes = sort_votes votes'.
Proof.
  intros Hnd Hp.
  apply (StronglySorted_unique_strong voter_le); [|apply StronglySorted_merge_sort; apply _..|].
  - intros v w Hv Hw H1 H2. unfold voter_le in *.
    assert (E : v_VoterID v = v_VoterID w) by by apply (anti_symm String.le).
    rewrite sort_votes_perm in Hv, Hw.
    apply list_elem_of_lookup in Hv as [i Hi]. rewrite <-Hp in Hw.
    apply list_elem_of_lookup in Hw as [j Hj].
    assert (i = j) as ->.
    { eapply (NoDup_lookup (map v_VoterID votes)); [done|..]; rewrite list_lookup_fmap;
        [by rewrite Hi|by rewrite Hj, E]. }
    congruence.
  - by rewrite !sort_votes_perm.
Qed.

(** the hash under which a certificate is anchored and referred to identifies the
    quorum, not the order its votes arrived in: certificates that agree on
    height, round, stage, block, decision, threshold and count and whose votes
    (of distinct voters) are the same up to order have the same hash, whatever
    their formation time and membership metadata. *)
Theorem QuorumCertificateHash_order c c' :
  qc_Height c = qc_Height c' -> qc_Round c = qc_Round c' ->
  NormalizeStage (qc_Stage c) = NormalizeStage (qc_Stage c') -> qc_BlockHash c = qc_BlockHash c' ->
  qc_Decision c = qc_Decision c' -> qc_Threshold c = qc_Threshold c' ->
  qc_ValidatorVoteCount c = qc_ValidatorVoteCount c' ->
  NoDup (map v_VoterID (qc_Votes c)) -> qc_Votes c ≡ₚ qc_Votes c' ->
  QuorumCertificateHash c = QuorumCertificateHash c'.
Proof.
  intros E1 E2 E3 E4 E5 E6 E7 Hnd Hp. unfold QuorumCertificateHash, QCHash_json.
  by rewrite E1, E2, E3, E4, E5, E6, E7, (sort_votes_unique _ _ Hnd Hp).
Qed.

(** The writes of the backend, each with the role it needs. *)
Inductive anchor_op :=
| OpRegister (r : IdentityRecord)
| OpUpdate (r : IdentityRecord)
| OpCredential (r : CredentialRecord)
| OpProposal (r : GovernanceProposalRecord)
| OpProposalState (hash state : string)
| OpQC (r : QuorumCertificateRecord).

Definition run_op (b : MockBackend) (ctx : option error) (actor : string) (op : anchor_op)
  : MockBackend * result unit :=
  match op with
  | OpRegister r => RegisterIdentity b ctx actor r
  | OpUpdate r => UpdateIdentity b ctx actor r
  | OpCredential r => AnchorCredential b ctx actor r
  | OpProposal r => AnchorGovernanceProposal b ctx actor r
  | OpProposalState hash state => UpdateGovernanceProposalState b ctx actor hash state
  | OpQC r => AnchorQuorumCertificate b ctx actor r
  end.

Definition op_role (op : anchor_op) : string :=
  match op with
  | OpRegister _ | OpUpdate _ => RoleIdentityAdmin
  | OpCredential _ => RoleCredentialIssuer
  | OpProposal _ | OpProposalState _ _ => RoleGovernanceAdmin
  | OpQC _ => RoleQCAnchorer
  end.

(** Every credential is of a known subject by a known issuer, and every anchored
    certificate is stored under its hash with enough signers. *)
Record backend_inv (b : MockBackend) : Prop := {
  bi_credential h r : mb_credentials b !! h = Some r ->
    is_Some (mb_identities b !! cd_SubjectValidatorID r) /\
    is_Some (mb_identities b !! cd_IssuerValidatorID r);
  bi_qc h r : mb_qcs b !! h = Some r -> qr_QCHash r = h /\ 0 < qr_Threshold r <= qr_SignerCount r
}.

(** The cases of an operation's outcome. *)
Ltac op_cases E :=
  revert E; cbn [run_op op_role];
  unfold RegisterIdentity, UpdateIdentity, AnchorCredential, AnchorGovernanceProposal,
    UpdateGovernanceProposalState, AnchorQuorumCertificate; cbv zeta;
  repeat match goal with
  | |- (match ?x with _ => _ end) = _ -> _ => destruct x eqn:?
  end; intros [= <- <-].

Lemma run_op_outcome b ctx actor op b' r :
  run_op b ctx actor op = (b', r) ->
  match r with
  | Err _ => b' = b
  | Ok _ => ctx = None /\ authorizedLocked b (op_role op) actor = true /\
            mb_tick b' = next_tick b /\ mb_roles b' = mb_roles b
  end.
Proof.
  intros E. destruct op; op_cases E; try done; (split_and!; [done| |done..]);
    by apply negb_false_iff.
Qed.

Lemma ValidateQCRecord_ok r :
  ValidateQuorumCertificateRecord r = Ok tt -> 0 < qr_Threshold r <= qr_SignerCount r.
Proof.
  unfold ValidateQuorumCertificateRecord. intros H.
  run_ok H. reflect_bools. lia.
Qed.

Lemma run_op_inv b ctx actor op b' r :
  backend_inv b -> run_op b ctx actor op = (b', r) -> backend_inv b'.
Proof.
  intros [Hc Hq] E.
  assert (Hgrow : forall k r h, is_Some (mb_identities b !! k) ->
    is_Some (<[h := r]> (mb_identities b) !! k)).
  { intros k x h [y Hy]. destruct (decide (h = k)) as [->|];
      [rewrite lookup_insert_eq|rewrite lookup_insert_ne by done]; eauto. }
  destruct op; op_cases E; try done; constructor; cbn; try done.
  - intros h x Hx%Hc. destruct Hx; auto.
  - intros h x Hx%Hc. destruct Hx; auto.
  - intros h x [[<- <-]|[_ Hx%Hc]]%lookup_insert_Some; [cbn; eauto|done].
  - intros h x [[<- <-]|[_ Hx%Hq]]%lookup_insert_Some; [|done]. cbn. split; [done|].
    apply ValidateQCRecord_ok. match goal with a : () |- _ => destruct a end. assumption.
Qed.

Lemma run_op_keeps b ctx actor op b' r :
  run_op b ctx actor op = (b', r) ->
  (forall h x, mb_qcs b !! h = Some x -> mb_qcs b' !! h = Some x) /\
  (forall h x, mb_credentials b !! h = Some x -> mb_credentials b' !! h = Some x) /\
  (forall id, is_Some (mb_identities b !! id) -> is_Some (mb_identities b' !! id)).
Proof.
  intros E.
  assert (Hnew : forall (A : Type) (m : gmap string A) k v h x,
    m !! k = None -> m !! h = Some x -> <[k := v]> m !! h = Some x).
  { intros A m k v h x Hk Hh. by rewrite lookup_insert_ne by congruence. }
  assert (Hins : forall (A : Type) (m : gmap string A) k v h,
    is_Some (m !! h) -> is_Some (<[k := v]> m !! h)).
  { intros A m k v h [x Hh]. destruct (decide (k = h)) as [->|];
      [rewrite lookup_insert_eq|rewrite lookup_insert_ne by done]; eauto. }
  destruct op; op_cases E; cbn; eauto 10.
Qed.

(** C23: the mock backend is a role-guarded append-only registry. An operation that
    fails changes nothing; one that succeeds was made by an actor holding the
    role of the operation and advances the tick; it never rewrites or removes
    an anchored certificate or credential, nor removes an identity, and
    it keeps the registry consistent. *)
Theorem backend_append_only b ctx actor op :
  backend_inv b ->
  let '(b', r) := run_op b ctx actor op in
  backend_inv b' /\
  match r with
  | Err _ => b' = b
  | Ok _ => ctx = None /\ authorizedLocked b (op_role op) actor = true /\
            mb_tick b' = next_tick b /\ mb_roles b' = mb_roles b
  end /\
  (forall h x, mb_qcs b !! h = Some x -> mb_qcs b' !! h = Some x) /\
  (forall h x, mb_credentials b !! h = Some x -> mb_credentials b' !! h = Some x) /\
  (forall id, is_Some (mb_identities b !! id) -> is_Some (mb_identities b' !! id)).
Proof.
  intros Hinv. destruct (run_op b ctx actor op) as [b' r] eqn:E.
  split; [by eapply run_op_inv|]. split; [by eapply run_op_outcome|by eapply run_op_keeps].
Qed.

(** *** Witnesses *)

Lemma backend_inv_new admin : backend_inv (NewMockBackend admin).
Proof. constructor; cbn; intros ? ?; by rewrite lookup_empty. Qed.

Lemma backend_append_only_witness :
  let r := mkQCRecord "q1" 2 0 "b1" "" 5 5 "" 0 in
  let b1 := (run_op (NewMockBackend "admin") None "admin" (OpQC r)).1 in
  mb_qcs b1 !! "q1" = Some (mkQCRecord "q1" 2 0 "b1" "" 5 5 "" 1) /\
  (run_op b1 None "admin" (OpQC r)).1 = b1 /\
  (run_op (NewMockBackend "admin") None "mallory" (OpQC r)).1 = NewMockBackend "admin".
Proof.
  intros r b1. split; [reflexivity|]. split.
  - pose proof (backend_append_only b1 None "admin" (OpQC r)) as H.
    assert (Hb1 : backend_inv b1).
    { pose proof (backend_append_only (NewMockBackend "admin") None "admin" (OpQC r)
                    (backend_inv_new "admin")) as H1. apply H1. }
    specialize (H Hb1). exact (proj1 (proj2 H)).
  - exact (proj1 (proj2 (backend_append_only (NewMockBackend "admin") None "mallory" (OpQC r)
             (backend_inv_new "admin")))).
Defined.

Lemma QuorumCertificateHash_order_witness :
  let votes := [demo_vote "" "b1" "v2"; demo_vote "" "b1" "v1"] in
  QuorumCertificateHash (mkQC 1 0 "" "b1" DecisionCommit 2 0 "" 5 2 votes)
  = QuorumCertificateHash (mkQC 1 0 StagePrecommit "b1" DecisionCommit 2 3 "m" 9 2 (rev votes)).
Proof.
  intros votes. apply QuorumCertificateHash_order; try reflexivity.
  - apply (bool_decide_eq_true_1 _). vm_compute. reflexivity.
  - apply Permutation_rev.
Defined.
