(* ===== verification/AnchorScenario.v ===== *)
(** * The anchor scenario: core/anchors/evidence.go

    A scripted run over the mock backend: the identities of the validators, a credential,
    a governance proposal and a quorum certificate are anchored, the certificate a second
    time, and a tampered identity is compared; the run is written up.  The suite is an
    argument, as are the files, the clock of the certificate and whether forge is
    installed. *)

From S2P Require Import Prelude Sha256 Json JsonIndent Identity Crypto State Protocol Quorum Anchors.
Local Open Scope string_scope.
Local Open Scope Z_scope.

Definition ProposalStateAccepted : string := "accepted".

Record Evidence := mkEvidence {
  an_ValidatorIdentityAnchors : list IdentityRecord;
  an_CredentialAnchors : list CredentialRecord;
  an_GovernanceProposals : list GovernanceProposalRecord;
  an_QuorumCertificateAnchors : list QuorumCertificateRecord;
  an_DuplicateReplayOutcome : string;
  an_MismatchOutcome : string;
  an_AuthorizationModel : string;
  an_OnChainOffChainBoundary : string;
  an_ContractTestStatus : string;
  an_MockBackendTestStatus : string;
  an_Limitations : string;
  an_Status : Status;
  an_OutputJSON : string;
  an_OutputText : string
}.

Definition IdentityRecord_json (r : IdentityRecord) : json :=
  JObj ([("validator_id", JStr (id_ValidatorID r)); ("region", JStr (id_Region r));
         ("signature_algorithm", JStr (id_SignatureAlgorithm r));
         ("signature_key_fingerprint", JStr (id_SignatureKeyFingerprint r));
         ("kem_algorithm", JStr (id_KEMAlgorithm r)); ("kem_key_fingerprint", JStr (id_KEMKeyFingerprint r))] ++
        omit_str "metadata_uri" (id_MetadataURI r) ++ [("metadata_hash", JStr (id_MetadataHash r))] ++
        omit_int "updated_tick" (id_UpdatedTick r))%list.

Definition CredentialRecord_json (r : CredentialRecord) : json :=
  JObj ([("credential_hash", JStr (cd_CredentialHash r)); ("subject_validator_id", JStr (cd_SubjectValidatorID r));
         ("issuer_validator_id", JStr (cd_IssuerValidatorID r))] ++ omit_int "valid_from_tick" (cd_ValidFromTick r) ++
        omit_int "valid_until_tick" (cd_ValidUntilTick r) ++ omit_str "metadata_hash" (cd_MetadataHash r) ++
        omit_int "anchored_tick" (cd_AnchoredTick r))%list.

Definition GovernanceProposalRecord_json (r : GovernanceProposalRecord) : json :=
  JObj ([("proposal_hash", JStr (gp_ProposalHash r)); ("creator_id", JStr (gp_CreatorID r))] ++
        omit_str "metadata_uri" (gp_MetadataURI r) ++ omit_str "metadata_hash" (gp_MetadataHash r) ++
        [("state", JStr (gp_State r))] ++ omit_int "created_tick" (gp_CreatedTick r) ++
        omit_int "updated_tick" (gp_UpdatedTick r))%list.

Definition QuorumCertificateRecord_json (r : QuorumCertificateRecord) : json :=
  JObj ([("qc_hash", JStr (qr_QCHash r)); ("height", JInt (qr_Height r)); ("round", JInt (qr_Round r))] ++
        omit_str "block_hash" (qr_BlockHash r) ++ omit_str "event_hash" (qr_EventHash r) ++
        [("threshold", JInt (qr_Threshold r)); ("signer_count", JInt (qr_SignerCount r))] ++
        omit_str "metadata_hash" (qr_MetadataHash r) ++ omit_int "anchored_tick" (qr_AnchoredTick r))%list.

Definition Status_json (s : Status) : json :=
  JObj [("backend", JStr (s_Backend s)); ("identity_count", JInt (s_IdentityCount s));
        ("credential_count", JInt (s_CredentialCount s)); ("governance_proposal_count", JInt (s_GovernanceProposalCount s));
        ("quorum_certificate_count", JInt (s_QuorumCertificateCount s)); ("configured", JBool (s_Configured s))].

Definition Evidence_json (e : Evidence) : json :=
  JObj ([("validator_identity_anchor_records", JArr (map IdentityRecord_json (an_ValidatorIdentityAnchors e)));
         ("credential_anchor_records", JArr (map CredentialRecord_json (an_CredentialAnchors e)));
         ("governance_proposal_anchor_records", JArr (map GovernanceProposalRecord_json (an_GovernanceProposals e)));
         ("qc_anchor_records", JArr (map QuorumCertificateRecord_json (an_QuorumCertificateAnchors e)));
         ("duplicate_replay_test_outcome", JStr (an_DuplicateReplayOutcome e));
         ("mismatch_test_outcome", JStr (an_MismatchOutcome e));
         ("authorization_model_summary", JStr (an_AuthorizationModel e));
         ("on_chain_off_chain_boundary_statement", JStr (an_OnChainOffChainBoundary e));
         ("contract_test_status", JStr (an_ContractTestStatus e));
         ("mock_backend_test_status", JStr (an_MockBackendTestStatus e));
         ("limitations_statement", JStr (an_Limitations e)); ("mock_backend_status", Status_json (an_Status e))] ++
        omit_str "output_json" (an_OutputJSON e) ++ omit_str "output_text" (an_OutputText e))%list.

Definition count_of {A} (l : list A) : string := itoa (Z.of_nat (length l)).

Definition TextEvidence (e : Evidence) : string :=
  "pq-fabric anchor evidence" ++ newline ++
  "identity_anchors=" ++ count_of (an_ValidatorIdentityAnchors e) ++ " credential_anchors=" ++
  count_of (an_CredentialAnchors e) ++ " governance_anchors=" ++ count_of (an_GovernanceProposals e) ++ " qc_anchors=" ++
  count_of (an_QuorumCertificateAnchors e) ++ newline ++
  "duplicate_replay=" ++ an_DuplicateReplayOutcome e ++ newline ++
  "mismatch=" ++ an_MismatchOutcome e ++ newline ++
  "contract_tests=" ++ an_ContractTestStatus e ++ newline ++
  "mock_backend_tests=" ++ an_MockBackendTestStatus e ++ newline ++
  "boundary=" ++ an_OnChainOffChainBoundary e ++ newline ++
  "limitations=" ++ an_Limitations e ++ newline.

(** ** The run *)

Definition contractTestStatus (forge : bool) : string :=
  if forge then "forge available; run make contract-tests for current contract test result"
  else "forge unavailable in this environment; Foundry tests added but not executed by anchor demo".

Definition anchor_commit : string := HashBytes "anchor-demo-commit".

Fixpoint synthetic_votes (selected : CryptoSuite) (voterIDs : list string) : result (list Vote) :=
  match voterIDs with
  | [] => Ok []
  | voterID :: voterIDs =>
      signer ← cs_NewSigner selected voterID;
      vote ← SignStageVote 2 0 StagePrecommit anchor_commit voterID signer;
      votes ← synthetic_votes selected voterIDs;
      Ok (vote :: votes)
  end.

Definition syntheticQuorumCertificate (now : Time) (selected : CryptoSuite) : result QuorumCertificate :=
  votes ← synthetic_votes selected (take 5 DefaultValidatorIDs);
  FormStageQuorumCertificate now 2 0 StagePrecommit anchor_commit votes 5.

Definition local_admin : string := "local-admin".

(** What a map without the key yields. *)
Definition no_identity : ValidatorIdentity := mkIdentity "" "" "" "" "" "" "" "" "" "".

(** The identities are anchored in the order of the default validators. *)
Fixpoint register_all (ctx : option error) (identities : gmap string ValidatorIdentity) (l : list string) (b : MockBackend)
    : result MockBackend :=
  match l with
  | [] => Ok b
  | id :: l =>
      record ← IdentityRecordFromValidator (default no_identity (identities !! id)) ("local://metadata/" ++ id);
      match RegisterIdentity b ctx local_admin record with
      | (b, Ok _) => register_all ctx identities l b
      | (_, Err e) => Err e
      end
  end.

Definition demo_credential : CredentialRecord :=
  mkCredentialRecord (HashBytes "credential:validator-1:kyc-demo") "validator-1" "validator-2" 1 100
    (HashBytes "credential metadata") 0.

Definition demo_proposal : GovernanceProposalRecord :=
  mkGovernanceProposal (HashBytes "proposal:rotate-testbed-parameter") "validator-1"
    "local://proposal/rotate-testbed-parameter" (HashBytes "proposal metadata") ProposalStateAnchored 0 0.

(** A write that must succeed. *)
Definition must {A} (r : MockBackend * result A) : result MockBackend :=
  match r with (b, Ok _) => Ok b | (_, Err e) => Err e end.

(** What was found, or the zero record. *)
Definition found {A} (zero : A) (r : result (option A)) : A :=
  match r with Ok (Some a) => a | _ => zero end.

Definition no_credential : CredentialRecord := mkCredentialRecord "" "" "" 0 0 "" 0.
Definition no_proposal : GovernanceProposalRecord := mkGovernanceProposal "" "" "" "" "" 0 0.
Definition no_certificate : QuorumCertificateRecord := mkQCRecord "" 0 0 "" "" 0 0 "" 0.

Definition with_region (region : string) (r : IdentityRecord) : IdentityRecord :=
  mkIdentityRecord (id_ValidatorID r) region (id_SignatureAlgorithm r) (id_SignatureKeyFingerprint r) (id_KEMAlgorithm r)
    (id_KEMKeyFingerprint r) (id_MetadataURI r) (id_MetadataHash r) (id_UpdatedTick r).

Definition mismatch_outcome (identities : gmap string ValidatorIdentity) (records : list IdentityRecord) : result string :=
  match records with
  | [] => panic "index out of range [0] with length 0"
  | first :: _ =>
      let tampered := with_region "wrong-region" first in
      match CompareIdentityToValidator tampered (default no_identity (identities !! id_ValidatorID tampered)) with
      | Err e => Ok (err_text e)
      | Ok _ => Ok "mismatch detected"
      end
  end.

Definition authorization_model : string :=
  "mock backend uses explicit local roles: identity_admin, credential_issuer, governance_admin, and qc_anchorer; contracts use owner-authorized accounts".

Definition boundary_statement : string :=
  "contracts and mock backend anchor hashes and metadata only; validators keep PQ signature, identity, quorum-certificate, and consensus validation off-chain".

Definition anchor_limitations : string :=
  "local prototype only; no live Polygon deployment, no on-chain PQ verification, no smart-contract audit, no production BFT, no production anonymity, no FIPS or ACVTS certification".

(** [os.MkdirAll], [os.WriteFile] and [filepath.Join]. *)
Record Files := mkFiles {
  af_MkdirAll : string -> result unit;
  af_WriteFile : string -> string -> result unit;
  af_Join : string -> string -> string
}.

Definition WriteEvidenceArtifacts (fs : Files) (outputDir : string) (e : Evidence) : result unit :=
  _ ← af_MkdirAll fs outputDir;
  _ ← af_WriteFile fs (af_Join fs outputDir "anchor-evidence.json") (MarshalIndent (Evidence_json e) ++ newline);
  af_WriteFile fs (af_Join fs outputDir "anchor-evidence.txt") (TextEvidence e).

Definition set_outputs (json text : string) (e : Evidence) : Evidence :=
  mkEvidence (an_ValidatorIdentityAnchors e) (an_CredentialAnchors e) (an_GovernanceProposals e)
    (an_QuorumCertificateAnchors e) (an_DuplicateReplayOutcome e) (an_MismatchOutcome e) (an_AuthorizationModel e)
    (an_OnChainOffChainBoundary e) (an_ContractTestStatus e) (an_MockBackendTestStatus e) (an_Limitations e) (an_Status e)
    json text.

(** The credential and the proposal, and what is read back of them. *)
Definition anchor_records (ctx : option error) (b : MockBackend)
    : result (MockBackend * CredentialRecord * GovernanceProposalRecord) :=
  b ← must (AnchorCredential b ctx local_admin demo_credential);
  let credential := found no_credential (GetCredential b ctx (cd_CredentialHash demo_credential)) in
  b ← must (AnchorGovernanceProposal b ctx local_admin demo_proposal);
  b ← must (UpdateGovernanceProposalState b ctx local_admin (gp_ProposalHash demo_proposal) ProposalStateAccepted);
  Ok (b, credential, found no_proposal (GetGovernanceProposal b ctx (gp_ProposalHash demo_proposal))).

(** The certificate, what is read back of it, and the outcome of anchoring that again. *)
Definition anchor_certificate (ctx : option error) (cert : QuorumCertificate) (b : MockBackend)
    : result (MockBackend * QuorumCertificateRecord * string) :=
  qcRecord ← QuorumCertificateRecordFromCertificate cert "" (HashBytes "qc metadata");
  b ← must (AnchorQuorumCertificate b ctx local_admin qcRecord);
  let qcRecord := found no_certificate (GetQuorumCertificateAnchor b ctx (qr_QCHash qcRecord)) in
  let '(b, again) := AnchorQuorumCertificate b ctx local_admin qcRecord in
  Ok (b, qcRecord,
      match again with Ok _ => "duplicate qc anchor unexpectedly accepted" | Err e => err_text e end).

Definition RunEvidenceScenario (ctx : option error) (selected : result CryptoSuite) (now : Time) (forge : bool) (fs : Files)
    (outputDir : string) : result Evidence :=
  selected ← selected;
  identities ← ValidatorIdentitiesForSuite ∅ selected;
  b ← register_all ctx identities DefaultValidatorIDs (NewMockBackend local_admin);
  let identityRecords := SortedIdentityRecords (IdentityRecords b) in
  '(b, credential, proposal) ← anchor_records ctx b;
  cert ← syntheticQuorumCertificate now selected;
  '(b, qcRecord, duplicateOutcome) ← anchor_certificate ctx cert b;
  mismatchOutcome ← mismatch_outcome identities identityRecords;
  status ← Backend_Status b ctx;
  let evidence :=
    mkEvidence identityRecords [credential] [proposal] [qcRecord] duplicateOutcome mismatchOutcome authorization_model
      boundary_statement (contractTestStatus forge) "covered by go test ./core/anchors/..." anchor_limitations status "" "" in
  if negb (String.eqb outputDir "") then
    _ ← WriteEvidenceArtifacts fs outputDir evidence;
    Ok (set_outputs (af_Join fs outputDir "anchor-evidence.json") (af_Join fs outputDir "anchor-evidence.txt") evidence)
  else Ok evidence.

(** ** Records that match their validators *)

Lemma fingerprint_nonempty algorithm key : PublicKeyFingerprint algorithm key <> "".
Proof.
  unfold PublicKeyFingerprint. intros E. apply (f_equal String.length) in E.
  rewrite Hex.length_EncodeToString, Sha256.length_Sum256 in E. discriminate E.
Qed.

(** A record as the backend keeps it. *)
Definition stamped (id : string) (tick : Z) (r : IdentityRecord) : IdentityRecord :=
  mkIdentityRecord id (id_Region r) (id_SignatureAlgorithm r) (id_SignatureKeyFingerprint r) (id_KEMAlgorithm r)
    (id_KEMKeyFingerprint r) (id_MetadataURI r) (id_MetadataHash r) tick.

Lemma record_ok v uri : vi_ID v <> "" -> SignatureAlgorithmName v <> "" -> vi_KEMAlgorithm v <> "" ->
  exists r, IdentityRecordFromValidator v uri = Ok r /\ ValidateIdentityRecord r = Ok tt /\ id_ValidatorID r = vi_ID v /\
    id_Region r = vi_Region v /\ id_MetadataURI r = uri.
Proof.
  intros Hid%String.eqb_neq Hs%String.eqb_neq Hk%String.eqb_neq. unfold IdentityRecordFromValidator.
  rewrite HashCanonical_ok. cbn [mbind result_bind].
  match goal with |- context [set_metadata_hash ?h ?r] => set (hash := h); set (rec := set_metadata_hash hash r) end.
  assert (Hv : ValidateIdentityRecord rec = Ok tt).
  { unfold ValidateIdentityRecord. subst rec. cbn -[PublicKeyFingerprint]. rewrite Hid, Hs, Hk. cbn [orb].
    assert (Hf : forall a k, String.eqb (PublicKeyFingerprint a k) "" = false).
    { intros a k. apply String.eqb_neq, fingerprint_nonempty. }
    rewrite !Hf. cbn [orb].
    by rewrite (proj2 (String.eqb_neq hash "") (HashBytes_nonempty _)). }
  rewrite Hv. by exists rec.
Qed.

Lemma compare_same v r t : IdentityRecordFromValidator v (id_MetadataURI r) = Ok r ->
  CompareIdentityToValidator (stamped (id_ValidatorID r) t r) v = Ok tt.
Proof.
  intros Hr. unfold CompareIdentityToValidator. cbn [id_MetadataURI stamped]. rewrite Hr. cbn [mbind result_bind].
  cbn. by rewrite !String.eqb_refl.
Qed.

Lemma compare_region v r t region : IdentityRecordFromValidator v (id_MetadataURI r) = Ok r -> region <> id_Region r ->
  CompareIdentityToValidator (with_region region (stamped (id_ValidatorID r) t r)) v
  = Err (mismatch ("validator identity anchor does not match local metadata for " ++ vi_ID v)).
Proof.
  intros Hr Hne%String.eqb_neq. unfold CompareIdentityToValidator. cbn [id_MetadataURI stamped with_region]. rewrite Hr.
  cbn [mbind result_bind]. cbn. by rewrite Hne, !String.eqb_refl.
Qed.

(** ** The backend over seven records *)

Definition put_as (rec : string -> IdentityRecord) (b : MockBackend) (id : string) : MockBackend :=
  mkMockBackend (mb_admin b) (mb_roles b) (<[id := stamped id (next_tick b) (rec id)]> (mb_identities b)) (mb_credentials b)
    (mb_proposals b) (mb_qcs b) (next_tick b).

Lemma register_all_ok ids rec l : forall b, authorizedLocked b RoleIdentityAdmin local_admin = true ->
  NoDup l -> (forall id, id ∈ l -> mb_identities b !! id = None) ->
  (forall id, id ∈ l -> IdentityRecordFromValidator (default no_identity (ids !! id)) ("local://metadata/" ++ id) = Ok (rec id) /\
     ValidateIdentityRecord (rec id) = Ok tt /\ id_ValidatorID (rec id) = id) ->
  register_all None ids l b = Ok (foldl (put_as rec) b l).
Proof.
  induction l as [|id l IH]; intros b Hauth Hnd Hnew Hrec; [done|]. apply NoDup_cons in Hnd as [Hout Hnd].
  destruct (Hrec id) as (Hr & Hv & Hid); [left|]. cbn [register_all foldl]. rewrite Hr. cbn [mbind result_bind].
  unfold RegisterIdentity. rewrite Hv, Hauth, Hid, (Hnew id) by left. cbn [negb]. unfold put_identity. rewrite Hid.
  apply IH; [done|done| |].
  - intros i Hi. cbn. rewrite lookup_insert_ne by (intros ->; done). apply Hnew. by right.
  - intros i Hi. apply Hrec. by right.
Qed.

Definition registered (rec : string -> IdentityRecord) : MockBackend :=
  foldl (put_as rec) (NewMockBackend local_admin) DefaultValidatorIDs.

Lemma registered_sorted rec : SortedIdentityRecords (IdentityRecords (registered rec))
  = imap (fun i id => stamped id (Z.of_nat i + 1) (rec id)) DefaultValidatorIDs.
Proof. vm_compute. reflexivity. Qed.

Definition anchored_credential : CredentialRecord :=
  mkCredentialRecord (HashBytes "credential:validator-1:kyc-demo") "validator-1" "validator-2" 1 100
    (HashBytes "credential metadata") 8.

Definition accepted_proposal : GovernanceProposalRecord :=
  mkGovernanceProposal (HashBytes "proposal:rotate-testbed-parameter") "validator-1"
    "local://proposal/rotate-testbed-parameter" (HashBytes "proposal metadata") "accepted" 9 10.

(** The backend after the credential and the proposal. *)
Definition with_records (rec : string -> IdentityRecord) : MockBackend :=
  let b := put_proposal demo_proposal 9 (put_credential demo_credential (registered rec)) in
  mkMockBackend (mb_admin b) (mb_roles b) (mb_identities b) (mb_credentials b)
    (<[gp_ProposalHash demo_proposal := accepted_proposal]> (mb_proposals b)) (mb_qcs b) (next_tick b).

Lemma records_anchored rec : anchor_records None (registered rec)
  = Ok (with_records rec, anchored_credential, accepted_proposal).
Proof. vm_compute. reflexivity. Qed.

Lemma with_records_facts rec : mb_qcs (with_records rec) = ∅ /\
  authorizedLocked (with_records rec) RoleQCAnchorer local_admin = true /\ mb_tick (with_records rec) = 10 /\
  Backend_Status (with_records rec) None = Ok (mkStatus "mock" 7 1 1 0 true).
Proof. split_and!; vm_compute; reflexivity. Qed.

(** ** The certificate *)

Lemma anchor_certificate_outcome b q : ValidateQuorumCertificateRecord q = Ok tt ->
  authorizedLocked b RoleQCAnchorer local_admin = true ->
  AnchorQuorumCertificate b None local_admin q =
  match mb_qcs b !! qr_QCHash q with
  | Some _ => (b, Err (duplicate ("qc " ++ qr_QCHash q)))
  | None => (put_qc q b, Ok tt)
  end.
Proof. intros Hv Hauth. unfold AnchorQuorumCertificate. by rewrite Hv, Hauth. Qed.

Lemma next_tick_eq b : next_tick b = u64 (mb_tick b + 1).
Proof. reflexivity. Qed.

Lemma certificate_anchored b cert : mb_qcs b = ∅ -> authorizedLocked b RoleQCAnchorer local_admin = true ->
  qc_BlockHash cert = anchor_commit -> qc_Threshold cert = 5 -> length (qc_Votes cert) = 5%nat ->
  let q := mkQCRecord (HashBytes (Marshal (QCHash_json cert))) (qc_Height cert) (qc_Round cert) anchor_commit "" 5 5
             (HashBytes "qc metadata") (next_tick b) in
  anchor_certificate None cert b = Ok (put_qc q b, q, "anchor record already exists: qc " ++ qr_QCHash q).
Proof.
  intros Hempty Hauth Hb Ht Hl q. unfold anchor_certificate, QuorumCertificateRecordFromCertificate, QuorumCertificateHash.
  rewrite HashCanonical_ok. cbn [mbind result_bind]. rewrite Hb, Ht, Hl. set (hash := HashBytes (Marshal _)) in *.
  assert (Hv : forall tick, ValidateQuorumCertificateRecord (mkQCRecord hash (qc_Height cert) (qc_Round cert) anchor_commit ""
      5 5 (HashBytes "qc metadata") tick) = Ok tt).
  { intros tick. unfold ValidateQuorumCertificateRecord. cbn [qr_QCHash qr_BlockHash qr_EventHash qr_Threshold qr_SignerCount].
    rewrite (proj2 (String.eqb_neq hash "")) by apply HashBytes_nonempty.
    rewrite (proj2 (String.eqb_neq anchor_commit "")) by apply HashBytes_nonempty. reflexivity. }
  change (Z.of_nat 5) with 5. rewrite (Hv 0). cbn [mbind result_bind].
  rewrite (anchor_certificate_outcome b _ (Hv 0) Hauth). cbn [qr_QCHash]. rewrite Hempty, lookup_empty.
  cbn [must mbind result_bind]. set (b' := put_qc _ b).
  assert (Hq : mb_qcs b' !! hash = Some q) by apply lookup_insert_eq.
  unfold GetQuorumCertificateAnchor, read. rewrite Hq. cbn [found].
  rewrite (anchor_certificate_outcome b' q (Hv (next_tick b)) Hauth). cbn [qr_QCHash q]. by rewrite Hq.
Qed.

Lemma status_after b q : mb_qcs b = ∅ -> Backend_Status b None = Ok (mkStatus "mock" 7 1 1 0 true) ->
  Backend_Status (put_qc q b) None = Ok (mkStatus "mock" 7 1 1 1 true).
Proof.
  intros Hq. unfold Backend_Status, read. cbn [mb_identities mb_credentials mb_proposals mb_qcs put_qc]. rewrite Hq.
  intros [= -> -> ->]. by rewrite map_size_insert_None.
Qed.

Section run.
Context (s : CryptoSuite) `{!LawfulSuite s} (Hsig : cs_SignatureAlgorithm s <> "") (Hkem : cs_KEMAlgorithm s <> "").
Context (ids : gmap string ValidatorIdentity) (Hids : ValidatorIdentitiesForSuite ∅ s = Ok ids).
#[local] Set Default Proof Using "All".

(** Every default validator has its identity, in its region. *)
Lemma identity_at id : id ∈ DefaultValidatorIDs -> exists v, ids !! id = Some v /\
  vi_ID v = id /\ vi_Region v = DefaultRegionFor id /\ SignatureAlgorithmName v <> "" /\ vi_KEMAlgorithm v <> "".
Proof.
  intros Hin. revert Hids. unfold ValidatorIdentitiesForSuite. set (step := fun acc id => _).
  assert (Hgen : forall l acc out, foldl step (Ok acc) l = Ok out ->
    (forall i v, acc !! i = Some v -> ValidatorIdentityForSuite i (DefaultRegionFor i) "" s = Ok v) ->
    (forall i v, out !! i = Some v -> ValidatorIdentityForSuite i (DefaultRegionFor i) "" s = Ok v) /\
    (forall i, i ∈ l \/ is_Some (acc !! i) -> is_Some (out !! i))).
  { induction l as [|i l IH]; intros acc out; cbn [foldl]; [intros [= <-] Hacc; set_solver|].
    cbn [step mbind result_bind]. rewrite lookup_empty. cbn [default].
    destruct (ValidatorIdentityForSuite i (DefaultRegionFor i) "" s) as [v|e] eqn:Ei; cbn [mbind result_bind].
    2: { intros Hout. exfalso. revert Hout. clear -l. induction l as [|j l IH]; [done|exact IH]. }
    intros Hout Hacc. apply IH in Hout as [H1 H2].
    - split; [done|]. intros j [Hj|Hj]; apply H2.
      + apply elem_of_cons in Hj as [->|Hj]; [right; rewrite lookup_insert_eq; by eexists|by left].
      + right. destruct (decide (i = j)) as [->|Hne]; [rewrite lookup_insert_eq; by eexists|by rewrite lookup_insert_ne].
    - intros j w. destruct (decide (i = j)) as [->|Hne]; [rewrite lookup_insert_eq; congruence|].
      rewrite lookup_insert_ne by done. apply Hacc. }
  intros Hrun. apply Hgen in Hrun as [Hval Hdom]; [|by intros i v ?%lookup_empty_Some].
  destruct (Hdom id) as [v Hv]; [by left|]. exists v. split; [done|]. apply Hval in Hv. revert Hv.
  unfold ValidatorIdentityForSuite. destruct (suite_signer (s := s) id) as (signer & -> & _).
  destruct (suite_kem (s := s) id) as (k & -> & _). intros [= <-]. unfold SignatureAlgorithmName. cbn.
  split_and!; try done. by rewrite (proj2 (String.eqb_neq _ _) Hsig).
Qed.

(** Its record. *)
Definition record_of (id : string) : IdentityRecord :=
  match IdentityRecordFromValidator (default no_identity (ids !! id)) ("local://metadata/" ++ id) with
  | Ok r => r
  | Err _ => mkIdentityRecord "" "" "" "" "" "" "" "" 0
  end.

Lemma record_of_ok id : id ∈ DefaultValidatorIDs -> exists v, ids !! id = Some v /\ vi_ID v = id /\
  IdentityRecordFromValidator v (id_MetadataURI (record_of id)) = Ok (record_of id) /\
  id_MetadataURI (record_of id) = "local://metadata/" ++ id /\
  ValidateIdentityRecord (record_of id) = Ok tt /\ id_ValidatorID (record_of id) = id /\
  id_Region (record_of id) = DefaultRegionFor id.
Proof.
  intros Hin. destruct (identity_at id Hin) as (v & Hv & Hid & Hregion & Hs & Hk). exists v.
  destruct (record_ok v ("local://metadata/" ++ id)) as (r & Hr & Hval & Hvid & Hreg & Huri); [|done..|].
  { rewrite Hid. intros ->. apply list_elem_of_In in Hin. cbn in Hin. naive_solver. }
  assert (Hrec : record_of id = r). { unfold record_of. rewrite Hv. change (default no_identity (Some v)) with v. by rewrite Hr. }
  rewrite Hrec, Huri, Hr, Hvid, Hreg, Hid, Hregion. done.
Qed.

Lemma register_run : register_all None ids DefaultValidatorIDs (NewMockBackend local_admin) = Ok (registered record_of).
Proof.
  apply register_all_ok; [reflexivity|apply (bool_decide_unpack _); vm_compute; exact I|done|].
  intros id Hin. destruct (record_of_ok id Hin) as (v & Hv & _ & Hr & Huri & Hval & Hid & _). rewrite Hv, <-Huri. done.
Qed.

Lemma mismatch_found :
  mismatch_outcome ids (SortedIdentityRecords (IdentityRecords (registered record_of)))
  = Ok "anchor record mismatch: validator identity anchor does not match local metadata for validator-1".
Proof.
  destruct (record_of_ok "validator-1") as (v & Hv & Hid & Hr & _ & _ & Hrid & Hreg).
  { apply list_elem_of_In. left. reflexivity. }
  pose proof (compare_region v (record_of "validator-1") 1 "wrong-region" Hr) as Hcmp. rewrite Hrid, Hid in Hcmp.
  rewrite registered_sorted. change (mismatch_outcome ids _) with
    (match CompareIdentityToValidator (with_region "wrong-region" (stamped "validator-1" 1 (record_of "validator-1")))
             (default no_identity (ids !! "validator-1")) with
     | Err e => Ok (err_text e)
     | Ok _ => Ok "mismatch detected"
     end).
  rewrite Hv. change (default no_identity (Some v)) with v. rewrite Hcmp; [reflexivity|]. rewrite Hreg. by vm_compute.
Qed.

Lemma synthetic_ok now : exists cert, syntheticQuorumCertificate now s = Ok cert /\
  VerifyQuorumCertificate cert ids (cs_NewVerifier s) = Ok tt /\ qc_Height cert = 2 /\ qc_Round cert = 0 /\
  qc_BlockHash cert = anchor_commit /\ qc_Threshold cert = 5 /\ length (qc_Votes cert) = 5%nat.
Proof.
  destruct (ValidatorIdentitiesForSuite_ok s ∅) as (ids' & Hids' & Hof). assert (ids' = ids) as -> by congruence.
  assert (Hvotes : forall voters, voters ⊆ DefaultValidatorIDs -> exists votes, synthetic_votes s voters = Ok votes /\
    map v_VoterID votes = voters /\ Forall (quorum_vote s ids 2 0 StagePrecommit anchor_commit) votes).
  { induction voters as [|voter voters IH]; intros Hsub; [by exists []|]. destruct IH as (votes & Hv & Hn & Hall); [set_solver|].
    destruct (suite_vote s ids DefaultValidatorIDs Hof 2 0 StagePrecommit anchor_commit) with (voter := voter)
      as (signer & v & Hs & Hsv & Hid & Hq); [done|done|apply HashBytes_nonempty|set_solver|].
    cbn [synthetic_votes]. rewrite Hs. cbn [mbind result_bind]. rewrite Hsv. cbn [mbind result_bind]. rewrite Hv.
    eexists. split; [reflexivity|]. cbn. by rewrite Hid, Hn; split; [|constructor]. }
  destruct (Hvotes (take 5 DefaultValidatorIDs)) as (votes & Hv & Hn & Hall).
  { intros id Hin. by apply elem_of_take in Hin as (i & Hi%list_elem_of_lookup_2 & _). }
  assert (Hlen : length votes = 5%nat). { by rewrite <-(length_map v_VoterID), Hn. }
  destruct (suite_quorum s ids DefaultValidatorIDs Hof 2 0 StagePrecommit anchor_commit) with (now := now) (votes := votes)
    (threshold := 5) as (cert & Hf & Hver & Hh & Hr & Hb & Ht & _ & Hl);
    [done|done|apply HashBytes_nonempty|done| |rewrite Hlen; lia| |].
  - rewrite Hn. apply (bool_decide_unpack _). vm_compute. exact I.
  - rewrite <-size_dom, (proj2 Hof). apply (bool_decide_unpack _). vm_compute. exact I.
  - exists cert. unfold syntheticQuorumCertificate. rewrite Hv. cbn [mbind result_bind]. by rewrite Hl, Hlen.
Qed.
End run.

(** The outcome of the run over a certificate. *)
Definition outcome (rec : string -> IdentityRecord) (cert : QuorumCertificate) (forge : bool) : Evidence :=
  let qcHash := HashBytes (Marshal (QCHash_json cert)) in
  mkEvidence (imap (fun i id => stamped id (Z.of_nat i + 1) (rec id)) DefaultValidatorIDs) [anchored_credential]
    [accepted_proposal]
    [mkQCRecord qcHash 2 0 anchor_commit "" 5 5 (HashBytes "qc metadata") 11]
    ("anchor record already exists: qc " ++ qcHash)
    "anchor record mismatch: validator identity anchor does not match local metadata for validator-1"
    authorization_model boundary_statement (contractTestStatus forge) "covered by go test ./core/anchors/..."
    anchor_limitations (mkStatus "mock" 7 1 1 1 true) "" "".

(** The steps of the run, one by one. *)
Lemma run_steps now forge fs outputDir s ids b1 b2 credential proposal cert b3 qcRecord duplicate mismatch status :
  ValidatorIdentitiesForSuite ∅ s = Ok ids ->
  register_all None ids DefaultValidatorIDs (NewMockBackend local_admin) = Ok b1 ->
  anchor_records None b1 = Ok (b2, credential, proposal) -> syntheticQuorumCertificate now s = Ok cert ->
  anchor_certificate None cert b2 = Ok (b3, qcRecord, duplicate) ->
  mismatch_outcome ids (SortedIdentityRecords (IdentityRecords b1)) = Ok mismatch -> Backend_Status b3 None = Ok status ->
  let e := mkEvidence (SortedIdentityRecords (IdentityRecords b1)) [credential] [proposal] [qcRecord] duplicate mismatch
             authorization_model boundary_statement (contractTestStatus forge) "covered by go test ./core/anchors/..."
             anchor_limitations status "" "" in
  RunEvidenceScenario None (Ok s) now forge fs outputDir =
  if String.eqb outputDir "" then Ok e
  else _ ← WriteEvidenceArtifacts fs outputDir e;
       Ok (set_outputs (af_Join fs outputDir "anchor-evidence.json") (af_Join fs outputDir "anchor-evidence.txt") e).
Proof.
  intros H1 H2 H3 H4 H5 H6 H7 e. unfold RunEvidenceScenario. cbn [mbind result_bind]. rewrite H1. cbn [mbind result_bind].
  rewrite H2. cbn [mbind result_bind]. rewrite H3. cbn [mbind result_bind]. rewrite H4. cbn [mbind result_bind].
  rewrite H5. cbn [mbind result_bind]. rewrite H6. cbn [mbind result_bind]. rewrite H7. cbn [mbind result_bind].
  by destruct (String.eqb outputDir "").
Qed.

(** The anchor scenario succeeds.  For every lawful suite that names its algorithms,
    the run anchors the seven validators' records in order, each matching its validator,
    the credential, the proposal, accepted one tick later, and a certificate of five
    validators that verifies, on ticks one to eleven; the second anchoring of the
    certificate is refused as a duplicate, the identity with another region is found not
    to match, and nothing else is counted.  With an output directory it also writes that
    evidence, and fails only when a write does. *)
Theorem anchor_scenario s now forge fs outputDir : LawfulSuite s ->
  cs_SignatureAlgorithm s <> "" -> cs_KEMAlgorithm s <> "" ->
  exists ids rec cert, ValidatorIdentitiesForSuite ∅ s = Ok ids /\
    (forall id, id ∈ DefaultValidatorIDs -> exists v, ids !! id = Some v /\ vi_ID v = id /\
       forall tick, CompareIdentityToValidator (stamped id tick (rec id)) v = Ok tt) /\
    syntheticQuorumCertificate now s = Ok cert /\ VerifyQuorumCertificate cert ids (cs_NewVerifier s) = Ok tt /\
    RunEvidenceScenario None (Ok s) now forge fs outputDir =
    if String.eqb outputDir "" then Ok (outcome rec cert forge)
    else _ ← WriteEvidenceArtifacts fs outputDir (outcome rec cert forge);
         Ok (set_outputs (af_Join fs outputDir "anchor-evidence.json") (af_Join fs outputDir "anchor-evidence.txt")
               (outcome rec cert forge)).
Proof.
  intros Hs Hsig Hkem. destruct (ValidatorIdentitiesForSuite_ok s ∅) as (ids & Hids & _).
  destruct (synthetic_ok s Hsig Hkem ids Hids now) as (cert & Hcert & Hver & Hh & Hr & Hb & Ht & Hl).
  exists ids, (record_of ids), cert. split; [done|]. split.
  { intros id Hin. destruct (record_of_ok s Hsig Hkem ids Hids id Hin) as (v & Hv & Hid & Hrec & _ & _ & Hrid & _).
    exists v. split; [done|]. split; [done|]. intros tick. rewrite <-Hrid at 1. by apply compare_same. }
  split; [done|]. split; [done|].
  destruct (with_records_facts (record_of ids)) as (Hq & Hauth & Htick & Hstatus).
  pose proof (certificate_anchored _ cert Hq Hauth Hb Ht Hl) as Hanchored. cbv zeta in Hanchored.
  rewrite Hh, Hr, next_tick_eq, Htick in Hanchored. change (u64 (10 + 1)) with 11 in Hanchored.
  by rewrite (run_steps now forge fs outputDir s ids _ _ _ _ cert _ _ _ _ _ Hids
    (register_run s Hsig Hkem ids Hids) (records_anchored (record_of ids)) Hcert Hanchored
    (mismatch_found s Hsig Hkem ids Hids) (status_after _ _ Hq Hstatus)), registered_sorted.
Qed.

(** Every write succeeds. *)
Definition demo_files : Files := mkFiles (fun _ => Ok tt) (fun _ _ => Ok tt) (fun dir name => dir ++ "/" ++ name).

Lemma anchor_scenario_witness : exists rec cert,
  syntheticQuorumCertificate (mkTime 7 "") demo_pq = Ok cert /\
  RunEvidenceScenario None (Ok demo_pq) (mkTime 7 "") false demo_files "out"
  = Ok (set_outputs "out/anchor-evidence.json" "out/anchor-evidence.txt" (outcome rec cert false)).
Proof.
  destruct (anchor_scenario demo_pq (mkTime 7 "") false demo_files "out" demo_pq_lawful) as (ids & rec & cert & _ & _ & Hcert & _ & Hrun);
    [vm_compute; discriminate..|].
  exists rec, cert. exact (conj Hcert Hrun).
Defined.
