(* ===== verification/Client.v ===== *)
(** * The clients of an anchor registry: contracts/client/client.go

    The interface of core/anchors/anchors.go, which the mock backend implements, and the
    placeholder of a Polygon client, which is configured from the environment and refuses
    every operation. *)

From S2P Require Import Prelude Identity Anchors.
Local Open Scope string_scope.
Local Open Scope Z_scope.

(** ** The interface *)

(** [anchors.Client]; a client is returned with the result of an operation that may
    change it, and what is not found is [None]. *)
Class Client (C : Type) := {
  Client_RegisterIdentity : C -> option error -> string -> IdentityRecord -> C * result unit;
  Client_UpdateIdentity : C -> option error -> string -> IdentityRecord -> C * result unit;
  Client_GetIdentity : C -> option error -> string -> result (option IdentityRecord);
  Client_AnchorCredential : C -> option error -> string -> CredentialRecord -> C * result unit;
  Client_GetCredential : C -> option error -> string -> result (option CredentialRecord);
  Client_AnchorGovernanceProposal : C -> option error -> string -> GovernanceProposalRecord -> C * result unit;
  Client_UpdateGovernanceProposalState : C -> option error -> string -> string -> string -> C * result unit;
  Client_GetGovernanceProposal : C -> option error -> string -> result (option GovernanceProposalRecord);
  Client_AnchorQuorumCertificate : C -> option error -> string -> QuorumCertificateRecord -> C * result unit;
  Client_GetQuorumCertificateAnchor : C -> option error -> string -> result (option QuorumCertificateRecord);
  Client_Status : C -> option error -> result Status
}.

#[export] Instance mock_client : Client MockBackend := {
  Client_RegisterIdentity := RegisterIdentity;
  Client_UpdateIdentity := UpdateIdentity;
  Client_GetIdentity := GetIdentity;
  Client_AnchorCredential := AnchorCredential;
  Client_GetCredential := GetCredential;
  Client_AnchorGovernanceProposal := AnchorGovernanceProposal;
  Client_UpdateGovernanceProposalState := UpdateGovernanceProposalState;
  Client_GetGovernanceProposal := GetGovernanceProposal;
  Client_AnchorQuorumCertificate := AnchorQuorumCertificate;
  Client_GetQuorumCertificateAnchor := GetQuorumCertificateAnchor;
  Client_Status := Backend_Status
}.

(** ** The Polygon placeholder *)

Definition EnvRPCURL : string := "PQ_FABRIC_POLYGON_RPC_URL".
Definition EnvIdentityAddress : string := "PQ_FABRIC_IDENTITY_ANCHOR_ADDRESS".
Definition EnvCredentialAddress : string := "PQ_FABRIC_CREDENTIAL_ANCHOR_ADDRESS".
Definition EnvGovernanceAddress : string := "PQ_FABRIC_GOVERNANCE_ANCHOR_ADDRESS".
Definition EnvQCAddress : string := "PQ_FABRIC_QC_ANCHOR_ADDRESS".

Definition ErrNotConfigured : error := mkError (Some "client.ErrNotConfigured") "polygon anchor client is not configured".

Record Config := mkConfig {
  co_RPCURL : string;
  co_IdentityAddress : string;
  co_CredentialAddress : string;
  co_GovernanceAddress : string;
  co_QCAddress : string
}.

(** The pointer of a client: nil, or its configuration. *)
Definition PolygonClient : Type := option Config.

(** The environment by the names of its variables; one that is not set is empty. *)
Definition ConfigFromEnv (env : gmap string string) : Config :=
  let Getenv name := default "" (env !! name) in
  mkConfig (Getenv EnvRPCURL) (Getenv EnvIdentityAddress) (Getenv EnvCredentialAddress) (Getenv EnvGovernanceAddress)
    (Getenv EnvQCAddress).

Definition NewPolygonClient (config : Config) : result PolygonClient :=
  if String.eqb (co_RPCURL config) "" || String.eqb (co_IdentityAddress config) "" ||
     String.eqb (co_CredentialAddress config) "" || String.eqb (co_GovernanceAddress config) "" ||
     String.eqb (co_QCAddress config) ""
  then Err ErrNotConfigured else Ok (Some config).

Definition NewPolygonClientFromEnv (env : gmap string string) : result PolygonClient := NewPolygonClient (ConfigFromEnv env).

Definition notImplemented (c : PolygonClient) (operation : string) : error :=
  match c with
  | None => ErrNotConfigured
  | Some _ => errors_New (operation ++ ": generated ABI bindings are not wired in this prototype phase")
  end.

Definition refuse {A} (operation : string) (c : PolygonClient) : PolygonClient * result A :=
  (c, Err (notImplemented c operation)).

Definition Polygon_Status (c : PolygonClient) (ctx : option error) : result Status :=
  match ctx with
  | Some e => Err e
  | None =>
      match c with
      | None => Err ErrNotConfigured
      | Some _ => Ok (mkStatus "polygon-placeholder" 0 0 0 0 true)
      end
  end.

#[export] Instance polygon_client : Client PolygonClient := {
  Client_RegisterIdentity c _ _ _ := refuse "RegisterIdentity" c;
  Client_UpdateIdentity c _ _ _ := refuse "UpdateIdentity" c;
  Client_GetIdentity c _ _ := (refuse "GetIdentity" c).2;
  Client_AnchorCredential c _ _ _ := refuse "AnchorCredential" c;
  Client_GetCredential c _ _ := (refuse "GetCredential" c).2;
  Client_AnchorGovernanceProposal c _ _ _ := refuse "AnchorGovernanceProposal" c;
  Client_UpdateGovernanceProposalState c _ _ _ _ := refuse "UpdateGovernanceProposalState" c;
  Client_GetGovernanceProposal c _ _ := (refuse "GetGovernanceProposal" c).2;
  Client_AnchorQuorumCertificate c _ _ _ := refuse "AnchorQuorumCertificate" c;
  Client_GetQuorumCertificateAnchor c _ _ := (refuse "GetQuorumCertificateAnchor" c).2;
  Client_Status := Polygon_Status
}.

(** The writes of any client, as the operations of [Anchors.run_op]. *)
Definition client_op {C} `{Client C} (c : C) (ctx : option error) (actor : string) (op : anchor_op) : C * result unit :=
  match op with
  | OpRegister r => Client_RegisterIdentity c ctx actor r
  | OpUpdate r => Client_UpdateIdentity c ctx actor r
  | OpCredential r => Client_AnchorCredential c ctx actor r
  | OpProposal r => Client_AnchorGovernanceProposal c ctx actor r
  | OpProposalState hash state => Client_UpdateGovernanceProposalState c ctx actor hash state
  | OpQC r => Client_AnchorQuorumCertificate c ctx actor r
  end.

Lemma client_op_mock b ctx actor op : client_op b ctx actor op = run_op b ctx actor op.
Proof. by destruct op. Qed.

(** The placeholder is made exactly when everything is configured, and then neither
    writes nor reads anything: every operation fails, whoever asks, although its status
    says that it is configured. *)
Lemma placeholder_refuses env :
  match NewPolygonClientFromEnv env with
  | Ok c =>
      (forall name, name ∈ [EnvRPCURL; EnvIdentityAddress; EnvCredentialAddress; EnvGovernanceAddress; EnvQCAddress] ->
         exists value, env !! name = Some value /\ value <> "") /\
      Client_Status c None = Ok (mkStatus "polygon-placeholder" 0 0 0 0 true) /\
      (forall ctx actor op, exists e, client_op c ctx actor op = (c, Err e)) /\
      (forall ctx key, is_ok (Client_GetIdentity c ctx key) = false /\ is_ok (Client_GetCredential c ctx key) = false /\
         is_ok (Client_GetGovernanceProposal c ctx key) = false /\
         is_ok (Client_GetQuorumCertificateAnchor c ctx key) = false)
  | Err e => e = ErrNotConfigured
  end.
Proof.
  unfold NewPolygonClientFromEnv, NewPolygonClient. destruct (_ || _) eqn:E; [done|].
  unfold ConfigFromEnv in E. cbv zeta in E. cbn [co_RPCURL co_IdentityAddress co_CredentialAddress co_GovernanceAddress co_QCAddress] in E.
  rewrite !orb_false_iff in E. destruct E as ((((H1 & H2) & H3) & H4) & H5). split_and!; [|done| |done].
  - assert (Hset : forall name, String.eqb (default "" (env !! name)) "" = false -> exists value,
      env !! name = Some value /\ value <> "").
    { intros name Hn%String.eqb_neq. destruct (env !! name) as [value|]; [by exists value|done]. }
    intros name Hin. repeat (apply elem_of_cons in Hin as [->|Hin]; [by apply Hset|]). by apply elem_of_nil in Hin.
  - intros ctx actor op. destruct op; by eexists.
Qed.
