(* ===== verification/Evidence.v ===== *)
(** * Evidence receipts: core/evidence/evidence.go

    Submissions, their hash and payload, the receipts that tie a submission to
    a committed block and its quorum certificate, and their verification. *)

From S2P Require Import Prelude Sha256 Json JsonParse JsonDecode Identity State Protocol Codec Anchors.
Local Open Scope Z_scope.

Definition SchemaVersion : string := "pq-fabric.evidence.v1".
Definition VerificationValid : string := "valid".
Definition VerificationInvalid : string := "invalid".
Definition AnchorNotRequested : string := "not_requested".
Definition AnchorPending : string := "pending_testnet_anchor".
Definition AnchorUnavailable : string := "unavailable".

Definition ErrInvalid : string := "evidence.ErrInvalid".

Definition invalid {A} (text : string) : result A := Err (wrap_err ErrInvalid "invalid evidence" text).

(** ** Data *)

Record EvidenceSubmission := mkSubmission {
  es_SchemaVersion : string;
  es_EvidenceCategory : string;
  es_ArtifactHash : string;
  es_MetadataHash : string;
  es_SubmittingOrganization : string;
  es_IdempotencyKey : string;
  es_AnchorRequested : bool
}.

Record EvidenceReceipt := mkReceipt {
  re_ReceiptID : string;
  re_EvidenceID : string;
  re_Submission : EvidenceSubmission;
  re_EventHash : string;
  re_CommitHeight : Z;
  re_CommitRound : Z;
  re_BlockHash : string;
  re_QCHash : string;
  re_MembershipVersion : Z;
  re_ValidatorSetHash : string;
  re_SignerCount : Z;
  re_ValidatorIDs : list string;
  re_VerificationStatus : string;
  re_AnchorStatus : string;
  re_AnchorTransaction : string;
  re_Commit : CommitRequest;
  re_CreatedAtUnixMilli : Z
}.

Record VerificationResult := mkVerification {
  vf_Valid : bool;
  vf_Status : string;
  vf_Reason : string;
  vf_ReceiptID : string;
  vf_EvidenceID : string;
  vf_ExpectedHash : string;
  vf_ObservedHash : string;
  vf_QuorumStatus : string;
  vf_AnchorStatus : string;
  vf_SignerCount : Z;
  vf_Threshold : Z;
  vf_ValidatorSize : Z
}.

Record VerificationRequest := mkVerificationRequest {
  vq_ReceiptID : string;
  vq_EvidenceID : string;
  vq_Receipt : option EvidenceReceipt
}.

Record AnchorStatus := mkAnchorStatus {
  as_QCHash : string;
  as_Status : string;
  as_ReceiptID : string;
  as_EvidenceID : string;
  as_AnchorTransaction : string;
  as_Message : string
}.

(** [omitempty] on a boolean. *)
Definition omit_false (key : string) (b : bool) : list (string * json) :=
  if b then [(key, JBool true)] else [].

Definition Submission_json (s : EvidenceSubmission) : json :=
  JObj ([("schema_version", JStr (es_SchemaVersion s));
         ("evidence_category", JStr (es_EvidenceCategory s));
         ("artifact_hash", JStr (es_ArtifactHash s)); ("metadata_hash", JStr (es_MetadataHash s));
         ("submitting_organization", JStr (es_SubmittingOrganization s));
         ("idempotency_key", JStr (es_IdempotencyKey s))] ++
        omit_false "anchor_requested" (es_AnchorRequested s))%list.

Definition Submission_of (fs : list (string * json)) : result EvidenceSubmission :=
  schema ← get_string "schema_version" fs;
  category ← get_string "evidence_category" fs;
  artifact ← get_string "artifact_hash" fs;
  metadata ← get_string "metadata_hash" fs;
  organization ← get_string "submitting_organization" fs;
  key ← get_string "idempotency_key" fs;
  anchor ← get_bool "anchor_requested" fs;
  Ok (mkSubmission schema category artifact metadata organization key anchor).

Definition Receipt_json (r : EvidenceReceipt) : json :=
  JObj ([("receipt_id", JStr (re_ReceiptID r)); ("evidence_id", JStr (re_EvidenceID r));
         ("submission", Submission_json (re_Submission r)); ("event_hash", JStr (re_EventHash r));
         ("commit_height", JInt (re_CommitHeight r)); ("commit_round", JInt (re_CommitRound r));
         ("block_hash", JStr (re_BlockHash r)); ("qc_hash", JStr (re_QCHash r))] ++
        omit_int "membership_version" (re_MembershipVersion r) ++
        omit_str "validator_set_hash" (re_ValidatorSetHash r) ++
        [("signer_count", JInt (re_SignerCount r));
         ("validator_ids", list_json JStr (re_ValidatorIDs r));
         ("verification_status", JStr (re_VerificationStatus r));
         ("anchor_status", JStr (re_AnchorStatus r))] ++
        omit_str "anchor_transaction" (re_AnchorTransaction r) ++
        [("commit", Commit_json (re_Commit r));
         ("created_at_unix_milli", JInt (re_CreatedAtUnixMilli r))])%list.

Definition Receipt_of (fs : list (string * json)) : result EvidenceReceipt :=
  receipt_id ← get_string "receipt_id" fs;
  evidence_id ← get_string "evidence_id" fs;
  submission ← get_struct Submission_of "submission" fs;
  event_hash ← get_string "event_hash" fs;
  height ← get_uint64 "commit_height" fs;
  round ← get_uint64 "commit_round" fs;
  block_hash ← get_string "block_hash" fs;
  qc_hash ← get_string "qc_hash" fs;
  version ← get_uint64 "membership_version" fs;
  set_hash ← get_string "validator_set_hash" fs;
  signers ← get_int "signer_count" fs;
  ids ← get_list "" dec_string "validator_ids" fs;
  status ← get_string "verification_status" fs;
  anchor ← get_string "anchor_status" fs;
  transaction ← get_string "anchor_transaction" fs;
  commit ← get_struct Commit_of "commit" fs;
  created ← get_int "created_at_unix_milli" fs;
  Ok (mkReceipt receipt_id evidence_id submission event_hash height round block_hash qc_hash version
        set_hash signers ids status anchor transaction commit created).

Definition MarshalReceipt (r : EvidenceReceipt) : result string := Ok (Marshal (Receipt_json r)).

Definition UnmarshalReceipt (data : string) : result EvidenceReceipt := Unmarshal Receipt_of data.

(** ** Submissions *)

Definition NormalizeSubmission (s : EvidenceSubmission) : EvidenceSubmission :=
  let schema := TrimSpace (es_SchemaVersion s) in
  mkSubmission (if String.eqb schema "" then SchemaVersion else schema)
    (TrimSpace (es_EvidenceCategory s)) (TrimSpace (es_ArtifactHash s))
    (TrimSpace (es_MetadataHash s)) (TrimSpace (es_SubmittingOrganization s))
    (TrimSpace (es_IdempotencyKey s)) (es_AnchorRequested s).

Definition ValidateSubmission (s : EvidenceSubmission) : result unit :=
  let s := NormalizeSubmission s in
  if negb (String.eqb (es_SchemaVersion s) SchemaVersion) then
    invalid ("unsupported schema version " ++ Quote (es_SchemaVersion s))%string
  else if String.eqb (es_EvidenceCategory s) "" then invalid "evidence category required"
  else if String.eqb (es_ArtifactHash s) "" then invalid "artifact hash required"
  else if String.eqb (es_MetadataHash s) "" then invalid "metadata hash required"
  else if String.eqb (es_SubmittingOrganization s) "" then invalid "submitting organization required"
  else if String.eqb (es_IdempotencyKey s) "" then invalid "idempotency key required"
  else Ok tt.

Definition EventKind : string := "pq-fabric/evidence/event/v1".
Definition PayloadKind : string := "pq-fabric/evidence/submission/v1".

Definition EventHash (s : EvidenceSubmission) : result string :=
  let s := NormalizeSubmission s in
  _ ← ValidateSubmission s;
  HashCanonical (JObj [("kind", JStr EventKind); ("submission", Submission_json s)]).

Definition Payload_json (eventHash : string) (s : EvidenceSubmission) : json :=
  JObj [("kind", JStr PayloadKind); ("event_hash", JStr eventHash);
        ("submission", Submission_json s)].

Definition SubmissionPayload (s : EvidenceSubmission) : result string :=
  let s := NormalizeSubmission s in
  eventHash ← EventHash s;
  CanonicalJSON (Payload_json eventHash s).

Definition Payload_of (fs : list (string * json)) : result (string * string * EvidenceSubmission) :=
  kind ← get_string "kind" fs;
  eventHash ← get_string "event_hash" fs;
  submission ← get_struct Submission_of "submission" fs;
  Ok (kind, eventHash, submission).

(** [(submission, ok, err)] is [Ok None] when the payload is not evidence, an
    error when it is evidence but does not match its hash. *)
Definition SubmissionFromPayload (payload : string) : result (option EvidenceSubmission) :=
  match Unmarshal Payload_of payload with
  | Err _ => Ok None
  | Ok (kind, hash, submission) =>
      if negb (String.eqb kind PayloadKind) then Ok None
      else
        let submission := NormalizeSubmission submission in
        eventHash ← EventHash submission;
        if negb (String.eqb hash eventHash) then invalid "payload event hash mismatch"
        else Ok (Some submission)
  end.

(** ** Receipts *)

Definition uniqueValidatorIDs (votes : list Vote) : list string :=
  sorted_keys (foldl (fun seen v => if negb (String.eqb (v_VoterID v) "")
                                    then <[v_VoterID v := tt]> seen else seen)
                 (∅ : gmap string unit) votes).

Definition equalStringSlices (a b : list string) : bool :=
  bool_decide (length a = length b) && bool_decide (sort_strings a = sort_strings b).

Definition ReceiptID (eventHash blockHash qcHash : string) : result string :=
  HashCanonical (JObj [("kind", JStr "pq-fabric/evidence/receipt/v1"); ("event_hash", JStr eventHash);
                       ("block_hash", JStr blockHash); ("qc_hash", JStr qcHash)]).

Definition signer_count (c : QuorumCertificate) : Z :=
  Z.of_nat (length (uniqueValidatorIDs (qc_Votes c))).

Definition NewReceipt (now : Time) (submission : EvidenceSubmission) (commit : CommitRequest)
  : result EvidenceReceipt :=
  let submission := NormalizeSubmission submission in
  let block := c_Block commit in
  let cert := c_Certificate commit in
  payload ← SubmissionPayload submission;
  if negb (String.eqb (b_Payload block) payload) then
    invalid "commit payload does not match evidence submission"
  else
    eventHash ← EventHash submission;
    blockHash ← Block_Hash block;
    qcHash ← QuorumCertificateHash cert;
    receiptID ← ReceiptID eventHash blockHash qcHash;
    let anchorStatus := if es_AnchorRequested submission then AnchorPending else AnchorNotRequested in
    Ok (mkReceipt receiptID eventHash submission eventHash (b_Height block) (b_Round block) blockHash
          qcHash (b_MembershipVersion block) (b_ValidatorSetHash block) (signer_count cert)
          (uniqueValidatorIDs (qc_Votes cert)) VerificationValid anchorStatus "" commit
          (UnixMilli now)).

(** ** Verification *)

(** The result a verification starts from, with the reason it stops at. *)
Definition verification (valid : bool) (reason observed quorum : string) (threshold size : Z)
  (r : EvidenceReceipt) : VerificationResult :=
  mkVerification valid (if valid then VerificationValid else VerificationInvalid) reason
    (re_ReceiptID r) (re_EvidenceID r) (re_EventHash r) observed quorum (re_AnchorStatus r)
    (re_SignerCount r) threshold size.

(** The checks that tie the receipt's fields to its commit; the text of the
    first one that fails. *)
Definition receipt_mismatch (r : EvidenceReceipt) (observed : string) : option string :=
  let block := c_Block (re_Commit r) in
  let cert := c_Certificate (re_Commit r) in
  if negb (String.eqb (re_EventHash r) observed) || negb (String.eqb (re_EvidenceID r) observed)
  then Some "receipt event hash does not match submission"%string
  else match SubmissionPayload (re_Submission r) with
  | Err e => Some (err_text e)
  | Ok payload =>
  if negb (String.eqb (b_Payload block) payload)
  then Some "receipt commit payload does not match submission"%string
  else match Block_Hash block with
  | Err e => Some (err_text e)
  | Ok blockHash =>
  if negb (String.eqb (re_BlockHash r) blockHash) || negb (String.eqb (qc_BlockHash cert) blockHash)
  then Some "receipt block hash does not match commit"%string
  else match QuorumCertificateHash cert with
  | Err e => Some (err_text e)
  | Ok qcHash =>
  if negb (String.eqb (re_QCHash r) qcHash)
  then Some "receipt quorum certificate hash does not match commit certificate"%string
  else match ReceiptID (re_EventHash r) (re_BlockHash r) (re_QCHash r) with
  | Err e => Some (err_text e)
  | Ok receiptID =>
  if negb (String.eqb (re_ReceiptID r) receiptID)
  then Some "receipt id does not match event, block, and quorum certificate hashes"%string
  else if negb (re_CommitHeight r =? b_Height block) || negb (re_CommitRound r =? b_Round block)
  then Some "receipt commit height or round does not match commit"%string
  else if negb (re_MembershipVersion r =? b_MembershipVersion block) ||
          negb (String.eqb (re_ValidatorSetHash r) (b_ValidatorSetHash block))
  then Some "receipt membership version or validator set hash does not match commit block"%string
  else if negb (b_MembershipVersion block =? qc_MembershipVersion cert) ||
          negb (String.eqb (b_ValidatorSetHash block) (qc_ValidatorSetHash cert))
  then Some "commit block and quorum certificate membership metadata differ"%string
  else None
  end end end end.

(** [verifier] is [None] for the nil interface. *)
Definition VerifyReceipt (r : EvidenceReceipt) (identities : gmap string ValidatorIdentity)
  (verifier : option SignatureVerifier) (threshold : Z) : VerificationResult :=
  let size := Z.of_nat (size identities) in
  let cert := c_Certificate (re_Commit r) in
  match EventHash (re_Submission r) with
  | Err e => verification false (err_text e) "" "not_checked" threshold size r
  | Ok observed =>
      match receipt_mismatch r observed with
      | Some reason => verification false reason observed "not_checked" threshold size r
      | None =>
          let threshold := if threshold <=? 0 then qc_Threshold cert else threshold in
          let quorum :=
            match verifier with
            | Some verifier =>
                if 0 <? size then
                  match VerifyQuorumCertificate cert identities verifier with
                  | Err e => inr ("invalid", err_text e)%string
                  | Ok _ => inl "valid"%string
                  end
                else if (threshold <=? qc_Threshold cert) && (threshold <=? signer_count cert)
                then inl "structurally_present"%string
                else inr ("insufficient", "quorum certificate has insufficient unique signers")%string
            | None =>
                if (threshold <=? qc_Threshold cert) && (threshold <=? signer_count cert)
                then inl "structurally_present"%string
                else inr ("insufficient", "quorum certificate has insufficient unique signers")%string
            end in
          match quorum with
          | inr (status, reason) => verification false reason observed status threshold size r
          | inl status =>
              if negb (re_SignerCount r =? signer_count cert) then
                verification false "receipt signer count does not match quorum certificate"
                  observed status threshold size r
              else if negb (equalStringSlices (re_ValidatorIDs r) (uniqueValidatorIDs (qc_Votes cert)))
              then verification false "receipt validator id list does not match quorum certificate"
                     observed status threshold size r
              else verification true "receipt is valid" observed status threshold size r
          end
      end
  end.

(** ** Lemmas *)

Lemma NormalizeSubmission_idemp s : NormalizeSubmission (NormalizeSubmission s) = NormalizeSubmission s.
Proof.
  unfold NormalizeSubmission. cbv zeta.
  cbn [es_SchemaVersion es_EvidenceCategory es_ArtifactHash es_MetadataHash
    es_SubmittingOrganization es_IdempotencyKey es_AnchorRequested].
  rewrite !TrimSpace_idemp.
  destruct (String.eqb (TrimSpace (es_SchemaVersion s)) "") eqn:E; [reflexivity|].
  by rewrite TrimSpace_idemp, E.
Qed.

#[local] Opaque NormalizeSubmission.

Lemma ValidateSubmission_normal s : ValidateSubmission (NormalizeSubmission s) = ValidateSubmission s.
Proof. unfold ValidateSubmission. by rewrite NormalizeSubmission_idemp. Qed.

(** The hash of a valid submission. *)
Definition event_hash (s : EvidenceSubmission) : string :=
  HashBytes (Marshal (JObj [("kind", JStr EventKind);
                            ("submission", Submission_json (NormalizeSubmission s))])).

Lemma EventHash_ok s h : EventHash s = Ok h <-> ValidateSubmission s = Ok tt /\ h = event_hash s.
Proof.
  unfold EventHash. cbv zeta. rewrite ValidateSubmission_normal, bind_ok. split.
  - by intros ([] & Hv & [= <-]).
  - intros [Hv ->]. by exists tt.
Qed.

Lemma event_hash_normal s : event_hash (NormalizeSubmission s) = event_hash s.
Proof. unfold event_hash. by rewrite NormalizeSubmission_idemp. Qed.

(** The payload of a valid submission. *)
Definition payload_of (s : EvidenceSubmission) : string :=
  Marshal (Payload_json (event_hash s) (NormalizeSubmission s)).

Lemma SubmissionPayload_ok s p :
  SubmissionPayload s = Ok p <-> ValidateSubmission s = Ok tt /\ p = payload_of s.
Proof.
  unfold SubmissionPayload. cbv zeta. rewrite bind_ok. setoid_rewrite EventHash_ok.
  rewrite ValidateSubmission_normal, event_hash_normal. unfold CanonicalJSON, payload_of. split.
  - by intros (h & [Hv ->] & [= <-]).
  - intros [Hv ->]. by exists (event_hash s).
Qed.

Lemma SubmissionPayload_normal s : SubmissionPayload (NormalizeSubmission s) = SubmissionPayload s.
Proof.
  unfold SubmissionPayload, EventHash. cbv zeta.
  by rewrite !NormalizeSubmission_idemp, ValidateSubmission_normal.
Qed.

Lemma payload_of_eq s :
  payload_of s = Marshal (Payload_json (event_hash s) (NormalizeSubmission s)).
Proof. reflexivity. Qed.

Lemma event_hash_eq s :
  event_hash s = HashBytes (Marshal (JObj [("kind", JStr EventKind);
                            ("submission", Submission_json (NormalizeSubmission s))])).
Proof. reflexivity. Qed.

#[global] Opaque event_hash payload_of.

Lemma elem_of_fold_ids votes (m : gmap string unit) id :
  is_Some (foldl (fun seen v => if negb (String.eqb (v_VoterID v) "")
                                then <[v_VoterID v := tt]> seen else seen) m votes !! id) <->
  is_Some (m !! id) \/ (id <> "" /\ id ∈ map v_VoterID votes).
Proof.
  revert m. induction votes as [|v votes IH]; intros m; cbn [foldl map].
  { rewrite elem_of_nil. tauto. }
  rewrite IH, elem_of_cons. destruct (String.eqb_spec (v_VoterID v) "") as [E|E]; cbn [negb].
  - rewrite E. naive_solver.
  - destruct (decide (v_VoterID v = id)) as [<-|Hne].
    + rewrite lookup_insert_eq. naive_solver.
    + rewrite lookup_insert_ne by done. naive_solver.
Qed.

Lemma elem_of_uniqueValidatorIDs votes id :
  id ∈ uniqueValidatorIDs votes <-> id <> "" /\ id ∈ map v_VoterID votes.
Proof.
  unfold uniqueValidatorIDs. rewrite elem_of_sorted_keys, elem_of_fold_ids, lookup_empty.
  split; [intros [[]|]; done|by right].
Qed.

Lemma uniqueValidatorIDs_canonical votes :
  NoDup (uniqueValidatorIDs votes) /\ StronglySorted String.le (uniqueValidatorIDs votes).
Proof. unfold uniqueValidatorIDs. split; auto with go. Qed.

Lemma equalStringSlices_ok a b : equalStringSlices a b = true <-> a ≡ₚ b.
Proof.
  unfold equalStringSlices. rewrite andb_true_iff, !bool_decide_eq_true. split.
  - intros [_ E]. by rewrite <-(sort_strings_perm a), E, sort_strings_perm.
  - intros Hp. split; [by rewrite Hp|by apply sort_strings_unique].
Qed.

(** The fields of a receipt that its submission and commit determine. *)
Definition receipt_matches (r : EvidenceReceipt) : Prop :=
  let block := c_Block (re_Commit r) in
  let cert := c_Certificate (re_Commit r) in
  ValidateSubmission (re_Submission r) = Ok tt /\
  re_EventHash r = event_hash (re_Submission r) /\ re_EvidenceID r = event_hash (re_Submission r) /\
  b_Payload block = payload_of (re_Submission r) /\
  re_BlockHash r = hash_of block /\ qc_BlockHash cert = hash_of block /\
  QuorumCertificateHash cert = Ok (re_QCHash r) /\
  ReceiptID (re_EventHash r) (re_BlockHash r) (re_QCHash r) = Ok (re_ReceiptID r) /\
  re_CommitHeight r = b_Height block /\ re_CommitRound r = b_Round block /\
  re_MembershipVersion r = b_MembershipVersion block /\
  re_ValidatorSetHash r = b_ValidatorSetHash block /\
  qc_MembershipVersion cert = b_MembershipVersion block /\
  qc_ValidatorSetHash cert = b_ValidatorSetHash block.

Lemma receipt_mismatch_none r :
  ValidateSubmission (re_Submission r) = Ok tt ->
  receipt_mismatch r (event_hash (re_Submission r)) = None <-> receipt_matches r.
Proof.
  intros Hv. unfold receipt_mismatch, receipt_matches. cbv zeta.
  assert (Hp : SubmissionPayload (re_Submission r) = Ok (payload_of (re_Submission r)))
    by (by apply SubmissionPayload_ok).
  rewrite Hp, Block_Hash_ok. unfold QuorumCertificateHash, ReceiptID. rewrite !HashCanonical_ok.
  split.
  - intros H. run_ok H. reflect_bools. destruct_and?. split_and!; congruence.
  - intros (_ & -> & -> & -> & -> & -> & [= <-] & [= <-] & -> & -> & -> & -> & -> & ->).
    by rewrite !String.eqb_refl, !Z.eqb_refl.
Qed.

(** A receipt is valid for a validator set exactly when its submission is
    complete, every hash and id of it is the one its submission and commit
    determine, the commit's certificate verifies for the set, and the listed
    signers are the certificate's. *)
Theorem VerifyReceipt_valid r ids ver threshold :
  ids <> ∅ ->
  vf_Valid (VerifyReceipt r ids (Some ver) threshold) = true <->
  receipt_matches r /\
  VerifyQuorumCertificate (c_Certificate (re_Commit r)) ids ver = Ok tt /\
  re_SignerCount r = signer_count (c_Certificate (re_Commit r)) /\
  re_ValidatorIDs r ≡ₚ uniqueValidatorIDs (qc_Votes (c_Certificate (re_Commit r))).
Proof.
  intros Hids. unfold VerifyReceipt. cbv zeta.
  assert (Hsize : (0 <? Z.of_nat (size ids)) = true).
  { apply Z.ltb_lt. assert (size ids <> 0%nat) by by rewrite map_size_empty_iff. lia. }
  rewrite Hsize. destruct (EventHash (re_Submission r)) as [observed|e] eqn:Ee.
  - apply EventHash_ok in Ee as [Hv ->].
    destruct (receipt_mismatch _ _) as [reason|] eqn:Em.
    + split; [done|]. intros [Hm%receipt_mismatch_none _]; [congruence|done].
    + apply receipt_mismatch_none in Em; [|done].
      destruct (VerifyQuorumCertificate _ _ _) as [[]|e] eqn:Eq; [|split; [done|]; by intros (_ & ? & _)].
      rewrite <-equalStringSlices_ok.
      destruct (Z.eqb_spec (re_SignerCount r) (signer_count (c_Certificate (re_Commit r))));
        cbn [negb]; [|split; [done|]; by intros (_ & _ & ? & _)].
      destruct (equalStringSlices _ _); cbn [negb]; split; try done. by intros (_ & _ & _ & ?).
  - split; [done|]. intros [(Hv & _) _].
    assert (EventHash (re_Submission r) = Ok (event_hash (re_Submission r)))
      by (by apply EventHash_ok). congruence.
Qed.

(** The threshold handed to [VerifyReceipt] plays no part when the validator
    identities are known: the certificate's own threshold is the only one
    checked. *)
Theorem VerifyReceipt_threshold_unused r ids ver threshold threshold' :
  ids <> ∅ ->
  vf_Valid (VerifyReceipt r ids (Some ver) threshold)
  = vf_Valid (VerifyReceipt r ids (Some ver) threshold').
Proof.
  intros Hids. unfold VerifyReceipt. cbv zeta.
  assert (Hsize : (0 <? Z.of_nat (size ids)) = true).
  { apply Z.ltb_lt. assert (size ids <> 0%nat) by by rewrite map_size_empty_iff. lia. }
  rewrite Hsize. by repeat case_match.
Qed.

Lemma receipt_matches_new now s c r :
  NewReceipt now s c = Ok r -> qc_BlockHash (c_Certificate c) = hash_of (c_Block c) ->
  qc_MembershipVersion (c_Certificate c) = b_MembershipVersion (c_Block c) ->
  qc_ValidatorSetHash (c_Certificate c) = b_ValidatorSetHash (c_Block c) ->
  receipt_matches r /\ re_Commit r = c /\ re_Submission r = NormalizeSubmission s /\
  re_SignerCount r = signer_count (c_Certificate c) /\
  re_ValidatorIDs r = uniqueValidatorIDs (qc_Votes (c_Certificate c)).
Proof.
  unfold NewReceipt. cbv zeta. intros H Hb Hv Hh.
  apply bind_ok in H as (p & (Hval & ->)%SubmissionPayload_ok & H). run_ok H. reflect_bools.
  apply bind_ok in H as (h & (_ & ->)%EventHash_ok & H).
  apply bind_ok in H as (bh & Hbh & H). rewrite Block_Hash_ok in Hbh. injection Hbh as <-.
  apply bind_ok in H as (q & Hq & (id & Hid & [= <-])%bind_ok).
  unfold receipt_matches. cbv zeta.
  cbn [re_ReceiptID re_EvidenceID re_Submission re_EventHash re_CommitHeight re_CommitRound
    re_BlockHash re_QCHash re_MembershipVersion re_ValidatorSetHash re_SignerCount re_ValidatorIDs
    re_Commit].
  split_and!; first [assumption | reflexivity].
Qed.

(** the receipt a node issues for its own commit is valid: when the commit's
    block carries the submission's payload and its certificate certifies the
    block under the block's membership, the receipt made from them passes
    verification against that validator set, under any threshold, and it names
    the submission's hash. *)
Theorem NewReceipt_verifies now s c r ids ver threshold :
  NewReceipt now s c = Ok r -> qc_BlockHash (c_Certificate c) = hash_of (c_Block c) ->
  qc_MembershipVersion (c_Certificate c) = b_MembershipVersion (c_Block c) ->
  qc_ValidatorSetHash (c_Certificate c) = b_ValidatorSetHash (c_Block c) ->
  VerifyQuorumCertificate (c_Certificate c) ids ver = Ok tt -> ids <> ∅ ->
  vf_Valid (VerifyReceipt r ids (Some ver) threshold) = true /\
  EventHash s = Ok (re_EvidenceID r) /\ re_Commit r = c.
Proof.
  intros Hn Hb Hv Hh Hq Hids.
  destruct (receipt_matches_new now s c r Hn Hb Hv Hh) as (Hm & Hc & Hs & Hcount & Hvs).
  split_and!; [| |done].
  - unfold VerifyReceipt. cbv zeta.
    assert (Hsize : (0 <? Z.of_nat (size ids)) = true).
    { apply Z.ltb_lt. assert (size ids <> 0%nat) by by rewrite map_size_empty_iff. lia. }
    pose proof (proj1 Hm) as Hval.
    assert (He : EventHash (re_Submission r) = Ok (event_hash (re_Submission r)))
      by by apply EventHash_ok.
    apply receipt_mismatch_none in Hm; [|done].
    rewrite Hsize, He, Hm, Hc, Hq, Hcount, Hvs, Z.eqb_refl. cbn [negb].
    by rewrite (proj2 (equalStringSlices_ok _ _)) by done.
  - destruct Hm as (Hval & _ & -> & _). rewrite Hs in Hval |- *.
    apply EventHash_ok. rewrite event_hash_normal. by rewrite ValidateSubmission_normal in Hval.
Qed.

(** *** Round trips *)

Definition submission_wf (s : EvidenceSubmission) : Prop :=
  utf8 (es_SchemaVersion s) = true /\ utf8 (es_EvidenceCategory s) = true /\
  utf8 (es_ArtifactHash s) = true /\ utf8 (es_MetadataHash s) = true /\
  utf8 (es_SubmittingOrganization s) = true /\ utf8 (es_IdempotencyKey s) = true.

Definition receipt_wf (r : EvidenceReceipt) : Prop :=
  submission_wf (re_Submission r) /\ commit_wf (re_Commit r) /\
  is_u64 (re_CommitHeight r) /\ is_u64 (re_CommitRound r) /\ is_u64 (re_MembershipVersion r) /\
  is_int64 (re_SignerCount r) /\ is_int64 (re_CreatedAtUnixMilli r) /\
  Forall (fun id => utf8 id = true) (re_ValidatorIDs r) /\
  Forall (fun s => utf8 s = true)
    [re_ReceiptID r; re_EvidenceID r; re_EventHash r; re_BlockHash r; re_QCHash r;
     re_ValidatorSetHash r; re_VerificationStatus r; re_AnchorStatus r; re_AnchorTransaction r].

Lemma Submission_of_json s : dec_struct Submission_of (Submission_json s) = Ok s.
Proof.
  destruct s as [a b c d e f g]. unfold Submission_json, dec_struct, Submission_of.
  cbn [es_SchemaVersion es_EvidenceCategory es_ArtifactHash es_MetadataHash
    es_SubmittingOrganization es_IdempotencyKey es_AnchorRequested].
  unfold omit_false. destruct g; by read_struct.
Qed.

Lemma Submission_json_ok s : submission_wf s -> json_ok (Submission_json s) = true.
Proof.
  intros (? & ? & ? & ? & ? & ?). unfold Submission_json. json_ok_tac.
  unfold omit_false. by destruct (es_AnchorRequested s).
Qed.

Lemma Receipt_of_json r : receipt_wf r -> dec_struct Receipt_of (Receipt_json r) = Ok r.
Proof.
  destruct r as [rid eid sub eh h rd bh qh mv vh n ids st an tx c t].
  intros (Hs & Hc & ? & ? & ? & ? & ? & _). cbn in * |-. apply Commit_of_json in Hc.
  pose proof (Submission_of_json sub) as Hsub.
  unfold Receipt_json, dec_struct, Receipt_of.
  cbn [re_ReceiptID re_EvidenceID re_Submission re_EventHash re_CommitHeight re_CommitRound
    re_BlockHash re_QCHash re_MembershipVersion re_ValidatorSetHash re_SignerCount re_ValidatorIDs
    re_VerificationStatus re_AnchorStatus re_AnchorTransaction re_Commit re_CreatedAtUnixMilli].
  unfold Submission_json, Commit_json in *. cbn [dec_struct] in Hsub, Hc.
  read_struct. read_next; [|by read_struct].
  apply get_list_json; [reflexivity|simpl_field|done|done].
Qed.

Lemma Receipt_json_ok r : receipt_wf r -> json_ok (Receipt_json r) = true.
Proof.
  intros (?%Submission_json_ok & ?%Commit_json_ok & ? & ? & ? & ? & ? & Hids & Hs).
  rewrite !Forall_cons in Hs. destruct_and?. unfold Receipt_json. json_ok_tac.
  apply json_ok_list. intros x Hx. rewrite Forall_forall in Hids. by apply Hids.
Qed.

Lemma Payload_of_json h s :
  dec_struct Payload_of (Payload_json h s) = Ok (PayloadKind, h, s).
Proof.
  pose proof (Submission_of_json s) as Hs.
  unfold Payload_json, dec_struct, Payload_of. unfold Submission_json in *.
  cbn [dec_struct] in Hs. by read_struct.
Qed.

Lemma Payload_json_ok s :
  submission_wf (NormalizeSubmission s) ->
  json_ok (Payload_json (event_hash s) (NormalizeSubmission s)) = true.
Proof.
  intros Hs%Submission_json_ok. unfold Payload_json.
  assert (utf8 (event_hash s) = true) by (rewrite event_hash_eq; apply utf8_HashBytes).
  json_ok_tac.
Qed.

(** evidence survives storage and the block that carries it. A stored receipt
    decodes to itself, and the payload of a submission is read back as the
    normalised submission: a replica that applies the block recovers exactly
    the evidence that was submitted. *)
Theorem evidence_roundtrip :
  (forall r data, receipt_wf r -> MarshalReceipt r = Ok data -> UnmarshalReceipt data = Ok r) /\
  (forall s p, submission_wf (NormalizeSubmission s) -> SubmissionPayload s = Ok p ->
     SubmissionFromPayload p = Ok (Some (NormalizeSubmission s))).
Proof.
  split.
  - intros r data Hr [= <-]. apply Unmarshal_Marshal; [by apply Receipt_json_ok|by apply Receipt_of_json].
  - intros s p Hs [Hv ->]%SubmissionPayload_ok. unfold SubmissionFromPayload.
    rewrite payload_of_eq. rewrite (Unmarshal_Marshal _ _ _ (Payload_json_ok s Hs) (Payload_of_json _ _)).
    rewrite String.eqb_refl. cbn [negb]. rewrite NormalizeSubmission_idemp.
    assert (He : EventHash (NormalizeSubmission s) = Ok (event_hash s)).
    { apply EventHash_ok. by rewrite ValidateSubmission_normal, event_hash_normal. }
    rewrite He. cbn [mbind result_bind]. by rewrite String.eqb_refl.
Qed.

(** *** Witnesses *)

Definition demo_submission : EvidenceSubmission :=
  mkSubmission " " "audit" "sha256:aa" "sha256:bb" "org" "key-1" false.

(** A block that carries the submission, and the certificate of [voters] for it. *)
Definition demo_commit (voters : list string) : CommitRequest :=
  let block := mkBlock 1 0 GenesisHash (payload_of demo_submission) [] "" "v1" 1 "set" 0 in
  let bh := hash_of block in
  mkCommit block (mkQC 1 0 StagePrecommit bh DecisionCommit (Z.of_nat (length voters)) 1 "set" 0
    (Z.of_nat (length voters)) (map (demo_vote StagePrecommit bh) voters)).

Definition demo_receipt (voters : list string) : EvidenceReceipt :=
  match NewReceipt (mkTime 7 "") demo_submission (demo_commit voters) with
  | Ok r => r
  | Err _ => mkReceipt "" "" demo_submission "" 0 0 "" "" 0 "" 0 [] "" "" "" (demo_commit []) 0
  end.

Lemma demo_identities_not_empty : demo_identities demo_ids <> ∅.
Proof. intros H. apply (f_equal (fun m => bool_decide (m = ∅))) in H. vm_compute in H. discriminate. Qed.

Lemma demo_receipt_eq : NewReceipt (mkTime 7 "") demo_submission (demo_commit ["v1"; "v2"; "v3"])
                        = Ok (demo_receipt ["v1"; "v2"; "v3"]).
Proof. vm_compute. reflexivity. Qed.

Lemma VerifyReceipt_valid_witness :
  receipt_matches (demo_receipt ["v1"; "v2"; "v3"]) /\
  VerifyQuorumCertificate (c_Certificate (re_Commit (demo_receipt ["v1"; "v2"; "v3"])))
    (demo_identities demo_ids) demo_verifier = Ok tt /\
  re_SignerCount (demo_receipt ["v1"; "v2"; "v3"])
  = signer_count (c_Certificate (re_Commit (demo_receipt ["v1"; "v2"; "v3"]))) /\
  re_ValidatorIDs (demo_receipt ["v1"; "v2"; "v3"])
  ≡ₚ uniqueValidatorIDs (qc_Votes (c_Certificate (re_Commit (demo_receipt ["v1"; "v2"; "v3"])))).
Proof.
  apply (VerifyReceipt_valid _ _ _ 5 demo_identities_not_empty). vm_compute. reflexivity.
Defined.

Lemma VerifyReceipt_threshold_unused_witness :
  vf_Valid (VerifyReceipt (demo_receipt ["v1"]) (demo_identities demo_ids) (Some demo_verifier) 5)
  = vf_Valid (VerifyReceipt (demo_receipt ["v1"]) (demo_identities demo_ids) (Some demo_verifier) 1) /\
  vf_Valid (VerifyReceipt (demo_receipt ["v1"]) (demo_identities demo_ids) (Some demo_verifier) 1)
  = true.
Proof.
  split; [apply VerifyReceipt_threshold_unused, demo_identities_not_empty|vm_compute; reflexivity].
Defined.

Lemma NewReceipt_verifies_witness :
  vf_Valid (VerifyReceipt (demo_receipt ["v1"; "v2"; "v3"]) (demo_identities demo_ids)
              (Some demo_verifier) 3) = true.
Proof.
  apply (NewReceipt_verifies _ _ _ _ _ _ 3 demo_receipt_eq);
    [vm_compute; reflexivity..|exact demo_identities_not_empty].
Defined.

Lemma evidence_roundtrip_witness :
  SubmissionFromPayload (payload_of demo_submission)
  = Ok (Some (NormalizeSubmission demo_submission)) /\
  let r := mkReceipt "r" "e" demo_submission "e" 1 0 "b" "q" 0 "" 1 ["v1"] VerificationValid
             AnchorPending ""
             (mkCommit (mkBlock 1 0 GenesisHash "p" [] "d" "v1" 0 "" 3)
                (mkQC 1 0 StagePrecommit "b" DecisionCommit 1 0 "" 5 1
                   [mkVote 1 0 StagePrecommit "b" "v1" DecisionCommit "demo" "c2ln"])) 7 in
  exists data, MarshalReceipt r = Ok data /\ UnmarshalReceipt data = Ok r.
Proof.
  split.
  - apply (proj2 evidence_roundtrip);
      [unfold submission_wf; split_and!; vm_compute; reflexivity|].
    apply SubmissionPayload_ok. split; [vm_compute|]; reflexivity.
  - eexists. split; [reflexivity|]. apply (proj1 evidence_roundtrip); [|reflexivity].
    repeat split; (lia || (cbn; lia) || reflexivity || (repeat constructor)); cbn; lia.
Defined.
