(* ===== verification/Auth.v ===== *)
(** * API keys and roles: core/auth/auth.go

    Keys are configured by the hash of their token. *)

From S2P Require Import Prelude Sha256 Json JsonParse JsonDecode Identity.
Local Open Scope Z_scope.

Definition RoleEvidenceSubmit : string := "evidence:submit".
Definition RoleEvidenceRead : string := "evidence:read".
Definition RoleEvidenceVerify : string := "evidence:verify".
Definition RoleAnchorRead : string := "anchor:read".
Definition RoleAdminRead : string := "admin:read".
Definition hashPrefix : string := "sha256:".
Definition hashDomain : string := "pq-fabric/api-key/v1".

Definition ErrInvalidConfig : string := "auth.ErrInvalidConfig".

Definition invalid_config {A} (text : string) : result A :=
  Err (wrap_err ErrInvalidConfig "invalid API key config" text).

Definition ErrUnauthorized : error :=
  mkError (Some "auth.ErrUnauthorized"%string) "API key unauthorized".
Definition ErrForbidden : error :=
  mkError (Some "auth.ErrForbidden"%string) "API key lacks required role".

Record APIKeyRecord := mkAPIKey {
  ak_ID : string;
  ak_Name : string;
  ak_Organization : string;
  ak_TokenHash : string;
  ak_Roles : list string;
  ak_Disabled : bool;
  ak_CreatedAtUnixMilli : Z;
  ak_ExpiresAtUnixMilli : Z
}.

Definition APIKeyRecord_of (fs : list (string * json)) : result APIKeyRecord :=
  id ← get_string "id" fs;
  name ← get_string "name" fs;
  organization ← get_string "organization" fs;
  hash ← get_string "token_hash" fs;
  roles ← get_list "" dec_string "roles" fs;
  disabled ← get_bool "disabled" fs;
  created ← get_int "created_at_unix_milli" fs;
  expires ← get_int "expires_at_unix_milli" fs;
  Ok (mkAPIKey id name organization hash roles disabled created expires).

Definition zero_key : APIKeyRecord := mkAPIKey "" "" "" "" [] false 0 0.

Definition APIKeyFile_of (fs : list (string * json)) : result (list APIKeyRecord) :=
  get_list zero_key (dec_struct APIKeyRecord_of) "keys" fs.

Record Principal := mkPrincipal {
  pr_ID : string;
  pr_Name : string;
  pr_Organization : string;
  pr_Roles : list string;
  pr_Legacy : bool
}.

Record Authenticator := mkAuthenticator {
  byHash : gmap string APIKeyRecord;
  byID : gmap string APIKeyRecord
}.

(** ** Configuration *)

Definition knownRole (role : string) : bool :=
  bool_decide (role ∈ [RoleEvidenceSubmit; RoleEvidenceRead; RoleEvidenceVerify; RoleAnchorRead;
                       RoleAdminRead]).

Definition validHash (value : string) : bool :=
  if negb (HasPrefix value hashPrefix) then false
  else
    let raw := TrimPrefix value hashPrefix in
    if negb (len raw =? 64) then false else Hex.DecodeString_ok raw.

Definition HashToken (token : string) : string :=
  (hashPrefix ++ Hex.EncodeToString (Sha256.Sum256 (hashDomain ++ nul ++ TrimSpace token)))%string.

(** The loop over [record.Roles]: [seen] holds the roles kept, in order. *)
Fixpoint normalize_roles (id : string) (seen : list string) (roles : list string)
  : result (list string) :=
  match roles with
  | [] => Ok seen
  | role :: rest =>
      let role := TrimSpace role in
      if String.eqb role "" then normalize_roles id seen rest
      else if negb (knownRole role) then
        invalid_config ("API key " ++ Quote id ++ " has unknown role " ++ Quote role)%string
      else if bool_decide (role ∈ seen) then normalize_roles id seen rest
      else normalize_roles id (seen ++ [role])%list rest
  end.

(** [ToLower] acts on ASCII letters only: no other rune's lower case is a
    character of a valid hash. *)
Definition normalizeRecord (record : APIKeyRecord) : result APIKeyRecord :=
  let id := TrimSpace (ak_ID record) in
  let name := TrimSpace (ak_Name record) in
  let organization := TrimSpace (ak_Organization record) in
  let hash := ToLower (TrimSpace (ak_TokenHash record)) in
  if String.eqb id "" then invalid_config "API key id is required"
  else if String.eqb organization "" then
    invalid_config ("API key " ++ Quote id ++ " organization is required")%string
  else if negb (validHash hash) then
    invalid_config ("API key " ++ Quote id ++ " token_hash must be sha256:<64 hex chars>")%string
  else
    roles ← normalize_roles id [] (ak_Roles record);
    if bool_decide (roles = []) then
      invalid_config ("API key " ++ Quote id ++ " requires at least one role")%string
    else Ok (mkAPIKey id name organization hash (sort_strings roles) (ak_Disabled record)
               (ak_CreatedAtUnixMilli record) (ak_ExpiresAtUnixMilli record)).

(** The loop of [NewAuthenticator]. *)
Fixpoint add_keys (authn : Authenticator) (enabled : Z) (records : list APIKeyRecord)
  : result (Authenticator * Z) :=
  match records with
  | [] => Ok (authn, enabled)
  | record :: rest =>
      normalized ← normalizeRecord record;
      if bool_decide (is_Some (byID authn !! ak_ID normalized)) then
        invalid_config ("duplicate API key id " ++ Quote (ak_ID normalized))%string
      else if bool_decide (is_Some (byHash authn !! ak_TokenHash normalized)) then
        invalid_config ("duplicate API key hash for id " ++ Quote (ak_ID normalized))%string
      else add_keys (mkAuthenticator (<[ak_TokenHash normalized := normalized]> (byHash authn))
                       (<[ak_ID normalized := normalized]> (byID authn)))
             (if ak_Disabled normalized then enabled else enabled + 1) rest
  end.

Definition NewAuthenticator (records : list APIKeyRecord) : result Authenticator :=
  if bool_decide (records = []) then invalid_config "at least one API key is required"
  else
    '(authn, enabled) ← add_keys (mkAuthenticator ∅ ∅) 0 records;
    if enabled =? 0 then invalid_config "at least one enabled API key is required" else Ok authn.

(** [read_file] is [os.ReadFile]. *)
Definition LoadAPIKeyFile (read_file : string -> result string) (path : string)
  : result Authenticator :=
  data ← read_file path;
  match Unmarshal APIKeyFile_of data with
  | Err e => invalid_config ("parse " ++ path ++ ": " ++ err_text e)%string
  | Ok keys => NewAuthenticator keys
  end.

(** ** Authentication *)

Definition principal_of (record : APIKeyRecord) : Principal :=
  mkPrincipal (ak_ID record) (ak_Name record) (ak_Organization record) (ak_Roles record) false.

(** The loop over the configured hashes, in the order the map yields them;
    [ConstantTimeCompare] is equality. *)
Fixpoint authenticate_scan (tokenHash : string) (now : Time) (entries : list (string * APIKeyRecord))
  : result Principal :=
  match entries with
  | [] => Err ErrUnauthorized
  | (configuredHash, record) :: rest =>
      if negb (String.eqb configuredHash tokenHash) then authenticate_scan tokenHash now rest
      else if ak_Disabled record then Err ErrUnauthorized
      else if (0 <? ak_ExpiresAtUnixMilli record) && (ak_ExpiresAtUnixMilli record <=? UnixMilli now)
      then Err ErrUnauthorized
      else Ok (principal_of record)
  end.

(** [entries] are the entries of [byHash] in the order Go's map iteration
    yields them, which the language leaves open.  A nil authenticator is [None]. *)
Definition Authenticate (a : option Authenticator) (entries : list (string * APIKeyRecord))
  (rawToken : string) (now : Time) : result Principal :=
  match a with
  | None => Err ErrUnauthorized
  | Some a =>
      let token := TrimSpace rawToken in
      if String.eqb token "" then Err ErrUnauthorized
      else authenticate_scan (HashToken token) now entries
  end.

Definition HasRole (principal : Principal) (role : string) : bool :=
  let role := TrimSpace role in
  if String.eqb role "" then true else existsb (fun candidate => String.eqb candidate role) (pr_Roles principal).

(** ** Lemmas *)

Lemma HashToken_trim token : HashToken (TrimSpace token) = HashToken token.
Proof. unfold HashToken. by rewrite TrimSpace_idemp. Qed.

Lemma normalize_roles_ok id seen roles out :
  normalize_roles id seen roles = Ok out -> NoDup seen -> Forall (fun r => knownRole r = true) seen ->
  NoDup out /\ Forall (fun r => knownRole r = true) out /\
  (forall r, r ∈ out <-> r ∈ seen \/ (r <> "" /\ r ∈ map TrimSpace roles)).
Proof.
  revert seen. induction roles as [|role roles IH]; intros seen; cbn [normalize_roles map].
  - intros [= <-] Hd Hk. split_and!; [done..|]. intros r. rewrite elem_of_nil. tauto.
  - intros H Hd Hk. split_guard H; [|split_guard H; [discriminate H|split_guard H]]; reflect_bools.
    + destruct (IH _ H Hd Hk) as (? & ? & Hin). split_and!; [done..|]. intros r.
      rewrite Hin, elem_of_cons, Hg. naive_solver.
    + rewrite bool_decide_eq_true in Hg1. destruct (IH _ H Hd Hk) as (? & ? & Hin).
      split_and!; [done..|]. intros r. rewrite Hin, elem_of_cons. naive_solver.
    + rewrite bool_decide_eq_false in Hg1. destruct (IH _ H) as (? & ? & Hin).
      * apply NoDup_app. split_and!; [done| |apply NoDup_singleton].
        intros x Hx ->%list_elem_of_singleton. done.
      * apply Forall_app. auto.
      * split_and!; [done..|]. intros r.
        rewrite Hin, elem_of_app, list_elem_of_singleton, elem_of_cons. naive_solver.
Qed.

(** What normalisation leaves of a key. *)
Record key_ok (record r : APIKeyRecord) : Prop := {
  key_id : ak_ID r = TrimSpace (ak_ID record) /\ ak_ID r <> "";
  key_organization : ak_Organization r = TrimSpace (ak_Organization record) /\ ak_Organization r <> "";
  key_hash : ak_TokenHash r = ToLower (TrimSpace (ak_TokenHash record)) /\
             validHash (ak_TokenHash r) = true;
  key_roles : forall role, role ∈ ak_Roles r <-> role <> "" /\ role ∈ map TrimSpace (ak_Roles record);
  key_roles_known : Forall (fun role => knownRole role = true) (ak_Roles r);
  key_roles_canonical : NoDup (ak_Roles r) /\ StronglySorted String.le (ak_Roles r) /\ ak_Roles r <> []
}.

Lemma normalizeRecord_ok record r : normalizeRecord record = Ok r -> key_ok record r.
Proof.
  unfold normalizeRecord. cbv zeta. intros H.
  do 3 (split_guard H; [discriminate H|]). apply bind_ok in H as (roles & Hr & H).
  split_guard H; [discriminate H|]. injection H as <-. reflect_bools.
  apply normalize_roles_ok in Hr as (Hd & Hk & Hin); [|constructor..].
  rewrite bool_decide_eq_false in Hg2.
  assert (Hs : forall x, x ∈ sort_strings roles <-> x <> "" /\ x ∈ map TrimSpace (ak_Roles record)).
  { intros x. rewrite elem_of_sort_strings, Hin, elem_of_nil. tauto. }
  constructor; cbn [ak_ID ak_Organization ak_TokenHash ak_Roles]; try done.
  - by rewrite (sort_strings_perm roles).
  - split_and!; [by apply NoDup_sort_strings|apply sort_strings_sorted|].
    intros E. apply Hg2, Permutation_nil. by rewrite <-E, sort_strings_perm.
Qed.

(** [byHash] after the loop holds exactly the normalised keys, by their hash. *)
Lemma add_keys_byHash records a n a' n' :
  add_keys a n records = Ok (a', n') ->
  forall h r, byHash a' !! h = Some r <->
    byHash a !! h = Some r \/
    exists record, record ∈ records /\ normalizeRecord record = Ok r /\ ak_TokenHash r = h.
Proof.
  revert a n. induction records as [|record rest IH]; intros a n; cbn [add_keys].
  - intros [= <- <-] h r. setoid_rewrite elem_of_nil. naive_solver.
  - intros (x & Hx & H)%bind_ok h r. split_guard H; [discriminate H|].
    split_guard H; [discriminate H|]. rewrite bool_decide_eq_false in Hg0.
    rewrite (IH _ _ H h r). cbn [byHash]. setoid_rewrite elem_of_cons.
    destruct (decide (ak_TokenHash x = h)) as [<-|Hne].
    + rewrite lookup_insert_eq. split; [|intros [Hr|(y & [->|Hy] & Hn & Hh)]].
      * intros [[= ->]|(y & Hy & ?)]; right; [by exists record; auto|exists y; naive_solver].
      * rewrite Hr in Hg0. by destruct Hg0.
      * rewrite Hx in Hn. injection Hn as ->. by left.
      * right. by exists y.
    + rewrite lookup_insert_ne by done. split; [naive_solver|].
      intros [Hr|(y & [->|Hy] & Hn & Hh)]; [by left| |right; by exists y]. congruence.
Qed.

Lemma NewAuthenticator_byHash records a :
  NewAuthenticator records = Ok a ->
  forall h r, byHash a !! h = Some r <->
    exists record, record ∈ records /\ normalizeRecord record = Ok r /\ ak_TokenHash r = h.
Proof.
  unfold NewAuthenticator. intros H. split_guard H; [discriminate H|].
  apply bind_ok in H as ([a' n] & Hadd & H). split_guard H; [discriminate H|]. injection H as <-.
  intros h r. rewrite (add_keys_byHash _ _ _ _ _ Hadd). cbn [byHash]. rewrite lookup_empty.
  naive_solver.
Qed.

(** A key that may be used at a time. *)
Definition key_usable (now : Time) (r : APIKeyRecord) : Prop :=
  ak_Disabled r = false /\ (ak_ExpiresAtUnixMilli r <= 0 \/ UnixMilli now < ak_ExpiresAtUnixMilli r).

Lemma authenticate_scan_ok h now entries p :
  NoDup entries.*1 ->
  authenticate_scan h now entries = Ok p <->
  exists r, (h, r) ∈ entries /\ key_usable now r /\ p = principal_of r.
Proof.
  unfold key_usable. induction entries as [|[h' r'] entries IH]; cbn [authenticate_scan fmap list_fmap fst].
  - intros _. setoid_rewrite elem_of_nil. naive_solver.
  - intros [Hnew Hd]%NoDup_cons. setoid_rewrite elem_of_cons.
    destruct (String.eqb_spec h' h) as [->|Hne]; cbn [negb].
    + assert (Huniq : forall r, (h, r) ∉ entries).
      { intros r Hr. apply Hnew, list_elem_of_fmap. by exists (h, r). }
      assert (Heq : forall r, (h, r) = (h, r') \/ (h, r) ∈ entries <-> r = r').
      { intros r. split; [|intros ->; by left]. intros [E|[]%Huniq]. congruence. }
      setoid_rewrite Heq. clear IH Huniq Heq Hnew.
      destruct (ak_Disabled r') eqn:Ed.
      { split; [discriminate|]. intros (r & -> & [? _] & _). congruence. }
      destruct (_ && _) eqn:Eb; reflect_bools.
      * split; [discriminate|]. intros (r & -> & [_ ?] & _). lia.
      * split; [intros [= <-]; exists r'; split_and!; auto; lia|]. by intros (r & -> & _ & ->).
    + rewrite (IH Hd). naive_solver.
Qed.

(** Authentication is exact. Whatever order the key map is scanned in, a token
    is accepted as a principal exactly when some configured key, once
    normalised, carries the token's hash, is enabled and has not expired, and the
    principal is that key's; its roles are known roles, each once, so
    no key can grant a role the service does not define. *)
Theorem Authenticate_exact records a entries raw now p :
  NewAuthenticator records = Ok a -> entries ≡ₚ map_to_list (byHash a) ->
  Authenticate (Some a) entries raw now = Ok p <->
  TrimSpace raw <> "" /\
  exists record r, record ∈ records /\ normalizeRecord record = Ok r /\
    ak_TokenHash r = HashToken raw /\ key_usable now r /\ p = principal_of r /\
    NoDup (pr_Roles p) /\ Forall (fun role => knownRole role = true) (pr_Roles p).
Proof.
  intros Ha Hp. unfold Authenticate. cbv zeta. rewrite HashToken_trim.
  destruct (String.eqb_spec (TrimSpace raw) "") as [->|Hne]; [split; [discriminate|intros [Hne _]; congruence]|].
  rewrite authenticate_scan_ok by (rewrite Hp; apply NoDup_fst_map_to_list).
  setoid_rewrite Hp. setoid_rewrite elem_of_map_to_list.
  setoid_rewrite (NewAuthenticator_byHash _ _ Ha). split.
  - intros (r & (record & Hin & Hn & Hh) & Hu & ->). split; [done|]. exists record, r.
    pose proof (normalizeRecord_ok _ _ Hn) as [_ _ _ _ Hk [Hd _]]. by split_and!.
  - intros (_ & record & r & Hin & Hn & Hh & Hu & -> & _). exists r. eauto 10.
Qed.

(** *** Witnesses *)

Definition demo_key (id token : string) (disabled : bool) (expires : Z) : APIKeyRecord :=
  mkAPIKey id "n" "org" (HashToken token) [" evidence:read"; "admin:read"; "evidence:read"] disabled 0
    expires.

Definition demo_keys : list APIKeyRecord :=
  [demo_key "a" "t1" false 0; demo_key "b" "t2" false 100; demo_key "c" "t3" true 0].

Lemma Authenticate_exact_witness :
  exists a, NewAuthenticator demo_keys = Ok a /\
  forall p, Authenticate (Some a) (map_to_list (byHash a)) " t2 " (mkTime 99 "") = Ok p ->
    Forall (fun role => knownRole role = true) (pr_Roles p).
Proof.
  assert (H : is_ok (NewAuthenticator demo_keys) = true) by (vm_compute; reflexivity).
  apply is_ok_spec in H as [a Ha]. exists a. split; [exact Ha|].
  intros p Hp. apply (Authenticate_exact _ _ _ _ _ _ Ha (reflexivity _)) in Hp.
  destruct Hp as (_ & record & r & _ & _ & _ & _ & _ & _ & Hk). exact Hk.
Defined.

Example demo_authentication :
  (a ← NewAuthenticator demo_keys;
   p ← Authenticate (Some a) (map_to_list (byHash a)) " t2 " (mkTime 99 "");
   Ok (pr_ID p, pr_Roles p, HasRole p " admin:read ", HasRole p RoleAnchorRead))
  = Ok ("b"%string, ["admin:read"%string; "evidence:read"%string], true, false) /\
  (a ← NewAuthenticator demo_keys;
   Authenticate (Some a) (map_to_list (byHash a)) "t2" (mkTime 100 "")) = Err ErrUnauthorized /\
  (a ← NewAuthenticator demo_keys;
   Authenticate (Some a) (map_to_list (byHash a)) "t3" (mkTime 0 "")) = Err ErrUnauthorized.
Proof. vm_compute. done. Qed.
