(* ===== verification/Observability.v ===== *)
(** * Metrics, readiness and operator reports: core/observability/observability.go

    The counters a node keeps, the labels they are kept under, the readiness
    report, and the text report.  [NewRuntime], [NewLogger] and the span methods
    configure and call [log/slog] and OpenTelemetry. *)

From S2P Require Import Prelude Sha256 Json Identity State Protocol Store.
Local Open Scope Z_scope.

(** ** Configuration values *)

Definition RedactValue (key value : string) : string :=
  let k := ToLower (TrimSpace key) in
  if Contains k "token" || Contains k "secret" || Contains k "key_file" || Contains k "private" ||
     Contains k "authorization" || Contains k "password"
  then if String.eqb (TrimSpace value) "" then "" else "[redacted]"
  else value.

(** The loop over the comma-separated parts. *)
Fixpoint parse_headers (headers : gmap string string) (parts : list string)
  : result (gmap string string) :=
  match parts with
  | [] => Ok headers
  | part :: rest =>
      let part := TrimSpace part in
      if String.eqb part "" then parse_headers headers rest
      else match CutByte "="%char part with
      | Some (key, value) =>
          if String.eqb (TrimSpace key) "" then
            fail ("invalid OTEL header " ++ Quote part ++ "; expected key=value")%string
          else parse_headers (<[TrimSpace key := TrimSpace value]> headers) rest
      | None => fail ("invalid OTEL header " ++ Quote part ++ "; expected key=value")%string
      end
  end.

Definition ParseHeaders (raw : string) : result (gmap string string) :=
  let raw := TrimSpace raw in
  if String.eqb raw "" then Ok ∅ else parse_headers ∅ (SplitByte ","%char raw).

(** ** Metrics *)

Record Metrics := mkMetrics {
  me_apiRequests : gmap string Z;
  me_apiRequestDurationMillis : gmap string Z;
  me_anchorStatuses : gmap string Z;
  me_verificationResults : gmap string Z;
  me_evidenceSubmissions : Z;
  me_duplicateEvidence : Z;
  me_consensusProposals : Z;
  me_consensusProposalFailures : Z;
  me_consensusCommits : Z;
  me_commitLatencyMillisTotal : Z;
  me_lastCommitLatencyMillis : Z;
  me_lastQuorumSignerCount : Z;
  me_storageErrors : Z;
  me_signerErrors : Z;
  me_invalidSignatures : Z;
  me_peerProbeFailures : Z;
  me_peerProbeSuccesses : Z;
  me_lastQuorumAvailable : bool;
  me_lastQuorumAvailableUpdated : Z
}.

Definition NewMetrics : Metrics := mkMetrics ∅ ∅ ∅ ∅ 0 0 0 0 0 0 0 0 0 0 0 0 0 false 0.

(** [counter++] on an [int]. *)
Definition incr (z : Z) : Z := i64 (z + 1).

(** [m[key] += n]; an absent key counts as zero. *)
Definition bump (n : Z) (key : string) (m : gmap string Z) : gmap string Z :=
  <[key := i64 (default 0 (m !! key) + n)]> m.

Definition RoutePattern (path : string) : string :=
  let path := TrimSpace path in
  if String.eqb path "/v1/evidence" then "/v1/evidence"
  else if HasPrefix path "/v1/evidence/" then "/v1/evidence/{id}"
  else if HasPrefix path "/v1/receipts/" then "/v1/receipts/{receipt_id}"
  else if String.eqb path "/v1/verify" then "/v1/verify"
  else if HasPrefix path "/v1/anchors/" then "/v1/anchors/{qc_hash}"
  else if String.eqb path "/v1/audit/recent" then "/v1/audit/recent"
  else if String.eqb path "/v1/ops/report" then "/v1/ops/report"
  else path.

Definition api_key (method path : string) (status : Z) : string :=
  (method ++ "|" ++ RoutePattern path ++ "|" ++ itoa status)%string.

Definition RecordAPI (method path : string) (status durationMillis : Z) (m : Metrics) : Metrics :=
  match m with
  | mkMetrics a b c d e f g h i j k l n o p q r s t =>
      mkMetrics (bump 1 (api_key method path status) a)
        (bump durationMillis (api_key method path status) b) c d e f g h i j k l n o p q r s t
  end.

Definition RecordEvidenceSubmission (created : bool) (m : Metrics) : Metrics :=
  match m with
  | mkMetrics a b c d e f g h i j k l n o p q r s t =>
      mkMetrics a b c d (incr e) (if created then f else incr f) g h i j k l n o p q r s t
  end.

Definition RecordVerification (valid : bool) (m : Metrics) : Metrics :=
  match m with
  | mkMetrics a b c d e f g h i j k l n o p q r s t =>
      mkMetrics a b c (bump 1 (if valid then "valid" else "invalid") d) e f g h i j k l n o p q r s t
  end.

Definition RecordAnchorStatus (status : string) (m : Metrics) : Metrics :=
  let status := TrimSpace status in
  let status := if String.eqb status "" then "unknown"%string else status in
  match m with
  | mkMetrics a b c d e f g h i j k l n o p q r s t =>
      mkMetrics a b (bump 1 status c) d e f g h i j k l n o p q r s t
  end.

Definition RecordConsensusProposal (failed : bool) (m : Metrics) : Metrics :=
  match m with
  | mkMetrics a b c d e f g h i j k l n o p q r s t =>
      mkMetrics a b c d e f (incr g) (if failed then incr h else h) i j k l n o p q r s t
  end.

(** [time.Since] saturates at the range of a [Duration], in nanoseconds. *)
Definition millis_since (start now : Z) : Z :=
  Z.max (-9223372036854) (Z.min 9223372036854 (now - start)).

Definition RecordCommit (now : Time) (start signerCount : Z) (m : Metrics) : Metrics :=
  let latency := millis_since start (UnixMilli now) in
  match m with
  | mkMetrics a b c d e f g h i j k l n o p q r s t =>
      mkMetrics a b c d e f g h (incr i) (i64 (j + latency)) latency signerCount n o p q r s t
  end.

Definition RecordStorageError (m : Metrics) : Metrics :=
  match m with
  | mkMetrics a b c d e f g h i j k l n o p q r s t =>
      mkMetrics a b c d e f g h i j k l (incr n) o p q r s t
  end.

Definition RecordSignerError (m : Metrics) : Metrics :=
  match m with
  | mkMetrics a b c d e f g h i j k l n o p q r s t =>
      mkMetrics a b c d e f g h i j k l n (incr o) p q r s t
  end.

Definition RecordInvalidSignature (m : Metrics) : Metrics :=
  match m with
  | mkMetrics a b c d e f g h i j k l n o p q r s t =>
      mkMetrics a b c d e f g h i j k l n o (incr p) q r s t
  end.

Definition RecordPeerProbe (success : bool) (m : Metrics) : Metrics :=
  match m with
  | mkMetrics a b c d e f g h i j k l n o p q r s t =>
      mkMetrics a b c d e f g h i j k l n o p (if success then q else incr q)
        (if success then incr r else r) s t
  end.

Definition RecordQuorumAvailable (now : Time) (available : bool) (m : Metrics) : Metrics :=
  match m with
  | mkMetrics a b c d e f g h i j k l n o p q r s t =>
      mkMetrics a b c d e f g h i j k l n o p q r available (UnixMilli now)
  end.

(** A snapshot is a copy: [Metrics] is a value. *)
Definition Metrics_Snapshot (m : Metrics) : Metrics := m.

Definition SortedMetricKeys (values : gmap string Z) : list string := sorted_keys values.

(** ** Readiness *)

Record ReadinessCheck := mkCheck { ck_Name : string; ck_OK : bool; ck_Message : string }.

Record ReadinessReport := mkReadiness {
  rr_Status : string;
  rr_GeneratedAtUnixMilli : Z;
  rr_Checks : list ReadinessCheck
}.

Definition NewReadinessReport (now : Time) (checks : list ReadinessCheck) : ReadinessReport :=
  mkReadiness (if forallb ck_OK checks then "ready" else "not_ready") (UnixMilli now) checks.

Definition Ready (r : ReadinessReport) : bool := String.eqb (rr_Status r) "ready".

(** ** Operator reports *)

Record CommitSummary := mkCommitSummary {
  cs_Height : Z;
  cs_Round : Z;
  cs_BlockHash : string;
  cs_StateDigest : string;
  cs_ProposerID : string;
  cs_SignerCount : Z;
  cs_CreatedAtUnixMilli : Z
}.

Record ReceiptSummary := mkReceiptSummary {
  rs_EvidenceID : string;
  rs_ReceiptID : string;
  rs_EventHash : string;
  rs_QCHash : string;
  rs_CommitHeight : Z;
  rs_SubmittingOrg : string;
  rs_SignerCount : Z;
  rs_AnchorStatus : string;
  rs_CreatedAtUnixMilli : Z
}.

Record QuorumParticipation := mkParticipation { qp_ValidatorID : string; qp_Votes : Z }.

Record SignerStatus := mkSignerStatus {
  sn_Provider : string;
  sn_Algorithm : string;
  sn_KeyID : string;
  sn_Status : string
}.

Record VerificationSpotCheck := mkSpotCheck {
  sc_ReceiptID : string;
  sc_EvidenceID : string;
  sc_Valid : bool;
  sc_Reason : string;
  sc_QuorumStatus : string;
  sc_AnchorStatus : string
}.

(** [PeerHealth] is an [any] in the report: the type the node puts there. *)
Record OperatorReport (Peers : Type) := mkReport {
  or_GeneratedAtUnixMilli : Z;
  or_Node : StateSnapshot;
  or_Readiness : ReadinessReport;
  or_PeerHealth : Peers;
  or_Metrics : Metrics;
  or_RecentCommits : list CommitSummary;
  or_RecentReceipts : list ReceiptSummary;
  or_RecentAudit : list AuditRecord;
  or_QuorumParticipation : list QuorumParticipation;
  or_Signer : SignerStatus;
  or_VerificationChecks : list VerificationSpotCheck
}.
Arguments mkReport {Peers}.
Arguments or_GeneratedAtUnixMilli {Peers}.
Arguments or_Node {Peers}.
Arguments or_Readiness {Peers}.
Arguments or_PeerHealth {Peers}.
Arguments or_Metrics {Peers}.
Arguments or_RecentCommits {Peers}.
Arguments or_RecentReceipts {Peers}.
Arguments or_RecentAudit {Peers}.
Arguments or_QuorumParticipation {Peers}.
Arguments or_Signer {Peers}.
Arguments or_VerificationChecks {Peers}.

Definition short (value : string) : string := if len value <=? 12 then value else prefix 12 value.

Definition newline : string := String "010"%char EmptyString.

Definition line (parts : list string) : string := (String.concat "" parts ++ newline)%string.

Definition check_line (c : ReadinessCheck) : string :=
  line ["  "; ck_Name c; "="; if ck_OK c then "ok" else "fail"; " "; ck_Message c].

Definition commit_line (c : CommitSummary) : string :=
  line ["  height="; itoa (cs_Height c); " round="; itoa (cs_Round c); " signer_count=";
        itoa (cs_SignerCount c); " block="; short (cs_BlockHash c); " state=";
        short (cs_StateDigest c)].

Definition receipt_line (r : ReceiptSummary) : string :=
  line ["  receipt="; rs_ReceiptID r; " evidence="; rs_EvidenceID r; " height=";
        itoa (rs_CommitHeight r); " signers="; itoa (rs_SignerCount r); " anchor=";
        rs_AnchorStatus r; " org="; rs_SubmittingOrg r].

Definition spot_line (c : VerificationSpotCheck) : string :=
  line ["  receipt="; sc_ReceiptID c; " valid="; if sc_Valid c then "true" else "false"; " quorum=";
        sc_QuorumStatus c; " anchor="; sc_AnchorStatus c; " reason="; sc_Reason c].

Definition RenderReportText {Peers} (r : OperatorReport Peers) : string :=
  String.concat "" (
    [line ["pq-fabric operator report"];
     line ["generated_at_unix_milli="; itoa (or_GeneratedAtUnixMilli r); " readiness=";
           rr_Status (or_Readiness r); " node="; ss_NodeID (or_Node r); " height=";
           itoa (ss_Height (or_Node r)); " signer_provider="; sn_Provider (or_Signer r)];
     line ["metrics commits="; itoa (me_consensusCommits (or_Metrics r)); " evidence=";
           itoa (me_evidenceSubmissions (or_Metrics r)); " duplicates=";
           itoa (me_duplicateEvidence (or_Metrics r)); " storage_errors=";
           itoa (me_storageErrors (or_Metrics r)); " signer_errors=";
           itoa (me_signerErrors (or_Metrics r)); " invalid_signatures=";
           itoa (me_invalidSignatures (or_Metrics r))];
     line ["readiness_checks:"]] ++ map check_line (rr_Checks (or_Readiness r)) ++
    [line ["recent_commits:"]] ++ map commit_line (or_RecentCommits r) ++
    [line ["recent_receipts:"]] ++ map receipt_line (or_RecentReceipts r) ++
    [line ["verification_spot_checks:"]] ++ map spot_line (or_VerificationChecks r))%list.

(** ** Lemmas *)

Lemma Ready_iff now checks :
  Ready (NewReadinessReport now checks) = true <-> Forall (fun c => ck_OK c = true) checks.
Proof.
  unfold Ready, NewReadinessReport. cbn [rr_Status].
  rewrite Forall_forall. setoid_rewrite list_elem_of_In. rewrite <-forallb_forall.
  by destruct (forallb ck_OK checks).
Qed.

Example demo_redaction :
  RedactValue " X-Auth-Token" "abc" = "[redacted]"%string /\ RedactValue "region" "nyc" = "nyc"%string /\
  ParseHeaders " a=1, b = x=y ,," = Ok (<["a" := "1"]> {["b" := "x=y"]})%string /\
  is_ok (ParseHeaders "a=1,=2") = false /\
  RoutePattern "/v1/evidence/abc" = "/v1/evidence/{id}"%string.
Proof. split_and!; vm_compute; reflexivity. Qed.
