(* ===== verification/RateLimit.v ===== *)
(** * The token bucket of the external API: consensus/validator/rate_limit.go

    The counters are [float64]: IEEE 754 binary64, in the standard library's
    executable specification, with round-to-nearest-even as Go has it. *)

From Stdlib Require Import SpecFloat.
From S2P Require Import Prelude.
Local Open Scope Z_scope.

(** ** float64 *)

Definition float64 : Type := spec_float.

Definition float64_of (z : Z) : float64 := binary_normalize 53 1024 z 0 false.
Definition fadd : float64 -> float64 -> float64 := SFadd 53 1024.
Definition fsub : float64 -> float64 -> float64 := SFsub 53 1024.
Definition fmul : float64 -> float64 -> float64 := SFmul 53 1024.
Definition fdiv : float64 -> float64 -> float64 := SFdiv 53 1024.
Definition fltb : float64 -> float64 -> bool := SFltb.

Definition minute : Z := 60000000000.

(** [Duration.Minutes] of a duration in nanoseconds; Go's division truncates. *)
Definition Minutes (d : Z) : float64 :=
  fadd (float64_of (Z.quot d minute)) (fdiv (float64_of (Z.rem d minute)) (float64_of minute)).

(** [Time.Sub], which saturates at the range of a [Duration]. *)
Definition Sub (now last : Z) : Z := Z.max (- 2 ^ 63) (Z.min (2 ^ 63 - 1) (now - last)).

(** ** The limiter *)

Record rateBucket := mkBucket { rb_tokens : float64; rb_last : Z }.

Record rateLimiter := mkLimiter {
  rl_perMinute : float64;
  rl_burst : float64;
  rl_buckets : gmap string rateBucket
}.

Definition newRateLimiter (perMinute burst : Z) : rateLimiter :=
  mkLimiter (float64_of (if perMinute <=? 0 then 60 else perMinute))
    (float64_of (if burst <=? 0 then 20 else burst)) ∅.

Definition set_bucket (key : string) (b : rateBucket) (l : rateLimiter) : rateLimiter :=
  mkLimiter (rl_perMinute l) (rl_burst l) (<[key := b]> (rl_buckets l)).

(** The refill of a bucket at the instant [now], in nanoseconds. *)
Definition refill (l : rateLimiter) (now : Z) (b : rateBucket) : rateBucket :=
  let elapsed := Minutes (Sub now (rb_last b)) in
  if fltb (float64_of 0) elapsed then
    let tokens := fadd (rb_tokens b) (fmul elapsed (rl_perMinute l)) in
    mkBucket (if fltb (rl_burst l) tokens then rl_burst l else tokens) now
  else b.

(** The limiter is [nil] when absent. *)
Definition Allow (key : string) (now : Z) (limiter : option rateLimiter) : option rateLimiter * bool :=
  match limiter with
  | None => (None, true)
  | Some l =>
      match rl_buckets l !! key with
      | None => (Some (set_bucket key (mkBucket (fsub (rl_burst l) (float64_of 1)) now) l), true)
      | Some b =>
          let b := refill l now b in
          if fltb (rb_tokens b) (float64_of 1) then (Some (set_bucket key b l), false)
          else (Some (set_bucket key (mkBucket (fsub (rb_tokens b) (float64_of 1)) (rb_last b)) l), true)
      end
  end.

(** The answers to a sequence of requests of one caller. *)
Fixpoint allow_all (key : string) (instants : list Z) (limiter : option rateLimiter)
  : option rateLimiter * list bool :=
  match instants with
  | [] => (limiter, [])
  | now :: rest =>
      let '(limiter, r) := Allow key now limiter in
      let '(limiter, rs) := allow_all key rest limiter in
      (limiter, r :: rs)
  end.

(** ** Lemmas *)

(** A bucket gains nothing at the instant of its last refill. *)
Lemma refill_still l now b : rb_last b = now -> refill l now b = b.
Proof.
  intros <-. unfold refill, Sub. rewrite Z.sub_diag.
  by replace (fltb (float64_of 0) (Minutes (Z.max (- 2 ^ 63) (Z.min (2 ^ 63 - 1) 0)))) with false
    by (vm_compute; reflexivity).
Qed.

(** The bursts the arithmetic of the counters is checked for. *)
Definition max_burst : nat := 1000.

(** Counting down from a whole number of tokens is exact. *)
Definition counts_down (k : nat) : bool :=
  match fsub (float64_of (Z.of_nat (S k))) (float64_of 1), float64_of (Z.of_nat k) with
  | S754_finite s m e, S754_finite s' m' e' => Bool.eqb s s' && Pos.eqb m m' && Z.eqb e e'
  | S754_zero s, S754_zero s' => Bool.eqb s s'
  | _, _ => false
  end && negb (fltb (float64_of (Z.of_nat (S k))) (float64_of 1)).

Lemma counts_down_all : forallb counts_down (seq 0 max_burst) = true.
Proof. vm_compute. reflexivity. Qed.

Lemma take_token k :
  (k < max_burst)%nat ->
  fsub (float64_of (Z.of_nat (S k))) (float64_of 1) = float64_of (Z.of_nat k) /\
  fltb (float64_of (Z.of_nat (S k))) (float64_of 1) = false.
Proof.
  intros Hk. pose proof counts_down_all as Hall. rewrite forallb_forall in Hall.
  specialize (Hall k). unfold counts_down in Hall.
  apply andb_true_iff in Hall as [Heq Hlt]; [|apply in_seq; lia].
  apply negb_true_iff in Hlt. split; [|done].
  destruct (fsub _ _), (float64_of (Z.of_nat k)); try done.
  - by apply Bool.eqb_prop in Heq as ->.
  - apply andb_true_iff in Heq as [[Hs Hm]%andb_true_iff He].
    by apply Bool.eqb_prop in Hs as ->; apply Pos.eqb_eq in Hm as ->; apply Z.eqb_eq in He as ->.
Qed.

Lemma map_S_seq (f : nat -> bool) start n : map f (seq (S start) n) = map (fun i => f (S i)) (seq start n).
Proof. by rewrite <-seq_shift, map_map. Qed.

(** The rest of a burst: a bucket of [k] tokens answers [k] requests. *)
Lemma allow_tokens key now l k m :
  (k < max_burst)%nat -> rl_buckets l !! key = Some (mkBucket (float64_of (Z.of_nat k)) now) ->
  (allow_all key (repeat now m) (Some l)).2 = map (fun i => (i <? k)%nat) (seq 0 m).
Proof.
  revert l k. induction m as [|m IH]; intros l k Hk Hb; [done|].
  cbn [repeat allow_all]. unfold Allow. rewrite Hb.
  rewrite refill_still by done. cbn [rb_tokens rb_last]. destruct k as [|k].
  - change (fltb (float64_of (Z.of_nat 0)) (float64_of 1)) with true. cbv iota.
    specialize (IH (set_bucket key (mkBucket (float64_of (Z.of_nat 0)) now) l) 0%nat).
    destruct (allow_all _ _ _) as [l' rs]. cbn [snd seq map] in *. f_equal. rewrite map_S_seq.
    rewrite IH; [done|done|]. cbn. by rewrite lookup_insert_eq.
  - destruct (take_token k) as [-> ->]; [lia|].
    specialize (IH (set_bucket key (mkBucket (float64_of (Z.of_nat k)) now) l) k).
    destruct (allow_all _ _ _) as [l' rs]. cbn [snd seq map] in *. f_equal. rewrite map_S_seq.
    rewrite IH; [done|lia|]. cbn. by rewrite lookup_insert_eq.
Qed.

(** The limiter admits a burst and no more.  Of any number of requests of a
    new caller at one instant, exactly the first [burst] are admitted (bursts up
    to a thousand, whatever the rate), and a request never changes another
    caller's bucket. *)
Theorem Allow_burst l key now burst m :
  (1 <= burst <= max_burst)%nat -> rl_burst l = float64_of (Z.of_nat burst) ->
  rl_buckets l !! key = None ->
  (allow_all key (repeat now m) (Some l)).2 = map (fun i => (i <? burst)%nat) (seq 0 m) /\
  forall other l', key <> other -> (Allow key now (Some l)).1 = Some l' ->
                   rl_buckets l' !! other = rl_buckets l !! other.
Proof.
  intros Hb Hburst Hnew. split.
  - destruct m as [|m]; [done|]. destruct burst as [|k]; [lia|].
    cbn [repeat allow_all]. unfold Allow. rewrite Hnew, Hburst.
    destruct (take_token k) as [-> _]; [lia|].
    pose proof (allow_tokens key now (set_bucket key (mkBucket (float64_of (Z.of_nat k)) now) l) k m)
      as Hrest.
    destruct (allow_all _ _ _) as [l' rs]. cbn [snd seq map] in *. f_equal. rewrite map_S_seq.
    rewrite Hrest; [done|lia|]. cbn. by rewrite lookup_insert_eq.
  - intros other l' Hne. unfold Allow. rewrite Hnew. intros [= <-]. cbn. by rewrite lookup_insert_ne.
Qed.

Lemma Allow_burst_witness :
  (allow_all "k" (repeat 7 22) (Some (newRateLimiter 0 0))).2
  = map (fun i => (i <? 20)%nat) (seq 0 22).
Proof. apply (Allow_burst (newRateLimiter 0 0) "k" 7 20 22); [unfold max_burst; lia|done|done]. Defined.

Example demo_refill :
  (allow_all "k" [0; 0; 0; 20000000000; 20000000000; 20000000000; 90000000000]
     (Some (newRateLimiter 6 2))).2 = [true; true; false; true; true; false; true].
Proof. vm_compute. reflexivity. Qed.
