(* ===== verification/Signing.v ===== *)
(** * Signer providers: core/signing/provider.go

    A signer is the suite's own, or a cloud key service behind HTTP.  The service
    is a parameter: what sending a request and reading the answer yields. *)

From S2P Require Import Prelude Sha256 Json JsonParse JsonDecode Identity.
Local Open Scope Z_scope.

Definition ProviderLocal : string := "local".
Definition ProviderCloudKMS : string := "cloud-kms".
Definition ProviderHSM : string := "hsm".

Definition ErrUnsupportedProvider : string := "signing.ErrUnsupportedProvider".

Definition unsupported {A} (text : string) : result A :=
  Err (wrap_err ErrUnsupportedProvider "unsupported signer provider" text).

(** [Timeout] only bounds the wait for an answer. *)
Record KMSConfig := mkKMS {
  km_Endpoint : string;
  km_KeyID : string;
  km_AuthToken : string;
  km_CAFile : string;
  km_AllowInsecure : bool
}.

Record SigningConfig := mkSigning {
  sc_Provider : string;
  sc_NodeID : string;
  sc_Suite : CryptoSuite;
  sc_ExpectedAlgorithm : string;
  sc_ExpectedPublicKey : string;
  sc_KMS : KMSConfig
}.

Definition NormalizeProvider (provider : string) : string :=
  let provider := ToLower (TrimSpace provider) in
  if String.eqb provider "" then ProviderLocal else provider.

(** ** net/url *)

Definition is_alpha (b : Z) : bool := in_range 97 122 b || in_range 65 90 b.

(** [getScheme]: [first] at the first byte.  [None] is the error for a leading colon. *)
Fixpoint scheme_bytes (first : bool) (bs : list Z) : option (option (list Z)) :=
  match bs with
  | [] => Some None
  | b :: rest =>
      if b =? 58 then (if first then None else Some (Some []))
      else if is_alpha b || (negb first && (is_digit b || (b =? 43) || (b =? 45) || (b =? 46)))
      then match scheme_bytes false rest with
           | Some (Some bs) => Some (Some (b :: bs))
           | r => r
           end
      else Some None
  end.

(** The scheme [url.Parse] finds; what else it rejects is [url_ok]'s. *)
Definition url_Scheme (url_ok : string -> bool) (raw : string) : result string :=
  match scheme_bytes true (bytes_of_string raw) with
  | None => fail "missing protocol scheme"
  | Some s =>
      if negb (url_ok raw) then fail "invalid URL"
      else Ok (match s with Some bs => ToLower (string_of_bytes bs) | None => "" end)
  end.

Definition upper_hex (d : Z) : Z := if d <? 10 then 48 + d else 55 + d.

Definition path_unescaped (b : Z) : bool :=
  is_alpha b || is_digit b || existsb (Z.eqb b) [45; 95; 46; 126; 36; 38; 43; 61; 58; 64].

(** [url.PathEscape]. *)
Definition PathEscape (s : string) : string :=
  string_of_bytes (concat (map (fun b =>
    if path_unescaped b then [b] else [37; upper_hex (b / 16); upper_hex (b mod 16)])
    (bytes_of_string s))).

(** ** The cloud signer *)

Record CloudKMSSigner := mkCloud {
  kc_nodeID : string;
  kc_algorithm : string;
  kc_publicKey : string;
  kc_endpoint : string;
  kc_keyID : string;
  kc_authToken : string
}.

Definition kmsKeyResponse_of (fs : list (string * json)) : result (string * string * string * bool) :=
  key_id ← get_string "key_id" fs;
  algorithm ← get_string "algorithm" fs;
  public_key ← get_string "public_key" fs;
  disabled ← get_bool "disabled" fs;
  Ok (key_id, algorithm, public_key, disabled).

Definition kmsSignRequest_json (keyID algorithm message : string) : json :=
  JObj [("key_id", JStr keyID); ("algorithm", JStr algorithm); ("message", JStr message)].

Definition kmsSignResponse_of (fs : list (string * json)) : result (string * string * string) :=
  key_id ← get_string "key_id" fs;
  algorithm ← get_string "algorithm" fs;
  signature ← get_string "signature" fs;
  Ok (key_id, algorithm, signature).

Section kms.
(* what building a request, sending it and reading the answer yields: the
   method, the URL, the bearer token and the body *)
Context (kms_do : string -> string -> string -> option json -> result Response).
Context (url_ok : string -> bool).
(* reading the CA file and building the client *)
Context (kms_client : string -> result unit).

Definition doJSON {A} (s : CloudKMSSigner) (method path : string) (body : option json)
  (out : list (string * json) -> result A) : result A :=
  resp ← kms_do method (kc_endpoint s ++ path) (kc_authToken s) body;
  if 300 <=? hr_StatusCode resp then
    Err (errorf ["cloud-kms "; method; " "; path; " returned "; hr_Status resp; ": ";
                 TrimSpace (if len (hr_Body resp) <=? 512 then hr_Body resp
                            else prefix 512 (hr_Body resp))])
  else Decode out (limit_body (hr_Body resp)).

Definition validateKey (s : CloudKMSSigner) : result unit :=
  '(keyID, algorithm, publicKey64, disabled) ←
    doJSON s "GET" ("/v1/keys/" ++ PathEscape (kc_keyID s)) None kmsKeyResponse_of;
  if (disabled : bool) then Err (errorf ["cloud-kms key "; kc_keyID s; " is disabled"])
  else if negb (String.eqb keyID (kc_keyID s)) then
    Err (errorf ["cloud-kms key response id "; Quote keyID; " does not match configured key ";
                 Quote (kc_keyID s)])
  else if negb (String.eqb algorithm (kc_algorithm s)) then
    Err (errorf ["cloud-kms key algorithm "; Quote algorithm; " does not match expected ";
                 Quote (kc_algorithm s)])
  else match Base64.DecodeString publicKey64 with
  | Err e => Err (prefix_err "cloud-kms public key is not base64" e)
  | Ok publicKey =>
      if negb (String.eqb publicKey (kc_publicKey s)) then
        Err (errorf ["cloud-kms public key for "; kc_keyID s; " does not match consortium manifest"])
      else Ok tt
  end.

Definition kms_Sign (s : CloudKMSSigner) (message : string) : result string :=
  '(keyID, algorithm, signature64) ←
    doJSON s "POST" "/v1/sign"
      (Some (kmsSignRequest_json (kc_keyID s) (kc_algorithm s) (Base64.EncodeToString message)))
      kmsSignResponse_of;
  if negb (String.eqb keyID (kc_keyID s)) then
    Err (errorf ["cloud-kms sign response key id "; Quote keyID; " does not match requested key ";
                 Quote (kc_keyID s)])
  else if negb (String.eqb algorithm (kc_algorithm s)) then
    Err (errorf ["cloud-kms sign response algorithm "; Quote algorithm; " does not match expected ";
                 Quote (kc_algorithm s)])
  else match Base64.DecodeString signature64 with
  | Err e => Err (prefix_err "cloud-kms sign response signature is not base64" e)
  | Ok signature =>
      if String.eqb signature "" then fail "cloud-kms sign response returned empty signature"
      else Ok signature
  end.

(** The signer as the interface the node uses. *)
Definition cloud_signer (s : CloudKMSSigner) : Signer :=
  mkSigner (kc_nodeID s) (kc_algorithm s) (kc_publicKey s) (kms_Sign s).

Definition NewCloudKMSSigner (cfg : SigningConfig) : result CloudKMSSigner :=
  if String.eqb (TrimSpace (sc_NodeID cfg)) "" then fail "cloud-kms signer requires node id"
  else
    let kms := sc_KMS cfg in
    let endpoint := TrimRightSlash (TrimSpace (km_Endpoint kms)) in
    if String.eqb endpoint "" then fail "cloud-kms signer requires endpoint"
    else match url_Scheme url_ok endpoint with
    | Err e => Err (prefix_err "invalid cloud-kms endpoint" e)
    | Ok scheme =>
        if negb (String.eqb scheme "https") && negb (km_AllowInsecure kms) then
          fail "cloud-kms endpoint must use https unless insecure mode is explicitly allowed"
        else
          let keyID := TrimSpace (km_KeyID kms) in
          if String.eqb keyID "" then fail "cloud-kms signer requires key id"
          else
            let algorithm := TrimSpace (sc_ExpectedAlgorithm cfg) in
            let algorithm := if String.eqb algorithm "" then cs_SignatureAlgorithm (sc_Suite cfg)
                             else algorithm in
            if String.eqb algorithm "" then fail "cloud-kms signer requires expected algorithm"
            else if String.eqb (sc_ExpectedPublicKey cfg) "" then
              fail "cloud-kms signer requires expected public key"
            else
              _ ← kms_client (km_CAFile kms);
              let signer := mkCloud (sc_NodeID cfg) algorithm (sc_ExpectedPublicKey cfg) endpoint
                              keyID (TrimSpace (km_AuthToken kms)) in
              _ ← validateKey signer;
              Ok signer
    end.

Definition validateExpectedSigner (cfg : SigningConfig) (publicKey algorithm : string) : result unit :=
  let expectedAlgorithm := TrimSpace (sc_ExpectedAlgorithm cfg) in
  let expectedAlgorithm := if String.eqb expectedAlgorithm "" then cs_SignatureAlgorithm (sc_Suite cfg)
                           else expectedAlgorithm in
  if negb (String.eqb expectedAlgorithm "") && negb (String.eqb algorithm expectedAlgorithm) then
    Err (errorf ["signer algorithm "; Quote algorithm; " does not match expected ";
                 Quote expectedAlgorithm])
  else if negb (String.eqb (sc_ExpectedPublicKey cfg) "") &&
          negb (String.eqb publicKey (sc_ExpectedPublicKey cfg)) then
    fail "signer public key does not match expected public key"
  else Ok tt.

(** The provider and the signer. *)
Definition NewSigner (cfg : SigningConfig) : result (string * Signer) :=
  let provider := NormalizeProvider (sc_Provider cfg) in
  if String.eqb provider ProviderLocal then
    signer ← cs_NewSigner (sc_Suite cfg) (sc_NodeID cfg);
    _ ← validateExpectedSigner cfg (sg_PublicKey signer) (sg_Algorithm signer);
    Ok (provider, signer)
  else if String.eqb provider ProviderCloudKMS then
    signer ← NewCloudKMSSigner cfg;
    Ok (provider, cloud_signer signer)
  else if String.eqb provider ProviderHSM then
    unsupported (provider ++ " provider is a configured extension point and is not implemented in this build")
  else unsupported provider.
End kms.

(** ** Properties *)

Section signer.
Context (kms_do : string -> string -> string -> option json -> result Response).
Context (url_ok : string -> bool) (kms_client : string -> result unit).

(** The algorithm a configuration expects. *)
Definition expected_algorithm (cfg : SigningConfig) : string :=
  let a := TrimSpace (sc_ExpectedAlgorithm cfg) in
  if String.eqb a "" then cs_SignatureAlgorithm (sc_Suite cfg) else a.

(** The key service has confirmed the key a signer was built for. *)
Definition key_confirmed (s : CloudKMSSigner) : Prop :=
  exists key64, doJSON kms_do s "GET" ("/v1/keys/" ++ PathEscape (kc_keyID s)) None kmsKeyResponse_of
                = Ok (kc_keyID s, kc_algorithm s, key64, false) /\
                Base64.DecodeString key64 = Ok (kc_publicKey s).

Lemma validateKey_ok s : validateKey kms_do s = Ok tt -> key_confirmed s.
Proof.
  unfold validateKey, key_confirmed. intros H.
  apply bind_ok in H as ([[[k a] p] d] & Hdo & H). rewrite Hdo. run_ok H.
  destruct (Base64.DecodeString p) as [pk|e] eqn:Hp; [|done]. run_ok H. reflect_bools. subst.
  exists p. by split; [|congruence].
Qed.

Lemma NewCloudKMSSigner_ok cfg s :
  NewCloudKMSSigner kms_do url_ok kms_client cfg = Ok s ->
  kc_nodeID s = sc_NodeID cfg /\ kc_algorithm s = expected_algorithm cfg /\
  kc_publicKey s = sc_ExpectedPublicKey cfg /\ kc_publicKey s <> "" /\ kc_keyID s <> "" /\
  kc_keyID s = TrimSpace (km_KeyID (sc_KMS cfg)) /\ key_confirmed s /\
  exists scheme, url_Scheme url_ok (kc_endpoint s) = Ok scheme /\
                 (km_AllowInsecure (sc_KMS cfg) = true \/ scheme = "https"%string).
Proof.
  unfold NewCloudKMSSigner. cbv zeta. fold (expected_algorithm cfg). intros H. run_ok H.
  destruct (url_Scheme url_ok _) as [scheme|e] eqn:Hs; [|done]. run_ok H.
  apply bind_ok in H as ([] & _ & H). apply bind_ok in H as ([] & Hk & [= <-]).
  apply validateKey_ok in Hk. cbn [kc_nodeID kc_algorithm kc_publicKey kc_keyID kc_endpoint] in *.
  reflect_bools. split_and!; try done. exists scheme. split; [done|].
  destruct (km_AllowInsecure (sc_KMS cfg)); [by left|right]. naive_solver.
Qed.

(** A node never signs with a key other than its own.  When [NewSigner]
    returns a signer, the provider is the local suite or the cloud key service,
    the signer presents the public key and the algorithm the node's identity
    names, and a cloud signer's service has confirmed that key, not disabled,
    over https unless insecure mode is allowed; a signature the service returns
    is for the requested key and algorithm and is not empty. *)
Theorem NewSigner_spec cfg provider signer :
  NewSigner kms_do url_ok kms_client cfg = Ok (provider, signer) ->
  sc_ExpectedPublicKey cfg <> "" -> expected_algorithm cfg <> "" ->
  sg_PublicKey signer = sc_ExpectedPublicKey cfg /\ sg_Algorithm signer = expected_algorithm cfg /\
  ((provider = ProviderLocal /\ cs_NewSigner (sc_Suite cfg) (sc_NodeID cfg) = Ok signer) \/
   (provider = ProviderCloudKMS /\ exists s, signer = cloud_signer kms_do s /\ key_confirmed s /\
      (exists scheme, url_Scheme url_ok (kc_endpoint s) = Ok scheme /\
                      (km_AllowInsecure (sc_KMS cfg) = true \/ scheme = "https"%string)) /\
      forall m sig, sg_Sign signer m = Ok sig -> sig <> "")).
Proof.
  intros H Hpk Halg. unfold NewSigner in H. cbv zeta in H.
  destruct (String.eqb_spec (NormalizeProvider (sc_Provider cfg)) ProviderLocal) as [El|El].
  { apply bind_ok in H as (s & Hs & ([] & Hv & [= <- <-])%bind_ok).
    unfold validateExpectedSigner in Hv. cbv zeta in Hv. fold (expected_algorithm cfg) in Hv.
    run_ok Hv. reflect_bools. naive_solver. }
  destruct (String.eqb_spec (NormalizeProvider (sc_Provider cfg)) ProviderCloudKMS) as [Ek|Ek].
  2:{ by case_match. }
  apply bind_ok in H as (s & Hs & [= <- <-]).
  apply NewCloudKMSSigner_ok in Hs as (_ & Ha & Hp & _ & _ & _ & Hconf & Hsch).
  split_and!; [done..|]. right. split; [done|]. exists s. split_and!; try done.
  intros m sig. cbn. unfold kms_Sign. intros Hsign.
  apply bind_ok in Hsign as ([[k a] sg64] & _ & Hsign). run_ok Hsign.
  destruct (Base64.DecodeString sg64); [|done]. run_ok Hsign. reflect_bools. congruence.
Qed.
End signer.

(** *** Witness: a service that holds one key *)

Definition demo_kms (method url token : string) (body : option json) : result Response :=
  Ok (mkResponse 200 "200 OK"
    (Marshal (if String.eqb method "GET"
              then JObj [("key_id", JStr "k/1"); ("algorithm", JStr "demo");
                         ("public_key", JStr (Base64.EncodeToString "pk-v1"))]
              else JObj [("key_id", JStr "k/1"); ("algorithm", JStr "demo");
                         ("signature", JStr (Base64.EncodeToString "sig"))]))).

Definition demo_signing : SigningConfig :=
  mkSigning " Cloud-KMS " "v1" demo_suite "demo" "pk-v1"
    (mkKMS "https://kms.example/" " k/1 " "token" "" false).

Lemma NewSigner_spec_witness :
  exists s, NewSigner demo_kms (fun _ => true) (fun _ => Ok tt) demo_signing = Ok (ProviderCloudKMS, s) /\
            sg_PublicKey s = "pk-v1"%string.
Proof.
  eexists. split; [vm_compute; reflexivity|].
  eapply (NewSigner_spec demo_kms (fun _ => true) (fun _ => Ok tt) demo_signing ProviderCloudKMS);
    [vm_compute; reflexivity|discriminate|discriminate].
Defined.

Example demo_path_escape : PathEscape "k/1 @x" = "k%2F1%20@x"%string /\
  url_Scheme (fun _ => true) "HTTPS://h" = Ok "https"%string /\
  url_Scheme (fun _ => true) "host:80" = Ok "host"%string /\
  is_ok (url_Scheme (fun _ => true) ":x") = false.
Proof. split_and!; vm_compute; reflexivity. Qed.
