(* ===== verification/Node.v ===== *)
(** * The validator node: consensus/validator/node.go

    The state a node keeps and every method that reads or changes it: blocks and
    votes, the lock, commits and their persistence, recovery, catch-up, evidence
    and the exchange with the peers.  The HTTP service over these methods is in
    [NodeApi].

    A method is an operation [M Node A]: it maps the node to the node it leaves
    and its result, so that what it changed before an error stays changed.  The
    mutex makes a method's body one step.  The clock is read once per operation.
    Spans and logs are not part of the state. *)

From S2P Require Import Prelude Sha256 Json JsonParse JsonDecode Identity State Protocol Codec Store Consortium Anchors Evidence Auth Observability.
Local Open Scope Z_scope.

(** ** Data *)

Record PeerHealth := mkPeerHealth {
  ph_PeerID : string;
  ph_URL : string;
  ph_Healthy : bool;
  ph_LastChecked : Z;
  ph_LastError : string;
  ph_LastHeight : Z;
  ph_LastHash : string;
  ph_DetectedDown : Z
}.

Definition unknown_peer : PeerHealth := mkPeerHealth "" "" false 0 "" 0 "" 0.

Record membershipIdentitySet := mkMembership {
  mi_manifest : option Manifest;      (* absent when the set comes from the suite's identities *)
  mi_identities : gmap string ValidatorIdentity;
  mi_validatorIDs : list string;
  mi_threshold : Z;
  mi_hash : string
}.

(** [voteKey] is height, round and stage; [proposalKey] height, round and proposer. *)
Definition voteKey : Type := Z * Z * string.
Definition proposalKey : Type := Z * Z * string.

(** The fields of [Config] and [Node] that no method changes. *)
Record Config := mkConfig {
  cfg_ID : string;
  cfg_Region : string;
  cfg_PeerURLs : gmap string string;
  cfg_Threshold : Z;
  cfg_MaxRounds : Z;
  cfg_ProductionMode : bool;
  cfg_APIBearerToken : string;
  n_signer : Signer;
  n_verifier : SignatureVerifier;
  n_identities : gmap string ValidatorIdentity;
  n_selfID : ValidatorIdentity;
  n_authn : option Authenticator;
  n_validatorIDs : list string;
  n_manifest : option Manifest;
  n_identitySets : gmap string membershipIdentitySet;
  n_manifestHash : string;
  n_membershipVersion : Z;
  n_signerProvider : string;
  n_peerTLS : bool                    (* whether peer mTLS is configured *)
}.

(** The configuration with another threshold. *)
Definition with_threshold (t : Z) (cfg : Config) : Config :=
  mkConfig (cfg_ID cfg) (cfg_Region cfg) (cfg_PeerURLs cfg) t (cfg_MaxRounds cfg)
    (cfg_ProductionMode cfg) (cfg_APIBearerToken cfg) (n_signer cfg) (n_verifier cfg)
    (n_identities cfg) (n_selfID cfg) (n_authn cfg) (n_validatorIDs cfg) (n_manifest cfg)
    (n_identitySets cfg) (n_manifestHash cfg) (n_membershipVersion cfg) (n_signerProvider cfg)
    (n_peerTLS cfg).

(** The fields the methods change. *)
Record Node (S : Type) := mkNode {
  nd_store : S;
  nd_running : bool;
  nd_lastHash : string;
  nd_commits : list CommitRequest;
  nd_state : Machine;
  nd_currentRound : gmap Z Z;
  nd_lock : LockState;
  nd_votes : gmap voteKey Vote;
  nd_proposals : gmap proposalKey string;
  nd_events : list string;
  nd_peerHealth : gmap string PeerHealth;
  nd_metrics : Metrics
}.
Arguments mkNode {S}.
Arguments nd_store {S}.
Arguments nd_running {S}.
Arguments nd_lastHash {S}.
Arguments nd_commits {S}.
Arguments nd_state {S}.
Arguments nd_currentRound {S}.
Arguments nd_lock {S}.
Arguments nd_votes {S}.
Arguments nd_proposals {S}.
Arguments nd_events {S}.
Arguments nd_peerHealth {S}.
Arguments nd_metrics {S}.

Section setters.
Context {S : Type}.
Implicit Types (n : Node S).

Definition set_nd_store v n : Node S :=
  mkNode v (nd_running n) (nd_lastHash n) (nd_commits n) (nd_state n) (nd_currentRound n) (nd_lock n)
    (nd_votes n) (nd_proposals n) (nd_events n) (nd_peerHealth n) (nd_metrics n).
Definition set_nd_running v n : Node S :=
  mkNode (nd_store n) v (nd_lastHash n) (nd_commits n) (nd_state n) (nd_currentRound n) (nd_lock n)
    (nd_votes n) (nd_proposals n) (nd_events n) (nd_peerHealth n) (nd_metrics n).
Definition set_nd_chain hash commits state n : Node S :=
  mkNode (nd_store n) (nd_running n) hash commits state (nd_currentRound n) (nd_lock n)
    (nd_votes n) (nd_proposals n) (nd_events n) (nd_peerHealth n) (nd_metrics n).
Definition set_nd_currentRound v n : Node S :=
  mkNode (nd_store n) (nd_running n) (nd_lastHash n) (nd_commits n) (nd_state n) v (nd_lock n)
    (nd_votes n) (nd_proposals n) (nd_events n) (nd_peerHealth n) (nd_metrics n).
Definition set_nd_lock v n : Node S :=
  mkNode (nd_store n) (nd_running n) (nd_lastHash n) (nd_commits n) (nd_state n) (nd_currentRound n) v
    (nd_votes n) (nd_proposals n) (nd_events n) (nd_peerHealth n) (nd_metrics n).
Definition set_nd_votes v n : Node S :=
  mkNode (nd_store n) (nd_running n) (nd_lastHash n) (nd_commits n) (nd_state n) (nd_currentRound n)
    (nd_lock n) v (nd_proposals n) (nd_events n) (nd_peerHealth n) (nd_metrics n).
Definition set_nd_proposals v n : Node S :=
  mkNode (nd_store n) (nd_running n) (nd_lastHash n) (nd_commits n) (nd_state n) (nd_currentRound n)
    (nd_lock n) (nd_votes n) v (nd_events n) (nd_peerHealth n) (nd_metrics n).
Definition set_nd_events v n : Node S :=
  mkNode (nd_store n) (nd_running n) (nd_lastHash n) (nd_commits n) (nd_state n) (nd_currentRound n)
    (nd_lock n) (nd_votes n) (nd_proposals n) v (nd_peerHealth n) (nd_metrics n).
Definition set_nd_peerHealth v n : Node S :=
  mkNode (nd_store n) (nd_running n) (nd_lastHash n) (nd_commits n) (nd_state n) (nd_currentRound n)
    (nd_lock n) (nd_votes n) (nd_proposals n) (nd_events n) v (nd_metrics n).
Definition set_nd_metrics v n : Node S :=
  mkNode (nd_store n) (nd_running n) (nd_lastHash n) (nd_commits n) (nd_state n) (nd_currentRound n)
    (nd_lock n) (nd_votes n) (nd_proposals n) (nd_events n) (nd_peerHealth n) v.
End setters.

(** The exchange with the peers.  [nw_do method url body] is what building a
    request, sending it and reading the answer yields; [nw_order] is the order
    in which the loop of a method ranges over a map, which Go leaves open: the
    argument tells the loops of one method apart. *)
Record Network := mkNetwork {
  nw_do : string -> string -> string -> result Response;
  nw_order : nat -> gmap string string -> list (string * string)
}.

Definition zero_commit : CommitRequest :=
  mkCommit (mkBlock 0 0 "" "" [] "" "" 0 "" 0) (mkQC 0 0 "" "" "" 0 0 "" 0 0 []).

Definition shortDigest (digest : string) : string :=
  if len digest <=? 12 then digest else prefix 12 digest.

Definition containsString (values : list string) (value : string) : bool :=
  existsb (fun candidate => String.eqb candidate value) values.

Definition buildMembershipIdentitySets (history : History)
  : result (gmap string membershipIdentitySet) :=
  foldl (fun acc manifest =>
           out ← acc;
           hash ← Manifest_Hash manifest;
           identities ← ActiveIdentities manifest;
           Ok (<[hash := mkMembership (Some manifest) identities (ActiveValidatorIDs manifest)
                           (mf_QuorumThreshold manifest) hash]> out))
    (Ok ∅) (hi_Manifests history).

Section node.
Context {S : Type} `{ValidatorStore S} (cfg : Config).

Local Abbreviation op := (M (Node S)).

(** ** Events, metrics and peer health *)

Definition appendEventLocked (now : Time) (message : string) : op unit :=
  modify (fun n =>
    let events := (nd_events n ++ [(RFC3339Nano now ++ " " ++ message)%string])%list in
    let extra := (length events - 100)%nat in
    set_nd_events (if (100 <? length events)%nat then skipn extra events else events) n).

Definition appendEvent := appendEventLocked.

Definition metric (f : Metrics -> Metrics) : op unit :=
  modify (fun n => set_nd_metrics (f (nd_metrics n)) n).

Definition recordStorageError : op unit := metric RecordStorageError.

Definition recordPeerHealthy (now : Time) (peerID : string) (height : Z) (hash : string) : op unit :=
  _ ← metric (RecordPeerProbe true);
  modify (fun n =>
    let health := default unknown_peer (nd_peerHealth n !! peerID) in
    set_nd_peerHealth (<[peerID :=
      mkPeerHealth peerID (ph_URL health) true (UnixMilli now) ""
        (if height =? 0 then ph_LastHeight health else height)
        (if String.eqb hash "" then ph_LastHash health else hash) 0]> (nd_peerHealth n)) n).

Definition recordPeerError (now : Time) (peerID : string) (e : error) : op unit :=
  _ ← metric (RecordPeerProbe false);
  peers ← gets nd_peerHealth;
  let health := default unknown_peer (peers !! peerID) in
  let first := ph_DetectedDown health =? 0 in
  _ ← (if first then appendEventLocked now ("detected peer down: " ++ peerID)%string else mret tt);
  modify (fun n =>
    set_nd_peerHealth (<[peerID :=
      mkPeerHealth peerID (ph_URL health) false (UnixMilli now) (err_text e) (ph_LastHeight health)
        (ph_LastHash health)
        (if first then UnixMilli now else ph_DetectedDown health)]> (nd_peerHealth n)) n).

Definition Snapshot (n : Node S) : StateSnapshot :=
  let height := Z.of_nat (length (nd_commits n)) in
  mkSnapshot (cfg_ID cfg) (cfg_Region cfg) height
    (default 0 (nd_currentRound n !! (height + 1))) (nd_lastHash n) (m_digest (nd_state n))
    (nd_lock n) height (nd_running n) (default "" (last (nd_events n)))
    (sg_Algorithm (n_signer cfg)) (n_signerProvider cfg) (n_membershipVersion cfg)
    (n_manifestHash cfg).

(** [PeerHealth]: the values in the order of their ids; the map's keys are the
    peers' ids. *)
Definition Node_PeerHealth (n : Node S) : list PeerHealth := sorted_values (nd_peerHealth n).

(** ** Membership *)

Definition attachMembershipToQC (cert : QuorumCertificate) : QuorumCertificate :=
  mkQC (qc_Height cert) (qc_Round cert) (qc_Stage cert) (qc_BlockHash cert) (qc_Decision cert)
    (qc_Threshold cert) (n_membershipVersion cfg) (n_manifestHash cfg) (qc_FormedAtUnixMilli cert)
    (qc_ValidatorVoteCount cert) (qc_Votes cert).

Definition validateCurrentMembership (version : Z) (hash : string) : result unit :=
  match n_manifest cfg with
  | None => Ok tt
  | Some _ =>
      if negb (version =? n_membershipVersion cfg) || negb (String.eqb hash (n_manifestHash cfg))
      then Err (errorf ["message membership version/hash "; itoa version; "/"; hash;
                        " does not match current validator set "; itoa (n_membershipVersion cfg);
                        "/"; n_manifestHash cfg])
      else Ok tt
  end.

Definition membershipSet (version : Z) (hash : string) : result membershipIdentitySet :=
  match n_manifest cfg with
  | None => Ok (mkMembership None (n_identities cfg) (n_validatorIDs cfg) (cfg_Threshold cfg) "")
  | Some _ =>
      if (version =? 0) || String.eqb (TrimSpace hash) "" then
        fail "membership version and validator set hash are required"
      else match n_identitySets cfg !! hash with
      | None => Err (errorf ["unknown validator set hash "; hash])
      | Some memberSet =>
          let v := from_option mf_MembershipVersion 0 (mi_manifest memberSet) in
          if negb (v =? version) then
            Err (errorf ["validator set hash "; hash; " belongs to version "; itoa v; ", not ";
                         itoa version])
          else Ok memberSet
      end
  end.

Definition membershipSetForCommit (commit : CommitRequest) : result membershipIdentitySet :=
  let block := c_Block commit in
  let cert := c_Certificate commit in
  if negb (b_MembershipVersion block =? qc_MembershipVersion cert) ||
     negb (String.eqb (b_ValidatorSetHash block) (qc_ValidatorSetHash cert))
  then fail "commit block and certificate membership metadata differ"
  else membershipSet (b_MembershipVersion block) (b_ValidatorSetHash block).

Definition membershipSetForReceipt (r : EvidenceReceipt) : result membershipIdentitySet :=
  let block := c_Block (re_Commit r) in
  let hash := if String.eqb (re_ValidatorSetHash r) "" then b_ValidatorSetHash block
              else re_ValidatorSetHash r in
  let version := if re_MembershipVersion r =? 0 then b_MembershipVersion block
                 else re_MembershipVersion r in
  membershipSet version hash.

Definition keyIDKnownForSelf (keyID : string) : bool :=
  if String.eqb keyID "" then true
  else if String.eqb (vi_KeyID (n_selfID cfg)) keyID then true
  else existsb (fun memberSet =>
         match mi_identities memberSet !! cfg_ID cfg with
         | Some v => String.eqb (vi_KeyID v) keyID
         | None => false
         end) (map snd (map_to_list (n_identitySets cfg))).

(** ** Rounds and blocks *)

Definition proposerFor (height round : Z) : result string :=
  ProposerFor height round (n_validatorIDs cfg).

Definition mustProposerFor (height round : Z) : string :=
  match proposerFor height round with Ok id => id | Err _ => "unknown" end.

(** [n.currentRound[height]]. *)
Definition round_at (height : Z) (n : Node S) : Z := default 0 (nd_currentRound n !! height).

Definition set_round (height round : Z) : op unit :=
  modify (fun n => set_nd_currentRound (<[height := round]> (nd_currentRound n)) n).

Definition markRound (now : Time) (height round : Z) : op unit :=
  current ← gets (round_at height);
  if current <? round then
    _ ← set_round height round;
    appendEventLocked now (String.concat "" ["advanced to height "; itoa height; " round ";
      itoa round; " proposer="; mustProposerFor height round])
  else mret tt.

(** [uint64(len(n.commits))]: a length is below 2^63. *)
Definition height_of (n : Node S) : Z := Z.of_nat (length (nd_commits n)).

Definition newBlock (now : Time) (height round : Z) (payload : string) : op Block :=
  n ← gets id;
  _ ← guard_err (negb (height =? height_of n + 1))
        (errorf ["expected height "; itoa (height_of n + 1); ", got "; itoa height]);
  let transactions := TransactionsFromPayload payload in
  '(stateDigest, _) ← lift (Apply (Clone (nd_state n)) transactions).2;
  let block := NewRoundBlock now height round (nd_lastHash n) payload (cfg_ID cfg) stateDigest in
  mret (mkBlock (b_Height block) (b_Round block) (b_PreviousHash block) (b_Payload block)
          transactions (b_StateDigest block) (b_ProposerID block) (n_membershipVersion cfg)
          (n_manifestHash cfg) (b_CreatedAtUnixMilli block)).

(** ** Voting *)

(** The checks of a precommit's prevote certificate. *)
Definition check_prevoteQC (block : Block) (blockHash : string) (prevoteQC : option QuorumCertificate)
  : result unit :=
  match prevoteQC with
  | None => fail "precommit requires a prevote quorum certificate"
  | Some qc =>
      if negb (qc_Height qc =? b_Height block) || negb (qc_Round qc =? b_Round block) ||
         negb (String.eqb (qc_Stage qc) StagePrevote) || negb (String.eqb (qc_BlockHash qc) blockHash)
      then fail "prevote quorum certificate does not match proposal"
      else
        _ ← validateCurrentMembership (qc_MembershipVersion qc) (qc_ValidatorSetHash qc);
        VerifyQuorumCertificate qc (n_identities cfg) (n_verifier cfg)
  end.

Definition validateProposalLocked (proposal : Proposal) (blockHash : string) : op unit :=
  let block := p_Block proposal in
  n ← gets id;
  let expectedHeight := height_of n + 1 in
  _ ← guard_err (b_Height block <? expectedHeight)
        (errorf ["stale proposal height "; itoa (b_Height block); "; expected "; itoa expectedHeight]);
  _ ← guard_err (expectedHeight <? b_Height block)
        (errorf ["future proposal height "; itoa (b_Height block); "; expected "; itoa expectedHeight]);
  let local := round_at (b_Height block) n in
  _ ← guard_err (b_Round block <? local)
        (errorf ["stale proposal round "; itoa (b_Round block); " for height ";
                 itoa (b_Height block); "; local round is "; itoa local]);
  expectedProposer ← lift (proposerFor (b_Height block) (b_Round block));
  _ ← guard_err (negb (String.eqb (b_ProposerID block) expectedProposer))
        (errorf ["proposal proposer "; b_ProposerID block; " is not scheduled for height ";
                 itoa (b_Height block); " round "; itoa (b_Round block); "; expected ";
                 expectedProposer]);
  _ ← guard_err (negb (String.eqb (b_PreviousHash block) (nd_lastHash n)))
        (errorf ["expected previous hash "; nd_lastHash n; ", got "; b_PreviousHash block]);
  _ ← lift (validateCurrentMembership (b_MembershipVersion block) (b_ValidatorSetHash block));
  '(stateDigest, _) ← lift (Apply (Clone (nd_state n)) (b_Transactions block)).2;
  _ ← guard_err (negb (String.eqb (b_StateDigest block) stateDigest))
        (errorf ["proposal state digest mismatch: block="; b_StateDigest block; " computed=";
                 stateDigest]);
  let key := (b_Height block, b_Round block, b_ProposerID block) in
  _ ← guard_err (match nd_proposals n !! key with
                 | Some existing => negb (String.eqb existing blockHash)
                 | None => false
                 end)
        (errorf ["conflicting proposal from "; b_ProposerID block; " at height ";
                 itoa (b_Height block); " round "; itoa (b_Round block)]);
  _ ← modify (fun n => set_nd_proposals (<[key := blockHash]> (nd_proposals n)) n);
  if local <? b_Round block then set_round (b_Height block) (b_Round block) else mret tt.

Definition checkLockLocked (height round : Z) (blockHash : string) : op unit :=
  lock ← gets nd_lock;
  if (l_Height lock =? 0) || negb (l_Height lock =? height) then mret tt
  else if String.eqb (l_BlockHash lock) blockHash then mret tt
  else if round <=? l_Round lock then
    raise (errorf ["locked on block "; l_BlockHash lock; " at height "; itoa (l_Height lock);
                   " round "; itoa (l_Round lock)])
  else
    raise (errorf ["conservative lock prevents voting for conflicting block "; blockHash;
                   " at height "; itoa height; " round "; itoa round]).

Definition voteForProposal (now : Time) (proposal : Proposal) (stage : string)
  (prevoteQC : option QuorumCertificate) : op Vote :=
  let block := p_Block proposal in
  blockHash ← lift (Block_Hash block);
  _ ← (if String.eqb stage StagePrecommit then lift (check_prevoteQC block blockHash prevoteQC)
       else mret tt);
  _ ← validateProposalLocked proposal blockHash;
  _ ← checkLockLocked (b_Height block) (b_Round block) blockHash;
  let key := (b_Height block, b_Round block, stage) in
  votes ← gets nd_votes;
  match votes !! key with
  | Some existing =>
      if String.eqb (v_BlockHash existing) blockHash then mret existing
      else raise (errorf ["already voted for a different block at height "; itoa (b_Height block);
                          " round "; itoa (b_Round block); " stage "; stage])
  | None =>
      match SignStageVote (b_Height block) (b_Round block) stage blockHash (cfg_ID cfg) (n_signer cfg)
      with
      | Err e => _ ← metric RecordSignerError; raise e
      | Ok vote =>
          _ ← modify (fun n => set_nd_votes (<[key := vote]> (nd_votes n)) n);
          _ ← match prevoteQC with
              | Some qc =>
                  if String.eqb stage StagePrecommit then
                    modify (set_nd_lock (mkLock (b_Height block) (b_Round block) blockHash
                      (qc_BlockHash qc) (qc_Round qc) (qc_Stage qc)
                      (Z.of_nat (length (qc_Votes qc))) (UnixMilli now)))
                  else mret tt
              | None => mret tt
              end;
          _ ← appendEventLocked now (String.concat "" [stage; " vote for height ";
                itoa (b_Height block); " round "; itoa (b_Round block); " proposed by ";
                b_ProposerID block]);
          mret vote
      end
  end.

(** ** Commits *)

Definition verifyCommit (commit : CommitRequest) : result unit :=
  let block := c_Block commit in
  let cert := c_Certificate commit in
  blockHash ← Block_Hash block;
  if negb (String.eqb blockHash (qc_BlockHash cert)) then
    Err (errorf ["commit block hash "; blockHash; " does not match certificate "; qc_BlockHash cert])
  else if negb (b_Height block =? qc_Height cert) then
    Err (errorf ["commit height "; itoa (b_Height block); " does not match certificate height ";
                 itoa (qc_Height cert)])
  else if negb (b_Round block =? qc_Round cert) then
    Err (errorf ["commit round "; itoa (b_Round block); " does not match certificate round ";
                 itoa (qc_Round cert)])
  else if negb (String.eqb (qc_Stage cert) StagePrecommit) then
    Err (errorf ["commit certificate must be "; StagePrecommit; ", got "; qc_Stage cert])
  else if negb (qc_Threshold cert =? cfg_Threshold cfg) then
    Err (errorf ["certificate threshold "; itoa (qc_Threshold cert);
                 " does not match local threshold "; itoa (cfg_Threshold cfg)])
  else
    memberSet ← membershipSetForCommit commit;
    expectedProposer ← ProposerFor (b_Height block) (b_Round block) (mi_validatorIDs memberSet);
    if negb (String.eqb (b_ProposerID block) expectedProposer) then
      Err (errorf ["proposer "; b_ProposerID block; " is not scheduled for height ";
                   itoa (b_Height block); " round "; itoa (b_Round block); "; expected ";
                   expectedProposer])
    else if String.eqb (TrimSpace (b_StateDigest block)) "" then
      fail "commit block state digest is required"
    else VerifyQuorumCertificate cert (mi_identities memberSet) (n_verifier cfg).

Definition validatorStateLocked (now : Time) (lock : LockState) (height round : Z)
  (lastHash stateDigest : string) : ValidatorState :=
  mkValidatorState (cfg_ID cfg) (cfg_Region cfg) height round lastHash stateDigest (l_Height lock)
    (l_Round lock) (l_BlockHash lock) (i64 height) (vi_KeyID (n_selfID cfg))
    (vi_SignatureAlgorithm (n_selfID cfg)) (vi_KEMAlgorithm (n_selfID cfg)) (UnixMilli now).

Definition commitRecord (now : Time) (commit : CommitRequest) (blockHash : string) : CommitRecord :=
  mkCommitRecord (b_Height (c_Block commit)) (b_Round (c_Block commit)) blockHash
    (b_StateDigest (c_Block commit)) (Marshal (Commit_json commit))
    (Marshal (QC_json (c_Certificate commit))) (vi_KeyID (n_selfID cfg)) (UnixMilli now).

Definition annotateEvidenceReceipt (r : EvidenceReceipt) : EvidenceReceipt :=
  mkReceipt (re_ReceiptID r) (re_EvidenceID r) (re_Submission r) (re_EventHash r) (re_CommitHeight r)
    (re_CommitRound r) (re_BlockHash r) (re_QCHash r)
    (if re_MembershipVersion r =? 0 then n_membershipVersion cfg else re_MembershipVersion r)
    (if String.eqb (re_ValidatorSetHash r) "" then n_manifestHash cfg else re_ValidatorSetHash r)
    (re_SignerCount r) (re_ValidatorIDs r) (re_VerificationStatus r) (re_AnchorStatus r)
    (re_AnchorTransaction r) (re_Commit r) (re_CreatedAtUnixMilli r).

Definition evidence_record (r : EvidenceReceipt) (receiptJSON : string) : EvidenceRecord :=
  mkEvidenceRecord (re_EvidenceID r) (re_ReceiptID r) (re_EventHash r) (re_QCHash r)
    (re_CommitHeight r) (es_SubmittingOrganization (re_Submission r))
    (es_IdempotencyKey (re_Submission r)) receiptJSON (re_CreatedAtUnixMilli r).

Definition saveEvidenceReceipt (r : EvidenceReceipt) : op (bool * EvidenceRecord) :=
  receiptJSON ← lift (MarshalReceipt r);
  n ← gets id;
  let '(store, (created, existing, err)) := SaveEvidence (nd_store n) (evidence_record r receiptJSON) in
  _ ← modify (set_nd_store store);
  match err with
  | Some e => _ ← recordStorageError; raise e
  | None => mret (created, existing)
  end.

Definition persistEvidenceReceiptFromCommitLocked (now : Time) (commit : CommitRequest) : op unit :=
  submission ← lift (SubmissionFromPayload (b_Payload (c_Block commit)));
  match submission with
  | None => mret tt
  | Some submission =>
      receipt ← lift (NewReceipt now submission commit);
      _ ← saveEvidenceReceipt (annotateEvidenceReceipt receipt);
      mret tt
  end.

(** The receipt is persisted on a best-effort basis: an error is an event. *)
Definition persist_receipt (now : Time) (commit : CommitRequest) : op unit :=
  r ← attempt (persistEvidenceReceiptFromCommitLocked now commit);
  match r with
  | Ok _ => mret tt
  | Err e => appendEventLocked now ("evidence receipt persistence failed: " ++ err_text e)%string
  end.

Definition store_commit (record : CommitRecord) (state : ValidatorState) : op unit :=
  n ← gets id;
  let '(store, saved) := SaveCommit (nd_store n) record state in
  _ ← modify (set_nd_store store);
  match saved with
  | Err e => _ ← recordStorageError; raise e
  | Ok _ => mret tt
  end.

(** A commit at or below the current height: accepted without effect when it is
    the one the node has. *)
Definition historical_commit (n : Node S) (commit : CommitRequest) (blockHash : string) : result unit :=
  let height := b_Height (c_Block commit) in
  if (height =? 0) || (height_of n <? i64 height) then
    Err (errorf ["invalid historical commit height: "; itoa height])
  else match nd_commits n !! Z.to_nat (height - 1) with
  | Some known =>
      if String.eqb (hash_of (c_Block known)) blockHash then Ok tt
      else Err (errorf ["conflicting historical commit at height "; itoa height])
  | None => fail "index out of range"   (* a panic, excluded by the test above *)
  end.

Definition next_lock (now : Time) (commit : CommitRequest) (blockHash : string) : LockState :=
  let cert := c_Certificate commit in
  mkLock (b_Height (c_Block commit)) (b_Round (c_Block commit)) blockHash (qc_BlockHash cert)
    (qc_Round cert) (qc_Stage cert) (Z.of_nat (length (qc_Votes cert))) (UnixMilli now).

Definition apply_next (now : Time) (commit : CommitRequest) (blockHash : string) : op unit :=
  let block := c_Block commit in
  n ← gets id;
  _ ← guard_err (negb (b_Height block =? height_of n + 1))
        (errorf ["cannot apply height "; itoa (b_Height block); " at current height ";
                 itoa (height_of n)]);
  let local := round_at (b_Height block) n in
  _ ← guard_err (b_Round block <? local)
        (errorf ["stale commit round "; itoa (b_Round block); " for height ";
                 itoa (b_Height block); "; local round is "; itoa local]);
  _ ← guard_err (negb (String.eqb (b_PreviousHash block) (nd_lastHash n)))
        (errorf ["previous hash mismatch: block="; b_PreviousHash block; " local="; nd_lastHash n]);
  let '(nextState, applied) := Apply (Clone (nd_state n)) (b_Transactions block) in
  '(stateDigest, _) ← lift applied;
  _ ← guard_err (negb (String.eqb (b_StateDigest block) stateDigest))
        (errorf ["state digest mismatch: block="; b_StateDigest block; " computed="; stateDigest]);
  let lock := next_lock now commit blockHash in
  _ ← modify (set_nd_lock lock);
  _ ← store_commit (commitRecord now commit blockHash)
        (validatorStateLocked now lock (b_Height block) (b_Round block) blockHash stateDigest);
  _ ← modify (fun n => set_nd_chain blockHash (nd_commits n ++ [commit])%list nextState n);
  _ ← set_round (u64 (b_Height block + 1)) 0;
  _ ← persist_receipt now commit;
  let start := if 0 <? b_CreatedAtUnixMilli block then b_CreatedAtUnixMilli block else UnixMilli now in
  let votes := Z.of_nat (length (qc_Votes (c_Certificate commit))) in
  _ ← metric (RecordCommit now start votes);
  appendEventLocked now (String.concat "" ["committed height "; itoa (b_Height block); " round ";
    itoa (b_Round block); " with "; itoa votes; "/"; itoa (Z.of_nat (size (n_identities cfg)));
    " precommits state="; shortDigest stateDigest]).

Definition ApplyCommit (now : Time) (commit : CommitRequest) : op unit :=
  match verifyCommit commit with
  | Err e => _ ← metric RecordInvalidSignature; raise e
  | Ok _ =>
      blockHash ← lift (Block_Hash (c_Block commit));
      n ← gets id;
      if b_Height (c_Block commit) <=? height_of n then lift (historical_commit n commit blockHash)
      else apply_next now commit blockHash
  end.

(** ** Recovery *)

(** The loop of [loadPersistedState] over the commit log: [i], [previousHash]
    and [stateMachine] are its variables. *)
Fixpoint load_commits (i : Z) (previousHash : string) (stateMachine : Machine)
  (records : list CommitRecord) : result (list CommitRequest * string * Machine) :=
  match records with
  | [] => Ok ([], previousHash, stateMachine)
  | record :: rest =>
      let h := itoa (cr_Height record) in
      if negb (cr_Height record =? i + 1) then
        Err (errorf ["durable commit log has height "; h; " at index "; itoa i; "; expected ";
                     itoa (i + 1)])
      else if negb (String.eqb (cr_IdentityKeyID record) "") &&
              negb (keyIDKnownForSelf (cr_IdentityKeyID record)) then
        Err (errorf ["durable commit at height "; h; " identity key id is not known for "; cfg_ID cfg])
      else match Unmarshal Commit_of (cr_CommitJSON record) with
      | Err e => Err (prefix_err (String.concat "" ["parse durable commit at height "; h]) e)
      | Ok commit =>
      let block := c_Block commit in
      let bh := itoa (b_Height block) in
      if negb (b_Height block =? cr_Height record) then
        Err (errorf ["durable commit height mismatch: record="; h; " commit="; bh])
      else
        blockHash ← Block_Hash block;
        if negb (String.eqb blockHash (cr_BlockHash record)) then
          Err (errorf ["durable commit hash mismatch at height "; h; ": record=";
                       cr_BlockHash record; " computed="; blockHash])
        else if negb (String.eqb (cr_StateDigest record) "") &&
                negb (String.eqb (cr_StateDigest record) (b_StateDigest block)) then
          Err (errorf ["durable commit state digest mismatch at height "; h])
        else if negb (String.eqb (b_PreviousHash block) previousHash) then
          Err (errorf ["durable commit previous hash mismatch at height "; bh])
        else match verifyCommit commit with
        | Err e => Err (prefix_err (String.concat "" ["verify durable commit at height "; bh]) e)
        | Ok _ =>
        match Apply stateMachine (b_Transactions block) with
        | (_, Err e) => Err (prefix_err (String.concat "" ["replay durable state at height "; bh]) e)
        | (stateMachine, Ok (stateDigest, _)) =>
        if negb (String.eqb (b_StateDigest block) stateDigest) then
          Err (errorf ["durable commit state digest invalid at height "; bh; ": block=";
                       b_StateDigest block; " computed="; stateDigest])
        else
          '(commits, previousHash, stateMachine) ← load_commits (i + 1) blockHash stateMachine rest;
          Ok (commit :: commits, previousHash, stateMachine)
        end end end
  end.

(** The checks of the saved validator state against the replayed log. *)
Definition check_saved_state (state : ValidatorState) (commits : list CommitRequest)
  (previousHash : string) (stateMachine : Machine) : result unit :=
  let count := Z.of_nat (length commits) in
  if negb (String.eqb (st_NodeID state) "") && negb (String.eqb (st_NodeID state) (cfg_ID cfg)) then
    Err (errorf ["durable state node id "; st_NodeID state; " does not match config "; cfg_ID cfg])
  else if negb (String.eqb (st_IdentityKeyID state) "") &&
          negb (keyIDKnownForSelf (st_IdentityKeyID state)) then
    Err (errorf ["durable state identity key id is not known for "; cfg_ID cfg])
  else if negb (st_Height state =? count) then
    Err (errorf ["durable state height "; itoa (st_Height state);
                 " does not match commit log height "; itoa count])
  else if (count =? 0) && negb (String.eqb (st_LastHash state) "") &&
          negb (String.eqb (st_LastHash state) GenesisHash) then
    Err (errorf ["durable state has non-genesis hash with empty commit log: "; st_LastHash state])
  else if (0 <? count) && negb (String.eqb (st_LastHash state) previousHash) then
    Err (errorf ["durable state last hash "; st_LastHash state; " does not match commit log hash ";
                 previousHash])
  else if negb (String.eqb (st_StateDigest state) "") &&
          negb (String.eqb (st_StateDigest state) (m_digest stateMachine)) then
    Err (errorf ["durable state digest "; st_StateDigest state; " does not match replayed digest ";
                 m_digest stateMachine])
  else Ok tt.

Definition loadPersistedState (now : Time) : op unit :=
  n ← gets id;
  records ← lift (ListCommits (nd_store n));
  saved ← lift (LoadValidatorState (nd_store n));
  '(commits, previousHash, stateMachine) ← lift (load_commits 0 GenesisHash NewMachine records);
  _ ← match saved with
      | Some state =>
          _ ← lift (check_saved_state state commits previousHash stateMachine);
          modify (set_nd_lock (mkLock (st_LockedHeight state) (st_LockedRound state)
                                 (st_LockedBlockHash state) "" 0 "" 0 0))
      | None => mret tt
      end;
  _ ← modify (set_nd_chain previousHash commits stateMachine);
  match commits with
  | [] => mret tt
  | _ => appendEventLocked now (String.concat "" ["loaded "; itoa (Z.of_nat (length commits));
                                                  " durable commit(s)"])
  end.

(** ** Peers *)

Definition livePeerURLs : gmap string string :=
  let live (url : string) := if String.eqb url "" then None else Some (TrimRightSlash url) in
  omap live (cfg_PeerURLs cfg) ∪ omap (fun ident => live (vi_PublicURL ident)) (n_identities cfg).

Definition error_body (resp : Response) : string :=
  TrimSpace (if len (hr_Body resp) <=? 512 then hr_Body resp else prefix 512 (hr_Body resp)).

Definition requestPrevote (net : Network) (now : Time) (proposal : Proposal) (peerID peerURL : string)
  : op Vote :=
  resp ← lift (nw_do net "POST" (peerURL ++ "/consensus/proposal")%string
                 (Marshal (Proposal_json proposal)));
  _ ← guard_err (300 <=? hr_StatusCode resp)
        (errorf ["peer "; peerID; " returned "; hr_Status resp; ": "; error_body resp]);
  vote ← lift (Decode Vote_of (hr_Body resp));
  _ ← recordPeerHealthy now peerID 0 "";
  mret vote.

Definition requestPrecommit (net : Network) (now : Time) (req : PrecommitRequest)
  (peerID peerURL : string) : op Vote :=
  resp ← lift (nw_do net "POST" (peerURL ++ "/consensus/precommit")%string
                 (Marshal (PrecommitRequest_json req)));
  _ ← guard_err (300 <=? hr_StatusCode resp)
        (errorf ["peer "; peerID; " returned "; hr_Status resp; ": "; error_body resp]);
  vote ← lift (Decode Vote_of (hr_Body resp));
  _ ← recordPeerHealthy now peerID 0 "";
  mret vote.

Definition requestProposalFromProposer (net : Network) (proposerID payload : string)
  : result CommitRequest :=
  match livePeerURLs !! proposerID with
  | None => Err (errorf ["no URL for proposer "; proposerID])
  | Some peerURL =>
      if String.eqb (TrimSpace peerURL) "" then Err (errorf ["no URL for proposer "; proposerID])
      else
        resp ← nw_do net "POST" (peerURL ++ "/propose")%string
                 (Marshal (JObj [("payload", JStr payload)]));
        if 300 <=? hr_StatusCode resp then
          Err (errorf ["proposer "; proposerID; " returned "; hr_Status resp; ": "; error_body resp])
        else Decode Commit_of (hr_Body resp)
  end.

(** The loop that asks the peers for their votes. *)
Fixpoint collect_votes (now : Time) (request : string -> string -> op Vote)
  (peers : list (string * string)) (votes : list Vote) : op (list Vote) :=
  match peers with
  | [] => mret votes
  | (peerID, peerURL) :: rest =>
      if String.eqb peerID (cfg_ID cfg) then collect_votes now request rest votes
      else
        r ← attempt (request peerID peerURL);
        match r with
        | Err e => _ ← recordPeerError now peerID e; collect_votes now request rest votes
        | Ok vote =>
            match VerifyVote vote (n_identities cfg) (n_verifier cfg) with
            | Err e =>
                _ ← metric RecordInvalidSignature;
                _ ← recordPeerError now peerID e;
                collect_votes now request rest votes
            | Ok _ => collect_votes now request rest (votes ++ [vote])%list
            end
        end
  end.

Fixpoint broadcast_to (net : Network) (now : Time) (commit : CommitRequest)
  (peers : list (string * string)) : op unit :=
  match peers with
  | [] => mret tt
  | (peerID, peerURL) :: rest =>
      if String.eqb peerID (cfg_ID cfg) then broadcast_to net now commit rest
      else
        _ ← match nw_do net "POST" (peerURL ++ "/consensus/commit")%string
                    (Marshal (Commit_json commit)) with
            | Err e => recordPeerError now peerID e
            | Ok resp =>
                if 300 <=? hr_StatusCode resp then
                  recordPeerError now peerID (errorf ["commit broadcast returned "; hr_Status resp])
                else recordPeerHealthy now peerID (b_Height (c_Block commit))
                       (qc_BlockHash (c_Certificate commit))
            end;
        broadcast_to net now commit rest
  end.

Definition broadcastCommit (net : Network) (now : Time) (commit : CommitRequest) : op unit :=
  broadcast_to net now commit (nw_order net 2 livePeerURLs).

(** Forms the certificate of a stage; a missing quorum is an event. *)
Definition form_certificate (now : Time) (what : string) (block : Block) (stage blockHash : string)
  (votes : list Vote) : op QuorumCertificate :=
  match FormStageQuorumCertificate now (b_Height block) (b_Round block) stage blockHash votes
          (cfg_Threshold cfg) with
  | Ok qc => mret (attachMembershipToQC qc)
  | Err e =>
      _ ← appendEvent now (String.concat "" [what; " failed at height "; itoa (b_Height block);
            " round "; itoa (b_Round block); ": "; err_text e]);
      raise e
  end.

(** [proposeRound], in the three parts its exchanges with the peers delimit: up to the
    proposer's own prevote, up to its own precommit, and the rest. *)
Definition openRound (now : Time) (height round : Z) (payload : string)
  : op (Proposal * string * Vote) :=
  block ← newBlock now height round payload;
  proposal ← match SignProposal block (n_signer cfg) with
             | Ok p => mret p
             | Err e => _ ← metric RecordSignerError; raise e
             end;
  blockHash ← lift (Block_Hash block);
  selfPrevote ← voteForProposal now proposal StagePrevote None;
  mret (proposal, blockHash, selfPrevote).

Definition certifyRound (net : Network) (now : Time) (proposal : Proposal) (blockHash : string)
  (selfPrevote : Vote) : op (QuorumCertificate * Vote) :=
  prevotes ← collect_votes now (requestPrevote net now proposal) (nw_order net 0 livePeerURLs)
               [selfPrevote];
  prevoteQC ← form_certificate now "proposal" (p_Block proposal) StagePrevote blockHash prevotes;
  selfPrecommit ← voteForProposal now proposal StagePrecommit (Some prevoteQC);
  mret (prevoteQC, selfPrecommit).

Definition commitRound (net : Network) (now : Time) (proposal : Proposal) (blockHash : string)
  (prevoteQC : QuorumCertificate) (selfPrecommit : Vote) : op CommitRequest :=
  let block := p_Block proposal in
  precommits ← collect_votes now (requestPrecommit net now (mkPrecommitRequest proposal prevoteQC))
                 (nw_order net 1 livePeerURLs) [selfPrecommit];
  precommitQC ← form_certificate now "precommit" block StagePrecommit blockHash precommits;
  let commit := mkCommit block precommitQC in
  _ ← ApplyCommit now commit;
  _ ← broadcastCommit net now commit;
  mret commit.

Definition proposeRound (net : Network) (now : Time) (height round : Z) (payload : string)
  : op CommitRequest :=
  '(proposal, blockHash, selfPrevote) ← openRound now height round payload;
  '(prevoteQC, selfPrecommit) ← certifyRound net now proposal blockHash selfPrevote;
  commitRound net now proposal blockHash prevoteQC selfPrecommit.

(** The loop over the rounds, for the node and for a cluster of nodes: [mark], [forward],
    [peer_error], [own] and [apply] are the calls it makes, [fuel] the number of rounds
    left. *)
Fixpoint rounds_loop {St} (mark : Z -> M St unit) (forward : Z -> string -> M St CommitRequest)
  (peer_error : string -> error -> M St unit) (own : Z -> M St CommitRequest)
  (apply : CommitRequest -> M St unit) (height : Z) (fuel : nat) (round : Z)
  (lastErr : option error) : M St CommitRequest :=
  match fuel with
  | O => raise (match lastErr with
                | Some e => e
                | None => errorf ["no proposal reached quorum within "; itoa (cfg_MaxRounds cfg);
                                  " round(s)"]
                end)
  | Datatypes.S fuel =>
      _ ← mark round;
      proposerID ← lift (proposerFor height round);
      if negb (String.eqb proposerID (cfg_ID cfg)) then
        r ← attempt (forward round proposerID);
        match r with
        | Err e =>
            _ ← peer_error proposerID e;
            rounds_loop mark forward peer_error own apply height fuel (round + 1)
              (Some (prefix_err (String.concat "" ["round "; itoa round; " proposer "; proposerID;
                                                   " unavailable"]) e))
        | Ok commit => _ ← apply commit; mret commit
        end
      else
        r ← attempt (own round);
        match r with
        | Err e => rounds_loop mark forward peer_error own apply height fuel (round + 1) (Some e)
        | Ok commit => mret commit
        end
  end.

(** The loop of a node; [net] gives the exchange of each round. *)
Definition propose_rounds (net : Z -> Network) (now : Time) (height : Z) (payload : string)
  : nat -> Z -> option error -> op CommitRequest :=
  rounds_loop (markRound now height)
    (fun round proposerID => lift (requestProposalFromProposer (net round) proposerID payload))
    (recordPeerError now) (fun round => proposeRound (net round) now height round payload)
    (ApplyCommit now) height.

Definition Propose (net : Z -> Network) (now : Time) (payload : string) : op CommitRequest :=
  height ← gets (fun n => height_of n + 1);
  r ← attempt (propose_rounds net now height payload (Z.to_nat (cfg_MaxRounds cfg)) 0 None);
  _ ← metric (RecordConsensusProposal (negb (is_ok r)));
  lift r.

(** ** Catch-up *)

Definition fetchCommits (net : Network) (peerURL : string) : result (list CommitRequest) :=
  resp ← nw_do net "GET" (peerURL ++ "/commits")%string "";
  if 300 <=? hr_StatusCode resp then Err (errorf ["fetch commits returned "; hr_Status resp])
  else Decode_value (dec_list zero_commit (dec_struct Commit_of)) (hr_Body resp).

(** The first loop of [validateCatchUpCandidate]: the candidate extends the
    local chain. *)
Fixpoint candidate_extends (i : Z) (localCommits commits : list CommitRequest) : result unit :=
  match localCommits, commits with
  | [], _ => Ok tt
  | localCommit :: locals, candidate :: rest =>
      localHash ← Block_Hash (c_Block localCommit);
      candidateHash ← Block_Hash (c_Block candidate);
      if negb (String.eqb localHash candidateHash) then
        Err (errorf ["candidate diverges from local chain at height "; itoa (i + 1)])
      else candidate_extends (i + 1) locals rest
  | _ :: _, [] => fail "index out of range"   (* excluded by the length test *)
  end.

(** The second loop: the blocks that follow the local chain. *)
Fixpoint candidate_tail (i : Z) (previousHash : string) (stateMachine : Machine)
  (commits : list CommitRequest) : result unit :=
  match commits with
  | [] => Ok tt
  | commit :: rest =>
      let block := c_Block commit in
      if negb (b_Height block =? i + 1) then
        Err (errorf ["candidate commit index "; itoa i; " has height "; itoa (b_Height block)])
      else if negb (String.eqb (b_PreviousHash block) previousHash) then
        Err (errorf ["candidate previous hash mismatch at height "; itoa (b_Height block)])
      else
        _ ← verifyCommit commit;
        let '(stateMachine, applied) := Apply stateMachine (b_Transactions block) in
        '(stateDigest, _) ← applied;
        if negb (String.eqb (b_StateDigest block) stateDigest) then
          Err (errorf ["candidate state digest mismatch at height "; itoa (b_Height block)])
        else
          blockHash ← Block_Hash block;
          candidate_tail (i + 1) blockHash stateMachine rest
  end.

Definition validateCatchUpCandidate (n : Node S) (commits : list CommitRequest) : result unit :=
  let locals := nd_commits n in
  let count := length locals in
  if (length commits <? count)%nat then
    Err (errorf ["candidate height "; itoa (Z.of_nat (length commits)); " is behind local height ";
                 itoa (Z.of_nat count)])
  else
    _ ← candidate_extends 0 locals commits;
    candidate_tail (Z.of_nat count) (nd_lastHash n) (Clone (nd_state n)) (drop count commits).

(** The loop over the peers: [best] is the longest valid chain so far. *)
Fixpoint best_chain (net : Network) (now : Time) (peers : list (string * string))
  (best : list CommitRequest) : op (list CommitRequest) :=
  match peers with
  | [] => mret best
  | (peerID, peerURL) :: rest =>
      match fetchCommits net peerURL with
      | Err e => _ ← recordPeerError now peerID e; best_chain net now rest best
      | Ok commits =>
          if (length commits <=? length best)%nat then best_chain net now rest best
          else
            n ← gets id;
            match validateCatchUpCandidate n commits with
            | Err e => _ ← recordPeerError now peerID e; best_chain net now rest best
            | Ok _ => best_chain net now rest commits
            end
      end
  end.

Fixpoint apply_all (now : Time) (i : Z) (commits : list CommitRequest) : op unit :=
  match commits with
  | [] => mret tt
  | commit :: rest =>
      r ← attempt (ApplyCommit now commit);
      match r with
      | Err e => raise (prefix_err (String.concat "" ["catch-up failed at commit index "; itoa i]) e)
      | Ok _ => apply_all now (i + 1) rest
      end
  end.

Definition CatchUpFromPeers (net : Network) (now : Time) : op unit :=
  local ← gets nd_commits;
  best ← best_chain net now (nw_order net 0 livePeerURLs) local;
  localHeight ← gets (fun n => length (nd_commits n));
  _ ← apply_all now (Z.of_nat localHeight) (drop localHeight best);
  if (length best =? localHeight)%nat then
    appendEvent now "catch-up checked peers; no newer commits found"
  else appendEvent now (String.concat "" ["catch-up applied ";
         itoa (Z.of_nat (length best) - Z.of_nat localHeight); " commit(s)"]).

(** ** Health probes *)

Definition probe_peer (net : Network) (now : Time) (peerID peerURL : string) : op unit :=
  match nw_do net "GET" (peerURL ++ "/health")%string "" with
  | Err e => recordPeerError now peerID e
  | Ok resp =>
      if 300 <=? hr_StatusCode resp then
        recordPeerError now peerID (errorf ["health probe returned "; hr_Status resp])
      else match Decode Snapshot_of (hr_Body resp) with
      | Err e => recordPeerError now peerID e
      | Ok snapshot => recordPeerHealthy now peerID (ss_Height snapshot) (ss_LastHash snapshot)
      end
  end.

Fixpoint probe_all (net : Network) (now : Time) (peers : list (string * string)) : op unit :=
  match peers with
  | [] => mret tt
  | (peerID, peerURL) :: rest =>
      _ ← (if String.eqb peerID (cfg_ID cfg) then mret tt else probe_peer net now peerID peerURL);
      probe_all net now rest
  end.

Definition probePeers (net : Network) (now : Time) : op unit :=
  probe_all net now (nw_order net 0 livePeerURLs).

(** ** Evidence *)

(** The receipt of a stored record, if there is one. *)
Definition stored_receipt (found : result (option EvidenceRecord)) : op (option EvidenceReceipt) :=
  match found with
  | Err e => _ ← recordStorageError; raise e
  | Ok None => mret None
  | Ok (Some record) => receipt ← lift (UnmarshalReceipt (er_ReceiptJSON record)); mret (Some receipt)
  end.

Definition EvidenceReceiptByID (evidenceID : string) : op (option EvidenceReceipt) :=
  n ← gets id; stored_receipt (EvidenceByID (nd_store n) (TrimSpace evidenceID)).

Definition EvidenceReceiptByReceiptID (receiptID : string) : op (option EvidenceReceipt) :=
  n ← gets id; stored_receipt (EvidenceByReceiptID (nd_store n) (TrimSpace receiptID)).

Definition EvidenceReceiptByQCHash (qcHash : string) : op (option EvidenceReceipt) :=
  n ← gets id; stored_receipt (EvidenceByQCHash (nd_store n) (TrimSpace qcHash)).

Definition duplicate_submission (existing : EvidenceRecord) : op EvidenceReceipt :=
  _ ← metric (RecordEvidenceSubmission false);
  lift (UnmarshalReceipt (er_ReceiptJSON existing)).

(** A new submission: proposed, committed and turned into a receipt. *)
Definition submit_new (net : Z -> Network) (now : Time) (submission : EvidenceSubmission)
  : op EvidenceReceipt :=
  payload ← lift (SubmissionPayload submission);
  commit ← Propose net now payload;
  receipt ← lift (NewReceipt now submission commit);
  let receipt := annotateEvidenceReceipt receipt in
  '(created, existing) ← saveEvidenceReceipt receipt;
  if negb (String.eqb (er_ReceiptID existing) "") &&
     negb (String.eqb (er_ReceiptID existing) (re_ReceiptID receipt))
  then duplicate_submission existing
  else _ ← metric (RecordEvidenceSubmission created); mret receipt.

Definition SubmitEvidence (net : Z -> Network) (now : Time) (submission : EvidenceSubmission)
  : op EvidenceReceipt :=
  let submission := NormalizeSubmission submission in
  _ ← lift (ValidateSubmission submission);
  n ← gets id;
  match EvidenceByIdempotencyKey (nd_store n) (es_IdempotencyKey submission) with
  | Err e => _ ← recordStorageError; raise e
  | Ok (Some existing) => duplicate_submission existing
  | Ok None =>
      evidenceID ← lift (EventHash submission);
      match EvidenceByID (nd_store n) evidenceID with
      | Err e => _ ← recordStorageError; raise e
      | Ok (Some existing) => duplicate_submission existing
      | Ok None => submit_new net now submission
      end
  end.

Definition verifyEvidenceReceipt (r : EvidenceReceipt) (recordMetrics : bool) : op VerificationResult :=
  match membershipSetForReceipt r with
  | Err e =>
      _ ← (if recordMetrics then metric (RecordVerification false) else mret tt);
      mret (mkVerification false VerificationInvalid (err_text e) (re_ReceiptID r) (re_EvidenceID r)
              "" "" "invalid" (re_AnchorStatus r) (re_SignerCount r) (cfg_Threshold cfg) 0)
  | Ok memberSet =>
      let result := VerifyReceipt r (mi_identities memberSet) (Some (n_verifier cfg))
                      (mi_threshold memberSet) in
      _ ← (if recordMetrics then
             _ ← metric (RecordVerification (vf_Valid result));
             if vf_Valid result then mret tt else metric RecordInvalidSignature
           else mret tt);
      mret result
  end.

Definition VerifyEvidenceReceipt (r : EvidenceReceipt) : op VerificationResult :=
  verifyEvidenceReceipt r true.

End node.

(** A node as [NewNode] leaves it, over a store. *)
Definition fresh_node {S} (store : S) : Node S :=
  mkNode store false GenesisHash [] NewMachine ∅ no_lock ∅ ∅ [] ∅ NewMetrics.

(** *** A concrete network of four validators *)

Definition demo_config (id : string) : Config :=
  mkConfig id "nyc" ∅ 3 4 false "" (demo_signer id) demo_verifier (demo_identities demo_ids)
    (demo_identity id) None demo_ids None ∅ "" 0 "local" false.

Definition demo_node : Node MemoryStore := fresh_node NewMemoryStore.

(** The block a validator would propose for a payload on top of a node's chain. *)
Definition demo_block (id : string) (round : Z) (payload : string) (n : Node MemoryStore) : Block :=
  match newBlock (demo_config id) (mkTime 5 "t") (height_of n + 1) round payload n with
  | (_, Ok b) => b
  | (_, Err _) => c_Block zero_commit
  end.

Definition demo_stage_vote (b : Block) (stage id : string) : Vote :=
  match SignStageVote (b_Height b) (b_Round b) stage (hash_of b) id (demo_signer id) with
  | Ok v => v
  | Err _ => zero_vote
  end.

Definition demo_certificate (b : Block) (stage : string) (threshold : Z) (voters : list string)
  : QuorumCertificate :=
  mkQC (b_Height b) (b_Round b) stage (hash_of b) DecisionCommit threshold 0 "" 5
    (Z.of_nat (length voters)) (map (demo_stage_vote b stage) voters).

Definition demo_commit_of (b : Block) (voters : list string) : CommitRequest :=
  mkCommit b (demo_certificate b StagePrecommit 3 voters).

Definition demo_proposal (b : Block) (id : string) : Proposal :=
  match SignProposal b (demo_signer id) with
  | Ok p => p
  | Err _ => mkProposal b 0 "" ""
  end.

Example demo_apply :
  let c := demo_commit_of (demo_block "v1" 0 "pay" demo_node) ["v1"; "v2"; "v4"] in
  let '(n, r) := ApplyCommit (demo_config "v3") (mkTime 9 "t") c demo_node in
  (is_ok r, height_of n, String.eqb (nd_lastHash n) (hash_of (c_Block c)), length (nd_events n))
  = (true, 1, true, 1%nat).
Proof. vm_compute. reflexivity. Qed.
