(* ===== verification/NodeApi.v ===== *)
(** * The HTTP service of the node: consensus/validator/node.go and tls.go

    The handlers, the authorization of peers and of API callers, the audit log,
    readiness, the operator report and the metrics page.  A handler is an
    operation on the node that yields the reply: its status and the value that
    [writeJSON] encodes.  Authorization runs on the node and its rate limiter. *)

From S2P Require Import Prelude Sha256 Json JsonParse JsonDecode Identity State Protocol Codec Store Consortium Anchors Evidence Auth Observability RateLimit Node.
Local Open Scope Z_scope.

(** ** Requests and replies *)

(** What the handlers read of [http.Request.TLS]: the number of verified chains,
    and the URI names of each client certificate. *)
Record ConnectionState := mkTLS {
  tls_VerifiedChains : nat;
  tls_PeerCertificates : list (list string)
}.

Record Request := mkRequest {
  rq_Method : string;
  rq_Path : string;                      (* r.URL.Path *)
  rq_Query : string -> string;           (* r.URL.Query().Get *)
  rq_Authorization : string;             (* r.Header.Get("Authorization") *)
  rq_RequestID : string;                 (* r.Header.Get("X-Request-ID") *)
  rq_RemoteAddr : string;
  rq_TLS : option ConnectionState;
  rq_Body : string
}.

(** The instant a request arrives, and the milliseconds it takes to answer. *)
Record Clock := mkClock { ck_Now : Time; ck_UnixNano : Z; ck_ElapsedMillis : Z }.

Inductive Body :=
| BodyError (text : string)
| BodyVote (v : Vote)
| BodyCommit (c : CommitRequest)
| BodyCommits (cs : list CommitRequest)
| BodySnapshot (s : StateSnapshot)
| BodyPeers (ps : list PeerHealth)
| BodyReadiness (r : ReadinessReport)
| BodyLive (status nodeID : string) (running : bool) (at_ms : Z)
| BodyText (text : string)
| BodyReceipt (r : EvidenceReceipt)
| BodyVerification (v : VerificationResult)
| BodyAnchor (a : AnchorStatus)
| BodyAudit (rs : list AuditRecord)
| BodyReport (r : OperatorReport (list PeerHealth)).

Record Reply := mkReply { rp_Status : Z; rp_Body : Body }.

Definition StatusOK : Z := 200.
Definition StatusBadRequest : Z := 400.
Definition StatusUnauthorized : Z := 401.
Definition StatusForbidden : Z := 403.
Definition StatusNotFound : Z := 404.
Definition StatusConflict : Z := 409.
Definition StatusTooManyRequests : Z := 429.
Definition StatusInternalServerError : Z := 500.
Definition StatusBadGateway : Z := 502.
Definition StatusServiceUnavailable : Z := 503.

Definition writeJSON {St} (status : Z) (body : Body) : M St Reply := mret (mkReply status body).

Definition writeError {St} (status : Z) (e : error) : M St Reply :=
  writeJSON status (BodyError (err_text e)).

(** ** Reading requests *)

Fixpoint decimal_digits (acc : Z) (bs : list Z) : option Z :=
  match bs with
  | [] => Some acc
  | b :: rest => if is_digit b then decimal_digits (10 * acc + (b - 48)) rest else None
  end.

(** [strconv.Atoi]: [None] for any error. *)
Definition Atoi (s : string) : option Z :=
  let '(negative, ds) := match bytes_of_string s with
                         | 45 :: ds => (true, ds)
                         | 43 :: ds => (false, ds)
                         | ds => (false, ds)
                         end in
  match ds with
  | [] => None
  | _ => match decimal_digits 0 ds with
         | Some z => let z := if negative : bool then - z else z in
                     if (- 2 ^ 63 <=? z) && (z <? 2 ^ 63) then Some z else None
         | None => None
         end
  end.

Definition positiveLimit (r : Request) (key : string) (fallback max : Z) : result Z :=
  let raw := TrimSpace (rq_Query r key) in
  limit ← (if String.eqb raw "" then Ok fallback
           else match Atoi raw with
                | Some parsed => if parsed <? 1 then fail (key ++ " must be a positive integer")%string
                                 else Ok parsed
                | None => fail (key ++ " must be a positive integer")%string
                end);
  Ok (if max <? limit then max else limit).

Definition bearerToken (r : Request) : string :=
  let header := TrimSpace (rq_Authorization r) in
  if String.eqb header "" then ""
  else if negb (HasPrefix header "Bearer ") then ""
  else TrimSpace (TrimPrefix header "Bearer ").

Definition requestID (r : Request) (nodeID : string) (start : Clock) : string :=
  let value := TrimSpace (rq_RequestID r) in
  if negb (String.eqb value "") then (if 128 <? len value then prefix 128 value else value)
  else (nodeID ++ "-" ++ itoa (ck_UnixNano start))%string.

(** The loop over the bytes: the differences are accumulated, not returned. *)
Fixpoint xor_bytes (acc : Z) (a b : list Z) : Z :=
  match a, b with
  | x :: a, y :: b => xor_bytes (Z.lor acc (Z.lxor x y)) a b
  | _, _ => acc
  end.

Definition subtleCompare (a b : string) : Z :=
  if negb (len a =? len b) then 0
  else if xor_bytes 0 (bytes_of_string a) (bytes_of_string b) =? 0 then 1 else 0.

(** [req.Payload] of the anonymous struct of [handlePropose]. *)
Definition ProposeRequest_of (fs : list (string * json)) : result string := get_string "payload" fs.

(** A pointer to a struct: [null] sets it to nil, an object is decoded into what
    it points to. *)
Definition get_pointer {A} (f : list (string * json) -> result A) (name : string)
  (fs : list (string * json)) : result (option A) :=
  inner ← foldl (fun acc kv =>
             acc ← acc;
             if negb (String.eqb (fold_name kv.1) name) then Ok acc
             else match kv.2 with
                  | JNull => Ok None
                  | JObj fs' => Ok (Some (default [] acc ++ fs')%list)
                  | _ => json_error
                  end) (Ok None) fs;
  match inner with
  | None => Ok None
  | Some fs => a ← f fs; Ok (Some a)
  end.

Definition VerificationRequest_of (fs : list (string * json)) : result VerificationRequest :=
  receipt_id ← get_string "receipt_id" fs;
  evidence_id ← get_string "evidence_id" fs;
  receipt ← get_pointer Receipt_of "receipt" fs;
  Ok (mkVerificationRequest receipt_id evidence_id receipt).

(** [Time.Format(time.RFC3339)]: the nanosecond form without its fraction. *)
Fixpoint drop_digits (s : string) : string :=
  match s with
  | String c rest => if is_digit (code c) then drop_digits rest else s
  | EmptyString => EmptyString
  end.

Definition RFC3339 (now : Time) : string :=
  match CutByte "."%char (RFC3339Nano now) with
  | Some (whole, rest) => (whole ++ drop_digits rest)%string
  | None => RFC3339Nano now
  end.

Definition splitMetricKey (key : string) : string * string * string :=
  let parts := SplitByte "|"%char key in
  (nth 0 parts "", nth 1 parts "", nth 2 parts "").

Definition boolMessage (ok : bool) (yes no : string) : string := if ok then yes else no.

Definition boolInt (value : bool) : Z := if value then 1 else 0.

Section api.
Context {S : Type} `{ValidatorStore S} (cfg : Config).

Local Abbreviation op := (M (Node S)).

(** ** Readiness, reports and metrics *)

Definition checkSigner : result unit :=
  let challenge := "pq-fabric readiness signer check"%string in
  signature ← sg_Sign (n_signer cfg) challenge;
  if negb (ver_Verify (n_verifier cfg) (SignaturePublicKeyBytes (n_selfID cfg)) challenge signature)
  then fail "signer produced a signature that does not verify against the current manifest key"
  else Ok tt.

Definition healthy_count (peers : list PeerHealth) : Z :=
  Z.of_nat (length (List.filter ph_Healthy peers)).

Definition Node_ReadinessReport (now : Time) : op ReadinessReport :=
  snapshot ← gets (Snapshot cfg);
  peers ← gets Node_PeerHealth;
  let healthyPeers := healthy_count peers in
  let quorumAvailable := cfg_Threshold cfg <=? 1 + healthyPeers in
  _ ← metric (RecordQuorumAvailable now quorumAvailable);
  n ← gets id;
  storage ← match ListCommits (nd_store n) with
            | Err e => _ ← recordStorageError; mret (mkCheck "storage" false (err_text e))
            | Ok _ => mret (mkCheck "storage" true "storage reachable")
            end;
  let membership :=
    match n_manifest cfg with
    | Some _ =>
        let active := containsString (n_validatorIDs cfg) (cfg_ID cfg) in
        mkCheck "active_membership" active
          (boolMessage active "validator is active in current manifest"
             "validator is not active in current manifest")
    | None => mkCheck "active_membership" (negb (cfg_ProductionMode cfg))
                "no consortium manifest configured"
    end in
  signer ← match checkSigner with
           | Err e => _ ← metric RecordSignerError; mret (mkCheck "signer" false (err_text e))
           | Ok _ => mret (mkCheck "signer" true "signer reachable")
           end;
  let apiAuthOK := negb (cfg_ProductionMode cfg) || bool_decide (is_Some (n_authn cfg)) in
  let peerTLSOK := negb (cfg_ProductionMode cfg) || n_peerTLS cfg in
  let total := Z.of_nat (length peers) in
  let peerReachable := if cfg_ProductionMode cfg then 0 <? healthyPeers
                       else (total =? 0) || (0 <? healthyPeers) in
  mret (NewReadinessReport now
    [mkCheck "running" (ss_Running snapshot)
       (boolMessage (ss_Running snapshot) "node is running" "node is not running");
     mkCheck "quorum_available" quorumAvailable
       (String.concat "" ["reachable voting power="; itoa (1 + healthyPeers); " threshold=";
                          itoa (cfg_Threshold cfg)]);
     storage; membership; signer;
     mkCheck "api_auth_config" apiAuthOK
       (boolMessage apiAuthOK "API auth configured" "production API key file is not loaded");
     mkCheck "peer_mtls_config" peerTLSOK
       (boolMessage peerTLSOK "peer mTLS configured" "production peer mTLS is not configured");
     mkCheck "peer_reachability" peerReachable
       (String.concat "" ["healthy_peers="; itoa healthyPeers; " total_peers="; itoa total])]).

(** The summary of a commit record, when its JSON parses. *)
Definition commit_summary (record : CommitRecord) : option (CommitSummary * list string) :=
  match Unmarshal Commit_of (cr_CommitJSON record) with
  | Err _ => None
  | Ok commit =>
      let votes := qc_Votes (c_Certificate commit) in
      Some (mkCommitSummary (cr_Height record) (cr_Round record) (cr_BlockHash record)
              (cr_StateDigest record) (b_ProposerID (c_Block commit)) (Z.of_nat (length votes))
              (cr_CreatedAtUnixMilli record), map v_VoterID votes)
  end.

Definition commitSummaries (records : list CommitRecord)
  : list CommitSummary * list QuorumParticipation :=
  let found := omap commit_summary records in
  let counts := foldl (fun m id => bump 1 id m) ∅ (concat (map snd found)) in
  (map fst found,
   map (fun id => mkParticipation id (default 0 (counts !! id))) (sorted_keys counts)).

(** The loop of [receiptSummaries]. *)
Fixpoint receiptSummaries (records : list EvidenceRecord)
  : op (list ReceiptSummary * list VerificationSpotCheck) :=
  match records with
  | [] => mret ([], [])
  | record :: rest =>
      match UnmarshalReceipt (er_ReceiptJSON record) with
      | Err _ => receiptSummaries rest
      | Ok r =>
          result ← verifyEvidenceReceipt cfg r false;
          '(summaries, checks) ← receiptSummaries rest;
          mret (mkReceiptSummary (re_EvidenceID r) (re_ReceiptID r) (re_EventHash r) (re_QCHash r)
                  (re_CommitHeight r) (es_SubmittingOrganization (re_Submission r)) (re_SignerCount r)
                  (re_AnchorStatus r) (re_CreatedAtUnixMilli r) :: summaries,
                mkSpotCheck (re_ReceiptID r) (re_EvidenceID r) (vf_Valid result) (vf_Reason result)
                  (vf_QuorumStatus result) (vf_AnchorStatus result) :: checks)
      end
  end.

(** A read of the store; an error is counted. *)
Definition read_store {A} (f : S -> result A) : op A :=
  n ← gets id;
  match f (nd_store n) with
  | Err e => _ ← recordStorageError; raise e
  | Ok a => mret a
  end.

Definition Node_OperatorReport (now : Time) (auditLimit receiptLimit : Z)
  : op (OperatorReport (list PeerHealth)) :=
  readiness ← Node_ReadinessReport now;
  recentCommits ← read_store (fun s => RecentCommits s receiptLimit);
  recentEvidence ← read_store (fun s => RecentEvidence s receiptLimit);
  audit ← read_store (fun s => ListAudit s auditLimit);
  let '(summaries, participation) := commitSummaries recentCommits in
  '(receipts, spotChecks) ← receiptSummaries recentEvidence;
  n ← gets id;
  mret (mkReport (UnixMilli now) (Snapshot cfg n) readiness (Node_PeerHealth n)
          (Metrics_Snapshot (nd_metrics n)) summaries receipts audit participation
          (mkSignerStatus (n_signerProvider cfg) (sg_Algorithm (n_signer cfg))
             (vi_KeyID (n_selfID cfg)) "configured")
          spotChecks).

Definition metric_line (name : string) (value : Z) : string :=
  line [name; " "; itoa value].

Definition peer_lines (height : Z) (peer : PeerHealth) : string :=
  let lag := i64 (i64 height - i64 (ph_LastHeight peer)) in
  String.concat ""
    [line ["pq_fabric_validator_peer_healthy{peer_id="; Quote (ph_PeerID peer); "} ";
           itoa (boolInt (ph_Healthy peer))];
     line ["pq_fabric_validator_peer_lag{peer_id="; Quote (ph_PeerID peer); "} ";
           itoa (if lag <? 0 then 0 else lag)]].

Definition api_lines (m : Metrics) (key : string) : string :=
  let '(method, path, status) := splitMetricKey key in
  let labels := String.concat "" ["{method="; Quote method; ",path="; Quote path; ",status=";
                                  Quote status; "} "] in
  String.concat ""
    [line ["pq_fabric_api_requests_total"; labels; itoa (default 0 (me_apiRequests m !! key))];
     line ["pq_fabric_api_request_duration_millis_total"; labels;
           itoa (default 0 (me_apiRequestDurationMillis m !! key))]].

Definition label_line (name label : string) (counts : gmap string Z) (key : string) : string :=
  line [name; "{"; label; "="; Quote key; "} "; itoa (default 0 (counts !! key))].

Definition metrics_page (n : Node S) (evidenceCount : Z) : string :=
  let snapshot := Snapshot cfg n in
  let peers := Node_PeerHealth n in
  let healthyPeers := healthy_count peers in
  let quorum := cfg_Threshold cfg <=? 1 + healthyPeers in
  let m := nd_metrics n in
  String.concat ""
    ([metric_line "pq_fabric_validator_height" (ss_Height snapshot);
      metric_line "pq_fabric_validator_commit_count" (ss_CommitCount snapshot);
      metric_line "pq_fabric_validator_peer_count" (Z.of_nat (length peers));
      metric_line "pq_fabric_validator_peer_healthy_count" healthyPeers;
      metric_line "pq_fabric_readiness_ready" (boolInt (ss_Running snapshot && quorum))] ++
     map (peer_lines (ss_Height snapshot)) peers ++
     [metric_line "pq_fabric_evidence_receipts_total" evidenceCount;
      metric_line "pq_fabric_evidence_submissions_total" (me_evidenceSubmissions m);
      metric_line "pq_fabric_evidence_duplicate_submissions_total" (me_duplicateEvidence m);
      metric_line "pq_fabric_consensus_proposals_total" (me_consensusProposals m);
      metric_line "pq_fabric_consensus_proposal_failures_total" (me_consensusProposalFailures m);
      metric_line "pq_fabric_consensus_commits_total" (me_consensusCommits m);
      metric_line "pq_fabric_consensus_commit_latency_millis_total" (me_commitLatencyMillisTotal m);
      metric_line "pq_fabric_consensus_last_commit_latency_millis" (me_lastCommitLatencyMillis m);
      metric_line "pq_fabric_quorum_last_signer_count" (me_lastQuorumSignerCount m);
      metric_line "pq_fabric_quorum_available" (boolInt quorum);
      metric_line "pq_fabric_storage_errors_total" (me_storageErrors m);
      metric_line "pq_fabric_signer_errors_total" (me_signerErrors m);
      metric_line "pq_fabric_invalid_signatures_total" (me_invalidSignatures m);
      metric_line "pq_fabric_peer_probe_successes_total" (me_peerProbeSuccesses m);
      metric_line "pq_fabric_peer_probe_failures_total" (me_peerProbeFailures m)] ++
     map (api_lines m) (SortedMetricKeys (me_apiRequests m)) ++
     map (label_line "pq_fabric_receipt_verifications_total" "result" (me_verificationResults m))
       (SortedMetricKeys (me_verificationResults m)) ++
     map (label_line "pq_fabric_anchor_status_total" "status" (me_anchorStatuses m))
       (SortedMetricKeys (me_anchorStatuses m)))%list.

Definition renderPrometheusMetrics : op string :=
  records ← read_store ListEvidence;
  n ← gets id;
  mret (metrics_page n (Z.of_nat (length records))).

(** ** The consensus endpoints *)

Definition handleHealth (r : Request) : op Reply :=
  s ← gets (Snapshot cfg); writeJSON StatusOK (BodySnapshot s).

Definition handleReady (now : Time) (r : Request) : op Reply :=
  report ← Node_ReadinessReport now;
  writeJSON (if Ready report then StatusOK else StatusServiceUnavailable) (BodyReadiness report).

Definition handleOpsLivez (now : Time) (r : Request) : op Reply :=
  s ← gets (Snapshot cfg);
  writeJSON StatusOK (BodyLive (if ss_Running s then "live" else "not_live") (ss_NodeID s)
                        (ss_Running s) (UnixMilli now)).

Definition handleOpsReadyz (now : Time) (r : Request) : op Reply :=
  report ← Node_ReadinessReport now;
  writeJSON (if Ready report then StatusOK else StatusServiceUnavailable) (BodyReadiness report).

Definition handleMetrics (r : Request) : op Reply :=
  body ← attempt renderPrometheusMetrics;
  match body with
  | Err e => writeError StatusInternalServerError e
  | Ok body => mret (mkReply StatusOK (BodyText body))
  end.

Definition handleState (r : Request) : op Reply :=
  s ← gets (Snapshot cfg); writeJSON StatusOK (BodySnapshot s).

Definition handleCommits (r : Request) : op Reply :=
  cs ← gets nd_commits; writeJSON StatusOK (BodyCommits cs).

Definition handlePeers (r : Request) : op Reply :=
  ps ← gets Node_PeerHealth; writeJSON StatusOK (BodyPeers ps).

(** Turns the result of an operation into a reply. *)
Definition reply_with {St A} (m : M St A) (status : error -> Z) (body : A -> Body) : M St Reply :=
  r ← attempt m;
  match r with
  | Err e => writeError (status e) e
  | Ok a => writeJSON StatusOK (body a)
  end.

Definition default_payload (now : Time) : string :=
  String.concat "" ["manual proposal from "; cfg_ID cfg; " at "; RFC3339 now].

(** [handlePropose] over the proposal it makes.  An empty body leaves the request zero. *)
Definition propose_handler {St} (propose : string -> M St CommitRequest) (now : Time) (r : Request)
  : M St Reply :=
  match Decode ProposeRequest_of (rq_Body r) with
  | Err e =>
      if errors_Is e io_EOF then
        reply_with (propose (default_payload now)) (fun _ => StatusBadGateway) BodyCommit
      else writeError StatusBadRequest e
  | Ok payload =>
      reply_with (propose (if String.eqb (TrimSpace payload) "" then default_payload now
                           else payload))
        (fun _ => StatusBadGateway) BodyCommit
  end.

Definition handlePropose (net : Z -> Network) (now : Time) (r : Request) : op Reply :=
  propose_handler (Propose cfg net now) now r.

Definition handleProposal (now : Time) (r : Request) : op Reply :=
  match Decode Proposal_of (rq_Body r) with
  | Err e => writeError StatusBadRequest e
  | Ok proposal =>
      match VerifyProposal proposal (n_identities cfg) (n_verifier cfg) with
      | Err e => _ ← metric RecordInvalidSignature; writeError StatusBadRequest e
      | Ok _ => reply_with (voteForProposal cfg now proposal StagePrevote None)
                  (fun _ => StatusConflict) BodyVote
      end
  end.

Definition handlePrecommit (now : Time) (r : Request) : op Reply :=
  match Decode PrecommitRequest_of (rq_Body r) with
  | Err e => writeError StatusBadRequest e
  | Ok req =>
      match VerifyProposal (pr_Proposal req) (n_identities cfg) (n_verifier cfg) with
      | Err e => _ ← metric RecordInvalidSignature; writeError StatusBadRequest e
      | Ok _ => reply_with (voteForProposal cfg now (pr_Proposal req) StagePrecommit
                              (Some (pr_PrevoteQC req)))
                  (fun _ => StatusConflict) BodyVote
      end
  end.

Definition handleCommit (now : Time) (r : Request) : op Reply :=
  match Decode Commit_of (rq_Body r) with
  | Err e => writeError StatusBadRequest e
  | Ok commit =>
      applied ← attempt (ApplyCommit cfg now commit);
      match applied with
      | Err e => writeError StatusConflict e
      | Ok _ => s ← gets (Snapshot cfg); writeJSON StatusOK (BodySnapshot s)
      end
  end.

(** ** The evidence endpoints, once authorized *)

Definition handleEvidenceSubmitAuthorized (net : Z -> Network) (now : Time) (r : Request) : op Reply :=
  match Decode Submission_of (limit_body (rq_Body r)) with
  | Err e => writeError StatusBadRequest e
  | Ok submission =>
      reply_with (SubmitEvidence cfg net now submission)
        (fun e => if negb (errors_Is e Evidence.ErrInvalid) then StatusBadGateway else StatusBadRequest)
        BodyReceipt
  end.

(** The reply to a lookup: 500 on an error, 404 when there is no receipt. *)
Definition found_or_404 (found : result (option EvidenceReceipt)) (k : EvidenceReceipt -> op Reply)
  : op Reply :=
  match found with
  | Err e => writeError StatusInternalServerError e
  | Ok None => writeError StatusNotFound Store.ErrNotFound
  | Ok (Some receipt) => k receipt
  end.

(** The part of the path after [root]; an absent one is an error. *)
Definition path_key (root what : string) (r : Request) (k : string -> op Reply) : op Reply :=
  let key := TrimPrefix (rq_Path r) root in
  if String.eqb (TrimSpace key) "" || String.eqb key (rq_Path r)
  then writeError StatusBadRequest (errors_New (what ++ " required"))
  else k key.

Definition handleEvidenceGetAuthorized (r : Request) : op Reply :=
  path_key "/v1/evidence/" "evidence id" r (fun evidenceID =>
    found ← attempt (EvidenceReceiptByID evidenceID);
    found_or_404 found (fun receipt => writeJSON StatusOK (BodyReceipt receipt))).

Definition handleReceiptGetAuthorized (r : Request) : op Reply :=
  path_key "/v1/receipts/" "receipt id" r (fun receiptID =>
    found ← attempt (EvidenceReceiptByReceiptID receiptID);
    found_or_404 found (fun receipt => writeJSON StatusOK (BodyReceipt receipt))).

Definition handleVerifyAuthorized (r : Request) : op Reply :=
  match Decode VerificationRequest_of (limit_body (rq_Body r)) with
  | Err e => writeError StatusBadRequest e
  | Ok req =>
      let answer receipt := v ← VerifyEvidenceReceipt cfg receipt; writeJSON StatusOK (BodyVerification v) in
      match vq_Receipt req with
      | Some receipt => answer receipt
      | None =>
          if negb (String.eqb (TrimSpace (vq_ReceiptID req)) "") then
            found ← attempt (EvidenceReceiptByReceiptID (vq_ReceiptID req)); found_or_404 found answer
          else if negb (String.eqb (TrimSpace (vq_EvidenceID req)) "") then
            found ← attempt (EvidenceReceiptByID (vq_EvidenceID req)); found_or_404 found answer
          else writeError StatusBadRequest
                 (errors_New "receipt, receipt_id, or evidence_id required")
      end
  end.

Definition handleAnchorGetAuthorized (r : Request) : op Reply :=
  path_key "/v1/anchors/" "qc hash" r (fun qcHash =>
    found ← attempt (EvidenceReceiptByQCHash qcHash);
    match found with
    | Err e => writeError StatusInternalServerError e
    | Ok None =>
        _ ← metric (RecordAnchorStatus AnchorUnavailable);
        writeJSON StatusOK (BodyAnchor (mkAnchorStatus qcHash AnchorUnavailable "" "" ""
          "no local receipt found for quorum certificate hash"))
    | Ok (Some receipt) =>
        let status := if String.eqb (re_AnchorStatus receipt) "" then AnchorNotRequested
                      else re_AnchorStatus receipt in
        _ ← metric (RecordAnchorStatus status);
        writeJSON StatusOK (BodyAnchor (mkAnchorStatus qcHash status (re_ReceiptID receipt)
          (re_EvidenceID receipt) (re_AnchorTransaction receipt)
          "testnet anchoring is optional and not required for receipt validity"))
    end).

Definition handleAuditRecentAuthorized (r : Request) : op Reply :=
  let raw := TrimSpace (rq_Query r "limit") in
  let limit := if String.eqb raw "" then Some 50
               else match Atoi raw with
                    | Some parsed => if parsed <? 1 then None
                                     else Some (if 200 <? parsed then 200 else parsed)
                    | None => None
                    end in
  match limit with
  | None => writeError StatusBadRequest (errors_New "limit must be a positive integer")
  | Some limit =>
      n ← gets id;
      match ListAudit (nd_store n) limit with
      | Err e => writeError StatusInternalServerError e
      | Ok records => writeJSON StatusOK (BodyAudit records)
      end
  end.

Definition handleOpsReportAuthorized (now : Time) (r : Request) : op Reply :=
  match positiveLimit r "audit_limit" 50 200 with
  | Err e => writeError StatusBadRequest e
  | Ok auditLimit =>
      match positiveLimit r "receipt_limit" 20 100 with
      | Err e => writeError StatusBadRequest e
      | Ok receiptLimit => reply_with (Node_OperatorReport now auditLimit receiptLimit)
                             (fun _ => StatusInternalServerError) BodyReport
      end
  end.
End api.

(** ** Authorization *)

(** A node with the limiter of its external API. *)
Record Server (S : Type) := mkServer { sv_node : Node S; sv_limiter : option rateLimiter }.
Arguments mkServer {S}.
Arguments sv_node {S}.
Arguments sv_limiter {S}.

Section server.
Context {S : Type} `{ValidatorStore S} (cfg : Config).
(* the entries of the authenticator's map, in the order Go ranges over them *)
Context (entries : list (string * APIKeyRecord)).

Local Abbreviation op := (M (Node S)).
Local Abbreviation handler := (Request -> op Reply).

Definition authorizePeer (r : Request) : result string :=
  match rq_TLS r with
  | None => fail "peer mTLS is required"
  | Some tls =>
      match tls_VerifiedChains tls, tls_PeerCertificates tls with
      | Datatypes.S _, uris :: _ =>
          match n_manifest cfg with
          | None => fail "consortium manifest is required for peer mTLS"
          | Some manifest =>
              peerID ← ValidatorIDFromTLSURIs uris (mf_ConsortiumID manifest);
              if negb (containsString (n_validatorIDs cfg) peerID) then
                Err (errorf ["peer certificate validator "; peerID;
                             " is not active in current consortium manifest"])
              else Ok peerID
          end
      | _, _ => fail "verified peer client certificate is required"
      end
  end.

Definition withPeerAuth (h : handler) : handler := fun r =>
  if negb (cfg_ProductionMode cfg) then h r
  else match authorizePeer r with
       | Err e => writeError StatusUnauthorized e
       | Ok _ => h r
       end.

Definition no_principal : Principal := mkPrincipal "" "" "" [] false.

Definition legacy_principal : Principal :=
  mkPrincipal "legacy-bearer" "legacy bearer token" "local"
    [RoleEvidenceSubmit; RoleEvidenceRead; RoleEvidenceVerify; RoleAnchorRead; RoleAdminRead] true.

(** The principal, its rate-limit key, and the status and reason of a denial. *)
Definition authorizeExternalAPI (role : string) (r : Request) (now : Time)
  : Principal * string * Z * string :=
  let token := bearerToken r in
  match n_authn cfg with
  | Some authn =>
      match Authenticate (Some authn) entries token now with
      | Err _ => (no_principal, "anonymous", StatusUnauthorized, "missing or invalid API key")
      | Ok principal =>
          let key := ("api-key:" ++ pr_ID principal)%string in
          if negb (HasRole principal role)
          then (principal, key, StatusForbidden, "API key lacks required role")
          else (principal, key, 0, ""%string)
      end
  | None =>
      let legacy := TrimSpace (cfg_APIBearerToken cfg) in
      if negb (String.eqb legacy "") then
        if String.eqb token "" || negb (subtleCompare token legacy =? 1)%Z
        then (no_principal, "anonymous", StatusUnauthorized, "missing or invalid API bearer token")
        else (legacy_principal, "legacy-bearer", 0, ""%string)
      else (mkPrincipal "anonymous-local" "" "local-dev" [] false, "anonymous-local", 0, ""%string)
  end%string.

Definition audit_record (r : Request) (principal : Principal) (status : Z) (start : Clock)
  (denialReason : string) : AuditRecord :=
  mkAuditRecord (requestID r (cfg_ID cfg) start) (UnixMilli (ck_Now start)) (pr_ID principal)
    (pr_Organization principal) (rq_Method r) (rq_Path r) (if status =? 0 then StatusOK else status)
    (ck_ElapsedMillis start) (rq_RemoteAddr r) denialReason.

Definition saveAuditRecord (r : Request) (principal : Principal) (status : Z) (start : Clock)
  (denialReason : string) : op unit :=
  n ← gets id;
  let '(store, saved) := SaveAudit (nd_store n) (audit_record r principal status start denialReason) in
  _ ← modify (set_nd_store store);
  match saved with
  | Ok _ => mret tt
  | Err e =>
      _ ← recordStorageError;
      appendEvent (ck_Now start) ("audit persistence failed: " ++ err_text e)%string
  end.

(** What follows the reply: the audit record and the request's metrics. *)
Definition account (r : Request) (principal : Principal) (start : Clock) (denialReason : string)
  (reply : Reply) : op Reply :=
  _ ← saveAuditRecord r principal (rp_Status reply) start denialReason;
  _ ← metric (RecordAPI (rq_Method r) (rq_Path r) (rp_Status reply) (ck_ElapsedMillis start));
  mret reply.

Definition withExternalAPI (role : string) (h : handler) (start : Clock) (r : Request)
  (sv : Server S) : Server S * result Reply :=
  let '(principal, rateKey, status, reason) := authorizeExternalAPI role r (ck_Now start) in
  let '(limiter, allowed) := Allow rateKey (ck_UnixNano start) (sv_limiter sv) in
  let '(status, reason) := if (allowed : bool) then (status, reason)
                           else (StatusTooManyRequests, "rate limit exceeded"%string) in
  let m := if negb (status =? 0) then
             reply ← writeError status (errors_New reason); account r principal start reason reply
           else reply ← h r; account r principal start "" reply in
  let '(n, reply) := m (sv_node sv) in
  (mkServer n limiter, reply).

(** ** Routes *)

Definition on_node (m : op Reply) (sv : Server S) : Server S * result Reply :=
  let '(n, reply) := m (sv_node sv) in (mkServer n (sv_limiter sv), reply).

(** The routes of [Start].  [None]: no route matches, and the mux itself
    answers.  A pattern with method GET matches HEAD requests too. *)
Definition serve (net : Z -> Network) (start : Clock) (r : Request)
  : option (Server S -> Server S * result Reply) :=
  let now := ck_Now start in
  let get := String.eqb (rq_Method r) "GET" || String.eqb (rq_Method r) "HEAD" in
  let post := String.eqb (rq_Method r) "POST" in
  let path := rq_Path r in
  let peer h := Some (on_node (withPeerAuth h r)) in
  let external role h := Some (withExternalAPI role h start r) in
  if get && String.eqb path "/health" then peer (handleHealth cfg)
  else if get && String.eqb path "/ready" then peer (handleReady cfg now)
  else if get && String.eqb path "/metrics" then peer (handleMetrics cfg)
  else if get && String.eqb path "/state" then peer (handleState cfg)
  else if get && String.eqb path "/commits" then peer handleCommits
  else if get && String.eqb path "/peers" then peer handlePeers
  else if post && String.eqb path "/propose" then peer (handlePropose cfg net now)
  else if post && String.eqb path "/consensus/proposal" then peer (handleProposal cfg now)
  else if post && String.eqb path "/consensus/precommit" then peer (handlePrecommit cfg now)
  else if post && String.eqb path "/consensus/commit" then peer (handleCommit cfg now)
  else if post && String.eqb path "/v1/evidence" then
    external RoleEvidenceSubmit (handleEvidenceSubmitAuthorized cfg net now)
  else if get && HasPrefix path "/v1/evidence/" then
    external RoleEvidenceRead handleEvidenceGetAuthorized
  else if get && HasPrefix path "/v1/receipts/" then
    external RoleEvidenceRead handleReceiptGetAuthorized
  else if post && String.eqb path "/v1/verify" then
    external RoleEvidenceVerify (handleVerifyAuthorized cfg)
  else if get && HasPrefix path "/v1/anchors/" then
    external RoleAnchorRead handleAnchorGetAuthorized
  else if get && String.eqb path "/v1/audit/recent" then
    external RoleAdminRead handleAuditRecentAuthorized
  else if get && String.eqb path "/v1/ops/report" then
    external RoleAdminRead (handleOpsReportAuthorized cfg now)
  else None.

(** The routes of the ops probe. *)
Definition serve_ops (now : Time) (r : Request) : option (op Reply) :=
  let get := String.eqb (rq_Method r) "GET" || String.eqb (rq_Method r) "HEAD" in
  if get && String.eqb (rq_Path r) "/livez" then Some (handleOpsLivez cfg now r)
  else if get && String.eqb (rq_Path r) "/readyz" then Some (handleOpsReadyz cfg now r)
  else None.
End server.
