(* ===== verification/NodeInit.v ===== *)
(** * Building, starting and stopping a node: consensus/validator/node.go and tls.go

    [NewNode] checks the configuration, loads the files it names, and leaves a
    node over the store it opened; [Start] and [Stop] change whether it runs.
    What the operating system and the libraries answer is an [Environment]. *)

From S2P Require Import Prelude Sha256 Json JsonParse JsonDecode Identity State Protocol Codec Store Consortium Anchors Evidence Auth Observability RateLimit Signing Node NodeApi.
Local Open Scope Z_scope.

Definition ModeMemory : string := "memory".
Definition ModeDurable : string := "durable".
Definition ModeSQLite : string := "sqlite".

(** [Config], less the addresses and timeouts that only the sockets use and the
    logging and tracing options. *)
Record NodeConfig := mkNodeConfig {
  nc_ID : string;
  nc_Region : string;
  nc_PublicURL : string;
  nc_PeerURLs : gmap string string;
  nc_Threshold : Z;
  nc_MaxRounds : Z;
  nc_StorageMode : string;
  nc_DataDir : string;
  nc_DatabaseURL : string;
  nc_ProductionMode : bool;
  nc_APIBearerToken : string;
  nc_APIKeysFile : string;
  nc_RateLimitPerMin : Z;
  nc_RateLimitBurst : Z;
  nc_ConsortiumManifest : string;
  nc_ManifestHistory : string;
  nc_SignerProvider : string;
  nc_AllowLocalSigner : bool;
  nc_KMS : KMSConfig;
  nc_PeerTLSCertFile : string;
  nc_PeerTLSKeyFile : string;
  nc_PeerTLSCAFile : string
}.

(** What lies outside the program: the two suites and the value of the suite
    variable, files, certificates, URLs, the key service, the storage backends
    and the exporters. *)
Record Environment (S : Type) := mkEnvironment {
  en_dev : CryptoSuite;
  en_pq : CryptoSuite;
  en_suite : string;                                   (* os.Getenv(EnvVar) *)
  en_read_file : string -> result string;
  en_unquote : string -> option string;
  en_key_pair : string -> string -> result unit;       (* tls.LoadX509KeyPair *)
  en_pem : string -> bool;                             (* AppendCertsFromPEM *)
  en_url_ok : string -> bool;
  en_kms_do : string -> string -> string -> option json -> result Response;
  en_kms_client : string -> result unit;
  en_open_store : string -> string -> string -> result S;   (* OpenValidatorStore *)
  en_observability : result unit                       (* observability.NewRuntime *)
}.
Arguments mkEnvironment {S}.
Arguments en_dev {S}.
Arguments en_pq {S}.
Arguments en_suite {S}.
Arguments en_read_file {S}.
Arguments en_unquote {S}.
Arguments en_key_pair {S}.
Arguments en_pem {S}.
Arguments en_url_ok {S}.
Arguments en_kms_do {S}.
Arguments en_kms_client {S}.
Arguments en_open_store {S}.
Arguments en_observability {S}.

Section init.
Context {S : Type} `{ValidatorStore S} (env : Environment S).

(** The checks production mode adds before anything is read. *)
Definition production_checks (cfg : NodeConfig) (storageMode : string) (selected : CryptoSuite)
  : result unit :=
  if negb (nc_ProductionMode cfg) then Ok tt
  else if String.eqb (cs_Name selected) Dev then
    fail "production mode cannot use development crypto suite"
  else if blank (nc_APIKeysFile cfg) then fail "production mode requires a scoped API keys file"
  else if blank (nc_ConsortiumManifest cfg) then fail "production mode requires a consortium manifest"
  else if blank (nc_ManifestHistory cfg) then
    fail "production mode requires a consortium manifest history"
  else if negb (String.eqb storageMode ModeSQLite) then fail "production mode requires sqlite storage"
  else if blank (nc_DatabaseURL cfg) then fail "production mode requires PQFABRIC_DATABASE_URL"
  else if blank (nc_PeerTLSCertFile cfg) || blank (nc_PeerTLSKeyFile cfg) ||
          blank (nc_PeerTLSCAFile cfg) then
    fail "production mode requires peer mTLS cert, key, and CA files"
  else if String.eqb (NormalizeProvider (nc_SignerProvider cfg)) ProviderLocal &&
          negb (nc_AllowLocalSigner cfg) then
    fail "production mode requires an external signer provider unless local signing is explicitly allowed"
  else Ok tt.

(** The members [NewNode] works out: the manifest and its hash, the identity
    sets, the identities and the ids. *)
Record Membership := mkMembers {
  mb_manifest : option Manifest;
  mb_sets : gmap string membershipIdentitySet;
  mb_hash : string;
  mb_version : Z;
  mb_identities : gmap string ValidatorIdentity;
  mb_ids : list string
}.

Definition manifest_members (cfg : NodeConfig) (manifest : Manifest) : result Membership :=
  hash ← Manifest_Hash manifest;
  identities ← ActiveIdentities manifest;
  let ids := ActiveValidatorIDs manifest in
  let count := Z.of_nat (length ids) in
  let wanted := Z.of_nat (length DefaultValidatorIDs) in
  if nc_ProductionMode cfg && negb (count =? wanted) then
    Err (errorf ["production mode requires "; itoa wanted;
                 " active validators in consortium manifest, got "; itoa count])
  else if nc_ProductionMode cfg && negb (mf_QuorumThreshold manifest =? 5) then
    Err (errorf ["production mode requires fixed 5-of-7 threshold, got ";
                 itoa (mf_QuorumThreshold manifest)])
  else
    history ← (if blank (nc_ManifestHistory cfg) then Ok empty_history
               else LoadManifestHistory (en_read_file env) (en_unquote env) (nc_ManifestHistory cfg));
    history ← WithManifest history manifest;
    sets ← buildMembershipIdentitySets history;
    Ok (mkMembers (Some manifest) sets hash (mf_MembershipVersion manifest) identities ids).

(** The public URLs: the peers', the node's own, and the manifest's over them. *)
Definition public_urls (cfg : NodeConfig) (manifest : option Manifest) : gmap string string :=
  let urls := fmap TrimRightSlash (nc_PeerURLs cfg) in
  let urls := if String.eqb (nc_PublicURL cfg) "" then urls
              else <[nc_ID cfg := TrimRightSlash (nc_PublicURL cfg)]> urls in
  match manifest with
  | None => urls
  | Some m => PublicURLs m ∪ urls
  end.

Definition validateLocalKEMIdentity (nodeID : string) (expected : ValidatorIdentity)
  (selected : CryptoSuite) : result unit :=
  kemPrivate ← cs_NewKEMPrivate selected nodeID;
  if negb (String.eqb (kp_PublicKey kemPrivate) (vi_KEMPublicKey expected)) then
    Err (errorf ["local KEM public key does not match current manifest identity for "; nodeID])
  else Ok tt.

(** The loop over the URLs, in the order Go ranges over the map. *)
Fixpoint validateProductionPeerURLs (urls : list (string * string)) (selfID : string) : result unit :=
  match urls with
  | [] => Ok tt
  | (id, raw) :: rest =>
      if String.eqb id selfID || blank raw then validateProductionPeerURLs rest selfID
      else match url_Scheme (en_url_ok env) raw with
      | Err e => Err (prefix_err ("invalid peer URL for " ++ id)%string e)
      | Ok scheme =>
          if negb (String.eqb scheme "https") then
            Err (errorf ["production mode requires HTTPS peer URL for "; id])
          else validateProductionPeerURLs rest selfID
      end
  end.

(** Whether peer mTLS is configured. *)
Definition loadPeerTLS (cfg : NodeConfig) : result bool :=
  let cert := nc_PeerTLSCertFile cfg in
  let key := nc_PeerTLSKeyFile cfg in
  let ca := nc_PeerTLSCAFile cfg in
  if String.eqb cert "" && String.eqb key "" && String.eqb ca "" then Ok false
  else if String.eqb cert "" || String.eqb key "" || String.eqb ca "" then
    fail "peer mTLS requires cert, key, and CA files"
  else match en_key_pair env cert key with
  | Err e => Err (prefix_err "load peer TLS certificate" e)
  | Ok _ =>
      match en_read_file env ca with
      | Err e => Err (prefix_err "read peer TLS CA file" e)
      | Ok pem => if negb (en_pem env pem) then
                    fail "peer TLS CA file contains no PEM certificates"
                  else Ok true
      end
  end.

(** The key the signer asks the key service for. *)
Definition kms_config (cfg : NodeConfig) (manifest : option Manifest) : KMSConfig :=
  let kms := nc_KMS cfg in
  let fallback := match manifest with
                  | Some m => from_option vr_SigningKeyRef (km_KeyID kms) (ValidatorByID m (nc_ID cfg))
                  | None => km_KeyID kms
                  end in
  mkKMS (km_Endpoint kms) (if blank (km_KeyID kms) then fallback else km_KeyID kms)
    (km_AuthToken kms) (km_CAFile kms) (km_AllowInsecure kms).

Definition initial_peers (urls : gmap string string) (selfID : string) : gmap string PeerHealth :=
  map_imap (fun id url => if String.eqb id selfID then None
                          else Some (mkPeerHealth id (TrimRightSlash url) false 0 "" 0 "" 0)) urls.

(** [NewNode] up to the store: the immutable part of the node and its peers. *)
Definition configure (cfg : NodeConfig) (urls_order : gmap string string -> list (string * string))
  : result (Config * gmap string PeerHealth) :=
  if blank (nc_ID cfg) then fail "node id is required"
  else
    let threshold := if nc_Threshold cfg <=? 0 then 5 else nc_Threshold cfg in
    let region := if String.eqb (nc_Region cfg) "" then DefaultRegionFor (nc_ID cfg)
                  else nc_Region cfg in
    let storageMode := if String.eqb (nc_StorageMode cfg) "" then ModeMemory else nc_StorageMode cfg in
    selected ← Lookup (en_dev env) (en_pq env) (en_suite env);
    _ ← production_checks cfg storageMode selected;
    authn ← (if blank (nc_APIKeysFile cfg) then Ok None
             else match LoadAPIKeyFile (en_read_file env) (nc_APIKeysFile cfg) with
                  | Err e => Err (prefix_err "load API keys file" e)
                  | Ok a => Ok (Some a)
                  end);
    manifest ← (if blank (nc_ConsortiumManifest cfg) then Ok None
                else match LoadManifest (en_read_file env) (nc_ConsortiumManifest cfg) with
                     | Err e => Err (prefix_err "load consortium manifest" e)
                     | Ok m => Ok (Some m)
                     end);
    let urls := public_urls cfg manifest in
    mb ← match manifest with
         | Some m => manifest_members cfg m
         | None => identities ← ValidatorIdentitiesForSuite urls selected;
                   Ok (mkMembers None ∅ "" 0 identities DefaultValidatorIDs)
         end;
    let maxRounds := if nc_MaxRounds cfg =? 0 then Z.of_nat (length (mb_ids mb)) else nc_MaxRounds cfg in
    match mb_identities mb !! nc_ID cfg with
    | None => Err (errorf ["validator "; nc_ID cfg; " is not active in current identity set"])
    | Some self =>
        '(provider, signer) ← NewSigner (en_kms_do env) (en_url_ok env) (en_kms_client env)
          (mkSigning (NormalizeProvider (nc_SignerProvider cfg)) (nc_ID cfg) selected
             (SignatureAlgorithmName self) (SignaturePublicKeyBytes self) (kms_config cfg manifest));
        if negb (String.eqb (SignaturePublicKeyBytes self) (sg_PublicKey signer)) then
          Err (errorf ["signer public key does not match current manifest identity for "; nc_ID cfg])
        else
          _ ← match manifest with
              | None => Ok tt
              | Some _ =>
                  _ ← validateLocalKEMIdentity (nc_ID cfg) self selected;
                  if negb (containsString (mb_ids mb) (nc_ID cfg)) then
                    Err (errorf ["validator "; nc_ID cfg; " is not active in consortium manifest"])
                  else Ok tt
              end;
          _ ← (if nc_ProductionMode cfg then validateProductionPeerURLs (urls_order urls) (nc_ID cfg)
               else Ok tt);
          tls ← loadPeerTLS cfg;
          Ok (mkConfig (nc_ID cfg) (match manifest with Some _ => vi_Region self | None => region end)
                (nc_PeerURLs cfg) threshold maxRounds (nc_ProductionMode cfg) (nc_APIBearerToken cfg)
                signer (cs_NewVerifier selected) (mb_identities mb) self authn (mb_ids mb)
                (mb_manifest mb) (mb_sets mb) (mb_hash mb) (mb_version mb) provider tls,
              initial_peers urls (nc_ID cfg))
    end.

(** The configuration, the node and its limiter. *)
Definition NewNode (cfg : NodeConfig) (urls_order : gmap string string -> list (string * string))
  (now : Time) : result (Config * Server S) :=
  '(config, peers) ← configure cfg urls_order;
  let storageMode := if String.eqb (nc_StorageMode cfg) "" then ModeMemory else nc_StorageMode cfg in
  store ← en_open_store env storageMode (nc_DataDir cfg) (nc_DatabaseURL cfg);
  _ ← en_observability env;
  let node := set_nd_peerHealth peers (fresh_node store) in
  match loadPersistedState config now node with
  | (_, Err e) => Err e
  | (node, Ok _) =>
      Ok (config, mkServer node (Some (newRateLimiter (nc_RateLimitPerMin cfg) (nc_RateLimitBurst cfg))))
  end.
End init.

(** ** Lifecycle *)

Section lifecycle.
Context {S : Type}.
Local Abbreviation op := (M (Node S)).

(** [listen] is what [net.Listen] answers for the address.  [startOpsServer]
    without an address does nothing. *)
Definition startOpsServer (now : Time) (addr : string) (listen : result unit) : op unit :=
  if blank addr then mret tt
  else match listen with
  | Err e => raise (prefix_err ("listen on ops probe address " ++ TrimSpace addr)%string e)
  | Ok _ => appendEventLocked now ("ops probe started on " ++ TrimSpace addr)%string
  end.

Definition Start (now : Time) (addr opsAddr : string) (listen listenOps : result unit) : op unit :=
  running ← gets nd_running;
  if (running : bool) then mret tt
  else match listen with
  | Err e => raise (prefix_err ("listen on " ++ addr)%string e)
  | Ok _ =>
      _ ← modify (set_nd_running true);
      _ ← appendEventLocked now ("node started on " ++ addr)%string;
      r ← attempt (startOpsServer now opsAddr listenOps);
      match r with
      | Ok _ => mret tt
      | Err e =>
          _ ← modify (set_nd_running false);
          _ ← appendEventLocked now ("ops probe startup failed: " ++ err_text e)%string;
          raise e
      end
  end.

(** The server's goroutine ends with an error other than being shut down. *)
Definition server_stopped (now : Time) (e : error) : op unit :=
  running ← gets nd_running;
  if (running : bool) then
    _ ← modify (set_nd_running false);
    appendEventLocked now ("server stopped unexpectedly: " ++ err_text e)%string
  else mret tt.

Definition Stop (now : Time) : op unit :=
  running ← gets nd_running;
  if negb running then mret tt
  else
    _ ← modify (set_nd_running false);
    appendEventLocked now "node stopped".
End lifecycle.

(** ** Properties *)

Section configured.
Context {S : Type} `{ValidatorStore S} (env : Environment S).
Implicit Types (cfg : NodeConfig).

Lemma production_checks_ok cfg storageMode selected :
  nc_ProductionMode cfg = true -> production_checks cfg storageMode selected = Ok tt ->
  cs_Name selected <> Dev /\ blank (nc_APIKeysFile cfg) = false /\
  blank (nc_ConsortiumManifest cfg) = false /\ storageMode = ModeSQLite /\
  blank (nc_PeerTLSCertFile cfg) = false /\
  (nc_AllowLocalSigner cfg = true \/ NormalizeProvider (nc_SignerProvider cfg) <> ProviderLocal).
Proof.
  unfold production_checks. intros ->. cbn [negb]. intros Hc. run_ok Hc. reflect_bools.
  destruct_and?. split_and!; try done.
  destruct (nc_AllowLocalSigner cfg); [by left|right]. naive_solver.
Qed.

Lemma manifest_members_ok cfg manifest mb :
  nc_ProductionMode cfg = true -> manifest_members env cfg manifest = Ok mb ->
  length (mb_ids mb) = 7%nat /\ mf_QuorumThreshold manifest = 5 /\
  mb_ids mb = ActiveValidatorIDs manifest /\ mb_manifest mb = Some manifest.
Proof.
  unfold manifest_members. cbv zeta. intros -> Hm.
  apply bind_ok in Hm as (hash & _ & (ids & _ & Hm)%bind_ok). run_ok Hm.
  apply bind_ok in Hm as (h1 & _ & (h2 & _ & (sets & _ & [= <-])%bind_ok)%bind_ok).
  cbn [andb mb_ids mb_manifest] in *. reflect_bools. cbn in *. split_and!; try done. lia.
Qed.

Lemma peer_urls_https urls selfID :
  validateProductionPeerURLs env urls selfID = Ok tt ->
  Forall (fun '(id, raw) => id = selfID \/ blank raw = true \/
            url_Scheme (en_url_ok env) raw = Ok "https"%string) urls.
Proof.
  induction urls as [|[id raw] urls IH]; [constructor|]. cbn [validateProductionPeerURLs].
  destruct (_ || _) eqn:Eg.
  { intros Hv. constructor; [|by apply IH]. reflect_bools. naive_solver. }
  destruct (url_Scheme _ raw) as [scheme|e] eqn:Hs; [|done].
  destruct (String.eqb_spec scheme "https") as [->|]; [|done]. cbn [negb]. intros Hv.
  constructor; [auto|by apply IH].
Qed.

Lemma loadPeerTLS_ok cfg tls :
  loadPeerTLS env cfg = Ok tls -> nc_PeerTLSCertFile cfg <> "" -> tls = true.
Proof.
  unfold loadPeerTLS. cbv zeta. intros Hl Hne. apply String.eqb_neq in Hne. rewrite Hne in Hl.
  cbn [andb orb] in Hl. run_ok Hl. destruct (en_key_pair env _ _); [|done].
  destruct (en_read_file env _); [|done]. run_ok Hl. congruence.
Qed.

Lemma blank_empty s : blank s = false -> s <> "".
Proof. by intros Hb ->. Qed.

(** C26: what production mode guarantees of a node that is built.  Its suite is
    not the development one, it has scoped API keys, it keeps its chain in
    SQLite, its validators are the seven of a consortium manifest of threshold
    five, it signs through an external provider unless local signing is allowed,
    peer mTLS is on, and in the table of public URLs - those of the configuration's
    peers and its own, under the manifest's where it has one - every URL of another
    node that is not blank is https, in whatever order the table is gone through.
    (The URLs a node dials are another table, which this check does not see:
    [production_dials_http].) *)
Theorem configure_production cfg order c peers :
  (forall urls, order urls ≡ₚ map_to_list urls) ->
  nc_ProductionMode cfg = true -> configure env cfg order = Ok (c, peers) ->
  cfg_ProductionMode c = true /\
  (exists suite, Lookup (en_dev env) (en_pq env) (en_suite env) = Ok suite /\ cs_Name suite <> Dev) /\
  is_Some (n_authn c) /\ nc_StorageMode cfg = ModeSQLite /\
  (exists m, n_manifest c = Some m /\ mf_QuorumThreshold m = 5 /\
             n_validatorIDs c = ActiveValidatorIDs m) /\
  length (n_validatorIDs c) = 7%nat /\ n_peerTLS c = true /\
  (nc_AllowLocalSigner cfg = true \/ NormalizeProvider (nc_SignerProvider cfg) <> ProviderLocal) /\
  (forall id url, public_urls cfg (n_manifest c) !! id = Some url -> id <> nc_ID cfg -> blank url = false ->
     url_Scheme (en_url_ok env) url = Ok "https"%string).
Proof.
  intros Horder Hprod Hc. unfold configure in Hc. cbv zeta in Hc. run_ok Hc.
  apply bind_ok in Hc as (suite & Hsuite & ([] & Hchecks & Hc)%bind_ok).
  apply production_checks_ok in Hchecks as (Hdev & Hkeys & Hman & Hmode & Htls & Hsigner); [|done].
  rewrite Hkeys, Hman, Hprod in Hc.
  apply bind_ok in Hc as (authn & Hauthn & (manifest & Hmanifest & (mb & Hmb & Hc)%bind_ok)%bind_ok).
  destruct (LoadAPIKeyFile _ _) as [a|e]; [|done]. injection Hauthn as <-.
  destruct (LoadManifest _ _) as [m|e]; [|done]. injection Hmanifest as <-.
  apply manifest_members_ok in Hmb as (Hlen & Hthr & Hids & Hsome); [|done].
  destruct (mb_identities mb !! nc_ID cfg) as [self|]; [|done].
  apply bind_ok in Hc as ([provider signer] & _ & Hc). run_ok Hc.
  apply bind_ok in Hc as ([] & _ & ([] & Hurls & (tls & Hload & [= <- <-])%bind_ok)%bind_ok).
  apply loadPeerTLS_ok in Hload as ->; [|by apply blank_empty].
  cbn [cfg_ProductionMode n_authn n_manifest n_validatorIDs n_peerTLS]. rewrite Hsome.
  apply peer_urls_https in Hurls. split_and!; try done; [by exists suite| |by exists m|].
  - destruct (String.eqb (nc_StorageMode cfg) "") eqn:E; [discriminate Hmode|done].
  - intros id url Hin%elem_of_map_to_list Hid Hb. rewrite <-Horder in Hin.
    rewrite Forall_forall in Hurls. destruct (Hurls _ Hin) as [?|[?|?]]; congruence.
Qed.

(** The configuration file with another threshold. *)
Definition with_nc_Threshold (t : Z) cfg : NodeConfig :=
  mkNodeConfig (nc_ID cfg) (nc_Region cfg) (nc_PublicURL cfg) (nc_PeerURLs cfg) t (nc_MaxRounds cfg)
    (nc_StorageMode cfg) (nc_DataDir cfg) (nc_DatabaseURL cfg) (nc_ProductionMode cfg)
    (nc_APIBearerToken cfg) (nc_APIKeysFile cfg) (nc_RateLimitPerMin cfg) (nc_RateLimitBurst cfg)
    (nc_ConsortiumManifest cfg) (nc_ManifestHistory cfg) (nc_SignerProvider cfg)
    (nc_AllowLocalSigner cfg) (nc_KMS cfg) (nc_PeerTLSCertFile cfg) (nc_PeerTLSKeyFile cfg)
    (nc_PeerTLSCAFile cfg).

Lemma bind_ok_r {A B} (r : result A) (f : A -> result B) b :
  (exists a, r = Ok a /\ f a = Ok b) -> (r ≫= f) = Ok b.
Proof. intros (a & -> & Hf). exact Hf. Qed.

(** Production mode does not fix the threshold that is enforced.  The check
    of a five-of-seven quorum reads the manifest; the threshold a node requires
    of certificates is its own setting, and a configuration that production mode
    accepts is accepted with any positive threshold, which becomes the node's. *)
Theorem production_threshold_unchecked cfg order c peers t :
  configure env cfg order = Ok (c, peers) -> 0 < t ->
  configure env (with_nc_Threshold t cfg) order = Ok (with_threshold t c, peers).
Proof.
  intros Hc Ht. unfold configure in *. cbv zeta in *. cbn [nc_ID with_nc_Threshold].
  destruct (blank (nc_ID cfg)); [done|].
  apply bind_ok in Hc as (suite & Hsuite & ([] & Hchecks & (authn & Hauthn & (manifest & Hmanifest &
    (mb & Hmb & Hc)%bind_ok)%bind_ok)%bind_ok)%bind_ok).
  apply bind_ok_r. exists suite. split; [done|]. apply bind_ok_r. exists tt. split; [done|].
  apply bind_ok_r. exists authn. split; [done|]. apply bind_ok_r. exists manifest. split; [done|].
  apply bind_ok_r. exists mb. split; [by destruct manifest|].
  destruct (mb_identities mb !! nc_ID cfg) as [self|]; [|done].
  apply bind_ok in Hc as ([provider signer] & Hsigner & Hc).
  apply bind_ok_r. exists (provider, signer). split; [done|].
  destruct (negb _); [done|].
  apply bind_ok in Hc as ([] & Hkem & ([] & Hurls & (tls & Hload & [= <- <-])%bind_ok)%bind_ok).
  apply bind_ok_r. exists tt. split; [done|]. apply bind_ok_r. exists tt. split; [done|].
  apply bind_ok_r. exists tls. split; [done|].
  change (nc_Threshold (with_nc_Threshold t cfg)) with t. by rewrite (proj2 (Z.leb_gt t 0) Ht).
Qed.
End configured.

(** *** Witnesses: a production configuration of seven validators *)

Definition demo_prod_manifest : Manifest :=
  ManifestFromIdentities "fabric" 1 5
    (list_to_map (omap (fun id => match ValidatorIdentityForSuite id "nyc" "https://v/" demo_suite with
                                  | Ok v => Some (id, v) | Err _ => None end) DefaultValidatorIDs))
    DefaultValidatorIDs.

Definition demo_read_file (path : string) : result string :=
  if String.eqb path "manifest.json" then Ok (Marshal (Manifest_json demo_prod_manifest))
  else if String.eqb path "keys.json" then
    Ok (Marshal (JObj [("keys", JArr [JObj [("id", JStr "k"); ("organization", JStr "o");
          ("token_hash", JStr (HashToken "t")); ("roles", JArr [JStr "admin:read"])]])]))
  else Ok "pem"%string.

Definition demo_env : Environment MemoryStore :=
  mkEnvironment demo_suite demo_suite "pq" demo_read_file (fun _ => None) (fun _ _ => Ok tt)
    (fun _ => true) (fun _ => true) (fun _ _ _ _ => fail "no key service") (fun _ => Ok tt)
    (fun _ _ _ => Ok NewMemoryStore) (Ok tt).

Definition demo_node_config : NodeConfig :=
  mkNodeConfig "validator-2" "" "" (<["validator-1" := "https://one/"]> ∅) 5 0 "sqlite" "" "db" true
    "" "keys.json" 0 0 "manifest.json" "manifest.json" "" true (mkKMS "" "" "" "" false) "c" "k" "ca".

Lemma demo_configure_ok :
  exists c peers, configure demo_env demo_node_config map_to_list = Ok (c, peers) /\
                  cfg_ProductionMode c = true.
Proof.
  assert (Hp : match configure demo_env demo_node_config map_to_list with
               | Ok (c, _) => cfg_ProductionMode c
               | Err _ => false
               end = true) by (vm_compute; reflexivity).
  destruct (configure demo_env demo_node_config map_to_list) as [[c peers]|e]; [|discriminate Hp].
  exists c, peers. exact (conj eq_refl Hp).
Qed.

Lemma configure_production_witness :
  exists c peers, configure demo_env demo_node_config map_to_list = Ok (c, peers) /\
    length (n_validatorIDs c) = 7%nat /\ n_peerTLS c = true.
Proof.
  destruct demo_configure_ok as (c & peers & Hc & _). exists c, peers. split; [exact Hc|].
  destruct (configure_production demo_env demo_node_config map_to_list c peers (fun _ => Permutation_refl _) eq_refl Hc)
    as (_ & _ & _ & _ & _ & Hlen & Htls & _). exact (conj Hlen Htls).
Defined.

(** The URLs a node dials are the identities' with the configuration's over them, and
    those were not looked at where the manifest has a URL: a node that production mode
    accepts dials a peer without TLS. *)
Example production_dials_http :
  match configure demo_env
          (mkNodeConfig "validator-2" "" "" (<["validator-1" := "http://elsewhere"]> ∅) 5 0 "sqlite" "" "db" true
             "" "keys.json" 0 0 "manifest.json" "manifest.json" "" true (mkKMS "" "" "" "" false) "c" "k" "ca") map_to_list with
  | Ok (c, _) => cfg_ProductionMode c = true /\ livePeerURLs c !! "validator-1" = Some "http://elsewhere"
  | Err _ => False
  end.
Proof. vm_compute. split; reflexivity. Qed.

Lemma production_threshold_unchecked_witness :
  exists c peers, configure demo_env (with_nc_Threshold 1 demo_node_config) map_to_list = Ok (c, peers) /\
    cfg_ProductionMode c = true /\ cfg_Threshold c = 1.
Proof.
  destruct demo_configure_ok as (c & peers & Hc & Hprod).
  exists (with_threshold 1 c), peers. split; [|split; [exact Hprod|reflexivity]].
  exact (production_threshold_unchecked demo_env demo_node_config map_to_list c peers 1 Hc eq_refl).
Defined.
