(* ===== verification/NodeProps.v ===== *)
(** * What the validator node guarantees

    The chain a node holds, how [ApplyCommit] extends it, what it votes for, and
    what it recovers from its store after a restart. *)

From S2P Require Import Prelude Sha256 Json JsonParse JsonDecode Identity State Protocol Codec Store Consortium Anchors Evidence Auth Observability Node.
Local Open Scope Z_scope.

(** ** Frames

    The part of the state the consensus depends on, which logging, metrics and
    peer bookkeeping leave alone. *)
Definition core {S} (n : Node S) :=
  (nd_store n, (nd_lastHash n, nd_commits n, nd_state n), nd_currentRound n, nd_lock n, nd_votes n,
   nd_proposals n).

Definition silent {S A} (m : M (Node S) A) : Prop := forall n, core (m n).1 = core n.

Create HintDb silent.

Section silent.
Context {S : Type}.
Local Abbreviation op := (M (Node S)).

Lemma silent_bind {A B} (m : op A) (f : A -> op B) :
  silent m -> (forall a, silent (f a)) -> silent (m ≫= f).
Proof.
  intros Hm Hf n. rewrite run_bind. specialize (Hm n). destruct (m n) as [n' [a|e]]; [|exact Hm].
  cbn in Hm. by rewrite Hf.
Qed.

Lemma silent_lift {A} (r : result A) : silent (lift r : op A).
Proof. by intros n. Qed.

Lemma silent_ret {A} (a : A) : silent (mret a : op A).
Proof. by intros n. Qed.

Lemma silent_raise {A} e : silent (raise e : op A).
Proof. by intros n. Qed.

Lemma silent_gets {A} (f : Node S -> A) : silent (gets f).
Proof. by intros n. Qed.

Lemma silent_guard cond e : silent (guard_err cond e : op unit).
Proof. by destruct cond. Qed.

Lemma silent_attempt {A} (m : op A) : silent m -> silent (attempt m).
Proof. intros H n. unfold attempt. specialize (H n). by destruct (m n). Qed.

Lemma silent_metric f : silent (metric f : op unit).
Proof. by intros n. Qed.

Lemma silent_event now msg : silent (appendEventLocked now msg : op unit).
Proof. by intros n. Qed.

Lemma silent_set_peerHealth f : silent (modify (fun n => set_nd_peerHealth (f n) n) : op unit).
Proof. by intros n. Qed.

End silent.

#[export] Hint Resolve silent_lift silent_ret silent_raise silent_gets silent_guard silent_attempt
  silent_metric silent_event silent_set_peerHealth : silent.

(** Proves that an operation is silent by going through its parts. *)
Ltac silently :=
  repeat first
    [ progress auto with silent
    | apply silent_bind; [|intros ?]
    | apply silent_attempt
    | match goal with
      | |- silent (if ?b then _ else _) => destruct b
      | |- silent (match ?x with _ => _ end) => destruct x
      | |- silent (let '(_, _) := ?x in _) => destruct x
      end ].

Section peers.
Context {S : Type}.
Local Abbreviation op := (M (Node S)).

Lemma silent_recordPeerError now id e : silent (recordPeerError now id e : op unit).
Proof. unfold recordPeerError. cbv zeta. silently. Qed.

Lemma silent_recordPeerHealthy now id h hash : silent (recordPeerHealthy now id h hash : op unit).
Proof. unfold recordPeerHealthy. silently. Qed.

Lemma silent_recordStorageError : silent (recordStorageError : op unit).
Proof. unfold recordStorageError. silently. Qed.
End peers.

#[export] Hint Resolve silent_recordPeerError silent_recordPeerHealthy silent_recordStorageError : silent.

Section exchange.
Context {S : Type} `{ValidatorStore S} (cfg : Config).
Local Abbreviation op := (M (Node S)).

Lemma silent_requestPrevote net now p id url : silent (requestPrevote net now p id url : op Vote).
Proof. unfold requestPrevote. silently. Qed.

Lemma silent_requestPrecommit net now r id url : silent (requestPrecommit net now r id url : op Vote).
Proof. unfold requestPrecommit. silently. Qed.

Lemma silent_collect_votes now request peers votes :
  (forall id url, silent (request id url : op Vote)) ->
  silent (collect_votes cfg now request peers votes).
Proof.
  intros Hr. revert votes. induction peers as [|[id url] peers IH]; intros votes;
    cbn [collect_votes]; silently.
Qed.

Lemma silent_broadcast net now c : silent (broadcastCommit cfg net now c : op unit).
Proof.
  unfold broadcastCommit. generalize (nw_order net 2 (livePeerURLs cfg)) as peers.
  induction peers as [|[id url] peers IH]; cbn [broadcast_to]; silently.
Qed.

Lemma silent_form_certificate now what block stage bh votes :
  silent (form_certificate cfg now what block stage bh votes : op QuorumCertificate).
Proof. unfold form_certificate, appendEvent. silently. Qed.

Lemma silent_newBlock now h r payload : silent (newBlock cfg now h r payload : op Block).
Proof. unfold newBlock. cbv zeta. silently. Qed.

Lemma silent_best_chain net now peers best : silent (best_chain cfg net now peers best : op _).
Proof.
  revert best. induction peers as [|[id url] peers IH]; intros best; cbn [best_chain]; silently.
Qed.

Lemma silent_probePeers net now : silent (probePeers cfg net now : op unit).
Proof.
  unfold probePeers. generalize (nw_order net 0 (livePeerURLs cfg)) as peers.
  induction peers as [|[id url] peers IH]; cbn [probe_all]; silently.
  unfold probe_peer. silently.
Qed.

Lemma silent_stored_receipt found : silent (stored_receipt found : op _).
Proof. unfold stored_receipt. silently. Qed.

Lemma silent_verifyEvidenceReceipt r b : silent (verifyEvidenceReceipt cfg r b : op _).
Proof. unfold verifyEvidenceReceipt. cbv zeta. silently. Qed.
End exchange.

(** ** The chain *)

Section chain.
Context {S : Type} `{ValidatorStore S} (cfg : Config).
Local Abbreviation op := (M (Node S)).
Implicit Types (n : Node S) (c : CommitRequest).

(** A commit that continues a chain of [count] commits ending in [last] at the
    state [m], and leads to [m']. *)
Record continues (count : nat) (last : string) (m : Machine) (c : CommitRequest) (m' : Machine) : Prop := {
  cont_verified : verifyCommit cfg c = Ok tt;
  cont_height : b_Height (c_Block c) = Z.of_nat count + 1;
  cont_previous : b_PreviousHash (c_Block c) = last;
  cont_state : exists k, Apply m (b_Transactions (c_Block c)) = (m', Ok (b_StateDigest (c_Block c), k))
}.

(** The commits that lead from a chain of [count] commits ending in [last] at [m]
    to one ending in [last'] at [m']. *)
Inductive chain_from : nat -> string -> Machine -> list CommitRequest -> string -> Machine -> Prop :=
| chain_nil count last m : chain_from count last m [] last m
| chain_cons count last m c m1 cs last' m' :
    continues count last m c m1 ->
    chain_from (Datatypes.S count) (hash_of (c_Block c)) m1 cs last' m' ->
    chain_from count last m (c :: cs) last' m'.

(** What a node's commits, last hash and state are: a certified chain from the
    genesis. *)
Definition chain (commits : list CommitRequest) (last : string) (m : Machine) : Prop :=
  chain_from 0 GenesisHash NewMachine commits last m.

Definition node_chain n : Prop := chain (nd_commits n) (nd_lastHash n) (nd_state n).

Lemma chain_from_app count last m cs last' m' cs' last'' m'' :
  chain_from count last m cs last' m' ->
  chain_from (count + length cs) last' m' cs' last'' m'' ->
  chain_from count last m (cs ++ cs') last'' m''.
Proof.
  induction 1 as [|count last m c m1 cs last' m' Hc _ IH]; cbn [length app].
  - by rewrite Nat.add_0_r.
  - intros H'. econstructor; [done|]. apply IH. by rewrite <-Nat.add_succ_comm in H'.
Qed.

Lemma chain_snoc commits last m c m' :
  chain commits last m -> continues (length commits) last m c m' ->
  chain (commits ++ [c]) (hash_of (c_Block c)) m'.
Proof. intros Hch Hc. eapply chain_from_app; [done|]. econstructor; [done|constructor]. Qed.

(** Every commit of a chain is certified and sits at its height. *)
Lemma chain_from_lookup count last m cs last' m' i c :
  chain_from count last m cs last' m' -> cs !! i = Some c ->
  verifyCommit cfg c = Ok tt /\ b_Height (c_Block c) = Z.of_nat (count + i) + 1.
Proof.
  intros Hch. revert i. induction Hch as [|count last m x m1 cs last' m' Hx _ IH]; intros i; [done|].
  destruct i as [|i]; cbn.
  - intros [= ->]. destruct Hx as [Hv Hh _ _]. by rewrite Nat.add_0_r.
  - intros Hi. apply IH in Hi. by rewrite Nat.add_succ_comm in Hi.
Qed.

Lemma Clone_id m : Clone m = m.
Proof. by destruct m. Qed.

(** The saving of a receipt changes the store only through [SaveEvidence]. *)
Definition evidence_saved (s s' : S) : Prop := s' = s \/ exists record, s' = (SaveEvidence s record).1.

Lemma saveEvidenceReceipt_outcome r n :
  exists s', evidence_saved (nd_store n) s' /\
             core (saveEvidenceReceipt r n).1 = core (set_nd_store s' n).
Proof.
  unfold saveEvidenceReceipt. autorewrite with go_run.
  destruct (MarshalReceipt r) as [j|e]; [|by exists (nd_store n); split; [left|]].
  autorewrite with go_run. change (id n) with n.
  destruct (SaveEvidence (nd_store n) (evidence_record r j)) as [s' [[b x] err]] eqn:E.
  exists s'. split; [right; eexists; by rewrite E|].
  autorewrite with go_run. by destruct err.
Qed.

Lemma persist_receipt_outcome now c n :
  exists s', evidence_saved (nd_store n) s' /\ (persist_receipt cfg now c n).2 = Ok tt /\
             core (persist_receipt cfg now c n).1 = core (set_nd_store s' n).
Proof.
  unfold persist_receipt. autorewrite with go_run.
  assert (Hin : exists s', evidence_saved (nd_store n) s' /\
    core (persistEvidenceReceiptFromCommitLocked cfg now c n).1 = core (set_nd_store s' n)).
  { unfold persistEvidenceReceiptFromCommitLocked. autorewrite with go_run.
    destruct (SubmissionFromPayload _) as [[sub|]|e];
      [|by exists (nd_store n); split; [left|]..].
    autorewrite with go_run. destruct (NewReceipt now sub c) as [r|e];
      [|by exists (nd_store n); split; [left|]].
    rewrite run_bind. destruct (saveEvidenceReceipt_outcome (annotateEvidenceReceipt cfg r) n)
      as (s' & Hs & Hc). exists s'. split; [done|].
    by destruct (saveEvidenceReceipt _ n) as [n' [a|e]]. }
  destruct Hin as (s' & Hs & Hc). exists s'. split; [done|].
  destruct (persistEvidenceReceiptFromCommitLocked cfg now c n) as [n' [a|e]]; [by split|].
  split; [done|]. exact Hc.
Qed.

(** What [apply_next] leaves: nothing changed by a commit it refuses; the lock
    and the store changed when saving fails; otherwise the chain extended. *)
Inductive applied (now : Time) (c : CommitRequest) (n n' : Node S) (r : result unit) : Prop :=
| applied_refused e : r = Err e -> core n' = core n -> applied now c n n' r
| applied_not_saved m' s' e :
    continues (length (nd_commits n)) (nd_lastHash n) (nd_state n) c m' ->
    let lock := next_lock now c (hash_of (c_Block c)) in
    SaveCommit (nd_store n) (commitRecord cfg now c (hash_of (c_Block c)))
      (validatorStateLocked cfg now lock (b_Height (c_Block c)) (b_Round (c_Block c))
         (hash_of (c_Block c)) (b_StateDigest (c_Block c))) = (s', Err e) ->
    r = Err e -> core n' = core (set_nd_lock lock (set_nd_store s' n)) -> applied now c n n' r
| applied_committed m' s' s'' :
    continues (length (nd_commits n)) (nd_lastHash n) (nd_state n) c m' ->
    round_at (b_Height (c_Block c)) n <= b_Round (c_Block c) ->
    let lock := next_lock now c (hash_of (c_Block c)) in
    SaveCommit (nd_store n) (commitRecord cfg now c (hash_of (c_Block c)))
      (validatorStateLocked cfg now lock (b_Height (c_Block c)) (b_Round (c_Block c))
         (hash_of (c_Block c)) (b_StateDigest (c_Block c))) = (s', Ok tt) ->
    evidence_saved s' s'' -> r = Ok tt ->
    core n' = core (set_nd_currentRound
                      (<[u64 (b_Height (c_Block c) + 1) := 0]> (nd_currentRound n))
                      (set_nd_chain (hash_of (c_Block c)) (nd_commits n ++ [c])%list m'
                         (set_nd_lock lock (set_nd_store s'' n)))) ->
    applied now c n n' r.

Lemma apply_next_outcome now c n n' r :
  verifyCommit cfg c = Ok tt ->
  apply_next cfg now c (hash_of (c_Block c)) n = (n', r) -> applied now c n n' r.
Proof.
  intros Hv. unfold apply_next. cbv zeta. autorewrite with go_run. change (id n) with n.
  rewrite Clone_id. intros E.
  do 3 (split_guard E; [injection E as <- <-; by eapply applied_refused|]).
  destruct (Apply (nd_state n) (b_Transactions (c_Block c))) as [m' [[d k]|e]] eqn:Ha;
    autorewrite with go_run in E; [|injection E as <- <-; by eapply applied_refused].
  split_guard E; [injection E as <- <-; by eapply applied_refused|]. reflect_bools.
  assert (Hcont : continues (length (nd_commits n)) (nd_lastHash n) (nd_state n) c m').
  { constructor; try done. exists k. by rewrite Ha, Hg2. }
  rewrite <-Hg2 in *. rewrite run_bind in E. unfold store_commit in E.
  autorewrite with go_run in E. cbn [id nd_store set_nd_lock] in E.
  destruct (SaveCommit (nd_store n) _ _) as [s' [[]|e]] eqn:Es; autorewrite with go_run in E.
  - cbn [mret M_ret] in E. autorewrite with go_run in E. rewrite run_bind in E.
    unfold set_round, modify in E. cbv beta iota in E. rewrite run_bind in E.
    match type of E with context [persist_receipt cfg now c ?x] => set (n1 := x) in E end.
    destruct (persist_receipt_outcome now c n1) as (s'' & Hs & Hr & Hc).
    destruct (persist_receipt cfg now c n1) as [n2 r2]. cbn [fst snd] in Hr, Hc. subst r2.
    autorewrite with go_run in E. injection E as <- <-.
    by eapply (applied_committed _ _ _ _ _ m' s' s'').
  - injection E as <- <-. by eapply (applied_not_saved _ _ _ _ _ m' s' e).
Qed.

Inductive commit_outcome (now : Time) (c : CommitRequest) (n n' : Node S) (r : result unit) : Prop :=
| commit_refused e : r = Err e -> core n' = core n -> commit_outcome now c n n' r
| commit_known known :
    verifyCommit cfg c = Ok tt -> r = Ok tt -> n' = n ->
    b_Height (c_Block c) <= height_of n ->
    nd_commits n !! Z.to_nat (b_Height (c_Block c) - 1) = Some known ->
    hash_of (c_Block known) = hash_of (c_Block c) -> commit_outcome now c n n' r
| commit_next : verifyCommit cfg c = Ok tt -> applied now c n n' r -> commit_outcome now c n n' r.

Lemma ApplyCommit_outcome now c n n' r :
  ApplyCommit cfg now c n = (n', r) -> commit_outcome now c n n' r.
Proof.
  unfold ApplyCommit. destruct (verifyCommit cfg c) as [[]|e] eqn:Hv.
  2:{ intros E. autorewrite with go_run in E. injection E as <- <-. by eapply commit_refused. }
  autorewrite with go_run. rewrite Block_Hash_ok. autorewrite with go_run. change (id n) with n.
  destruct (Z.leb_spec (b_Height (c_Block c)) (height_of n)) as [Hle|Hgt].
  - unfold lift. intros [= <- <-]. unfold historical_commit. cbv zeta.
    destruct (_ || _) eqn:Eg; [by eapply commit_refused|].
    destruct (nd_commits n !! _) as [known|] eqn:Ek; [|by eapply commit_refused].
    destruct (String.eqb_spec (hash_of (c_Block known)) (hash_of (c_Block c)));
      [|by eapply commit_refused].
    by eapply commit_known.
  - intros E%apply_next_outcome; [|done]. by eapply commit_next.
Qed.

Lemma core_eq n n' :
  core n' = core n ->
  nd_store n' = nd_store n /\ nd_lastHash n' = nd_lastHash n /\ nd_commits n' = nd_commits n /\
  nd_state n' = nd_state n /\ nd_currentRound n' = nd_currentRound n /\ nd_lock n' = nd_lock n /\
  nd_votes n' = nd_votes n /\ nd_proposals n' = nd_proposals n.
Proof. unfold core. intros [= -> -> -> -> -> -> -> ->]. by split_and!. Qed.

(** C2: a node only ever extends a certified chain. [ApplyCommit] keeps the
    node's commits a chain in which every block follows the previous one by
    height and hash, replays to the state digest it names, comes from the
    scheduled proposer and carries a verified precommit certificate; it never
    rewrites the chain; when it succeeds, the block it was given is in the chain
    at its height, and when it fails, the chain is what it was. *)
Theorem ApplyCommit_spec now c n :
  node_chain n ->
  let '(n', r) := ApplyCommit cfg now c n in
  node_chain n' /\ nd_commits n `prefix_of` nd_commits n' /\
  match r with
  | Err _ => nd_commits n' = nd_commits n /\ nd_lastHash n' = nd_lastHash n /\
             nd_state n' = nd_state n
  | Ok _ => verifyCommit cfg c = Ok tt /\
            exists known, nd_commits n' !! Z.to_nat (b_Height (c_Block c) - 1) = Some known /\
                          hash_of (c_Block known) = hash_of (c_Block c)
  end.
Proof.
  intros Hch. destruct (ApplyCommit cfg now c n) as [n' r] eqn:E.
  unfold node_chain in *.
  destruct (ApplyCommit_outcome _ _ _ _ _ E) as [e -> Hc|known Hv -> -> Hh Hk Hx|Hv Ha].
  - apply core_eq in Hc as (_ & -> & -> & -> & _). by split_and!.
  - split_and!; [done..|]. by exists known.
  - destruct Ha as [e -> Hc|m' s' e Hcont lock Hs -> Hc|m' s' s'' Hcont Hr lock Hs He -> Hc];
      apply core_eq in Hc as (_ & -> & -> & -> & _); cbn [nd_commits nd_lastHash nd_state
        set_nd_lock set_nd_store set_nd_chain set_nd_currentRound].
    + by split_and!.
    + by split_and!.
    + split_and!; [by eapply chain_snoc|by apply prefix_app_r|done|]. exists c. split; [|done].
      destruct Hcont as [_ Hh _ _]. rewrite Hh, lookup_app_r by lia.
      by replace (Z.to_nat (Z.of_nat (length (nd_commits n)) + 1 - 1) - length (nd_commits n))%nat
        with 0%nat by lia.
Qed.
End chain.

(** *** Witnesses *)

Lemma fresh_node_chain {S} `{ValidatorStore S} cfg (store : S) : node_chain cfg (fresh_node store).
Proof. constructor. Qed.

Lemma ApplyCommit_spec_witness :
  let c := demo_commit_of (demo_block "v1" 0 "pay" demo_node) ["v1"; "v2"; "v4"] in
  verifyCommit (demo_config "v3") c = Ok tt /\
  exists known,
    nd_commits (ApplyCommit (demo_config "v3") (mkTime 9 "t") c demo_node).1
      !! Z.to_nat (b_Height (c_Block c) - 1) = Some known /\
    hash_of (c_Block known) = hash_of (c_Block c).
Proof.
  intros c.
  pose proof (ApplyCommit_spec (demo_config "v3") (mkTime 9 "t") c demo_node
                (fresh_node_chain _ _)) as Hspec.
  assert (Hr : (ApplyCommit (demo_config "v3") (mkTime 9 "t") c demo_node).2 = Ok tt)
    by (vm_compute; reflexivity).
  destruct (ApplyCommit (demo_config "v3") (mkTime 9 "t") c demo_node) as [n' r].
  cbn [fst snd] in *. subst r. exact (proj2 (proj2 Hspec)).
Defined.
