(* ===== verification/NodeVotes.v ===== *)
(** * What the validator node votes for

    The outcome of [voteForProposal] on every branch, the lock discipline that
    follows, and what a verified commit carries. *)

From S2P Require Import Prelude Sha256 Json JsonParse JsonDecode Identity State Protocol Codec Store Consortium Anchors Evidence Auth Observability Node NodeProps.
Local Open Scope Z_scope.

Section votes.
Context {S : Type} `{ValidatorStore S} (cfg : Config).
Implicit Types (n : Node S) (p : Proposal).

(** What [validateProposalLocked] requires of a block. *)
Record proposable (n : Node S) (b : Block) : Prop := {
  prop_height : b_Height b = height_of n + 1;
  prop_round : round_at (b_Height b) n <= b_Round b;
  prop_proposer : proposerFor cfg (b_Height b) (b_Round b) = Ok (b_ProposerID b);
  prop_previous : b_PreviousHash b = nd_lastHash n;
  prop_membership :
    validateCurrentMembership cfg (b_MembershipVersion b) (b_ValidatorSetHash b) = Ok tt;
  prop_state : exists m k, Apply (nd_state n) (b_Transactions b) = (m, Ok (b_StateDigest b, k));
  prop_unique bh :
    nd_proposals n !! (b_Height b, b_Round b, b_ProposerID b) = Some bh -> bh = hash_of b
}.

(** The node after an accepted proposal: the proposal is recorded and the round
    of its height is the block's. *)
Definition accepted (b : Block) (n : Node S) : Node S :=
  set_nd_currentRound (<[b_Height b := b_Round b]> (nd_currentRound n))
    (set_nd_proposals (<[(b_Height b, b_Round b, b_ProposerID b) := hash_of b]> (nd_proposals n)) n).

Lemma validateProposalLocked_outcome p n n' r :
  validateProposalLocked cfg p (hash_of (p_Block p)) n = (n', r) ->
  match r with
  | Err _ => n' = n
  | Ok _ => proposable n (p_Block p) /\
            (n' = accepted (p_Block p) n \/
             n' = set_nd_proposals (<[(b_Height (p_Block p), b_Round (p_Block p),
                    b_ProposerID (p_Block p)) := hash_of (p_Block p)]> (nd_proposals n)) n)
  end.
Proof.
  unfold validateProposalLocked. cbv zeta. autorewrite with go_run. change (id n) with n.
  rewrite Clone_id. intros E.
  do 3 (split_guard E; [by injection E as <- <-|]).
  destruct (proposerFor cfg _ _) as [id|e] eqn:Hp; [|by injection E as <- <-].
  autorewrite with go_run in E. do 2 (split_guard E; [by injection E as <- <-|]).
  destruct (validateCurrentMembership cfg _ _) as [[]|e] eqn:Hm; [|by injection E as <- <-].
  autorewrite with go_run in E.
  destruct (Apply (nd_state n) (b_Transactions (p_Block p))) as [m [[d k]|e]] eqn:Ha;
    cbn [snd] in E; [|by injection E as <- <-].
  autorewrite with go_run in E. do 2 (split_guard E; [by injection E as <- <-|]).
  reflect_bools.
  assert (Hprop : proposable n (p_Block p)).
  { constructor; try done; [lia|by rewrite Hg2|exists m, k; by rewrite Ha, Hg4|].
    intros bh Hbh. rewrite Hbh in Hg5. by reflect_bools. }
  unfold set_round, modify in E. destruct (Z.ltb_spec (round_at (b_Height (p_Block p)) n)
    (b_Round (p_Block p))); injection E as <- <-; (split; [done|]); [by left|by right].
Qed.

(** The lock allows a block when it is of another height or of this block. *)
Definition lock_allows (lock : LockState) (height : Z) (blockHash : string) : Prop :=
  l_Height lock = 0 \/ l_Height lock <> height \/ l_BlockHash lock = blockHash.

Lemma checkLockLocked_outcome h r bh n n' res :
  checkLockLocked h r bh n = (n', res) ->
  n' = n /\ (is_ok res = true <-> lock_allows (nd_lock n) h bh).
Proof.
  unfold checkLockLocked, lock_allows. autorewrite with go_run.
  destruct (_ || _) eqn:Eg.
  { intros [= <- <-]. split; [done|]. split; [|done]. intros _. reflect_bools. naive_solver. }
  reflect_bools. destruct (String.eqb_spec (l_BlockHash (nd_lock n)) bh) as [Eb|Eb].
  { intros [= <- <-]. split; [done|]. split; [|done]. intros _. auto. }
  case_match; intros [= <- <-]; (split; [done|]); (split; [done|]); cbn; naive_solver.
Qed.

Definition vote_lock (now : Time) (b : Block) (qc : QuorumCertificate) : LockState :=
  mkLock (b_Height b) (b_Round b) (hash_of b) (qc_BlockHash qc) (qc_Round qc) (qc_Stage qc)
    (Z.of_nat (length (qc_Votes qc))) (UnixMilli now).

(** The parts of the state a vote never touches. *)
Definition ledger n := (nd_store n, (nd_lastHash n, nd_commits n, nd_state n)).

(** The outcome of [voteForProposal]: refused, a repetition of the vote already
    given, or a new vote. *)
Inductive voted (now : Time) p (stage : string) (qc : option QuorumCertificate) n n' : result Vote -> Prop :=
| vote_refused e :
    ledger n' = ledger n -> nd_lock n' = nd_lock n -> nd_votes n' = nd_votes n ->
    voted now p stage qc n n' (Err e)
| vote_repeated v :
    proposable n (p_Block p) -> ledger n' = ledger n -> nd_lock n' = nd_lock n ->
    nd_votes n' = nd_votes n ->
    nd_votes n !! (b_Height (p_Block p), b_Round (p_Block p), stage) = Some v ->
    v_BlockHash v = hash_of (p_Block p) -> voted now p stage qc n n' (Ok v)
| vote_cast v :
    proposable n (p_Block p) ->
    (stage = StagePrecommit ->
       check_prevoteQC cfg (p_Block p) (hash_of (p_Block p)) qc = Ok tt) ->
    lock_allows (nd_lock n) (b_Height (p_Block p)) (hash_of (p_Block p)) ->
    nd_votes n !! (b_Height (p_Block p), b_Round (p_Block p), stage) = None ->
    SignStageVote (b_Height (p_Block p)) (b_Round (p_Block p)) stage (hash_of (p_Block p))
      (cfg_ID cfg) (n_signer cfg) = Ok v ->
    ledger n' = ledger n ->
    nd_lock n' = match qc with
                 | Some qc => if String.eqb stage StagePrecommit then vote_lock now (p_Block p) qc
                              else nd_lock n
                 | None => nd_lock n
                 end ->
    nd_votes n' = <[(b_Height (p_Block p), b_Round (p_Block p), stage) := v]> (nd_votes n) ->
    voted now p stage qc n n' (Ok v).

Lemma voteForProposal_outcome now p stage qc n n' r :
  voteForProposal cfg now p stage qc n = (n', r) -> voted now p stage qc n n' r.
Proof.
  unfold voteForProposal. cbv zeta. autorewrite with go_run. rewrite Block_Hash_ok.
  autorewrite with go_run. rewrite run_bind.
  assert (Hpre : (if String.eqb stage StagePrecommit
                  then lift (check_prevoteQC cfg (p_Block p) (hash_of (p_Block p)) qc)
                  else mret tt) n
    = (n, if String.eqb stage StagePrecommit
          then check_prevoteQC cfg (p_Block p) (hash_of (p_Block p)) qc else Ok tt))
    by by case_match.
  rewrite Hpre. clear Hpre.
  destruct (if String.eqb stage StagePrecommit then _ else _) as [[]|e] eqn:Hqc;
    [|intros [= <- <-]; by constructor].
  rewrite run_bind.
  destruct (validateProposalLocked cfg p (hash_of (p_Block p)) n) as [n1 r1] eqn:E1.
  apply validateProposalLocked_outcome in E1. destruct r1 as [[]|e];
    [|intros [= <- <-]; subst n1; by constructor].
  destruct E1 as [Hprop Hn1].
  assert (Hsame : ledger n1 = ledger n /\ nd_lock n1 = nd_lock n /\ nd_votes n1 = nd_votes n)
    by (destruct Hn1; subst n1; done).
  clear Hn1. destruct Hsame as (Hl & Hlock & Hvotes). rewrite run_bind.
  destruct (checkLockLocked _ _ _ n1) as [n2 r2] eqn:E2.
  apply checkLockLocked_outcome in E2 as [-> Hallow]. destruct r2 as [[]|e];
    [|intros [= <- <-]; by constructor].
  rewrite Hlock in Hallow. autorewrite with go_run.
  destruct (nd_votes n1 !! (b_Height (p_Block p), b_Round (p_Block p), stage)) as [v|] eqn:Ev;
    rewrite Hvotes in Ev.
  { destruct (String.eqb_spec (v_BlockHash v) (hash_of (p_Block p)));
      intros [= <- <-]; [by eapply vote_repeated|by constructor]. }
  destruct (SignStageVote _ _ _ _ _ _) as [v|e] eqn:Es; autorewrite with go_run;
    [|intros [= <- <-]; by constructor].
  rewrite run_bind. intros E.
  destruct qc as [q|]; [destruct (String.eqb_spec stage StagePrecommit) as [Est|Est]|];
    unfold modify in E; cbn [mret M_ret] in E; cbv beta iota in E; autorewrite with go_run in E;
    unfold appendEventLocked, modify in E;
    injection E as <- <-; apply vote_cast; try done; try (by apply Hallow);
    cbn; rewrite ?Hvotes, ?Hlock; try done.
  - by rewrite Est, String.eqb_refl.
  - by rewrite (proj2 (String.eqb_neq _ _) Est).
  - intros ->. by rewrite String.eqb_refl in Hqc.
Qed.

(** What a verified commit carries. *)
Lemma verifyCommit_facts c :
  verifyCommit cfg c = Ok tt ->
  let cert := c_Certificate c in
  qc_BlockHash cert = hash_of (c_Block c) /\ qc_Height cert = b_Height (c_Block c) /\
  qc_Round cert = b_Round (c_Block c) /\ qc_Stage cert = StagePrecommit /\
  qc_Threshold cert = cfg_Threshold cfg /\
  exists set, membershipSetForCommit cfg c = Ok set /\
    ProposerFor (b_Height (c_Block c)) (b_Round (c_Block c)) (mi_validatorIDs set)
    = Ok (b_ProposerID (c_Block c)) /\
    VerifyQuorumCertificate cert (mi_identities set) (n_verifier cfg) = Ok tt.
Proof.
  unfold verifyCommit. cbv zeta. rewrite Block_Hash_ok. cbn [mbind result_bind]. intros Hrun.
  run_ok Hrun. apply bind_ok in Hrun as (set & Hset & (p & Hp & Hrun)%bind_ok). run_ok Hrun.
  reflect_bools. split_and!; try congruence. exists set. split_and!; congruence.
Qed.

(** The vote a node signs names itself, the block and the stage. *)
Lemma SignStageVote_fields h r stage bh id signer v :
  SignStageVote h r stage bh id signer = Ok v ->
  v_Height v = h /\ v_Round v = r /\ v_Stage v = NormalizeStage stage /\ v_BlockHash v = bh /\
  v_VoterID v = id /\ v_Decision v = DecisionCommit.
Proof.
  unfold SignStageVote. intros (m & _ & (sig & _ & [= <-])%bind_ok)%bind_ok. done.
Qed.

(** ** The lock discipline *)

(** Every vote a node has given is its own and is recorded under the height,
    round and stage it is for; the precommits of one height are all for one
    block; and at the height it works on, the node is locked on that block. *)
Record votes_ok n : Prop := {
  vo_key h r stage v :
    nd_votes n !! (h, r, stage) = Some v ->
    v_Height v = h /\ v_Round v = r /\ v_Stage v = NormalizeStage stage /\
    v_VoterID v = cfg_ID cfg /\ v_Decision v = DecisionCommit /\ h <= height_of n + 1;
  vo_lock r v :
    nd_votes n !! (height_of n + 1, r, StagePrecommit) = Some v ->
    l_Height (nd_lock n) = height_of n + 1 /\ l_BlockHash (nd_lock n) = v_BlockHash v;
  vo_once h r r' v v' :
    nd_votes n !! (h, r, StagePrecommit) = Some v ->
    nd_votes n !! (h, r', StagePrecommit) = Some v' -> v_BlockHash v = v_BlockHash v'
}.

Lemma votes_ok_frame n n' :
  nd_votes n' = nd_votes n -> nd_lock n' = nd_lock n -> nd_commits n' = nd_commits n ->
  votes_ok n -> votes_ok n'.
Proof.
  intros Hv Hl Hc [Hk Hlk Ho]. constructor; unfold height_of; rewrite ?Hv, ?Hl, ?Hc; eauto.
Qed.

Lemma ledger_eq n n' :
  ledger n' = ledger n ->
  nd_store n' = nd_store n /\ nd_lastHash n' = nd_lastHash n /\ nd_commits n' = nd_commits n /\
  nd_state n' = nd_state n.
Proof. unfold ledger. intros [= -> -> -> ->]. by split_and!. Qed.

(** A precommit needs a prevote certificate. *)
Lemma check_prevoteQC_some b bh qc :
  check_prevoteQC cfg b bh qc = Ok tt ->
  exists q, qc = Some q /\ qc_BlockHash q = bh /\
            VerifyQuorumCertificate q (n_identities cfg) (n_verifier cfg) = Ok tt.
Proof.
  unfold check_prevoteQC. destruct qc as [q|]; [|done]. intros Hrun. run_ok Hrun. reflect_bools.
  apply bind_ok in Hrun as ([] & _ & Hq). exists q. by destruct_and?.
Qed.

Lemma vote_cast_ok now p stage qc n n' v :
  votes_ok n -> IsVoteStage stage = true ->
  voteForProposal cfg now p stage qc n = (n', Ok v) -> votes_ok n'.
Proof.
  intros Hok Hst E%voteForProposal_outcome.
  inversion E as [|v0 Hp Hledger Hlock Hvotes|v0 Hp Hqc Hallow Hnone Hs Hledger Hlock Hvotes]; subst.
  { apply ledger_eq in Hledger as (_ & _ & Hc & _). by apply (votes_ok_frame n). }
  apply ledger_eq in Hledger as (_ & _ & Hc & _).
  assert (Hh : height_of n' = height_of n) by (unfold height_of; by rewrite Hc).
  pose proof (SignStageVote_fields _ _ _ _ _ _ _ Hs) as (Fh & Fr & Fs & Fb & Fv & Fd).
  pose proof (prop_height _ _ Hp) as Hheight.
  assert (Hpre : stage = StagePrecommit ->
    (forall r v', nd_votes n !! (height_of n + 1, r, StagePrecommit) = Some v' ->
                  v_BlockHash v' = hash_of (p_Block p)) /\
    l_Height (nd_lock n') = height_of n + 1 /\ l_BlockHash (nd_lock n') = hash_of (p_Block p)).
  { intros Est. destruct (check_prevoteQC_some _ _ _ (Hqc Est)) as (q & -> & _).
    rewrite Hlock, Est, String.eqb_refl. split; [|by rewrite <-Hheight].
    intros r v' Hv'. destruct (vo_lock n Hok r v' Hv') as [Hl1 Hl2].
    destruct Hallow as [|[|]]; [|congruence|congruence].
    unfold height_of in Hl1. lia. }
  constructor; rewrite Hvotes, ?Hh.
  - intros h r s v1 [[[= <- <- <-] <-]|[_ Hv1]]%lookup_insert_Some; [|by apply (vo_key n Hok)].
    split_and!; [done..|lia].
  - intros r v1 [[[= Eh <- Est] <-]|[Hne Hv1]]%lookup_insert_Some.
    + destruct (Hpre Est) as (_ & ? & ?). split; congruence.
    + destruct (vo_lock n Hok r v1 Hv1) as [Hl1 Hl2]. rewrite Hlock.
      destruct qc as [q|]; [|done]. destruct (String.eqb_spec stage StagePrecommit) as [Est|]; [|done].
      destruct (Hpre Est) as (Hsame & _ & _). cbn. rewrite Hheight. split; [done|].
      by rewrite (Hsame r v1 Hv1).
  - intros h r r' v1 v2 Hv1 Hv2.
    apply lookup_insert_Some in Hv1 as [[E1 <-]|[_ Hv1]], Hv2 as [[E2 <-]|[_ Hv2]].
    + done.
    + injection E1 as <- _ Est. destruct (Hpre Est) as (Hsame & _ & _). rewrite Hheight in Hv2.
      rewrite Fb. symmetry. by eapply Hsame.
    + injection E2 as <- _ Est. destruct (Hpre Est) as (Hsame & _ & _). rewrite Hheight in Hv1.
      rewrite Fb. by eapply Hsame.
    + by eapply (vo_once n Hok).
Qed.

Lemma vote_refused_ok now p stage qc n n' e :
  votes_ok n -> voteForProposal cfg now p stage qc n = (n', Err e) -> votes_ok n'.
Proof.
  intros Hok E%voteForProposal_outcome. inversion E as [e' Hledger Hlock Hvotes| |]; subst.
  apply ledger_eq in Hledger as (_ & _ & Hc & _). by apply (votes_ok_frame n).
Qed.
End votes.
