(* ===== verification/NodeRecovery.v ===== *)
(** * Durability, restart and catch-up of the validator node

    What the store of a node holds, what [loadPersistedState] recovers from it,
    and when [CatchUpFromPeers] can follow a peer's chain. *)

From S2P Require Import Prelude Sha256 Json JsonParse JsonDecode Identity State Protocol Codec Store Consortium Anchors Evidence Auth Observability Node NodeProps.
Local Open Scope Z_scope.

Section recovery.
Context {S : Type} `{StoreLaws S} (cfg : Config).
Implicit Types (n : Node S) (c : CommitRequest).

(** ** What the store holds *)

(** The record the node saves for a commit. *)
Record record_of c (record : CommitRecord) : Prop := {
  rec_height : cr_Height record = b_Height (c_Block c);
  rec_hash : cr_BlockHash record = hash_of (c_Block c);
  rec_digest : cr_StateDigest record = b_StateDigest (c_Block c);
  rec_json : cr_CommitJSON record = Marshal (Commit_json c);
  rec_key : cr_IdentityKeyID record = vi_KeyID (n_selfID cfg)
}.

(** The validator state saved with the last commit. *)
Record state_of n (state : ValidatorState) : Prop := {
  so_node : st_NodeID state = cfg_ID cfg;
  so_key : st_IdentityKeyID state = vi_KeyID (n_selfID cfg);
  so_height : st_Height state = height_of n;
  so_hash : st_LastHash state = nd_lastHash n;
  so_digest : st_StateDigest state = m_digest (nd_state n);
  so_lock : st_LockedHeight state = height_of n /\ st_LockedBlockHash state = nd_lastHash n;
  so_positive : nd_commits n <> []
}.

(** The store of a node holds its chain. *)
Record durable n : Prop := {
  du_chain : node_chain cfg n;
  du_wf : Forall commit_wf (nd_commits n);
  du_bound : height_of n < 2 ^ 63;
  du_records i record :
    committed (nd_store n) !! (Z.of_nat i + 1) = Some record ->
    exists c, nd_commits n !! i = Some c /\ record_of c record;
  du_only h : is_Some (committed (nd_store n) !! h) -> 1 <= h;
  du_all i c :
    nd_commits n !! i = Some c -> is_Some (committed (nd_store n) !! (Z.of_nat i + 1));
  du_state :
    match saved_state (nd_store n) with
    | Some state => state_of n state
    | None => nd_commits n = []
    end
}.

(** A node over an empty store, as [NewNode] builds it, is durable. *)
Lemma durable_empty n :
  nd_commits n = [] -> nd_lastHash n = GenesisHash -> nd_state n = NewMachine ->
  committed (nd_store n) = ∅ -> saved_state (nd_store n) = None -> durable n.
Proof.
  intros Hc Hl Hm Hs Hst. constructor; unfold node_chain, height_of; rewrite ?Hc, ?Hl, ?Hm, ?Hs, ?Hst.
  - constructor.
  - constructor.
  - done.
  - intros i r. by rewrite lookup_empty.
  - intros h. rewrite lookup_empty. by intros [].
  - done.
  - done.
Qed.

Lemma durable_frame n n' :
  durable n -> nd_commits n' = nd_commits n -> nd_lastHash n' = nd_lastHash n ->
  nd_state n' = nd_state n -> committed (nd_store n') = committed (nd_store n) ->
  saved_state (nd_store n') = saved_state (nd_store n) -> durable n'.
Proof.
  intros [Hch Hwf Hb Hrec Honly Hall Hst] Hc Hl Hm Hs Hst'.
  assert (Hh : height_of n' = height_of n) by (unfold height_of; by rewrite Hc).
  constructor; unfold node_chain; rewrite ?Hc, ?Hl, ?Hm, ?Hs, ?Hh; try done.
  rewrite Hst'. destruct (saved_state _) as [st|]; [|done].
  destruct Hst. constructor; rewrite ?Hc, ?Hl, ?Hm, ?Hh; done.
Qed.

(** An operation that does not touch the core keeps a node durable. *)
Lemma durable_core n n' : core n' = core n -> durable n -> durable n'.
Proof.
  intros (Hs & Hl & Hc & Hm & _)%core_eq Hd. apply (durable_frame n); try done; by rewrite Hs.
Qed.

Lemma evidence_saved_frame (s s' : S) :
  evidence_saved s s' -> committed s' = committed s /\ saved_state s' = saved_state s.
Proof. intros [->|[r ->]]; [done|apply SaveEvidence_frame]. Qed.

Lemma durable_absent n : durable n -> committed (nd_store n) !! (height_of n + 1) = None.
Proof.
  intros Hd. destruct (committed (nd_store n) !! (height_of n + 1)) as [r|] eqn:E; [|done].
  apply (du_records n Hd) in E as (c & Hc & _). apply lookup_lt_Some in Hc. lia.
Qed.

Lemma Apply_digest m txs m' d k : Apply m txs = (m', Ok (d, k)) -> m_digest m' = d.
Proof. by intros (l & _ & _ & ->)%Apply_state. Qed.

(** A node whose store is durable saves the next commit durably. *)
Lemma applied_durable now c n n' :
  durable n -> commit_wf c -> height_of n + 1 < 2 ^ 63 ->
  applied cfg now c n n' (Ok tt) -> durable n'.
Proof.
  intros Hd Hwf Hb Ha. pose proof (durable_absent n Hd) as Hnone.
  destruct Ha as [e [=]|m' s' e _ ? _ [=]|m' s' s'' Hcont Hr lock Hs He _ Hc].
  apply SaveCommit_law in Hs as (_ & Hcomm & Hst). apply evidence_saved_frame in He as [Hcomm' Hst'].
  apply core_eq in Hc as (Es & El & Ec & Em & _).
  cbn [nd_commits nd_lastHash nd_state nd_store set_nd_lock set_nd_store set_nd_chain
    set_nd_currentRound] in Es, El, Ec, Em.
  pose proof (cont_height _ _ _ _ _ _ Hcont) as Hh. cbn [cr_Height commitRecord] in Hcomm.
  unfold height_of in Hnone. rewrite Hh, Hnone in Hcomm.
  assert (Hlen : height_of n' = height_of n + 1).
  { unfold height_of. rewrite Ec, length_app. cbn [length]. lia. }
  constructor.
  - unfold node_chain. rewrite El, Ec, Em. eapply chain_snoc; [apply (du_chain n Hd)|done].
  - rewrite Ec. apply Forall_app. split; [apply (du_wf n Hd)|by constructor].
  - lia.
  - intros i record. rewrite Es, Hcomm', Hcomm, Ec. intros [[Hi <-]|[Hi Hr']]%lookup_insert_Some.
    + exists c. rewrite lookup_app_r by lia.
      replace (i - length (nd_commits n))%nat with 0%nat by lia. split; [done|]. by constructor.
    + apply (du_records n Hd) in Hr' as (c' & Hc' & ?). exists c'. split; [|done].
      by apply lookup_app_l_Some.
  - intros h. rewrite Es, Hcomm', Hcomm. destruct (decide (Z.of_nat (length (nd_commits n)) + 1 = h)).
    + lia.
    + rewrite lookup_insert_ne by done. apply (du_only n Hd).
  - intros i c'. rewrite Es, Hcomm', Hcomm, Ec. intros [Hi|[Hi Hi']]%lookup_app_Some.
    + apply lookup_insert_is_Some'. right. by eapply (du_all n Hd).
    + apply lookup_insert_is_Some'. left. apply list_lookup_singleton_Some in Hi' as [? _]. lia.
  - rewrite Es, Hst', Hst. destruct (cont_state _ _ _ _ _ _ Hcont) as [k Hk].
    constructor; cbn; rewrite ?Hlen, ?El, ?Em, ?Ec; try done.
    + symmetry. by eapply Apply_digest.
    + by destruct (nd_commits n).
Qed.
(** ** Reading the store back *)

Lemma keyIDKnown_self : keyIDKnownForSelf cfg (vi_KeyID (n_selfID cfg)) = true.
Proof. unfold keyIDKnownForSelf. by destruct (String.eqb _ ""); [|rewrite String.eqb_refl]. Qed.

Lemma load_commits_chain count last m cs last' m' records :
  chain_from cfg count last m cs last' m' -> Forall commit_wf cs -> Forall2 record_of cs records ->
  load_commits cfg (Z.of_nat count) last m records = Ok (cs, last', m').
Proof.
  intros Hch. revert records.
  induction Hch as [|count last m c m1 cs last' m' [Hv Hh Hp [k Hk]] _ IH]; intros records Hwf Hrec.
  { by inversion Hrec. }
  inversion Hrec as [|? r ? records' [Rh Rb Rd Rj Rk] Hrec']; subst.
  apply Forall_cons in Hwf as [Hc Hwf]. cbn [load_commits].
  rewrite Rh, Hh, Z.eqb_refl, Rk, keyIDKnown_self, andb_false_r, Rj. cbn [negb].
  rewrite (Unmarshal_Marshal _ _ _ (Commit_json_ok c Hc) (Commit_of_json c Hc)).
  rewrite Hh, Z.eqb_refl, Block_Hash_ok. cbn [negb mbind result_bind]. rewrite Rb, Rd, !String.eqb_refl, andb_false_r, Hv, Hk,
    String.eqb_refl. cbn [negb].
  specialize (IH records' Hwf Hrec'). rewrite Nat2Z.inj_succ in IH. unfold Z.succ in IH.
  by rewrite IH.
Qed.

(** The heights of a chain of [k] commits. *)
Definition heights (k : nat) : list Z := map (fun i => Z.of_nat i + 1) (seq 0 k).

Lemma heights_sorted k : StronglySorted Z.le (heights k).
Proof.
  unfold heights. generalize 0%nat. induction k as [|k IH]; intros i; cbn; constructor; [apply IH|].
  apply Forall_map, Forall_forall. intros j [Hj _]%list_elem_of_In%in_seq. lia.
Qed.

Lemma elem_of_heights k h : h ∈ heights k <-> 1 <= h <= Z.of_nat k.
Proof.
  unfold heights. rewrite list_elem_of_In, in_map_iff. setoid_rewrite in_seq. split.
  - intros (i & <- & ?). lia.
  - intros ?. exists (Z.to_nat (h - 1)). lia.
Qed.

Lemma NoDup_heights k : NoDup (heights k).
Proof.
  unfold heights. apply NoDup_fmap_2; [intros i j ?; lia|]. apply NoDup_ListNoDup, seq_NoDup.
Qed.

Lemma durable_committed n h r :
  durable n -> committed (nd_store n) !! h = Some r ->
  1 <= h <= height_of n /\ cr_Height r = h /\
  exists c, nd_commits n !! Z.to_nat (h - 1) = Some c /\ record_of c r.
Proof.
  intros Hd Hr. pose proof (du_only n Hd h (mk_is_Some _ _ Hr)) as Hpos.
  replace h with (Z.of_nat (Z.to_nat (h - 1)) + 1) in Hr by lia.
  apply (du_records n Hd) in Hr as (c & Hc & Hrec).
  pose proof (chain_from_lookup _ _ _ _ _ _ _ _ _ (du_chain n Hd) Hc) as [_ Hh].
  pose proof (lookup_lt_Some _ _ _ Hc). pose proof (rec_height _ _ Hrec). unfold height_of.
  split_and!; [lia..|by exists c].
Qed.

(** The records the store lists are those of the chain, in order. *)
Lemma durable_records n l :
  durable n -> ListCommits (nd_store n) = Ok l -> Forall2 record_of (nd_commits n) l.
Proof.
  intros Hd Hl. apply ListCommits_law in Hl as (Hsorted & Hnd & Hin).
  2:{ intros h r Hr. destruct (durable_committed n h r Hd Hr) as (? & -> & _).
      pose proof (du_bound n Hd). lia. }
  assert (Hheights : map cr_Height l = heights (length (nd_commits n))).
  { apply (StronglySorted_unique Z.le); [done|apply heights_sorted|].
    apply NoDup_Permutation; [done|apply NoDup_heights|]. intros h.
    rewrite elem_of_heights, list_elem_of_fmap. split.
    - intros (r & -> & [h' Hr]%Hin). destruct (durable_committed n h' r Hd Hr) as (? & -> & _).
      done.
    - intros Hh. destruct (lookup_lt_is_Some_2 (nd_commits n) (Z.to_nat (h - 1))) as [c Hc]; [lia|].
      destruct (du_all n Hd _ _ Hc) as [r Hr]. replace (Z.of_nat _ + 1) with h in Hr by lia.
      destruct (durable_committed n h r Hd Hr) as (_ & Hrh & _). exists r. split; [done|].
      apply Hin. by exists h. }
  apply Forall2_same_length_lookup_2.
  { by rewrite <-(length_map cr_Height l), Hheights; unfold heights; rewrite length_map, length_seq. }
  intros i c r Hc Hr.
  assert (Hri : cr_Height r = Z.of_nat i + 1).
  { assert (Hm : map cr_Height l !! i = Some (cr_Height r)) by by rewrite list_lookup_fmap, Hr.
    rewrite Hheights in Hm. unfold heights in Hm.
    rewrite list_lookup_fmap, lookup_seq_lt in Hm by by apply lookup_lt_Some in Hc.
    cbn in Hm. by injection Hm as <-. }
  apply list_elem_of_lookup_2, Hin in Hr as [h Hr].
  destruct (durable_committed n h r Hd Hr) as (_ & Hrh & c' & Hc' & Hrec).
  replace (Z.to_nat (h - 1)) with i in Hc' by lia. by simplify_eq.
Qed.

Lemma saved_state_checks n state :
  state_of n state ->
  check_saved_state cfg state (nd_commits n) (nd_lastHash n) (nd_state n) = Ok tt.
Proof.
  intros [Hn Hk Hh Hl Hd _ Hne]. unfold check_saved_state. cbv zeta. fold (height_of n).
  rewrite Hn, Hk, Hh, Hl, Hd, keyIDKnown_self, Z.eqb_refl, !String.eqb_refl, !andb_false_r.
  cbn [negb]. assert (height_of n =? 0 = false) as ->; [|done].
  apply Z.eqb_neq. unfold height_of. destruct (nd_commits n); [done|cbn; lia].
Qed.

(** What [loadPersistedState] rebuilds from the store of a durable node. *)
Lemma load_recovers now n n0 records saved :
  durable n -> nd_store n0 = nd_store n ->
  ListCommits (nd_store n) = Ok records -> LoadValidatorState (nd_store n) = Ok saved ->
  exists n1,
    loadPersistedState cfg now n0 = (n1, Ok tt) /\
    nd_commits n1 = nd_commits n /\ nd_lastHash n1 = nd_lastHash n /\ nd_state n1 = nd_state n /\
    durable n1 /\ nd_votes n1 = nd_votes n0 /\ nd_proposals n1 = nd_proposals n0 /\
    nd_store n1 = nd_store n /\ nd_currentRound n1 = nd_currentRound n0 /\ nd_running n1 = nd_running n0 /\
    (nd_commits n = [] -> nd_lock n1 = nd_lock n0) /\
    (nd_commits n <> [] -> l_Height (nd_lock n1) = height_of n /\
                           l_BlockHash (nd_lock n1) = nd_lastHash n).
Proof.
  intros Hd Hstore Hrec Hsaved. pose proof (durable_records n records Hd Hrec) as Hr.
  pose proof (load_commits_chain _ _ _ _ _ _ _ (du_chain n Hd) (du_wf n Hd) Hr) as Hload.
  change (Z.of_nat 0) with 0 in Hload.
  unfold loadPersistedState. autorewrite with go_run. change (id n0) with n0.
  rewrite Hstore, Hrec. autorewrite with go_run. rewrite Hsaved. autorewrite with go_run.
  rewrite Hload. autorewrite with go_run. apply LoadValidatorState_law in Hsaved as ->.
  pose proof (du_state n Hd) as Hst.
  assert (Hfin : forall lock n2, nd_store n2 = nd_store n -> nd_lock n2 = lock ->
    nd_votes n2 = nd_votes n0 -> nd_proposals n2 = nd_proposals n0 -> nd_currentRound n2 = nd_currentRound n0 ->
    nd_running n2 = nd_running n0 ->
    exists n1, (modify (set_nd_chain (nd_lastHash n) (nd_commits n) (nd_state n)) ≫= fun _ =>
      match nd_commits n with
      | [] => mret tt
      | _ => appendEventLocked now (String.concat "" ["loaded ";
               itoa (Z.of_nat (length (nd_commits n))); " durable commit(s)"])
      end) n2 = (n1, Ok tt) /\ nd_commits n1 = nd_commits n /\ nd_lastHash n1 = nd_lastHash n /\
      nd_state n1 = nd_state n /\ durable n1 /\ nd_votes n1 = nd_votes n0 /\
      nd_proposals n1 = nd_proposals n0 /\ nd_store n1 = nd_store n /\
      nd_currentRound n1 = nd_currentRound n0 /\ nd_running n1 = nd_running n0 /\ nd_lock n1 = lock).
  { intros lock n2 Hs Hl Hv Hp Hcr Hrun. autorewrite with go_run.
    destruct (nd_commits n) eqn:Hc; eexists; (split; [reflexivity|]); cbn; split_and!; try done;
      (apply (durable_frame n); [done|by rewrite Hc|done|done|cbn; by rewrite Hs|cbn; by rewrite Hs]). }
  destruct (saved_state (nd_store n)) as [state|] eqn:Es.
  - rewrite run_bind, run_lift, (saved_state_checks n state Hst).
    destruct (Hfin (mkLock (st_LockedHeight state) (st_LockedRound state) (st_LockedBlockHash state)
      "" 0 "" 0 0) (set_nd_lock (mkLock (st_LockedHeight state) (st_LockedRound state)
      (st_LockedBlockHash state) "" 0 "" 0 0) n0)) as (n1 & E & ? & ? & ? & ? & ? & ? & ? & ? & ? & Hl); try done.
    exists n1. split; [exact E|]. rewrite Hl. split_and!; try done.
    + intros Hnil. by destruct (so_positive _ _ Hst).
    + intros _. apply Hst.
  - destruct (Hfin (nd_lock n0) n0) as (n1 & E & ? & ? & ? & ? & ? & ? & ? & ? & ? & Hl); try done.
    exists n1. split_and!; done.
Qed.

(** C3: a restart recovers the chain. Over a store that holds a node's chain,
    [loadPersistedState] succeeds, whatever else the starting node had, and
    rebuilds the same commits, last hash and replicated state; every
    consistency check of the durable log passes, the votes are not restored,
    and the lock that is restored is the one of the last commit, so that the
    recovered node is durable and not locked at the height it works on. *)
Theorem restart_recovers now n n0 records saved :
  durable n -> nd_store n0 = nd_store n ->
  ListCommits (nd_store n) = Ok records -> LoadValidatorState (nd_store n) = Ok saved ->
  exists n1,
    loadPersistedState cfg now n0 = (n1, Ok tt) /\
    nd_commits n1 = nd_commits n /\ nd_lastHash n1 = nd_lastHash n /\ nd_state n1 = nd_state n /\
    durable n1 /\ nd_votes n1 = nd_votes n0 /\ nd_proposals n1 = nd_proposals n0 /\
    (nd_commits n <> [] -> l_Height (nd_lock n1) = height_of n /\
                           l_BlockHash (nd_lock n1) = nd_lastHash n).
Proof.
  intros Hd Hstore Hrec Hsaved.
  destruct (load_recovers now n n0 records saved Hd Hstore Hrec Hsaved)
    as (n1 & E & ? & ? & ? & ? & ? & ? & _ & _ & _ & _ & ?).
  by exists n1.
Qed.
End recovery.

(** ** Catch-up *)

Section catch_up.
Context {S : Type} `{ReliableStore S} (cfg : Config).
#[local] Set Default Proof Using "Type*".
Implicit Types (n : Node S) (c : CommitRequest).

(** C4: every commit a node applies is on disk. Over a store that does not fail,
    [ApplyCommit] keeps the store equal to the node's chain, whether it accepts
    the commit, knows it already, or refuses it. *)
Theorem ApplyCommit_durable now c n :
  durable cfg n -> commit_wf c -> height_of n + 1 < 2 ^ 63 ->
  durable cfg (ApplyCommit cfg now c n).1.
Proof.
  intros Hd Hwf Hb. destruct (ApplyCommit cfg now c n) as [n' r] eqn:E. cbn [fst].
  destruct (ApplyCommit_outcome _ _ _ _ _ _ E) as [e -> Hc|? _ _ -> _ _ _|Hv Ha];
    [by apply (durable_core cfg n)|done|].
  inversion Ha as [e -> Hc|m' s' e Hcont lock Hs -> Hc|m' s' s'' Hcont Hr lock Hs He -> Hc].
  - by apply (durable_core cfg n).
  - exfalso. pose proof (durable_absent cfg n Hd) as Hnone. unfold height_of in Hnone.
    rewrite <-(cont_height _ _ _ _ _ _ Hcont) in Hnone.
    edestruct (SaveCommit_accepts (nd_store n) (commitRecord cfg now c (hash_of (c_Block c))))
      as [s1 Hs1]; [exact Hnone|]. rewrite Hs in Hs1. discriminate.
  - by eapply applied_durable.
Qed.

Lemma candidate_tail_ok count last m cs :
  candidate_tail cfg (Z.of_nat count) last m cs = Ok tt <->
  exists last' m', chain_from cfg count last m cs last' m'.
Proof.
  revert count last m. induction cs as [|c cs IH]; intros count last m; cbn [candidate_tail].
  { split; [|done]. intros _. exists last, m. constructor. }
  split.
  - intros Hrun. run_ok Hrun. reflect_bools. apply bind_ok in Hrun as ([] & Hv & Hrun).
    destruct (Apply m _) as [m1 [[d k]|e]] eqn:Ha; [|discriminate Hrun].
    cbn [mbind result_bind] in Hrun. run_ok Hrun. rewrite Block_Hash_ok in Hrun.
    cbn [mbind result_bind] in Hrun. reflect_bools.
    replace (Z.of_nat count + 1) with (Z.of_nat (Datatypes.S count)) in Hrun by lia.
    apply IH in Hrun as (last' & m' & Hch). exists last', m'. econstructor; [|exact Hch].
    constructor; try done. exists k. by rewrite Ha, Hg1.
  - intros (last' & m' & Hch). inversion Hch as [|? ? ? ? m1 ? ? ? [Hv Hh Hp [k Hk]] Hch']; subst.
    rewrite Hh, Z.eqb_refl, String.eqb_refl, Hv, Hk, Block_Hash_ok. cbn [negb mbind result_bind].
    rewrite String.eqb_refl. cbn [negb].
    replace (Z.of_nat count + 1) with (Z.of_nat (Datatypes.S count)) by lia.
    apply IH. by exists last', m'.
Qed.

Lemma candidate_extends_ok i locals commits :
  (length locals <= length commits)%nat ->
  candidate_extends i locals commits = Ok tt <->
  map (fun c => hash_of (c_Block c)) locals
  = map (fun c => hash_of (c_Block c)) (take (length locals) commits).
Proof.
  revert i commits. induction locals as [|c locals IH]; intros i [|c' commits] Hlen;
    cbn [candidate_extends length take map] in *; try (done || lia).
  rewrite !Block_Hash_ok. cbn [mbind result_bind].
  destruct (String.eqb_spec (hash_of (c_Block c)) (hash_of (c_Block c'))) as [->|Hne]; cbn [negb].
  - rewrite IH by lia. split; [apply f_equal|apply (f_equal (drop 1))].
  - split; [discriminate|]. intros Heq%(f_equal (@head _)). by apply Some_inj in Heq.
Qed.

(** What [validateCatchUpCandidate] accepts: the candidate starts with the local
    chain and its further commits continue it. *)
Lemma validateCatchUpCandidate_ok n commits :
  validateCatchUpCandidate cfg n commits = Ok tt <->
  (length (nd_commits n) <= length commits)%nat /\
  map (fun c => hash_of (c_Block c)) (nd_commits n)
  = map (fun c => hash_of (c_Block c)) (take (length (nd_commits n)) commits) /\
  exists last m, chain_from cfg (length (nd_commits n)) (nd_lastHash n) (nd_state n)
                   (drop (length (nd_commits n)) commits) last m.
Proof.
  unfold validateCatchUpCandidate. cbv zeta. rewrite Clone_id.
  destruct (Nat.ltb_spec (length commits) (length (nd_commits n))).
  { split; [discriminate|]. intros [? _]. lia. }
  rewrite <-candidate_tail_ok, <-(candidate_extends_ok 0) by lia. split.
  - by intros ([] & ? & ?)%bind_ok.
  - intros (_ & -> & ->). done.
Qed.

(** A commit that continues the node's chain at a round that is not stale is
    applied. *)
Lemma ApplyCommit_succeeds now c n m' :
  durable cfg n -> continues cfg (length (nd_commits n)) (nd_lastHash n) (nd_state n) c m' ->
  round_at (b_Height (c_Block c)) n <= b_Round (c_Block c) ->
  exists n', ApplyCommit cfg now c n = (n', Ok tt).
Proof.
  intros Hd [Hv Hh Hp [k Hk]] Hr.
  unfold ApplyCommit. rewrite Hv. autorewrite with go_run. rewrite Block_Hash_ok.
  autorewrite with go_run. change (id n) with n.
  assert (b_Height (c_Block c) <=? height_of n = false) as ->
    by (apply Z.leb_gt; unfold height_of; lia).
  unfold apply_next. autorewrite with go_run. change (id n) with n.
  assert (b_Height (c_Block c) =? height_of n + 1 = true) as -> by (apply Z.eqb_eq, Hh).
  assert (b_Round (c_Block c) <? round_at (b_Height (c_Block c)) n = false) as ->
    by by apply Z.ltb_ge.
  rewrite Hp, String.eqb_refl, Clone_id, Hk. cbn [negb]. autorewrite with go_run.
  rewrite String.eqb_refl. cbn [negb]. rewrite run_bind. unfold store_commit.
  autorewrite with go_run. cbn [id nd_store set_nd_lock].
  pose proof (durable_absent cfg n Hd) as Hnone. unfold height_of in Hnone. rewrite <-Hh in Hnone.
  edestruct (SaveCommit_accepts (nd_store n) (commitRecord cfg now c (hash_of (c_Block c))))
    as [s1 ->]; [exact Hnone|]. autorewrite with go_run. cbn [mret M_ret].
  autorewrite with go_run. rewrite run_bind. unfold set_round, modify. cbv beta iota.
  rewrite run_bind. match goal with |- context [persist_receipt cfg now c ?x] =>
    destruct (persist_receipt_outcome cfg now c x) as (s'' & _ & Hr2 & _);
    destruct (persist_receipt cfg now c x) as [n2 r2] end.
  cbn [snd] in Hr2. rewrite Hr2. autorewrite with go_run. by eexists.
Qed.

Lemma apply_continues now c n m' :
  durable cfg n -> commit_wf c -> height_of n + 1 < 2 ^ 63 ->
  continues cfg (length (nd_commits n)) (nd_lastHash n) (nd_state n) c m' ->
  round_at (b_Height (c_Block c)) n <= b_Round (c_Block c) ->
  exists n', ApplyCommit cfg now c n = (n', Ok tt) /\ durable cfg n' /\
    nd_commits n' = (nd_commits n ++ [c])%list /\ nd_lastHash n' = hash_of (c_Block c) /\
    nd_state n' = m' /\ round_at (height_of n' + 1) n' = 0 /\
    nd_lock n' = next_lock now c (hash_of (c_Block c)) /\ nd_votes n' = nd_votes n /\
    nd_proposals n' = nd_proposals n.
Proof.
  intros Hd Hwf Hb Hcont Hr. destruct (ApplyCommit_succeeds now c n m' Hd Hcont Hr) as [n' E].
  pose proof Hcont as [_ Hh _ [k Hk]].
  exists n'.
  destruct (ApplyCommit_outcome _ _ _ _ _ _ E) as [e [=] _|? _ _ _ Hle _ _|_ Ha];
    [unfold height_of in *; lia|].
  pose proof (applied_durable cfg now c n n' Hd Hwf Hb Ha) as Hd'.
  inversion Ha as [e [=] _|m1 s' e _ ? _ [=]|m1 s' s'' [_ _ _ [k1 Hk1]] _ ? _ _ _ Hc].
  apply core_eq in Hc as (_ & El & Ec & Em & Er & Elk & Ev & Ep).
  cbn [nd_commits nd_lastHash nd_state nd_currentRound nd_lock nd_votes nd_proposals set_nd_lock
    set_nd_store set_nd_chain set_nd_currentRound] in El, Ec, Em, Er, Elk, Ev, Ep.
  split_and!; try done; [congruence|]. unfold round_at. rewrite Er.
  assert (height_of n' + 1 = u64 (b_Height (c_Block c) + 1)) as ->.
  { unfold height_of in *. rewrite Ec, length_app, Hh, u64_small; [cbn; lia|].
    unfold is_u64, two64. lia. }
  by rewrite lookup_insert_eq.
Qed.

Definition first_round_ok n (cs : list CommitRequest) : Prop :=
  match cs with [] => True | c :: _ => round_at (b_Height (c_Block c)) n <= b_Round (c_Block c) end.

Lemma apply_all_chain now i n cs last m :
  durable cfg n -> Forall commit_wf cs ->
  Z.of_nat (length (nd_commits n) + length cs) < 2 ^ 63 -> first_round_ok n cs ->
  chain_from cfg (length (nd_commits n)) (nd_lastHash n) (nd_state n) cs last m ->
  exists n', apply_all cfg now i cs n = (n', Ok tt) /\ durable cfg n' /\
    nd_commits n' = (nd_commits n ++ cs)%list /\ nd_lastHash n' = last /\ nd_state n' = m.
Proof.
  intros Hd Hwf Hlen Hround Hch. revert i n Hd Hlen Hround Hch.
  induction cs as [|c cs IH]; intros i n Hd Hlen Hround Hch; cbn [apply_all].
  - inversion Hch; subst. exists n. by rewrite app_nil_r.
  - apply Forall_cons in Hwf as [Hc Hwf]. inversion Hch as [|? ? ? ? m1 ? ? ? Hcont Hch']; subst.
    cbn [length] in Hlen.
    destruct (apply_continues now c n m1 Hd Hc) as (n1 & E & Hd1 & Ec & El & Em & Er & _);
      [unfold height_of; lia|done|done|].
    autorewrite with go_run. rewrite E.
    assert (Hl1 : length (nd_commits n1) = Datatypes.S (length (nd_commits n)))
      by (rewrite Ec, length_app; cbn; lia).
    destruct (IH Hwf (i + 1) n1 Hd1) as (n' & E' & Hd' & Ec' & ? & ?).
    + rewrite Hl1. lia.
    + destruct cs as [|c2 cs]; [done|]. cbn.
      inversion Hch' as [|? ? ? ? ? ? ? ? [_ Hh2 _ _] _]; subst.
      unfold height_of in Er. rewrite Hl1 in Er. rewrite Hh2, Er.
      apply Forall_cons in Hwf as [[Hb2 _] _]. apply Hb2.
    + by rewrite Hl1, El, Em.
    + exists n'. split_and!; try done. rewrite Ec', Ec, <-app_assoc. done.
Qed.

(** C24: catch-up adopts a valid longer chain. When the candidate of a peer passes
    [validateCatchUpCandidate] and its first new commit is not of a round the
    node has left, the commits the node is missing are all applied: the node
    ends with the peer's chain, commit for commit beyond its own, and with its
    last hash and state, durably. *)
Theorem catch_up_applies now n commits :
  durable cfg n -> Forall commit_wf commits -> Z.of_nat (length commits) < 2 ^ 63 ->
  validateCatchUpCandidate cfg n commits = Ok tt ->
  first_round_ok n (drop (length (nd_commits n)) commits) ->
  exists n', apply_all cfg now (height_of n) (drop (length (nd_commits n)) commits) n = (n', Ok tt) /\
    durable cfg n' /\
    map (fun c => hash_of (c_Block c)) (nd_commits n') = map (fun c => hash_of (c_Block c)) commits /\
    drop (length (nd_commits n)) (nd_commits n') = drop (length (nd_commits n)) commits.
Proof.
  intros Hd Hwf Hb (Hlen & Hsame & last & m & Hch)%validateCatchUpCandidate_ok Hround.
  destruct (apply_all_chain now (height_of n) n (drop (length (nd_commits n)) commits) last m Hd)
    as (n' & E & Hd' & Ec & _ & _);
    [by apply Forall_drop|rewrite length_drop; lia|done|done|].
  exists n'. split_and!; try done.
  - rewrite Ec, map_app, Hsame, <-map_app. by rewrite take_drop.
  - by rewrite Ec, drop_app_length.
Qed.

(** C25: a node that has left a round refuses the chain that was committed in it.
    When a peer's candidate is valid but its first missing commit is of an
    earlier round than the one the node has moved to, applying it fails, and
    the failure changes nothing the consensus depends on: the node stays behind,
    and every later attempt with that chain fails the same way. *)
Theorem catch_up_stale_round now n commits c rest :
  validateCatchUpCandidate cfg n commits = Ok tt ->
  drop (length (nd_commits n)) commits = c :: rest ->
  b_Round (c_Block c) < round_at (b_Height (c_Block c)) n ->
  exists n' e, apply_all cfg now (height_of n) (c :: rest) n = (n', Err e) /\ core n' = core n.
Proof.
  intros (_ & _ & last & m & Hch)%validateCatchUpCandidate_ok Hdrop Hr. rewrite Hdrop in Hch.
  inversion Hch as [|? ? ? ? m1 ? ? ? [Hv Hh Hp Hk] _]; subst.
  cbn [apply_all]. autorewrite with go_run.
  unfold ApplyCommit. rewrite Hv. autorewrite with go_run. rewrite Block_Hash_ok.
  autorewrite with go_run. change (id n) with n.
  assert (b_Height (c_Block c) <=? height_of n = false) as ->
    by (apply Z.leb_gt; unfold height_of; lia).
  unfold apply_next. autorewrite with go_run. change (id n) with n.
  assert (b_Height (c_Block c) =? height_of n + 1 = true) as -> by (apply Z.eqb_eq, Hh).
  assert (b_Round (c_Block c) <? round_at (b_Height (c_Block c)) n = true) as ->
    by by apply Z.ltb_lt.
  by eexists _, _.
Qed.
End catch_up.

(** *** Witnesses

    A follower [v3] and a chain of two blocks, proposed by [v1] and [v2]. *)
Definition demo_c1 : CommitRequest :=
  demo_commit_of (demo_block "v1" 0 "pay" demo_node) ["v1"; "v2"; "v4"].

Definition demo_n1 : Node MemoryStore := (ApplyCommit (demo_config "v3") (mkTime 9 "t") demo_c1 demo_node).1.

Definition demo_c2 : CommitRequest :=
  demo_commit_of (demo_block "v2" 0 "pay2" demo_n1) ["v2"; "v3"; "v4"].

Lemma demo_durable : durable (demo_config "v3") demo_node.
Proof. by apply durable_empty. Qed.

Lemma demo_c1_wf : commit_wf demo_c1.
Proof. apply commit_ok_wf. vm_compute. reflexivity. Qed.

Lemma demo_c2_wf : commit_wf demo_c2.
Proof. apply commit_ok_wf. vm_compute. reflexivity. Qed.

Lemma demo_n1_durable : durable (demo_config "v3") demo_n1.
Proof.
  destruct (apply_continues (demo_config "v3") (mkTime 9 "t") demo_c1 demo_node
    (Apply NewMachine (b_Transactions (c_Block demo_c1))).1 demo_durable demo_c1_wf)
    as (n' & E & Hd & _); [done| |vm_compute; discriminate|].
  - constructor; [vm_compute; reflexivity..|]. exists 1. vm_compute. reflexivity.
  - unfold demo_n1. by rewrite E.
Qed.

Lemma restart_recovers_witness :
  exists n1, loadPersistedState (demo_config "v3") (mkTime 10 "t") (fresh_node (nd_store demo_n1))
             = (n1, Ok tt) /\
    nd_commits n1 = nd_commits demo_n1 /\ nd_lastHash n1 = nd_lastHash demo_n1 /\
    durable (demo_config "v3") n1.
Proof.
  generalize demo_n1_durable. generalize demo_n1 as n. intros n Hdn.
  destruct (ListCommits_total (nd_store n)) as [l Hl].
  destruct (LoadValidatorState_total (nd_store n)) as [v Hv].
  destruct (restart_recovers (demo_config "v3") (mkTime 10 "t") n
              (fresh_node (nd_store n)) l v Hdn eq_refl Hl Hv)
    as (n1 & E & Ec & El & _ & Hd & _).
  exists n1. exact (conj E (conj Ec (conj El Hd))).
Defined.

Lemma ApplyCommit_durable_witness :
  durable (demo_config "v3") (ApplyCommit (demo_config "v3") (mkTime 9 "t") demo_c1 demo_node).1.
Proof. apply ApplyCommit_durable; [apply demo_durable|apply demo_c1_wf|done]. Defined.

Lemma catch_up_applies_witness :
  exists n', apply_all (demo_config "v3") (mkTime 9 "t") 0 [demo_c1; demo_c2] demo_node = (n', Ok tt) /\
             durable (demo_config "v3") n'.
Proof.
  destruct (catch_up_applies (demo_config "v3") (mkTime 9 "t") demo_node [demo_c1; demo_c2])
    as (n' & E & Hd & _).
  - apply demo_durable.
  - constructor; [exact demo_c1_wf|]. constructor; [exact demo_c2_wf|constructor].
  - done.
  - vm_compute. reflexivity.
  - vm_compute. discriminate.
  - exists n'. by split.
Defined.

(** The follower moved to round 1 while round 0 was being committed. *)
Lemma catch_up_stale_round_witness :
  let n := (markRound (demo_config "v3") (mkTime 8 "t") 1 1 demo_node).1 in
  exists n' e, apply_all (demo_config "v3") (mkTime 9 "t") 0 [demo_c1; demo_c2] n = (n', Err e) /\
               core n' = core n.
Proof.
  intros n. apply (catch_up_stale_round (demo_config "v3") (mkTime 9 "t") n [demo_c1; demo_c2]
                     demo_c1 [demo_c2]).
  - vm_compute. reflexivity.
  - reflexivity.
  - vm_compute. reflexivity.
Defined.
