(* ===== verification/NodeSafety.v ===== *)
(** * Agreement of the validators

    The nodes as a system: each honest node runs the operations of [Node], one
    critical section of its mutex at a time, in any order, on any input.  The
    faulty nodes and the network may present any message; what they cannot do is
    present a certificate with a valid vote of an honest node that it has not
    signed.  Two honest nodes then never commit different blocks at a height. *)

From S2P Require Import Prelude Sha256 Json JsonParse JsonDecode Identity State Protocol Codec Store Consortium Anchors Evidence Auth Observability Node NodeProps NodeVotes NodeRecovery.
Local Open Scope Z_scope.

(** What a step of a node makes visible: a vote it signs, a commit it is given. *)
Inductive label :=
| LTau
| LVote (v : Vote)
| LCommit (c : CommitRequest).

Section steps.
Context {S : Type} `{ReliableStore S} (cfg : Config).
#[local] Set Default Proof Using "Type*".
Implicit Types (n : Node S).

(** The critical sections of a node. *)
Inductive node_step n : label -> Node S -> Prop :=
| step_vote now p stage qc n' v :
    IsVoteStage stage = true -> voteForProposal cfg now p stage qc n = (n', Ok v) ->
    node_step n (LVote v) n'
| step_refuse now p stage qc n' e :
    IsVoteStage stage = true -> voteForProposal cfg now p stage qc n = (n', Err e) ->
    node_step n LTau n'
| step_commit now c :
    node_step n (LCommit c) (ApplyCommit cfg now c n).1
| step_round now h r : node_step n LTau (markRound cfg now h r n).1
| step_receipt r : node_step n LTau (saveEvidenceReceipt r n).1
| step_audit record :
    node_step n LTau (set_nd_store (SaveAudit (nd_store n) record).1 n)
| step_silent n' : core n' = core n -> node_step n LTau n'.

(** What every step keeps: the commits are a certified chain, the store has no
    commit past it, and the votes follow the lock discipline. *)
Record node_ok n : Prop := {
  no_chain : node_chain cfg n;
  no_absent h : height_of n < h -> committed (nd_store n) !! h = None;
  no_votes : votes_ok cfg n
}.

Lemma markRound_frame now h r n :
  let n' := (markRound cfg now h r n).1 in
  nd_store n' = nd_store n /\ nd_lastHash n' = nd_lastHash n /\ nd_commits n' = nd_commits n /\
  nd_state n' = nd_state n /\ nd_lock n' = nd_lock n /\ nd_votes n' = nd_votes n.
Proof. unfold markRound. autorewrite with go_run. by case_match. Qed.

Lemma node_ok_frame n n' :
  committed (nd_store n') = committed (nd_store n) ->
  nd_lastHash n' = nd_lastHash n -> nd_commits n' = nd_commits n -> nd_state n' = nd_state n -> nd_lock n' = nd_lock n ->
  nd_votes n' = nd_votes n -> node_ok n -> node_ok n'.
Proof.
  intros Hs Hl Hc Hm Hk Hv [Hch Ha Ho].
  assert (Hh : height_of n' = height_of n) by (unfold height_of; by rewrite Hc).
  constructor; unfold node_chain; rewrite ?Hs, ?Hl, ?Hc, ?Hm, ?Hh; [done..|].
  by apply (votes_ok_frame cfg n).
Qed.

Lemma node_ok_core n n' : core n' = core n -> node_ok n -> node_ok n'.
Proof.
  intros (Es & ? & ? & ? & _ & ? & ? & _)%core_eq. apply (node_ok_frame n); try done. by rewrite Es.
Qed.

Lemma apply_commit_node_ok now c n :
  node_ok n ->
  let n' := (ApplyCommit cfg now c n).1 in
  node_ok n' /\ nd_votes n' = nd_votes n /\
  (nd_commits n' = nd_commits n \/
   nd_commits n' = (nd_commits n ++ [c])%list /\ verifyCommit cfg c = Ok tt).
Proof.
  intros Hok. cbv zeta. pose proof Hok as [Hch Hab Ho].
  destruct (ApplyCommit cfg now c n) as [n' r] eqn:E. cbn [fst].
  destruct (ApplyCommit_outcome _ _ _ _ _ _ E) as [e -> Hc|? _ _ -> _ _ _|Hv Ha]; [|by auto|].
  { split_and!; [by apply (node_ok_core n)| |]; apply core_eq in Hc as (_ & _ & ? & _ & _ & _ & ? & _);
      [done|by left]. }
  inversion Ha as [e -> Hc|m' s' e Hcont lock Hs -> Hc|m' s' s'' Hcont Hr lock Hs He -> Hc].
  - split_and!; [by apply (node_ok_core n)| |]; apply core_eq in Hc as (_ & _ & ? & _ & _ & _ & ? & _);
      [done|by left].
  - exfalso. edestruct (SaveCommit_accepts (nd_store n) (commitRecord cfg now c (hash_of (c_Block c))))
      as [s1 Hs1]; [|rewrite Hs in Hs1; discriminate].
    apply Hab. cbn. rewrite (cont_height _ _ _ _ _ _ Hcont). unfold height_of. lia.
  - apply SaveCommit_law in Hs as (_ & Hcomm & _). apply evidence_saved_frame in He as [Hcomm' _].
    pose proof (cont_height _ _ _ _ _ _ Hcont) as Hheight.
    apply core_eq in Hc as (Es & El & Ec & Em & _ & _ & Ev & _). cbn in Es, El, Ec, Em, Ev.
    split_and!; [|done|by right].
    assert (Hh : height_of n' = height_of n + 1)
      by (unfold height_of; rewrite Ec, length_app; cbn; lia).
    constructor; [| |].
    { unfold node_chain. rewrite El, Ec, Em. by eapply chain_snoc. }
    { intros h Hlt. rewrite Hh in Hlt. rewrite Es, Hcomm', Hcomm. cbn [cr_Height commitRecord].
      rewrite (Hab (b_Height _)) by (unfold height_of; lia).
      rewrite lookup_insert_ne by (unfold height_of in *; lia). apply Hab. lia. }
    constructor; rewrite Ev, ?Hh.
    + intros h r' s v Hk. apply (vo_key _ n Ho) in Hk. destruct_and?. split_and!; try done. lia.
    + intros r' v Hk. apply (vo_key _ n Ho) in Hk. destruct_and?. lia.
    + apply (vo_once _ n Ho).
Qed.

Lemma votes_node_ok now p stage qc n n' r :
  node_ok n -> IsVoteStage stage = true -> voteForProposal cfg now p stage qc n = (n', r) ->
  node_ok n'.
Proof.
  intros [Hch Hab Ho] Hst E.
  assert (Hl : ledger n' = ledger n)
    by (by destruct (voteForProposal_outcome _ _ _ _ _ _ _ _ E)).
  apply ledger_eq in Hl as (Es & El & Ec & Em).
  assert (Hh : height_of n' = height_of n) by (unfold height_of; by rewrite Ec).
  constructor; unfold node_chain; rewrite ?Es, ?El, ?Ec, ?Em, ?Hh; [done..|].
  destruct r; [by eapply vote_cast_ok|by eapply vote_refused_ok].
Qed.

Lemma node_step_ok n l n' : node_ok n -> node_step n l n' -> node_ok n'.
Proof.
  intros Hok Hstep. inversion Hstep as [now p stage qc ? v Hst E|now p stage qc ? e Hst E|now c
    |now h r|r|record|? Hc]; subst.
  - by eapply votes_node_ok.
  - by eapply votes_node_ok.
  - by apply apply_commit_node_ok.
  - destruct (markRound_frame now h r n) as (Es & ? & ? & ? & ? & ?).
    apply (node_ok_frame n); try done; by rewrite Es.
  - destruct (saveEvidenceReceipt_outcome r n) as (s' & Hs & Hc).
    apply evidence_saved_frame in Hs as [? _].
    apply core_eq in Hc as (Es & ? & ? & ? & _ & ? & ? & _).
    apply (node_ok_frame n); try done; by rewrite Es.
  - apply (node_ok_frame n); try done. apply SaveAudit_frame.
  - by apply (node_ok_core n).
Qed.

(** A step never forgets a vote, and a vote it makes visible is recorded. *)
Lemma node_step_votes n l n' :
  node_ok n -> node_step n l n' ->
  nd_votes n ⊆ nd_votes n' /\
  match l with
  | LVote v => v_VoterID v = cfg_ID cfg /\ v_Decision v = DecisionCommit /\
               nd_votes n' !! (v_Height v, v_Round v, v_Stage v) = Some v
  | _ => True
  end.
Proof.
  intros Hok Hstep. inversion Hstep as [now p stage qc ? v Hst E|now p stage qc ? e Hst E
    |now c|now h r|r|record|? Hc]; subst.
  - apply voteForProposal_outcome in E. pose proof (no_votes _ Hok) as Ho.
    inversion E as [|? _ _ _ Hv Hin _|? _ _ _ Hnone Hs _ _ Hv]; subst.
    + pose proof (vo_key _ _ Ho _ _ _ _ Hin) as (-> & -> & -> & ? & ? & _).
      rewrite Hv, NormalizeStage_vote by done. by split_and!.
    + pose proof (SignStageVote_fields _ _ _ _ _ _ _ Hs) as (-> & -> & -> & _ & ? & ?).
      rewrite Hv, NormalizeStage_vote by done. rewrite lookup_insert_eq.
      split_and!; try done. by apply insert_subseteq.
  - apply voteForProposal_outcome in E. inversion E as [? _ _ Hv| |]. by rewrite Hv.
  - destruct (apply_commit_node_ok now c n Hok) as (_ & -> & _). done.
  - destruct (markRound_frame now h r n) as (_ & _ & _ & _ & _ & ->). done.
  - destruct (saveEvidenceReceipt_outcome r n) as (s' & _ & Hc).
    apply core_eq in Hc as (_ & _ & _ & _ & _ & _ & Ev & _). by rewrite Ev.
  - done.
  - apply core_eq in Hc as (_ & _ & _ & _ & _ & _ & Ev & _). by rewrite Ev.
Qed.

(** A commit that is given to a node is added to its chain or changes nothing. *)
Lemma commit_step_cases n c n' : node_ok n -> node_step n (LCommit c) n' ->
  node_step n LTau n' \/ nd_commits n' = (nd_commits n ++ [c])%list.
Proof.
  intros Hok Hstep. inversion Hstep as [| |now ?| | | |]; subst.
  destruct (ApplyCommit cfg now c n) as [n' r] eqn:E. cbn [fst].
  destruct (ApplyCommit_outcome _ _ _ _ _ _ E) as [e -> Hc|? _ _ -> _ _ _|Hv Ha];
    [by left; apply step_silent|by left; apply step_silent|].
  inversion Ha as [e -> Hc|m' s' e Hcont lock Hs -> Hc|m' s' s'' Hcont Hr lock Hs He -> Hc];
    [by left; apply step_silent| |].
  - exfalso. edestruct (SaveCommit_accepts (nd_store n) (commitRecord cfg now c (hash_of (c_Block c))))
      as [s1 Hs1]; [|rewrite Hs in Hs1; discriminate].
    apply (no_absent _ Hok). cbn. rewrite (cont_height _ _ _ _ _ _ Hcont). unfold height_of. lia.
  - right. by apply core_eq in Hc as (_ & _ & Ec & _).
Qed.

(** A new vote is for the height the node works on. *)
Lemma node_step_late n l n' h r stage :
  node_ok n -> node_step n l n' -> h <= height_of n -> nd_votes n' !! (h, r, stage) = nd_votes n !! (h, r, stage).
Proof.
  intros Hok Hstep Hle. inversion Hstep as [now p st qc ? v Hst E|now p st qc ? e Hst E
    |now c|now h0 r0|r0|record|? Hc]; subst.
  - apply voteForProposal_outcome in E. inversion E as [|? _ _ _ Hv _ _|? Hp _ _ _ _ _ _ Hv]; subst.
    + by rewrite Hv.
    + rewrite Hv, lookup_insert_ne; [done|]. pose proof (prop_height _ _ _ Hp). intros [= <- _ _]. lia.
  - apply voteForProposal_outcome in E. inversion E as [? _ _ Hv| |]. by rewrite Hv.
  - by destruct (apply_commit_node_ok now c n Hok) as (_ & -> & _).
  - destruct (markRound_frame now h0 r0 n) as (_ & _ & _ & _ & _ & ->). done.
  - destruct (saveEvidenceReceipt_outcome r0 n) as (s' & _ & Hc).
    apply core_eq in Hc as (_ & _ & _ & _ & _ & _ & Ev & _). by rewrite Ev.
  - done.
  - apply core_eq in Hc as (_ & _ & _ & _ & _ & _ & Ev & _). by rewrite Ev.
Qed.

(** The vote a step makes visible is for the height the node works on. *)
Lemma node_step_signed n v n' : node_ok n -> node_step n (LVote v) n' -> v_Height v = height_of n + 1.
Proof.
  intros Hok Hstep. inversion Hstep as [now p st qc ? ? Hst E| | | | | |]; subst.
  apply voteForProposal_outcome in E. inversion E as [|? Hp _ _ Hv Hin _|? Hp _ _ _ Hs _ _ _]; subst.
  - pose proof (vo_key _ _ (no_votes _ Hok) _ _ _ _ Hin) as (-> & _). exact (prop_height _ _ _ Hp).
  - pose proof (SignStageVote_fields _ _ _ _ _ _ _ Hs) as (-> & _). exact (prop_height _ _ _ Hp).
Qed.

(** A step adds at most the commit it is given, once verified. *)
Lemma node_step_commits n l n' :
  node_ok n -> node_step n l n' ->
  nd_commits n' = nd_commits n \/
  exists c, l = LCommit c /\ nd_commits n' = (nd_commits n ++ [c])%list.
Proof.
  intros Hok Hstep. inversion Hstep as [now p stage qc ? v Hst E|now p stage qc ? e Hst E
    |now c|now h r|r|record|? Hc]; subst.
  - apply voteForProposal_outcome in E.
    inversion E as [|? _ Hl _ _|? _ _ _ _ _ Hl]; apply ledger_eq in Hl as (_ & _ & ? & _); by left.
  - apply voteForProposal_outcome in E.
    inversion E as [? Hl _ _| |]; apply ledger_eq in Hl as (_ & _ & ? & _); by left.
  - destruct (apply_commit_node_ok now c n Hok) as (_ & _ & [?|[? _]]); [by left|].
    right. by exists c.
  - left. apply markRound_frame.
  - left. destruct (saveEvidenceReceipt_outcome r n) as (s' & _ & Hc).
    by apply core_eq in Hc as (_ & _ & ? & _).
  - by left.
  - left. by apply core_eq in Hc as (_ & _ & ? & _).
Qed.
End steps.

(** The node after a restart over the same store. *)
Definition restarted {S} `{ValidatorStore S} (cfg : Config) (now : Time) (n : Node S) : Node S :=
  (loadPersistedState cfg now (fresh_node (nd_store n))).1.

(** A node over a store that holds its chain comes back with its chain, and without its votes. *)
Lemma restarted_spec {S} `{ReliableStore S} cfg now (n : Node S) : durable cfg n ->
  let n' := restarted cfg now n in
  nd_commits n' = nd_commits n /\ nd_lastHash n' = nd_lastHash n /\ nd_state n' = nd_state n /\
  nd_store n' = nd_store n /\ durable cfg n' /\ nd_votes n' = ∅ /\ nd_proposals n' = ∅ /\ nd_currentRound n' = ∅ /\
  l_Height (nd_lock n') = (if decide (nd_commits n = []) then 0 else height_of n).
Proof.
  intros Hd. destruct (ListCommits_total (nd_store n)) as [records Hr].
  destruct (LoadValidatorState_total (nd_store n)) as [saved Hs].
  destruct (load_recovers cfg now n (fresh_node (nd_store n)) records saved Hd eq_refl Hr Hs)
    as (n1 & E & ? & ? & ? & ? & ? & ? & ? & ? & _ & Hnil & Hcons).
  unfold restarted. rewrite E. cbn [fst]. split_and!; try done.
  destruct (decide (nd_commits n = [])) as [Hc|Hc]; [by rewrite Hnil|by apply Hcons].
Qed.

(** ** The system *)

Record World (S : Type) := mkWorld {
  w_node : string -> Node S;     (* the honest nodes, by id *)
  w_sent : list Vote             (* the votes they have signed *)
}.
Arguments mkWorld {S}.
Arguments w_node {S}.
Arguments w_sent {S}.

(** A group of validators: the identities and the threshold they share, the
    honest ones among them, and a bound on the others.  Whatever membership a
    commit names, the identities it is checked against are these: there is no
    manifest, or the manifests known all have them. *)
Record group (cfgs : string -> Config) (honest : gset string)
  (identities : gmap string ValidatorIdentity) (verifier : SignatureVerifier) (threshold : Z)
  (faulty : nat) : Prop := {
  g_id i : i ∈ honest -> cfg_ID (cfgs i) = i;
  g_verifier i : i ∈ honest -> n_verifier (cfgs i) = verifier;
  g_threshold i : i ∈ honest -> cfg_Threshold (cfgs i) = threshold;
  g_membership i version hash set :
    i ∈ honest -> membershipSet (cfgs i) version hash = Ok set -> mi_identities set = identities;
  g_faulty : (size (dom identities ∖ honest) <= faulty)%nat;
  g_quorum : Z.of_nat (size identities + faulty) < 2 * threshold
}.

(** Without a manifest the membership is the identities of the node; with one, it is what
    the known manifests say. *)
Lemma shared_membership cfg identities version hash set :
  (n_manifest cfg = None -> n_identities cfg = identities) ->
  (forall h known, n_manifest cfg <> None -> n_identitySets cfg !! h = Some known -> mi_identities known = identities) ->
  membershipSet cfg version hash = Ok set -> mi_identities set = identities.
Proof.
  unfold membershipSet. intros Hnone Hsets. destruct (n_manifest cfg) as [m|] eqn:Em.
  - destruct (_ || _); [done|]. destruct (n_identitySets cfg !! hash) as [known|] eqn:E; [|done].
    destruct (negb _); [done|]. intros [= <-]. by eapply Hsets.
  - intros [= <-]. by apply Hnone.
Qed.

Section validators.
Context {S : Type} `{ReliableStore S}.
#[local] Set Default Proof Using "Type*".
Context (cfgs : string -> Config) (honest : gset string)
  (identities : gmap string ValidatorIdentity) (verifier : SignatureVerifier) (threshold : Z)
  (faulty : nat).

(** A commit can be presented when the honest nodes have signed the valid votes
    its certificate shows of them: signatures are not forged. *)
Definition producible (sent : list Vote) (c : CommitRequest) : Prop :=
  forall v, v ∈ qc_Votes (c_Certificate c) -> v_VoterID v ∈ honest ->
  valid_vote identities verifier (normalize_vote v) ->
  exists v', v' ∈ sent /\ vote_payload v' = vote_payload (normalize_vote v).

Definition update_node (i : string) (n : Node S) (nodes : string -> Node S) : string -> Node S :=
  fun j => if String.eqb i j then n else nodes j.

(** Every vote a node remembers is for a height it has committed. *)
Definition no_vote_pending (n : Node S) : Prop :=
  forall h r stage v, nd_votes n !! (h, r, stage) = Some v -> h <= height_of n.

(** A step of one node, or its restart, over a store that holds its chain and with no vote
    pending: the votes of a node are not on disk. *)
Inductive world_step (w : World S) : World S -> Prop :=
| world_node i l n' :
    i ∈ honest -> node_step (cfgs i) (w_node w i) l n' ->
    match l with LCommit c => producible (w_sent w) c | _ => True end ->
    world_step w (mkWorld (update_node i n' (w_node w))
                    (match l with LVote v => v :: w_sent w | _ => w_sent w end))
| world_restart i now :
    i ∈ honest -> durable (cfgs i) (w_node w i) -> no_vote_pending (w_node w i) ->
    world_step w (mkWorld (update_node i (restarted (cfgs i) now (w_node w i)) (w_node w)) (w_sent w)).

(** The nodes start as [NewNode] leaves them, over empty stores. *)
Definition initial (w : World S) : Prop :=
  w_sent w = [] /\
  forall i, i ∈ honest -> exists store : S,
    w_node w i = fresh_node store /\ committed store = ∅.

Inductive reachable : World S -> Prop :=
| reach_initial w : initial w -> reachable w
| reach_step w w' : reachable w -> world_step w w' -> reachable w'.

(** A vote that was signed is remembered until its height is committed. *)
Definition accounted (n : Node S) (v : Vote) : Prop :=
  v_Height v <= height_of n \/ nd_votes n !! (v_Height v, v_Round v, v_Stage v) = Some v.

(** No validator signs precommits for two blocks of a height. *)
Definition single_precommits (sent : list Vote) : Prop :=
  forall v v', v ∈ sent -> v' ∈ sent -> v_VoterID v = v_VoterID v' -> v_Height v = v_Height v' ->
  v_Stage v = StagePrecommit -> v_Stage v' = StagePrecommit -> v_BlockHash v = v_BlockHash v'.

Record world_ok (w : World S) : Prop := {
  wo_node i : i ∈ honest -> node_ok (cfgs i) (w_node w i);
  wo_sent v : v ∈ w_sent w -> v_VoterID v ∈ honest /\ accounted (w_node w (v_VoterID v)) v;
  wo_once : single_precommits (w_sent w);
  wo_commits i c : i ∈ honest -> c ∈ nd_commits (w_node w i) -> producible (w_sent w) c
}.

Lemma producible_mono sent sent' c : sent ⊆ sent' -> producible sent c -> producible sent' c.
Proof using Type. intros Hs Hp v Hv Hh Hok. destruct (Hp v Hv Hh Hok) as (v' & ? & ?). exists v'. auto. Qed.

Lemma update_node_eq i n nodes : update_node i n nodes i = n.
Proof using Type. unfold update_node. by rewrite String.eqb_refl. Qed.

Lemma update_node_ne i j n nodes : i <> j -> update_node i n nodes j = nodes j.
Proof using Type. intros Hne. unfold update_node. by rewrite (proj2 (String.eqb_neq _ _) Hne). Qed.

Lemma fresh_node_ok cfg (store : S) :
  committed store = ∅ -> node_ok cfg (fresh_node store).
Proof.
  intros Hc. constructor; [constructor|intros h _; cbn; by rewrite Hc|].
  constructor; cbn; intros *; rewrite lookup_empty; discriminate.
Qed.

(** The votes a node remembers are those it had, and the one it makes visible. *)
Lemma step_recorded cfg (n : Node S) l n' k v : node_ok cfg n -> node_step cfg n l n' ->
  nd_votes n' !! k = Some v -> nd_votes n !! k = Some v \/ l = LVote v.
Proof using Type*.
  intros Hok Hstep. inversion Hstep as [now p st qc ? ? Hst E|now p st qc ? e Hst E
    |now c|now h0 r0|r0|record|? Hc]; subst.
  - apply voteForProposal_outcome in E. inversion E as [|? _ _ _ Hv _ _|? _ _ _ _ _ _ _ Hv]; subst; rewrite Hv; [by left|].
    intros [[_ ->]|[_ ?]]%lookup_insert_Some; [by right|by left].
  - apply voteForProposal_outcome in E. inversion E as [? _ _ Hv| |]. rewrite Hv. by left.
  - destruct (apply_commit_node_ok cfg now c n Hok) as (_ & -> & _). by left.
  - destruct (markRound_frame cfg now h0 r0 n) as (_ & _ & _ & _ & _ & ->). by left.
  - destruct (saveEvidenceReceipt_outcome r0 n) as (s' & _ & Hc).
    apply core_eq in Hc as (_ & _ & _ & _ & _ & _ & Ev & _). rewrite Ev. by left.
  - by left.
  - apply core_eq in Hc as (_ & _ & _ & _ & _ & _ & Ev & _). rewrite Ev. by left.
Qed.

Lemma restarted_node_ok cfg now (n : Node S) : durable cfg n -> node_ok cfg n -> node_ok cfg (restarted cfg now n).
Proof using Type*.
  intros Hd Hok. destruct (restarted_spec cfg now n Hd) as (Ec & El & Em & Es & Hd' & Ev & _).
  constructor; [exact (du_chain _ _ Hd')| |].
  - intros h. rewrite Es. unfold height_of. rewrite Ec. apply (no_absent _ _ Hok).
  - constructor; rewrite Ev; intros *; rewrite lookup_empty; discriminate.
Qed.

(** In a reachable state every honest node is sound, and has signed what it remembers. *)
Lemma reachable_nodes w i : reachable w -> i ∈ honest ->
  node_ok (cfgs i) (w_node w i) /\ forall k v, nd_votes (w_node w i) !! k = Some v -> v ∈ w_sent w.
Proof using Type*.
  intros Hr Hi. induction Hr as [w [Hs Hin]|w w' _ [Hok Hrec] Hstep].
  - destruct (Hin i Hi) as (store & -> & ?). split; [by apply fresh_node_ok|].
    intros k v. cbn. by rewrite lookup_empty.
  - inversion Hstep as [j l n' Hj Hnode _|j now Hj Hd Hpend]; subst; cbn [w_node w_sent];
      (destruct (decide (j = i)) as [->|Hne]; [rewrite update_node_eq|rewrite update_node_ne by done]).
    + split; [by eapply node_step_ok|]. intros k v Hv.
      destruct (step_recorded _ _ _ _ _ _ Hok Hnode Hv) as [Hold| ->]; [|by left].
      apply Hrec in Hold. destruct l; [done|by right|done].
    + split; [done|]. intros k v Hv. apply Hrec in Hv. destruct l; [done|by right|done].
    + split; [by apply restarted_node_ok|]. intros k v.
      destruct (restarted_spec (cfgs i) now (w_node w i) Hd) as (_ & _ & _ & _ & _ & -> & _). by rewrite lookup_empty.
    + by split.
Qed.

Context (Hgroup : group cfgs honest identities verifier threshold faulty).

(** A vote stays accounted for, and a new one agrees with those before it. *)
Lemma step_accounted cfg (n : Node S) l n' v :
  node_ok cfg n -> node_step cfg n l n' -> height_of n <= height_of n' -> accounted n v -> accounted n' v.
Proof using Type*.
  intros Hok Hstep Hh [Hle|Hin]; [left; lia|]. right.
  destruct (node_step_votes _ _ _ _ Hok Hstep) as [Hsub _]. by eapply lookup_weaken.
Qed.

Lemma node_step_height cfg (n : Node S) l n' : node_ok cfg n -> node_step cfg n l n' -> height_of n <= height_of n'.
Proof using Type*.
  intros Hok Hstep. unfold height_of.
  destruct (node_step_commits _ _ _ _ Hok Hstep) as [->|(c & _ & ->)]; [done|]. rewrite length_app. lia.
Qed.

Lemma new_vote_agrees w i v n' : world_ok w -> i ∈ honest -> node_step (cfgs i) (w_node w i) (LVote v) n' ->
  single_precommits (v :: w_sent w).
Proof.
  intros [Hn Hs Ho _] Hi Hstep. pose proof (Hn i Hi) as Hok.
  destruct (node_step_votes _ _ _ _ Hok Hstep) as [Hsub (Hid & _ & Hin)].
  rewrite (g_id _ _ _ _ _ _ Hgroup i Hi) in Hid.
  pose proof (node_step_signed _ _ _ _ Hok Hstep) as Hh.
  pose proof (vo_once _ _ (no_votes _ _ (node_step_ok _ _ _ _ Hok Hstep))) as Honce.
  assert (Hold : forall v', v' ∈ w_sent w -> v_VoterID v' = i -> v_Height v' = v_Height v ->
    v_Stage v = StagePrecommit -> v_Stage v' = StagePrecommit -> v_BlockHash v' = v_BlockHash v).
  { intros v' Hv' Hid' Hh' Hst Hst'. destruct (Hs v' Hv') as [_ Hacc]. rewrite Hid' in Hacc.
    destruct Hacc as [Hle|Hrec]; [lia|]. rewrite Hst', Hh' in Hrec. rewrite Hst in Hin.
    eapply lookup_weaken in Hrec; [|exact Hsub]. by eapply Honce. }
  intros v1 v2 [->|Hv1]%elem_of_cons [->|Hv2]%elem_of_cons Hv Hhe Hs1 Hs2; [done|..|by eapply Ho].
  - symmetry. apply Hold; done || congruence.
  - apply Hold; done || congruence.
Qed.

(** Replacing one node of a sound world. *)
Lemma world_replace w i n' sent :
  world_ok w -> i ∈ honest -> node_ok (cfgs i) n' -> w_sent w ⊆ sent -> single_precommits sent ->
  (forall v, v ∈ sent -> v ∈ w_sent w \/ (v_VoterID v = i /\ accounted n' v)) ->
  (forall v, v ∈ w_sent w -> v_VoterID v = i -> accounted n' v) ->
  (forall c, c ∈ nd_commits n' -> producible sent c) ->
  world_ok (mkWorld (update_node i n' (w_node w)) sent).
Proof using Type*.
  intros [Hn Hs _ Hc] Hi Hok Hsub Honce Hnew Hacc Hcs. constructor; cbn [w_node w_sent]; [..|exact Honce|].
  - intros j Hj. destruct (decide (i = j)) as [<-|Hne]; [by rewrite update_node_eq|rewrite update_node_ne by done; auto].
  - intros v [Hv|[Hid Ha]]%Hnew; [|rewrite Hid, update_node_eq; by split].
    destruct (Hs v Hv) as [Hh Ha]. split; [done|]. destruct (decide (i = v_VoterID v)) as [Ei|Hne].
    + rewrite <-Ei, update_node_eq. by apply Hacc.
    + by rewrite update_node_ne.
  - intros j c Hj. destruct (decide (i = j)) as [<-|Hne]; [rewrite update_node_eq; apply Hcs|].
    rewrite update_node_ne by done. intros Hin. apply (producible_mono (w_sent w)); [done|]. by eapply Hc.
Qed.

Lemma node_world_ok w i l n' : world_ok w -> i ∈ honest -> node_step (cfgs i) (w_node w i) l n' ->
  match l with LCommit c => producible (w_sent w) c | _ => True end ->
  world_ok (mkWorld (update_node i n' (w_node w)) (match l with LVote v => v :: w_sent w | _ => w_sent w end)).
Proof.
  intros Hw Hi Hnode Hl. pose proof (wo_node _ Hw i Hi) as Hok.
  destruct (node_step_votes _ _ _ _ Hok Hnode) as [_ Hvote].
  assert (Hsub : w_sent w ⊆ match l with LVote v => v :: w_sent w | _ => w_sent w end) by (destruct l; set_solver).
  apply world_replace; [done|done|by eapply node_step_ok|exact Hsub|..].
  - destruct l as [|v|c]; [exact (wo_once _ Hw)|by eapply new_vote_agrees|exact (wo_once _ Hw)].
  - intros v Hv. destruct l as [|v0|c]; [by left| |by left]. apply elem_of_cons in Hv as [->|Hv]; [|by left].
    right. destruct Hvote as (Hid & _ & Hin). rewrite (g_id _ _ _ _ _ _ Hgroup i Hi) in Hid. split; [done|]. by right.
  - intros v Hv Hid. destruct (wo_sent _ Hw v Hv) as [_ Ha]. rewrite Hid in Ha.
    eapply step_accounted; [exact Hok|exact Hnode|by eapply node_step_height|exact Ha].
  - intros c Hin. apply (producible_mono (w_sent w)); [done|].
    destruct (node_step_commits _ _ _ _ Hok Hnode) as [E|(c' & -> & E)]; rewrite E in Hin; [by eapply (wo_commits _ Hw i)|].
    apply elem_of_app in Hin as [Hin| ->%list_elem_of_singleton]; [by eapply (wo_commits _ Hw i)|done].
Qed.

Lemma restart_world_ok w i now : world_ok w -> i ∈ honest -> durable (cfgs i) (w_node w i) ->
  no_vote_pending (w_node w i) ->
  world_ok (mkWorld (update_node i (restarted (cfgs i) now (w_node w i)) (w_node w)) (w_sent w)).
Proof.
  intros Hw Hi Hd Hpend. destruct (restarted_spec (cfgs i) now (w_node w i) Hd) as (Ec & _).
  assert (Hh : height_of (restarted (cfgs i) now (w_node w i)) = height_of (w_node w i)) by (unfold height_of; by rewrite Ec).
  apply world_replace; [done|done| |done|exact (wo_once _ Hw)|by left|..].
  - by apply restarted_node_ok, (wo_node _ Hw).
  - intros v Hv Hid. destruct (wo_sent _ Hw v Hv) as [_ Ha]. rewrite Hid in Ha. left. rewrite Hh.
    destruct Ha as [|Hin]; [done|]. by eapply Hpend.
  - intros c. rewrite Ec. by apply (wo_commits _ Hw).
Qed.

Lemma reachable_ok w : reachable w -> world_ok w.
Proof.
  induction 1 as [w [Hs Hi]|w w' _ IH Hstep].
  - assert (Hf : forall i, i ∈ honest -> exists store, w_node w i = fresh_node store /\ committed store = ∅) by exact Hi.
    constructor; rewrite ?Hs.
    + intros i Hin. destruct (Hf i Hin) as (store & -> & ?). by apply fresh_node_ok.
    + intros v []%elem_of_nil.
    + intros v v' []%elem_of_nil.
    + intros i c Hin. destruct (Hf i Hin) as (store & -> & _). intros []%elem_of_nil.
  - inversion Hstep; subst; [by apply node_world_ok|by apply restart_world_ok].
Qed.

(** The voters of a commit a node holds: distinct members, at least the threshold
    of them, and the honest ones have signed a precommit for its block. *)
Lemma commit_voters w i c k :
  world_ok w -> i ∈ honest -> nd_commits (w_node w i) !! k = Some c ->
  b_Height (c_Block c) = Z.of_nat k + 1 /\
  NoDup (map v_VoterID (qc_Votes (c_Certificate c))) /\
  map v_VoterID (qc_Votes (c_Certificate c)) ⊆ elements (dom identities) /\
  threshold <= Z.of_nat (length (map v_VoterID (qc_Votes (c_Certificate c)))) /\
  forall id, id ∈ map v_VoterID (qc_Votes (c_Certificate c)) -> id ∈ honest ->
    exists v, v ∈ w_sent w /\ v_VoterID v = id /\ v_Height v = Z.of_nat k + 1 /\ v_Stage v = StagePrecommit /\
              v_BlockHash v = hash_of (c_Block c).
Proof.
  intros [Hn Hs _ Hc] Hi Hk.
  pose proof (chain_from_lookup (cfgs i) _ _ _ _ _ _ _ _ (no_chain _ _ (Hn i Hi)) Hk)
    as [Hv Hh]. cbn in Hh.
  pose proof (Hc i c Hi (list_elem_of_lookup_2 _ _ _ Hk)) as Hp.
  apply verifyCommit_facts in Hv as (Eb & Eh & _ & Es & Et & set & Hset & _ & Hq).
  unfold membershipSetForCommit in Hset. case_match; [done|].
  apply (g_membership _ _ _ _ _ _ Hgroup i _ _ _ Hi) in Hset.
  rewrite Hset, (g_verifier _ _ _ _ _ _ Hgroup i Hi) in Hq.
  rewrite (g_threshold _ _ _ _ _ _ Hgroup i Hi) in Et.
  apply certificate_facts in Hq as (_ & _ & _ & _ & _ & Hf & Hnd & _ & Hl).
  split_and!; [done|done| |rewrite length_map; lia|].
  - intros id (v & -> & Hin)%list_elem_of_fmap. apply elem_of_elements, elem_of_dom.
    rewrite Forall_forall in Hf.
    destruct (Hf v Hin) as (_ & _ & _ & _ & _ & voter & _ & Hid & _). by exists voter.
  - intros id (v & -> & Hin)%list_elem_of_fmap Hh'. rewrite Forall_forall in Hf.
    destruct (Hf v Hin) as (Vh & _ & Vs & Vb & _ & Hvalid).
    destruct (Hp v Hin Hh' Hvalid) as (v' & Hsent & Hpay).
    injection Hpay as Ph Pr Ps Pb Pi _. cbn in *. exists v'. split_and!; try done; try congruence. by rewrite Ps, Vs, Es.
Qed.

(** Two commits at one height have an honest voter in common. *)
Lemma common_voter w i j k ci cj :
  world_ok w -> i ∈ honest -> j ∈ honest ->
  nd_commits (w_node w i) !! k = Some ci -> nd_commits (w_node w j) !! k = Some cj ->
  exists id, id ∈ honest /\ id ∈ map v_VoterID (qc_Votes (c_Certificate ci)) /\
             id ∈ map v_VoterID (qc_Votes (c_Certificate cj)).
Proof.
  intros Hw Hi Hj Hci Hcj.
  destruct (commit_voters _ _ _ _ Hw Hi Hci) as (_ & Hd1 & Hs1 & Hl1 & _).
  destruct (commit_voters _ _ _ _ Hw Hj Hcj) as (_ & Hd2 & Hs2 & Hl2 & _).
  pose proof (g_quorum _ _ _ _ _ _ Hgroup) as Hq. pose proof (g_faulty _ _ _ _ _ _ Hgroup) as Hfl.
  assert (HU : (length (elements (dom identities)) <= size identities)%nat)
    by (rewrite <-size_dom; done).
  pose proof (quorum_intersection _ _ _ _ faulty Hd1 Hd2 Hs1 Hs2 HU ltac:(lia)) as Hlen.
  set (both := filter _ _) in Hlen.
  destruct (decide (Exists (.∈ honest) both)) as [(id & Hin & Hh)%Exists_exists|Hno].
  { apply list_elem_of_filter in Hin as [Hin2 Hin1]. by exists id. }
  exfalso. assert (Hle : (length both <= length (elements (dom identities ∖ honest)))%nat).
  { apply submseteq_length, NoDup_submseteq; [by apply NoDup_filter|].
    intros id Hin. pose proof Hin as [_ Hin1]%list_elem_of_filter. apply elem_of_elements, elem_of_difference.
    split; [by apply elem_of_elements, Hs1|]. intros Hh. apply Hno, Exists_exists. by exists id. }
  change (length (elements (dom identities ∖ honest))) with (size (dom identities ∖ honest)) in Hle.
  lia.
Qed.

(** C1: agreement.  Let the honest validators share a threshold [t], and one set of [n]
    identities whatever membership a commit names - as they do without a manifest, or when
    the manifests they know all have the same validators - of which at most [f] are not
    honest, with n + f < 2t; let their stores not fail; and let nobody show a vote of an
    honest validator that it has not signed.  Then in every state the group reaches from
    empty stores, whatever else the others and the network present and however the honest
    nodes interleave their operations, two honest nodes never hold different blocks at a
    height.  Restarts are among the steps, of a node whose store holds its chain and that
    has cast no vote at a height it has not committed: votes are not on disk. *)
Theorem agreement w i j k ci cj :
  reachable w -> i ∈ honest -> j ∈ honest ->
  nd_commits (w_node w i) !! k = Some ci -> nd_commits (w_node w j) !! k = Some cj ->
  hash_of (c_Block ci) = hash_of (c_Block cj).
Proof.
  intros Hr Hi Hj Hci Hcj. pose proof (reachable_ok w Hr) as Hw.
  destruct (common_voter _ _ _ _ _ _ Hw Hi Hj Hci Hcj) as (id & Hh & Hi1 & Hi2).
  destruct (commit_voters _ _ _ _ Hw Hi Hci) as (_ & _ & _ & _ & Hv1).
  destruct (commit_voters _ _ _ _ Hw Hj Hcj) as (_ & _ & _ & _ & Hv2).
  destruct (Hv1 id Hi1 Hh) as (v1 & Hs1 & Hid1 & Hh1 & Hst1 & <-), (Hv2 id Hi2 Hh) as (v2 & Hs2 & Hid2 & Hh2 & Hst2 & <-).
  apply (wo_once _ Hw); done || congruence.
Qed.
End validators.

(** *** Witness

    Four validators, one of them faulty: [v1], [v2] and [v3] precommit the first
    block and [v1] and [v2] commit it. *)
Definition demo_honest : gset string := {["v1"; "v2"; "v3"]}.

Definition demo_b1 : Block := demo_block "v1" 0 "pay" demo_node.

Definition demo_prevote_qc : QuorumCertificate :=
  demo_certificate demo_b1 StagePrevote 3 ["v1"; "v2"; "v3"].

Definition demo_precommit (id : string) : Node MemoryStore * result Vote :=
  voteForProposal (demo_config id) (mkTime 6 "t") (demo_proposal demo_b1 "v1") StagePrecommit
    (Some demo_prevote_qc) demo_node.

Definition demo_commit : CommitRequest := demo_commit_of demo_b1 ["v1"; "v2"; "v3"].

Definition demo_committed (id : string) : Node MemoryStore :=
  (ApplyCommit (demo_config id) (mkTime 9 "t") demo_commit (demo_precommit id).1).1.

Definition demo_world : World MemoryStore :=
  mkWorld
    (update_node "v2" (demo_committed "v2") (update_node "v1" (demo_committed "v1")
      (update_node "v3" (demo_precommit "v3").1 (update_node "v2" (demo_precommit "v2").1
        (update_node "v1" (demo_precommit "v1").1 (fun _ => demo_node))))))
    (map (demo_stage_vote demo_b1 StagePrecommit) ["v3"; "v2"; "v1"]).

Lemma demo_group :
  group demo_config demo_honest (demo_identities demo_ids) demo_verifier 3 1.
Proof.
  constructor; try done. intros i version hash set _. by apply shared_membership.
Qed.

(** Each of the three nodes casts the vote the certificate shows. *)
Lemma demo_precommits id :
  In id ["v1"; "v2"; "v3"] ->
  (demo_precommit id).2 = Ok (demo_stage_vote demo_b1 StagePrecommit id).
Proof. intros [<-|[<-|[<-|[]]]]; vm_compute; reflexivity. Qed.

Lemma demo_is_honest id : In id ["v1"; "v2"; "v3"] -> id ∈ demo_honest.
Proof. unfold demo_honest. intros [<-|[<-|[<-|[]]]]; set_solver. Qed.

Lemma demo_precommit_step (w : World MemoryStore) id :
  In id ["v1"; "v2"; "v3"] -> w_node w id = demo_node ->
  world_step demo_config demo_honest (demo_identities demo_ids) demo_verifier w
    (mkWorld (update_node id (demo_precommit id).1 (w_node w))
       (demo_stage_vote demo_b1 StagePrecommit id :: w_sent w)).
Proof.
  intros Hid Hn. apply (world_node _ _ _ _ w id (LVote (demo_stage_vote demo_b1 StagePrecommit id)));
    [|rewrite Hn|done].
  - exact (demo_is_honest id Hid).
  - apply (step_vote _ _ (mkTime 6 "t") (demo_proposal demo_b1 "v1") StagePrecommit
             (Some demo_prevote_qc)); [reflexivity|].
    rewrite <-(demo_precommits id Hid). apply surjective_pairing.
Qed.

Lemma demo_commit_step nodes sent id :
  In id ["v1"; "v2"; "v3"] -> nodes id = (demo_precommit id).1 ->
  sent = map (demo_stage_vote demo_b1 StagePrecommit) ["v3"; "v2"; "v1"] ->
  world_step demo_config demo_honest (demo_identities demo_ids) demo_verifier (mkWorld nodes sent)
    (mkWorld (update_node id (demo_committed id) nodes) sent).
Proof.
  intros Hid Hn Hsent.
  apply (world_node _ _ _ _ (mkWorld nodes sent) id (LCommit demo_commit)); cbn [w_node w_sent].
  - exact (demo_is_honest id Hid).
  - rewrite Hn. unfold demo_committed. generalize (demo_precommit id).1. intros n. apply step_commit.
  - intros v Hv _ _. exists v. split; [|].
    + rewrite Hsent. change (qc_Votes _)
        with (map (demo_stage_vote demo_b1 StagePrecommit) ["v1"; "v2"; "v3"]) in Hv.
      apply list_elem_of_fmap in Hv as (x & -> & Hx). apply list_elem_of_fmap. exists x.
      split; [reflexivity|]. apply list_elem_of_In in Hx. apply list_elem_of_In. clear -Hx.
      cbn in *. tauto.
    + change (qc_Votes _)
        with (map (demo_stage_vote demo_b1 StagePrecommit) ["v1"; "v2"; "v3"]) in Hv.
      apply list_elem_of_fmap in Hv as (x & -> & Hx). apply list_elem_of_In in Hx.
      destruct Hx as [<-|[<-|[<-|[]]]]; vm_compute; reflexivity.
Qed.

Lemma demo_reachable :
  reachable demo_config demo_honest (demo_identities demo_ids) demo_verifier demo_world.
Proof.
  assert (Hin : forall i, i ∈ ["v1"; "v2"; "v3"] -> In i ["v1"; "v2"; "v3"])
    by (intros i; apply list_elem_of_In).
  eapply reach_step; [eapply reach_step; [eapply reach_step; [eapply reach_step;
    [eapply reach_step; [apply (reach_initial _ _ _ _ (mkWorld (fun _ => demo_node) []))|]|]|]|]|].
  - split; [done|]. intros i _. by exists NewMemoryStore.
  - by apply (demo_precommit_step _ "v1"); [left|].
  - by apply (demo_precommit_step _ "v2"); [right; left|].
  - by apply (demo_precommit_step _ "v3"); [right; right; left|].
  - apply (demo_commit_step _ _ "v1"); [by left|done|done].
  - apply (demo_commit_step _ _ "v2"); [by right; left|done|done].
Qed.

Lemma agreement_witness :
  exists c1 c2, nd_commits (w_node demo_world "v1") !! 0%nat = Some c1 /\
    nd_commits (w_node demo_world "v2") !! 0%nat = Some c2 /\
    hash_of (c_Block c1) = hash_of (c_Block c2).
Proof.
  assert (H1 : nd_commits (w_node demo_world "v1") !! 0%nat = Some demo_commit)
    by (vm_compute; reflexivity).
  assert (H2 : nd_commits (w_node demo_world "v2") !! 0%nat = Some demo_commit)
    by (vm_compute; reflexivity).
  exists demo_commit, demo_commit. refine (conj H1 (conj H2 _)).
  refine (agreement demo_config demo_honest (demo_identities demo_ids) demo_verifier 3 1 demo_group
            demo_world "v1" "v2" 0 demo_commit demo_commit demo_reachable _ _ H1 H2);
    apply demo_is_honest; cbn; tauto.
Defined.

(** ** Limits *)

