(* ===== verification/NodeRun.v ===== *)
(** * The service as steps of the node

    Every operation of the node and every HTTP handler is a sequence of the
    critical sections [NodeSafety] takes as the steps of a node, so that what
    holds of every reachable state of the group holds whatever requests the
    honest nodes serve. *)

From S2P Require Import Prelude Sha256 Json JsonParse JsonDecode Identity State Protocol Codec Store Consortium Anchors Evidence Auth Observability RateLimit Signing Node NodeApi NodeInit NodeProps NodeVotes NodeRecovery NodeSafety.
Local Open Scope Z_scope.

Section runs.
Context {S : Type} `{ValidatorStore S} (cfg : Config).
Local Abbreviation op := (M (Node S)).

(** A sequence of steps and what they make visible. *)
Inductive steps (n : Node S) : list label -> Node S -> Prop :=
| steps_nil : steps n [] n
| steps_cons l n1 ls n2 : node_step cfg n l n1 -> steps n1 ls n2 -> steps n (l :: ls) n2.

Lemma steps_one n l n' : node_step cfg n l n' -> steps n [l] n'.
Proof. intros Hs. econstructor; [exact Hs|constructor]. Qed.

Lemma steps_app n ls n1 ls' n2 : steps n ls n1 -> steps n1 ls' n2 -> steps n (ls ++ ls') n2.
Proof. induction 1 as [|n l n0 ls n1 Hs _ IH]; [done|]. intros Hs'. econstructor; eauto. Qed.

(** An operation that is a sequence of steps, from any state. *)
Definition runs {A} (m : op A) : Prop := forall n, exists ls, steps n ls (m n).1.

Lemma runs_silent {A} (m : op A) : silent m -> runs m.
Proof. intros Hm n. exists [LTau]. apply steps_one. constructor. apply Hm. Qed.

Lemma runs_bind {A B} (m : op A) (f : A -> op B) : runs m -> (forall a, runs (f a)) -> runs (m ≫= f).
Proof.
  intros Hm Hf n. rewrite run_bind. destruct (Hm n) as [ls Hls].
  destruct (m n) as [n' [a|e]]; [|by exists ls].
  destruct (Hf a n') as [ls' Hls']. exists (ls ++ ls')%list. by eapply steps_app.
Qed.

Lemma runs_attempt {A} (m : op A) : runs m -> runs (attempt m).
Proof. intros Hm n. destruct (Hm n) as [ls Hls]. exists ls. unfold attempt. by destruct (m n). Qed.

Lemma runs_vote now p stage qc : IsVoteStage stage = true -> runs (voteForProposal cfg now p stage qc).
Proof.
  intros Hst n. destruct (voteForProposal cfg now p stage qc n) as [n' [v|e]] eqn:E;
    eexists; apply steps_one; [by eapply step_vote|by eapply step_refuse].
Qed.

Lemma runs_ApplyCommit now c : runs (ApplyCommit cfg now c).
Proof. intros n. eexists. apply steps_one, step_commit. Qed.

Lemma runs_markRound now h r : runs (markRound cfg now h r).
Proof. intros n. eexists. apply steps_one, step_round. Qed.

Lemma runs_saveEvidenceReceipt r : runs (saveEvidenceReceipt r).
Proof. intros n. eexists. apply steps_one, step_receipt. Qed.
End runs.

Create HintDb runs.

#[export] Hint Resolve runs_vote runs_ApplyCommit runs_markRound runs_saveEvidenceReceipt
  runs_attempt : runs.
#[export] Hint Resolve silent_requestPrevote silent_requestPrecommit silent_collect_votes
  silent_broadcast silent_form_certificate silent_newBlock silent_best_chain silent_probePeers
  silent_stored_receipt silent_verifyEvidenceReceipt : silent.

(** Decomposes an operation into its parts, the silent ones whole. *)
Ltac by_steps :=
  repeat first
    [ solve [auto with runs]
    | solve [apply runs_silent; silently]
    | apply runs_bind; [|intros ?]
    | apply runs_attempt
    | match goal with
      | |- runs _ (if ?b then _ else _) => destruct b
      | |- runs _ (match ?x with _ => _ end) => destruct x
      | |- runs _ (let '(_, _) := ?x in _) => destruct x
      end ].

Section operations.
Context {S : Type} `{ValidatorStore S} (cfg : Config).
Local Abbreviation op := (M (Node S)).

Lemma runs_proposeRound net now h r payload : runs cfg (proposeRound cfg net now h r payload : op _).
Proof. unfold proposeRound, openRound, certifyRound, commitRound. cbv zeta. by_steps. Qed.

Lemma runs_propose_rounds net now h payload fuel r e :
  runs cfg (propose_rounds cfg net now h payload fuel r e : op _).
Proof.
  unfold propose_rounds. revert r e.
  induction fuel as [|fuel IH]; intros r e; cbn [rounds_loop].
  - by_steps.
  - pose proof runs_proposeRound. by_steps.
Qed.

Lemma runs_Propose net now payload : runs cfg (Propose cfg net now payload : op _).
Proof. unfold Propose. pose proof runs_propose_rounds. by_steps. Qed.

Lemma runs_apply_all now i cs : runs cfg (apply_all cfg now i cs : op _).
Proof. revert i. induction cs as [|c cs IH]; intros i; cbn [apply_all]; by_steps. Qed.

Lemma runs_CatchUpFromPeers net now : runs cfg (CatchUpFromPeers cfg net now : op _).
Proof. unfold CatchUpFromPeers, appendEvent. pose proof runs_apply_all. by_steps. Qed.

Lemma runs_SubmitEvidence net now s : runs cfg (SubmitEvidence cfg net now s : op _).
Proof.
  unfold SubmitEvidence, submit_new, duplicate_submission. cbv zeta. pose proof runs_Propose. by_steps.
Qed.
End operations.

(** ** Handlers always answer *)

Section totality.
Context {S : Type}.
Local Abbreviation op := (M (Node S)).

Definition total {A} (m : op A) : Prop := forall n, is_ok (m n).2 = true.

Lemma total_bind {A B} (m : op A) (f : A -> op B) : total m -> (forall a, total (f a)) -> total (m ≫= f).
Proof.
  intros Hm Hf n. rewrite run_bind. specialize (Hm n). destruct (m n) as [n' [a|e]]; [apply Hf|done].
Qed.

Lemma total_attempt {A} (m : op A) : total (attempt m).
Proof. intros n. unfold attempt. by destruct (m n). Qed.

Lemma total_gets {A} (f : Node S -> A) : total (gets f).
Proof. by intros n. Qed.

Lemma total_ret {A} (a : A) : total (mret a : op A).
Proof. by intros n. Qed.

Lemma total_modify f : total (modify f : op unit).
Proof. by intros n. Qed.

Lemma total_metric f : total (metric f : op unit).
Proof. by intros n. Qed.
End totality.

Create HintDb total.
#[export] Hint Resolve total_attempt total_gets total_ret total_modify total_metric : total.

Ltac totally :=
  repeat first
    [ solve [auto with total]
    | apply total_bind; [|intros ?]
    | match goal with
      | |- total (if ?b then _ else _) => destruct b
      | |- total (match ?x with _ => _ end) => destruct x
      | |- total (let '(_, _) := ?x in _) => destruct x
      end ].

(** A handler: a sequence of steps that ends with a reply. *)
Definition handles {S} `{ValidatorStore S} (cfg : Config) (m : M (Node S) Reply) : Prop :=
  runs cfg m /\ total m.

Section handlers.
Context {S : Type} `{ValidatorStore S} (cfg : Config).
Local Abbreviation op := (M (Node S)).

Lemma silent_modify_store_free f : (forall n, core (f n) = core n) -> silent (modify f : op unit).
Proof. intros Hf n. apply Hf. Qed.

Lemma silent_writeJSON st b : silent (writeJSON st b : op Reply).
Proof. by intros n. Qed.

Lemma silent_readiness now : silent (Node_ReadinessReport cfg now : op _).
Proof. unfold Node_ReadinessReport. cbv zeta. silently. Qed.

Lemma total_readiness now : total (Node_ReadinessReport cfg now : op _).
Proof. unfold Node_ReadinessReport, recordStorageError. cbv zeta. totally. Qed.

Lemma silent_read_store {A} (f : S -> result A) : silent (read_store f : op A).
Proof. unfold read_store. silently. Qed.

Lemma total_writeJSON st b : total (writeJSON st b : op Reply).
Proof. by intros n. Qed.
End handlers.

#[export] Hint Resolve silent_writeJSON silent_readiness silent_read_store : silent.
#[export] Hint Resolve total_writeJSON total_readiness : total.
#[export] Hint Resolve runs_Propose runs_SubmitEvidence runs_CatchUpFromPeers : runs.

Section replies.
Context {S : Type} `{ValidatorStore S} (cfg : Config).
Local Abbreviation op := (M (Node S)).

Lemma silent_receiptSummaries records : silent (receiptSummaries cfg records : op _).
Proof. induction records as [|r records IH]; cbn [receiptSummaries]; silently. Qed.

Lemma silent_OperatorReport now a b : silent (Node_OperatorReport cfg now a b : op _).
Proof.
  unfold Node_OperatorReport. cbv zeta. pose proof silent_receiptSummaries. silently.
Qed.

Lemma runs_reply_with {A} (m : op A) status body : runs cfg m -> runs cfg (reply_with m status body).
Proof. intros Hm. unfold reply_with, writeError. by_steps. Qed.

Lemma total_reply_with {A} (m : op A) status body : total (reply_with m status body).
Proof. unfold reply_with, writeError. totally. Qed.

Lemma total_path_key root what r (k : string -> op Reply) :
  (forall key, total (k key)) -> total (path_key root what r k).
Proof. intros Hk. unfold path_key, writeError. cbv zeta. totally. Qed.

Lemma silent_path_key root what r (k : string -> op Reply) :
  (forall key, silent (k key)) -> silent (path_key root what r k).
Proof. intros Hk. unfold path_key, writeError. cbv zeta. silently. Qed.

Lemma silent_found_or_404 found (k : EvidenceReceipt -> op Reply) :
  (forall r, silent (k r)) -> silent (found_or_404 found k).
Proof. intros Hk. unfold found_or_404, writeError. silently. Qed.

Lemma total_found_or_404 found (k : EvidenceReceipt -> op Reply) :
  (forall r, total (k r)) -> total (found_or_404 found k).
Proof. intros Hk. unfold found_or_404, writeError. totally. Qed.

Lemma total_VerifyEvidenceReceipt r : total (VerifyEvidenceReceipt cfg r : op _).
Proof. unfold VerifyEvidenceReceipt, verifyEvidenceReceipt. cbv zeta. totally. Qed.

Lemma silent_VerifyEvidenceReceipt r : silent (VerifyEvidenceReceipt cfg r : op _).
Proof. unfold VerifyEvidenceReceipt. silently. Qed.

Lemma silent_ByID key : silent (EvidenceReceiptByID key : op _).
Proof. unfold EvidenceReceiptByID. silently. Qed.

Lemma silent_ByReceiptID key : silent (EvidenceReceiptByReceiptID key : op _).
Proof. unfold EvidenceReceiptByReceiptID. silently. Qed.

Lemma silent_ByQCHash key : silent (EvidenceReceiptByQCHash key : op _).
Proof. unfold EvidenceReceiptByQCHash. silently. Qed.
End replies.

#[export] Hint Resolve silent_OperatorReport silent_VerifyEvidenceReceipt silent_ByID
  silent_ByReceiptID silent_ByQCHash : silent.
#[export] Hint Resolve total_reply_with total_VerifyEvidenceReceipt : total.
#[export] Hint Resolve runs_reply_with : runs.

Section service.
Context {S : Type} `{ValidatorStore S} (cfg : Config).
Local Abbreviation op := (M (Node S)).
Local Abbreviation handles := (handles cfg).

Lemma handles_silent (m : op Reply) : silent m -> total m -> handles m.
Proof. intros Hs Ht. split; [by apply runs_silent|done]. Qed.

Lemma handles_reads r :
  handles (handleHealth cfg r) /\ handles (handleState cfg r) /\ handles (handleCommits r) /\
  handles (handlePeers r) /\ handles (handleMetrics cfg r).
Proof.
  unfold handleHealth, handleState, handleCommits, handlePeers, handleMetrics,
    renderPrometheusMetrics, writeError.
  split_and!; (apply handles_silent; [silently|totally]).
Qed.

Lemma handles_probes now r :
  handles (handleReady cfg now r) /\ handles (handleOpsLivez cfg now r) /\
  handles (handleOpsReadyz cfg now r).
Proof.
  unfold handleReady, handleOpsLivez, handleOpsReadyz.
  split_and!; (apply handles_silent; [silently|totally]).
Qed.

Lemma handles_consensus net now r :
  handles (handlePropose cfg net now r) /\ handles (handleProposal cfg now r) /\
  handles (handlePrecommit cfg now r) /\ handles (handleCommit cfg now r).
Proof.
  unfold handlePropose, propose_handler, handleProposal, handlePrecommit, handleCommit, writeError.
  split_and!; (split; [by_steps|totally]).
Qed.

Lemma handles_submit net now r : handles (handleEvidenceSubmitAuthorized cfg net now r).
Proof. unfold handleEvidenceSubmitAuthorized, writeError. split; [by_steps|totally]. Qed.

Lemma handles_gets r :
  handles (handleEvidenceGetAuthorized r) /\ handles (handleReceiptGetAuthorized r) /\
  handles (handleAnchorGetAuthorized r) /\ handles (handleVerifyAuthorized cfg r).
Proof.
  unfold handleEvidenceGetAuthorized, handleReceiptGetAuthorized, handleAnchorGetAuthorized,
    handleVerifyAuthorized, writeError. cbv zeta.
  split_and!; (apply handles_silent;
    [ repeat first [apply silent_path_key; intros ? | apply silent_found_or_404; intros ? |
                    progress silently]
    | repeat first [apply total_path_key; intros ? | apply total_found_or_404; intros ? |
                    progress totally] ]).
Qed.

Lemma handles_admin now r :
  handles (handleAuditRecentAuthorized r) /\ handles (handleOpsReportAuthorized cfg now r).
Proof.
  unfold handleAuditRecentAuthorized, handleOpsReportAuthorized, reply_with, writeError. cbv zeta.
  split_and!; (apply handles_silent; [silently|totally]).
Qed.
End service.

(** ** Serving requests *)

Section serving.
Context {S : Type} `{ValidatorStore S} (cfg : Config) (entries : list (string * APIKeyRecord)).
Local Abbreviation op := (M (Node S)).

Lemma runs_saveAuditRecord r principal status start reason :
  runs cfg (saveAuditRecord cfg r principal status start reason : op unit).
Proof.
  intros n. unfold saveAuditRecord. autorewrite with go_run. change (id n) with n.
  set (record := audit_record cfg r principal status start reason).
  destruct (SaveAudit (nd_store n) record) as [store [u|e]] eqn:E; autorewrite with go_run.
  - exists [LTau]. apply steps_one. replace store with (SaveAudit (nd_store n) record).1 by (by rewrite E).
    apply step_audit.
  - exists [LTau; LTau]. eapply (steps_cons _ _ _ (set_nd_store store n));
      [|apply steps_one, step_silent; done].
    replace store with (SaveAudit (nd_store n) record).1 by (by rewrite E). apply step_audit.
Qed.

Lemma handles_account r principal start reason (m : op Reply) :
  handles cfg m ->
  handles cfg (reply ← m; account cfg r principal start reason reply).
Proof.
  intros [Hr Ht]. unfold account. pose proof runs_saveAuditRecord. split.
  - apply runs_bind; [done|intros reply]. by_steps.
  - apply total_bind; [done|intros reply]. unfold saveAuditRecord, recordStorageError, appendEvent,
      appendEventLocked. totally.
Qed.

Lemma handles_error status e : handles cfg (writeError status e : op Reply).
Proof. unfold writeError. apply handles_silent; [silently|totally]. Qed.

(** Serving with a handler: steps of the node, and a reply. *)
Definition serves (h : Server S -> Server S * result Reply) : Prop :=
  forall sv, (exists ls, steps cfg (sv_node sv) ls (sv_node (h sv).1)) /\ is_ok (h sv).2 = true.

Lemma serves_on_node (m : op Reply) : handles cfg m -> serves (on_node m).
Proof.
  intros [Hr Ht] sv. unfold on_node. destruct (Hr (sv_node sv)) as [ls Hls].
  specialize (Ht (sv_node sv)). destruct (m (sv_node sv)) as [n reply]. split; [by exists ls|done].
Qed.

Lemma serves_external role h start r :
  handles cfg (h r) -> serves (withExternalAPI cfg entries role h start r).
Proof.
  intros Hh sv. unfold withExternalAPI.
  destruct (authorizeExternalAPI _ _ _ _ _) as [[[principal key] status] reason].
  destruct (Allow _ _ _) as [limiter allowed].
  destruct (if allowed then _ else _) as [st why].
  set (m := if negb (st =? 0) then _ else _).
  assert (Hm : handles cfg m)
    by (subst m; case_match; apply handles_account; [apply handles_error|done]).
  clearbody m. destruct Hm as [Hr Ht]. destruct (Hr (sv_node sv)) as [ls Hls].
  specialize (Ht (sv_node sv)). destruct (m (sv_node sv)) as [n reply]. split; [by exists ls|done].
Qed.

Lemma handles_peer h r : handles cfg (h r) -> handles cfg (withPeerAuth cfg h r).
Proof.
  intros Hh. unfold withPeerAuth. repeat case_match; try done. apply handles_error.
Qed.

Lemma serve_serves net start r h : serve cfg entries net start r = Some h -> serves h.
Proof.
  unfold serve. cbv zeta.
  pose proof (handles_reads cfg r) as (? & ? & ? & ? & ?).
  pose proof (handles_probes cfg (ck_Now start) r) as (? & _ & _).
  pose proof (handles_consensus cfg net (ck_Now start) r) as (? & ? & ? & ?).
  pose proof (handles_submit cfg net (ck_Now start) r).
  pose proof (handles_gets cfg r) as (? & ? & ? & ?).
  pose proof (handles_admin cfg (ck_Now start) r) as (? & ?).
  repeat (case_match; [intros [= <-];
    first [apply serves_on_node, handles_peer; assumption | apply serves_external; assumption]|]).
  done.
Qed.
End serving.

(** The steps of one honest node are steps of the group, as long as the
    commits it makes its own can be produced. *)
Section group_steps.
Context {S : Type} `{ReliableStore S}.
Context (cfgs : string -> Config) (honest : gset string)
  (identities : gmap string ValidatorIdentity) (verifier : SignatureVerifier).
#[local] Set Default Proof Using "Type*".

(** The votes a node remembers. *)
Definition recorded_votes (n : Node S) : list Vote := map snd (map_to_list (nd_votes n)).

Lemma elem_of_recorded n v : v ∈ recorded_votes n <-> exists k, nd_votes n !! k = Some v.
Proof.
  unfold recorded_votes. rewrite list_elem_of_fmap. split.
  - intros ([k v'] & -> & Hin%elem_of_map_to_list). by exists k.
  - intros [k Hk]. exists (k, v). by rewrite elem_of_map_to_list.
Qed.

(** Steps keep a node sound, only add commits, and add votes above its height only. *)
Lemma steps_keep cfg n ls n' : steps cfg n ls n' -> node_ok cfg n ->
  node_ok cfg n' /\ (exists tail, nd_commits n' = (nd_commits n ++ tail)%list) /\
  forall h r stage, h <= height_of n -> nd_votes n' !! (h, r, stage) = nd_votes n !! (h, r, stage).
Proof.
  induction 1 as [n|n l n1 ls n2 Hstep _ IH]; intros Hok.
  { split; [done|]. split; [|done]. exists []. by rewrite app_nil_r. }
  destruct IH as (Hok2 & (tail & Htail) & Hlate); [by eapply node_step_ok|]. split; [done|]. split.
  - rewrite Htail. destruct (node_step_commits _ _ _ _ Hok Hstep) as [->|(c & _ & ->)]; [by eexists|].
    exists (c :: tail). by rewrite <-(assoc_L (++)%list).
  - intros h r stage Hh. rewrite Hlate by (pose proof (node_step_height _ _ _ _ Hok Hstep); lia).
    by apply (node_step_late cfg n l).
Qed.

(** The votes of a commit are for its height. *)
Lemma cert_height cfg n c v : node_ok cfg n -> last (nd_commits n) = Some c -> v ∈ qc_Votes (c_Certificate c) ->
  v_Height v = height_of n.
Proof.
  intros Hok (cs & Ec)%last_Some Hin. pose proof (no_chain _ _ Hok) as Hch. unfold node_chain in Hch. rewrite Ec in Hch.
  assert (Hl : (cs ++ [c])%list !! length cs = Some c) by by rewrite lookup_app_r, Nat.sub_diag.
  destruct (chain_from_lookup _ _ _ _ _ _ _ _ _ Hch Hl) as [Hv Hh]. cbn in Hh.
  apply verifyCommit_facts in Hv as (_ & Eh & _ & _ & _ & set & _ & _ & Hq).
  apply certificate_facts in Hq as (_ & _ & _ & _ & _ & Hf & _). rewrite Forall_forall in Hf.
  destruct (Hf v Hin) as (Vh & _). unfold height_of. rewrite Ec, length_app. cbn. lia.
Qed.

Lemma steps_reachable i w ls n' sent :
  reachable cfgs honest identities verifier w -> i ∈ honest -> sent ⊆ w_sent w ->
  steps (cfgs i) (w_node w i) ls n' ->
  (forall c, c ∈ drop (length (nd_commits (w_node w i))) (nd_commits n') ->
     producible honest identities verifier (sent ++ recorded_votes n') c) ->
  exists w', reachable cfgs honest identities verifier w' /\ w_node w' i = n' /\
             (forall j, i <> j -> w_node w' j = w_node w j) /\ w_sent w ⊆ w_sent w'.
Proof.
  intros Hr Hi Hsent. remember (w_node w i) as n eqn:En. intros Hsteps. revert w Hr Hsent En.
  induction Hsteps as [n|n l n1 ls n2 Hstep Hrest IH]; intros w Hr Hsent -> Hc; [by exists w|].
  destruct (reachable_nodes _ _ _ _ w i Hr Hi) as [Hok Hrec].
  pose proof (node_step_ok _ _ _ _ Hok Hstep) as Hok1. destruct (steps_keep _ _ _ _ Hrest Hok1) as (Hok2 & (tail & Et) & Hlate).
  (* one step of the world, with a commit of no effect taken for a silent step *)
  assert (Hworld : exists l', node_step (cfgs i) (w_node w i) l' n1 /\
    match l' with LCommit c => producible honest identities verifier (w_sent w) c | _ => True end).
  { destruct l as [|v|c]; [by exists LTau|by exists (LVote v)|].
    destruct (commit_step_cases _ _ _ _ Hok Hstep) as [?|Ec]; [by exists LTau|].
    exists (LCommit c). split; [done|]. intros v Hv Hh Hval.
    destruct (Hc c) with (v := v) as (v' & Hin & Hpay); try done.
    { rewrite Et, Ec, <-(assoc_L (++)%list), drop_app_length. by left. }
    exists v'. split; [|done]. apply elem_of_app in Hin as [Hin|Hin%elem_of_recorded]; [by apply Hsent|].
    destruct Hin as [[[h r] stage] Hk]. pose proof (vo_key _ _ (no_votes _ _ Hok2) _ _ _ _ Hk) as (Hh' & _).
    assert (Hheight : v_Height v = height_of n1).
    { eapply (cert_height (cfgs i)); [exact Hok1| |exact Hv]. by rewrite Ec, last_snoc. }
    injection Hpay as Ph _ _ _ _ _. cbn in Ph.
    rewrite Hlate in Hk by lia. inversion Hstep as [| |now ?| | | |]; subst.
    destruct (apply_commit_node_ok (cfgs i) now c _ Hok) as (_ & Hvotes & _). rewrite Hvotes in Hk. by eapply Hrec. }
  destruct Hworld as (l' & Hstep' & Hprod).
  set (w1 := mkWorld (update_node i n1 (w_node w))
               (match l' with LVote v => v :: w_sent w | _ => w_sent w end)).
  assert (Hsub : w_sent w ⊆ w_sent w1) by (destruct l'; cbn; set_solver).
  destruct (IH w1) as (w' & Hr' & Hn' & Hothers & Hs').
  - eapply reach_step; [exact Hr|]. by apply world_node.
  - set_solver.
  - cbn. by rewrite update_node_eq.
  - intros c Hin. apply Hc. destruct (steps_keep (cfgs i) (w_node w i) [l] n1) as (_ & (t1 & Et1) & _);
      [by eapply steps_one|done|].
    rewrite Et, Et1, <-(assoc_L (++)%list), drop_app_length. rewrite Et, drop_app_length in Hin.
    apply elem_of_app. by right.
  - exists w'. split_and!; [done|done| |set_solver].
    intros j Hne. rewrite Hothers by done. cbn. by rewrite update_node_ne.
Qed.
End group_steps.

(** C5: the service refines the step relation.  Whatever request a node serves, with
    whatever answers from the network, it answers, and what it does to its state is a
    sequence of the critical sections of the model.  Let the group, with the node as it is
    when the request comes, be in a state it reaches, the votes that the others sign while
    the request is served counted in; if the commits that the request adds to the node's
    chain show no vote of an honest validator but those and the ones the node itself signed
    by the end, then the group reaches a state with the node as the request leaves it, the
    others as they were, and every vote signed before still counted.  So it is for a round
    the node itself proposes, whose certificates are of votes gathered on the way. *)
Theorem serving_refines {S} `{ReliableStore S} cfgs honest identities verifier i
    (w : World S) entries net start r h limiter :
  reachable cfgs honest identities verifier w -> i ∈ honest ->
  serve (cfgs i) entries net start r = Some h ->
  let n := w_node w i in
  let n' := sv_node (h (mkServer n limiter)).1 in
  is_ok (h (mkServer n limiter)).2 = true /\
  (exists ls, steps (cfgs i) n ls n') /\
  ((forall c, c ∈ drop (length (nd_commits n)) (nd_commits n') ->
      producible honest identities verifier (w_sent w ++ recorded_votes n') c) ->
   exists w', reachable cfgs honest identities verifier w' /\ w_node w' i = n' /\
     (forall j, i <> j -> w_node w' j = w_node w j) /\ w_sent w ⊆ w_sent w').
Proof.
  intros Hr Hi Hserve n n'.
  destruct (serve_serves _ _ _ _ _ _ Hserve (mkServer (w_node w i) limiter)) as [[ls Hls] Hok].
  split; [done|]. split; [by exists ls|]. intros Hc. by eapply (steps_reachable _ _ _ _ i w ls n' (w_sent w)).
Qed.

Section external.
Context {S : Type} `{ValidatorStore S} (cfg : Config) (entries : list (string * APIKeyRecord)).
Local Abbreviation op := (M (Node S)).

(** The node once a request is accounted for: the audit record saved. *)
Definition audited (r : Request) (principal : Principal) (status : Z) (start : Clock) (reason : string)
  (n n' : Node S) : Prop :=
  core n' = core (set_nd_store
    (SaveAudit (nd_store n) (audit_record cfg r principal status start reason)).1 n).

Lemma account_outcome r principal start reason reply n :
  audited r principal (rp_Status reply) start reason n (account cfg r principal start reason reply n).1 /\
  (account cfg r principal start reason reply n).2 = Ok reply.
Proof.
  unfold account, saveAuditRecord, audited. rewrite run_bind. autorewrite with go_run.
  change (id n) with n. destruct (SaveAudit _ _) as [store [u|e]] eqn:E; autorewrite with go_run; by split.
Qed.

(** The token is that of a configured key that is usable now, and the principal is the key's. *)
Definition presents (keys : list APIKeyRecord) (start : Clock) (r : Request) (p : Principal) : Prop :=
  TrimSpace (bearerToken r) <> "" /\
  exists record key, record ∈ keys /\ normalizeRecord record = Ok key /\
    ak_TokenHash key = HashToken (bearerToken r) /\ key_usable (ck_Now start) key /\ p = principal_of key.

(** Whom a request is accounted to, and the bucket of its rate. *)
Inductive identified (keys : list APIKeyRecord) (start : Clock) (r : Request) : Principal -> string -> Prop :=
| known_key p : presents keys start r p -> identified keys start r p ("api-key:" ++ pr_ID p)
| unknown_key : (forall p, ~ presents keys start r p) -> identified keys start r no_principal "anonymous".

(** How an authenticated API answers a request. *)
Inductive external (keys : list APIKeyRecord) (role : string) (h : Request -> op Reply) (start : Clock) (r : Request)
  (sv sv' : Server S) : result Reply -> Prop :=
| external_handled p n1 reply :
    presents keys start r p -> HasRole p role = true ->
    Allow ("api-key:" ++ pr_ID p) (ck_UnixNano start) (sv_limiter sv) = (sv_limiter sv', true) ->
    h r (sv_node sv) = (n1, Ok reply) -> audited r p (rp_Status reply) start "" n1 (sv_node sv') ->
    external keys role h start r sv sv' (Ok reply)
| external_unauthenticated :
    (forall p, ~ presents keys start r p) ->
    Allow "anonymous" (ck_UnixNano start) (sv_limiter sv) = (sv_limiter sv', true) ->
    audited r no_principal 401 start "missing or invalid API key" (sv_node sv) (sv_node sv') ->
    external keys role h start r sv sv' (Ok (mkReply 401 (BodyError "missing or invalid API key")))
| external_forbidden p :
    presents keys start r p -> HasRole p role = false ->
    Allow ("api-key:" ++ pr_ID p) (ck_UnixNano start) (sv_limiter sv) = (sv_limiter sv', true) ->
    audited r p 403 start "API key lacks required role" (sv_node sv) (sv_node sv') ->
    external keys role h start r sv sv' (Ok (mkReply 403 (BodyError "API key lacks required role")))
| external_limited p key :
    identified keys start r p key ->
    Allow key (ck_UnixNano start) (sv_limiter sv) = (sv_limiter sv', false) ->
    audited r p 429 start "rate limit exceeded" (sv_node sv) (sv_node sv') ->
    external keys role h start r sv sv' (Ok (mkReply 429 (BodyError "rate limit exceeded"))).

(** Authentication tells who presents a key. *)
Lemma Authenticate_presents keys a start r p :
  NewAuthenticator keys = Ok a -> entries ≡ₚ map_to_list (byHash a) ->
  Authenticate (Some a) entries (bearerToken r) (ck_Now start) = Ok p <-> presents keys start r p.
Proof.
  intros Ha Hp. rewrite (Authenticate_exact _ _ _ _ _ _ Ha Hp). split.
  - intros (Hne & record & key & ? & ? & ? & ? & ? & _). split; [exact Hne|]. by exists record, key.
  - intros (Hne & record & key & Hin & Hn & ? & ? & ->). split; [exact Hne|]. exists record, key.
    pose proof (normalizeRecord_ok _ _ Hn) as [_ _ _ _ Hk [Hd _]]. by split_and!.
Qed.

Lemma denied_outcome r principal start status reason n n' reply :
  (reply ← writeError status (errors_New reason); account cfg r principal start reason reply) n
  = (n', reply) ->
  audited r principal status start reason n n' /\ reply = Ok (mkReply status (BodyError reason)).
Proof.
  unfold writeError, writeJSON. rewrite run_bind. cbn [mret M_ret].
  destruct (account_outcome r principal start reason
              (mkReply status (BodyError (err_text (errors_New reason)))) n) as [Ha Hr].
  destruct (account _ _ _ _ _ _ n). cbn [fst snd] in *. intros [= <- <-]. by subst.
Qed.

(** Runs the branch that answers with an error. *)
Ltac run_denied :=
  match goal with
  | |- context [mbind ?f ?m (sv_node ?sv)] =>
      let E := fresh "E" in let Hd := fresh "Hd" in
      destruct (mbind f m (sv_node sv)) as [? ?] eqn:E;
      apply denied_outcome in E as [Hd ->]; cbn [sv_node]
  end.

(** C6: the external API lets nothing through unauthorized.  With API keys
    configured, the handler of a route runs exactly on a request that carries the
    token of a configured key usable at that instant, with the role of the route, and
    within the rate of that key; it is then accounted to that key's principal.  A request
    over the rate of its bucket - the key's, or the one that all requests without a usable
    key share - is answered 429, otherwise one without a usable key 401 and one without
    the role 403; what such a request does to the node is to leave an audit record of the
    principal, that status and the reason, the chain, the votes and the lock staying as
    they were. *)
Theorem external_api_authorized keys role h start r sv a :
  NewAuthenticator keys = Ok a -> entries ≡ₚ map_to_list (byHash a) ->
  n_authn cfg = Some a -> total (h r) ->
  let '(sv', reply) := withExternalAPI cfg entries role h start r sv in
  external keys role h start r sv sv' reply.
Proof.
  intros Hkeys Hent Ha Ht. unfold withExternalAPI, authorizeExternalAPI. cbv zeta. rewrite Ha.
  pose proof (fun p => Authenticate_presents keys a start r p Hkeys Hent) as Hpres.
  destruct (Authenticate (Some a) entries (bearerToken r) (ck_Now start)) as [p|e] eqn:Hauth.
  - pose proof (proj1 (Hpres p) eq_refl) as Hp.
    destruct (HasRole p role) eqn:Hrole; cbn [negb];
      destruct (Allow _ _ _) as [limiter [|]] eqn:Hallow; cbn [Z.eqb negb StatusForbidden
        StatusTooManyRequests Pos.eqb].
    2-4: run_denied.
    + rewrite run_bind. specialize (Ht (sv_node sv)).
      destruct (h r (sv_node sv)) as [n1 [reply|e]] eqn:Hh; [|done].
      destruct (account_outcome r p start "" reply n1) as [Hacc Hres].
      destruct (account _ _ _ _ _ _ n1) as [n2 r2]. cbn [fst snd sv_node] in *. subst r2.
      by eapply external_handled.
    + eapply external_limited; [by apply known_key|exact Hallow|done].
    + by eapply external_forbidden.
    + eapply external_limited; [by apply known_key|exact Hallow|done].
  - assert (Hno : forall p, ~ presents keys start r p) by (intros p Hp%Hpres; done).
    destruct (Allow _ _ _) as [limiter [|]] eqn:Hallow; cbn [Z.eqb negb StatusUnauthorized
      StatusTooManyRequests Pos.eqb];
      run_denied.
    + by eapply external_unauthenticated.
    + eapply external_limited; [by apply unknown_key|exact Hallow|done].
Qed.
End external.

(** *** Witnesses *)

Definition demo_request (method path body auth : string) : Request :=
  mkRequest method path (fun _ => ""%string) auth "" "peer" None body.

Definition demo_clock : Clock := mkClock (mkTime 50 "t") 50000000 1.

Definition demo_network (round : Z) : Network := mkNetwork (fun _ _ _ => fail "down") (fun _ => map_to_list).

(** Validators that know each other's addresses, and what [v2] and [v3] answer [v1]. *)
Definition demo_peer_config (id : string) : Config :=
  mkConfig id "nyc" (<["v2" := "two"]> (<["v3" := "three"]> ∅)) 3 4 false "" (demo_signer id) demo_verifier
    (demo_identities demo_ids) (demo_identity id) None demo_ids None ∅ "" 0 "local" false.

Definition demo_vote_reply (stage id : string) : result Response :=
  Ok (mkResponse 200 "200 OK" (Marshal (Vote_json (demo_stage_vote demo_b1 stage id)) ++ newline)).

Definition demo_answers (round : Z) : Network :=
  mkNetwork (fun _ url _ =>
    if String.eqb url "two/consensus/proposal" then demo_vote_reply StagePrevote "v2"
    else if String.eqb url "three/consensus/proposal" then demo_vote_reply StagePrevote "v3"
    else if String.eqb url "two/consensus/precommit" then demo_vote_reply StagePrecommit "v2"
    else if String.eqb url "three/consensus/precommit" then demo_vote_reply StagePrecommit "v3"
    else fail "down") (fun _ => map_to_list).

(** The group once [v2] and [v3] have precommitted the block of [v1]. *)
Definition demo_peer_precommit (id : string) : Node MemoryStore * result Vote :=
  voteForProposal (demo_peer_config id) (mkTime 6 "t") (demo_proposal demo_b1 "v1") StagePrecommit
    (Some demo_prevote_qc) demo_node.

Definition demo_voted_world : World MemoryStore :=
  mkWorld (update_node "v3" (demo_peer_precommit "v3").1 (update_node "v2" (demo_peer_precommit "v2").1 (fun _ => demo_node)))
    [demo_stage_vote demo_b1 StagePrecommit "v3"; demo_stage_vote demo_b1 StagePrecommit "v2"].

Lemma demo_voted_reachable :
  reachable demo_peer_config demo_honest (demo_identities demo_ids) demo_verifier demo_voted_world.
Proof.
  assert (Hstep : forall id w, In id ["v2"; "v3"] -> w_node w id = demo_node ->
    world_step demo_peer_config demo_honest (demo_identities demo_ids) demo_verifier w
      (mkWorld (update_node id (demo_peer_precommit id).1 (w_node w))
         (demo_stage_vote demo_b1 StagePrecommit id :: w_sent w))).
  { intros id w Hid Hn. apply (world_node _ _ _ _ w id (LVote (demo_stage_vote demo_b1 StagePrecommit id))); [|rewrite Hn|done].
    - apply demo_is_honest. cbn in *. tauto.
    - apply (step_vote _ _ (mkTime 6 "t") (demo_proposal demo_b1 "v1") StagePrecommit (Some demo_prevote_qc)); [reflexivity|].
      assert (Hr : (demo_peer_precommit id).2 = Ok (demo_stage_vote demo_b1 StagePrecommit id))
        by (destruct Hid as [<-|[<-|[]]]; vm_compute; reflexivity).
      rewrite <-Hr. apply surjective_pairing. }
  eapply reach_step; [eapply reach_step; [apply (reach_initial _ _ _ _ (mkWorld (fun _ => demo_node) []))|]|].
  - split; [done|]. intros i _. by exists NewMemoryStore.
  - apply (Hstep "v2"); [by left|done].
  - apply (Hstep "v3" (mkWorld _ _)); [by right; left|done].
Qed.

#[export] Instance VoteToSign_eq_dec : EqDecision VoteToSign.
Proof. solve_decision. Defined.

(** Every vote of a commit's certificate is one of these. *)
Definition covered (sent : list Vote) (c : CommitRequest) : bool :=
  forallb (fun v => existsb (fun v' => bool_decide (vote_payload v' = vote_payload (normalize_vote v))) sent)
    (qc_Votes (c_Certificate c)).

Lemma covered_producible honest identities verifier sent c : covered sent c = true ->
  producible honest identities verifier sent c.
Proof.
  unfold covered. rewrite forallb_forall. intros Hall v Hv _ _. apply list_elem_of_In in Hv. apply Hall in Hv.
  apply existsb_exists in Hv as (v' & Hin & Hp%bool_decide_eq_true). exists v'. by rewrite list_elem_of_In.
Qed.

(** [v1] proposes, gathers the votes of [v2] and [v3], and commits. *)
Lemma serving_refines_witness :
  exists h w', serve (demo_peer_config "v1") [] demo_answers (mkClock (mkTime 5 "t") 5000000 1)
      (demo_request "POST" "/propose" (Marshal (JObj [("payload", JStr "pay")])) "") = Some h /\
    (match (h (mkServer demo_node None)).2 with Ok reply => rp_Status reply | Err _ => 0 end) = 200 /\
    reachable demo_peer_config demo_honest (demo_identities demo_ids) demo_verifier w' /\
    height_of (w_node w' "v1") = 1.
Proof.
  set (start := mkClock (mkTime 5 "t") 5000000 1).
  set (r := demo_request "POST" "/propose" (Marshal (JObj [("payload", JStr "pay")])) "").
  set (h := on_node (withPeerAuth (demo_peer_config "v1") (handlePropose (demo_peer_config "v1") demo_answers (ck_Now start)) r)
            : Server MemoryStore -> Server MemoryStore * result Reply).
  pose proof (serving_refines demo_peer_config demo_honest (demo_identities demo_ids) demo_verifier "v1"
    demo_voted_world [] demo_answers start r h None demo_voted_reachable
    (demo_is_honest "v1" (or_introl eq_refl)) eq_refl) as (_ & _ & Hw).
  assert (Hn0 : w_node demo_voted_world "v1" = demo_node) by reflexivity. rewrite Hn0 in Hw. clear Hn0.
  assert (Hall : Forall (fun c => covered (w_sent demo_voted_world ++ recorded_votes (sv_node (h (mkServer demo_node None)).1)) c = true)
      (drop (length (nd_commits demo_node)) (nd_commits (sv_node (h (mkServer demo_node None)).1)))).
  { apply (bool_decide_unpack _). vm_compute. exact I. }
  destruct Hw as (w' & Hr & Hn & _).
  - intros c Hc. apply covered_producible. rewrite Forall_forall in Hall. exact (Hall c Hc).
  - exists h, w'. split; [reflexivity|]. split; [vm_compute; reflexivity|]. split; [exact Hr|].
    rewrite Hn. vm_compute. reflexivity.
Defined.

Definition demo_authn : Authenticator :=
  match NewAuthenticator demo_keys with Ok a => a | Err _ => mkAuthenticator ∅ ∅ end.

(** The configuration of a node with API keys. *)
Definition demo_api_config : Config :=
  mkConfig "v1" "nyc" ∅ 3 4 false "" (demo_signer "v1") demo_verifier (demo_identities demo_ids)
    (demo_identity "v1") (Some demo_authn) demo_ids None ∅ "" 0 "local" false.

Definition demo_call (role auth : string) : Server MemoryStore * result Reply :=
  withExternalAPI demo_api_config (map_to_list (byHash demo_authn)) role handleAuditRecentAuthorized
    demo_clock (demo_request "GET" "/v1/audit/recent" "" auth)
    (mkServer demo_node (Some (newRateLimiter 60 1))).

Lemma demo_authn_keys : NewAuthenticator demo_keys = Ok demo_authn.
Proof.
  unfold demo_authn. destruct (NewAuthenticator demo_keys) eqn:E; [done|].
  assert (Hok : is_ok (NewAuthenticator demo_keys) = true) by (vm_compute; reflexivity). by rewrite E in Hok.
Qed.

Lemma external_api_authorized_witness :
  external demo_api_config demo_keys RoleAdminRead handleAuditRecentAuthorized
    demo_clock (demo_request "GET" "/v1/audit/recent" "" "Bearer t1")
    (mkServer demo_node (Some (newRateLimiter 60 1)))
    (demo_call RoleAdminRead "Bearer t1").1 (demo_call RoleAdminRead "Bearer t1").2.
Proof.
  pose proof (external_api_authorized demo_api_config (map_to_list (byHash demo_authn)) demo_keys RoleAdminRead
                handleAuditRecentAuthorized demo_clock
                (demo_request "GET" "/v1/audit/recent" "" "Bearer t1")
                (mkServer demo_node (Some (newRateLimiter 60 1))) demo_authn demo_authn_keys (reflexivity _) eq_refl
                (proj2 (proj1 (handles_admin demo_api_config (mkTime 50 "t") _)))) as Hspec.
  unfold demo_call. destruct (withExternalAPI _ _ _ _ _ _ _) as [sv' reply]. exact Hspec.
Defined.

Example demo_calls :
  map (fun '(role, auth) => match (demo_call role auth).2 with Ok reply => rp_Status reply | Err _ => 0 end)
    [(RoleAdminRead, "Bearer t1"); (RoleAnchorRead, "Bearer t1"); (RoleAdminRead, "Bearer zz");
     (RoleAdminRead, "t1")]%string = [200; 403; 401; 401].
Proof. vm_compute. reflexivity. Qed.
