(* ===== verification/NodeLive.v ===== *)
(** * Nodes that move on

    What a node that follows the chain does with the messages of a round: it prevotes for
    the proposal of the scheduled proposer, precommits when it is shown the prevotes, applies
    the commit, and is then ready for the next height.  No operation of a round stops the
    node. *)

From S2P Require Import Prelude Sha256 Json JsonParse JsonDecode JsonIndent Identity Crypto State Protocol Codec Quorum Store Consortium Anchors Evidence Auth Observability Node NodeProps NodeVotes NodeRecovery NodeSafety.
Local Open Scope string_scope.
Local Open Scope Z_scope.

(** ** Operations that leave a node running *)

Definition steady {S A} (m : M (Node S) A) : Prop := forall n, nd_running (m n).1 = nd_running n.

Create HintDb steady.

Section steady.
Context {S : Type}.
Local Abbreviation op := (M (Node S)).

Lemma steady_bind {A B} (m : op A) (f : A -> op B) :
  steady m -> (forall a, steady (f a)) -> steady (m ≫= f).
Proof.
  intros Hm Hf n. rewrite run_bind. specialize (Hm n). destruct (m n) as [n' [a|e]]; [|exact Hm].
  cbn in Hm. by rewrite Hf.
Qed.

Lemma steady_lift {A} (r : result A) : steady (lift r : op A).
Proof. done. Qed.

Lemma steady_ret {A} (a : A) : steady (mret a : op A).
Proof. done. Qed.

Lemma steady_raise {A} e : steady (raise e : op A).
Proof. done. Qed.

Lemma steady_gets {A} (f : Node S -> A) : steady (gets f).
Proof. done. Qed.

Lemma steady_guard cond e : steady (guard_err cond e : op unit).
Proof. by destruct cond. Qed.

Lemma steady_attempt {A} (m : op A) : steady m -> steady (attempt m).
Proof. intros Hm n. unfold attempt. specialize (Hm n). by destruct (m n). Qed.

Lemma steady_modify f : (forall n, nd_running (f n) = nd_running n) -> steady (modify f : op unit).
Proof. intros Hf n. apply Hf. Qed.
End steady.

#[export] Hint Resolve steady_lift steady_ret steady_raise steady_gets steady_guard steady_attempt : steady.
#[export] Hint Extern 1 (steady (modify _)) => apply steady_modify; reflexivity : steady.

Ltac steadily :=
  repeat first
    [ solve [auto with steady]
    | apply steady_bind; [|intros ?]
    | apply steady_attempt
    | match goal with
      | |- steady (if ?b then _ else _) => destruct b
      | |- steady (match ?x with _ => _ end) => destruct x
      | |- steady (let '(_, _) := ?x in _) => destruct x
      end ].

Section operations.
Context {S : Type} `{ValidatorStore S} (cfg : Config).
Local Abbreviation op := (M (Node S)).

Lemma steady_event now text : steady (appendEventLocked now text : op unit).
Proof. by apply steady_modify. Qed.

Lemma steady_metric f : steady (metric f : op unit).
Proof. by apply steady_modify. Qed.

Lemma steady_recordPeerError now id e : steady (recordPeerError now id e : op unit).
Proof. unfold recordPeerError. pose proof steady_event. pose proof steady_metric. cbv zeta. steadily. Qed.

Lemma steady_recordPeerHealthy now id h hash : steady (recordPeerHealthy now id h hash : op unit).
Proof. unfold recordPeerHealthy. pose proof steady_metric. steadily. Qed.

Lemma steady_vote now p stage qc : steady (voteForProposal cfg now p stage qc : op Vote).
Proof.
  pose proof steady_metric. pose proof steady_event.
  unfold voteForProposal, validateProposalLocked, checkLockLocked, set_round. cbv zeta. steadily.
Qed.

Lemma steady_receipt r : steady (saveEvidenceReceipt r : op _).
Proof.
  intros n. unfold saveEvidenceReceipt. autorewrite with go_run. destruct (MarshalReceipt r); [|done].
  autorewrite with go_run. change (id n) with n. destruct (SaveEvidence _ _) as [s [[b x] [e|]]]; by autorewrite with go_run.
Qed.

Lemma steady_ApplyCommit now c : steady (ApplyCommit cfg now c : op unit).
Proof.
  pose proof steady_metric. pose proof steady_event. pose proof steady_receipt.
  unfold ApplyCommit, apply_next, store_commit, set_round, persist_receipt, persistEvidenceReceiptFromCommitLocked,
    recordStorageError. cbv zeta. steadily.
Qed.

Lemma steady_requestPrevote net now p id url : steady (requestPrevote net now p id url : op Vote).
Proof. unfold requestPrevote. pose proof steady_recordPeerHealthy. steadily. Qed.

Lemma steady_requestPrecommit net now r id url : steady (requestPrecommit net now r id url : op Vote).
Proof. unfold requestPrecommit. pose proof steady_recordPeerHealthy. steadily. Qed.

Lemma steady_collect_votes now request peers votes :
  (forall id url, steady (request id url : op Vote)) -> steady (collect_votes cfg now request peers votes).
Proof.
  intros Hr. pose proof steady_recordPeerError. pose proof steady_metric. revert votes.
  induction peers as [|[id url] peers IH]; intros votes; cbn [collect_votes]; steadily.
Qed.

Lemma steady_broadcast net now c : steady (broadcastCommit cfg net now c : op unit).
Proof.
  pose proof steady_recordPeerError. pose proof steady_recordPeerHealthy.
  unfold broadcastCommit. generalize (nw_order net 2 (livePeerURLs cfg)) as peers.
  induction peers as [|[id url] peers IH]; cbn [broadcast_to]; steadily.
Qed.

Lemma steady_form_certificate now what block stage bh votes :
  steady (form_certificate cfg now what block stage bh votes : op QuorumCertificate).
Proof. unfold form_certificate. pose proof steady_event. steadily. Qed.

Lemma steady_newBlock now h r payload : steady (newBlock cfg now h r payload : op Block).
Proof. unfold newBlock. cbv zeta. steadily. Qed.

Lemma steady_markRound now h r : steady (markRound cfg now h r : op unit).
Proof. unfold markRound, set_round. pose proof steady_event. steadily. Qed.
End operations.

#[export] Hint Resolve steady_event steady_metric steady_recordPeerError steady_recordPeerHealthy steady_vote
  steady_receipt steady_ApplyCommit steady_requestPrevote steady_requestPrecommit steady_collect_votes
  steady_broadcast steady_form_certificate steady_newBlock steady_markRound : steady.

(** ** Casting a vote *)

Section casting.
Context {S : Type} `{ValidatorStore S} (cfg : Config).
Implicit Types (n : Node S).

(** A proposable block is accepted; the round of its height becomes the block's. *)
Lemma validateProposal_accepts p n :
  proposable cfg n (p_Block p) -> exists n',
    validateProposalLocked cfg p (hash_of (p_Block p)) n = (n', Ok tt) /\
    round_at (b_Height (p_Block p)) n' = b_Round (p_Block p) /\
    nd_proposals n' = <[(b_Height (p_Block p), b_Round (p_Block p), b_ProposerID (p_Block p))
                        := hash_of (p_Block p)]> (nd_proposals n).
Proof.
  intros [Hh Hr Hp Hprev Hm (m & k & Ha) Hu]. unfold validateProposalLocked. cbv zeta.
  autorewrite with go_run. change (id n) with n. rewrite Clone_id.
  rewrite (proj2 (Z.ltb_ge _ _)) by lia. autorewrite with go_run.
  rewrite (proj2 (Z.ltb_ge _ _)) by lia. autorewrite with go_run.
  rewrite (proj2 (Z.ltb_ge _ _)) by lia. autorewrite with go_run.
  rewrite Hp. autorewrite with go_run. rewrite String.eqb_refl. cbn [negb]. autorewrite with go_run.
  rewrite Hprev, String.eqb_refl. cbn [negb]. autorewrite with go_run.
  rewrite Hm. autorewrite with go_run. rewrite Ha. cbn [snd]. autorewrite with go_run.
  rewrite String.eqb_refl. cbn [negb]. autorewrite with go_run.
  assert (Hc : match nd_proposals n !! (b_Height (p_Block p), b_Round (p_Block p), b_ProposerID (p_Block p)) with
               | Some existing => negb (String.eqb existing (hash_of (p_Block p))) | None => false end = false).
  { destruct (nd_proposals n !! _) as [bh|] eqn:E; [|done]. rewrite (Hu bh eq_refl), String.eqb_refl. done. }
  rewrite Hc. autorewrite with go_run. unfold set_round, modify.
  destruct (Z.ltb_spec (round_at (b_Height (p_Block p)) n) (b_Round (p_Block p))) as [Hlt|Hge].
  - eexists. split; [reflexivity|]. split; [|reflexivity]. unfold round_at. cbn. by rewrite lookup_insert_eq.
  - eexists. split; [reflexivity|]. split; [|reflexivity]. unfold round_at in *. cbn. lia.
Qed.

(** A node that has not voted at a height, round and stage votes for a proposable block its
    lock allows. *)
Lemma vote_succeeds now p stage qc n v :
  let b := p_Block p in
  proposable cfg n b -> lock_allows (nd_lock n) (b_Height b) (hash_of b) ->
  (stage = StagePrecommit -> check_prevoteQC cfg b (hash_of b) qc = Ok tt) ->
  nd_votes n !! (b_Height b, b_Round b, stage) = None ->
  SignStageVote (b_Height b) (b_Round b) stage (hash_of b) (cfg_ID cfg) (n_signer cfg) = Ok v ->
  exists n', voteForProposal cfg now p stage qc n = (n', Ok v) /\
    voted cfg now p stage qc n n' (Ok v) /\ nd_running n' = nd_running n /\
    round_at (b_Height b) n' = b_Round b /\
    nd_proposals n' = <[(b_Height b, b_Round b, b_ProposerID b) := hash_of b]> (nd_proposals n).
Proof.
  cbv zeta. intros Hp Hlock Hqc Hnone Hsign.
  assert (Hrun : exists n', voteForProposal cfg now p stage qc n = (n', Ok v) /\
    round_at (b_Height (p_Block p)) n' = b_Round (p_Block p) /\
    nd_proposals n' = <[(b_Height (p_Block p), b_Round (p_Block p), b_ProposerID (p_Block p))
                        := hash_of (p_Block p)]> (nd_proposals n)).
  { unfold voteForProposal. cbv zeta. autorewrite with go_run. rewrite Block_Hash_ok.
    autorewrite with go_run. rewrite run_bind.
    assert (Hpre : (if String.eqb stage StagePrecommit
                    then lift (check_prevoteQC cfg (p_Block p) (hash_of (p_Block p)) qc) else mret tt) n = (n, Ok tt)).
    { destruct (String.eqb_spec stage StagePrecommit) as [Est|]; [|done]. by rewrite (Hqc Est). }
    rewrite Hpre, run_bind. destruct (validateProposal_accepts p n Hp) as (n1 & E1 & Hr1 & Hp1). rewrite E1.
    apply validateProposalLocked_outcome in E1 as [_ Hn1].
    assert (Hsame : nd_lock n1 = nd_lock n /\ nd_votes n1 = nd_votes n) by (destruct Hn1; subst n1; done).
    clear Hn1. destruct Hsame as [Hl Hv]. rewrite run_bind.
    destruct (checkLockLocked (b_Height (p_Block p)) (b_Round (p_Block p)) (hash_of (p_Block p)) n1) as [n2 r2] eqn:E2.
    apply checkLockLocked_outcome in E2 as [-> Hallow]. rewrite Hl in Hallow.
    apply Hallow in Hlock. destruct r2 as [[]|]; [|done]. autorewrite with go_run. rewrite Hv.
    rewrite Hnone, Hsign. autorewrite with go_run.
    destruct qc as [q|]; [destruct (String.eqb stage StagePrecommit)|];
      unfold modify, appendEventLocked; autorewrite with go_run; unfold modify; (eexists; split; [reflexivity|by split]). }
  destruct Hrun as (n' & E & Hr & Hps). exists n'. split; [exact E|].
  split; [by apply voteForProposal_outcome|]. split; [|by split].
  pose proof (steady_vote cfg now p stage qc n) as Hst. by rewrite E in Hst.
Qed.
End casting.

(** ** A restart forgets the votes *)

(** A block that could stand in the place of another one: of the same height, round, proposer
    and chain, and with the digest of its own transactions. *)
Record rival {S} (n : Node S) (b b' : Block) : Prop := {
  rv_height : b_Height b' = b_Height b;
  rv_round : b_Round b' = b_Round b;
  rv_proposer : b_ProposerID b' = b_ProposerID b;
  rv_previous : b_PreviousHash b' = b_PreviousHash b;
  rv_version : b_MembershipVersion b' = b_MembershipVersion b;
  rv_set : b_ValidatorSetHash b' = b_ValidatorSetHash b;
  rv_state : exists m k, Apply (nd_state n) (b_Transactions b') = (m, Ok (b_StateDigest b', k))
}.

(** C36: the lock and the votes do not survive a restart.  Let a validator whose store holds
    its chain, and whose recorded votes are its own, precommit a block, and let it be shown
    another block for the same place in the chain with a prevote certificate that checks.  As long as it runs, it refuses the second
    block; after a restart over its own store it signs a second precommit, of the same
    height and round, for that block. *)
Theorem restart_forgets_votes {S} `{ReliableStore S} cfg now now' now'' p p' qc qc' (n n1 : Node S) v v' :
  durable cfg n -> votes_ok cfg n -> 0 <= b_Round (p_Block p) ->
  voteForProposal cfg now p StagePrecommit qc n = (n1, Ok v) ->
  rival n (p_Block p) (p_Block p') -> hash_of (p_Block p') <> hash_of (p_Block p) ->
  check_prevoteQC cfg (p_Block p') (hash_of (p_Block p')) qc' = Ok tt ->
  SignStageVote (b_Height (p_Block p')) (b_Round (p_Block p')) StagePrecommit (hash_of (p_Block p'))
    (cfg_ID cfg) (n_signer cfg) = Ok v' ->
  is_ok (voteForProposal cfg now'' p' StagePrecommit qc' n1).2 = false /\
  (voteForProposal cfg now'' p' StagePrecommit qc' (restarted cfg now' n1)).2 = Ok v' /\
  v_VoterID v' = v_VoterID v /\ v_Height v' = v_Height v /\ v_Round v' = v_Round v /\
  v_Stage v' = v_Stage v /\ v_BlockHash v' <> v_BlockHash v.
Proof.
  intros Hd Hvok Hr E Hrival Hne Hqc Hsign.
  pose proof (SignStageVote_fields _ _ _ _ _ _ _ Hsign) as (Vh & Vr & Vs & Vb & Vi & _).
  pose proof (voteForProposal_outcome _ _ _ _ _ _ _ _ E) as Ho.
  assert (Hvote : proposable cfg n (p_Block p) /\ ledger n1 = ledger n /\
    nd_votes n1 !! (b_Height (p_Block p), b_Round (p_Block p), StagePrecommit) = Some v /\
    v_VoterID v = cfg_ID cfg /\ v_Height v = b_Height (p_Block p) /\ v_Round v = b_Round (p_Block p) /\
    v_Stage v = NormalizeStage StagePrecommit /\ v_BlockHash v = hash_of (p_Block p)).
  { inversion Ho as [|? Hp Hl _ Hv Hin Hb|? Hp _ _ _ Hs Hl _ Hv]; subst.
    - pose proof (vo_key _ _ Hvok _ _ _ _ Hin) as (? & ? & ? & ? & _). by rewrite Hv.
    - pose proof (SignStageVote_fields _ _ _ _ _ _ _ Hs) as (? & ? & ? & ? & ? & _).
      rewrite Hv, lookup_insert_eq. done. }
  destruct Hvote as (Hp & Hl & Hin & Wi & Wh & Wr & Ws & Wb). pose proof Hl as (Es & El & Ec & Em)%ledger_eq.
  destruct Hrival as [Rh Rr Rp Rprev Rver Rset Rst].
  assert (Hd1 : durable cfg n1) by (apply (durable_frame cfg n); try done; by rewrite Es).
  destruct (restarted_spec cfg now' n1 Hd1) as (Ec' & El' & Em' & _ & _ & Ev' & Ep' & Er' & Elock).
  assert (Hh' : height_of (restarted cfg now' n1) = height_of n) by (unfold height_of; by rewrite Ec', Ec).
  assert (Hrpos : 0 <= height_of n) by (unfold height_of; lia).
  split; [|split; [|split_and!; congruence]].
  - destruct (voteForProposal cfg now'' p' StagePrecommit qc' n1) as [n2 [u|e]] eqn:E2; [|done]. exfalso.
    apply voteForProposal_outcome in E2. inversion E2 as [|? _ _ _ _ Hin2 Hb|? _ _ _ Hnone]; subst.
    + rewrite Rh, Rr, Hin in Hin2. congruence.
    + rewrite Rh, Rr, Hin in Hnone. done.
  - destruct (vote_succeeds cfg now'' p' StagePrecommit qc' (restarted cfg now' n1) v') as (n2 & -> & _); try done.
    + destruct Hp as [Ph Pr Pp Pprev Pm _ _]. constructor.
      * by rewrite Hh', Rh.
      * unfold round_at. rewrite Er', lookup_empty, Rr. exact Hr.
      * by rewrite Rh, Rr, Rp.
      * by rewrite El', El, Rprev.
      * by rewrite Rver, Rset.
      * by rewrite Em', Em.
      * intros bh. by rewrite Ep', lookup_empty.
    + right. left. rewrite Elock, Rh, (prop_height _ _ _ Hp). destruct (decide _); [lia|].
      unfold height_of. rewrite Ec. fold (height_of n). lia.
    + by rewrite Ev', lookup_empty.
Qed.

(** *** Witness: the second block of a proposer *)

Definition demo_b1' : Block := demo_block "v1" 0 "other" demo_node.

Lemma demo_rival : rival demo_node demo_b1 demo_b1'.
Proof. constructor; [vm_compute; reflexivity..|]. eexists _, _. vm_compute. reflexivity. Qed.

Lemma restart_forgets_votes_witness :
  let p' := demo_proposal demo_b1' "v1" in
  let qc' := Some (demo_certificate demo_b1' StagePrevote 3 ["v1"; "v3"; "v4"]) in
  (demo_precommit "v2").2 = Ok (demo_stage_vote demo_b1 StagePrecommit "v2") /\
  is_ok (voteForProposal (demo_config "v2") (mkTime 8 "t") p' StagePrecommit qc' (demo_precommit "v2").1).2 = false /\
  (voteForProposal (demo_config "v2") (mkTime 8 "t") p' StagePrecommit qc'
     (restarted (demo_config "v2") (mkTime 7 "t") (demo_precommit "v2").1)).2
  = Ok (demo_stage_vote demo_b1' StagePrecommit "v2").
Proof.
  intros p' qc'. assert (Hv : (demo_precommit "v2").2 = Ok (demo_stage_vote demo_b1 StagePrecommit "v2"))
    by (vm_compute; reflexivity).
  split; [exact Hv|].
  destruct (restart_forgets_votes (demo_config "v2") (mkTime 6 "t") (mkTime 7 "t") (mkTime 8 "t")
    (demo_proposal demo_b1 "v1") p' (Some demo_prevote_qc) qc' demo_node (demo_precommit "v2").1
    (demo_stage_vote demo_b1 StagePrecommit "v2") (demo_stage_vote demo_b1' StagePrecommit "v2"))
    as (Hrefused & Hsigned & _).
  - apply durable_empty; reflexivity.
  - exact (no_votes _ _ (fresh_node_ok (demo_config "v2") NewMemoryStore eq_refl)).
  - vm_compute. discriminate.
  - rewrite <-Hv. exact (surjective_pairing _).
  - exact demo_rival.
  - vm_compute. discriminate.
  - vm_compute. reflexivity.
  - vm_compute. reflexivity.
  - exact (conj Hrefused Hsigned).
Defined.

(** ** The end of a chain *)

Definition end_hash (cs : list CommitRequest) : string :=
  from_option (fun c => hash_of (c_Block c)) GenesisHash (last cs).

Definition end_state (cs : list CommitRequest) : Machine :=
  foldl (fun m c => (Apply m (b_Transactions (c_Block c))).1) NewMachine cs.

Lemma end_hash_snoc cs c : end_hash (cs ++ [c]) = hash_of (c_Block c).
Proof. unfold end_hash. by rewrite last_snoc. Qed.

Lemma end_state_snoc cs c : end_state (cs ++ [c]) = (Apply (end_state cs) (b_Transactions (c_Block c))).1.
Proof. unfold end_state. by rewrite foldl_snoc. Qed.

(** The commits of a chain determine where it ends. *)
Lemma chain_end cfg cs hash m : chain cfg cs hash m -> hash = end_hash cs /\ m = end_state cs.
Proof.
  unfold chain. intros Hc.
  assert (Hgen : forall count h0 m0 cs h1 m1, chain_from cfg count h0 m0 cs h1 m1 ->
    h1 = from_option (fun c => hash_of (c_Block c)) h0 (last cs) /\
    m1 = foldl (fun m c => (Apply m (b_Transactions (c_Block c))).1) m0 cs).
  { induction 1 as [|count h0 m0 c m1 cs' h1 m2 [_ _ _ [k Hk]] _ [-> ->]]; [done|].
    rewrite last_cons. cbn [foldl]. rewrite Hk. by destruct (last cs'). }
  exact (Hgen _ _ _ _ _ _ Hc).
Qed.

Lemma end_hash_shown cs : utf8 (end_hash cs) = true /\ end_hash cs <> "".
Proof.
  unfold end_hash. destruct (last cs) as [c|]; [|done]. cbn.
  split; [rewrite hash_of_eq; apply utf8_HashBytes|apply hash_of_nonempty].
Qed.

Lemma Apply_hashed m txs m' d k : (exists x, m_digest m = HashBytes x) -> Apply m txs = (m', Ok (d, k)) ->
  exists x, m_digest m' = HashBytes x.
Proof.
  intros Hm Ha. destruct (Apply_state _ _ _ _ _ Ha) as (l & (_ & _ & ->)%transitionDigest_ok & _ & ->).
  cbn. destruct l; [done|by eexists].
Qed.

(** The digest at the end of a chain is a hash. *)
Lemma end_digest cfg cs hash m : chain cfg cs hash m -> exists x, m_digest (end_state cs) = HashBytes x.
Proof.
  intros Hc. destruct (chain_end _ _ _ _ Hc) as [_ <-]. revert Hc. unfold chain.
  assert (H0 : exists x, m_digest NewMachine = HashBytes x) by (unfold NewMachine, GenesisDigest; by eexists).
  revert H0. generalize 0%nat, GenesisHash, NewMachine. intros count h0 m0 H0 Hc.
  induction Hc as [|count h0 m0 c m1 cs' h1 m2 [_ _ _ [k Hk]] _ IH]; [done|].
  apply IH. by eapply Apply_hashed.
Qed.

(** The transaction of a payload is always applied. *)
Lemma Apply_payload m payload : m_digest m <> "" -> exists k,
  Apply m (TransactionsFromPayload payload)
  = ((Apply m (TransactionsFromPayload payload)).1,
     Ok (m_digest (Apply m (TransactionsFromPayload payload)).1, k)).
Proof.
  intros Hm. assert (Hid : Forall has_id (TransactionsFromPayload payload)).
  { constructor; [|constructor]. unfold has_id, fill_id. cbn [tx_ID tx_Payload].
    pose proof (HashBytes_not_blank ("pq-fabric/consensus/state/tx/v1" ++ nul ++ payload)) as Hb.
    unfold blank in Hb. fold (TransactionID payload) in Hb. rewrite Hb. cbn [andb].
    by apply String.eqb_neq. }
  destruct (newly_applied_total (m_applied m) ∅ _ Hid) as [l El].
  assert (Ht : transitionDigest (m_digest m) (m_applied m) (TransactionsFromPayload payload)
    = Ok (match l with [] => m_digest m
          | _ => HashBytes (Marshal (transitionRecord_json (mkRecord (m_digest m) l))) end, l))
    by by apply transitionDigest_ok.
  unfold Apply. rewrite Ht. by eexists.
Qed.

(** ** The validators of a round *)

(** A message of the group: what the nodes of a network must agree on. *)
Record Group := mkGroup {
  gr_suite : CryptoSuite;
  gr_identities : gmap string ValidatorIdentity;
  gr_ids : list string;
  gr_threshold : Z;
  gr_version : Z;                     (* of the membership *)
  gr_hash : string
}.

(** A group whose names and numbers fit their fields. *)
Record sound_group (g : Group) : Prop := {
  sg_lawful :: LawfulSuite (gr_suite g);
  sg_identities : suite_identities (gr_suite g) (gr_identities g) (gr_ids g);
  sg_names id : id ∈ gr_ids g -> utf8 id = true /\ id <> "";
  sg_algorithm : utf8 (cs_SignatureAlgorithm (gr_suite g)) = true;
  sg_positive : 0 < gr_threshold g;
  sg_threshold : is_int64 (gr_threshold g);
  sg_size : Z.of_nat (size (gr_identities g)) < 2 ^ 63;
  sg_version : is_u64 (gr_version g);
  sg_hash : utf8 (gr_hash g) = true
}.

(** The configuration of a validator of the group. *)
Record member (g : Group) (id : string) (cfg : Config) : Prop := {
  mem_id : cfg_ID cfg = id;
  mem_in : id ∈ gr_ids g;
  mem_signer : cs_NewSigner (gr_suite g) id = Ok (n_signer cfg);
  mem_verifier : n_verifier cfg = cs_NewVerifier (gr_suite g);
  mem_identities : n_identities cfg = gr_identities g;
  mem_ids : n_validatorIDs cfg = gr_ids g;
  mem_threshold : cfg_Threshold cfg = gr_threshold g;
  mem_version : n_membershipVersion cfg = gr_version g;
  mem_hash : n_manifestHash cfg = gr_hash g;
  mem_current : validateCurrentMembership cfg (gr_version g) (gr_hash g) = Ok tt;
  mem_set : exists set, membershipSet cfg (gr_version g) (gr_hash g) = Ok set /\
    mi_identities set = gr_identities g /\ mi_validatorIDs set = gr_ids g
}.

Lemma recordPeerError_ok {S} now k e (n : Node S) : exists n', recordPeerError now k e n = (n', Ok tt).
Proof.
  unfold recordPeerError, metric, appendEventLocked. cbv zeta. rewrite run_bind. cbn [modify].
  rewrite run_bind. cbn [gets]. rewrite run_bind.
  destruct (Z.eqb _ _); cbn [modify mret M_ret]; by eexists.
Qed.

(** ** The votes of a group *)

Section votes.
Context (g : Group) (Hg : sound_group g).
Context (h r : Z) (stage hash : string).
Context (Hh : 0 < h < 2 ^ 63) (Hr : 0 <= r < 2 ^ 63) (Hstage : IsVoteStage stage = true).
Context (Hhash : utf8 hash = true /\ hash <> "").
#[local] Set Default Proof Using "All".

(** A vote of the group's validator [id], as a peer reads it. *)
Definition group_vote (id : string) (v : Vote) : Prop :=
  v_VoterID v = id /\ quorum_vote (gr_suite g) (gr_identities g) h r stage hash v /\ vote_wf v.

Lemma member_votes id cfg : member g id cfg ->
  exists v, SignStageVote h r stage hash id (n_signer cfg) = Ok v /\ group_vote id v.
Proof.
  intros Hm. pose proof (sg_lawful g Hg) as Hlaw. pose proof (NormalizeStage_vote stage Hstage) as Hn.
  destruct (suite_vote (gr_suite g) (gr_identities g) (gr_ids g) (sg_identities g Hg) h r stage hash
    ltac:(lia) Hstage (proj2 Hhash) id (mem_in _ _ _ Hm)) as (signer & v & Hs & Hv & Hid & Hq).
  rewrite (mem_signer _ _ _ Hm) in Hs. injection Hs as <-. exists v. split; [done|]. split; [done|]. split; [done|].
  destruct (suite_signer (s := gr_suite g) id) as (signer' & Hs & _ & Halg & _).
  rewrite (mem_signer _ _ _ Hm) in Hs. injection Hs as <-.
  unfold SignStageVote in Hv. cbv zeta in Hv. apply bind_ok in Hv as (c & _ & (sig & _ & [= <-])%bind_ok).
  destruct (sg_names g Hg id (mem_in _ _ _ Hm)) as [Hidu _].
  unfold vote_wf, is_u64, two64.
  cbn [v_Height v_Round v_Stage v_BlockHash v_VoterID v_Decision v_Algorithm v_Signature].
  rewrite Hn, Halg, base64_utf8, Hidu, (sg_algorithm g Hg), (proj1 Hhash).
  split_and!; try done; try lia.
  unfold IsVoteStage in Hstage. by destruct (String.eqb_spec stage StagePrevote) as [->|];
    [|destruct (String.eqb_spec stage StagePrecommit) as [->|]].
Qed.

Lemma group_vote_verifies id v : group_vote id v -> VerifyVote v (gr_identities g) (cs_NewVerifier (gr_suite g)) = Ok tt.
Proof. by intros (_ & [_ ?] & _). Qed.

Lemma verify_attached cfg cert ids ver :
  VerifyQuorumCertificate (attachMembershipToQC cfg cert) ids ver = VerifyQuorumCertificate cert ids ver.
Proof.
  assert (Hv : forall c votes seen, verify_votes (attachMembershipToQC cfg c) ids ver seen votes
    = verify_votes c ids ver seen votes).
  { intros c votes. induction votes as [|v votes IH]; intros seen; [done|]. cbn [verify_votes]. cbv zeta.
    cbn [attachMembershipToQC qc_Height qc_Round qc_Stage qc_BlockHash qc_Decision]. destruct (orb _ _); [done|].
    destruct (bool_decide _); [done|]. destruct (VerifyVote _ _ _); [|done]. apply IH. }
  unfold VerifyQuorumCertificate.
  change (set_qc_Stage _ (attachMembershipToQC cfg cert))
    with (attachMembershipToQC cfg (set_qc_Stage (NormalizeStage (qc_Stage cert)) cert)).
  cbv zeta. rewrite Hv. reflexivity.
Qed.

Lemma group_vote_in id v : group_vote id v -> id ∈ gr_ids g.
Proof.
  intros (<- & [_ (vi & sig & Hvi & _)%VerifyVote_ok] & _).
  assert (Hd : v_VoterID v ∈ dom (gr_identities g)) by (apply elem_of_dom; by exists vi).
  rewrite (proj2 (sg_identities g Hg)) in Hd. by apply elem_of_list_to_set in Hd.
Qed.

(** What a peer answers with a vote, and what the proposer makes of the answers. *)
Definition vote_response (v : Vote) : Response := mkResponse 200 "200 OK" (Marshal (Vote_json v) ++ newline).

Lemma decode_vote id v : group_vote id v -> Decode Vote_of (hr_Body (vote_response v)) = Ok v.
Proof.
  intros (_ & _ & Hw). unfold Decode. cbn [hr_Body vote_response].
  rewrite (Decode_value_Marshal _ _ newline (Vote_json_ok v Hw) eq_refl). by apply Vote_of_json.
Qed.

Lemma requestPrevote_vote {S} net now p id url v (n : Node S) : group_vote id v ->
  nw_do net "POST" (url ++ "/consensus/proposal") (Marshal (Proposal_json p)) = Ok (vote_response v) ->
  exists n', requestPrevote net now p id url n = (n', Ok v).
Proof.
  intros Hv Hdo. unfold requestPrevote. rewrite Hdo. autorewrite with go_run.
  change (300 <=? hr_StatusCode (vote_response v)) with false. autorewrite with go_run.
  rewrite (decode_vote id v Hv). autorewrite with go_run. rewrite run_bind.
  unfold recordPeerHealthy, metric, modify. autorewrite with go_run. unfold modify. by eexists.
Qed.

Lemma requestPrecommit_vote {S} net now req id url v (n : Node S) : group_vote id v ->
  nw_do net "POST" (url ++ "/consensus/precommit") (Marshal (PrecommitRequest_json req)) = Ok (vote_response v) ->
  exists n', requestPrecommit net now req id url n = (n', Ok v).
Proof.
  intros Hv Hdo. unfold requestPrecommit. rewrite Hdo. autorewrite with go_run.
  change (300 <=? hr_StatusCode (vote_response v)) with false. autorewrite with go_run.
  rewrite (decode_vote id v Hv). autorewrite with go_run. rewrite run_bind.
  unfold recordPeerHealthy, metric, modify. autorewrite with go_run. unfold modify. by eexists.
Qed.

(** The votes the loop over the peers collects are those of the live ones. *)
Lemma collect_quorum {S} id cfg now (request : string -> string -> M (Node S) Vote) (live : gset string) peers voters votes n :
  member g id cfg ->
  (forall k u m, (k, u) ∈ peers -> k <> id ->
     (exists v m', group_vote k v /\ request k u m = (m', Ok v)) \/
     (k ∉ live /\ exists e m', request k u m = (m', Err e))) ->
  NoDup (map fst peers) -> Forall2 group_vote voters votes -> NoDup voters ->
  (forall k, k ∈ map fst peers -> k <> id -> k ∉ voters) ->
  exists voters' votes' n', collect_votes cfg now request peers votes n = (n', Ok votes') /\
    Forall2 group_vote voters' votes' /\ NoDup voters' /\
    (forall k, k ∈ voters -> k ∈ voters') /\
    (forall k, k ∈ map fst peers -> k ∈ live -> k <> id -> k ∈ voters').
Proof.
  intros Hm. revert voters votes n. induction peers as [|[k u] peers IH]; intros voters votes n Hreq Hnd Hall Hndv Hnew.
  { exists voters, votes, n. split; [done|]. split; [done|]. split; [done|]. split; [done|]. by intros k ?%elem_of_nil. }
  cbn [map fst] in *. apply NoDup_cons in Hnd as [Hk Hnd]. cbn [collect_votes]. rewrite (mem_id _ _ _ Hm).
  assert (Hrest : forall k' u' m, (k', u') ∈ peers -> k' <> id ->
     (exists v m', group_vote k' v /\ request k' u' m = (m', Ok v)) \/
     (k' ∉ live /\ exists e m', request k' u' m = (m', Err e))) by (intros; apply Hreq; [by right|done]).
  destruct (String.eqb_spec k id) as [->|Hne].
  { destruct (IH voters votes n Hrest Hnd Hall Hndv) as (vs & ws & n' & E & H1 & H2 & H3 & H4).
    - intros k' Hin. apply Hnew. by right.
    - exists vs, ws, n'. split_and!; try done. intros k' [->|Hin]%elem_of_cons; [done|by apply H4]. }
  rewrite run_attempt. destruct (Hreq k u n ltac:(left) Hne) as [(v & m' & Hv & E)|(Hdead & e & m' & E)]; rewrite E.
  - rewrite (mem_identities _ _ _ Hm), (mem_verifier _ _ _ Hm), (group_vote_verifies k v Hv).
    destruct (IH (voters ++ [k])%list (votes ++ [v])%list m' Hrest Hnd) as (vs & ws & n' & E' & H1 & H2 & H3 & H4).
    + apply Forall2_app; [done|by constructor].
    + apply NoDup_app. split; [done|]. split; [|apply NoDup_singleton].
      intros x Hx ->%list_elem_of_singleton. by apply (Hnew k); [left|done|].
    + intros k' Hin Hne' [Hx| ->%list_elem_of_singleton]%elem_of_app; [|done]. by apply (Hnew k'); [right|done|].
    + exists vs, ws, n'. split_and!; try done; [intros x Hx; apply H3, elem_of_app; by left|].
      intros k' [->|Hin]%elem_of_cons Hl Hn; [apply H3, elem_of_app; right; by left|by apply H4].
  - autorewrite with go_run. rewrite run_bind. destruct (recordPeerError now k e m') as [m2 [[]|e2]] eqn:E2.
    2:{ destruct (recordPeerError_ok now k e m'). congruence. }
    destruct (IH voters votes m2 Hrest Hnd Hall Hndv) as (vs & ws & n' & E' & H1 & H2 & H3 & H4).
    + intros k' Hin. apply Hnew. by right.
    + exists vs, ws, n'. split_and!; try done. intros k' [->|Hin]%elem_of_cons Hl; [done|by apply H4].
Qed.

(** What the certificate of enough votes holds. *)
Record certifies (cert : QuorumCertificate) : Prop := {
  cf_height : qc_Height cert = h;
  cf_round : qc_Round cert = r;
  cf_stage : qc_Stage cert = stage;
  cf_hash : qc_BlockHash cert = hash;
  cf_threshold : qc_Threshold cert = gr_threshold g;
  cf_version : qc_MembershipVersion cert = gr_version g;
  cf_set : qc_ValidatorSetHash cert = gr_hash g;
  cf_verifies : VerifyQuorumCertificate cert (gr_identities g) (cs_NewVerifier (gr_suite g)) = Ok tt;
  cf_wf : qc_wf cert
}.

Lemma quorum_certifies {S} id cfg now what block votes voters (n : Node S) :
  member g id cfg -> is_int64 (UnixMilli now) -> b_Height block = h -> b_Round block = r ->
  Forall2 group_vote voters votes -> NoDup voters -> (forall x, x ∈ voters -> x ∈ gr_ids g) ->
  gr_threshold g <= Z.of_nat (length voters) ->
  exists cert, form_certificate cfg now what block stage hash votes n = (n, Ok cert) /\ certifies cert.
Proof.
  intros Hm Hnow Hbh Hbr Hall Hnd Hin Hthr. pose proof (sg_lawful g Hg) as Hlaw.
  pose proof (NormalizeStage_vote stage Hstage) as Hn.
  assert (Hids : map v_VoterID votes = voters).
  { clear -Hall. induction Hall as [|id v voters votes (<- & _) _ IH]; [done|]. cbn. by rewrite IH. }
  assert (Hq : Forall (quorum_vote (gr_suite g) (gr_identities g) h r stage hash) votes).
  { apply Forall_forall. intros v Hv. apply (Forall2_flip group_vote) in Hall.
    apply list_elem_of_lookup in Hv as [i Hi]. by destruct (Forall2_lookup_l _ _ _ _ _ Hall Hi) as (? & _ & _ & ? & _). }
  assert (Hw : Forall vote_wf votes).
  { apply Forall_forall. intros v Hv. apply (Forall2_flip group_vote) in Hall.
    apply list_elem_of_lookup in Hv as [i Hi]. by destruct (Forall2_lookup_l _ _ _ _ _ Hall Hi) as (? & _ & _ & _ & ?). }
  assert (Hlen : length votes = length voters) by (rewrite <-Hids; symmetry; apply length_map).
  assert (Hsize : Z.of_nat (length voters) <= Z.of_nat (size (gr_identities g))).
  { apply Nat2Z.inj_le. rewrite <-(size_list_to_set (C := gset string) voters) by done.
    rewrite <-size_dom. apply subseteq_size. rewrite (proj2 (sg_identities g Hg)). set_solver. }
  pose proof (sg_positive g Hg). pose proof (sg_threshold g Hg) as Ht64.
  destruct (suite_quorum (gr_suite g) (gr_identities g) (gr_ids g) (sg_identities g Hg) h r stage hash
    ltac:(lia) Hstage (proj2 Hhash) now votes (gr_threshold g)) as (cert & Hform & Hver & _ & _ & _ & _ & Hcount & _);
    [done|by rewrite Hids|lia|lia|].
  exists (attachMembershipToQC cfg cert). split.
  { unfold form_certificate. by rewrite Hbh, Hbr, (mem_threshold _ _ _ Hm), Hform. }
  pose proof Hform as (_ & _ & _ & Hcert)%FormStage_ok. rewrite Hn in Hcert.
  assert (Hvotes : forall v, v ∈ qc_Votes cert -> v ∈ votes).
  { intros v. subst cert. cbn. intros [k Hk]%elem_of_sorted_values. apply unique_votes_spec in Hk as [Hv _].
    by rewrite (quorum_matching (gr_suite g) (gr_identities g) (gr_ids g) (sg_identities g Hg) h r stage hash
      ltac:(lia) Hstage (proj2 Hhash) votes Hq) in Hv. }
  constructor; try (subst cert; done).
  - exact (mem_version _ _ _ Hm).
  - exact (mem_hash _ _ _ Hm).
  - by rewrite verify_attached.
  - pose proof (sg_size g Hg). assert (Forall vote_wf (qc_Votes cert)).
    { apply Forall_forall. intros v Hv. rewrite Forall_forall in Hw. by apply Hw, Hvotes. }
    assert (Hstu : utf8 stage = true).
    { unfold IsVoteStage in Hstage. by destruct (String.eqb_spec stage StagePrevote) as [->|];
        [|destruct (String.eqb_spec stage StagePrecommit) as [->|]]. }
    unfold qc_wf, attachMembershipToQC. cbn. rewrite (mem_version _ _ _ Hm), (mem_hash _ _ _ Hm), Hcount.
    pose proof (sg_version g Hg). pose proof (sg_hash g Hg). destruct Hhash as [Hhu _].
    subst cert. cbn in *. unfold is_u64, is_int64, two64 in *. split_and!; try done; lia.
Qed.
End votes.

(** The block a proposer makes for a payload on top of a chain. *)
Definition next_block (g : Group) (now : Time) (proposer payload : string) (cs : list CommitRequest) : Block :=
  let txs := TransactionsFromPayload payload in
  mkBlock (Z.of_nat (length cs) + 1) 0 (end_hash cs) payload txs (m_digest (Apply (end_state cs) txs).1)
    proposer (gr_version g) (gr_hash g) (UnixMilli now).

Section follower.
Context {S : Type} `{ReliableStore S}.
#[local] Set Default Proof Using "Type*".
Implicit Types (n : Node S) (cs : list CommitRequest).
Local Abbreviation height cs := (Z.of_nat (length cs)).

(** A running node that has committed [cs] and nothing of a later height. *)
Record settled (cfg : Config) cs n : Prop := {
  se_durable : durable cfg n;
  se_commits : nd_commits n = cs;
  se_running : nd_running n = true;
  se_round : round_at (height cs + 1) n = 0;
  se_lock : l_Height (nd_lock n) <= height cs;
  se_votes h r st v : nd_votes n !! (h, r, st) = Some v -> h <= height cs;
  se_proposals h r p bh : nd_proposals n !! (h, r, p) = Some bh -> h <= height cs
}.

(** The same node within the round of the block [b], having voted in [stages]. *)
Record voting (cfg : Config) cs (b : Block) (stages : list string) n : Prop := {
  vt_durable : durable cfg n;
  vt_commits : nd_commits n = cs;
  vt_running : nd_running n = true;
  vt_round : round_at (b_Height b) n <= b_Round b;
  vt_lock : lock_allows (nd_lock n) (b_Height b) (hash_of b);
  vt_votes h r st v : nd_votes n !! (h, r, st) = Some v -> h <= height cs \/ (h = b_Height b /\ st ∈ stages);
  vt_proposals h r p bh : nd_proposals n !! (h, r, p) = Some bh ->
    h <= height cs \/ (h = b_Height b /\ bh = hash_of b)
}.

Lemma voting_core cfg cs b stages n n' : core n' = core n -> nd_running n' = nd_running n ->
  voting cfg cs b stages n -> voting cfg cs b stages n'.
Proof.
  intros Hcore Hrun [Hd Hc Hr Hrd Hl Hv Hp]. pose proof Hcore as (Es & El & Ec & Em & Er & Elk & Ev & Ep)%core_eq.
  constructor; rewrite ?Ec, ?Hrun, ?Elk, ?Ev, ?Ep; try done; [by apply (durable_core cfg n)|].
  unfold round_at in *. by rewrite Er.
Qed.

Lemma settled_core cfg cs n n' : core n' = core n -> nd_running n' = nd_running n ->
  settled cfg cs n -> settled cfg cs n'.
Proof.
  intros Hcore Hrun [Hd Hc Hr Hrd Hl Hv Hp]. pose proof Hcore as (Es & El & Ec & Em & Er & Elk & Ev & Ep)%core_eq.
  constructor; rewrite ?Ec, ?Hrun, ?Elk, ?Ev, ?Ep; try done; [by apply (durable_core cfg n)|].
  unfold round_at in *. by rewrite Er.
Qed.

Lemma settled_voting cfg cs b n : settled cfg cs n -> b_Height b = height cs + 1 -> 0 <= b_Round b ->
  voting cfg cs b [] n.
Proof.
  intros [Hd Hc Hrun Hr Hl Hv Hp] Hh Hb. constructor; try done; [by rewrite Hh, Hr|right; left; lia| |].
  - intros h r st v Hin. left. by eapply Hv.
  - intros h r p bh Hin. left. by eapply Hp.
Qed.

(** What a node has in common with the others that committed the same. *)
Lemma settled_end cfg n : durable cfg n -> nd_lastHash n = end_hash (nd_commits n) /\ nd_state n = end_state (nd_commits n).
Proof. intros Hd. apply (chain_end cfg), (du_chain _ _ Hd). Qed.

Section in_group.
Context (g : Group) (now : Time) (proposer payload : string).
#[local] Set Default Proof Using "All".
Context (Hg : sound_group g) (Hnow : is_int64 (UnixMilli now)) (Hpayload : utf8 payload = true).
Local Abbreviation next cs := (next_block g now proposer payload cs).

Lemma next_proposable id cfg cs stages n :
  member g id cfg -> voting cfg cs (next cs) stages n ->
  ProposerFor (height cs + 1) 0 (gr_ids g) = Ok proposer -> proposable cfg n (next cs).
Proof.
  intros Hm [Hd Hc Hrun Hr Hl Hv Hp] Hprop. destruct (settled_end cfg n Hd) as [El Em]. rewrite Hc in El, Em.
  constructor; cbn [b_Height b_Round b_ProposerID b_PreviousHash b_MembershipVersion b_ValidatorSetHash
    b_Transactions b_StateDigest next_block] in *; try done.
  - unfold height_of. by rewrite Hc.
  - unfold proposerFor. by rewrite (mem_ids _ _ _ Hm).
  - exact (mem_current _ _ _ Hm).
  - rewrite Em. destruct (end_digest cfg cs (nd_lastHash n) (nd_state n)) as [x Hx].
    { rewrite <-Hc. apply (du_chain _ _ Hd). }
    destruct (Apply_payload (end_state cs) payload) as [k Hk]; [rewrite Hx; apply HashBytes_nonempty|].
    eexists _, k. exact Hk.
  - intros bh Hbh. apply Hp in Hbh as [Hle|[_ ->]]; [lia|done].
Qed.

(** Casting a vote of the round. *)
Lemma voting_vote id cfg cs stages n stage qc v :
  member g id cfg -> voting cfg cs (next cs) stages n -> stage ∉ stages ->
  ProposerFor (height cs + 1) 0 (gr_ids g) = Ok proposer ->
  (stage = StagePrecommit -> check_prevoteQC cfg (next cs) (hash_of (next cs)) qc = Ok tt) ->
  SignStageVote (height cs + 1) 0 stage (hash_of (next cs)) id (n_signer cfg) = Ok v ->
  forall p, p_Block p = next cs -> exists n',
    voteForProposal cfg now p stage qc n = (n', Ok v) /\ voting cfg cs (next cs) (stage :: stages) n'.
Proof.
  intros Hm Hvt Hst Hprop Hqc Hsign p Hp. pose proof (next_proposable id cfg cs stages n Hm Hvt Hprop) as Hpr.
  destruct Hvt as [Hd Hc Hrun Hr Hl Hv Hps].
  destruct (vote_succeeds cfg now p stage qc n v) as (n' & E & Hvoted & Hrun' & Hr' & Hps').
  - by rewrite Hp.
  - by rewrite Hp.
  - by rewrite Hp.
  - rewrite Hp. cbn [b_Height b_Round next_block]. destruct (nd_votes n !! _) as [x|] eqn:E; [|done].
    apply Hv in E as [Hle|[_ Hin]]; [lia|done].
  - rewrite Hp, (mem_id _ _ _ Hm). exact Hsign.
  - exists n'. split; [exact E|]. rewrite Hp in *.
    assert (Hfacts : ledger n' = ledger n /\ nd_votes n' = <[(height cs + 1, 0, stage) := v]> (nd_votes n) /\
      lock_allows (nd_lock n') (b_Height (next cs)) (hash_of (next cs))).
    { inversion Hvoted as [|? _ _ _ _ Hin _|? _ _ _ _ _ Hlg Hlk Hvs]; subst.
      - rewrite Hp in Hin. apply Hv in Hin as [Hle|[_ Hin]]; [cbn in Hle; lia|done].
      - rewrite Hp in Hvs. split; [done|]. split; [exact Hvs|]. rewrite Hlk, Hp.
        destruct qc as [q|]; [|exact Hl]. destruct (String.eqb stage StagePrecommit); [|exact Hl].
        right. right. reflexivity. }
    destruct Hfacts as (Hlg & Hvs & Hlk). apply ledger_eq in Hlg as (Es & El & Ec & Em).
    constructor.
    + apply (durable_frame cfg n); try done; by rewrite Es.
    + by rewrite Ec.
    + by rewrite Hrun'.
    + rewrite Hr'. done.
    + exact Hlk.
    + intros h r st v' Hin. rewrite Hvs in Hin.
      destruct (decide ((height cs + 1, 0, stage) = (h, r, st))) as [[= <- <- <-]|Hne].
      * right. split; [done|set_solver].
      * rewrite lookup_insert_ne in Hin by done. apply Hv in Hin as [?|[? ?]]; [by left|right].
        split; [done|set_solver].
    + intros h r q bh Hin. rewrite Hps' in Hin.
      destruct (decide ((b_Height (next cs), b_Round (next cs), b_ProposerID (next cs)) = (h, r, q))) as [[= <- <- <-]|Hne].
      * rewrite lookup_insert_eq in Hin. injection Hin as <-. by right.
      * rewrite lookup_insert_ne in Hin by done. by eapply Hps.
Qed.
(** The block of the round, and what a chain it extends gives. *)
Lemma next_wf cfg cs n : durable cfg n -> nd_commits n = cs -> height cs + 1 < 2 ^ 63 ->
  proposer ∈ gr_ids g -> block_wf (next cs).
Proof.
  intros Hd Hc Hb Hin. pose proof (sg_version g Hg). pose proof (sg_hash g Hg). destruct (sg_names g Hg _ Hin) as [Hu _].
  destruct (settled_end cfg n Hd) as [El Em]. rewrite Hc in El, Em.
  destruct (end_digest cfg cs (nd_lastHash n) (nd_state n)) as [x Hx].
  { rewrite <-Hc. apply (du_chain _ _ Hd). }
  destruct (Apply_payload (end_state cs) payload) as [k Hk]; [rewrite Hx; apply HashBytes_nonempty|].
  destruct (Apply_hashed _ _ _ _ _ (ex_intro _ x Hx) Hk) as [y Hy].
  unfold block_wf, next_block.
  cbn [b_Height b_Round b_MembershipVersion b_CreatedAtUnixMilli b_Transactions b_PreviousHash b_Payload
    b_StateDigest b_ProposerID b_ValidatorSetHash].
  rewrite Hy. unfold is_u64, two64 in *. pose proof (proj1 (end_hash_shown cs)).
  split_and!; try done; try lia; [|apply utf8_HashBytes].
  constructor; [|constructor]. split; [apply utf8_HashBytes|done].
Qed.

Lemma next_continues id cfg cs n cert : member g id cfg -> durable cfg n -> nd_commits n = cs ->
  ProposerFor (height cs + 1) 0 (gr_ids g) = Ok proposer ->
  certifies g (height cs + 1) 0 StagePrecommit (hash_of (next cs)) cert ->
  continues cfg (length (nd_commits n)) (nd_lastHash n) (nd_state n) (mkCommit (next cs) cert)
    (Apply (end_state cs) (TransactionsFromPayload payload)).1.
Proof.
  intros Hm Hd Hc Hprop Hcert. destruct (settled_end cfg n Hd) as [El Em]. rewrite Hc in El, Em.
  destruct (end_digest cfg cs (nd_lastHash n) (nd_state n)) as [x Hx].
  { rewrite <-Hc. apply (du_chain _ _ Hd). }
  destruct (Apply_payload (end_state cs) payload) as [k Hk]; [rewrite Hx; apply HashBytes_nonempty|].
  constructor; cbn [c_Block c_Certificate next_block b_Height b_PreviousHash b_Transactions b_StateDigest].
  - unfold verifyCommit. cbv zeta. cbn [c_Block c_Certificate]. rewrite Block_Hash_ok. cbn [mbind result_bind].
    rewrite (cf_hash _ _ _ _ _ _ Hcert), (cf_height _ _ _ _ _ _ Hcert), (cf_round _ _ _ _ _ _ Hcert),
      (cf_stage _ _ _ _ _ _ Hcert), (cf_threshold _ _ _ _ _ _ Hcert), (mem_threshold _ _ _ Hm).
    cbn [next_block b_Height b_Round b_ProposerID b_StateDigest].
    rewrite !String.eqb_refl, !Z.eqb_refl. cbn [negb].
    destruct (mem_set _ _ _ Hm) as (set & Hset & Hsi & Hsl).
    unfold membershipSetForCommit. cbn [c_Block c_Certificate next_block b_MembershipVersion b_ValidatorSetHash].
    rewrite (cf_version _ _ _ _ _ _ Hcert), (cf_set _ _ _ _ _ _ Hcert), String.eqb_refl, Z.eqb_refl. cbn [negb orb].
    rewrite Hset. cbn [mbind result_bind]. rewrite Hsl, Hprop. cbn [mbind result_bind].
    rewrite String.eqb_refl. cbn [negb].
    destruct (Apply_hashed _ _ _ _ _ (ex_intro _ x Hx) Hk) as [y ->].
    pose proof (HashBytes_not_blank y) as Hb. unfold blank in Hb. rewrite Hb, Hsi, (mem_verifier _ _ _ Hm).
    exact (cf_verifies _ _ _ _ _ _ Hcert).
  - by rewrite Hc.
  - done.
  - exists k. by rewrite Em.
Qed.

(** Applying the commit of the round. *)
Lemma voting_commit id cfg cs stages n cert : member g id cfg -> voting cfg cs (next cs) stages n ->
  height cs + 1 < 2 ^ 63 -> proposer ∈ gr_ids g -> ProposerFor (height cs + 1) 0 (gr_ids g) = Ok proposer ->
  certifies g (height cs + 1) 0 StagePrecommit (hash_of (next cs)) cert ->
  let c := mkCommit (next cs) cert in
  commit_wf c /\ exists n', ApplyCommit cfg now c n = (n', Ok tt) /\ settled cfg (cs ++ [c]) n'.
Proof.
  intros Hm [Hd Hc Hrun Hr Hl Hv Hp] Hb Hin Hprop Hcert c.
  assert (Hwf : commit_wf c) by (split; [by apply (next_wf cfg cs n)|exact (cf_wf _ _ _ _ _ _ Hcert)]).
  split; [exact Hwf|].
  pose proof (next_continues id cfg cs n cert Hm Hd Hc Hprop Hcert) as Hcont.
  destruct (apply_continues cfg now c n (Apply (end_state cs) (TransactionsFromPayload payload)).1 Hd Hwf)
    as (n' & E & Hd' & Ec & _ & _ & Er & Elk & Ev & Ep);
    [unfold height_of; by rewrite Hc|exact Hcont|exact Hr|].
  exists n'. split; [exact E|].
  assert (Hlen : height (cs ++ [c]) = height cs + 1) by (rewrite length_app; cbn [length]; lia).
  constructor; rewrite ?Hlen.
  - exact Hd'.
  - by rewrite Ec, Hc.
  - pose proof (steady_ApplyCommit cfg now c n) as Hst. rewrite E in Hst. cbn [fst] in Hst. by rewrite Hst.
  - unfold height_of in Er. by rewrite Ec, Hc, Hlen in Er.
  - rewrite Elk. cbn. lia.
  - rewrite Ev. intros h r st v Hk. apply Hv in Hk as [?|[-> _]]; cbn; lia.
  - rewrite Ep. intros h r q bh Hk. apply Hp in Hk as [?|[-> _]]; cbn; lia.
Qed.
(** *** The proposer *)

(** A proposal of the block of the round, as a peer reads it. *)
Definition round_proposal (prop : Proposal) cs : Prop :=
  p_Block prop = next cs /\ proposal_wf prop /\
  VerifyProposal prop (gr_identities g) (cs_NewVerifier (gr_suite g)) = Ok tt.

Lemma proposer_in cs : ProposerFor (height cs + 1) 0 (gr_ids g) = Ok proposer -> proposer ∈ gr_ids g.
Proof.
  unfold ProposerFor. intros Hp. run_ok Hp. injection Hp as <-. apply list_elem_of_In.
  by eapply nth_error_In.
Qed.

(** The proposer's own block, proposal and prevote. *)
Lemma open_ok cfg cs n : member g proposer cfg -> settled cfg cs n -> height cs + 1 < 2 ^ 63 ->
  ProposerFor (height cs + 1) 0 (gr_ids g) = Ok proposer ->
  exists prop v n', openRound cfg now (height cs + 1) 0 payload n = (n', Ok (prop, hash_of (next cs), v)) /\
    round_proposal prop cs /\ group_vote g (height cs + 1) 0 StagePrevote (hash_of (next cs)) proposer v /\
    voting cfg cs (next cs) [StagePrevote] n'.
Proof.
  intros Hm Hs Hb Hprop. pose proof (proposer_in cs Hprop) as Hin.
  pose proof (se_durable _ _ _ Hs) as Hd. pose proof (se_commits _ _ _ Hs) as Hc.
  destruct (settled_end cfg n Hd) as [El Em]. rewrite Hc in El, Em.
  destruct (end_digest cfg cs (nd_lastHash n) (nd_state n)) as [x Hx].
  { rewrite <-Hc. apply (du_chain _ _ Hd). }
  destruct (Apply_payload (end_state cs) payload) as [k Hk]; [rewrite Hx; apply HashBytes_nonempty|].
  pose proof (next_wf cfg cs n Hd Hc Hb Hin) as Hwf.
  pose proof (sg_lawful g Hg) as Hlaw.
  destruct (suite_signer (s := gr_suite g) proposer) as (signer & Hsg & _ & Halg & Hsf & Hsign).
  rewrite (mem_signer _ _ _ Hm) in Hsg. injection Hsg as <-.
  destruct (Hsign (hash_of (next cs))) as [sig Hsig].
  set (prop := mkProposal (next cs) 0 (sg_Algorithm (n_signer cfg)) (Base64.EncodeToString sig)).
  assert (Hsp : SignProposal (next cs) (n_signer cfg) = Ok prop).
  { unfold SignProposal. rewrite Block_Hash_ok. cbn [mbind result_bind]. by rewrite Hsig. }
  destruct (member_votes g Hg (height cs + 1) 0 StagePrevote (hash_of (next cs)) ltac:(lia) ltac:(lia) eq_refl
    ltac:(split; [rewrite hash_of_eq; apply utf8_HashBytes|apply hash_of_nonempty]) proposer cfg Hm) as (v & Hv & Hgv).
  pose proof (settled_voting cfg cs (next cs) n Hs eq_refl ltac:(done)) as Hvt.
  destruct (voting_vote proposer cfg cs [] n StagePrevote None v Hm Hvt) with (p := prop) as (n' & E & Hvt');
    [set_solver|exact Hprop|by intros [=]|exact Hv|reflexivity|].
  exists prop, v, n'. split; [|split; [split; [done|split]|by split]].
  - unfold openRound. rewrite run_bind. unfold newBlock. autorewrite with go_run. change (id n) with n.
    unfold height_of. rewrite Hc, Z.eqb_refl. cbn [negb]. autorewrite with go_run. cbv zeta.
    rewrite Clone_id, Em, Hk. cbn [snd]. autorewrite with go_run. cbn [mret M_ret].
    rewrite (mem_id _ _ _ Hm), (mem_version _ _ _ Hm), (mem_hash _ _ _ Hm), El.
    change (mkBlock _ _ _ _ _ _ _ _ _ _) with (next cs). rewrite Hsp. rewrite run_bind. cbn [mret M_ret].
    rewrite Block_Hash_ok. autorewrite with go_run. rewrite run_bind, E. reflexivity.
  - unfold proposal_wf, prop. cbn [p_Block p_Round p_Algorithm p_Signature]. rewrite Halg.
    split_and!; [exact Hwf|done|exact (sg_algorithm g Hg)|apply base64_utf8].
  - destruct (proj1 (sg_identities g Hg) proposer Hin) as (vi & signer & Hvi & Hsg & Hof).
    rewrite (mem_signer _ _ _ Hm) in Hsg. injection Hsg as <-.
    destruct (sg_names g Hg proposer Hin) as [_ Hne].
    apply (proj2 (signed_messages_verify (n_signer cfg) _ (gr_identities g) Hsf) (next cs) vi prop); try done.
    + cbn. lia.
    + cbn. apply end_hash_shown.
Qed.

(** The networks a proposer meets: every running peer answers with its vote, the others
    do not answer. *)
Definition answers (net : Network) (cfg : Config) (live : gset string) (loop : nat)
  (path body : string) (good : string -> Vote -> Prop) : Prop :=
  NoDup (map fst (nw_order net loop (livePeerURLs cfg))) /\
  (forall k, k ∈ live -> k <> proposer -> k ∈ map fst (nw_order net loop (livePeerURLs cfg))) /\
  forall k u, (k, u) ∈ nw_order net loop (livePeerURLs cfg) -> k <> proposer ->
    (exists v, good k v /\ nw_do net "POST" (u ++ path) body = Ok (vote_response v)) \/
    (k ∉ live /\ exists e, nw_do net "POST" (u ++ path) body = Err e).

(** The certificate of a stage from the answers. *)
Lemma stage_certificate cfg cs stages n live loop path body stage selfVote net what request :
  member g proposer cfg -> voting cfg cs (next cs) stages n -> height cs + 1 < 2 ^ 63 ->
  IsVoteStage stage = true ->
  let good := group_vote g (height cs + 1) 0 stage (hash_of (next cs)) in
  good proposer selfVote -> gr_threshold g <= Z.of_nat (size live) ->
  answers net cfg live loop path body good ->
  (forall k u v m, good k v -> nw_do net "POST" (u ++ path) body = Ok (vote_response v) ->
     exists m', request k u m = (m', Ok v)) ->
  (forall k u e m, nw_do net "POST" (u ++ path) body = Err e -> exists m', request k u m = (m', Err e)) ->
  (forall k u, silent (request k u)) -> (forall k u, steady (request k u)) ->
  exists cert n',
    (votes ← collect_votes cfg now request (nw_order net loop (livePeerURLs cfg)) [selfVote];
     form_certificate cfg now what (next cs) stage (hash_of (next cs)) votes) n = (n', Ok cert) /\
    certifies g (height cs + 1) 0 stage (hash_of (next cs)) cert /\
    voting cfg cs (next cs) stages n'.
Proof.
  intros Hm Hvt Hb Hst good Hself Hthr (Hnd & Hlive & Hans) Hok Herr Hsil Hstd.
  assert (Hhash : utf8 (hash_of (next cs)) = true /\ hash_of (next cs) <> "")
    by (split; [rewrite hash_of_eq; apply utf8_HashBytes|apply hash_of_nonempty]).
  destruct (collect_quorum g Hg (height cs + 1) 0 stage (hash_of (next cs)) ltac:(lia) ltac:(lia) Hst Hhash
    proposer cfg now request live (nw_order net loop (livePeerURLs cfg)) [proposer] [selfVote] n Hm)
    as (voters & votes & n1 & E & Hall & Hndv & Hsub & Hmore); try done.
  { intros k u m Hin Hne. destruct (Hans k u Hin Hne) as [(v & Hv & Hdo)|(Hdead & e & Hdo)].
    - left. destruct (Hok k u v m Hv Hdo) as [m' Er]. by exists v, m'.
    - right. split; [done|]. destruct (Herr k u e m Hdo) as [m' Er]. by exists e, m'. }
  { by constructor. }
  { apply NoDup_singleton. }
  { by intros k _ Hne ->%list_elem_of_singleton. }
  assert (Hcount : gr_threshold g <= Z.of_nat (length voters)).
  { etrans; [exact Hthr|]. rewrite <-(size_list_to_set (C := gset string) voters) by done.
    apply Nat2Z.inj_le, subseteq_size. intros k Hk. apply elem_of_list_to_set.
    destruct (decide (k = proposer)) as [->|Hne]; [apply Hsub; by left|]. apply Hmore; try done. by apply Hlive. }
  destruct (quorum_certifies g Hg (height cs + 1) 0 stage (hash_of (next cs)) ltac:(lia) ltac:(lia) Hst Hhash
    proposer cfg now what (next cs) votes voters n1 Hm Hnow eq_refl eq_refl Hall Hndv) as (cert & Ef & Hcert); [|done|].
  { intros x Hx. apply list_elem_of_lookup in Hx as [i Hi].
    destruct (Forall2_lookup_l _ _ _ _ _ Hall Hi) as (v & _ & Hv).
    by apply (group_vote_in g Hg (height cs + 1) 0 stage (hash_of (next cs)) ltac:(lia) ltac:(lia) Hst Hhash x v). }
  exists cert, n1. split; [rewrite run_bind, E; exact Ef|]. split; [exact Hcert|].
  pose proof (silent_collect_votes cfg now request (nw_order net loop (livePeerURLs cfg)) [selfVote] Hsil n) as Hcore.
  pose proof (steady_collect_votes cfg now request (nw_order net loop (livePeerURLs cfg)) [selfVote] Hstd n) as Hrun.
  rewrite E in Hcore, Hrun. cbn [fst] in Hcore, Hrun. by apply (voting_core cfg cs (next cs) stages n).
Qed.
(** A member accepts the prevote certificate of the round. *)
Lemma prevotes_check id cfg cs cert : member g id cfg ->
  certifies g (height cs + 1) 0 StagePrevote (hash_of (next cs)) cert ->
  check_prevoteQC cfg (next cs) (hash_of (next cs)) (Some cert) = Ok tt.
Proof.
  intros Hm Hcert. unfold check_prevoteQC. cbn [next_block b_Height b_Round].
  rewrite (cf_height _ _ _ _ _ _ Hcert), (cf_round _ _ _ _ _ _ Hcert), (cf_stage _ _ _ _ _ _ Hcert),
    (cf_hash _ _ _ _ _ _ Hcert), (cf_version _ _ _ _ _ _ Hcert), (cf_set _ _ _ _ _ _ Hcert).
  rewrite !Z.eqb_refl, !String.eqb_refl. cbn [negb orb].
  rewrite (mem_current _ _ _ Hm), (mem_identities _ _ _ Hm), (mem_verifier _ _ _ Hm). cbn [mbind result_bind].
  exact (cf_verifies _ _ _ _ _ _ Hcert).
Qed.

(** The prevote certificate and the proposer's precommit. *)
Lemma certify_ok cfg cs n live net prop selfVote : member g proposer cfg ->
  voting cfg cs (next cs) [StagePrevote] n -> height cs + 1 < 2 ^ 63 ->
  ProposerFor (height cs + 1) 0 (gr_ids g) = Ok proposer -> p_Block prop = next cs ->
  let good stage := group_vote g (height cs + 1) 0 stage (hash_of (next cs)) in
  good StagePrevote proposer selfVote -> gr_threshold g <= Z.of_nat (size live) ->
  answers net cfg live 0 "/consensus/proposal" (Marshal (Proposal_json prop)) (good StagePrevote) ->
  exists cert v n', certifyRound cfg net now prop (hash_of (next cs)) selfVote n = (n', Ok (cert, v)) /\
    certifies g (height cs + 1) 0 StagePrevote (hash_of (next cs)) cert /\
    good StagePrecommit proposer v /\ voting cfg cs (next cs) [StagePrecommit; StagePrevote] n'.
Proof.
  intros Hm Hvt Hb Hprop Hp good Hself Hthr Hans.
  assert (Hhash : utf8 (hash_of (next cs)) = true /\ hash_of (next cs) <> "")
    by (split; [rewrite hash_of_eq; apply utf8_HashBytes|apply hash_of_nonempty]).
  destruct (stage_certificate cfg cs [StagePrevote] n live 0 _ _ StagePrevote selfVote net "proposal"
    (requestPrevote net now prop) Hm Hvt Hb eq_refl Hself Hthr Hans) as (cert & n1 & E & Hcert & Hvt1).
  { intros k u v m Hv Hdo. by apply (requestPrevote_vote g Hg (height cs + 1) 0 StagePrevote (hash_of (next cs))
      ltac:(lia) ltac:(lia) eq_refl Hhash net now prop k u v m). }
  { intros k u e m Hdo. unfold requestPrevote. rewrite Hdo. by eexists. }
  { intros k u. apply silent_requestPrevote. }
  { intros k u. apply steady_requestPrevote. }
  destruct (member_votes g Hg (height cs + 1) 0 StagePrecommit (hash_of (next cs)) ltac:(lia) ltac:(lia) eq_refl
    Hhash proposer cfg Hm) as (v & Hv & Hgv).
  destruct (voting_vote proposer cfg cs [StagePrevote] n1 StagePrecommit (Some cert) v Hm Hvt1) with (p := prop)
    as (n' & E' & Hvt'); [by intros ?%list_elem_of_singleton|exact Hprop| |exact Hv|exact Hp|].
  { intros _. by apply (prevotes_check proposer). }
  exists cert, v, n'. split; [|by split_and!; destruct Hgv].
  unfold certifyRound. rewrite Hp. rewrite run_bind in E. rewrite run_bind.
  destruct (collect_votes _ _ _ _ _ n) as [m [votes|e]]; [|discriminate E]. by rewrite run_bind, E, run_bind, E'.
Qed.

Lemma broadcast_ok cfg net c n : exists n', broadcastCommit cfg net now c n = (n', Ok tt).
Proof.
  unfold broadcastCommit. generalize (nw_order net 2 (livePeerURLs cfg)) as peers. intros peers. revert n.
  induction peers as [|[k u] peers IH]; intros n; [by exists n|]. cbn [broadcast_to].
  destruct (String.eqb k (cfg_ID cfg)); [apply IH|]. rewrite run_bind.
  destruct (nw_do net _ _ _) as [resp|e]; [destruct (300 <=? hr_StatusCode resp)|].
  - destruct (recordPeerError_ok now k (errorf ["commit broadcast returned "; hr_Status resp]) n) as [n' ->]. apply IH.
  - apply IH.
  - destruct (recordPeerError_ok now k e n) as [n' ->]. apply IH.
Qed.

(** The precommit certificate, the commit and its broadcast. *)
Lemma commit_ok cfg cs n live net prop cert0 selfVote : member g proposer cfg ->
  voting cfg cs (next cs) [StagePrecommit; StagePrevote] n -> height cs + 1 < 2 ^ 63 ->
  ProposerFor (height cs + 1) 0 (gr_ids g) = Ok proposer -> p_Block prop = next cs ->
  let good := group_vote g (height cs + 1) 0 StagePrecommit (hash_of (next cs)) in
  good proposer selfVote -> gr_threshold g <= Z.of_nat (size live) ->
  answers net cfg live 1 "/consensus/precommit"
    (Marshal (PrecommitRequest_json (mkPrecommitRequest prop cert0))) good ->
  exists cert n', commitRound cfg net now prop (hash_of (next cs)) cert0 selfVote n
                  = (n', Ok (mkCommit (next cs) cert)) /\
    certifies g (height cs + 1) 0 StagePrecommit (hash_of (next cs)) cert /\
    commit_wf (mkCommit (next cs) cert) /\ settled cfg (cs ++ [mkCommit (next cs) cert]) n'.
Proof.
  intros Hm Hvt Hb Hprop Hp good Hself Hthr Hans.
  assert (Hhash : utf8 (hash_of (next cs)) = true /\ hash_of (next cs) <> "")
    by (split; [rewrite hash_of_eq; apply utf8_HashBytes|apply hash_of_nonempty]).
  destruct (stage_certificate cfg cs _ n live 1 _ _ StagePrecommit selfVote net "precommit"
    (requestPrecommit net now (mkPrecommitRequest prop cert0)) Hm Hvt Hb eq_refl Hself Hthr Hans)
    as (cert & n1 & E & Hcert & Hvt1).
  { intros k u v m Hv Hdo. by apply (requestPrecommit_vote g Hg (height cs + 1) 0 StagePrecommit (hash_of (next cs))
      ltac:(lia) ltac:(lia) eq_refl Hhash net now _ k u v m). }
  { intros k u e m Hdo. unfold requestPrecommit. rewrite Hdo. by eexists. }
  { intros k u. apply silent_requestPrecommit. }
  { intros k u. apply steady_requestPrecommit. }
  destruct (voting_commit proposer cfg cs _ n1 cert Hm Hvt1 Hb (proposer_in cs Hprop) Hprop Hcert)
    as (Hwf & n2 & E2 & Hs2).
  destruct (broadcast_ok cfg net (mkCommit (next cs) cert) n2) as [n3 E3].
  exists cert, n3. split.
  { unfold commitRound. cbv zeta. rewrite Hp. rewrite run_bind in E. rewrite run_bind.
    destruct (collect_votes _ _ _ _ _ n) as [m [votes|e]]; [|discriminate E].
    by rewrite run_bind, E, run_bind, E2, run_bind, E3. }
  split; [done|]. split; [done|].
  pose proof (silent_broadcast cfg net now (mkCommit (next cs) cert) n2) as Hcore.
  pose proof (steady_broadcast cfg net now (mkCommit (next cs) cert) n2) as Hrun.
  rewrite E3 in Hcore, Hrun. by apply (settled_core cfg _ n2).
Qed.
End in_group.
End follower.
