(* ===== verification/Cluster.v ===== *)
(** * A cluster of validators: consensus/validator/node.go

    The nodes of one network with the HTTP exchange between them: a request a node makes is
    served by the node its URL names, in the state that node is in, and the answer is what
    the service encodes.  A round is run against the states the peers are in when its
    exchange reaches them: each peer gets the proposal, then the precommit request, then the
    commit.  The main theorem is that a settled cluster commits: when a quorum of validators
    runs and the proposer of the next height is among them, a payload proposed at any of them
    is committed by all of them. *)

From S2P Require Import Prelude Sha256 Json JsonParse JsonDecode JsonIndent Identity Crypto State Protocol Codec Quorum Store Consortium Anchors Evidence Auth Observability RateLimit Node NodeApi NodeProps NodeVotes NodeRecovery NodeLive.
Local Open Scope string_scope.
Local Open Scope Z_scope.

(** ** The transport *)

(** [http.StatusText], of the statuses the service replies with. *)
Definition StatusText (code : Z) : string :=
  if code =? 200 then "OK" else if code =? 400 then "Bad Request"
  else if code =? 401 then "Unauthorized" else if code =? 403 then "Forbidden"
  else if code =? 404 then "Not Found" else if code =? 409 then "Conflict"
  else if code =? 429 then "Too Many Requests" else if code =? 500 then "Internal Server Error"
  else if code =? 502 then "Bad Gateway" else if code =? 503 then "Service Unavailable" else "".

(** A request of a node to a peer. *)
Definition request (method path body : string) : Request :=
  mkRequest method path (fun _ => "") "" "" "" None body.

(** A validator of the cluster: its configuration and its server.  The map holds the nodes
    that have been built, by id. *)
Abbreviation World S := (gmap string (Config * Server S)).

(** What lies outside: how a URL reaches a listener, the order of Go's map loops, the text
    of the replies that no node reads, and the instant of the exchange. *)
Record Fabric := mkFabric {
  fb_resolve : string -> option (string * string);      (* the listener's id, and the path *)
  fb_order : nat -> gmap string string -> list (string * string);
  fb_encode : Body -> string;
  fb_refused : error;                                   (* no listener answers *)
  fb_clock : Clock
}.

Section cluster.
Context {S : Type} `{ValidatorStore S} (fb : Fabric).
Local Abbreviation now := (ck_Now (fb_clock fb)).

(** What [json.NewEncoder(w).Encode] writes; the empty slice of commits is nil. *)
Definition reply_text (b : Body) : string :=
  match b with
  | BodyError text => Marshal (JObj [("error", JStr text)]) ++ newline
  | BodyVote v => Marshal (Vote_json v) ++ newline
  | BodyCommit c => Marshal (Commit_json c) ++ newline
  | BodyCommits [] => Marshal JNull ++ newline
  | BodyCommits cs => Marshal (JArr (map Commit_json cs)) ++ newline
  | BodySnapshot s => Marshal (Snapshot_json s) ++ newline
  | _ => fb_encode fb b
  end.

Definition http_response (r : result Reply) : result Response :=
  reply ← r;
  Ok (mkResponse (rp_Status reply) (itoa (rp_Status reply) ++ " " ++ StatusText (rp_Status reply))
        (reply_text (rp_Body reply))).

(** A network that a handler does not use. *)
Definition no_network : Z -> Network :=
  fun _ => mkNetwork (fun _ _ _ => Err (fb_refused fb)) (fb_order fb).

(** What a node answers to a request other than a proposal. *)
Definition answer (method path body : string) (peer : Config * Server S) : (Config * Server S) * result Response :=
  let '(cfg, sv) := peer in
  if nd_running (sv_node sv) then
    match serve cfg [] no_network (fb_clock fb) (request method path body) with
    | Some handler => let '(sv', r) := handler sv in ((cfg, sv'), http_response r)
    | None => (peer, Ok (mkResponse 404 "404 Not Found" ("404 page not found" ++ newline)))
    end
  else (peer, Err (fb_refused fb)).

(** The request reaches the node [id]. *)
Definition visit (method path body id : string) : M (World S) Response := fun w =>
  match w !! id with
  | Some peer => let '(peer', r) := answer method path body peer in (<[id := peer']> w, r)
  | None => (w, Err (fb_refused fb))
  end.

(** The network a node sees when the peers are in the states [at_path path] when a request
    for [path] reaches them. *)
Definition exchange (at_path : string -> World S) : Network :=
  mkNetwork (fun method url body =>
    match fb_resolve fb url with
    | Some (id, path) => (visit method path body id (at_path path)).2
    | None => Err (fb_refused fb)
    end) (fb_order fb).

(** The same request to every peer of the node [cfg], in the order of its loop. *)
Fixpoint deliver_to (self path body : string) (peers : list (string * string)) (w : World S) : World S :=
  match peers with
  | [] => w
  | (peerID, peerURL) :: rest =>
      deliver_to self path body rest
        (if String.eqb peerID self then w
         else match fb_resolve fb (peerURL ++ path) with
              | Some (id, path) => (visit "POST" path body id w).1
              | None => w
              end)
  end.

Definition deliver (cfg : Config) (loop : nat) (path body : string) : World S -> World S :=
  deliver_to (cfg_ID cfg) path body (fb_order fb loop (livePeerURLs cfg)).

(** An operation of the node [id] that makes no request. *)
Definition at_node {A} (id : string) (m : Config -> M (Node S) A) : M (World S) A := fun w =>
  match w !! id with
  | Some (cfg, sv) => let '(n, r) := m cfg (sv_node sv) in (<[id := (cfg, mkServer n (sv_limiter sv))]> w, r)
  | None => (w, fail "no such node")
  end.

Definition proposal_path : string := "/consensus/proposal".
Definition precommit_path : string := "/consensus/precommit".
Definition commit_path : string := "/consensus/commit".

(** The states of the peers when the requests of a round reach them, [w] being the states at
    its start: nothing is sent before the proposer's own prevote, precommit requests follow
    its own precommit. *)
Definition after_proposal (cfg : Config) (height round : Z) (payload : string) (n : Node S) (w : World S) : World S :=
  match (openRound cfg now height round payload n).2 with
  | Ok (proposal, _, _) => deliver cfg 0 proposal_path (Marshal (Proposal_json proposal)) w
  | Err _ => w
  end.

Definition round_network (w w1 w2 : World S) : Network :=
  exchange (fun path => if String.eqb path precommit_path then w1
                        else if String.eqb path commit_path then w2 else w).

Definition after_precommit (cfg : Config) (height round : Z) (payload : string) (n : Node S) (w w1 : World S)
  : World S :=
  match (('(proposal, blockHash, vote) ← openRound cfg now height round payload;
          '(prevoteQC, _) ← certifyRound cfg (round_network w w w) now proposal blockHash vote;
          mret (mkPrecommitRequest proposal prevoteQC)) n).2 with
  | Ok req => deliver cfg 1 precommit_path (Marshal (PrecommitRequest_json req)) w1
  | Err _ => w1
  end.

(** [proposeRound] of the node [p] in the cluster. *)
Definition cluster_round (p : string) (height round : Z) (payload : string) : M (World S) CommitRequest := fun w =>
  match w !! p with
  | None => (w, fail "no such node")
  | Some (cfg, sv) =>
      let n := sv_node sv in
      let w1 := after_proposal cfg height round payload n w in
      let w2 := after_precommit cfg height round payload n w w1 in
      let '(n', r) := proposeRound cfg (round_network w w1 w2) now height round payload n in
      let w3 := match r with
                | Ok commit => deliver cfg 2 commit_path (Marshal (Commit_json commit)) w2
                | Err _ => w2
                end in
      (<[p := (cfg, mkServer n' (sv_limiter sv))]> w3, r)
  end.

(** A proposal requested of the node [target] over HTTP; a node that is itself proposing holds
    [proposeMu], and its caller gives up waiting. *)
Definition ask_proposal (propose : string -> string -> M (World S) CommitRequest) (busy : list string)
  (target path body : string) : M (World S) Response := fun w =>
  match w !! target with
  | Some (cfg, sv) =>
      if negb (nd_running (sv_node sv)) then (w, Err (fb_refused fb))
      else if containsString busy target then (w, fail "context deadline exceeded")
      else let '(w, r) := propose_handler cfg (propose target) now (request "POST" path body) w in
           (w, http_response r)
  | None => (w, Err (fb_refused fb))
  end.

(** [requestProposalFromProposer] of the node [cfg]. *)
Definition forward_proposal (propose : string -> string -> M (World S) CommitRequest) (busy : list string)
  (cfg : Config) (payload proposerID : string) : M (World S) CommitRequest := fun w =>
  let body := Marshal (JObj [("payload", JStr payload)]) in
  let url := default "" (livePeerURLs cfg !! proposerID) in
  let '(w, resp) :=
    if blank url then (w, Err (fb_refused fb))
    else match fb_resolve fb (url ++ "/propose") with
         | Some (target, path) => ask_proposal propose busy target path body w
         | None => (w, Err (fb_refused fb))
         end in
  (w, requestProposalFromProposer cfg (mkNetwork (fun _ _ _ => resp) (fb_order fb)) proposerID payload).

(** [Propose] of the node [id]: it proposes in the rounds it is scheduled for, and asks the
    scheduled proposer in the others, which handles the request in the same way.  The nodes
    of [busy] are waiting for this call; [depth] bounds how far a request is passed on. *)
Fixpoint cluster_propose (depth : nat) (busy : list string) (id payload : string) {struct depth}
  : M (World S) CommitRequest :=
  match depth with
  | O => raise (errors_New "context deadline exceeded")
  | Datatypes.S depth => fun w =>
      match w !! id with
      | None => (w, fail "no such node")
      | Some (cfg, sv) =>
          let height := height_of (sv_node sv) + 1 in
          let '(w, r) :=
            rounds_loop cfg (fun round => at_node id (fun cfg => markRound cfg now height round))
              (fun _ => forward_proposal (cluster_propose depth (id :: busy)) (id :: busy) cfg payload)
              (fun peer e => at_node id (fun _ => recordPeerError now peer e))
              (fun round => cluster_round id height round payload)
              (fun commit => at_node id (fun cfg => ApplyCommit cfg now commit))
              height (Z.to_nat (cfg_MaxRounds cfg)) 0 None w in
          ((at_node id (fun _ => metric (RecordConsensusProposal (negb (is_ok r)))) w).1, r)
      end
  end.

(** [CatchUpFromPeers] of the node [id]. *)
Definition cluster_catch_up (id : string) : M (World S) unit := fun w =>
  at_node id (fun cfg => CatchUpFromPeers cfg (exchange (fun _ => w)) now) w.
End cluster.

(** ** The peers of a round *)

Lemma serve_proposal {S} `{ValidatorStore S} cfg (net : Z -> Network) clock body :
  serve cfg [] net clock (request "POST" proposal_path body)
  = Some (on_node (withPeerAuth cfg (handleProposal cfg (ck_Now clock)) (request "POST" proposal_path body))).
Proof. reflexivity. Qed.

Lemma serve_precommit {S} `{ValidatorStore S} cfg (net : Z -> Network) clock body :
  serve cfg [] net clock (request "POST" precommit_path body)
  = Some (on_node (withPeerAuth cfg (handlePrecommit cfg (ck_Now clock)) (request "POST" precommit_path body))).
Proof. reflexivity. Qed.

Lemma serve_commit {S} `{ValidatorStore S} cfg (net : Z -> Network) clock body :
  serve cfg [] net clock (request "POST" commit_path body)
  = Some (on_node (withPeerAuth cfg (handleCommit cfg (ck_Now clock)) (request "POST" commit_path body))).
Proof. reflexivity. Qed.

Lemma Decode_Marshal_ok {A} (f : list (string * json) -> result A) v x :
  json_ok v = true -> dec_struct f v = Ok x -> Decode f (Marshal v) = Ok x.
Proof.
  intros Hok Hf. pose proof (Decode_value_Marshal (dec_struct f) v "" Hok I) as Hd.
  rewrite append_nil in Hd. unfold Decode. by rewrite Hd.
Qed.

Section peers.
Context {S : Type} `{ReliableStore S} (fb : Fabric) (g : Group) (proposer payload : string).
Context (Hg : sound_group g) (Hnow : is_int64 (UnixMilli (ck_Now (fb_clock fb)))) (Hpayload : utf8 payload = true).
#[local] Set Default Proof Using "All".
Local Abbreviation now := (ck_Now (fb_clock fb)).
Local Abbreviation height cs := (Z.of_nat (length cs)).
Local Abbreviation next cs := (next_block g now proposer payload cs).
Local Abbreviation good cs := (fun stage => group_vote g (height cs + 1) 0 stage (hash_of (next cs))).
Implicit Types (cs : list CommitRequest) (lim : option rateLimiter).

Lemma answer_proposal id cfg lim (n : Node S) cs prop : member g id cfg -> cfg_ProductionMode cfg = false ->
  settled cfg cs n -> height cs + 1 < 2 ^ 63 -> ProposerFor (height cs + 1) 0 (gr_ids g) = Ok proposer ->
  round_proposal g now proposer payload prop cs -> exists v n',
    answer fb "POST" proposal_path (Marshal (Proposal_json prop)) (cfg, mkServer n lim)
    = ((cfg, mkServer n' lim), Ok (vote_response v)) /\
    good cs StagePrevote id v /\ voting cfg cs (next cs) [StagePrevote] n'.
Proof.
  intros Hm Hdev Hs Hb Hprop (Hp & Hwf & Hver).
  destruct (member_votes g Hg (height cs + 1) 0 StagePrevote (hash_of (next cs)) ltac:(lia) ltac:(lia) eq_refl
    ltac:(split; [rewrite hash_of_eq; apply utf8_HashBytes|apply hash_of_nonempty]) id cfg Hm) as (v & Hv & Hgv).
  pose proof (settled_voting cfg cs (next cs) n Hs eq_refl ltac:(done)) as Hvt.
  destruct (voting_vote g now proposer payload Hg Hnow Hpayload id cfg cs [] n StagePrevote None v Hm Hvt)
    with (p := prop) as (n' & E & Hvt'); [set_solver|exact Hprop|by intros [=]|exact Hv|exact Hp|].
  exists v, n'. split; [|by split].
  unfold answer. cbn [sv_node]. rewrite (se_running _ _ _ Hs), serve_proposal.
  unfold on_node, withPeerAuth. rewrite Hdev. cbn [negb sv_node sv_limiter].
  unfold handleProposal. cbn [rq_Body request].
  rewrite (Decode_Marshal_ok _ _ _ (Proposal_json_ok prop Hwf) (Proposal_of_json prop Hwf)).
  rewrite (mem_identities _ _ _ Hm), (mem_verifier _ _ _ Hm), Hver. unfold reply_with.
  rewrite run_attempt, E. reflexivity.
Qed.

Lemma answer_precommit id cfg lim (n : Node S) cs prop cert : member g id cfg -> cfg_ProductionMode cfg = false ->
  voting cfg cs (next cs) [StagePrevote] n -> height cs + 1 < 2 ^ 63 ->
  ProposerFor (height cs + 1) 0 (gr_ids g) = Ok proposer -> round_proposal g now proposer payload prop cs ->
  certifies g (height cs + 1) 0 StagePrevote (hash_of (next cs)) cert -> exists v n',
    answer fb "POST" precommit_path (Marshal (PrecommitRequest_json (mkPrecommitRequest prop cert)))
      (cfg, mkServer n lim) = ((cfg, mkServer n' lim), Ok (vote_response v)) /\
    good cs StagePrecommit id v /\ voting cfg cs (next cs) [StagePrecommit; StagePrevote] n'.
Proof.
  intros Hm Hdev Hvt Hb Hprop (Hp & Hwf & Hver) Hcert.
  destruct (member_votes g Hg (height cs + 1) 0 StagePrecommit (hash_of (next cs)) ltac:(lia) ltac:(lia) eq_refl
    ltac:(split; [rewrite hash_of_eq; apply utf8_HashBytes|apply hash_of_nonempty]) id cfg Hm) as (v & Hv & Hgv).
  destruct (voting_vote g now proposer payload Hg Hnow Hpayload id cfg cs [StagePrevote] n StagePrecommit
    (Some cert) v Hm Hvt) with (p := prop) as (n' & E & Hvt');
    [by intros ?%list_elem_of_singleton|exact Hprop| |exact Hv|exact Hp|].
  { intros _. by apply (prevotes_check g now proposer payload Hg Hnow Hpayload id). }
  exists v, n'. split; [|by split].
  unfold answer. cbn [sv_node]. rewrite (vt_running _ _ _ _ _ Hvt), serve_precommit.
  unfold on_node, withPeerAuth. rewrite Hdev. cbn [negb sv_node sv_limiter].
  unfold handlePrecommit. cbn [rq_Body request].
  rewrite (Decode_Marshal_ok PrecommitRequest_of _ (mkPrecommitRequest prop cert)).
  2:{ unfold PrecommitRequest_json. cbn [json_ok forallb pr_Proposal pr_PrevoteQC].
      by rewrite (Proposal_json_ok prop Hwf), (QC_json_ok cert (cf_wf _ _ _ _ _ _ Hcert)). }
  2:{ apply PrecommitRequest_of_json; [exact Hwf|exact (cf_wf _ _ _ _ _ _ Hcert)]. }
  cbn [pr_Proposal pr_PrevoteQC].
  rewrite (mem_identities _ _ _ Hm), (mem_verifier _ _ _ Hm), Hver. unfold reply_with.
  rewrite run_attempt, E. reflexivity.
Qed.

Lemma answer_commit id cfg lim (n : Node S) cs stages cert : member g id cfg -> cfg_ProductionMode cfg = false ->
  voting cfg cs (next cs) stages n -> height cs + 1 < 2 ^ 63 ->
  ProposerFor (height cs + 1) 0 (gr_ids g) = Ok proposer -> 
  certifies g (height cs + 1) 0 StagePrecommit (hash_of (next cs)) cert ->
  let c := mkCommit (next cs) cert in exists n' r,
    answer fb "POST" commit_path (Marshal (Commit_json c)) (cfg, mkServer n lim) = ((cfg, mkServer n' lim), r) /\
    settled cfg (cs ++ [c]) n'.
Proof.
  intros Hm Hdev Hvt Hb Hprop Hcert c.
  pose proof (proposer_in g now proposer payload Hg Hnow Hpayload cs Hprop) as Hin.
  destruct (voting_commit g now proposer payload Hg Hnow Hpayload id cfg cs stages n cert Hm Hvt Hb Hin Hprop Hcert)
    as (Hwf & n' & E & Hs').
  exists n'. eexists. split; [|exact Hs'].
  unfold answer. cbn [sv_node]. rewrite (vt_running _ _ _ _ _ Hvt), serve_commit.
  unfold on_node, withPeerAuth. rewrite Hdev. cbn [negb sv_node sv_limiter].
  unfold handleCommit. cbn [rq_Body request].
  rewrite (Decode_Marshal_ok _ _ _ (Commit_json_ok c Hwf) (Commit_of_json c Hwf)).
  rewrite run_attempt. fold c in E. rewrite E. reflexivity.
Qed.
End peers.

(** ** The cluster of a round *)

(** A transport that reaches the validators of [urls] by their URLs. *)
Record connects (fb : Fabric) (urls : gmap string string) : Prop := {
  cn_order loop m : fb_order fb loop m ≡ₚ map_to_list m;
  cn_resolve k u path : urls !! k = Some u ->
    path ∈ [proposal_path; precommit_path; commit_path; "/propose"; "/commits"] ->
    fb_resolve fb (u ++ path) = Some (k, path);
  cn_shown k u : urls !! k = Some u -> blank u = false
}.

Definition is_up {S} (peer : Config * Server S) : Prop := nd_running (sv_node peer.2) = true.

#[global] Instance is_up_dec {S} (peer : Config * Server S) : Decision (is_up peer).
Proof. unfold is_up. apply _. Defined.

(** The validators that run. *)
Definition up {S} (w : World S) : gset string := dom (filter (fun kp => is_up kp.2) w).

Lemma elem_of_up {S} (w : World S) k : k ∈ up w <-> exists peer, w !! k = Some peer /\ is_up peer.
Proof.
  unfold up. rewrite elem_of_dom. split.
  - intros [peer Hp%map_lookup_filter_Some]. by exists peer.
  - intros (peer & Hp). exists peer. by apply map_lookup_filter_Some.
Qed.

Section visits.
Context {S : Type} `{ValidatorStore S} (fb : Fabric).
Implicit Types (w : World S).

Lemma visit_lookup method path body id w k :
  (visit fb method path body id w).1 !! k
  = if decide (k = id) then fst ∘ answer fb method path body <$> w !! k else w !! k.
Proof.
  unfold visit. destruct (w !! id) as [peer|] eqn:E.
  - destruct (answer fb method path body peer) as [peer' r] eqn:Ea. cbn [fst].
    destruct (decide (k = id)) as [->|Hne]; [by rewrite lookup_insert_eq, E; cbn; rewrite Ea|].
    by rewrite lookup_insert_ne.
  - cbn. by destruct (decide (k = id)) as [->|]; [rewrite E|].
Qed.

(** A message to the peers reaches each of them, and nothing else changes. *)
Lemma deliver_lookup self path body peers w k :
  NoDup (map fst peers) -> (forall i u, (i, u) ∈ peers -> fb_resolve fb (u ++ path) = Some (i, path)) ->
  deliver_to fb self path body peers w !! k
  = if decide (k ∈ map fst peers /\ k <> self) then fst ∘ answer fb "POST" path body <$> w !! k else w !! k.
Proof.
  revert w. induction peers as [|[i u] peers IH]; intros w Hnd Hr; cbn [deliver_to map fst].
  { destruct (decide _) as [[[]%elem_of_nil _]|]; done. }
  apply NoDup_cons in Hnd as [Hi Hnd]. rewrite IH by (done || (intros; apply Hr; by right)).
  destruct (String.eqb_spec i self) as [->|Hne].
  - destruct (decide (k ∈ map fst peers /\ k <> self)) as [[Hk Hs]|Hn].
    + rewrite decide_True; [done|]. split; [by right|done].
    + rewrite decide_False; [done|]. intros [[->|Hk]%elem_of_cons Hs]; [done|]. by apply Hn.
  - rewrite (Hr i u) by left. rewrite visit_lookup.
    destruct (decide (k = i)) as [->|Hki].
    + rewrite decide_False by (by intros [? _]). rewrite decide_True; [done|]. split; [by left|done].
    + destruct (decide (k ∈ map fst peers /\ k <> self)) as [[Hk Hs]|Hn].
      * rewrite decide_True; [done|]. split; [by right|done].
      * rewrite decide_False; [done|]. intros [[->|Hk]%elem_of_cons Hs]; [done|]. by apply Hn.
Qed.

Lemma answer_down method path body peer : ~ is_up peer -> answer fb method path body peer = (peer, Err (fb_refused fb)).
Proof. unfold is_up, answer. destruct peer as [cfg sv]. cbn. by destruct (nd_running (sv_node sv)). Qed.
End visits.

Section rounds.
Context {S : Type} `{ReliableStore S} (fb : Fabric) (g : Group) (urls : gmap string string).
Context (Hg : sound_group g) (Hfb : connects fb urls) (Hnow : is_int64 (UnixMilli (ck_Now (fb_clock fb)))).
#[local] Set Default Proof Using "All".
Local Abbreviation now := (ck_Now (fb_clock fb)).
Local Abbreviation height cs := (Z.of_nat (length cs)).
Implicit Types (w : World S) (cs : list CommitRequest).

(** A validator of the cluster, as it is configured. *)
Record placed (k : string) (cfg : Config) : Prop := {
  pl_member : member g k cfg;
  pl_urls : livePeerURLs cfg = urls;
  pl_reached : k ∈ dom urls;
  pl_dev : cfg_ProductionMode cfg = false;
  pl_rounds : 1 <= cfg_MaxRounds cfg
}.

(** The cluster has committed [cs]: every validator that runs is settled there. *)
Definition in_step cs w : Prop :=
  forall k cfg sv, w !! k = Some (cfg, sv) -> is_up (cfg, sv) -> placed k cfg /\ settled cfg cs (sv_node sv).

(** What a round leaves of the cluster as it was: who is there, and the nodes that are down. *)
Definition same_shape w w' : Prop :=
  forall k, match w !! k, w' !! k with
            | Some (cfg, sv), Some (cfg', sv') =>
                cfg' = cfg /\ sv_limiter sv' = sv_limiter sv /\
                nd_running (sv_node sv') = nd_running (sv_node sv) /\
                (~ is_up (cfg, sv) -> sv' = sv)
            | None, None => True
            | _, _ => False
            end.

Lemma same_shape_refl w : same_shape w w.
Proof. intros k. by destruct (w !! k) as [[cfg sv]|]. Qed.

Lemma same_shape_up w w' : same_shape w w' -> up w' = up w.
Proof.
  intros Hs. apply set_eq. intros k. rewrite !elem_of_up. specialize (Hs k).
  destruct (w !! k) as [[cfg sv]|], (w' !! k) as [[cfg' sv']|]; [|done..|].
  - destruct Hs as (-> & _ & Hr & _). unfold is_up. cbn.
    split; intros (peer & [= <-] & Hup); eexists; (split; [reflexivity|]); cbn in *; congruence.
  - by split; intros (peer & ? & _).
Qed.

Lemma order_keys cfg loop k : placed k cfg ->
  NoDup (map fst (fb_order fb loop (livePeerURLs cfg))) /\
  (forall i, i ∈ map fst (fb_order fb loop (livePeerURLs cfg)) <-> i ∈ dom urls) /\
  (forall i u, (i, u) ∈ fb_order fb loop (livePeerURLs cfg) -> urls !! i = Some u).
Proof.
  intros Hp. rewrite (pl_urls _ _ Hp). pose proof (cn_order fb urls Hfb loop urls) as Hperm. split_and!.
  - rewrite Hperm. apply NoDup_fst_map_to_list.
  - intros i. rewrite Hperm. rewrite elem_of_dom, list_elem_of_fmap. split.
    + intros ([j u] & -> & Hin%elem_of_map_to_list). by exists u.
    + intros [u Hu]. exists (i, u). by rewrite elem_of_map_to_list.
  - intros i u. by rewrite Hperm, elem_of_map_to_list.
Qed.

Lemma delivered p cfg loop path body w k : placed p cfg ->
  path ∈ [proposal_path; precommit_path; commit_path] ->
  deliver fb cfg loop path body w !! k
  = if decide (k ∈ dom urls /\ k <> p) then fst ∘ answer fb "POST" path body <$> w !! k else w !! k.
Proof.
  intros Hp Hpath. destruct (order_keys cfg loop p Hp) as (Hnd & Hkeys & Hin). unfold deliver.
  rewrite (mem_id _ _ _ (pl_member _ _ Hp)), deliver_lookup; [|done|].
  - destruct (decide (k ∈ dom urls /\ k <> p)) as [[Hk Hne]|Hn].
    + rewrite decide_True; [done|]. by rewrite Hkeys.
    + rewrite decide_False; [done|]. by rewrite Hkeys.
  - intros j u Hju. apply (cn_resolve fb urls Hfb); [by apply Hin|]. set_solver.
Qed.

(** What the proposer reads from a peer. *)
Lemma exchanged w w1 w2 u k path body : urls !! k = Some u ->
  path ∈ [proposal_path; precommit_path; commit_path] ->
  nw_do (round_network fb w w1 w2) "POST" (u ++ path) body
  = (visit fb "POST" path body k (if String.eqb path precommit_path then w1
                                  else if String.eqb path commit_path then w2 else w)).2.
Proof.
  intros Hu Hpath. unfold round_network, exchange. cbn [nw_do].
  rewrite (cn_resolve fb urls Hfb k u path Hu) by set_solver. done.
Qed.

(** The answers of a stage: every running peer answers with a good vote. *)
Lemma stage_answers p cfg loop path body w w1 w2 (good : string -> Vote -> Prop) (live : gset string) :
  placed p cfg -> path ∈ [proposal_path; precommit_path] ->
  let at_path := if String.eqb path precommit_path then w1 else w in
  (forall k, k ∈ live -> k <> p -> k ∈ dom urls /\ exists peer v, at_path !! k = Some peer /\ good k v /\
     (answer fb "POST" path body peer).2 = Ok (vote_response v)) ->
  (forall k peer, k ∉ live -> at_path !! k = Some peer -> ~ is_up peer) ->
  answers p (round_network fb w w1 w2) cfg live loop path body good.
Proof.
  intros Hp Hpath at_path Hlive Hdown. destruct (order_keys cfg loop p Hp) as (Hnd & Hkeys & Hin).
  split; [done|]. split.
  { intros k Hk Hne. apply Hkeys. by apply Hlive. }
  intros k u Hku Hne. specialize (Hin k u Hku).
  assert (Hdo : nw_do (round_network fb w w1 w2) "POST" (u ++ path) body = (visit fb "POST" path body k at_path).2).
  { rewrite (exchanged w w1 w2 u k path body Hin) by set_solver. unfold at_path.
    destruct (String.eqb_spec path precommit_path) as [|Hnp]; [done|].
    destruct (String.eqb_spec path commit_path) as [->|]; [|done].
    exfalso. clear -Hpath Hnp. apply elem_of_cons in Hpath as [[=]|Hpath]. apply list_elem_of_singleton in Hpath. done. }
  rewrite Hdo. unfold visit. destruct (decide (k ∈ live)) as [Hl|Hl].
  - left. destruct (Hlive k Hl Hne) as (_ & peer & v & -> & Hv & Ha). exists v. split; [done|].
    destruct (answer fb "POST" path body peer) as [peer' r]. exact Ha.
  - right. split; [done|]. destruct (at_path !! k) as [peer|] eqn:E; [|by eexists].
    rewrite answer_down by by eapply Hdown. by eexists.
Qed.

(** The exchange of a certificate is with the peers only. *)
Lemma collect_votes_ext cfg t (req req' : string -> string -> M (Node S) Vote) peers votes n :
  (forall k u m, (k, u) ∈ peers -> req k u m = req' k u m) ->
  collect_votes cfg t req peers votes n = collect_votes cfg t req' peers votes n.
Proof.
  revert votes n. induction peers as [|[k u] peers IH]; intros votes n Heq; [done|]. cbn [collect_votes].
  assert (Hrest : forall k u m, (k, u) ∈ peers -> req k u m = req' k u m) by (intros; apply Heq; by right).
  destruct (String.eqb k (cfg_ID cfg)); [by apply IH|]. rewrite !run_attempt, (Heq k u n) by left.
  destruct (req' k u n) as [m [v|e]].
  - destruct (VerifyVote v (n_identities cfg) (n_verifier cfg)); [by apply IH|]. rewrite !run_bind.
    destruct (metric RecordInvalidSignature m) as [m1 [[]|]]; [|done]. rewrite !run_bind.
    destruct (recordPeerError t k e m1) as [m2 [[]|]]; [by apply IH|done].
  - rewrite !run_bind. destruct (recordPeerError t k e m) as [m2 [[]|]]; [by apply IH|done].
Qed.

Lemma certifyRound_network p cfg prop hash vote w w1 w2 (n : Node S) : placed p cfg ->
  certifyRound cfg (round_network fb w w1 w2) now prop hash vote n
  = certifyRound cfg (round_network fb w w w) now prop hash vote n.
Proof.
  intros Hp. unfold certifyRound. rewrite !run_bind.
  assert (Hc : collect_votes cfg now (requestPrevote (round_network fb w w1 w2) now prop)
      (nw_order (round_network fb w w1 w2) 0 (livePeerURLs cfg)) [vote] n
    = collect_votes cfg now (requestPrevote (round_network fb w w w) now prop)
      (nw_order (round_network fb w w w) 0 (livePeerURLs cfg)) [vote] n).
  { apply collect_votes_ext. intros k u m Hin. destruct (order_keys cfg 0 p Hp) as (_ & _ & Hu).
    specialize (Hu k u Hin). unfold requestPrevote.
    by rewrite !(exchanged _ _ _ u k proposal_path _ Hu) by left. }
  by rewrite Hc.
Qed.

(** A message of the round reaches the running peers, which move from [P] to [Q]; the
    others stay as they are. *)
Lemma stage_moves p cfg loop path body w0 w (P Q : string -> Config -> Node S -> Prop) : placed p cfg ->
  path ∈ [proposal_path; precommit_path; commit_path] -> same_shape w0 w ->
  (forall k cfg' sv, k <> p -> w !! k = Some (cfg', sv) -> is_up (cfg', sv) ->
     placed k cfg' /\ P k cfg' (sv_node sv)) ->
  (forall k cfg' lim n, placed k cfg' -> P k cfg' n -> nd_running n = true -> exists n' r,
     answer fb "POST" path body (cfg', mkServer n lim) = ((cfg', mkServer n' lim), r) /\
     nd_running n' = true /\ Q k cfg' n') ->
  let w' := deliver fb cfg loop path body w in
  same_shape w0 w' /\ w' !! p = w !! p /\
  (forall k cfg' sv, k <> p -> w' !! k = Some (cfg', sv) -> is_up (cfg', sv) ->
     placed k cfg' /\ Q k cfg' (sv_node sv)).
Proof.
  intros Hp Hpath Hshape HP Hstep w'.
  assert (Hrun : forall k cfg' sv, k <> p -> w !! k = Some (cfg', sv) -> is_up (cfg', sv) -> exists n',
    w' !! k = Some (cfg', mkServer n' (sv_limiter sv)) /\ nd_running n' = true /\ placed k cfg' /\ Q k cfg' n').
  { intros k cfg' sv Hne Hk Hup. destruct (HP k cfg' sv Hne Hk Hup) as [Hpl HPk]. destruct sv as [n lim].
    destruct (Hstep k cfg' lim n Hpl HPk Hup) as (n' & r & Ha & Hr & HQ). exists n'. split; [|done].
    unfold w'. rewrite (delivered p) by done. rewrite decide_True by (split; [exact (pl_reached _ _ Hpl)|done]).
    rewrite Hk. change (Some (answer fb "POST" path body (cfg', mkServer n lim)).1 = Some (cfg', mkServer n' lim)).
    by rewrite Ha. }
  assert (Hdown : forall k cfg' sv, w !! k = Some (cfg', sv) -> ~ is_up (cfg', sv) -> w' !! k = w !! k).
  { intros k cfg' sv Hk Hd. unfold w'. rewrite (delivered p) by done. case_decide; [|done].
    rewrite Hk. change (Some (answer fb "POST" path body (cfg', sv)).1 = Some (cfg', sv)). by rewrite answer_down. }
  assert (Hself : w' !! p = w !! p) by (unfold w'; rewrite (delivered p) by done; by rewrite decide_False by (by intros [_ []])).
  split; [|split; [exact Hself|]].
  - intros k. specialize (Hshape k). destruct (decide (k = p)) as [->|Hne]; [by rewrite Hself|].
    destruct (w !! k) as [[cfg' sv]|] eqn:Hk.
    + destruct (decide (is_up (cfg', sv))) as [Hup|Hd]; [|by rewrite (Hdown k cfg' sv Hk Hd), Hk].
      destruct (Hrun k cfg' sv Hne Hk Hup) as (n' & -> & Hr & _).
      destruct (w0 !! k) as [[cfg0 sv0]|]; [|done]. destruct Hshape as (-> & Hl & Hrn & Hsame).
      unfold is_up in Hup. cbn in Hup. split_and!; [done|done|cbn; congruence|].
      intros Hnot. exfalso. apply Hnot. unfold is_up. cbn. congruence.
    + unfold w'. rewrite (delivered p), Hk by done. by case_decide.
  - intros k cfg' sv Hne Hk Hup. destruct (w !! k) as [[cfg1 sv1]|] eqn:Hk1.
    + destruct (decide (is_up (cfg1, sv1))) as [Hup1|Hd].
      * destruct (Hrun k cfg1 sv1 Hne Hk1 Hup1) as (n' & Hk' & _ & Hpl & HQ).
        rewrite Hk in Hk'. injection Hk' as -> ->. by split.
      * rewrite (Hdown k cfg1 sv1 Hk1 Hd), Hk1 in Hk. injection Hk as <- <-. done.
    + exfalso. revert Hk. unfold w'. rewrite (delivered p), Hk1 by done. by case_decide.
Qed.

(** A round of a cluster in step, run by the scheduled proposer, with a quorum of validators
    running: the payload is committed by every validator that runs. *)
Lemma round_commits w cs p payload : in_step cs w -> utf8 payload = true -> height cs + 1 < 2 ^ 63 ->
  ProposerFor (height cs + 1) 0 (gr_ids g) = Ok p -> p ∈ up w -> gr_threshold g <= Z.of_nat (size (up w)) ->
  exists c w', cluster_round fb p (height cs + 1) 0 payload w = (w', Ok c) /\
    c_Block c = next_block g now p payload cs /\ commit_wf c /\ same_shape w w' /\ in_step (cs ++ [c]) w'.
Proof.
  intros Hin Hpay Hb Hprop Hup Hthr.
  apply elem_of_up in Hup as ([cfg [n lim]] & Hwp & Hupp).
  destruct (Hin p cfg _ Hwp Hupp) as [Hpl Hset]. cbn [sv_node] in Hset. pose proof (pl_member _ _ Hpl) as Hm.
  set (next := next_block g now p payload cs) in *.
  (* the proposal and the proposer's prevote *)
  destruct (open_ok g now p payload Hg Hnow Hpay cfg cs n Hm Hset Hb Hprop)
    as (prop & v1 & n1 & E1 & Hrp & Hv1 & Hvt1).
  set (w1 := deliver fb cfg 0 proposal_path (Marshal (Proposal_json prop)) w).
  assert (Hw1 : after_proposal fb cfg (height cs + 1) 0 payload n w = w1)
    by (unfold after_proposal; by rewrite E1).
  destruct (stage_moves p cfg 0 proposal_path (Marshal (Proposal_json prop)) w w
    (fun _ cfg' n' => settled cfg' cs n') (fun _ cfg' n' => voting cfg' cs next [StagePrevote] n') Hpl
    ltac:(by left) (same_shape_refl w)) as (Hs1 & Hp1 & Hvt_1).
  { intros k cfg' sv _ Hk Hu. by apply Hin. }
  { intros k cfg' lim' n' Hpl' Hset' _. destruct (answer_proposal fb g p payload Hg Hnow Hpay k cfg' lim' n' cs prop
      (pl_member _ _ Hpl') (pl_dev _ _ Hpl') Hset' Hb Hprop Hrp) as (v & n2 & Ha & _ & Hvt).
    exists n2, (Ok (vote_response v)). split; [exact Ha|]. split; [exact (vt_running _ _ _ _ _ Hvt)|exact Hvt]. }
  fold w1 in Hs1, Hp1, Hvt_1.
  (* the prevote certificate and the proposer's precommit *)
  assert (Hans1 : answers p (round_network fb w w w) cfg (up w) 0 proposal_path (Marshal (Proposal_json prop))
    (group_vote g (height cs + 1) 0 StagePrevote (hash_of next))).
  { apply (stage_answers p cfg 0 proposal_path _ w w w _ (up w) Hpl ltac:(by left)).
    - intros k ([cfg' [n' lim']] & Hk & Hu)%elem_of_up Hne. destruct (Hin k cfg' _ Hk Hu) as [Hpl' Hset'].
      split; [exact (pl_reached _ _ Hpl')|].
      destruct (answer_proposal fb g p payload Hg Hnow Hpay k cfg' lim' n' cs prop
        (pl_member _ _ Hpl') (pl_dev _ _ Hpl') Hset' Hb Hprop Hrp) as (v & n2 & Ha & Hv & _).
      exists (cfg', mkServer n' lim'), v. split; [exact Hk|]. split; [exact Hv|]. by rewrite Ha.
    - intros k peer Hn Hk Hu. apply Hn, elem_of_up. by exists peer. }
  destruct (certify_ok g now p payload Hg Hnow Hpay cfg cs n1 (up w) (round_network fb w w w) prop v1 Hm Hvt1 Hb Hprop
    (proj1 Hrp) Hv1 Hthr Hans1) as (cert & v2 & n2 & E2 & Hcert & Hv2 & Hvt2).
  set (req := mkPrecommitRequest prop cert).
  set (w2 := deliver fb cfg 1 precommit_path (Marshal (PrecommitRequest_json req)) w1).
  assert (Hw2 : after_precommit fb cfg (height cs + 1) 0 payload n w w1 = w2).
  { unfold after_precommit. by rewrite run_bind, E1, run_bind, E2. }
  destruct (stage_moves p cfg 1 precommit_path (Marshal (PrecommitRequest_json req)) w w1
    (fun _ cfg' n' => voting cfg' cs next [StagePrevote] n')
    (fun _ cfg' n' => voting cfg' cs next [StagePrecommit; StagePrevote] n') Hpl
    ltac:(right; by left) Hs1 Hvt_1) as (Hs2 & Hp2 & Hvt_2).
  { intros k cfg' lim' n' Hpl' Hvt' _. destruct (answer_precommit fb g p payload Hg Hnow Hpay k cfg' lim' n' cs prop cert
      (pl_member _ _ Hpl') (pl_dev _ _ Hpl') Hvt' Hb Hprop Hrp Hcert) as (v & n3 & Ha & _ & Hvt).
    exists n3, (Ok (vote_response v)). split; [exact Ha|]. split; [exact (vt_running _ _ _ _ _ Hvt)|exact Hvt]. }
  fold w2 in Hs2, Hp2, Hvt_2.
  (* the commit *)
  assert (Hans2 : answers p (round_network fb w w1 w2) cfg (up w) 1 precommit_path
    (Marshal (PrecommitRequest_json req)) (group_vote g (height cs + 1) 0 StagePrecommit (hash_of next))).
  { rewrite <-(same_shape_up w w1 Hs1).
    apply (stage_answers p cfg 1 precommit_path _ w w1 w2 _ (up w1) Hpl ltac:(right; by left)).
    - intros k ([cfg' [n' lim']] & Hk & Hu)%elem_of_up Hne. destruct (Hvt_1 k cfg' _ Hne Hk Hu) as [Hpl' Hvt'].
      split; [exact (pl_reached _ _ Hpl')|].
      destruct (answer_precommit fb g p payload Hg Hnow Hpay k cfg' lim' n' cs prop cert
        (pl_member _ _ Hpl') (pl_dev _ _ Hpl') Hvt' Hb Hprop Hrp Hcert) as (v & n3 & Ha & Hv & _).
      exists (cfg', mkServer n' lim'), v. split; [exact Hk|]. split; [exact Hv|]. fold req in Ha. by rewrite Ha.
    - intros k peer Hn Hk Hu. apply Hn, elem_of_up. by exists peer. }
  destruct (commit_ok g now p payload Hg Hnow Hpay cfg cs n2 (up w) (round_network fb w w1 w2) prop cert v2 Hm Hvt2 Hb
    Hprop (proj1 Hrp) Hv2 Hthr Hans2) as (cert' & n3 & E3 & Hcert' & Hwf & Hset3).
  set (c := mkCommit next cert') in *.
  set (w3 := deliver fb cfg 2 commit_path (Marshal (Commit_json c)) w2).
  destruct (stage_moves p cfg 2 commit_path (Marshal (Commit_json c)) w w2
    (fun _ cfg' n' => voting cfg' cs next [StagePrecommit; StagePrevote] n')
    (fun _ cfg' n' => settled cfg' (cs ++ [c]) n') Hpl
    ltac:(right; right; by left) Hs2 Hvt_2) as (Hs3 & Hp3 & Hset_3).
  { intros k cfg' lim' n' Hpl' Hvt' _. destruct (answer_commit fb g p payload Hg Hnow Hpay k cfg' lim' n' cs _ cert'
      (pl_member _ _ Hpl') (pl_dev _ _ Hpl') Hvt' Hb Hprop Hcert') as (n4 & r & Ha & Hset').
    exists n4, r. split; [exact Ha|]. split; [exact (se_running _ _ _ Hset')|exact Hset']. }
  fold w3 in Hs3, Hp3, Hset_3.
  exists c, (<[p := (cfg, mkServer n3 lim)]> w3). split; [|split; [done|split; [exact Hwf|split]]].
  - unfold cluster_round. rewrite Hwp. cbn [sv_node sv_limiter]. rewrite Hw1, Hw2. unfold proposeRound.
    rewrite run_bind, E1, run_bind, (certifyRound_network p) by done. by rewrite E2, E3.
  - intros k. destruct (decide (k = p)) as [->|Hne].
    + rewrite Hwp, lookup_insert_eq. split_and!; try done.
      * cbn. pose proof (se_running _ _ _ Hset3) as ->. symmetry. exact (se_running _ _ _ Hset).
    + rewrite lookup_insert_ne by done. apply Hs3.
  - intros k cfg' sv Hk Hu. destruct (decide (k = p)) as [->|Hne].
    + rewrite lookup_insert_eq in Hk. injection Hk as <- <-. by split.
    + rewrite lookup_insert_ne in Hk by done. by apply Hset_3.
Qed.

Lemma same_shape_trans w w' w'' : same_shape w w' -> same_shape w' w'' -> same_shape w w''.
Proof.
  intros Ha Hb k. specialize (Ha k). specialize (Hb k).
  destruct (w !! k) as [[cfg sv]|], (w' !! k) as [[cfg' sv']|], (w'' !! k) as [[cfg'' sv'']|]; try done.
  destruct Ha as (-> & Hl1 & Hr1 & Hs1), Hb as (-> & Hl2 & Hr2 & Hs2).
  split_and!; [done|congruence|congruence|]. intros Hd. rewrite Hs2; [by apply Hs1|].
  unfold is_up in *. cbn in *. by rewrite Hr1.
Qed.

(** An operation that keeps the chain and the votes of a running node keeps the cluster in step. *)
Lemma at_node_step {A} cs w k (m : Config -> M (Node S) A) : in_step cs w -> k ∈ up w ->
  (forall cfg, silent (m cfg)) -> (forall cfg, steady (m cfg)) -> exists cfg sv,
    w !! k = Some (cfg, sv) /\ (at_node k m w).2 = (m cfg (sv_node sv)).2 /\
    same_shape w (at_node k m w).1 /\ in_step cs (at_node k m w).1.
Proof.
  intros Hin ([cfg sv] & Hk & Hu)%elem_of_up Hsil Hst. exists cfg, sv. split; [done|].
  unfold at_node. rewrite Hk. pose proof (Hsil cfg (sv_node sv)) as Hcore. pose proof (Hst cfg (sv_node sv)) as Hrun.
  destruct (m cfg (sv_node sv)) as [n' r]. cbn [fst snd] in *. split; [done|]. split.
  - intros i. destruct (decide (i = k)) as [->|Hne].
    + rewrite Hk, lookup_insert_eq. by split_and!.
    + rewrite lookup_insert_ne by done. by apply same_shape_refl.
  - intros i cfg' sv' Hi Hu'. destruct (decide (i = k)) as [->|Hne].
    + rewrite lookup_insert_eq in Hi. injection Hi as <- <-. destruct (Hin k cfg sv Hk Hu) as [Hpl Hs].
      split; [done|]. by apply (settled_core cfg cs (sv_node sv)).
    + rewrite lookup_insert_ne in Hi by done. by apply Hin.
Qed.

(** Entering the first round of the next height changes nothing. *)
Lemma first_round cs w k t : in_step cs w -> k ∈ up w ->
  at_node k (fun cfg => markRound cfg t (height cs + 1) 0) w = (w, Ok tt).
Proof.
  intros Hin ([cfg sv] & Hk & Hu)%elem_of_up. unfold at_node. rewrite Hk. destruct (Hin k cfg sv Hk Hu) as [_ Hs].
  unfold markRound. rewrite run_gets, (se_round _ _ _ Hs). cbn. destruct sv as [n lim]. by rewrite insert_id.
Qed.

(** A proposal made at the scheduled proposer. *)
Lemma own_proposal depth busy w cs p payload : in_step cs w -> utf8 payload = true -> height cs + 1 < 2 ^ 63 ->
  ProposerFor (height cs + 1) 0 (gr_ids g) = Ok p -> p ∈ up w -> gr_threshold g <= Z.of_nat (size (up w)) ->
  exists c w', cluster_propose fb (Datatypes.S depth) busy p payload w = (w', Ok c) /\
    c_Block c = next_block g now p payload cs /\ commit_wf c /\ same_shape w w' /\ in_step (cs ++ [c]) w'.
Proof.
  intros Hin Hpay Hb Hprop Hup Hthr.
  destruct (round_commits w cs p payload Hin Hpay Hb Hprop Hup Hthr) as (c & w1 & E & Hblock & Hwf & Hsh & Hin1).
  pose proof Hup as ([cfg sv] & Hk & Hu)%elem_of_up. destruct (Hin p cfg sv Hk Hu) as [Hpl Hs].
  assert (Hup1 : p ∈ up w1) by by rewrite (same_shape_up w w1 Hsh).
  destruct (at_node_step (cs ++ [c]) w1 p (fun _ => metric (RecordConsensusProposal false)) Hin1 Hup1)
    as (_ & _ & _ & _ & Hsh2 & Hin2); [intros; apply silent_metric|intros; apply steady_metric|].
  exists c. eexists. split; [|split; [done|split; [done|split; [exact (same_shape_trans _ _ _ Hsh Hsh2)|exact Hin2]]]].
  cbn [cluster_propose]. rewrite Hk. unfold height_of. rewrite (se_commits _ _ _ Hs).
  pose proof (pl_rounds _ _ Hpl). destruct (Z.to_nat (cfg_MaxRounds cfg)) as [|fuel] eqn:Ef; [lia|]. cbn [rounds_loop].
  rewrite run_bind, (first_round cs w p) by done. unfold proposerFor.
  rewrite (mem_ids _ _ _ (pl_member _ _ Hpl)), Hprop. autorewrite with go_run.
  rewrite (mem_id _ _ _ (pl_member _ _ Hpl)), String.eqb_refl. cbn [negb]. rewrite run_attempt, E. reflexivity.
Qed.

Lemma decode_payload payload : utf8 payload = true ->
  Decode ProposeRequest_of (Marshal (JObj [("payload", JStr payload)])) = Ok payload.
Proof.
  intros Hp. apply Decode_Marshal_ok; [cbn [json_ok forallb]; by rewrite Hp|].
  unfold dec_struct, ProposeRequest_of, get_string. rewrite get_here; reflexivity.
Qed.

(** A commit a node has already is accepted without effect. *)
Lemma known_commit cfg cs c (n : Node S) t : settled cfg (cs ++ [c]) n -> ApplyCommit cfg t c n = (n, Ok tt).
Proof.
  intros Hs. pose proof (se_commits _ _ _ Hs) as Hc. pose proof (du_chain _ _ (se_durable _ _ _ Hs)) as Hch.
  unfold node_chain in Hch. rewrite Hc in Hch.
  assert (Hl : (cs ++ [c])%list !! length cs = Some c) by by rewrite lookup_app_r, Nat.sub_diag.
  destruct (chain_from_lookup _ _ _ _ _ _ _ _ _ Hch Hl) as [Hv Hh]. cbn in Hh.
  unfold ApplyCommit. rewrite Hv, Block_Hash_ok. autorewrite with go_run. change (id n) with n.
  pose proof (du_bound _ _ (se_durable _ _ _ Hs)) as Hbound. unfold height_of in *. rewrite Hc, length_app in *. cbn [length] in *.
  rewrite (proj2 (Z.leb_le _ _)) by lia. unfold lift, historical_commit, height_of. rewrite Hc, length_app. cbn [length].
  rewrite i64_small by lia. rewrite (proj2 (Z.eqb_neq _ _)) by lia. rewrite (proj2 (Z.ltb_ge _ _)) by lia. cbn [orb].
  replace (Z.to_nat (b_Height (c_Block c) - 1)) with (length cs) by lia. by rewrite Hl, String.eqb_refl.
Qed.

(** A cluster in step commits.  When every validator that runs has committed the same
    chain and is not engaged in a later height, the validators that run are at least the
    threshold, and the proposer scheduled for the next height is among them, then a payload
    proposed at any running validator - which passes it on to the scheduled proposer when it
    is another one - returns a commit of a block of that payload, and afterwards every
    running validator has exactly that commit on top of its chain, durably, and is ready for
    the next one.  The validators that are down are left as they were, whatever the order of
    the loops over the peers. *)
Theorem cluster_commits depth w cs id p payload : in_step cs w -> utf8 payload = true -> blank payload = false ->
  height cs + 1 < 2 ^ 63 -> ProposerFor (height cs + 1) 0 (gr_ids g) = Ok p -> p ∈ up w -> id ∈ up w ->
  gr_threshold g <= Z.of_nat (size (up w)) ->
  exists c w', cluster_propose fb (Datatypes.S (Datatypes.S depth)) [] id payload w = (w', Ok c) /\
    c_Block c = next_block g now p payload cs /\ same_shape w w' /\ in_step (cs ++ [c]) w'.
Proof.
  intros Hin Hpay Hblank Hb Hprop Hup Hid Hthr. apply String.eqb_neq in Hblank as Hshown.
  destruct (decide (id = p)) as [->|Hne].
  { destruct (own_proposal (Datatypes.S depth) [] w cs p payload) as (c & w' & E & ? & _ & ? & ?); try done. by exists c, w'. }
  destruct (own_proposal depth [id] w cs p payload) as (c & w1 & E & Hblock & Hwf & Hsh & Hin1); try done.
  pose proof Hid as ([cfg sv] & Hk & Hu)%elem_of_up. destruct (Hin id cfg sv Hk Hu) as [Hpl Hs].
  pose proof Hup as ([cfgp svp] & Hkp & Hupp)%elem_of_up. destruct (Hin p cfgp svp Hkp Hupp) as [Hplp Hsp].
  pose proof (pl_reached _ _ Hplp) as [u Hu']%elem_of_dom.
  assert (Hid1 : id ∈ up w1) by by rewrite (same_shape_up w w1 Hsh).
  destruct (at_node_step (cs ++ [c]) w1 id (fun _ => metric (RecordConsensusProposal false)) Hin1 Hid1)
    as (_ & _ & _ & _ & Hsh2 & Hin2); [intros; apply silent_metric|intros; apply steady_metric|].
  exists c. eexists. split; [|split; [done|split; [exact (same_shape_trans _ _ _ Hsh Hsh2)|exact Hin2]]].
  remember (Datatypes.S depth) as d eqn:Hd. cbn [cluster_propose]. rewrite Hk. unfold height_of. rewrite (se_commits _ _ _ Hs).
  pose proof (pl_rounds _ _ Hpl). destruct (Z.to_nat (cfg_MaxRounds cfg)) as [|fuel] eqn:Ef; [lia|]. cbn [rounds_loop].
  rewrite run_bind, (first_round cs w id) by done. unfold proposerFor.
  rewrite (mem_ids _ _ _ (pl_member _ _ Hpl)), Hprop. autorewrite with go_run.
  rewrite (mem_id _ _ _ (pl_member _ _ Hpl)), (proj2 (String.eqb_neq p id)) by congruence. cbn [negb].
  rewrite run_attempt.
  assert (Hf : forward_proposal fb (cluster_propose fb d [id]) [id] cfg payload p w = (w1, Ok c)).
  { unfold forward_proposal. cbv zeta. rewrite (pl_urls _ _ Hpl), Hu'.
    change (default "" (Some u)) with u. rewrite (cn_shown _ _ Hfb p u Hu').
    rewrite (cn_resolve _ _ Hfb p u "/propose" Hu') by (do 3 right; by left).
    unfold ask_proposal. rewrite Hkp. unfold is_up in Hupp. cbn [snd] in Hupp. rewrite Hupp. cbn [negb].
    unfold containsString. cbn [existsb]. rewrite (proj2 (String.eqb_neq id p)) by congruence. cbn [orb].
    unfold propose_handler. cbn [rq_Body request]. rewrite (decode_payload payload Hpay).
    rewrite (proj2 (String.eqb_neq _ _) Hshown). unfold reply_with. rewrite run_attempt, E.
    cbn [writeJSON mret M_ret]. unfold requestProposalFromProposer.
    rewrite (pl_urls _ _ Hpl), Hu'. pose proof (cn_shown _ _ Hfb p u Hu') as Hsh'. unfold blank in Hsh'. rewrite Hsh'.
    cbn [nw_do]. unfold http_response. cbn [mbind result_bind rp_Status rp_Body hr_StatusCode hr_Body].
    change (300 <=? StatusOK) with false. cbv iota. unfold Decode. cbn [reply_text].
    rewrite (Decode_value_Marshal _ _ newline (Commit_json_ok c Hwf) eq_refl), (Commit_of_json c Hwf). done. }
  rewrite Hf. rewrite run_bind.
  assert (Ha : at_node id (fun cfg => ApplyCommit cfg now c) w1 = (w1, Ok tt)).
  { unfold at_node. pose proof Hid1 as ([cfg1 [n1 lim1]] & Hk1 & Hu1)%elem_of_up. rewrite Hk1.
    destruct (Hin1 id cfg1 _ Hk1 Hu1) as [_ Hs1]. cbn [sv_node sv_limiter] in *.
    rewrite (known_commit cfg1 cs c n1 now Hs1). by rewrite insert_id. }
  rewrite Ha. reflexivity.
Qed.
End rounds.
