(* ===== verification/Bundle.v ===== *)
(** * Bundles and their retransmission: bundle/protocol/envelope.go and bundle/retransmit

    The envelope, its digest and its checks, the index of the bundles seen, the
    ledger that applies each transaction once, and the queue that applies the
    bundles of a stream in sequence and holds the ones that come early. *)

From S2P Require Import Prelude Sha256 Json JsonParse JsonDecode Identity State Protocol Store.
Local Open Scope Z_scope.

(** ** bundle/protocol *)

Definition CustodyNone : string := "none".
Definition CustodyRequested : string := "requested".
Definition CustodyConfirmed : string := "confirmed".
Definition CustodyExpired : string := "expired".

Definition ErrMalformed : string := "bundle.ErrMalformed".
Definition ErrExpired : string := "bundle.ErrExpired".
Definition ErrDuplicateBundle : string := "bundle.ErrDuplicate".

Definition malformed {A} (text : string) : result A :=
  Err (wrap_err ErrMalformed "malformed bundle" text).

Record Envelope := mkEnvelope {
  ev_BundleID : string;
  ev_SourceNodeID : string;
  ev_DestinationNodeID : string;
  ev_ChannelID : string;
  ev_ChannelType : string;
  ev_SequenceNumber : Z;
  ev_TransactionID : string;
  ev_CreationTick : Z;
  ev_ExpirationTick : Z;
  ev_Priority : Z;
  ev_PayloadDigest : string;
  ev_PayloadBytes : string;
  ev_PreviousBundleID : string;
  ev_CustodyRequested : bool;
  ev_CustodyStatus : string;
  ev_QuorumCertificateRef : string;
  ev_SignatureRef : string;
  ev_Compression : string;
  ev_CompressionContentType : string
}.

Record NewEnvelopeInput := mkEnvelopeInput {
  ei_SourceNodeID : string;
  ei_DestinationNodeID : string;
  ei_ChannelID : string;
  ei_ChannelType : string;
  ei_SequenceNumber : Z;
  ei_TransactionID : string;
  ei_CreationTick : Z;
  ei_ExpirationTick : Z;
  ei_Priority : Z;
  ei_PayloadBytes : string;
  ei_PreviousBundleID : string;
  ei_CustodyRequested : bool;
  ei_Compression : string;
  ei_CompressionContentType : string
}.

(** [canonicalEnvelope]: every field but the bundle's id. *)
Definition canonicalEnvelope_json (e : Envelope) : json :=
  JObj ([("source_node_id", JStr (ev_SourceNodeID e));
         ("destination_node_id", JStr (ev_DestinationNodeID e));
         ("channel_id", JStr (ev_ChannelID e)); ("channel_type", JStr (ev_ChannelType e));
         ("sequence_number", JInt (ev_SequenceNumber e));
         ("transaction_id", JStr (ev_TransactionID e));
         ("creation_tick", JInt (ev_CreationTick e))] ++
        omit_int "expiration_tick" (ev_ExpirationTick e) ++
        [("priority", JInt (ev_Priority e)); ("payload_digest", JStr (ev_PayloadDigest e));
         ("payload_bytes", bytes_json (ev_PayloadBytes e))] ++
        omit_str "previous_bundle_id" (ev_PreviousBundleID e) ++
        [("custody_requested", JBool (ev_CustodyRequested e));
         ("custody_status", JStr (ev_CustodyStatus e))] ++
        omit_str "quorum_certificate_ref" (ev_QuorumCertificateRef e) ++
        omit_str "signature_ref" (ev_SignatureRef e) ++
        omit_str "compression" (ev_Compression e) ++
        omit_str "compression_content_type" (ev_CompressionContentType e))%list.

Definition set_ev_PayloadDigest (digest : string) (e : Envelope) : Envelope :=
  mkEnvelope (ev_BundleID e) (ev_SourceNodeID e) (ev_DestinationNodeID e) (ev_ChannelID e)
    (ev_ChannelType e) (ev_SequenceNumber e) (ev_TransactionID e) (ev_CreationTick e)
    (ev_ExpirationTick e) (ev_Priority e) digest (ev_PayloadBytes e) (ev_PreviousBundleID e)
    (ev_CustodyRequested e) (ev_CustodyStatus e) (ev_QuorumCertificateRef e) (ev_SignatureRef e)
    (ev_Compression e) (ev_CompressionContentType e).

Definition set_ev_BundleID (id : string) (e : Envelope) : Envelope :=
  mkEnvelope id (ev_SourceNodeID e) (ev_DestinationNodeID e) (ev_ChannelID e)
    (ev_ChannelType e) (ev_SequenceNumber e) (ev_TransactionID e) (ev_CreationTick e)
    (ev_ExpirationTick e) (ev_Priority e) (ev_PayloadDigest e) (ev_PayloadBytes e)
    (ev_PreviousBundleID e) (ev_CustodyRequested e) (ev_CustodyStatus e)
    (ev_QuorumCertificateRef e) (ev_SignatureRef e) (ev_Compression e) (ev_CompressionContentType e).

Definition CanonicalBytes (e : Envelope) : result string :=
  let e := if String.eqb (ev_PayloadDigest e) "" then
             set_ev_PayloadDigest (HashBytes (ev_PayloadBytes e)) e else e in
  CanonicalJSON (canonicalEnvelope_json e).

Definition Envelope_Digest (e : Envelope) : result string :=
  canonical ← CanonicalBytes e; Ok (HashBytes canonical).

Definition NewEnvelope (i : NewEnvelopeInput) : result Envelope :=
  let status := if ei_CustodyRequested i then CustodyRequested else CustodyNone in
  let env := mkEnvelope "" (ei_SourceNodeID i) (ei_DestinationNodeID i) (ei_ChannelID i)
               (ei_ChannelType i) (ei_SequenceNumber i) (ei_TransactionID i) (ei_CreationTick i)
               (ei_ExpirationTick i) (ei_Priority i) (HashBytes (ei_PayloadBytes i))
               (ei_PayloadBytes i) (ei_PreviousBundleID i) (ei_CustodyRequested i) status "" ""
               (ei_Compression i) (ei_CompressionContentType i) in
  digest ← Envelope_Digest env;
  Ok (set_ev_BundleID ("bundle-" ++ prefix 24 digest) env).

Definition Envelope_Validate (e : Envelope) (nowTick : Z) : result unit :=
  if String.eqb (ev_SourceNodeID e) "" then malformed "source node id is required"
  else if String.eqb (ev_DestinationNodeID e) "" then malformed "destination node id is required"
  else if String.eqb (ev_ChannelID e) "" || String.eqb (ev_ChannelType e) "" then
    malformed "channel id and type are required"
  else if ev_SequenceNumber e =? 0 then malformed "sequence number must be positive"
  else if String.eqb (ev_TransactionID e) "" then malformed "transaction id is required"
  else if String.eqb (ev_PayloadDigest e) "" then malformed "payload digest is required"
  else if negb (String.eqb (HashBytes (ev_PayloadBytes e)) (ev_PayloadDigest e)) then
    malformed "payload digest mismatch"
  else if (0 <? ev_ExpirationTick e) && (ev_ExpirationTick e <? nowTick) then
    Err (wrap_err ErrExpired "bundle expired"
           ("expiration_tick=" ++ itoa (ev_ExpirationTick e) ++ " now_tick=" ++ itoa nowTick))
  else Ok tt.

(** [Index]: the digest of each bundle id. *)
Definition Index : Type := gmap string string.

Definition Index_Add (i : Index) (e : Envelope) : Index * result unit :=
  match Envelope_Digest e with
  | Err err => (i, Err err)
  | Ok digest =>
      match i !! ev_BundleID e with
      | Some existing =>
          (i, if negb (String.eqb existing digest)
              then Err (wrap_err ErrDuplicateBundle "duplicate bundle id" (ev_BundleID e))
              else Err (mkError (Some ErrDuplicateBundle) "duplicate bundle id"))
      | None => (<[ev_BundleID e := digest]> i, Ok tt)
      end
  end.

(** ** bundle/retransmit: the ledger *)

Record Tx := mkTx { tr_ID : string; tr_Sequence : Z; tr_Payload : string }.

Record TxResult := mkTxResult {
  rt_TransactionID : string;
  rt_Sequence : Z;
  rt_Applied : bool;
  rt_ResultHash : string;
  rt_Message : string
}.

(** [Transaction.Hash]: the encoder does not fail on this type. *)
Definition Tx_Hash (tx : Tx) : string :=
  HashBytes (Marshal (JObj [("id", JStr (tr_ID tx)); ("sequence", JInt (tr_Sequence tx));
                            ("payload", JStr (tr_Payload tx))])).

Definition applied_message : string := "transaction applied exactly once".
Definition duplicate_message : string := "duplicate retransmission deduplicated by transaction id".

(** In memory, or over a store. *)
Record Ledger (S : Type) := mkLedger { lg_applied : gmap string TxResult; lg_store : option S }.
Arguments mkLedger {S}.
Arguments lg_applied {S}.
Arguments lg_store {S}.

Section retransmit.
Context {S : Type} `{ValidatorStore S}.
Implicit Types (l : Ledger S).

Definition NewLedger : Ledger S := mkLedger ∅ None.

Definition NewPersistentLedger (store : S) : Ledger S := mkLedger ∅ (Some store).

Definition Ledger_Apply (now : Time) (tx : Tx) l : Ledger S * TxResult :=
  let resultHash := Tx_Hash tx in
  match lg_store l with
  | Some store =>
      let '(store, recorded) := RecordIdempotency store now (tr_ID tx) resultHash in
      (mkLedger (lg_applied l) (Some store),
       match recorded with
       | Err e => mkTxResult (tr_ID tx) (tr_Sequence tx) false resultHash
                    ("idempotency store error: " ++ err_text e)
       | Ok (true, _) => mkTxResult (tr_ID tx) (tr_Sequence tx) true resultHash applied_message
       | Ok (false, existingHash) =>
           mkTxResult (tr_ID tx) (tr_Sequence tx) false existingHash duplicate_message
       end)
  | None =>
      match lg_applied l !! tr_ID tx with
      | Some existing =>
          (l, mkTxResult (rt_TransactionID existing) (rt_Sequence existing) false
                (rt_ResultHash existing) duplicate_message)
      | None =>
          let result := mkTxResult (tr_ID tx) (tr_Sequence tx) true resultHash applied_message in
          (mkLedger (<[tr_ID tx := result]> (lg_applied l)) None, result)
      end
  end.

Definition Ledger_Count l : Z :=
  match lg_store l with
  | Some store => match IdempotencyCount store with Ok count => count | Err _ => 0 end
  | None => Z.of_nat (size (lg_applied l))
  end.
End retransmit.

(** ** bundle/retransmit: the queue *)

Record SubmitResult := mkSubmitResult {
  sb_BundleID : string;
  sb_TransactionID : string;
  sb_Sequence : Z;
  sb_Applied : bool;
  sb_Duplicate : bool;
  sb_PendingMissing : bool;
  sb_ExpectedSequence : Z;
  sb_ResultHash : string;
  sb_Message : string
}.

Record Queue (S : Type) := mkQueue {
  q_ledger : Ledger S;
  q_nextSeq : gmap string Z;
  q_gapPending : gmap string Envelope;
  q_unconfirmed : gmap string Envelope
}.
Arguments mkQueue {S}.
Arguments q_ledger {S}.
Arguments q_nextSeq {S}.
Arguments q_gapPending {S}.
Arguments q_unconfirmed {S}.

Definition streamKey (e : Envelope) : string :=
  (ev_SourceNodeID e ++ nul ++ ev_DestinationNodeID e ++ nul ++ ev_ChannelID e)%string.

Definition envelope_tx (e : Envelope) : Tx :=
  mkTx (ev_TransactionID e) (ev_SequenceNumber e) (ev_PayloadBytes e).

(** The comparison of [PendingForRetransmit]. *)
Definition envelope_le (a b : Envelope) : Prop :=
  if negb (String.eqb (ev_SourceNodeID a) (ev_SourceNodeID b)) then
    String.le (ev_SourceNodeID a) (ev_SourceNodeID b)
  else if negb (String.eqb (ev_DestinationNodeID a) (ev_DestinationNodeID b)) then
    String.le (ev_DestinationNodeID a) (ev_DestinationNodeID b)
  else if negb (String.eqb (ev_ChannelID a) (ev_ChannelID b)) then
    String.le (ev_ChannelID a) (ev_ChannelID b)
  else ev_SequenceNumber a <= ev_SequenceNumber b.

#[export] Instance envelope_le_dec : RelDecision envelope_le.
Proof. intros a b. unfold envelope_le. repeat case_match; apply _. Defined.

Section queue.
Context {S : Type} `{ValidatorStore S}.
(* the order in which a loop ranges over the held bundles, which Go leaves open *)
Context (order : gmap string Envelope -> list (string * Envelope)).
Implicit Types (q : Queue S).

Definition NewQueue (ledger : Ledger S) : Queue S := mkQueue ledger ∅ ∅ ∅.

Definition set_next (key : string) (z : Z) q : Queue S :=
  mkQueue (q_ledger q) (<[key := z]> (q_nextSeq q)) (q_gapPending q) (q_unconfirmed q).

Definition set_gap (gap : gmap string Envelope) q : Queue S :=
  mkQueue (q_ledger q) (q_nextSeq q) gap (q_unconfirmed q).

Definition add_unconfirmed (e : Envelope) q : Queue S :=
  mkQueue (q_ledger q) (q_nextSeq q) (q_gapPending q) (<[ev_BundleID e := e]> (q_unconfirmed q)).

(** [q.expected]: reading a stream's next sequence number starts the stream. *)
Definition expected (key : string) q : Queue S * Z :=
  let next := default 0 (q_nextSeq q !! key) in
  if 0 <? next then (q, next) else (set_next key 1 q, 1).

(** The bundle the loop picks: the first of the stream with the number expected. *)
Definition pick_ready (key : string) (next : Z) q : option (string * Envelope) :=
  List.find (fun kv => String.eqb (streamKey kv.2) key && (ev_SequenceNumber kv.2 =? next))
    (order (q_gapPending q)).

Definition apply_envelope (now : Time) (e : Envelope) q : Queue S * TxResult :=
  let '(ledger, applied) := Ledger_Apply now (envelope_tx e) (q_ledger q) in
  (mkQueue ledger (q_nextSeq q) (q_gapPending q) (q_unconfirmed q), applied).

(** The loop of [drainReady]: each turn takes one bundle off the held ones. *)
Fixpoint drainReady (fuel : nat) (now : Time) (key : string) (nowTick : Z) q : Queue S :=
  match fuel with
  | O => q
  | Datatypes.S fuel =>
      let '(q, next) := expected key q in
      match pick_ready key next q with
      | None => q
      | Some (readyID, ready) =>
          if String.eqb readyID "" then q
          else
            let q := set_gap (delete readyID (q_gapPending q)) q in
            match Envelope_Validate ready nowTick with
            | Err _ => drainReady fuel now key nowTick q
            | Ok _ =>
                let '(q, applied) := apply_envelope now ready q in
                drainReady fuel now key nowTick
                  (if rt_Applied applied then set_next key (u64 (next + 1)) (add_unconfirmed ready q)
                   else q)
            end
      end
  end.

(** As many turns as there are bundles held, and the one that finds none. *)
Definition drain (now : Time) (key : string) (nowTick : Z) q : Queue S :=
  drainReady (Datatypes.S (size (q_gapPending q))) now key nowTick q.

Definition Submit (now : Time) (e : Envelope) (nowTick : Z) q : Queue S * SubmitResult :=
  let id := ev_BundleID e in
  let tx := ev_TransactionID e in
  let seq := ev_SequenceNumber e in
  match Envelope_Validate e nowTick with
  | Err err => (q, mkSubmitResult id tx seq false false false 0 "" (err_text err))
  | Ok _ =>
      let key := streamKey e in
      let '(q, next) := expected key q in
      if next <? seq then
        (set_gap (<[id := e]> (q_gapPending q)) q,
         mkSubmitResult id tx seq false false true next ""
           "missing earlier sequence; bundle held for retry")
      else
        let '(q, applied) := apply_envelope now e q in
        let result := mkSubmitResult id tx seq (rt_Applied applied) (negb (rt_Applied applied)) false
                        next (rt_ResultHash applied) (rt_Message applied) in
        if (seq =? next) && rt_Applied applied then
          (drain now key nowTick (add_unconfirmed e (set_next key (u64 (next + 1)) q)), result)
        else (q, result)
  end.

Definition Queue_Confirm (bundleID : string) q : Queue S * bool :=
  match q_unconfirmed q !! bundleID with
  | None => (q, false)
  | Some _ => (mkQueue (q_ledger q) (q_nextSeq q) (q_gapPending q)
                 (delete bundleID (q_unconfirmed q)), true)
  end.

Definition PendingForRetransmit q : list Envelope :=
  merge_sort envelope_le (map snd (order (q_unconfirmed q)) ++ map snd (order (q_gapPending q))).
End queue.

(** ** The drain loop ends, and leaves nothing ready *)

Section draining.
Context {S : Type} `{ValidatorStore S}.
Context (order : gmap string Envelope -> list (string * Envelope)).
Hypothesis order_perm : forall m, order m ≡ₚ map_to_list m.
Implicit Types (q : Queue S).

Lemma expected_gap key q : q_gapPending (expected key q).1 = q_gapPending q.
Proof. unfold expected. by case_match. Qed.

Lemma expected_idemp key q :
  1 <= (expected key q).2 /\ expected key (expected key q).1 = ((expected key q).1, (expected key q).2).
Proof.
  unfold expected. destruct (Z.ltb_spec 0 (default 0 (q_nextSeq q !! key))) as [Hlt|Hge]; cbn [fst snd].
  - split; [lia|]. by rewrite (proj2 (Z.ltb_lt _ _) Hlt).
  - split; [lia|]. cbn [q_nextSeq set_next]. by rewrite lookup_insert_eq.
Qed.

Lemma pick_ready_Some key next q id e :
  pick_ready order key next q = Some (id, e) ->
  q_gapPending q !! id = Some e /\ streamKey e = key /\ ev_SequenceNumber e = next.
Proof using order_perm.
  unfold pick_ready. intros [Hin Hb]%find_some. reflect_bools. split; [|by destruct_and?].
  apply elem_of_map_to_list. rewrite <-order_perm. by apply list_elem_of_In.
Qed.

Lemma pick_ready_None key next q :
  pick_ready order key next q = None <->
  forall id e, q_gapPending q !! id = Some e -> streamKey e = key -> ev_SequenceNumber e <> next.
Proof using order_perm.
  unfold pick_ready. split.
  - intros Hnone id e Hg Hk Hs. apply elem_of_map_to_list in Hg. rewrite <-order_perm in Hg.
    apply list_elem_of_In in Hg. apply (find_none _ _ Hnone) in Hg. cbn in Hg.
    by rewrite Hk, Hs, String.eqb_refl, Z.eqb_refl in Hg.
  - intros Hall. destruct (List.find _ _) as [[id e]|] eqn:E; [|done].
    apply pick_ready_Some in E as (Hg & Hk & Hs). by destruct (Hall id e).
Qed.

(** One turn of the loop: it ends, or goes on with one bundle fewer. *)
Lemma drain_turn now key nowTick q :
  q_gapPending q !! ""%string = None ->
  (pick_ready order key (expected key q).2 (expected key q).1 = None /\
   forall fuel, drainReady order (Datatypes.S fuel) now key nowTick q = (expected key q).1) \/
  exists q', (size (q_gapPending q') < size (q_gapPending q))%nat /\
             q_gapPending q' !! ""%string = None /\
             forall fuel, drainReady order (Datatypes.S fuel) now key nowTick q
                          = drainReady order fuel now key nowTick q'.
Proof using order_perm.
  intros Hun. pose proof (expected_gap key q) as Hgap. cbn [drainReady].
  destruct (expected key q) as [q0 next]. cbn [fst snd] in *.
  destruct (pick_ready order key next q0) as [[id e]|] eqn:Ep; [right|by left].
  apply pick_ready_Some in Ep as (Hg & Hk & Hs). rewrite Hgap in Hg.
  destruct (String.eqb_spec id "") as [->|Hid]; [congruence|].
  assert (Hsize : (size (delete id (q_gapPending q0)) < size (q_gapPending q))%nat).
  { rewrite Hgap, map_size_delete_Some by eauto.
    assert (size (q_gapPending q) <> 0%nat) by (intros E%map_size_empty_inv; by rewrite E in Hg). lia. }
  assert (Hun' : delete id (q_gapPending q0) !! ""%string = None)
    by (rewrite Hgap, lookup_delete_ne by done; done).
  destruct (Envelope_Validate e nowTick) as [[]|err].
  - destruct (apply_envelope now e _) as [q1 r] eqn:Ea. unfold apply_envelope in Ea.
    destruct (Ledger_Apply _ _ _) as [l r']. injection Ea as <- <-.
    eexists. split_and!; [| |intros fuel; reflexivity]; by case_match.
  - eexists. split_and!; [| |intros fuel; reflexivity]; done.
Qed.

Lemma drain_none_ready fuel now key nowTick q :
  (size (q_gapPending q) < fuel)%nat -> q_gapPending q !! ""%string = None ->
  let q' := drainReady order fuel now key nowTick q in
  pick_ready order key (expected key q').2 q' = None /\
  drainReady order (Datatypes.S fuel) now key nowTick q = q'.
Proof using order_perm.
  revert q. induction fuel as [|fuel IH]; intros q Hsize Hun; [lia|]. cbv zeta.
  destruct (drain_turn now key nowTick q Hun) as [[Hnone Hstop]|(q' & Hless & Hun' & Hgo)].
  - rewrite !Hstop. split; [|done]. by rewrite (proj2 (expected_idemp key q)).
  - rewrite !Hgo. apply IH; [lia|done].
Qed.

(** C28: the drain of a stream ends.  When no bundle without an id is held, the
    loop takes at most one turn per bundle held and one more: with that many turns,
    and with any more, it leaves the same queue, in which no bundle held for the
    stream has the number expected next. *)
Theorem drain_complete now key nowTick q k :
  q_gapPending q !! ""%string = None ->
  drainReady order (Datatypes.S (size (q_gapPending q)) + k) now key nowTick q
  = drain order now key nowTick q /\
  forall id e, q_gapPending (drain order now key nowTick q) !! id = Some e -> streamKey e = key ->
               ev_SequenceNumber e <> (expected key (drain order now key nowTick q)).2.
Proof using order_perm.
  intros Hun. unfold drain. split.
  - induction k as [|k IH]; [by rewrite Nat.add_0_r|].
    rewrite Nat.add_succ_r, <-IH. apply drain_none_ready; [lia|done].
  - apply pick_ready_None, drain_none_ready; [lia|done].
Qed.
End draining.

(** ** A stream is applied in sequence whatever order it arrives in *)

(** The bundles of one stream, numbered from one: distinct bundles have distinct
    ids, transactions and numbers, and each of them is valid. *)
Record stream_ok (key : string) (nowTick : Z) (es : list Envelope) : Prop := {
  st_nodup : NoDup es;
  st_key e : e ∈ es -> streamKey e = key;
  st_valid e : e ∈ es -> Envelope_Validate e nowTick = Ok tt;
  st_named e : e ∈ es -> ev_BundleID e <> ""%string;
  st_id e e' : e ∈ es -> e' ∈ es -> ev_BundleID e = ev_BundleID e' -> e = e';
  st_tx e e' : e ∈ es -> e' ∈ es -> ev_TransactionID e = ev_TransactionID e' -> e = e';
  st_seq e e' : e ∈ es -> e' ∈ es -> ev_SequenceNumber e = ev_SequenceNumber e' -> e = e';
  st_range e : e ∈ es -> 1 <= ev_SequenceNumber e <= Z.of_nat (length es);
  st_bound : Z.of_nat (length es) < 2 ^ 64 - 1
}.

(** What the ledger records of a bundle. *)
Definition applied_result (e : Envelope) : TxResult :=
  mkTxResult (ev_TransactionID e) (ev_SequenceNumber e) true (Tx_Hash (envelope_tx e)) applied_message.

Section any_order.
Context {S : Type} `{ValidatorStore S}.
Context (order : gmap string Envelope -> list (string * Envelope)).
Hypothesis order_perm : forall m, order m ≡ₚ map_to_list m.
Context (now : Time) (key : string) (nowTick : Z) (es : list Envelope).
Hypothesis Hes : stream_ok key nowTick es.
Implicit Types (q : Queue S) (d : list Envelope).

(** The queue once the bundles [d] have arrived and those below [next] have been
    applied; the ones held have at least the number [low]. *)
Record progress d (next low : Z) q : Prop := {
  pg_next : (expected key q).2 = next /\ 1 <= next;
  pg_memory : lg_store (q_ledger q) = None;
  pg_gap id e : q_gapPending q !! id = Some e <->
                e ∈ d /\ ev_BundleID e = id /\ low <= ev_SequenceNumber e;
  pg_below s : 1 <= s < next -> exists e, e ∈ d /\ ev_SequenceNumber e = s;
  pg_applied e : e ∈ d -> ev_SequenceNumber e < next ->
                 lg_applied (q_ledger q) !! ev_TransactionID e = Some (applied_result e);
  pg_ahead e : e ∈ es -> next <= ev_SequenceNumber e ->
               lg_applied (q_ledger q) !! ev_TransactionID e = None
}.

(** The queue after the loops of the code have read the number expected. *)
Lemma expected_same q :
  (expected key q).1 = q \/ (expected key q).1 = set_next key 1 q.
Proof using Type. unfold expected. case_match; [by left|by right]. Qed.

Lemma progress_expected d next low q : progress d next low q -> progress d next low (expected key q).1.
Proof using Type.
  intros [Hn Hm Hg Hb Ha Hah]. pose proof (expected_idemp key q) as [_ Hi].
  constructor; [by rewrite Hi| | |exact Hb| |]; by destruct (expected_same q) as [->| ->].
Qed.

(** Applying the bundle that is expected. *)
Lemma progress_apply d next low q e q1 r :
  progress d next low q -> d ⊆ es -> e ∈ es -> ev_SequenceNumber e = next ->
  apply_envelope now e q = (q1, r) ->
  rt_Applied r = true /\
  lg_store (q_ledger q1) = None /\ q_gapPending q1 = q_gapPending q /\
  (forall e', e' ∈ es -> ev_SequenceNumber e' < next ->
     lg_applied (q_ledger q) !! ev_TransactionID e' = Some (applied_result e') ->
     lg_applied (q_ledger q1) !! ev_TransactionID e' = Some (applied_result e')) /\
  lg_applied (q_ledger q1) !! ev_TransactionID e = Some (applied_result e) /\
  (forall e', e' ∈ es -> next < ev_SequenceNumber e' ->
     lg_applied (q_ledger q1) !! ev_TransactionID e' = None).
Proof using Hes.
  intros [_ Hm _ _ _ Hah] Hd He Hs. unfold apply_envelope, Ledger_Apply. rewrite Hm. cbn [tr_ID envelope_tx].
  rewrite (Hah e He) by lia. intros [= <- <-]. cbn. split_and!; try done.
  - intros e' He' Hlt Hold. rewrite lookup_insert_ne; [done|].
    intros Etx. rewrite (st_tx _ _ _ Hes e e' He He' Etx) in Hs. lia.
  - by rewrite lookup_insert_eq.
  - intros e' He' Hlt. rewrite lookup_insert_ne; [apply Hah; [done|lia]|].
    intros Etx. rewrite (st_tx _ _ _ Hes e e' He He' Etx) in Hs. lia.
Qed.

Lemma u64_next z : 0 <= z < 2 ^ 64 -> u64 z = z.
Proof. intros Hz. unfold u64, two64. by apply Z.mod_small. Qed.

(** The next bundle applied, whether it was held or has just arrived. *)
Lemma progress_advance d d' next low q e q1 r gap :
  progress d next low q -> d ⊆ d' -> d' ⊆ es -> (forall e', e' ∈ d' -> e' = e \/ e' ∈ d) ->
  e ∈ d' -> ev_SequenceNumber e = next ->
  (forall id e', gap !! id = Some e' <-> e' ∈ d' /\ ev_BundleID e' = id /\ next < ev_SequenceNumber e') ->
  apply_envelope now e q = (q1, r) ->
  progress d' (next + 1) (next + 1) (set_gap gap (add_unconfirmed e (set_next key (u64 (next + 1)) q1))).
Proof using Hes.
  intros Hp Hdd Hd Hsplit He Hs Hgap Ha.
  destruct (progress_apply _ _ _ _ _ _ _ Hp (transitivity Hdd Hd) (Hd _ He) Hs Ha)
    as (_ & Hm & _ & Hold & Hnew & Hah).
  pose proof (st_range _ _ _ Hes e (Hd _ He)) as Hr. pose proof (st_bound _ _ _ Hes) as Hb.
  destruct Hp as [[Hn Hone] _ _ Hbelow Happ _].
  constructor; cbn [set_gap add_unconfirmed set_next q_ledger q_gapPending].
  - unfold expected. cbn [q_nextSeq set_gap add_unconfirmed set_next].
    rewrite lookup_insert_eq. cbn [default from_option id]. rewrite u64_next by lia.
    rewrite (proj2 (Z.ltb_lt _ _)) by lia. cbn. lia.
  - done.
  - intros id e'. rewrite Hgap. split; intros (? & ? & ?); split_and!; try done; lia.
  - intros s Hrange. destruct (decide (s = next)) as [->|]; [by exists e|].
    destruct (Hbelow s) as (e' & He' & ?); [lia|]. exists e'. by split; [apply Hdd|].
  - intros e' He' Hlt. destruct (Hsplit e' He') as [->|Hin]; [done|].
    destruct (decide (ev_SequenceNumber e' = next)) as [E|E].
    + by rewrite (st_seq _ _ _ Hes e' e (Hd _ He') (Hd _ He) ltac:(lia)).
    + apply Hold; [by apply Hd|lia|]. apply Happ; [done|lia].
  - intros e' He' Hle. apply Hah; [done|lia].
Qed.

Lemma progress_drain fuel d next q :
  progress d next next q -> d ⊆ es -> (size (q_gapPending q) < fuel)%nat ->
  exists next', let q' := drainReady order fuel now key nowTick q in
    progress d next' (next' + 1) q' /\ forall e, e ∈ d -> ev_SequenceNumber e <> next'.
Proof using Hes order_perm.
  revert next q. induction fuel as [|fuel IH]; intros next q Hp Hd Hsize; [lia|]. cbn [drainReady].
  pose proof (progress_expected _ _ _ _ Hp) as Hp0. pose proof (expected_gap key q) as Hgap.
  pose proof (pg_next _ _ _ _ Hp) as [Hn H1].
  destruct (expected key q) as [q0 n0] eqn:Eq. cbn [fst snd] in *. subst n0.
  destruct (pick_ready order key next q0) as [[id e]|] eqn:Ep.
  - apply (pick_ready_Some order order_perm) in Ep as (Hg & _ & Hs).
    pose proof (proj1 (pg_gap _ _ _ _ Hp0 id e) Hg) as (He & Hid & _).
    pose proof (st_named _ _ _ Hes e (Hd _ He)) as Hnamed.
    rewrite (proj2 (String.eqb_neq id "")) by congruence.
    rewrite (st_valid _ _ _ Hes e (Hd _ He)).
    destruct (apply_envelope now e (set_gap (delete id (q_gapPending q0)) q0)) as [q1 r] eqn:Ea.
    assert (Ea' : exists q1', apply_envelope now e q0 = (q1', r) /\
                              q1 = set_gap (delete id (q_gapPending q0)) q1').
    { unfold apply_envelope in *. cbn [q_ledger set_gap] in Ea. destruct (Ledger_Apply _ _ _) as [l r'].
      injection Ea as <- <-. by eexists. }
    destruct Ea' as (q1' & Ea' & ->).
    destruct (progress_apply _ _ _ _ _ _ _ Hp0 Hd (Hd _ He) Hs Ea') as (Happ & _ & _).
    rewrite Happ. apply (IH (next + 1)); [|done|].
    + apply (progress_advance d d next next q0 e q1' r (delete id (q_gapPending q0))); auto.
      intros id' e'. rewrite lookup_delete_Some, (pg_gap _ _ _ _ Hp0). split.
      * intros (Hne & He' & Hid' & Hle). split_and!; try done.
        destruct (decide (ev_SequenceNumber e' = next)) as [E|]; [|lia].
        rewrite (st_seq _ _ _ Hes e' e (Hd _ He') (Hd _ He)) in Hid' by lia. congruence.
      * intros (He' & Hid' & Hlt). split_and!; try done; [|lia].
        intros ->. rewrite (st_id _ _ _ Hes e' e (Hd _ He') (Hd _ He)) in Hlt by congruence. lia.
    + cbn [q_gapPending set_next add_unconfirmed set_gap]. rewrite map_size_delete_Some by eauto.
      assert (size (q_gapPending q0) <> 0%nat) by (intros E%map_size_empty_inv; by rewrite E in Hg).
      rewrite <-Hgap in Hsize. lia.
  - assert (Hne : forall e, e ∈ d -> ev_SequenceNumber e <> next).
    { intros e He Hs. apply (proj1 (pick_ready_None order order_perm _ _ _)) with
        (id := ev_BundleID e) (e := e) in Ep; try done.
      - apply (pg_gap _ _ _ _ Hp0). split_and!; [done|done|lia].
      - apply (st_key _ _ _ Hes), Hd, He. }
    exists next. split; [|done]. destruct Hp0 as [? ? Hg ? ? ?]. constructor; try done.
    intros id e. rewrite Hg. split; intros (He & Hid & Hle); (split_and!; [done|done|]);
      [pose proof (Hne e He); lia|lia].
Qed.
Definition inv d q : Prop :=
  exists next, progress d next (next + 1) q /\ forall e, e ∈ d -> ev_SequenceNumber e <> next.

Lemma set_gap_same q : set_gap (q_gapPending q) q = q.
Proof using Type. by destruct q. Qed.

(** A bundle that comes early is held. *)
Lemma progress_hold d next q e :
  progress d next (next + 1) q -> d ⊆ es -> e ∈ es -> e ∉ d -> next < ev_SequenceNumber e ->
  progress (e :: d) next (next + 1) (set_gap (<[ev_BundleID e := e]> (q_gapPending q)) q).
Proof using Hes.
  intros [Hn Hm Hg Hb Ha Hah] Hd He Hnew Hlt.
  constructor; cbn [set_gap q_ledger q_gapPending]; try done.
  - unfold expected in *. cbn [q_nextSeq set_gap]. by destruct (0 <? _).
  - intros id e'. rewrite lookup_insert_Some, Hg. split.
    + intros [[<- <-]|(Hne & Hin & Hid & Hle)]; split_and!; try done; [by left|lia|by right].
    + intros ([->|Hin]%elem_of_cons & <- & Hle); [by left|right].
      split_and!; try done. intros Eid. by rewrite (st_id _ _ _ Hes e e' He (Hd _ Hin) Eid) in Hnew.
  - intros s Hs. destruct (Hb s Hs) as (e' & He' & ?). exists e'. by split; [right|].
  - intros e' [->|He']%elem_of_cons Hs; [lia|by apply Ha].
Qed.

Lemma inv_submit d q e :
  inv d q -> d ⊆ es -> e ∈ es -> e ∉ d -> inv (e :: d) (Submit order now e nowTick q).1.
Proof using Hes order_perm.
  intros (next & Hp & Hfree) Hd He Hnew. unfold Submit.
  rewrite (st_valid _ _ _ Hes e He), (st_key _ _ _ Hes e He).
  pose proof (progress_expected _ _ _ _ Hp) as Hp0. pose proof (pg_next _ _ _ _ Hp) as [Hn Hone].
  destruct (expected key q) as [q0 n0]. cbn [fst snd] in *. subst n0.
  assert (Hd' : e :: d ⊆ es) by (intros e' [->|He']%elem_of_cons; [done|by apply Hd]).
  destruct (Z.ltb_spec next (ev_SequenceNumber e)) as [Hlt|Hge]; cbn [fst].
  - exists next. split; [by apply progress_hold|].
    intros e' [->|He']%elem_of_cons; [lia|by apply Hfree].
  - assert (Hs : ev_SequenceNumber e = next).
    { destruct (decide (ev_SequenceNumber e = next)) as [|Hs]; [done|]. exfalso.
      pose proof (st_range _ _ _ Hes e He) as Hr.
      destruct (pg_below _ _ _ _ Hp0 (ev_SequenceNumber e)) as (e' & He' & Hs'); [lia|].
      by rewrite (st_seq _ _ _ Hes e e' He (Hd _ He') (eq_sym Hs')) in Hnew. }
    destruct (apply_envelope now e q0) as [q1 r] eqn:Ea.
    destruct (progress_apply _ _ _ _ _ _ _ Hp0 Hd He Hs Ea) as (Happ & _ & Hgap & _).
    rewrite (proj2 (Z.eqb_eq _ _) Hs), Happ. cbn [andb fst].
    destruct (progress_drain (Datatypes.S (size (q_gapPending q0))) (e :: d) (next + 1)
                (add_unconfirmed e (set_next key (u64 (next + 1)) q1))) as (next' & Hp' & Hfree').
    { rewrite <-(set_gap_same (add_unconfirmed e (set_next key (u64 (next + 1)) q1))).
      apply (progress_advance d (e :: d) next (next + 1) q0 e q1 r); auto.
      + by intros e' ?; right.
      + by intros e' [->|]%elem_of_cons; [left|right].
      + by left.
      + intros id e'. cbn [q_gapPending set_next add_unconfirmed]. rewrite Hgap, (pg_gap _ _ _ _ Hp0).
        split; intros (Hin & ? & ?); split_and!; try done; try lia; [by right|].
        apply elem_of_cons in Hin as [->|]; [lia|done]. }
    { done. }
    { cbn [q_gapPending set_next add_unconfirmed]. rewrite Hgap. lia. }
    exists next'. split; [|done]. unfold drain. cbn [q_gapPending set_next add_unconfirmed].
    by rewrite Hgap.
Qed.
Definition submit_all (arrivals : list Envelope) q : Queue S :=
  fold_left (fun q e => (Submit order now e nowTick q).1) arrivals q.

Lemma inv_submit_all arrivals d q :
  inv d q -> d ⊆ es -> arrivals ⊆ es -> NoDup arrivals -> (forall e, e ∈ arrivals -> e ∉ d) ->
  exists d', inv d' (submit_all arrivals q) /\ forall e, e ∈ d' <-> e ∈ arrivals \/ e ∈ d.
Proof using Hes order_perm.
  revert d q. induction arrivals as [|e arrivals IH]; intros d q Hinv Hd Ha Hnd Hnew; cbn [submit_all fold_left].
  - exists d. split; [done|]. intros e. rewrite elem_of_nil. tauto.
  - apply NoDup_cons in Hnd as [He Hnd].
    destruct (IH (e :: d) (Submit order now e nowTick q).1) as (d' & Hinv' & Hd'); [| | |done| |].
    + apply inv_submit; [done|done|apply Ha; left|apply Hnew; left].
    + intros e' [->|Hin]%elem_of_cons; [apply Ha; left|by apply Hd].
    + intros e' Hin. apply Ha. by right.
    + intros e' Hin [->|Hin']%elem_of_cons; [done|]. by apply (Hnew e'); [right|].
    + exists d'. split; [done|]. intros e'. rewrite Hd', !elem_of_cons. tauto.
Qed.

(** The numbers of a stream are all of those from one to its length. *)
Lemma stream_numbers s : 1 <= s <= Z.of_nat (length es) -> exists e, e ∈ es /\ ev_SequenceNumber e = s.
Proof using Hes.
  intros Hs. assert (Hp : ev_SequenceNumber <$> es ≡ₚ seqZ 1 (Z.of_nat (length es))).
  { apply submseteq_length_Permutation.
    - apply NoDup_submseteq.
      + apply NoDup_fmap_2_strong; [apply (st_seq _ _ _ Hes)|apply (st_nodup _ _ _ Hes)].
      + intros z (e & -> & He)%list_elem_of_fmap. pose proof (st_range _ _ _ Hes e He).
        apply elem_of_seqZ. lia.
    - rewrite length_seqZ, length_fmap. lia. }
  assert (Hin : s ∈ ev_SequenceNumber <$> es) by (rewrite Hp; apply elem_of_seqZ; lia).
  apply list_elem_of_fmap in Hin as (e & -> & He). by exists e.
Qed.

(** C27: whatever the order in which the bundles of a stream arrive, once all of
    them have arrived every transaction has been applied, under its own hash and
    once; nothing is held back, and the stream expects the number after the
    last.  The bundles are those of one stream, numbered from one without a gap,
    with names, and with distinct names and transactions; all of them are valid at the
    tick at which they are submitted, and each arrives once.  The queue is one that
    holds nothing and has not seen the stream, over a ledger in memory - without a
    store - that has none of the transactions. *)
Theorem any_order_applied arrivals q :
  arrivals ≡ₚ es -> lg_store (q_ledger q) = None -> q_nextSeq q !! key = None ->
  q_gapPending q = ∅ -> (forall e, e ∈ es -> lg_applied (q_ledger q) !! ev_TransactionID e = None) ->
  let q' := submit_all arrivals q in
  (expected key q').2 = Z.of_nat (length es) + 1 /\ q_gapPending q' = ∅ /\
  forall e, e ∈ es -> lg_applied (q_ledger q') !! ev_TransactionID e = Some (applied_result e).
Proof using Hes order_perm.
  intros Hperm Hm Hn Hg Hnone. cbv zeta.
  assert (Hstart : inv [] q).
  { exists 1. split; [constructor; auto|by intros e ?%elem_of_nil].
    - unfold expected. by rewrite Hn.
    - intros id e. rewrite Hg, lookup_empty, elem_of_nil. naive_solver.
    - intros s Hs. lia.
    - by intros e ?%elem_of_nil. }
  destruct (inv_submit_all arrivals [] q Hstart) as (d & (next & Hp & Hfree) & Hd);
    [by intros e ?%elem_of_nil|intros e; by rewrite Hperm| |by intros e _ ?%elem_of_nil|].
  { rewrite Hperm. apply (st_nodup _ _ _ Hes). }
  assert (Hall : forall e, e ∈ d <-> e ∈ es).
  { intros e. rewrite Hd, Hperm, elem_of_nil. tauto. }
  destruct Hp as [[Hnext Hone] _ Hgap Hbelow Happ _].
  assert (Hlast : next = Z.of_nat (length es) + 1).
  { destruct (Z.lt_trichotomy next (Z.of_nat (length es) + 1)) as [Hlt|[?|Hgt]]; [exfalso| done|exfalso].
    - destruct (stream_numbers next) as (e & He & Hs); [lia|]. by apply (Hfree e); [apply Hall|].
    - destruct (Hbelow (Z.of_nat (length es) + 1)) as (e & He & Hs); [lia|].
      apply Hall, (st_range _ _ _ Hes) in He. lia. }
  split_and!; [by rewrite Hnext| |].
  - apply map_empty. intros id. apply eq_None_not_Some. intros [e He].
    apply Hgap in He as (Hin & _ & Hle). apply Hall, (st_range _ _ _ Hes) in Hin. lia.
  - intros e He. apply Happ; [by apply Hall|]. apply (st_range _ _ _ Hes) in He. lia.
Qed.
End any_order.

(** ** A recorded transaction at the number expected holds its stream up *)

Section stalled.
Context {S : Type} `{ValidatorStore S}.
Context (order : gmap string Envelope -> list (string * Envelope)).
Implicit Types (q : Queue S).

(** C38: the number a stream expects moves on only when a transaction is applied.
    The numbers live in memory and the applied transactions in the store: a
    queue made afresh over a store that has the stream's first transaction
    expects number one, finds the retransmitted bundle a duplicate, and goes on
    expecting number one, so that every later bundle of the stream is held. *)
Theorem duplicate_stalls_stream now e e2 nowTick store store' hash q :
  lg_store (q_ledger q) = Some store -> q_nextSeq q !! streamKey e = None ->
  RecordIdempotency store now (ev_TransactionID e) (Tx_Hash (envelope_tx e)) = (store', Ok (false, hash)) ->
  ev_SequenceNumber e = 1 -> Envelope_Validate e nowTick = Ok tt ->
  Envelope_Validate e2 nowTick = Ok tt -> streamKey e2 = streamKey e -> 1 < ev_SequenceNumber e2 ->
  let '(q1, r1) := Submit order now e nowTick q in
  let '(q2, r2) := Submit order now e2 nowTick q1 in
  sb_Applied r1 = false /\ sb_Duplicate r1 = true /\ sb_ResultHash r1 = hash /\
  sb_PendingMissing r2 = true /\ sb_ExpectedSequence r2 = 1 /\
  q_gapPending q2 !! ev_BundleID e2 = Some e2 /\ (expected (streamKey e) q2).2 = 1.
Proof.
  intros Hstore Hn Hrec Hs Hv Hv2 Hkey Hlt. unfold Submit at 1. rewrite Hv.
  unfold expected at 1. rewrite Hn. cbn [default from_option id Z.ltb Z.compare]. rewrite Hs.
  unfold apply_envelope, Ledger_Apply. cbn [q_ledger set_next tr_ID envelope_tx Z.ltb Z.compare Pos.compare Pos.compare_cont].
  rewrite Hstore. rewrite Hrec. cbn [rt_Applied rt_ResultHash Z.eqb Pos.eqb andb].
  unfold Submit. rewrite Hv2, Hkey. unfold expected.
  cbn [q_nextSeq set_next]. rewrite lookup_insert_eq. cbn [default from_option id Z.ltb Z.compare].
  rewrite (proj2 (Z.ltb_lt _ _) Hlt). cbn. rewrite !lookup_insert_eq. by split_and!.
Qed.
End stalled.

(** ** A stream of three *)

Definition demo_envelope (seq : Z) (tx payload : string) : Envelope :=
  match NewEnvelope (mkEnvelopeInput "node-a" "node-b" "execution" "execution" seq tx 1 100 100
                       payload "" true "" "") with
  | Ok e => e
  | Err _ => mkEnvelope "" "" "" "" "" 0 "" 0 0 0 "" "" "" false "" "" "" "" ""
  end.

Definition demo_stream : list Envelope :=
  [demo_envelope 1 "tx-1" "run"; demo_envelope 2 "tx-2" "stop"; demo_envelope 3 "tx-3" "run"].

Definition demo_arrivals : list Envelope :=
  [demo_envelope 3 "tx-3" "run"; demo_envelope 1 "tx-1" "run"; demo_envelope 2 "tx-2" "stop"].

Definition demo_key : string := streamKey (demo_envelope 1 "tx-1" "run").

Definition demo_queue : Queue MemoryStore := NewQueue NewLedger.

Example demo_envelope_id : ev_BundleID (demo_envelope 1 "tx-1" "run") = "bundle-c5dbdcec8f8976eb01f07038"%string.
Proof. vm_compute. reflexivity. Qed.

(** A field that differs on all of [es] tells its elements apart. *)
Lemma NoDup_field {A B} (f : A -> B) (es : list A) e e' :
  NoDup (map f es) -> e ∈ es -> e' ∈ es -> f e = f e' -> e = e'.
Proof.
  intros Hnd [i Hi]%list_elem_of_lookup [j Hj]%list_elem_of_lookup E.
  assert (i = j); [|by simplify_eq].
  apply (NoDup_lookup (map f es) i j (f e)); [done| |];
    rewrite list_lookup_fmap; [by rewrite Hi|by rewrite Hj, E].
Qed.

Lemma demo_stream_ok : stream_ok demo_key 5 demo_stream.
Proof.
  assert (Hin : forall P : Envelope -> Prop, Forall P demo_stream -> forall e, e ∈ demo_stream -> P e)
    by (intros P HP e; by apply Forall_forall).
  constructor.
  - apply (NoDup_fmap_1 ev_SequenceNumber), (bool_decide_unpack _). vm_compute. reflexivity.
  - apply Hin. repeat constructor.
  - apply Hin. repeat constructor; vm_compute; reflexivity.
  - apply Hin. repeat constructor; vm_compute; discriminate.
  - intros e e'. apply NoDup_field, (bool_decide_unpack _). vm_compute. reflexivity.
  - intros e e'. apply NoDup_field, (bool_decide_unpack _). vm_compute. reflexivity.
  - intros e e'. apply NoDup_field, (bool_decide_unpack _). vm_compute. reflexivity.
  - apply Hin. repeat constructor; vm_compute; discriminate.
  - vm_compute. reflexivity.
Qed.

Definition demo_now : Time := mkTime 7 "".

Lemma drain_complete_witness :
  let q := (Submit map_to_list demo_now (demo_envelope 2 "tx-2" "stop") 5 demo_queue).1 in
  drainReady map_to_list (Datatypes.S (size (q_gapPending q)) + 1) demo_now demo_key 5 q
  = drain map_to_list demo_now demo_key 5 q /\
  forall id e, q_gapPending (drain map_to_list demo_now demo_key 5 q) !! id = Some e -> streamKey e = demo_key ->
               ev_SequenceNumber e <> (expected demo_key (drain map_to_list demo_now demo_key 5 q)).2.
Proof. intros q. apply (drain_complete map_to_list ltac:(done) demo_now demo_key 5 q 1). vm_compute. reflexivity. Defined.

Lemma any_order_applied_witness :
  let q' := submit_all map_to_list demo_now 5 demo_arrivals demo_queue in
  (expected demo_key q').2 = 4 /\ q_gapPending q' = ∅ /\
  forall e, e ∈ demo_stream ->
            lg_applied (q_ledger q') !! ev_TransactionID e = Some (applied_result e).
Proof.
  apply (any_order_applied map_to_list ltac:(done) demo_now demo_key 5 demo_stream demo_stream_ok);
    [|done|done|done|done].
  apply (Permutation_cons_append [_; _]).
Defined.

(** After a restart: the store has the first transaction, the queue is new. *)
Definition demo_restarted : Queue MemoryStore :=
  NewQueue (NewPersistentLedger
    (RecordIdempotency NewMemoryStore demo_now "tx-1" (Tx_Hash (envelope_tx (demo_envelope 1 "tx-1" "run")))).1).

Lemma duplicate_stalls_stream_witness :
  let '(q1, r1) := Submit map_to_list demo_now (demo_envelope 1 "tx-1" "run") 5 demo_restarted in
  let '(q2, r2) := Submit map_to_list demo_now (demo_envelope 2 "tx-2" "stop") 5 q1 in
  sb_Applied r1 = false /\ sb_Duplicate r1 = true /\
  sb_ResultHash r1 = Tx_Hash (envelope_tx (demo_envelope 1 "tx-1" "run")) /\
  sb_PendingMissing r2 = true /\ sb_ExpectedSequence r2 = 1 /\
  q_gapPending q2 !! ev_BundleID (demo_envelope 2 "tx-2" "stop") = Some (demo_envelope 2 "tx-2" "stop") /\
  (expected demo_key q2).2 = 1.
Proof.
  eapply (duplicate_stalls_stream map_to_list demo_now (demo_envelope 1 "tx-1" "run")
            (demo_envelope 2 "tx-2" "stop")); [done|done| |done|..]; vm_compute; reflexivity.
Defined.

(** A bundle without an id is valid and can be held, but the drain takes it for no bundle
    at all: it is never applied, and what comes after it in its stream is held with it. *)
Example unnamed_stops_stream :
  let e := demo_envelope 2 "tx-2" "stop" in
  let unnamed := mkEnvelope "" (ev_SourceNodeID e) (ev_DestinationNodeID e) (ev_ChannelID e) (ev_ChannelType e)
    (ev_SequenceNumber e) (ev_TransactionID e) (ev_CreationTick e) (ev_ExpirationTick e) (ev_Priority e)
    (ev_PayloadDigest e) (ev_PayloadBytes e) (ev_PreviousBundleID e) (ev_CustodyRequested e) (ev_CustodyStatus e)
    (ev_QuorumCertificateRef e) (ev_SignatureRef e) (ev_Compression e) (ev_CompressionContentType e) in
  let q := submit_all map_to_list demo_now 5
             [demo_envelope 3 "tx-3" "run"; unnamed; demo_envelope 1 "tx-1" "run"] demo_queue in
  Envelope_Validate unnamed 5 = Ok tt /\ size (q_gapPending q) = 2%nat /\
  q_gapPending q !! ""%string = Some unnamed /\ (expected demo_key q).2 = 2.
Proof. vm_compute. repeat split. Qed.
