(* ===== verification/Channel.v ===== *)
(** * Context channels and their scheduler: bundle/channel/channel.go

    A manager keeps a queue of items per channel, each within its own budgets and
    all of them within a total, evicting the oldest or the least important; the
    scheduler serves the channels by deficit round robin.  The gzip writer and
    reader are parameters. *)

From S2P Require Import Prelude Sha256 Json.
Local Open Scope Z_scope.

(** ** Policies, items, channels *)

Definition TypeConversation : string := "conversation".
Definition TypeWorkingMemory : string := "working_memory".
Definition TypeExecution : string := "execution".
Definition TypeRetrieval : string := "retrieval".
Definition CompressionNoop : string := "noop".
Definition CompressionGzip : string := "gzip".
Definition EvictOldestFirst : string := "oldest_first".
Definition EvictLowestPriorityFirst : string := "lowest_priority_first".

Record Policy := mkPolicy {
  pl_ChannelID : string;
  pl_ChannelType : string;
  pl_PriorityWeight : Z;
  pl_MaxItems : Z;
  pl_MaxBytes : Z;
  pl_Compression : string;
  pl_EvictionPolicy : string
}.

Record Item := mkItem {
  it_ID : string;
  it_ChannelID : string;
  it_ChannelType : string;
  it_Priority : Z;
  it_Sequence : Z;
  it_Payload : string;
  it_SizeEstimate : Z;
  it_Digest : string;
  it_Compression : string;
  it_CreatedTick : Z
}.

Record EvictionDecision := mkEviction {
  ed_ChannelID : string;
  ed_ItemID : string;
  ed_Sequence : Z;
  ed_Reason : string
}.

Record Channel := mkChannel {
  ch_Policy : Policy;
  ch_nextSeq : Z;
  ch_pending : list Item;
  ch_delivered : gmap string Item
}.

Record Manager := mkManager {
  mg_channels : gmap string Channel;
  mg_order : list string;
  mg_totalMaxBytes : Z;
  mg_evictions : list EvictionDecision
}.

Definition DefaultPolicies : list Policy :=
  [mkPolicy TypeConversation TypeConversation 40 8 4096 CompressionNoop EvictOldestFirst;
   mkPolicy TypeWorkingMemory TypeWorkingMemory 50 8 4096 CompressionNoop EvictOldestFirst;
   mkPolicy TypeExecution TypeExecution 100 8 4096 CompressionNoop EvictOldestFirst;
   mkPolicy TypeRetrieval TypeRetrieval 70 8 4096 CompressionNoop EvictOldestFirst].

(** A policy with its defaults filled in. *)
Definition filled (policy : Policy) : Policy :=
  mkPolicy (pl_ChannelID policy) (pl_ChannelType policy) (pl_PriorityWeight policy)
    (pl_MaxItems policy) (pl_MaxBytes policy)
    (if String.eqb (pl_Compression policy) "" then CompressionNoop else pl_Compression policy)
    (if String.eqb (pl_EvictionPolicy policy) "" then EvictOldestFirst else pl_EvictionPolicy policy).

(** One policy in the loop of [NewManager]. *)
Definition add_policy (policy : Policy) (m : Manager) : result Manager :=
  if String.eqb (pl_ChannelID policy) "" || String.eqb (pl_ChannelType policy) "" then
    fail "channel policy requires channel id and type"
  else if pl_PriorityWeight policy <=? 0 then
    Err (errorf ["channel "; pl_ChannelID policy; " priority weight must be positive"])
  else
    match mg_channels m !! pl_ChannelID policy with
    | Some _ => Err (errorf ["duplicate channel policy: "; pl_ChannelID policy])
    | None =>
        Ok (mkManager (<[pl_ChannelID policy := mkChannel (filled policy) 1 [] ∅]> (mg_channels m))
              (mg_order m ++ [pl_ChannelID policy]) (mg_totalMaxBytes m) (mg_evictions m))
    end.

Fixpoint add_policies (policies : list Policy) (m : Manager) : result Manager :=
  match policies with
  | [] => Ok m
  | policy :: policies => m ← add_policy policy m; add_policies policies m
  end.

Definition NewManager (totalMaxBytes : Z) (policies : list Policy) : result Manager :=
  let policies := match policies with [] => DefaultPolicies | _ => policies end in
  m ← add_policies policies (mkManager ∅ [] totalMaxBytes []);
  Ok (mkManager (mg_channels m) (sort_strings (mg_order m)) (mg_totalMaxBytes m) (mg_evictions m)).

(** ** Eviction and budgets *)

Fixpoint channelBytes (items : list Item) : Z :=
  match items with [] => 0 | item :: items => it_SizeEstimate item + channelBytes items end.

(** A channel's share of [BudgetUsed], which ranges over the map. *)
Definition channel_shares (m : Manager) : list (list Item) :=
  map (fun kv => ch_pending kv.2) (map_to_list (mg_channels m)).

Definition BudgetUsed (m : Manager) : Z := foldr (fun items total => channelBytes items + total) 0 (channel_shares m).

Definition set_pending (items : list Item) (ch : Channel) : Channel :=
  mkChannel (ch_Policy ch) (ch_nextSeq ch) items (ch_delivered ch).

Definition evict_before (a b : Item) : bool :=
  (it_Priority a <? it_Priority b) ||
  ((it_Priority a =? it_Priority b) && (it_Sequence a <? it_Sequence b)).

(** The loop that looks for the least important item, the oldest among equals. *)
Fixpoint evict_scan (items : list Item) (i idx : nat) (best : Item) : nat :=
  match items with
  | [] => idx
  | item :: items =>
      if evict_before item best then evict_scan items (S i) i item else evict_scan items (S i) idx best
  end.

Definition evict_index (ch : Channel) : nat :=
  if String.eqb (pl_EvictionPolicy (ch_Policy ch)) EvictLowestPriorityFirst then
    match ch_pending ch with
    | [] => O
    | item :: _ => evict_scan (ch_pending ch) 0 0 item
    end
  else O.

Definition evictFromChannel (reason : string) (ch : Channel) : Channel * list EvictionDecision :=
  match ch_pending ch !! evict_index ch with
  | None => (ch, [])
  | Some item =>
      (set_pending (delete (evict_index ch) (ch_pending ch)) ch,
       [mkEviction (it_ChannelID item) (it_ID item) (it_Sequence item) reason])
  end.

(** The budget a channel exceeds, if any. *)
Definition over_budget (ch : Channel) : option string :=
  let policy := ch_Policy ch in
  if (0 <? pl_MaxItems policy) && (pl_MaxItems policy <? Z.of_nat (length (ch_pending ch))) then
    Some "channel max items"%string
  else if (0 <? pl_MaxBytes policy) && (pl_MaxBytes policy <? channelBytes (ch_pending ch)) then
    Some "channel max bytes"%string
  else None.

Fixpoint enforceChannelBudget (fuel : nat) (ch : Channel) (evictions : list EvictionDecision)
    : Channel * list EvictionDecision :=
  match fuel with
  | O => (ch, evictions)
  | S fuel =>
      match over_budget ch with
      | None => (ch, evictions)
      | Some reason =>
          let '(ch, evicted) := evictFromChannel reason ch in
          enforceChannelBudget fuel ch (evictions ++ evicted)
      end
  end.

(** [best] so far: the loop keeps the first of the least weight, the one whose
    first item is older among equals. *)
Definition better_victim (ch : Channel) (best : option (string * Channel)) : bool :=
  match best with
  | None => true
  | Some (_, best) =>
      (pl_PriorityWeight (ch_Policy ch) <? pl_PriorityWeight (ch_Policy best)) ||
      ((pl_PriorityWeight (ch_Policy ch) =? pl_PriorityWeight (ch_Policy best)) &&
       match ch_pending ch, ch_pending best with
       | a :: _, b :: _ => it_Sequence a <? it_Sequence b
       | _, _ => false
       end)
  end.

(** One turn of the loop keeps the better of the two. *)
Definition next_best (channels : gmap string Channel) (id : string) (best : option (string * Channel))
    : option (string * Channel) :=
  match channels !! id with
  | Some ch =>
      match ch_pending ch with
      | [] => best
      | _ => if better_victim ch best then Some (id, ch) else best
      end
  | None => best
  end.

Fixpoint lowest_from (channels : gmap string Channel) (order : list string)
    (best : option (string * Channel)) : option (string * Channel) :=
  match order with
  | [] => best
  | id :: order =>
      lowest_from channels order (next_best channels id best)
  end.

Definition lowestPriorityNonEmptyChannel (m : Manager) : option (string * Channel) :=
  lowest_from (mg_channels m) (mg_order m) None.

(** A channel put back after its evictions. *)
Definition put_channel (id : string) (ch : Channel) (evicted : list EvictionDecision) (m : Manager) : Manager :=
  mkManager (<[id := ch]> (mg_channels m)) (mg_order m) (mg_totalMaxBytes m) (mg_evictions m ++ evicted).

Fixpoint enforceTotalBudget (fuel : nat) (m : Manager) : Manager :=
  match fuel with
  | O => m
  | S fuel =>
      if (0 <? mg_totalMaxBytes m) && (mg_totalMaxBytes m <? BudgetUsed m) then
        match lowestPriorityNonEmptyChannel m with
        | None => m
        | Some (id, ch) =>
            let '(ch, evicted) := evictFromChannel "total context budget" ch in
            enforceTotalBudget fuel (put_channel id ch evicted m)
        end
      else m
  end.

Definition held (m : Manager) : nat := foldr (fun items n => length items + n)%nat O (channel_shares m).

(** ** Operations of the manager *)

Section manager.
(* the gzip writer and reader, which are Go's compress/gzip *)
Context (gzip gunzip : string -> result string).

Definition Compress (name payload : string) : result string :=
  if String.eqb name "" || String.eqb name CompressionNoop then Ok payload
  else if String.eqb name CompressionGzip then gzip payload
  else Err (errorf ["unsupported compression profile: "; name]).

Definition Decompress (name payload : string) : result string :=
  if String.eqb name "" || String.eqb name CompressionNoop then Ok payload
  else if String.eqb name CompressionGzip then gunzip payload
  else Err (errorf ["unsupported compression profile: "; name]).

Definition item_json (item : Item) : json :=
  JObj [("id", JStr (it_ID item)); ("channel_id", JStr (it_ChannelID item));
        ("channel_type", JStr (it_ChannelType item)); ("sequence", JInt (it_Sequence item));
        ("payload", bytes_json (it_Payload item))].

Definition Add (channelID itemID payload : string) (createdTick : Z) (m : Manager) : Manager * result Item :=
  match mg_channels m !! channelID with
  | None => (m, Err (errorf ["unknown channel: "; channelID]))
  | Some ch =>
      let policy := ch_Policy ch in
      match Compress (pl_Compression policy) payload with
      | Err e => (m, Err e)
      | Ok compressed =>
          let item digest :=
            mkItem itemID (pl_ChannelID policy) (pl_ChannelType policy) (pl_PriorityWeight policy)
              (ch_nextSeq ch) compressed (len compressed) digest (pl_Compression policy) createdTick in
          match HashCanonical (item_json (item ""%string)) with
          | Err e => (m, Err e)
          | Ok digest =>
              let ch := mkChannel policy (u64 (ch_nextSeq ch + 1)) (ch_pending ch ++ [item digest])
                          (ch_delivered ch) in
              let '(ch, evicted) := enforceChannelBudget (S (length (ch_pending ch))) ch [] in
              let m := put_channel channelID ch evicted m in
              (enforceTotalBudget (S (held m)) m, Ok (item digest))
          end
      end
  end.
End manager.

Definition Commit (channelID itemID : string) (m : Manager) : Manager * bool :=
  match mg_channels m !! channelID with
  | None => (m, false)
  | Some ch =>
      match list_find (fun item => it_ID item = itemID) (ch_pending ch) with
      | None => (m, false)
      | Some (i, item) =>
          (put_channel channelID
             (mkChannel (ch_Policy ch) (ch_nextSeq ch) (delete i (ch_pending ch))
                (<[itemID := item]> (ch_delivered ch))) [] m, true)
      end
  end.

Definition snapshot_le (a b : Item) : Prop :=
  if negb (String.eqb (it_ChannelID a) (it_ChannelID b)) then String.le (it_ChannelID a) (it_ChannelID b)
  else it_Sequence a <= it_Sequence b.

#[export] Instance snapshot_le_dec : RelDecision snapshot_le.
Proof. intros a b. unfold snapshot_le. case_match; apply _. Defined.

Definition ordered_channels (m : Manager) : list Channel := omap (fun id => mg_channels m !! id) (mg_order m).

Definition SnapshotItems (m : Manager) : list Item :=
  merge_sort snapshot_le (concat (map ch_pending (ordered_channels m))).

Definition Policies (m : Manager) : list Policy := map ch_Policy (ordered_channels m).

Definition NextSequence (channelID : string) (m : Manager) : Z * bool :=
  match mg_channels m !! channelID with Some ch => (ch_nextSeq ch, true) | None => (0, false) end.

(** ** The scheduler: deficit round robin *)

Record Scheduler := mkScheduler {
  sc_queues : gmap string (list Item);
  sc_weights : gmap string Z;
  sc_deficits : gmap string Z;
  sc_order : list string;
  sc_cursor : nat
}.

Definition queue_of (id : string) (s : Scheduler) : list Item := default [] (sc_queues s !! id).
Definition deficit_of (id : string) (s : Scheduler) : Z := default 0 (sc_deficits s !! id).
Definition weight_of (id : string) (s : Scheduler) : Z := default 0 (sc_weights s !! id).

Definition sequence_le (a b : Item) : Prop := it_Sequence a <= it_Sequence b.

#[export] Instance sequence_le_dec : RelDecision sequence_le.
Proof. intros a b. unfold sequence_le. apply _. Defined.

Definition add_weight (w : gmap string Z) (policy : Policy) : gmap string Z :=
  <[pl_ChannelID policy := pl_PriorityWeight policy]> w.

Definition add_item (q : gmap string (list Item)) (item : Item) : gmap string (list Item) :=
  <[it_ChannelID item := default [] (q !! it_ChannelID item) ++ [item]]> q.

Definition NewScheduler (policies : list Policy) (items : list Item) : Scheduler :=
  let weights := foldl add_weight ∅ policies in
  let queues := foldl add_item ∅ items in
  let unknown := List.filter (fun id => bool_decide (weights !! id = None)) (keys queues) in
  mkScheduler (merge_sort sequence_le <$> queues)
    (foldl (fun w id => <[id := 1]> w) weights unknown) ∅
    (sort_strings (map pl_ChannelID policies ++ unknown)) O.

Definition Manager_Scheduler (m : Manager) : Scheduler := NewScheduler (Policies m) (SnapshotItems m).

Definition Scheduler_Len (s : Scheduler) : Z :=
  foldr (fun kv total => Z.of_nat (length kv.2) + total) 0 (map_to_list (sc_queues s)).

Definition set_deficit (id : string) (d : Z) (s : Scheduler) : Scheduler :=
  mkScheduler (sc_queues s) (sc_weights s) (<[id := d]> (sc_deficits s)) (sc_order s) (sc_cursor s).

Definition set_queue (id : string) (items : list Item) (s : Scheduler) : Scheduler :=
  mkScheduler (<[id := items]> (sc_queues s)) (sc_weights s) (sc_deficits s) (sc_order s) (sc_cursor s).

Definition advance (s : Scheduler) : Scheduler :=
  mkScheduler (sc_queues s) (sc_weights s) (sc_deficits s) (sc_order s)
    ((sc_cursor s + 1) mod length (sc_order s))%nat.

(** The loop of [Next]: every turn that does not return counts as a pass. *)
Fixpoint next_pass (passes : nat) (s : Scheduler) : Scheduler * option Item :=
  match passes with
  | O => (s, None)
  | S passes =>
      let id := nth (sc_cursor s) (sc_order s) ""%string in
      match queue_of id s with
      | [] => next_pass passes (advance (set_deficit id 0 s))
      | item :: rest =>
          let weight := if weight_of id s <=? 0 then 1 else weight_of id s in
          let s := if deficit_of id s <? 1 then set_deficit id (deficit_of id s + weight) s else s in
          if 1 <=? deficit_of id s then
            let s := set_deficit id (deficit_of id s - 1) (set_queue id rest s) in
            (if deficit_of id s =? 0 then advance s else s, Some item)
          else next_pass passes (advance s)
      end
  end.

Definition Next (s : Scheduler) : Scheduler * option Item :=
  match sc_order s with
  | [] => (s, None)
  | _ => if Scheduler_Len s =? 0 then (s, None) else next_pass (length (sc_order s) * 2) s
  end.

(** ** Budgets hold after every operation *)

Definition entry (item : Item) : string * string * Z := (it_ChannelID item, it_ID item, it_Sequence item).
Definition evicted_entry (d : EvictionDecision) : string * string * Z :=
  (ed_ChannelID d, ed_ItemID d, ed_Sequence d).
Definition all_items (m : Manager) : list Item := concat (channel_shares m).
Definition item_ok (id : string) (item : Item) : Prop := it_ChannelID item = id /\ 0 <= it_SizeEstimate item.

Lemma channelBytes_app l1 l2 : channelBytes (l1 ++ l2) = channelBytes l1 + channelBytes l2.
Proof. induction l1 as [|i l1 IH]; cbn; [done|]. rewrite IH. lia. Qed.

#[export] Instance channelBytes_perm : Proper ((≡ₚ) ==> eq) channelBytes.
Proof. intros l1 l2 Hp. induction Hp; cbn; lia. Qed.

Lemma channelBytes_nonneg id l : Forall (item_ok id) l -> 0 <= channelBytes l.
Proof. induction 1 as [|i l [_ Hi] _ IH]; cbn; lia. Qed.

Lemma BudgetUsed_all m : BudgetUsed m = channelBytes (all_items m).
Proof.
  unfold BudgetUsed, all_items. induction (channel_shares m) as [|l ls IH]; cbn; [done|].
  by rewrite IH, channelBytes_app.
Qed.

Lemma held_all m : held m = length (all_items m).
Proof.
  unfold held, all_items. induction (channel_shares m) as [|l ls IH]; cbn; [done|].
  by rewrite IH, length_app.
Qed.

#[export] Instance concat_perm {A} : Proper ((≡ₚ) ==> (≡ₚ)) (@concat A).
Proof.
  intros l1 l2 Hp. induction Hp; cbn; [done|by f_equiv| |by etrans].
  rewrite !(assoc_L (++)). f_equiv. apply Permutation_app_comm.
Qed.

(** The items of a channel among all of them. *)
Lemma all_items_put m id ch :
  mg_channels m !! id = Some ch ->
  exists rest, all_items m ≡ₚ ch_pending ch ++ rest /\
               forall ch' out, all_items (put_channel id ch' out m) ≡ₚ ch_pending ch' ++ rest.
Proof.
  intros Hch. exists (concat (map (fun kv => ch_pending kv.2) (map_to_list (delete id (mg_channels m))))).
  unfold all_items, channel_shares. split.
  - by rewrite <-(map_to_list_delete _ _ _ Hch).
  - intros ch' out. cbn [mg_channels put_channel].
    rewrite <-insert_delete_eq, map_to_list_insert by apply lookup_delete_eq. done.
Qed.

(** What evicting keeps: some items go, each with a decision that names it. *)
Record shrinks (ch ch' : Channel) (out : list EvictionDecision) : Prop := {
  sh_items : exists items, ch_pending ch ≡ₚ items ++ ch_pending ch' /\
                           map evicted_entry out = map entry items;
  sh_policy : ch_Policy ch' = ch_Policy ch;
  sh_rest : ch_nextSeq ch' = ch_nextSeq ch /\ ch_delivered ch' = ch_delivered ch
}.

Lemma shrinks_refl ch : shrinks ch ch [].
Proof. constructor; [by exists []|done|done]. Qed.

Lemma shrinks_trans ch1 ch2 ch3 out1 out2 :
  shrinks ch1 ch2 out1 -> shrinks ch2 ch3 out2 -> shrinks ch1 ch3 (out1 ++ out2).
Proof.
  intros [(i1 & Hp1 & He1) Hpol1 [Hn1 Hd1]] [(i2 & Hp2 & He2) Hpol2 [Hn2 Hd2]].
  constructor; [|congruence|split; congruence].
  exists (i1 ++ i2). split; [by rewrite Hp1, Hp2, (assoc_L (++))|]. by rewrite !map_app, He1, He2.
Qed.

Lemma shrinks_ok id ch ch' out :
  shrinks ch ch' out -> Forall (item_ok id) (ch_pending ch) -> Forall (item_ok id) (ch_pending ch').
Proof. intros [(items & Hp & _) _ _]. rewrite Hp. by intros [_ ?]%Forall_app. Qed.

Lemma evict_scan_bound items i idx best :
  (idx < i + length items)%nat -> (evict_scan items i idx best < i + length items)%nat.
Proof.
  revert i idx best. induction items as [|item items IH]; intros i idx best Hidx; cbn in *; [lia|].
  rewrite Nat.add_succ_r in *. case_match; apply IH; lia.
Qed.

Lemma evict_index_bound ch : ch_pending ch <> [] -> (evict_index ch < length (ch_pending ch))%nat.
Proof.
  intros Hne. unfold evict_index. destruct (ch_pending ch) as [|item items] eqn:E; [done|].
  case_match; [|cbn; lia]. apply evict_scan_bound. cbn. lia.
Qed.

Lemma evict_shrinks reason ch ch' out :
  evictFromChannel reason ch = (ch', out) -> ch_pending ch <> [] ->
  shrinks ch ch' out /\ length (ch_pending ch) = S (length (ch_pending ch')).
Proof.
  intros He Hne. unfold evictFromChannel in He.
  destruct (lookup_lt_is_Some_2 _ _ (evict_index_bound ch Hne)) as [item Hi].
  rewrite Hi in He. injection He as <- <-. apply delete_Permutation in Hi.
  split; [|by apply Permutation_length in Hi]. constructor; [|done|done]. by exists [item].
Qed.

Lemma over_budget_None ch :
  over_budget ch = None <->
  (0 < pl_MaxItems (ch_Policy ch) -> Z.of_nat (length (ch_pending ch)) <= pl_MaxItems (ch_Policy ch)) /\
  (0 < pl_MaxBytes (ch_Policy ch) -> channelBytes (ch_pending ch) <= pl_MaxBytes (ch_Policy ch)).
Proof.
  unfold over_budget.
  destruct (Z.ltb_spec 0 (pl_MaxItems (ch_Policy ch))), (Z.ltb_spec 0 (pl_MaxBytes (ch_Policy ch))),
    (Z.ltb_spec (pl_MaxItems (ch_Policy ch)) (Z.of_nat (length (ch_pending ch)))),
    (Z.ltb_spec (pl_MaxBytes (ch_Policy ch)) (channelBytes (ch_pending ch)));
    cbn [andb]; split; first [done|lia|intros [? ?]; lia].
Qed.

(** A channel with fewer items is within the budgets it was within. *)
Lemma over_budget_shrinks id ch ch' out :
  shrinks ch ch' out -> Forall (item_ok id) (ch_pending ch) ->
  over_budget ch = None -> over_budget ch' = None.
Proof.
  intros [(items & Hp & _) Hpol _] Hok. rewrite !over_budget_None, Hpol.
  assert (Hlen := Permutation_length Hp). rewrite length_app in Hlen.
  rewrite Hp in Hok |- *. apply Forall_app in Hok as [Hitems _].
  apply channelBytes_nonneg in Hitems. rewrite channelBytes_app, length_app.
  intros [Hi Hb]. split; intros Hpos; [specialize (Hi Hpos)|specialize (Hb Hpos)]; lia.
Qed.

Lemma over_budget_nonempty ch reason : over_budget ch = Some reason -> ch_pending ch <> [].
Proof.
  intros Ho E. assert (over_budget ch = None); [|congruence].
  apply over_budget_None. rewrite E. cbn. lia.
Qed.

(** The loop over one channel ends within its budgets. *)
Lemma enforceChannelBudget_spec fuel ch evictions ch' evictions' :
  (length (ch_pending ch) < fuel)%nat -> enforceChannelBudget fuel ch evictions = (ch', evictions') ->
  over_budget ch' = None /\ exists out, evictions' = evictions ++ out /\ shrinks ch ch' out.
Proof.
  revert ch evictions. induction fuel as [|fuel IH]; intros ch evictions Hlen; cbn; [lia|].
  destruct (over_budget ch) as [reason|] eqn:Ho.
  - destruct (evictFromChannel reason ch) as [ch1 out] eqn:Ee.
    destruct (evict_shrinks _ _ _ _ Ee (over_budget_nonempty _ _ Ho)) as [Hs Hl]. intros Henf.
    apply IH in Henf as (Hnone & out2 & -> & Hs2); [|lia]. split; [done|].
    exists (out ++ out2). split; [by rewrite (assoc_L (++))|]. by apply (shrinks_trans ch ch1).
  - intros [= <- <-]. split; [done|]. exists []. split; [by rewrite app_nil_r|apply shrinks_refl].
Qed.

Record manager_wf (m : Manager) : Prop := {
  wf_order id : id ∈ mg_order m <-> is_Some (mg_channels m !! id);
  wf_nodup : NoDup (mg_order m);
  wf_channel id ch : mg_channels m !! id = Some ch ->
                     pl_ChannelID (ch_Policy ch) = id /\ Forall (item_ok id) (ch_pending ch) /\
                     over_budget ch = None
}.

Definition within_budgets (m : Manager) : Prop :=
  manager_wf m /\ (0 < mg_totalMaxBytes m -> BudgetUsed m <= mg_totalMaxBytes m).

(** Some items go from the manager, each with a decision that names it. *)
Definition manager_shrinks (m m' : Manager) : Prop :=
  mg_totalMaxBytes m' = mg_totalMaxBytes m /\
  exists out items, mg_evictions m' = (mg_evictions m ++ out)%list /\
                    all_items m ≡ₚ items ++ all_items m' /\ map evicted_entry out = map entry items.

Lemma manager_shrinks_refl m : manager_shrinks m m.
Proof. split; [done|]. exists [], []. by rewrite app_nil_r. Qed.

Lemma manager_shrinks_trans m1 m2 m3 :
  manager_shrinks m1 m2 -> manager_shrinks m2 m3 -> manager_shrinks m1 m3.
Proof.
  intros [Ht1 (o1 & i1 & He1 & Hp1 & Hm1)] [Ht2 (o2 & i2 & He2 & Hp2 & Hm2)].
  split; [congruence|]. exists (o1 ++ o2)%list, (i1 ++ i2)%list. split_and!.
  - by rewrite He2, He1, (assoc_L (++)).
  - by rewrite Hp1, Hp2, (assoc_L (++)).
  - by rewrite !map_app, Hm1, Hm2.
Qed.

Lemma put_channel_wf m id ch ch' out :
  manager_wf m -> mg_channels m !! id = Some ch -> pl_ChannelID (ch_Policy ch') = id ->
  Forall (item_ok id) (ch_pending ch') -> over_budget ch' = None -> manager_wf (put_channel id ch' out m).
Proof.
  intros [Ho Hn Hc] Hch Hid Hok Hb. constructor; cbn [mg_order mg_channels put_channel].
  - intros id'. rewrite Ho, lookup_insert_is_Some'. naive_solver.
  - done.
  - intros id' ch0 [[<- <-]|[_ Hch0]]%lookup_insert_Some; [done|by apply Hc].
Qed.

Lemma put_channel_shrinks m id ch ch' out :
  mg_channels m !! id = Some ch -> shrinks ch ch' out -> manager_shrinks m (put_channel id ch' out m).
Proof.
  intros Hch [(items & Hp & He) _ _]. split; [done|]. exists out, items. split_and!; [done| |done].
  destruct (all_items_put m id ch Hch) as (rest & Hm & Hm'). by rewrite Hm, Hm', Hp, (assoc_L (++)).
Qed.

(** The channel the total budget takes from. *)
Definition victim (channels : gmap string Channel) (id : string) (ch : Channel) : Prop :=
  channels !! id = Some ch /\ ch_pending ch <> [].

Lemma better_victim_weight ch best :
  if better_victim ch (Some best)
  then pl_PriorityWeight (ch_Policy ch) <= pl_PriorityWeight (ch_Policy best.2)
  else pl_PriorityWeight (ch_Policy best.2) <= pl_PriorityWeight (ch_Policy ch).
Proof.
  unfold better_victim. destruct best as [id best]. cbn [snd].
  destruct (Z.ltb_spec (pl_PriorityWeight (ch_Policy ch)) (pl_PriorityWeight (ch_Policy best))); cbn [orb]; [lia|].
  destruct (Z.eqb_spec (pl_PriorityWeight (ch_Policy ch)) (pl_PriorityWeight (ch_Policy best))); cbn [andb].
  - case_match; lia.
  - lia.
Qed.

Lemma next_best_spec channels id0 best :
  (forall id ch, best = Some (id, ch) -> victim channels id ch) ->
  (forall id ch, next_best channels id0 best = Some (id, ch) -> victim channels id ch) /\
  (forall id ch, (id = id0 /\ victim channels id ch) \/ best = Some (id, ch) ->
     exists id' ch', next_best channels id0 best = Some (id', ch') /\
                     pl_PriorityWeight (ch_Policy ch') <= pl_PriorityWeight (ch_Policy ch)).
Proof.
  intros Hbest. unfold next_best, victim in *.
  assert (Hsame : forall id ch, best = Some (id, ch) -> exists id' ch', best = Some (id', ch') /\
            pl_PriorityWeight (ch_Policy ch') <= pl_PriorityWeight (ch_Policy ch))
    by (intros id ch ->; exists id, ch; split; [done|lia]).
  destruct (channels !! id0) as [ch0|] eqn:E0.
  2: { split; [done|]. intros id ch [[-> [Hv _]]|Hb]; [congruence|by apply (Hsame id)]. }
  destruct (ch_pending ch0) as [|i l] eqn:El.
  { split; [done|]. intros id ch [[-> [Hv Hne]]|Hb]; [congruence|by apply (Hsame id)]. }
  pose proof (better_victim_weight ch0) as Hw. destruct (better_victim ch0 best) eqn:Eb.
  - split; [intros id ch [= <- <-]; by rewrite E0, El|].
    intros id ch Hcase. exists id0, ch0. split; [done|]. destruct Hcase as [[-> [Hv _]]| ->].
    + injection (eq_trans (eq_sym E0) Hv) as ->. lia.
    + specialize (Hw (id, ch)). by rewrite Eb in Hw.
  - split; [done|]. intros id ch [[-> [Hv _]]|Hb]; [|by apply (Hsame id)]. destruct best as [[idb chb]|]; [|done].
    exists idb, chb. split; [done|]. injection (eq_trans (eq_sym E0) Hv) as <-.
    specialize (Hw (idb, chb)). by rewrite Eb in Hw.
Qed.

Lemma lowest_from_spec channels order best :
  (forall id ch, best = Some (id, ch) -> victim channels id ch) ->
  (forall id ch, lowest_from channels order best = Some (id, ch) -> victim channels id ch) /\
  (forall id ch, (id ∈ order /\ victim channels id ch) \/ best = Some (id, ch) ->
     exists id' ch', lowest_from channels order best = Some (id', ch') /\
                     pl_PriorityWeight (ch_Policy ch') <= pl_PriorityWeight (ch_Policy ch)).
Proof.
  revert best. induction order as [|id0 order IH]; intros best Hbest; cbn [lowest_from].
  { split; [done|]. intros id ch [[Hin _]|Hb]; [by apply elem_of_nil in Hin|]. exists id, ch. split; [done|lia]. }
  pose proof (next_best_spec channels id0 best Hbest) as [Hvalid Hweight].
  destruct (IH _ Hvalid) as [IHv IHm]. split; [done|].
  intros id ch Hcase. assert (Hstep : (id ∈ order /\ victim channels id ch) \/
      exists id' ch', next_best channels id0 best = Some (id', ch') /\
                      pl_PriorityWeight (ch_Policy ch') <= pl_PriorityWeight (ch_Policy ch)).
  { destruct Hcase as [[[->|Hin]%elem_of_cons Hv]|Hb]; [right; apply (Hweight id0 ch); by left|by left|].
    right. apply (Hweight id ch). by right. }
  destruct Hstep as [?|(id' & ch' & Hb & Hle)]; [apply (IHm id); by left|].
  destruct (IHm id' ch') as (id2 & ch2 & Hr & Hle2); [by right|]. exists id2, ch2. split; [done|lia].
Qed.

Lemma all_items_victim m : all_items m <> [] -> exists id ch, victim (mg_channels m) id ch.
Proof.
  intros Hne. destruct (all_items m) as [|i l] eqn:E; [done|].
  assert (Hin : i ∈ all_items m) by (rewrite E; left). unfold all_items, channel_shares in Hin.
  apply list_elem_of_In, in_concat in Hin as (items & Hitems & Hi).
  apply in_map_iff in Hitems as ([id ch] & <- & Hch).
  apply list_elem_of_In, elem_of_map_to_list in Hch. exists id, ch. split; [done|].
  intros E'. cbn in Hi. by rewrite E' in Hi.
Qed.

(** When anything is held, the victim is a channel of the least weight among
    those that hold something. *)
Lemma lowestPriority_spec m :
  manager_wf m -> all_items m <> [] ->
  exists id ch, lowestPriorityNonEmptyChannel m = Some (id, ch) /\ victim (mg_channels m) id ch /\
    forall id' ch', victim (mg_channels m) id' ch' ->
                    pl_PriorityWeight (ch_Policy ch) <= pl_PriorityWeight (ch_Policy ch').
Proof.
  intros Hwf Hne. unfold lowestPriorityNonEmptyChannel.
  destruct (lowest_from_spec (mg_channels m) (mg_order m) None ltac:(done)) as [Hv Hm].
  destruct (all_items_victim m Hne) as (id0 & ch0 & Hv0).
  assert (Horder : forall id ch, victim (mg_channels m) id ch -> id ∈ mg_order m).
  { intros id ch [Hch _]. apply (wf_order _ Hwf). by exists ch. }
  destruct (Hm id0 ch0) as (id & ch & Hr & _); [by left; eauto|].
  exists id, ch. split_and!; [done|by apply Hv|]. intros id' ch' Hv'.
  destruct (Hm id' ch') as (id1 & ch1 & Hr1 & Hle); [by left; eauto|]. congruence.
Qed.

(** The loop over the manager ends within the total budget. *)
Lemma enforceTotalBudget_spec fuel m :
  manager_wf m -> (held m < fuel)%nat ->
  within_budgets (enforceTotalBudget fuel m) /\ manager_shrinks m (enforceTotalBudget fuel m).
Proof.
  revert m. induction fuel as [|fuel IH]; intros m Hwf Hheld; cbn [enforceTotalBudget]; [lia|].
  destruct (Z.ltb_spec 0 (mg_totalMaxBytes m)); cbn [andb].
  2: { split; [split; [done|lia]|apply manager_shrinks_refl]. }
  destruct (Z.ltb_spec (mg_totalMaxBytes m) (BudgetUsed m)).
  2: { split; [split; [done|lia]|apply manager_shrinks_refl]. }
  destruct (lowestPriority_spec m Hwf) as (id & ch & -> & [Hch Hne] & _).
  { intros E. rewrite BudgetUsed_all, E in *. cbn in *. lia. }
  destruct (evictFromChannel _ ch) as [ch' out] eqn:Ee.
  destruct (evict_shrinks _ _ _ _ Ee Hne) as [Hs Hlen].
  destruct (wf_channel _ Hwf _ _ Hch) as (Hid & Hok & Hb).
  destruct (IH (put_channel id ch' out m)) as [Hw Hms].
  - apply (put_channel_wf m id ch); [done|done| | |].
    + by rewrite (sh_policy _ _ _ Hs).
    + by apply (shrinks_ok _ ch ch' out).
    + by apply (over_budget_shrinks id ch ch' out).
  - destruct (all_items_put m id ch Hch) as (rest & Hm & Hm'). rewrite held_all in *.
    rewrite (Permutation_length (Hm' ch' out)). rewrite (Permutation_length Hm) in Hheld.
    rewrite length_app in *. lia.
  - split; [done|]. apply (manager_shrinks_trans _ (put_channel id ch' out m)); [|done].
    by apply (put_channel_shrinks m id ch).
Qed.

Lemma add_policy_wf policy m m' :
  manager_wf m -> all_items m = [] -> add_policy policy m = Ok m' ->
  manager_wf m' /\ all_items m' ≡ₚ [] /\ mg_totalMaxBytes m' = mg_totalMaxBytes m.
Proof.
  intros [Ho Hn Hc] Hempty. unfold add_policy. repeat (case_match; try done). intros [= <-].
  match goal with Hnone : mg_channels m !! _ = None |- _ => rename Hnone into Hnew; cbn in Hnew end.
  split_and!; [constructor; cbn [mg_order mg_channels]| |done].
  - intros id. rewrite elem_of_app, list_elem_of_singleton, Ho, lookup_insert_is_Some'. naive_solver.
  - apply NoDup_app. split_and!; [done| |by apply NoDup_singleton].
    intros id Hin ->%list_elem_of_singleton. apply Ho in Hin as [? ?]. congruence.
  - intros id ch [[<- <-]|[_ Hch]]%lookup_insert_Some; [|by apply Hc].
    split_and!; [done|by constructor|]. apply over_budget_None. cbn. lia.
  - unfold all_items, channel_shares. cbn [mg_channels].
    rewrite map_to_list_insert by done. cbn. fold (channel_shares m) (all_items m). by rewrite Hempty.
Qed.

Lemma NewManager_within total policies m : NewManager total policies = Ok m -> within_budgets m.
Proof.
  unfold NewManager. intros (m' & Hm' & [= <-])%bind_ok.
  assert (Hall : forall ps m0, manager_wf m0 -> all_items m0 = [] -> add_policies ps m0 = Ok m' ->
                   manager_wf m' /\ all_items m' = [] /\ mg_totalMaxBytes m' = mg_totalMaxBytes m0).
  { clear. intros ps. induction ps as [|p ps IH]; intros m0 Hwf He Hadd; cbn in Hadd; [by injection Hadd as ->|].
    apply bind_ok in Hadd as (m1 & H1 & Hadd).
    destruct (add_policy_wf _ _ _ Hwf He H1) as (Hwf1 & He1%Permutation_nil_r & Ht1).
    destruct (IH m1 Hwf1 He1 Hadd) as (? & ? & ?). split_and!; [done|done|congruence]. }
  apply Hall in Hm' as ([Ho Hn Hc] & He & Ht); [|constructor|done].
  - split; [constructor; cbn [mg_order mg_channels]|].
    + intros id. by rewrite elem_of_sort_strings.
    + by apply NoDup_sort_strings.
    + done.
    + rewrite BudgetUsed_all. unfold all_items, channel_shares in *. cbn [mg_channels mg_totalMaxBytes].
      rewrite He. cbn. lia.
  - intros id. cbn. rewrite elem_of_nil, lookup_empty. split; [done|by intros [? ?]].
  - apply NoDup_nil. done.
  - intros id ch. cbn. by rewrite lookup_empty.
Qed.

Lemma len_nonneg s : 0 <= len s.
Proof. unfold len. lia. Qed.

(** What adding an item does: it is retained with the others or evicted with a
    decision, and the budgets hold. *)
Lemma Add_step gzip id itemID payload tick m m' r :
  within_budgets m -> Add gzip id itemID payload tick m = (m', r) ->
  within_budgets m' /\
  match r with
  | Err _ => m' = m
  | Ok item =>
      it_ID item = itemID /\ it_ChannelID item = id /\
      exists evicted, mg_evictions m' = (mg_evictions m ++ evicted)%list /\
        map evicted_entry evicted ++ map entry (all_items m') ≡ₚ entry item :: map entry (all_items m)
  end.
Proof.
  intros [Hwf Htotal] Hadd. unfold Add in Hadd.
  destruct (mg_channels m !! id) as [ch|] eqn:Hch; [|by injection Hadd as <- <-].
  destruct (Compress gzip _ payload) as [compressed|]; [|by injection Hadd as <- <-].
  destruct (HashCanonical _) as [digest|]; [|by injection Hadd as <- <-].
  set (item := mkItem itemID _ _ _ _ _ _ digest _ _) in Hadd.
  set (ch0 := mkChannel (ch_Policy ch) _ (ch_pending ch ++ [item]) _) in Hadd.
  destruct (enforceChannelBudget _ ch0 []) as [ch1 out] eqn:Ee. apply pair_eq in Hadd as [<- <-].
  destruct (wf_channel _ Hwf _ _ Hch) as (Hid & Hok & _).
  assert (Hok0 : Forall (item_ok id) (ch_pending ch0)).
  { apply Forall_app. split; [done|]. constructor; [|done]. split; [done|apply len_nonneg]. }
  apply enforceChannelBudget_spec in Ee as (Hnone & out' & Hout & Hs); [|lia]. cbn in Hout. subst out'.
  destruct (enforceTotalBudget_spec (S (held (put_channel id ch1 out m))) (put_channel id ch1 out m))
    as [Hw [_ (out2 & items2 & Hev & Hp2 & He2)]]; [|lia|].
  { apply (put_channel_wf m id ch); [done|done| |by apply (shrinks_ok _ ch0 ch1 out)|done].
    by rewrite (sh_policy _ _ _ Hs). }
  split; [done|]. split_and!; [done|done|]. exists (out ++ out2)%list. split.
  { rewrite Hev. cbn [mg_evictions put_channel]. by rewrite (assoc_L (++)). }
  destruct Hs as [(items & Hp & He) _ _]. destruct (all_items_put m id ch Hch) as (rest & Hm & Hm').
  rewrite map_app, He, He2, <-(assoc_L (++)), <-map_app, <-Hp2, (Hm' ch1 out), <-map_app, (assoc_L (++)), <-Hp, Hm.
  cbn [ch_pending ch0]. rewrite <-map_cons. f_equiv. rewrite <-(assoc_L (++)). cbn [app]. symmetry. apply Permutation_middle.
Qed.

Lemma Commit_within id itemID m : within_budgets m -> within_budgets (Commit id itemID m).1.
Proof.
  intros [Hwf Htotal]. unfold Commit. destruct (mg_channels m !! id) as [ch|] eqn:Hch; [|done].
  destruct (list_find _ _) as [[i item]|] eqn:Hf; [|done]. cbn [fst].
  apply list_find_Some in Hf as (Hi & _ & _). apply delete_Permutation in Hi.
  destruct (wf_channel _ Hwf _ _ Hch) as (Hid & Hok & Hb). set (ch' := mkChannel _ _ _ _).
  assert (Hs : shrinks ch (set_pending (ch_pending ch') ch)
                 [mkEviction (it_ChannelID item) (it_ID item) (it_Sequence item) ""])
    by (constructor; [by exists [item]|done|done]).
  assert (Hok' := shrinks_ok _ _ _ _ Hs Hok). cbn in Hok'.
  assert (Hb' := over_budget_shrinks _ _ _ _ Hs Hok Hb).
  split; [by apply (put_channel_wf m id ch)|]. intros Hpos. specialize (Htotal Hpos).
  destruct (all_items_put m id ch Hch) as (rest & Hm & Hm').
  rewrite BudgetUsed_all in *. rewrite Hm' . rewrite Hm, Hi in Htotal. cbn in Htotal.
  rewrite Hi in Hok. apply Forall_cons in Hok as [[_ Hsize] _].
  cbn [ch_pending ch' mg_totalMaxBytes put_channel] in *. lia.
Qed.

(** What a client asks of the manager. *)
Inductive operation :=
  | AddOp (channelID itemID payload : string) (createdTick : Z)
  | CommitOp (channelID itemID : string).

Definition perform (gzip : string -> result string) (m : Manager) (op : operation) : Manager :=
  match op with
  | AddOp id itemID payload tick => (Add gzip id itemID payload tick m).1
  | CommitOp id itemID => (Commit id itemID m).1
  end.

Lemma perform_within gzip ops m : within_budgets m -> within_budgets (foldl (perform gzip) m ops).
Proof.
  revert m. induction ops as [|[id itemID payload tick|id itemID] ops IH]; intros m Hm; cbn; [done|..].
  - apply IH. destruct (Add _ _ _ _ _ m) as [m' r] eqn:Ha. by apply Add_step in Ha as [? _].
  - by apply IH, Commit_within.
Qed.

(** C32: the context budget is kept, and nothing is lost silently.  However the
    manager was used since it was made, no channel holds more items or bytes than
    its policy allows nor all of them more than the total; and an item added is
    either rejected, with the manager unchanged, or accepted so that the items
    held before and it are exactly those held after and those that the newly
    recorded evictions name. *)
Theorem budgets_kept gzip total policies ops m0 :
  NewManager total policies = Ok m0 ->
  let m := foldl (perform gzip) m0 ops in
  (forall id ch, mg_channels m !! id = Some ch -> over_budget ch = None) /\
  (0 < mg_totalMaxBytes m -> BudgetUsed m <= mg_totalMaxBytes m) /\
  forall id itemID payload tick m' r,
    Add gzip id itemID payload tick m = (m', r) ->
    match r with
    | Err _ => m' = m
    | Ok item =>
        it_ID item = itemID /\ it_ChannelID item = id /\
        exists evicted, mg_evictions m' = (mg_evictions m ++ evicted)%list /\
          map evicted_entry evicted ++ map entry (all_items m') ≡ₚ entry item :: map entry (all_items m)
    end.
Proof.
  intros Hnew m. assert (Hm : within_budgets m) by (by apply perform_within, (NewManager_within total policies)).
  split_and!; [|apply Hm|].
  - intros id ch Hch. by apply (wf_channel m (proj1 Hm) id).
  - intros id itemID payload tick m' r Ha. by apply (Add_step gzip id itemID payload tick m m' r Hm).
Qed.

(** ** The scheduler serves everything, in order within each channel *)

Definition s_items (s : Scheduler) : list Item := concat (map snd (map_to_list (sc_queues s))).

Record scheduler_ok (s : Scheduler) : Prop := {
  so_cursor : (sc_cursor s < length (sc_order s))%nat \/ sc_order s = [];
  so_order id : queue_of id s <> [] -> id ∈ sc_order s;
  so_deficit id : 0 <= deficit_of id s
}.

(** One item served: the head of one queue, the others as they were. *)
Definition served (s s' : Scheduler) (item : Item) : Prop :=
  exists id rest, queue_of id s = item :: rest /\ sc_order s' = sc_order s /\
                  sc_queues s' = <[id := rest]> (sc_queues s).

Lemma Scheduler_Len_items s : Scheduler_Len s = Z.of_nat (length (s_items s)).
Proof.
  unfold Scheduler_Len, s_items. induction (map_to_list (sc_queues s)) as [|[id l] ls IH]; [done|].
  cbn. rewrite IH, length_app. lia.
Qed.

Lemma s_items_queue s : s_items s <> [] -> exists id, queue_of id s <> [].
Proof.
  intros Hne. destruct (s_items s) as [|i l] eqn:E; [done|].
  assert (Hin : i ∈ s_items s) by (rewrite E; left). unfold s_items in Hin.
  apply list_elem_of_In, in_concat in Hin as (items & Hitems & Hi).
  apply in_map_iff in Hitems as ([id l'] & <- & Hl).
  apply list_elem_of_In, elem_of_map_to_list in Hl. exists id. unfold queue_of. rewrite Hl. cbn in *.
  by intros ->.
Qed.

Lemma deficit_set id id' d s :
  deficit_of id' (set_deficit id d s) = if decide (id' = id) then d else deficit_of id' s.
Proof.
  unfold deficit_of, set_deficit. cbn. case_decide as Hid; [subst; by rewrite lookup_insert_eq|].
  by rewrite lookup_insert_ne.
Qed.

Lemma queue_set id id' l s :
  queue_of id' (set_queue id l s) = if decide (id' = id) then l else queue_of id' s.
Proof.
  unfold queue_of, set_queue. cbn. case_decide as Hid; [subst; by rewrite lookup_insert_eq|].
  by rewrite lookup_insert_ne.
Qed.

(** A state that differs in its deficits and its cursor only. *)
Lemma scheduler_ok_set s s' :
  scheduler_ok s -> sc_queues s' = sc_queues s -> sc_order s' = sc_order s ->
  ((sc_cursor s' < length (sc_order s))%nat \/ sc_order s = []) ->
  (forall id, 0 <= deficit_of id s') -> scheduler_ok s'.
Proof.
  intros [_ Ho _] Hq Hor Hc Hd. constructor; [by rewrite Hor| |done].
  intros id. unfold queue_of. rewrite Hq, Hor. apply Ho.
Qed.

Lemma advance_ok s : scheduler_ok s -> scheduler_ok (advance s).
Proof.
  intros Hs. apply (scheduler_ok_set s); [done|done|done| |apply (so_deficit _ Hs)]. cbn [sc_cursor advance].
  destruct (decide (sc_order s = [])) as [?|Hne]; [by right|left].
  apply Nat.mod_upper_bound. by destruct (sc_order s).
Qed.

Lemma set_deficit_ok id d s : scheduler_ok s -> 0 <= d -> scheduler_ok (set_deficit id d s).
Proof.
  intros Hs Hd. apply (scheduler_ok_set s); [done|done|done|apply (so_cursor _ Hs)|].
  intros id'. rewrite deficit_set. case_decide; [done|apply (so_deficit _ Hs)].
Qed.

Lemma set_queue_ok id item rest s :
  scheduler_ok s -> queue_of id s = item :: rest -> scheduler_ok (set_queue id rest s).
Proof.
  intros [Hc Ho Hd] Hq. constructor; [done| |done]. intros id'. rewrite queue_set.
  case_decide as Hid; [|by apply Ho]. intros _. cbn. apply Ho. subst. by rewrite Hq.
Qed.

(** The loop finds an item when one of the queues it is about to visit has one. *)
Lemma next_pass_finds passes s k :
  scheduler_ok s -> (k < passes)%nat ->
  queue_of (nth ((sc_cursor s + k) mod length (sc_order s)) (sc_order s) ""%string) s <> [] ->
  exists s' item, next_pass passes s = (s', Some item) /\ served s s' item /\ scheduler_ok s'.
Proof.
  revert s k. induction passes as [|passes IH]; intros s k Hs Hk Hq; [lia|]. cbn [next_pass].
  assert (Hcur : (sc_cursor s < length (sc_order s))%nat).
  { destruct (so_cursor _ Hs) as [?|E]; [done|]. exfalso. rewrite E in Hq. cbn in Hq.
    apply (so_order _ Hs) in Hq. rewrite E in Hq. by apply elem_of_nil in Hq. }
  set (id := nth (sc_cursor s) (sc_order s) ""%string).
  destruct (queue_of id s) as [|item rest] eqn:Eq.
  - destruct k as [|k].
    { rewrite Nat.add_0_r, Nat.mod_small in Hq by done. fold id in Hq. congruence. }
    destruct (IH (advance (set_deficit id 0 s)) k) as (s' & item & Hn & Hserved & Hok).
    + by apply advance_ok, set_deficit_ok.
    + lia.
    + cbn [advance set_deficit sc_cursor sc_order]. rewrite Nat.Div0.add_mod_idemp_l.
      by replace (sc_cursor s + 1 + k)%nat with (sc_cursor s + S k)%nat by lia.
    + by exists s', item.
  - set (weight := if weight_of id s <=? 0 then 1 else weight_of id s).
    assert (Hw : 1 <= weight) by (unfold weight; destruct (Z.leb_spec (weight_of id s) 0); lia).
    set (s1 := if deficit_of id s <? 1 then set_deficit id (deficit_of id s + weight) s else s).
    assert (H1 : scheduler_ok s1 /\ 1 <= deficit_of id s1 /\ sc_queues s1 = sc_queues s /\ sc_order s1 = sc_order s).
    { pose proof (so_deficit _ Hs id). unfold s1. destruct (Z.ltb_spec (deficit_of id s) 1); [|by split_and!].
      split_and!; [apply set_deficit_ok; [done|lia]| |done|done].
      rewrite deficit_set, decide_True by done. lia. }
    destruct H1 as (Hs1 & Hd1 & Hq1 & Ho1). rewrite (proj2 (Z.leb_le _ _) Hd1).
    set (s2 := set_deficit id (deficit_of id s1 - 1) (set_queue id rest s1)).
    assert (Hs2 : scheduler_ok s2).
    { apply set_deficit_ok; [|lia]. apply (set_queue_ok id item); [done|]. unfold queue_of in *. by rewrite Hq1. }
    assert (Hserved : served s s2 item).
    { exists id, rest. unfold s2. cbn [sc_queues sc_order set_deficit set_queue]. by rewrite Ho1, Hq1. }
    do 2 eexists. split; [done|]. case_match; [|by split]. split; [|by apply advance_ok].
    destruct Hserved as (id' & rest' & Hid'). by exists id', rest'.
Qed.

Lemma Next_serves s :
  scheduler_ok s -> s_items s <> [] ->
  exists s' item, Next s = (s', Some item) /\ served s s' item /\ scheduler_ok s'.
Proof.
  intros Hs Hne. destruct (s_items_queue s Hne) as [id Hid].
  pose proof (so_order _ Hs id Hid) as Hin. unfold Next.
  destruct (sc_order s) as [|o os] eqn:Eo; [by apply elem_of_nil in Hin|]. rewrite <-Eo in *.
  rewrite Scheduler_Len_items. rewrite (proj2 (Z.eqb_neq _ _))
    by (destruct (s_items s); [done|cbn; lia]).
  apply list_elem_of_lookup in Hin as [i Hi]. pose proof (lookup_lt_Some _ _ _ Hi) as Hlt.
  destruct (so_cursor _ Hs) as [Hcur|?]; [|congruence].
  (* the distance from the cursor to the channel *)
  set (n := length (sc_order s)) in *.
  apply (next_pass_finds _ s ((i + (n - sc_cursor s)) mod n)); [done| |].
  - pose proof (Nat.mod_upper_bound (i + (n - sc_cursor s)) n ltac:(lia)). lia.
  - rewrite Nat.Div0.add_mod_idemp_r.
    replace (sc_cursor s + (i + (n - sc_cursor s)))%nat with (i + 1 * n)%nat by lia.
    rewrite Nat.Div0.mod_add, Nat.mod_small by done. by rewrite (nth_lookup_Some _ _ _ _ Hi).
Qed.

(** The loop of a client that takes items until there are none. *)
Fixpoint serve_all (fuel : nat) (s : Scheduler) : list Item :=
  match fuel with
  | O => []
  | S fuel =>
      if 0 <? Scheduler_Len s then
        match Next s with
        | (s, Some item) => item :: serve_all fuel s
        | (_, None) => []
        end
      else []
  end.

Lemma served_items s s' item : served s s' item -> s_items s ≡ₚ item :: s_items s'.
Proof.
  intros (id & rest & Hq & _ & Hqs). unfold s_items. rewrite Hqs.
  assert (Hl : sc_queues s !! id = Some (item :: rest)).
  { unfold queue_of in Hq. destruct (sc_queues s !! id); cbn in Hq; congruence. }
  rewrite <-(map_to_list_delete _ _ _ Hl), <-insert_delete_eq, map_to_list_insert by apply lookup_delete_eq.
  done.
Qed.

(** Queues that hold only their own items. *)
Definition own_items (s : Scheduler) : Prop := forall id, Forall (fun i => it_ChannelID i = id) (queue_of id s).

Lemma served_own s s' item : served s s' item -> own_items s -> own_items s'.
Proof.
  intros (id & rest & Hq & _ & Hqs) Hown id'. unfold queue_of. rewrite Hqs.
  destruct (decide (id' = id)) as [->|Hne]; [rewrite lookup_insert_eq|rewrite lookup_insert_ne by done; apply Hown].
  cbn. specialize (Hown id). rewrite Hq in Hown. by apply Forall_cons in Hown as [_ ?].
Qed.

(** The items of one channel, as a client sees them. *)
Definition of_channel (id : string) (items : list Item) : list Item :=
  filter (fun i => it_ChannelID i = id) items.

Lemma queue_of_none id s : s_items s = [] -> queue_of id s = [].
Proof.
  intros E. destruct (queue_of id s) as [|i l] eqn:Eq; [done|]. exfalso.
  assert (Hin : i ∈ s_items s); [|by rewrite E in Hin; apply elem_of_nil in Hin].
  apply list_elem_of_In, in_concat. exists (i :: l). split; [|by left].
  apply in_map_iff. exists (id, i :: l). split; [done|]. apply list_elem_of_In, elem_of_map_to_list.
  unfold queue_of in Eq. destruct (sc_queues s !! id); cbn in Eq; congruence.
Qed.

Lemma serve_all_spec fuel s :
  scheduler_ok s -> own_items s -> (length (s_items s) <= fuel)%nat ->
  serve_all fuel s ≡ₚ s_items s /\ forall id, of_channel id (serve_all fuel s) = queue_of id s.
Proof.
  revert s. induction fuel as [|fuel IH]; intros s Hs Hown Hlen.
  all: destruct (decide (s_items s = [])) as [E|Hne].
  - cbn. rewrite E. by split; [|intros id; rewrite queue_of_none].
  - destruct (s_items s); [done|cbn in Hlen; lia].
  - cbn. rewrite Scheduler_Len_items, E. cbn. by split; [|intros id; rewrite queue_of_none].
  - cbn [serve_all]. rewrite Scheduler_Len_items.
    rewrite (proj2 (Z.ltb_lt _ _)) by (destruct (s_items s); [done|cbn; lia]).
    destruct (Next_serves s Hs Hne) as (s' & item & -> & Hserved & Hs').
    assert (Hp := served_items _ _ _ Hserved). assert (Hl := Permutation_length Hp). cbn in Hl.
    destruct (IH s' Hs' (served_own _ _ _ Hserved Hown) ltac:(lia)) as [Hp' Hq'].
    split; [by rewrite Hp, Hp'|]. intros id. unfold of_channel. rewrite filter_cons.
    fold (of_channel id (serve_all fuel s')). rewrite Hq'.
    destruct Hserved as (id0 & rest & Hq & _ & Hqs). assert (Hid0 : it_ChannelID item = id0).
    { specialize (Hown id0). rewrite Hq in Hown. by apply Forall_cons in Hown as [? _]. }
    unfold queue_of. rewrite Hqs. case_decide as Hid.
    + rewrite <-Hid, Hid0, lookup_insert_eq. cbn. by rewrite <-Hq.
    + by rewrite lookup_insert_ne by congruence.
Qed.

(** *** A scheduler just made *)

Lemma add_items_queue q items id :
  default [] (foldl add_item q items !! id) = default [] (q !! id) ++ of_channel id items.
Proof.
  revert q. induction items as [|item items IH]; intros q; cbn [foldl]; [by rewrite app_nil_r|].
  rewrite IH. unfold add_item at 1, of_channel. rewrite filter_cons. case_decide as Hid.
  - rewrite <-Hid, lookup_insert_eq. cbn. by rewrite <-(assoc_L (++)).
  - by rewrite lookup_insert_ne.
Qed.

Lemma add_items_perm q items :
  concat (map snd (map_to_list (foldl add_item q items))) ≡ₚ concat (map snd (map_to_list q)) ++ items.
Proof.
  revert q. induction items as [|item items IH]; intros q; cbn [foldl]; [by rewrite app_nil_r|].
  rewrite IH. unfold add_item at 1. rewrite <-insert_delete_eq, map_to_list_insert by apply lookup_delete_eq.
  cbn.
  destruct (q !! it_ChannelID item) as [l|] eqn:Eq; cbn.
  - rewrite <-(map_to_list_delete q _ _ Eq). cbn. rewrite <-!(assoc_L (++)). cbn. f_equiv. apply Permutation_middle.
  - rewrite delete_id by done. apply Permutation_middle.
Qed.

Lemma add_weights_lookup w policies id :
  is_Some (foldl add_weight w policies !! id) <-> is_Some (w !! id) \/ id ∈ map pl_ChannelID policies.
Proof.
  revert w. induction policies as [|p policies IH]; intros w; cbn [foldl map].
  - rewrite elem_of_nil. tauto.
  - rewrite IH. unfold add_weight. rewrite lookup_insert_is_Some', elem_of_cons. naive_solver.
Qed.

Lemma NewScheduler_queue policies items id :
  queue_of id (NewScheduler policies items) = merge_sort sequence_le (of_channel id items).
Proof.
  unfold queue_of, NewScheduler. cbn [sc_queues]. rewrite lookup_fmap.
  pose proof (add_items_queue ∅ items id) as Hq. rewrite lookup_empty in Hq. cbn in Hq. rewrite <-Hq.
  by destruct (foldl add_item ∅ items !! id).
Qed.

Lemma NewScheduler_items policies items : s_items (NewScheduler policies items) ≡ₚ items.
Proof.
  pose proof (add_items_perm ∅ items) as Hp. rewrite map_to_list_empty in Hp. cbn in Hp. rewrite <-Hp at 2. clear Hp.
  unfold s_items, NewScheduler. cbn [sc_queues].
  rewrite map_to_list_fmap. induction (map_to_list _) as [|[id l] ls IH]; cbn; [done|].
  rewrite IH. f_equiv. apply merge_sort_Permutation.
Qed.

Lemma NewScheduler_ok policies items :
  scheduler_ok (NewScheduler policies items) /\ own_items (NewScheduler policies items).
Proof.
  split; [constructor|].
  - cbn. destruct (sort_strings _); [by right|left; cbn; lia].
  - intros id. rewrite NewScheduler_queue. intros Hq. cbn [sc_order NewScheduler].
    rewrite elem_of_sort_strings, elem_of_app.
    destruct (foldl add_weight ∅ policies !! id) as [w|] eqn:Ew.
    + left. assert (Hw : is_Some (foldl add_weight ∅ policies !! id)) by (by exists w).
      apply add_weights_lookup in Hw as [[? ?]|?]; [by rewrite lookup_empty in *|done].
    + right. apply list_elem_of_In, filter_In. rewrite Ew. split; [|done].
      apply list_elem_of_In, elem_of_keys. pose proof (add_items_queue ∅ items id) as Hi.
      destruct (foldl add_item ∅ items !! id); [by eexists|]. rewrite lookup_empty in Hi. cbn in Hi.
      by rewrite <-Hi in Hq.
  - intros id. unfold deficit_of. cbn. by rewrite lookup_empty.
  - intros id. rewrite NewScheduler_queue. rewrite merge_sort_Permutation.
    apply Forall_forall. intros i Hi. by apply list_elem_of_filter in Hi as [? _].
Qed.

(** The scheduler serves everything it was given, and each channel in order:
    taking items until none is left ends with all of them served, those of one
    channel by rising sequence number, whatever the policies and weights. *)
Theorem scheduler_serves_all policies items :
  let out := serve_all (length items) (NewScheduler policies items) in
  out ≡ₚ items /\ forall id, of_channel id out = merge_sort sequence_le (of_channel id items).
Proof.
  destruct (NewScheduler_ok policies items) as [Hok Hown].
  destruct (serve_all_spec (length items) _ Hok Hown) as [Hp Hq].
  { by rewrite (Permutation_length (NewScheduler_items policies items)). }
  cbv zeta. split; [by rewrite Hp, NewScheduler_items|]. intros id. by rewrite Hq, NewScheduler_queue.
Qed.

(** *** A channel's turn *)

(** The next [n] answers of the scheduler. *)
Fixpoint serve (n : nat) (s : Scheduler) : Scheduler * list (option Item) :=
  match n with
  | O => (s, [])
  | S n => let '(s, r) := Next s in let '(s, rs) := serve n s in (s, r :: rs)
  end.

Definition turn_weight (id : string) (s : Scheduler) : Z :=
  if weight_of id s <=? 0 then 1 else weight_of id s.

(** What a turn may still take: the deficit left, or a fresh weight. *)
Definition credit (id : string) (s : Scheduler) : Z :=
  if deficit_of id s <? 1 then deficit_of id s + turn_weight id s else deficit_of id s.

Lemma Next_at s id item rest :
  (sc_cursor s < length (sc_order s))%nat -> nth (sc_cursor s) (sc_order s) ""%string = id ->
  queue_of id s = item :: rest -> 1 <= credit id s ->
  exists s', Next s = (s', Some item) /\ queue_of id s' = rest /\ deficit_of id s' = credit id s - 1 /\
    sc_order s' = sc_order s /\ (forall id', id' <> id -> queue_of id' s' = queue_of id' s) /\
    sc_cursor s' = if credit id s - 1 =? 0 then ((sc_cursor s + 1) mod length (sc_order s))%nat else sc_cursor s.
Proof.
  intros Hcur Hid Hq Hc. unfold Next. destruct (sc_order s) as [|o os] eqn:Eo; [cbn in Hcur; lia|].
  rewrite <-Eo in *. rewrite Scheduler_Len_items. rewrite (proj2 (Z.eqb_neq _ _)).
  2: { assert (s_items s <> []); [|by destruct (s_items s)].
       intros E. rewrite (queue_of_none id s E) in Hq. done. }
  replace (length (sc_order s) * 2)%nat with (S (length (sc_order s) * 2 - 1)) by lia.
  cbn [next_pass]. rewrite Hid, Hq. fold (turn_weight id s).
  set (s1 := if deficit_of id s <? 1 then _ else s).
  assert (H1 : deficit_of id s1 = credit id s /\ sc_queues s1 = sc_queues s /\ sc_order s1 = sc_order s /\
               sc_cursor s1 = sc_cursor s).
  { unfold s1, credit. case_match; [|done]. split_and!; try done. by rewrite deficit_set, decide_True. }
  destruct H1 as (Hd1 & Hq1 & Ho1 & Hc1). rewrite Hd1, (proj2 (Z.leb_le _ _) Hc).
  rewrite deficit_set, decide_True by done. eexists. split; [done|].
  split_and!; case_match; cbn [sc_cursor sc_order advance set_deficit set_queue]; try (by rewrite ?Ho1, ?Hc1).
  all: unfold queue_of, deficit_of; cbn; rewrite ?lookup_insert_eq; try done.
  all: intros id' Hne; by rewrite lookup_insert_ne, Hq1.
Qed.

(** the round robin is weighted.  When a channel's turn begins, and it holds
    at least as many items as its weight (one, for a weight that is not
    positive), the scheduler serves exactly that many of them, the oldest first
    and no other's, and passes on to the next channel with no deficit left. *)
Theorem scheduler_turn s id w :
  (sc_cursor s < length (sc_order s))%nat ->
  nth (sc_cursor s) (sc_order s) ""%string = id -> deficit_of id s = 0 ->
  turn_weight id s = Z.of_nat w -> (w <= length (queue_of id s))%nat ->
  let '(s', out) := serve w s in
  out = map Some (take w (queue_of id s)) /\ queue_of id s' = drop w (queue_of id s) /\
  (forall id', id' <> id -> queue_of id' s' = queue_of id' s) /\
  sc_cursor s' = ((sc_cursor s + 1) mod length (sc_order s))%nat /\ deficit_of id s' = 0.
Proof.
  intros Hcur Hid Hd Hw Hlen.
  assert (Hpos : (1 <= w)%nat) by (unfold turn_weight in Hw; destruct (Z.leb_spec (weight_of id s) 0); lia).
  assert (Hcredit : credit id s = Z.of_nat w) by (unfold credit; rewrite Hd; cbn; lia). clear Hd Hw.
  revert s Hcur Hid Hlen Hcredit. induction w as [|w IH]; intros s Hcur Hid Hlen Hcredit; [lia|].
  destruct (queue_of id s) as [|item rest] eqn:Eq; [cbn in Hlen; lia|].
  destruct (Next_at s id item rest) as (s1 & Hn & Hq1 & Hd1 & Ho1 & Hother & Hc1); [done|done|done|lia|].
  cbn [serve]. rewrite Hn. destruct (decide (w = O)) as [->|Hw].
  - cbn. rewrite Hcredit in Hc1, Hd1. cbn in Hc1, Hd1. split_and!; [by rewrite take_0|by rewrite drop_0|done|done|lia].
  - rewrite (proj2 (Z.eqb_neq _ _)) in Hc1 by lia.
    assert (Hcredit1 : credit id s1 = Z.of_nat w).
    { unfold credit. rewrite (proj2 (Z.ltb_ge _ _)); lia. }
    specialize (IH ltac:(lia) s1). rewrite Ho1, Hc1, Hq1 in IH. cbn in Hlen.
    specialize (IH Hcur Hid ltac:(lia) Hcredit1). destruct (serve w s1) as [s2 out].
    destruct IH as (-> & Hq2 & Hother2 & Hc2 & Hd2). split_and!; [done|done| |done|done].
    intros id' Hne. by rewrite Hother2, Hother.
Qed.

(** ** A manager of two channels *)

Definition demo_policies : list Policy :=
  [mkPolicy TypeRetrieval TypeRetrieval 1 2 0 "" ""; mkPolicy TypeExecution TypeExecution 2 0 0 "" ""].

Definition demo_gzip (payload : string) : result string := Ok ("gz:" ++ payload)%string.

Definition demo_manager : Manager :=
  match NewManager 12 demo_policies with Ok m => m | Err _ => mkManager ∅ [] 0 [] end.

Definition demo_operations : list operation :=
  [AddOp TypeRetrieval "r1" "notes" 1; AddOp TypeExecution "e1" "run" 2; AddOp TypeExecution "e2" "st" 3].

Lemma budgets_kept_witness :
  let m := foldl (perform demo_gzip) demo_manager demo_operations in
  (forall id ch, mg_channels m !! id = Some ch -> over_budget ch = None) /\
  (0 < mg_totalMaxBytes m -> BudgetUsed m <= mg_totalMaxBytes m) /\
  forall id itemID payload tick m' r,
    Add demo_gzip id itemID payload tick m = (m', r) ->
    match r with
    | Err _ => m' = m
    | Ok item =>
        it_ID item = itemID /\ it_ChannelID item = id /\
        exists evicted, mg_evictions m' = (mg_evictions m ++ evicted)%list /\
          map evicted_entry evicted ++ map entry (all_items m') ≡ₚ entry item :: map entry (all_items m)
    end.
Proof. apply (budgets_kept demo_gzip 12 demo_policies demo_operations demo_manager). reflexivity. Defined.

(** The item that takes the total over its budget evicts from the lighter channel. *)
Example demo_eviction :
  let m := foldl (perform demo_gzip) demo_manager demo_operations in
  BudgetUsed m = 10 /\
  mg_evictions (Add demo_gzip TypeExecution "e3" "now" 4 m).1
  = [mkEviction TypeRetrieval "r1" 1 "total context budget"].
Proof. split; vm_compute; reflexivity. Qed.

Definition demo_item (channel id : string) (sequence : Z) : Item :=
  mkItem id channel channel 0 sequence id (len id) "" CompressionNoop 0.

Definition demo_scheduler : Scheduler :=
  NewScheduler demo_policies
    [demo_item TypeExecution "e1" 1; demo_item TypeRetrieval "r1" 1; demo_item TypeExecution "e2" 2;
     demo_item TypeRetrieval "r2" 2; demo_item TypeExecution "e3" 3].

Lemma scheduler_turn_witness :
  let '(s', out) := serve 2 demo_scheduler in
  out = map Some (take 2 (queue_of TypeExecution demo_scheduler)) /\
  queue_of TypeExecution s' = drop 2 (queue_of TypeExecution demo_scheduler) /\
  (forall id', id' <> TypeExecution -> queue_of id' s' = queue_of id' demo_scheduler) /\
  sc_cursor s' = ((sc_cursor demo_scheduler + 1) mod length (sc_order demo_scheduler))%nat /\
  deficit_of TypeExecution s' = 0.
Proof.
  apply (scheduler_turn demo_scheduler TypeExecution 2);
    [vm_compute; lia|reflexivity|reflexivity|reflexivity|vm_compute; lia].
Defined.

Example demo_served : map it_ID (serve_all 5 demo_scheduler) = ["e1"; "e2"; "r1"; "e3"; "r2"]%string.
Proof. vm_compute. reflexivity. Qed.
