(* ===== verification/AiContext.v ===== *)
(** * Context frames: bundle/ai_context

    A client of the channel manager: it assembles what the scheduler serves into a
    frame within a size, in a deterministic order, and keeps the working memory in
    a snapshot of the store. *)

From S2P Require Import Prelude Sha256 Json JsonParse JsonDecode Identity State Protocol Store Channel.
Local Open Scope Z_scope.

Definition WorkingMemorySnapshotID : string := "ai-context/working-memory".

Record ContextItem := mkContextItem {
  ci_ID : string;
  ci_ChannelType : string;
  ci_Priority : Z;
  ci_SizeEstimate : Z;
  ci_Sequence : Z;
  ci_Digest : string;
  ci_Content : string;
  ci_CreatedTick : Z
}.

Record Frame := mkFrame { fr_Items : list ContextItem; fr_Digest : string }.

Definition ContextItem_json (i : ContextItem) : json :=
  JObj [("id", JStr (ci_ID i)); ("channel_type", JStr (ci_ChannelType i));
        ("priority", JInt (ci_Priority i)); ("size_estimate", JInt (ci_SizeEstimate i));
        ("sequence", JInt (ci_Sequence i)); ("digest", JStr (ci_Digest i));
        ("content", JStr (ci_Content i)); ("created_tick", JInt (ci_CreatedTick i))].

Definition ContextItem_of (fs : list (string * json)) : result ContextItem :=
  id ← get_string "id" fs;
  channel_type ← get_string "channel_type" fs;
  priority ← get_int "priority" fs;
  size ← get_int "size_estimate" fs;
  sequence ← get_uint64 "sequence" fs;
  digest ← get_string "digest" fs;
  content ← get_string "content" fs;
  tick ← get_uint64 "created_tick" fs;
  Ok (mkContextItem id channel_type priority size sequence digest content tick).

Definition zero_context_item : ContextItem := mkContextItem "" "" 0 0 0 "" "" 0.

Definition ChatMessage : Type := string * string.

Record ChatCompletionRequest := mkChatRequest { cq_Model : string; cq_Messages : list ChatMessage }.

Record ChatChoice := mkChatChoice { cc_Index : Z; cc_Message : ChatMessage; cc_FinishReason : string }.

Record ChatCompletionResponse := mkChatResponse {
  cp_ID : string;
  cp_Object : string;
  cp_Choices : list ChatChoice
}.

Definition ChatMessage_json (m : ChatMessage) : json := JObj [("role", JStr m.1); ("content", JStr m.2)].

Definition ChatRequest_json (r : ChatCompletionRequest) : json :=
  JObj [("model", JStr (cq_Model r)); ("messages", list_json ChatMessage_json (cq_Messages r))].

(** [MockProvider.Complete]. *)
Definition Complete (req : ChatCompletionRequest) : result ChatCompletionResponse :=
  digest ← HashCanonical (ChatRequest_json req);
  Ok (mkChatResponse ("mockcmpl-" ++ prefix 16 digest) "chat.completion"
        [mkChatChoice 0 ("assistant", "deterministic mock response " ++ prefix 12 digest)%string "stop"]).

(** The comparison of [AssembleFrame]. *)
Definition frame_le (a b : ContextItem) : Prop :=
  if negb (ci_Priority a =? ci_Priority b) then ci_Priority b <= ci_Priority a
  else if negb (String.eqb (ci_ChannelType a) (ci_ChannelType b)) then
    String.le (ci_ChannelType a) (ci_ChannelType b)
  else ci_Sequence a <= ci_Sequence b.

#[export] Instance frame_le_dec : RelDecision frame_le.
Proof. intros a b. unfold frame_le. repeat case_match; apply _. Defined.

Definition ci_sequence_le (a b : ContextItem) : Prop := ci_Sequence a <= ci_Sequence b.

#[export] Instance ci_sequence_le_dec : RelDecision ci_sequence_le.
Proof. intros a b. unfold ci_sequence_le. apply _. Defined.

Section context.
Context (gzip gunzip : string -> result string).

(** The manager is the channel manager it wraps. *)
Definition NewManager (totalBudgetBytes : Z) : result Manager :=
  let policy id weight :=
    mkPolicy id id weight 16 totalBudgetBytes CompressionNoop EvictOldestFirst in
  Channel.NewManager totalBudgetBytes
    [policy TypeConversation 40; policy TypeWorkingMemory 60; policy TypeExecution 100;
     policy TypeRetrieval 20].

Definition contextItemFromChannelItem (item : Item) : result ContextItem :=
  payload ← Decompress gunzip (it_Compression item) (it_Payload item);
  Ok (mkContextItem (it_ID item) (it_ChannelType item) (it_Priority item) (len payload)
        (it_Sequence item) (it_Digest item) payload (it_CreatedTick item)).

Definition AddItem (channelType id content : string) (tick : Z) (m : Manager)
    : Manager * result ContextItem :=
  let '(m, added) := Add gzip channelType id content tick m in
  (m, match added with Err e => Err e | Ok item => contextItemFromChannelItem item end).

(** The loop of [AssembleFrame]: an item that does not fit is passed over. *)
Fixpoint assemble (fuel : nat) (maxBytes : Z) (s : Scheduler) (used : Z) (items : list ContextItem)
    : result (list ContextItem) :=
  match fuel with
  | O => Ok items
  | S fuel =>
      if 0 <? Scheduler_Len s then
        match Next s with
        | (_, None) => Ok items
        | (s, Some item) =>
            contextItem ← contextItemFromChannelItem item;
            if (0 <? maxBytes) && (maxBytes <? used + ci_SizeEstimate contextItem) then
              assemble fuel maxBytes s used items
            else assemble fuel maxBytes s (used + ci_SizeEstimate contextItem) (items ++ [contextItem])
        end
      else Ok items
  end.

(** One turn per item the scheduler holds. *)
Definition AssembleFrame (maxBytes : Z) (m : Manager) : result Frame :=
  let s := Manager_Scheduler m in
  items ← assemble (Z.to_nat (Scheduler_Len s)) maxBytes s 0 [];
  let items := stable_sort frame_le items in
  digest ← HashCanonical (list_json ContextItem_json items);
  Ok (mkFrame items digest).

Definition Digest (m : Manager) : result string :=
  frame ← AssembleFrame 0 m; Ok (fr_Digest frame).

Definition RecordMockResponse (responseText : string) (tick : Z) (m : Manager)
    : Manager * result ContextItem :=
  AddItem TypeConversation ("mock-response-" ++ itoa tick) responseText tick m.

Definition BuildMockRequest (model : string) (m : Manager) : result ChatCompletionRequest :=
  frame ← AssembleFrame 0 m;
  Ok (mkChatRequest model
        (map (fun item => ((if String.eqb (ci_ChannelType item) TypeExecution then "tool" else "user")%string,
                           ci_Content item)) (fr_Items frame))).

(** *** The working memory in the store *)

Context {St : Type} `{ValidatorStore St}.

Definition SaveWorkingMemory (store : St) (m : Manager) : St * result unit :=
  match AssembleFrame 0 m with
  | Err e => (store, Err e)
  | Ok frame =>
      let memory := List.filter (fun item => String.eqb (ci_ChannelType item) TypeWorkingMemory)
                      (fr_Items frame) in
      let data := Marshal (list_json ContextItem_json memory) in
      SaveSnapshot store (mkSnapshotRecord WorkingMemorySnapshotID 0 (HashBytes data) data 0)
  end.

Fixpoint add_items (items : list ContextItem) (m : Manager) : result Manager :=
  match items with
  | [] => Ok m
  | item :: items =>
      let '(m, added) := AddItem TypeWorkingMemory (ci_ID item) (ci_Content item) (ci_CreatedTick item) m in
      match added with Err e => Err e | Ok _ => add_items items m end
  end.

(** The last snapshot of the working memory, if there is one. *)
Definition latest_snapshot (id : string) (snapshots : list SnapshotRecord) : option SnapshotRecord :=
  List.find (fun s => String.eqb (sr_ID s) id) (rev snapshots).

Definition LoadWorkingMemory (store : St) (totalBudgetBytes : Z) : result (Manager * bool) :=
  snapshots ← ListSnapshots store;
  manager ← NewManager totalBudgetBytes;
  match latest_snapshot WorkingMemorySnapshotID snapshots with
  | None => Ok (manager, false)
  | Some snapshot =>
      v ← parse (sr_SnapshotJSON snapshot);
      items ← dec_list zero_context_item (dec_struct ContextItem_of) v;
      manager ← add_items (stable_sort ci_sequence_le items) manager;
      Ok (manager, true)
  end.
End context.

(** ** What a frame holds *)

Section frames.
Context (gunzip : string -> result string).

Definition converted (item : Item) : option ContextItem :=
  match contextItemFromChannelItem gunzip item with Ok c => Some c | Err _ => None end.

Fixpoint frame_size (items : list ContextItem) : Z :=
  match items with [] => 0 | i :: items => ci_SizeEstimate i + frame_size items end.

(** The choice made of the items in the order they are served. *)
Fixpoint choose (maxBytes used : Z) (served : list ContextItem) : list ContextItem :=
  match served with
  | [] => []
  | c :: served =>
      if (0 <? maxBytes) && (maxBytes <? used + ci_SizeEstimate c) then choose maxBytes used served
      else c :: choose maxBytes (used + ci_SizeEstimate c) served
  end.

Lemma assemble_choose fuel maxBytes s used items out :
  assemble gunzip fuel maxBytes s used items = Ok out ->
  (forall i, i ∈ serve_all fuel s -> is_Some (converted i)) /\
  out = (items ++ choose maxBytes used (omap converted (serve_all fuel s)))%list.
Proof.
  revert s used items. induction fuel as [|fuel IH]; intros s used items; cbn [assemble serve_all].
  { intros [= <-]. split; [by intros i ?%elem_of_nil|by rewrite app_nil_r]. }
  case_match. 2: { intros [= <-]. split; [by intros i ?%elem_of_nil|by rewrite app_nil_r]. }
  destruct (Next s) as [s' [item|]].
  2: { intros [= <-]. split; [by intros i ?%elem_of_nil|by rewrite app_nil_r]. }
  destruct (contextItemFromChannelItem gunzip item) as [c|] eqn:Ec; [|done]. cbn [mbind result_bind].
  assert (Hc : converted item = Some c) by (unfold converted; by rewrite Ec).
  cbn [omap list_omap]. rewrite Hc. cbn [choose].
  case_match; intros [Hall ->]%IH; (split; [by intros i [->|Hi]%elem_of_cons; [rewrite Hc|apply Hall]|]).
  - done.
  - by rewrite <-(assoc_L (++)).
Qed.

Lemma choose_submseteq maxBytes used served : choose maxBytes used served ⊆+ served.
Proof.
  revert used. induction served as [|c served IH]; intros used; cbn; [done|].
  case_match; [by apply submseteq_cons|by apply submseteq_skip].
Qed.

Lemma choose_all maxBytes used served : maxBytes <= 0 -> choose maxBytes used served = served.
Proof.
  intros Hm. revert used. induction served as [|c served IH]; intros used; cbn; [done|].
  rewrite (proj2 (Z.ltb_ge 0 maxBytes)) by lia. cbn. by rewrite IH.
Qed.

Lemma choose_size maxBytes used served :
  0 < maxBytes -> used <= maxBytes -> used + frame_size (choose maxBytes used served) <= maxBytes.
Proof.
  intros Hm. revert used. induction served as [|c served IH]; intros used Hused; cbn; [lia|].
  rewrite (proj2 (Z.ltb_lt 0 maxBytes)) by done. cbn [andb].
  destruct (Z.ltb_spec maxBytes (used + ci_SizeEstimate c)); [by apply IH|].
  cbn. specialize (IH (used + ci_SizeEstimate c) ltac:(lia)). lia.
Qed.

(** What is left out did not fit then, and would not fit now. *)
Lemma choose_left_out maxBytes used served c :
  Forall (fun i => 0 <= ci_SizeEstimate i) served -> c ∈ served -> c ∉ choose maxBytes used served ->
  maxBytes < used + frame_size (choose maxBytes used served) + ci_SizeEstimate c.
Proof.
  revert used. induction served as [|i served IH]; intros used Hsize Hin Hout; [by apply elem_of_nil in Hin|].
  apply Forall_cons in Hsize as [Hi Hsize]. cbn [choose] in *.
  destruct (Z.ltb_spec 0 maxBytes); cbn [andb] in *;
    [destruct (Z.ltb_spec maxBytes (used + ci_SizeEstimate i))|].
  - apply elem_of_cons in Hin as [->|Hin]; [|by apply IH].
    assert (0 <= frame_size (choose maxBytes used served)); [|lia].
    assert (Hc : Forall (fun i => 0 <= ci_SizeEstimate i) (choose maxBytes used served)).
    { apply Forall_forall. intros x Hx. rewrite Forall_forall in Hsize. apply Hsize.
      by eapply elem_of_submseteq; [|apply choose_submseteq]. }
    clear -Hc. induction Hc as [|x l Hx _ IHl]; cbn; lia.
  - apply not_elem_of_cons in Hout as [Hne Hout]. apply elem_of_cons in Hin as [->|Hin]; [done|].
    specialize (IH _ Hsize Hin Hout). cbn. lia.
  - apply not_elem_of_cons in Hout as [Hne Hout]. apply elem_of_cons in Hin as [->|Hin]; [done|].
    specialize (IH _ Hsize Hin Hout). cbn. lia.
Qed.

Lemma frame_size_perm l1 l2 : l1 ≡ₚ l2 -> frame_size l1 = frame_size l2.
Proof using Type. intros Hp. induction Hp; cbn; lia. Qed.

Lemma converted_size item c : converted item = Some c -> 0 <= ci_SizeEstimate c.
Proof using Type.
  unfold converted, contextItemFromChannelItem. destruct (Decompress _ _ _); [|done].
  intros [= <-]. apply len_nonneg.
Qed.

#[local] Instance frame_le_total : Total frame_le.
Proof using Type.
  intros a b. unfold frame_le.
  rewrite (Z.eqb_sym (ci_Priority b)), (String.eqb_sym (ci_ChannelType b)).
  destruct (Z.eqb_spec (ci_Priority a) (ci_Priority b)); cbn [negb]; [|lia].
  destruct (String.eqb_spec (ci_ChannelType a) (ci_ChannelType b)); cbn [negb]; [lia|].
  apply (total String.le).
Qed.

(** What a frame holds.  Assembling takes the items the manager holds, fails
    if one of them does not decompress, and otherwise yields a list in the frame's
    order (priority, channel, sequence) of items among them: all of them without
    a limit; and under a limit, items whose sizes add up to no more than it,
    leaving out only items that would not fit beside them. *)
Theorem AssembleFrame_spec maxBytes m frame :
  AssembleFrame gunzip maxBytes m = Ok frame ->
  let all := omap converted (SnapshotItems m) in
  (forall i, i ∈ SnapshotItems m -> is_Some (converted i)) /\
  Sorted frame_le (fr_Items frame) /\ fr_Items frame ⊆+ all /\
  (maxBytes <= 0 -> fr_Items frame ≡ₚ all) /\
  (0 < maxBytes -> frame_size (fr_Items frame) <= maxBytes) /\
  forall c, c ∈ all -> c ∉ fr_Items frame -> maxBytes < frame_size (fr_Items frame) + ci_SizeEstimate c.
Proof.
  unfold AssembleFrame. intros (items & Ha & (digest & _ & [= <-])%bind_ok)%bind_ok. cbn [fr_Items].
  apply assemble_choose in Ha as [Hall ->]. cbn [app].
  destruct (NewScheduler_ok (Policies m) (SnapshotItems m)) as [Hok Hown].
  destruct (serve_all_spec (Z.to_nat (Scheduler_Len (Manager_Scheduler m))) _ Hok Hown) as [Hp _].
  { rewrite <-(Nat2Z.id (length _)), <-Scheduler_Len_items. done. }
  rewrite NewScheduler_items in Hp. fold (Manager_Scheduler m) in Hp.
  set (served := serve_all _ (Manager_Scheduler m)) in *.
  set (chosen := choose maxBytes 0 (omap converted served)).
  pose proof (stable_sort_perm frame_le chosen) as Hsort.
  assert (Homap : omap converted served ≡ₚ omap converted (SnapshotItems m)) by by rewrite Hp.
  cbv zeta. rewrite (frame_size_perm _ _ Hsort). split_and!.
  - intros i. rewrite <-Hp. apply Hall.
  - apply stable_sort_sorted. apply _.
  - rewrite Hsort, <-Homap. apply choose_submseteq.
  - intros Hm. rewrite Hsort. unfold chosen. by rewrite choose_all.
  - intros Hm. apply (choose_size maxBytes 0); lia.
  - intros c Hc Hout. rewrite <-Homap in Hc. rewrite Hsort in Hout.
    apply (choose_left_out maxBytes 0); [|done|done].
    apply Forall_forall. intros x (i & _ & Hi)%list_elem_of_omap. by apply (converted_size i).
Qed.
End frames.

(** ** A frame under a limit *)

Definition demo_context : Manager :=
  match NewManager 100 with
  | Ok m =>
      let m := (AddItem demo_gzip demo_gzip TypeConversation "c1" "summarize the state" 1 m).1 in
      let m := (AddItem demo_gzip demo_gzip TypeWorkingMemory "w1" "quorum is 5" 2 m).1 in
      (AddItem demo_gzip demo_gzip TypeExecution "e1" "run" 3 m).1
  | Err _ => mkManager ∅ [] 0 []
  end.

Definition demo_frame : Frame :=
  match AssembleFrame demo_gzip 15 demo_context with Ok f => f | Err _ => mkFrame [] "" end.

Lemma AssembleFrame_spec_witness :
  let all := omap (converted demo_gzip) (SnapshotItems demo_context) in
  (forall i, i ∈ SnapshotItems demo_context -> is_Some (converted demo_gzip i)) /\
  Sorted frame_le (fr_Items demo_frame) /\ fr_Items demo_frame ⊆+ all /\
  (15 <= 0 -> fr_Items demo_frame ≡ₚ all) /\ (0 < 15 -> frame_size (fr_Items demo_frame) <= 15) /\
  forall c, c ∈ all -> c ∉ fr_Items demo_frame -> 15 < frame_size (fr_Items demo_frame) + ci_SizeEstimate c.
Proof. apply (AssembleFrame_spec demo_gzip 15 demo_context demo_frame). vm_compute. reflexivity. Defined.

Example demo_frame_items : map ci_ID (fr_Items demo_frame) = ["e1"; "w1"]%string.
Proof. vm_compute. reflexivity. Qed.

(** The working memory outlives the manager: what is loaded is what was saved. *)
Example demo_working_memory :
  match LoadWorkingMemory demo_gzip demo_gzip (SaveWorkingMemory demo_gzip NewMemoryStore demo_context).1 100 with
  | Ok (m, true) => map it_Payload (SnapshotItems m) = ["quorum is 5"%string]
  | _ => False
  end.
Proof. vm_compute. reflexivity. Qed.
