(* ===== verification/Custody.v ===== *)
(** * Custody of bundles: bundle/custody/custody.go

    A custody event is confirmed by a quorum certificate over its digest, and a
    confirmation is applied to a store once per bundle. *)

From S2P Require Import Prelude Sha256 Json JsonParse JsonDecode Identity State Protocol Codec Store.
Local Open Scope Z_scope.

Definition SnapshotPrefix : string := "bundle-custody/".

Record Event := mkEvent {
  ce_BundleID : string;
  ce_TransactionID : string;
  ce_SourceNode : string;
  ce_CustodyHolder : string;
  ce_DestinationNode : string;
  ce_BundleDigest : string;
  ce_SequenceNumber : Z;
  ce_LogicalTick : Z;
  ce_QuorumCertificate : QuorumCertificate
}.

Record Confirmation := mkConfirmation {
  cf_Event : Event;
  cf_EventDigest : string;
  cf_Confirmed : bool;
  cf_QuorumSize : Z;
  cf_Certificate : QuorumCertificate
}.

Record PersistenceRecord := mkPersistence {
  ps_BundleID : string;
  ps_TransactionID : string;
  ps_EventDigest : string;
  ps_Confirmed : bool;
  ps_QuorumSize : Z;
  ps_AppliedCount : Z
}.

(** [eventToDigest]: every field but the certificate. *)
Definition eventToDigest_json (e : Event) : json :=
  JObj [("bundle_id", JStr (ce_BundleID e)); ("transaction_id", JStr (ce_TransactionID e));
        ("source_node", JStr (ce_SourceNode e)); ("custody_holder", JStr (ce_CustodyHolder e));
        ("destination_node", JStr (ce_DestinationNode e)); ("bundle_digest", JStr (ce_BundleDigest e));
        ("sequence_number", JInt (ce_SequenceNumber e)); ("logical_tick", JInt (ce_LogicalTick e))].

Definition Event_Digest (e : Event) : result string := HashCanonical (eventToDigest_json e).

Definition PersistenceRecord_json (r : PersistenceRecord) : json :=
  JObj [("bundle_id", JStr (ps_BundleID r)); ("transaction_id", JStr (ps_TransactionID r));
        ("event_digest", JStr (ps_EventDigest r)); ("confirmed", JBool (ps_Confirmed r));
        ("quorum_size", JInt (ps_QuorumSize r)); ("applied_count", JInt (ps_AppliedCount r))].

Definition PersistenceRecord_of (fs : list (string * json)) : result PersistenceRecord :=
  bundle ← get_string "bundle_id" fs;
  transaction ← get_string "transaction_id" fs;
  digest ← get_string "event_digest" fs;
  confirmed ← get_bool "confirmed" fs;
  quorum ← get_int "quorum_size" fs;
  applied ← get_int "applied_count" fs;
  Ok (mkPersistence bundle transaction digest confirmed quorum applied).

(** ** Confirming an event *)

Fixpoint sign_votes (eventDigest : string) (voterIDs : list string) (selected : CryptoSuite)
    : result (list Vote) :=
  match voterIDs with
  | [] => Ok []
  | voterID :: voterIDs =>
      match cs_NewSigner selected voterID with
      | Err e => Err (prefix_err ("create signer for " ++ voterID) e)
      | Ok signer =>
          vote ← SignStageVote 1 0 StagePrecommit eventDigest voterID signer;
          votes ← sign_votes eventDigest voterIDs selected;
          Ok (vote :: votes)
      end
  end.

Definition SignEventVotes (event : Event) (voterIDs : list string) (selected : CryptoSuite)
    : result (list Vote) :=
  eventDigest ← Event_Digest event; sign_votes eventDigest voterIDs selected.

Definition Verify (event : Event) (cert : QuorumCertificate) (identities : gmap string ValidatorIdentity)
    (verifier : SignatureVerifier) : result unit :=
  eventDigest ← Event_Digest event;
  if negb (String.eqb (qc_BlockHash cert) eventDigest) then
    fail "custody quorum certificate digest mismatch"
  else VerifyQuorumCertificate cert identities verifier.

Definition set_certificate (cert : QuorumCertificate) (e : Event) : Event :=
  mkEvent (ce_BundleID e) (ce_TransactionID e) (ce_SourceNode e) (ce_CustodyHolder e)
    (ce_DestinationNode e) (ce_BundleDigest e) (ce_SequenceNumber e) (ce_LogicalTick e) cert.

Definition Confirm (now : Time) (event : Event) (votes : list Vote)
    (identities : gmap string ValidatorIdentity) (verifier : SignatureVerifier) (threshold : Z)
    : result Confirmation :=
  eventDigest ← Event_Digest event;
  cert ← FormStageQuorumCertificate now 1 0 StagePrecommit eventDigest votes threshold;
  _ ← Verify event cert identities verifier;
  Ok (mkConfirmation (set_certificate cert event) eventDigest true
        (Z.of_nat (length (qc_Votes cert))) cert).

(** ** Applying a confirmation *)

Section store.
Context {S : Type} `{ValidatorStore S}.

Definition persistence_record (c : Confirmation) : PersistenceRecord :=
  mkPersistence (ce_BundleID (cf_Event c)) (ce_TransactionID (cf_Event c)) (cf_EventDigest c)
    (cf_Confirmed c) (cf_QuorumSize c) 1.

Definition custody_snapshot (c : Confirmation) : SnapshotRecord :=
  mkSnapshotRecord (SnapshotPrefix ++ ce_BundleID (cf_Event c)) (ce_SequenceNumber (cf_Event c))
    (ce_BundleDigest (cf_Event c)) (Marshal (PersistenceRecord_json (persistence_record c))) 0.

(** Go returns the flag along with the error of saving the snapshot. *)
Definition ApplyConfirmation (store : S) (now : Time) (c : Confirmation) : S * (bool * option error) :=
  if negb (cf_Confirmed c) then
    (store, (false, Some (errors_New "custody confirmation is not confirmed")))
  else
    let idempotencyID := (SnapshotPrefix ++ ce_BundleID (cf_Event c))%string in
    let '(store, recorded) := RecordIdempotency store now idempotencyID (cf_EventDigest c) in
    match recorded with
    | Err e => (store, (false, Some e))
    | Ok (false, existingDigest) =>
        (store, (false, if negb (String.eqb existingDigest (cf_EventDigest c))
                        then Some (errorf ["conflicting custody confirmation for ";
                                           ce_BundleID (cf_Event c)])
                        else None))
    | Ok (true, _) =>
        let '(store, saved) := SaveSnapshot store (custody_snapshot c) in
        (store, (true, match saved with Err e => Some e | Ok _ => None end))
    end.

Fixpoint load_records (snapshots : list SnapshotRecord) : result (list PersistenceRecord) :=
  match snapshots with
  | [] => Ok []
  | snapshot :: snapshots =>
      if negb (HasPrefix (sr_ID snapshot) SnapshotPrefix) then load_records snapshots
      else
        record ← Unmarshal PersistenceRecord_of (sr_SnapshotJSON snapshot);
        records ← load_records snapshots;
        Ok (record :: records)
  end.

Definition LoadConfirmed (store : S) : result (list PersistenceRecord) :=
  snapshots ← ListSnapshots store; load_records snapshots.
End store.

(** ** What a confirmation shows *)

(** A confirmation is evidence of custody: it holds the digest of its event
    and a certificate over that digest that verifies, made of at least
    [threshold] votes, no two of one validator, each signed by a known validator
    over that digest; and the event's digest does not depend on the certificate
    put into it. *)
Theorem Confirm_sound now event votes ids ver threshold c :
  Confirm now event votes ids ver threshold = Ok c ->
  cf_Confirmed c = true /\ Event_Digest (cf_Event c) = Ok (cf_EventDigest c) /\
  Event_Digest event = Ok (cf_EventDigest c) /\ ce_QuorumCertificate (cf_Event c) = cf_Certificate c /\
  Verify (cf_Event c) (cf_Certificate c) ids ver = Ok tt /\
  0 < threshold <= cf_QuorumSize c /\
  cf_QuorumSize c = Z.of_nat (length (qc_Votes (cf_Certificate c))) /\
  NoDup (map v_VoterID (qc_Votes (cf_Certificate c))) /\
  Forall (fun v => v_BlockHash v = cf_EventDigest c /\ valid_vote ids ver (normalize_vote v))
    (qc_Votes (cf_Certificate c)).
Proof.
  unfold Confirm. intros (digest & Hd & (cert & Hf & ([] & Hv & [= <-])%bind_ok)%bind_ok)%bind_ok.
  cbn [cf_Confirmed cf_Event cf_EventDigest cf_Certificate cf_QuorumSize].
  pose proof Hv as Hv'. unfold Verify in Hv'. rewrite Hd in Hv'. cbn [mbind result_bind] in Hv'.
  destruct (String.eqb_spec (qc_BlockHash cert) digest) as [Eb|]; [|done].
  apply certificate_facts in Hv' as (_ & _ & _ & _ & _ & Hgood & Hnd & Hcount & Hle).
  apply FormStage_ok in Hf as (Ht & _ & Hsize & ->). cbn [qc_Threshold] in Hle.
  split_and!; try done.
  eapply Forall_impl; [exact Hgood|]. intros v (_ & _ & _ & Hb & _ & Hok). by rewrite Hb, Eb.
Qed.

(** ** A confirmation is applied once *)

Definition persistence_wf (r : PersistenceRecord) : Prop :=
  utf8 (ps_BundleID r) = true /\ utf8 (ps_TransactionID r) = true /\ utf8 (ps_EventDigest r) = true /\
  is_int64 (ps_QuorumSize r) /\ is_int64 (ps_AppliedCount r).

Lemma PersistenceRecord_roundtrip r :
  persistence_wf r -> Unmarshal PersistenceRecord_of (Marshal (PersistenceRecord_json r)) = Ok r.
Proof.
  intros (? & ? & ? & Hq & Ha). apply Unmarshal_Marshal.
  - unfold PersistenceRecord_json. json_ok_tac.
  - destruct r. cbn in * |-. unfold PersistenceRecord_json, dec_struct, PersistenceRecord_of.
    cbn [ps_BundleID ps_TransactionID ps_EventDigest ps_Confirmed ps_QuorumSize ps_AppliedCount].
    by read_struct.
Qed.

Lemma load_records_app l1 l2 :
  load_records (l1 ++ l2) = (r1 ← load_records l1; r2 ← load_records l2; Ok (r1 ++ r2)%list).
Proof.
  induction l1 as [|s l1 IH]; cbn [app load_records].
  - cbn. by destruct (load_records l2).
  - case_match; [apply IH|]. destruct (Unmarshal _ _); [|done]. cbn [mbind result_bind]. rewrite IH.
    destruct (load_records l1); [|done]. cbn. by destruct (load_records l2).
Qed.

(** C33: custody of a bundle is taken once.  Over the in-memory store, a
    confirmation that is accepted and whose texts are UTF-8 and numbers fit is listed
    by [LoadConfirmed] after the ones before it; afterwards the same confirmation
    is accepted silently and another one for the bundle is an error, and neither
    changes the store, while other bundles are unaffected. *)
Theorem custody_once now c (s s' : MemoryStore) :
  persistence_wf (persistence_record c) ->
  ApplyConfirmation s now c = (s', (true, None)) ->
  (forall records, LoadConfirmed s = Ok records ->
     LoadConfirmed s' = Ok (records ++ [persistence_record c])%list) /\
  (forall now2 c2, cf_Confirmed c2 = true ->
     ce_BundleID (cf_Event c2) = ce_BundleID (cf_Event c) ->
     ApplyConfirmation s' now2 c2
     = (s', (false, if String.eqb (cf_EventDigest c2) (cf_EventDigest c) then None
                    else Some (errorf ["conflicting custody confirmation for "; ce_BundleID (cf_Event c)])))) /\
  (forall now2 c2, cf_Confirmed c2 = true ->
     ce_BundleID (cf_Event c2) <> ce_BundleID (cf_Event c) ->
     (ApplyConfirmation s' now2 c2).2 = (ApplyConfirmation s now2 c2).2).
Proof.
  intros Hwf Ha. unfold ApplyConfirmation in Ha. destruct (cf_Confirmed c) eqn:Hc; [|done]. cbn [negb] in Ha.
  cbn [RecordIdempotency memory_store Memory.RecordIdempotency SaveSnapshot Memory.SaveSnapshot] in Ha.
  unfold Memory.RecordIdempotency in Ha.
  set (id := (SnapshotPrefix ++ ce_BundleID (cf_Event c))%string) in *.
  destruct (ms_idempotency s !! id) as [old|] eqn:Eo; [done|].
  unfold Memory.SaveSnapshot in Ha. injection Ha as <-. split_and!.
  - intros records Hr. unfold LoadConfirmed in *. cbn in Hr |- *. rewrite load_records_app, Hr.
    cbn [load_records mbind result_bind custody_snapshot sr_ID sr_SnapshotJSON].
    by rewrite HasPrefix_app, PersistenceRecord_roundtrip.
  - intros now2 c2 Hc2 Hid. unfold ApplyConfirmation. rewrite Hc2, Hid. cbn [negb].
    cbn [RecordIdempotency memory_store]. unfold Memory.RecordIdempotency. fold id. cbn [ms_idempotency set_snapshots set_idempotency].
    rewrite lookup_insert_eq. cbn [ir_ResultHash]. rewrite (String.eqb_sym (cf_EventDigest c2)).
    by destruct (String.eqb _ _).
  - intros now2 c2 Hc2 Hid. unfold ApplyConfirmation. rewrite Hc2. cbn [negb].
    cbn [RecordIdempotency memory_store]. unfold Memory.RecordIdempotency. cbn [ms_idempotency set_snapshots set_idempotency].
    rewrite lookup_insert_ne by (intros E%append_inj; by apply Hid).
    destruct (ms_idempotency s !! (SnapshotPrefix ++ ce_BundleID (cf_Event c2))%string); reflexivity.
Qed.

(** ** A confirmed bundle *)

Definition demo_event : Event :=
  mkEvent "bundle-1" "tx-1" "ai-client" "v1" "ai-agent" "digest-1" 1 11
    (mkQC 0 0 "" "" "" 0 0 "" 0 0 []).

Definition demo_suite : CryptoSuite :=
  mkSuite "demo" "demo" "demo" (fun id => Ok (demo_signer id)) demo_verifier (fun _ => fail "no KEM")
    (fun _ => fail "no KEM").

Definition demo_votes : list Vote :=
  match SignEventVotes demo_event ["v1"; "v2"; "v3"]%string demo_suite with Ok votes => votes | Err _ => [] end.

Definition demo_confirmation : Confirmation :=
  match Confirm (mkTime 5 "") demo_event demo_votes (demo_identities demo_ids) demo_verifier 3 with
  | Ok c => c
  | Err _ => mkConfirmation demo_event "" false 0 (mkQC 0 0 "" "" "" 0 0 "" 0 0 [])
  end.

Lemma Confirm_sound_witness : 0 < 3 <= cf_QuorumSize demo_confirmation.
Proof.
  apply (Confirm_sound (mkTime 5 "") demo_event demo_votes (demo_identities demo_ids) demo_verifier 3).
  vm_compute. reflexivity.
Defined.

Lemma custody_once_witness :
  LoadConfirmed (ApplyConfirmation NewMemoryStore (mkTime 6 "") demo_confirmation).1
  = Ok [persistence_record demo_confirmation] /\
  (ApplyConfirmation (ApplyConfirmation NewMemoryStore (mkTime 6 "") demo_confirmation).1
     (mkTime 7 "") demo_confirmation).2 = (false, None).
Proof.
  destruct (custody_once (mkTime 6 "") demo_confirmation NewMemoryStore
              (ApplyConfirmation NewMemoryStore (mkTime 6 "") demo_confirmation).1) as (Hl & Hsame & _).
  - vm_compute. repeat split; discriminate.
  - vm_compute. reflexivity.
  - split; [by apply (Hl [])|].
    rewrite (Hsame (mkTime 7 "") demo_confirmation); [|vm_compute; reflexivity|reflexivity].
    by rewrite String.eqb_refl.
Defined.
