(* ===== verification/Reconcile.v ===== *)
(** * Reconciling the bundles of two nodes: bundle/reconcile/reconcile.go

    A node compares its state with a peer's, takes the bundles it lacks, refuses
    when a bundle has two digests, and keeps its state in a snapshot.  The maps of
    a state are made (not nil), as [NewBundleState] and [ensureMaps] leave them. *)

From S2P Require Import Prelude Sha256 Json JsonParse JsonDecode Identity State Protocol Codec Store.
Local Open Scope Z_scope.

Record StateDigest := mkStateDigest { sd_Height : Z; sd_LastHash : string }.

Definition DeterministicMatch (a b : StateDigest) : result unit :=
  if negb (sd_Height a =? sd_Height b) || negb (String.eqb (sd_LastHash a) (sd_LastHash b)) then
    Err (errorf ["state divergence: left=("; itoa (sd_Height a); ","; sd_LastHash a; ") right=(";
                 itoa (sd_Height b); ","; sd_LastHash b; ")"])
  else Ok tt.

Definition SnapshotID : string := "bundle-reconcile/state".

Record BundleRecord := mkBundleRecord {
  br_BundleID : string;
  br_Digest : string;
  br_TransactionID : string;
  br_ChannelID : string;
  br_Sequence : Z
}.

Record BundleState := mkBundleState {
  bs_LatestSequenceByChannel : gmap string Z;
  bs_CommittedTransactionIDs : gmap string string;
  bs_CustodyStatusByBundle : gmap string string;
  bs_ContextStateDigest : string;
  bs_PendingBundleIDs : list string;
  bs_Bundles : gmap string BundleRecord
}.

Record Plan := mkPlan {
  pn_Noop : bool;
  pn_MissingBundleIDs : list string;
  pn_DuplicateBundleIDs : list string;
  pn_ConflictingBundleIDs : list string;
  pn_AppliedBundleIDs : list string
}.

Definition NewBundleState : BundleState := mkBundleState ∅ ∅ ∅ "" [] ∅.

Definition BundleRecord_json (r : BundleRecord) : json :=
  JObj [("bundle_id", JStr (br_BundleID r)); ("digest", JStr (br_Digest r));
        ("transaction_id", JStr (br_TransactionID r)); ("channel_id", JStr (br_ChannelID r));
        ("sequence", JInt (br_Sequence r))].

(** [BundleState.Digest]: the context digest is left out, the pending ids are sorted. *)
Definition digest_json (s : BundleState) : json :=
  JObj [("latest_sequence_by_channel", JMap JInt (bs_LatestSequenceByChannel s));
        ("committed_transaction_ids", JMap JStr (bs_CommittedTransactionIDs s));
        ("custody_status_by_bundle", JMap JStr (bs_CustodyStatusByBundle s));
        ("pending_bundle_ids", list_json JStr (sort_strings (bs_PendingBundleIDs s)));
        ("bundles", JMap BundleRecord_json (bs_Bundles s))].

Definition BundleState_Digest (s : BundleState) : result string := HashCanonical (digest_json s).

(** ** Comparing *)

(** The ids of the remote bundles that [p] holds of, sorted. *)
Definition bundles_where (p : string -> BundleRecord -> bool) (remote : BundleState) : list string :=
  sort_strings (map fst (List.filter (fun kv => p kv.1 kv.2) (map_to_list (bs_Bundles remote)))).

Definition missing (local : BundleState) (id : string) (r : BundleRecord) : bool :=
  match bs_Bundles local !! id with None => true | Some _ => false end.

Definition conflicting (local : BundleState) (id : string) (r : BundleRecord) : bool :=
  match bs_Bundles local !! id with
  | None => false
  | Some l => negb (String.eqb (br_Digest l) (br_Digest r))
  end.

Definition duplicate (local : BundleState) (id : string) (r : BundleRecord) : bool :=
  match bs_Bundles local !! id with
  | None => false
  | Some l => String.eqb (br_Digest l) (br_Digest r)
  end.

Definition Compare (local remote : BundleState) : Plan :=
  let missing := bundles_where (missing local) remote in
  let duplicates := bundles_where (duplicate local) remote in
  let conflicts := bundles_where (conflicting local) remote in
  mkPlan (is_nil missing && is_nil conflicts) missing duplicates conflicts [].

(** ** Applying a plan *)

Definition subtractPending (pending applied : list string) : list string :=
  sort_strings (List.filter (fun id => bool_decide (id ∉ applied)) pending).

(** One missing bundle taken from the remote state. *)
Definition take_bundle (remote next : BundleState) (id : string) : BundleState :=
  match bs_Bundles remote !! id with
  | None => next
  | Some record =>
      let latest := bs_LatestSequenceByChannel next in
      mkBundleState
        (if default 0 (latest !! br_ChannelID record) <? br_Sequence record
         then <[br_ChannelID record := br_Sequence record]> latest else latest)
        (<[br_TransactionID record := br_Digest record]> (bs_CommittedTransactionIDs next))
        (match bs_CustodyStatusByBundle remote !! id with
         | Some status => <[id := status]> (bs_CustodyStatusByBundle next)
         | None => bs_CustodyStatusByBundle next
         end)
        (bs_ContextStateDigest next) (bs_PendingBundleIDs next)
        (<[id := record]> (bs_Bundles next))
  end.

Definition set_pending (pending : list string) (s : BundleState) : BundleState :=
  mkBundleState (bs_LatestSequenceByChannel s) (bs_CommittedTransactionIDs s)
    (bs_CustodyStatusByBundle s) (bs_ContextStateDigest s) pending (bs_Bundles s).

Definition set_context (digest : string) (s : BundleState) : BundleState :=
  mkBundleState (bs_LatestSequenceByChannel s) (bs_CommittedTransactionIDs s)
    (bs_CustodyStatusByBundle s) digest (bs_PendingBundleIDs s) (bs_Bundles s).

(** [fmt]'s [%v] of a slice of strings. *)
Definition sprint_strings (l : list string) : string := ("[" ++ String.concat " " l ++ "]")%string.

(** Go returns a state along with the error. *)
Definition Apply (local remote : BundleState) (plan : Plan) : BundleState * option error :=
  if negb (is_nil (pn_ConflictingBundleIDs plan)) then
    (local, Some (errorf ["bundle digest conflicts: "; sprint_strings (pn_ConflictingBundleIDs plan)]))
  else
    let next := foldl (take_bundle remote) local (pn_MissingBundleIDs plan) in
    let next := set_pending (subtractPending (bs_PendingBundleIDs next) (pn_MissingBundleIDs plan)) next in
    match BundleState_Digest next with
    | Err e => (next, Some e)
    | Ok digest =>
        (if negb (is_nil (pn_MissingBundleIDs plan)) then set_context digest next
         else if negb (String.eqb (bs_ContextStateDigest remote) "") &&
                 is_nil (pn_ConflictingBundleIDs plan)
              then set_context (bs_ContextStateDigest local) next
         else next, None)
    end.

(** ** The snapshot of a state *)

Definition BundleState_json (s : BundleState) : json :=
  JObj [("latest_sequence_by_channel", JMap JInt (bs_LatestSequenceByChannel s));
        ("committed_transaction_ids", JMap JStr (bs_CommittedTransactionIDs s));
        ("custody_status_by_bundle", JMap JStr (bs_CustodyStatusByBundle s));
        ("context_state_digest", JStr (bs_ContextStateDigest s));
        ("pending_bundle_ids", list_json JStr (bs_PendingBundleIDs s));
        ("bundles", JMap BundleRecord_json (bs_Bundles s))].

Definition BundleRecord_of (fs : list (string * json)) : result BundleRecord :=
  id ← get_string "bundle_id" fs;
  digest ← get_string "digest" fs;
  transaction ← get_string "transaction_id" fs;
  channel ← get_string "channel_id" fs;
  sequence ← get_uint64 "sequence" fs;
  Ok (mkBundleRecord id digest transaction channel sequence).

Definition BundleState_of (fs : list (string * json)) : result BundleState :=
  latest ← get_map 0 dec_uint64 "latest_sequence_by_channel" fs;
  committed ← get_map ""%string dec_string "committed_transaction_ids" fs;
  custody ← get_map ""%string dec_string "custody_status_by_bundle" fs;
  context ← get_string "context_state_digest" fs;
  pending ← get_list ""%string dec_string "pending_bundle_ids" fs;
  bundles ← get_map (mkBundleRecord "" "" "" "" 0) (dec_struct BundleRecord_of) "bundles" fs;
  Ok (mkBundleState latest committed custody context pending bundles).

Section snapshots.
Context {S : Type} `{ValidatorStore S}.

Definition SaveSnapshot (store : S) (state : BundleState) : S * result unit :=
  let data := Marshal (BundleState_json state) in
  match BundleState_Digest state with
  | Err e => (store, Err e)
  | Ok digest => Store.SaveSnapshot store (mkSnapshotRecord SnapshotID 0 digest data 0)
  end.

(** The last snapshot with the id, if there is one. *)
Definition LoadLatestSnapshot (store : S) : result (option BundleState) :=
  snapshots ← ListSnapshots store;
  match List.find (fun s => String.eqb (sr_ID s) SnapshotID) (rev snapshots) with
  | None => Ok None
  | Some snapshot => state ← Unmarshal BundleState_of (sr_SnapshotJSON snapshot); Ok (Some state)
  end.
End snapshots.

(** ** Reconciliation converges *)

Lemma elem_of_bundles_where p remote id :
  id ∈ bundles_where p remote <-> exists r, bs_Bundles remote !! id = Some r /\ p id r = true.
Proof.
  unfold bundles_where. rewrite elem_of_sort_strings, list_elem_of_In, in_map_iff.
  setoid_rewrite filter_In. setoid_rewrite <-list_elem_of_In. split.
  - intros ([id' r] & <- & Hin%elem_of_map_to_list & Hp). by exists r.
  - intros (r & Hr & Hp). exists (id, r). split_and!; [done|by apply elem_of_map_to_list|done].
Qed.

Lemma bundles_where_nil p remote :
  is_nil (bundles_where p remote) = true <-> forall id r, bs_Bundles remote !! id = Some r -> p id r = false.
Proof.
  destruct (bundles_where p remote) as [|id l] eqn:E; cbn; split; try done.
  - intros _ id r Hr. destruct (p id r) eqn:Hp; [|done].
    assert (Hin : id ∈ bundles_where p remote) by (apply elem_of_bundles_where; eauto).
    rewrite E in Hin. by apply elem_of_nil in Hin.
  - intros Hnone. assert (Hin : id ∈ bundles_where p remote) by (rewrite E; left).
    apply elem_of_bundles_where in Hin as (r & Hr & Hp). by rewrite (Hnone id r Hr) in Hp.
Qed.

(** Every bundle both hold has one digest. *)
Definition agree (a b : BundleState) : Prop :=
  forall id x y, bs_Bundles a !! id = Some x -> bs_Bundles b !! id = Some y -> br_Digest x = br_Digest y.

Lemma no_conflict a b : is_nil (bundles_where (conflicting a) b) = true <-> agree a b.
Proof.
  rewrite bundles_where_nil. unfold agree, conflicting. split.
  - intros Hc id x y Hx Hy. specialize (Hc id y Hy). rewrite Hx in Hc.
    by apply negb_false_iff, String.eqb_eq in Hc.
  - intros Ha id y Hy. destruct (bs_Bundles a !! id) as [x|] eqn:Hx; [|done].
    by rewrite (Ha id x y Hx Hy), String.eqb_refl.
Qed.

Lemma agree_sym a b : agree a b -> agree b a.
Proof. intros Hab id x y Hx Hy. symmetry. by apply (Hab id). Qed.

Lemma no_missing a b :
  is_nil (bundles_where (missing a) b) = true <->
  forall id, is_Some (bs_Bundles b !! id) -> is_Some (bs_Bundles a !! id).
Proof.
  rewrite bundles_where_nil. unfold missing. split.
  - intros Hm id [r Hr]. specialize (Hm id r Hr). by destruct (bs_Bundles a !! id).
  - intros Hs id r Hr. by destruct (Hs id) as [x ->].
Qed.

Lemma Noop_spec a b :
  pn_Noop (Compare a b) = true <->
  agree a b /\ forall id, is_Some (bs_Bundles b !! id) -> is_Some (bs_Bundles a !! id).
Proof. unfold Compare. cbn [pn_Noop]. rewrite andb_true_iff, no_conflict, no_missing. tauto. Qed.

(** The highest sequence number known of a channel. *)
Definition latest (s : BundleState) (channel : string) : Z :=
  default 0 (bs_LatestSequenceByChannel s !! channel).

(** What taking the bundles [ids] from [b] makes of [a]. *)
Record taken (ids : list string) (a b a' : BundleState) : Prop := {
  tk_bundles id : bs_Bundles a' !! id
                  = if decide (id ∈ ids /\ is_Some (bs_Bundles b !! id)) then bs_Bundles b !! id
                    else bs_Bundles a !! id;
  tk_latest channel : latest a channel <= latest a' channel;
  tk_covers id r : id ∈ ids -> bs_Bundles b !! id = Some r ->
                   br_Sequence r <= latest a' (br_ChannelID r);
  tk_exact channel : latest a' channel = latest a channel \/
                     exists id r, id ∈ ids /\ bs_Bundles b !! id = Some r /\ br_ChannelID r = channel /\
                                  br_Sequence r = latest a' channel;
  tk_pending : bs_PendingBundleIDs a' = bs_PendingBundleIDs a
}.

Lemma latest_take b s id r channel :
  bs_Bundles b !! id = Some r ->
  latest (take_bundle b s id) channel
  = if decide (br_ChannelID r = channel) then Z.max (latest s channel) (br_Sequence r) else latest s channel.
Proof.
  intros Hr. unfold take_bundle. rewrite Hr. unfold latest. cbn [bs_LatestSequenceByChannel].
  case_decide as Hc; [subst channel|].
  - destruct (Z.ltb_spec (default 0 (bs_LatestSequenceByChannel s !! br_ChannelID r)) (br_Sequence r)).
    + rewrite lookup_insert_eq. cbn. lia.
    + lia.
  - destruct (_ <? _); [by rewrite lookup_insert_ne|done].
Qed.

Lemma take_bundles_spec ids a b : taken ids a b (foldl (take_bundle b) a ids).
Proof.
  induction ids as [|id ids IH] using rev_ind; cbn [foldl].
  - constructor; [|intros; lia| |by left|done].
    + intros id. rewrite decide_False; [done|]. by intros [?%elem_of_nil _].
    + by intros id r ?%elem_of_nil.
  - rewrite foldl_app. cbn [foldl]. set (s := foldl _ a ids) in *. destruct IH as [Hb Hl Hc He Hp].
    destruct (bs_Bundles b !! id) as [r|] eqn:Er.
    + pose proof (latest_take b s id r) as Hlt. constructor.
      * intros id'. unfold take_bundle. rewrite Er. cbn [bs_Bundles].
        destruct (decide (id' = id)) as [->|Hne].
        -- rewrite lookup_insert_eq, decide_True; [done|]. rewrite Er. split; [set_solver|done].
        -- rewrite lookup_insert_ne by done. rewrite Hb. apply decide_ext. set_solver.
      * intros channel. rewrite Hlt by done. specialize (Hl channel). case_decide; lia.
      * intros id' r' [Hin| ->%list_elem_of_singleton]%elem_of_app Hr'; rewrite Hlt by done.
        -- specialize (Hc id' r' Hin Hr'). case_decide; lia.
        -- assert (r' = r) as -> by congruence. rewrite decide_True by done. lia.
      * intros channel. rewrite Hlt by done. case_decide as Hch.
        -- destruct (Z.le_gt_cases (br_Sequence r) (latest s channel)) as [Hle|Hgt].
           ++ rewrite Z.max_l by done. destruct (He channel) as [?|(id' & r' & ? & ?)]; [by left|right].
              exists id', r'. set_solver.
           ++ rewrite Z.max_r by lia. right. exists id, r. set_solver.
        -- destruct (He channel) as [?|(id' & r' & ? & ?)]; [by left|right]. exists id', r'. set_solver.
      * unfold take_bundle. by rewrite Er.
    + unfold take_bundle. rewrite Er. constructor; [|done| | |done].
      * intros id'. rewrite Hb. apply decide_ext.
        split; (intros [Hin Hs]; split; [|done]); [set_solver|].
        apply elem_of_app in Hin as [?| ->%list_elem_of_singleton]; [done|]. rewrite Er in Hs. by destruct Hs.
      * intros id' r' [Hin| ->%list_elem_of_singleton]%elem_of_app Hr'; [by apply (Hc id')|congruence].
      * intros channel. destruct (He channel) as [?|(id' & r' & ? & ?)]; [by left|right].
        exists id', r'. set_solver.
Qed.

Lemma Digest_total s : exists digest, BundleState_Digest s = Ok digest.
Proof. by eexists. Qed.

(** What applying the plan of a comparison does. *)
Lemma Apply_Compare a b :
  (~ agree a b /\ exists e, Apply a b (Compare a b) = (a, Some e)) \/
  (agree a b /\ exists a', Apply a b (Compare a b) = (a', None) /\
     bs_Bundles a' = bs_Bundles a ∪ bs_Bundles b /\
     let ids := bundles_where (missing a) b in
     (forall channel, latest a' channel = latest (foldl (take_bundle b) a ids) channel) /\
     forall id, id ∈ bs_PendingBundleIDs a' <-> id ∈ bs_PendingBundleIDs a /\ id ∉ ids).
Proof.
  unfold Apply. cbn [Compare pn_ConflictingBundleIDs pn_MissingBundleIDs].
  pose proof (no_conflict a b) as Hagree. destruct (is_nil (bundles_where (conflicting a) b)) eqn:Ec; cbn [negb].
  2: { left. split; [rewrite <-Hagree; done|by eexists]. }
  right. split; [by apply Hagree|]. set (ids := bundles_where (missing a) b).
  destruct (take_bundles_spec ids a b) as [Hb Hl Hc He Hp].
  set (s := foldl (take_bundle b) a ids) in *.
  set (next := set_pending _ s). destruct (Digest_total next) as [digest ->].
  assert (Hnext : bs_Bundles next = bs_Bundles a ∪ bs_Bundles b /\
                  (forall channel, latest next channel = latest s channel) /\
                  forall id, id ∈ bs_PendingBundleIDs next <-> id ∈ bs_PendingBundleIDs a /\ id ∉ ids).
  { split_and!; [|done|].
    - apply map_eq. intros id. cbn [bs_Bundles next set_pending]. rewrite Hb, lookup_union.
      destruct (bs_Bundles a !! id) as [x|] eqn:Ea.
      + rewrite decide_False; [by destruct (bs_Bundles b !! id)|].
        intros [(r & _ & Hm)%elem_of_bundles_where _]. unfold missing in Hm. by rewrite Ea in Hm.
      + case_decide as Hd; [by destruct (bs_Bundles b !! id)|].
        destruct (bs_Bundles b !! id) as [y|] eqn:Eb; [|done]. exfalso. apply Hd. split; [|done].
        apply elem_of_bundles_where. exists y. split; [done|]. unfold missing. by rewrite Ea.
    - intros id. cbn [bs_PendingBundleIDs next set_pending]. unfold subtractPending.
      rewrite elem_of_sort_strings, list_elem_of_In, filter_In, <-list_elem_of_In, bool_decide_eq_true, Hp.
      done. }
  destruct Hnext as (? & ? & ?). destruct (negb (is_nil ids)); [|destruct (negb _ && _)];
    (eexists; split; [reflexivity|by split_and!]).
Qed.

(** The digest a state has of a bundle. *)
Definition dig (s : BundleState) (id : string) : option string := br_Digest <$> bs_Bundles s !! id.

Lemma Noop_dig x y :
  (forall id, dig y id = dig x id \/ dig y id = None) -> pn_Noop (Compare x y) = true.
Proof.
  intros Hdig. apply Noop_spec. unfold dig in Hdig. split.
  - intros id r r' Hr Hr'. destruct (Hdig id) as [E|E]; rewrite Hr' in E; [|done].
    rewrite Hr in E. by injection E.
  - intros id [r Hr]. destruct (Hdig id) as [E|E]; rewrite Hr in E; [|done].
    by destruct (bs_Bundles x !! id).
Qed.

(** Reconciliation converges.  Applying the plan of a comparison fails,
    leaving the state as it was, exactly when some bundle has two digests; and
    otherwise the node holds its own bundles and the ones it lacked, expects the
    highest sequence number of each channel among them, no longer waits for those
    it took, and finds nothing more to do; and once the peer has done the same,
    neither finds anything to do with the other. *)
Theorem reconcile_converges a b :
  let '(a', err) := Apply a b (Compare a b) in
  (is_Some err <-> ~ agree a b) /\ (is_Some err -> a' = a) /\
  (err = None ->
     bs_Bundles a' = bs_Bundles a ∪ bs_Bundles b /\ pn_Noop (Compare a' b) = true /\
     (forall channel, latest a channel <= latest a' channel) /\
     (forall id r, bs_Bundles a !! id = None -> bs_Bundles b !! id = Some r ->
        br_Sequence r <= latest a' (br_ChannelID r) /\ id ∉ bs_PendingBundleIDs a') /\
     let '(b', err') := Apply b a (Compare b a) in
     err' = None /\ pn_Noop (Compare a' b') = true /\ pn_Noop (Compare b' a') = true).
Proof.
  destruct (Apply_Compare a b) as [[Hno (e & ->)]|(Hagree & a' & -> & Ha' & Hl & Hp)].
  { split_and!; try done. }
  split_and!; [split; [by intros [? ?]|by intros []]|by intros [? ?]|intros _].
  assert (Hdig : forall id, dig a' id = match dig a id with Some d => Some d | None => dig b id end).
  { intros id. unfold dig. rewrite Ha', lookup_union.
    by destruct (bs_Bundles a !! id), (bs_Bundles b !! id). }
  assert (Hb : forall id d d', dig a id = Some d -> dig b id = Some d' -> d = d')
    by (intros id d d' (x & Hx & ->)%fmap_Some (y & Hy & ->)%fmap_Some; by apply (Hagree id)).
  split_and!; [done| | | |].
  - apply Noop_dig. intros id. rewrite Hdig. specialize (Hb id).
    destruct (dig a id), (dig b id); [left; by rewrite (Hb _ _ eq_refl eq_refl)|by right|by left|by left].
  - intros channel. rewrite Hl. apply (take_bundles_spec (bundles_where (missing a) b) a b).
  - intros id r Ha Hr. assert (Hin : id ∈ bundles_where (missing a) b).
    { apply elem_of_bundles_where. exists r. split; [done|]. unfold missing. by rewrite Ha. }
    split; [rewrite Hl; by apply (tk_covers _ _ _ _ (take_bundles_spec (bundles_where (missing a) b) a b) id)|].
    rewrite Hp. tauto.
  - destruct (Apply_Compare b a) as [[Hno _]|(_ & b' & -> & Hb' & _)]; [by apply agree_sym in Hagree|].
    assert (Hsame : forall id, dig b' id = dig a' id).
    { intros id. rewrite Hdig. specialize (Hb id). unfold dig in *. rewrite Hb', lookup_union.
      destruct (bs_Bundles a !! id), (bs_Bundles b !! id); cbn in *; try done.
      by rewrite (Hb _ _ eq_refl eq_refl). }
    split_and!; [done| |]; apply Noop_dig; intros id; left; by rewrite Hsame.
Qed.

(** ** A state outlives its node *)

Definition record_wf (r : BundleRecord) : Prop :=
  utf8 (br_BundleID r) = true /\ utf8 (br_Digest r) = true /\ utf8 (br_TransactionID r) = true /\
  utf8 (br_ChannelID r) = true /\ is_u64 (br_Sequence r).

(** Strings that are valid UTF-8 and numbers in their range. *)
Definition state_wf (s : BundleState) : Prop :=
  (forall k z, bs_LatestSequenceByChannel s !! k = Some z -> utf8 k = true /\ is_u64 z) /\
  (forall k v, bs_CommittedTransactionIDs s !! k = Some v -> utf8 k = true /\ utf8 v = true) /\
  (forall k v, bs_CustodyStatusByBundle s !! k = Some v -> utf8 k = true /\ utf8 v = true) /\
  utf8 (bs_ContextStateDigest s) = true /\
  (forall id, id ∈ bs_PendingBundleIDs s -> utf8 id = true) /\
  (forall k r, bs_Bundles s !! k = Some r -> utf8 k = true /\ record_wf r).

Lemma BundleRecord_of_json r : record_wf r -> dec_struct BundleRecord_of (BundleRecord_json r) = Ok r.
Proof.
  destruct r as [id d t c s]. intros (? & ? & ? & ? & Hs). cbn in * |-.
  unfold BundleRecord_json, dec_struct, BundleRecord_of.
  cbn [br_BundleID br_Digest br_TransactionID br_ChannelID br_Sequence]. by read_struct.
Qed.

Lemma BundleRecord_json_ok r : record_wf r -> json_ok (BundleRecord_json r) = true.
Proof. intros (? & ? & ? & ? & _). unfold BundleRecord_json. json_ok_tac. Qed.

Lemma BundleState_json_ok s : state_wf s -> json_ok (BundleState_json s) = true.
Proof.
  intros (Hl & Ht & Hc & Hd & Hp & Hb). unfold BundleState_json.
  assert (json_ok (JMap JInt (bs_LatestSequenceByChannel s)) = true)
    by (apply json_ok_map; intros k z Hz; by destruct (Hl k z Hz)).
  assert (json_ok (JMap JStr (bs_CommittedTransactionIDs s)) = true) by (apply json_ok_map, Ht).
  assert (json_ok (JMap JStr (bs_CustodyStatusByBundle s)) = true) by (apply json_ok_map, Hc).
  assert (json_ok (list_json JStr (bs_PendingBundleIDs s)) = true) by (apply json_ok_list, Hp).
  assert (json_ok (JMap BundleRecord_json (bs_Bundles s)) = true)
    by (apply json_ok_map; intros k r Hr; destruct (Hb k r Hr); split; [done|by apply BundleRecord_json_ok]).
  json_ok_tac.
Qed.

Ltac read_map :=
  eapply read_bind; [skip_keys; apply get_map_here; [vm_compute_refl|vm_compute_refl|done|]|].

Lemma BundleState_of_json s : state_wf s -> dec_struct BundleState_of (BundleState_json s) = Ok s.
Proof.
  destruct s as [l t c d p b]. intros (Hl & Ht & Hc & Hd & Hp & Hb).
  cbn [bs_LatestSequenceByChannel bs_CommittedTransactionIDs bs_CustodyStatusByBundle bs_ContextStateDigest
       bs_PendingBundleIDs bs_Bundles] in *.
  unfold BundleState_json, dec_struct, BundleState_of.
  cbn [bs_LatestSequenceByChannel bs_CommittedTransactionIDs bs_CustodyStatusByBundle bs_ContextStateDigest
       bs_PendingBundleIDs bs_Bundles].
  read_map; [intros k z Hz; by apply dec_uint64_ok, (Hl k)|].
  read_map; [done|]. read_map; [done|].
  read_struct. unfold get_list. read_next.
  { apply get_list_json; done. }
  read_map; [|done]. intros k r Hr. by apply BundleRecord_of_json, (Hb k).
Qed.

(** A saved state is the one loaded: after a snapshot, a node that starts
    over from its store has the same bundles, transactions, custody statuses,
    sequence numbers, pending ids and digest. *)
Theorem reconcile_snapshot_roundtrip (store store' : MemoryStore) state :
  state_wf state -> SaveSnapshot store state = (store', Ok tt) ->
  LoadLatestSnapshot store' = Ok (Some state).
Proof.
  intros Hwf. unfold SaveSnapshot. destruct (Digest_total state) as [digest ->].
  cbn [Store.SaveSnapshot memory_store]. unfold Memory.SaveSnapshot. intros [= <-].
  unfold LoadLatestSnapshot. cbn [ListSnapshots memory_store Memory.ListSnapshots set_snapshots ms_snapshots mbind result_bind].
  unfold Memory.ListSnapshots. cbn [mbind result_bind ms_snapshots set_snapshots].
  rewrite rev_app_distr. cbn [rev app List.find sr_ID]. rewrite String.eqb_refl. cbn [sr_SnapshotJSON].
  rewrite (Unmarshal_Marshal _ _ state); [done|by apply BundleState_json_ok|by apply BundleState_of_json].
Qed.

(** ** Two nodes *)

Definition demo_record (id digest : string) (sequence : Z) : BundleRecord :=
  mkBundleRecord id digest ("tx-" ++ id) "execution" sequence.

Definition demo_local : BundleState :=
  mkBundleState {["execution"%string := 1]} {["tx-b1"%string := "d1"%string]} ∅ "" ["b2"%string]
    {["b1"%string := demo_record "b1" "d1" 1]}.

Definition demo_remote : BundleState :=
  mkBundleState {["execution"%string := 2]} {["tx-b2"%string := "d2"%string]}
    {["b2"%string := "confirmed"%string]} "" [] {["b2"%string := demo_record "b2" "d2" 2]}.

Definition demo_reconciled : BundleState := (Apply demo_local demo_remote (Compare demo_local demo_remote)).1.

Example demo_reconcile :
  bs_Bundles demo_reconciled = {["b1"%string := demo_record "b1" "d1" 1; "b2"%string := demo_record "b2" "d2" 2]} /\
  bs_PendingBundleIDs demo_reconciled = [] /\ latest demo_reconciled "execution" = 2.
Proof. repeat split; vm_compute; reflexivity. Qed.

Lemma singleton_all {V} (k : string) (v : V) (P : string -> V -> Prop) :
  P k v -> forall k' v', ({[k := v]} : gmap string V) !! k' = Some v' -> P k' v'.
Proof. by intros HP k' v' [<- <-]%lookup_singleton_Some. Qed.

Lemma reconcile_snapshot_roundtrip_witness :
  LoadLatestSnapshot (SaveSnapshot NewMemoryStore demo_local).1 = Ok (Some demo_local).
Proof.
  apply (reconcile_snapshot_roundtrip NewMemoryStore); [|reflexivity].
  unfold state_wf, demo_local. cbn [bs_LatestSequenceByChannel bs_CommittedTransactionIDs
    bs_CustodyStatusByBundle bs_ContextStateDigest bs_PendingBundleIDs bs_Bundles].
  split_and!; [| |done|done| |].
  - apply singleton_all. split; [done|unfold is_u64, two64; lia].
  - by apply singleton_all.
  - by intros id ->%list_elem_of_singleton.
  - apply singleton_all. split; [done|]. repeat split; cbn; lia.
Defined.
