(* ===== verification/BundleScenario.v ===== *)
(** * The bundle scenario: bundle/evidence/evidence.go

    A scripted run over the bundle components: a context frame becomes bundles, each
    bundle is taken into custody by five validators, delivered, retransmitted and
    reconciled with a peer, and the run is written up.  What the operating system does
    with the files and [filepath.Join] are parameters. *)

From S2P Require Import Prelude Sha256 Json JsonParse JsonDecode JsonIndent Identity Crypto State Protocol Quorum Codec Store Bundle Channel AiContext Custody Reconcile.
Local Open Scope string_scope.
Local Open Scope Z_scope.

Record SchedulingDecision := mkDecision {
  sd_Order : Z;
  sd_ChannelID : string;
  sd_ItemID : string;
  sd_Sequence : Z;
  sd_Priority : Z;
  sd_BundleID : string;
  sd_Transaction : string
}.

Record CustodyEventEvidence := mkCustodyEvidence {
  cv_BundleID : string;
  cv_TransactionID : string;
  cv_EventDigest : string;
  cv_QuorumSize : Z;
  cv_Confirmed : bool
}.

Record Evidence := mkEvidence {
  be_ChannelDefinitions : list Policy;
  be_SchedulingDecisions : list SchedulingDecision;
  be_BundleIDs : list string;
  be_SequenceNumbers : list Z;
  be_TransactionIDs : list string;
  be_CustodyEvents : list CustodyEventEvidence;
  be_QuorumSize : Z;
  be_CustodyConfirmationStatus : string;
  be_RetransmissionCount : Z;
  be_DuplicateTransactionCount : Z;
  be_ReconciledBundleCount : Z;
  be_EvictedContextItemCount : Z;
  be_FinalStateDigest : string;
  be_MockAIRequestDigest : string;
  be_MockAIResponseDigest : string;
  be_Limitations : string;
  be_OutputJSON : string;
  be_OutputText : string
}.

(** ** The artifacts *)

Definition Policy_json (p : Policy) : json :=
  JObj [("channel_id", JStr (pl_ChannelID p)); ("channel_type", JStr (pl_ChannelType p));
        ("priority_weight", JInt (pl_PriorityWeight p)); ("max_items", JInt (pl_MaxItems p));
        ("max_bytes", JInt (pl_MaxBytes p)); ("compression", JStr (pl_Compression p));
        ("eviction_policy", JStr (pl_EvictionPolicy p))].

Definition SchedulingDecision_json (d : SchedulingDecision) : json :=
  JObj [("order", JInt (sd_Order d)); ("channel_id", JStr (sd_ChannelID d)); ("item_id", JStr (sd_ItemID d));
        ("sequence", JInt (sd_Sequence d)); ("priority", JInt (sd_Priority d));
        ("bundle_id", JStr (sd_BundleID d)); ("transaction_id", JStr (sd_Transaction d))].

Definition CustodyEventEvidence_json (c : CustodyEventEvidence) : json :=
  JObj [("bundle_id", JStr (cv_BundleID c)); ("transaction_id", JStr (cv_TransactionID c));
        ("event_digest", JStr (cv_EventDigest c)); ("quorum_size", JInt (cv_QuorumSize c));
        ("confirmed", JBool (cv_Confirmed c))].

Definition Evidence_json (e : Evidence) : json :=
  JObj ([("channel_definitions", list_json Policy_json (be_ChannelDefinitions e));
         ("scheduling_decisions", list_json SchedulingDecision_json (be_SchedulingDecisions e));
         ("bundle_ids", list_json JStr (be_BundleIDs e));
         ("sequence_numbers", list_json JInt (be_SequenceNumbers e));
         ("transaction_ids", list_json JStr (be_TransactionIDs e));
         ("custody_events", list_json CustodyEventEvidence_json (be_CustodyEvents e));
         ("quorum_size", JInt (be_QuorumSize e));
         ("custody_confirmation_status", JStr (be_CustodyConfirmationStatus e));
         ("retransmission_count", JInt (be_RetransmissionCount e));
         ("duplicate_transaction_count", JInt (be_DuplicateTransactionCount e));
         ("reconciled_bundle_count", JInt (be_ReconciledBundleCount e));
         ("evicted_context_item_count", JInt (be_EvictedContextItemCount e));
         ("final_state_digest", JStr (be_FinalStateDigest e));
         ("mock_ai_request_digest", JStr (be_MockAIRequestDigest e));
         ("mock_ai_response_digest", JStr (be_MockAIResponseDigest e));
         ("limitations", JStr (be_Limitations e))] ++
        omit_str "output_json" (be_OutputJSON e) ++ omit_str "output_text" (be_OutputText e))%list.

Definition short (value : string) : string := if len value <=? 16 then value else prefix 16 value.

Definition count {A} (l : list A) : Z := Z.of_nat (length l).

Definition TextSummary (e : Evidence) : string :=
  "pq-fabric bundle protocol evidence" ++ newline ++
  "channels=" ++ itoa (count (be_ChannelDefinitions e)) ++ " bundles=" ++ itoa (count (be_BundleIDs e)) ++
  " custody=" ++ be_CustodyConfirmationStatus e ++ " quorum=" ++ itoa (be_QuorumSize e) ++ newline ++
  "scheduled=" ++ itoa (count (be_SchedulingDecisions e)) ++ " retransmissions=" ++ itoa (be_RetransmissionCount e) ++
  " duplicates=" ++ itoa (be_DuplicateTransactionCount e) ++ " reconciled=" ++ itoa (be_ReconciledBundleCount e) ++
  " evicted=" ++ itoa (be_EvictedContextItemCount e) ++ newline ++
  "mock_request_digest=" ++ short (be_MockAIRequestDigest e) ++ newline ++
  "mock_response_digest=" ++ short (be_MockAIResponseDigest e) ++ newline ++
  "final_state_digest=" ++ short (be_FinalStateDigest e) ++ newline ++
  "limitations=" ++ be_Limitations e ++ newline.

(** What making a directory and writing a file report, and [filepath.Join]. *)
Record Files := mkFiles {
  bf_MkdirAll : string -> result unit;
  bf_WriteFile : string -> string -> result unit;
  bf_Join : string -> string -> string
}.

Definition WriteArtifacts (fs : Files) (outputDir : string) (e : Evidence) : result unit :=
  _ ← bf_MkdirAll fs outputDir;
  _ ← bf_WriteFile fs (bf_Join fs outputDir "bundle-evidence.json") (MarshalIndent (Evidence_json e) ++ newline);
  bf_WriteFile fs (bf_Join fs outputDir "bundle-evidence.txt") (TextSummary e).

(** ** The run *)

Definition limitations : string :=
  "Local deterministic prototype only: no live AI API calls, no production transport reliability, no production BFT safety, no data-sovereignty claim, and no FIPS/ACVTS/anonymity claim.".

Definition inputs : list (string * string * string * Z) :=
  [(TypeConversation, "conv-1", "user: summarize the validator state", 1);
   (TypeWorkingMemory, "mem-1", "remember quorum threshold is 5-of-7", 2);
   (TypeExecution, "exec-1", "tool: inspect local bundle queue", 3);
   (TypeRetrieval, "ret-1", "retrieved: private testbed routing notes", 4)].

(** The response as the provider encodes it. *)
Definition ChatResponse_json (r : ChatCompletionResponse) : json :=
  JObj [("id", JStr (cp_ID r)); ("object", JStr (cp_Object r));
        ("choices", list_json (fun c => JObj [("index", JInt (cc_Index c));
                                               ("message", ChatMessage_json (cc_Message c));
                                               ("finish_reason", JStr (cc_FinishReason c))]) (cp_Choices r))].

Section scenario.
Context (gzip gunzip : string -> result string).

Fixpoint add_inputs (ins : list (string * string * string * Z)) (m : Manager) : result Manager :=
  match ins with
  | [] => Ok m
  | (channel, id, content, tick) :: ins =>
      let '(m, added) := AddItem gzip gunzip channel id content tick m in _ ← added; add_inputs ins m
  end.

Definition item_envelope (item : ContextItem) : result Envelope :=
  NewEnvelope (mkEnvelopeInput "ai-client" "ai-agent" (ci_ChannelType item) (ci_ChannelType item)
    (ci_Sequence item) ("tx-" ++ ci_ID item) (ci_CreatedTick item) (u64 (ci_CreatedTick item + 100))
    (ci_Priority item) (ci_Content item) "" true "" "").

Fixpoint item_envelopes (items : list ContextItem) : result (list Envelope) :=
  match items with
  | [] => Ok []
  | item :: items => env ← item_envelope item; envs ← item_envelopes items; Ok (env :: envs)
  end.

Definition decision (order : nat) (p : ContextItem * Envelope) : SchedulingDecision :=
  mkDecision (Z.of_nat order + 1) (ci_ChannelType p.1) (ci_ID p.1) (ci_Sequence p.1) (ci_Priority p.1)
    (ev_BundleID p.2) (ev_TransactionID p.2).

(** The context manager after the inputs, its frame and the bundles made of it. *)
Definition prepare : result (Manager * Frame * list Envelope) :=
  m ← AiContext.NewManager 4096;
  m ← add_inputs inputs m;
  frame ← AssembleFrame gunzip 0 m;
  envelopes ← item_envelopes (fr_Items frame);
  Ok (m, frame, envelopes).

(** *** Custody *)

Definition custody_event (env : Envelope) (bundleDigest : string) : Event :=
  Custody.mkEvent (ev_BundleID env) (ev_TransactionID env) (ev_SourceNodeID env) "validator-1"
    (ev_DestinationNodeID env) bundleDigest (ev_SequenceNumber env) (u64 (ev_CreationTick env + 10))
    (mkQC 0 0 "" "" "" 0 0 "" 0 0 []).

Definition take_custody (now : Time) (selected : CryptoSuite) (identities : gmap string ValidatorIdentity)
    (env : Envelope) (store : MemoryStore) : result (MemoryStore * CustodyEventEvidence) :=
  bundleDigest ← Envelope_Digest env;
  let event := custody_event env bundleDigest in
  votes ← SignEventVotes event (take 5 DefaultValidatorIDs) selected;
  confirmation ← Confirm now event votes identities (cs_NewVerifier selected) 5;
  match ApplyConfirmation store now confirmation with
  | (_, (_, Some e)) => Err e
  | (store, (_, None)) =>
      Ok (store, mkCustodyEvidence (ev_BundleID env) (ev_TransactionID env) (cf_EventDigest confirmation)
                   (cf_QuorumSize confirmation) (cf_Confirmed confirmation))
  end.

Fixpoint custody_loop (now : Time) (selected : CryptoSuite) (identities : gmap string ValidatorIdentity)
    (envs : list Envelope) (store : MemoryStore) : result (list CustodyEventEvidence) :=
  match envs with
  | [] => Ok []
  | env :: envs =>
      '(store, event) ← take_custody now selected identities env store;
      events ← custody_loop now selected identities envs store;
      Ok (event :: events)
  end.

(** *** Delivery *)

(* the order in which a loop ranges over the held bundles, which Go leaves open *)
Context (order : gmap string Envelope -> list (string * Envelope)).

Definition duplicates (r : SubmitResult) : Z := if sb_Duplicate r then 1 else 0.

(** The first loop over the bundles: the first one is confirmed and submitted again. *)
Fixpoint deliver (now : Time) (i : nat) (envs : list Envelope) (q : Queue MemoryStore) : Queue MemoryStore * Z :=
  match envs with
  | [] => (q, 0)
  | env :: envs =>
      let '(q, result) := Submit order now env (ev_CreationTick env) q in
      let '(q, again) := match i with
                         | O => let q := (Queue_Confirm (ev_BundleID env) q).1 in
                                let '(q, duplicate) := Submit order now env (ev_CreationTick env) q in
                                (q, duplicates duplicate)
                         | S _ => (q, 0)
                         end in
      let '(q, rest) := deliver now (S i) envs q in
      (q, duplicates result + again + rest)
  end.

Fixpoint retransmit (now : Time) (envs : list Envelope) (q : Queue MemoryStore) : Queue MemoryStore * Z :=
  match envs with
  | [] => (q, 0)
  | env :: envs =>
      let '(q, retry) := Submit order now env (ev_CreationTick env) q in
      let q := (Queue_Confirm (ev_BundleID env) q).1 in
      let '(q, rest) := retransmit now envs q in
      (q, duplicates retry + rest)
  end.

(** The bundles retransmitted, and the duplicates seen. *)
Definition deliver_all (now : Time) (envs : list Envelope) : Z * Z :=
  let '(q, first) := deliver now 0 envs (NewQueue NewLedger) in
  let pending := PendingForRetransmit order q in
  (count pending, first + (retransmit now pending q).2).

(** *** Reconciliation *)

Definition hold (env : Envelope) (digest : string) (s : BundleState) : BundleState :=
  mkBundleState (<[ev_ChannelID env := ev_SequenceNumber env]> (bs_LatestSequenceByChannel s))
    (<[ev_TransactionID env := digest]> (bs_CommittedTransactionIDs s))
    (<[ev_BundleID env := "confirmed"]> (bs_CustodyStatusByBundle s)) (bs_ContextStateDigest s)
    (bs_PendingBundleIDs s)
    (<[ev_BundleID env := mkBundleRecord (ev_BundleID env) digest (ev_TransactionID env) (ev_ChannelID env)
                            (ev_SequenceNumber env)]> (bs_Bundles s)).

Fixpoint two_states (i : nat) (envs : list Envelope) (localState remoteState : BundleState)
    : result (BundleState * BundleState) :=
  match envs with
  | [] => Ok (localState, remoteState)
  | env :: envs =>
      digest ← Envelope_Digest env;
      two_states (S i) envs
        (match i with
         | O => hold env digest localState
         | S _ => Reconcile.set_pending (bs_PendingBundleIDs localState ++ [ev_BundleID env])%list localState
         end)
        (hold env digest remoteState)
  end.

Definition reconcile_all (envs : list Envelope) : result (BundleState * Z) :=
  '(localState, remoteState) ← two_states 0 envs NewBundleState NewBundleState;
  let plan := Compare localState remoteState in
  match Apply localState remoteState plan with
  | (_, Some e) => Err e
  | (reconciled, None) => Ok (reconciled, count (pn_MissingBundleIDs plan))
  end.

(** *** The mock provider *)

Definition first_choice (r : ChatCompletionResponse) : result string :=
  match cp_Choices r with
  | c :: _ => Ok (cc_Message c).2
  | [] => panic "runtime error: index out of range [0] with length 0"
  end.

(** The digests of the request, of the response and of the context afterwards. *)
Definition consult (m : Manager) : result (string * string * string) :=
  req ← BuildMockRequest gunzip "mock-openai-compatible-local" m;
  reqDigest ← HashCanonical (ChatRequest_json req);
  response ← Complete req;
  respDigest ← HashCanonical (ChatResponse_json response);
  content ← first_choice response;
  let '(m, recorded) := RecordMockResponse gzip gunzip content 99 m in
  _ ← recorded;
  finalDigest ← Digest gunzip m;
  Ok (reqDigest, respDigest, finalDigest).

Definition set_outputs (json text : string) (e : Evidence) : Evidence :=
  mkEvidence (be_ChannelDefinitions e) (be_SchedulingDecisions e) (be_BundleIDs e) (be_SequenceNumbers e)
    (be_TransactionIDs e) (be_CustodyEvents e) (be_QuorumSize e) (be_CustodyConfirmationStatus e)
    (be_RetransmissionCount e) (be_DuplicateTransactionCount e) (be_ReconciledBundleCount e)
    (be_EvictedContextItemCount e) (be_FinalStateDigest e) (be_MockAIRequestDigest e)
    (be_MockAIResponseDigest e) (be_Limitations e) json text.

(** The suite is what [FromEnv] yields. *)
Definition RunScenario (fs : Files) (now : Time) (selected : result CryptoSuite) (outputDir : string)
    : result Evidence :=
  selected ← selected;
  '(m, frame, envelopes) ← prepare;
  identities ← ValidatorIdentitiesForSuite ∅ selected;
  events ← custody_loop now selected identities envelopes NewMemoryStore;
  let '(retransmitted, duplicated) := deliver_all now envelopes in
  '(_, reconciled) ← reconcile_all envelopes;
  '(reqDigest, respDigest, finalDigest) ← consult m;
  let e := mkEvidence (Policies m) (imap decision (zip (fr_Items frame) envelopes))
             (map ev_BundleID envelopes) (map ev_SequenceNumber envelopes) (map ev_TransactionID envelopes)
             events 5 "confirmed" retransmitted duplicated reconciled (count (mg_evictions m)) finalDigest
             reqDigest respDigest limitations "" "" in
  if negb (String.eqb outputDir "") then
    _ ← WriteArtifacts fs outputDir e;
    Ok (set_outputs (bf_Join fs outputDir "bundle-evidence.json") (bf_Join fs outputDir "bundle-evidence.txt") e)
  else Ok e.
End scenario.

(** ** Custody by a lawful suite *)

Section custody.
Context (s : CryptoSuite) `{!LawfulSuite s} (ids : gmap string ValidatorIdentity) (l : list string).
Context (Hids : suite_identities s ids l).
#[local] Set Default Proof Using "All".

Lemma sign_votes_ok digest voters : digest <> "" -> voters ⊆ l -> exists votes,
  sign_votes digest voters s = Ok votes /\ map v_VoterID votes = voters /\
  Forall (quorum_vote s ids 1 0 StagePrecommit digest) votes.
Proof.
  intros Hd. induction voters as [|voter voters IH]; intros Hsub; [by exists []|].
  destruct IH as (votes & Hv & Hnames & Hall); [set_solver|].
  destruct (suite_vote s ids l Hids 1 0 StagePrecommit digest) with (voter := voter) as (signer & v & Hs & Hsv & Hid & Hq);
    [done|done|done|set_solver|].
  cbn [sign_votes]. rewrite Hs, Hsv. cbn [mbind result_bind]. rewrite Hv. cbn [mbind result_bind].
  eexists. split; [reflexivity|]. cbn. by rewrite Hid, Hnames; split; [|constructor].
Qed.

(** Five of the suite's validators confirm any event. *)
Lemma confirmed now event digest : Event_Digest event = Ok digest -> digest <> "" ->
  take 5 DefaultValidatorIDs ⊆ l -> (5 <= size ids)%nat ->
  exists votes c, SignEventVotes event (take 5 DefaultValidatorIDs) s = Ok votes /\
    Confirm now event votes ids (cs_NewVerifier s) 5 = Ok c /\
    cf_Event c = set_certificate (cf_Certificate c) event /\ cf_EventDigest c = digest /\ cf_Confirmed c = true /\
    cf_QuorumSize c = 5.
Proof.
  intros Hd Hne Hsub Hsize. destruct (sign_votes_ok digest (take 5 DefaultValidatorIDs) Hne Hsub) as (votes & Hv & Hnames & Hall).
  assert (Hlen : length votes = 5%nat). { by rewrite <-(length_map v_VoterID), Hnames. }
  destruct (suite_quorum s ids l Hids 1 0 StagePrecommit digest) with (now := now) (votes := votes) (threshold := 5)
    as (cert & Hform & Hver & _ & _ & Hb & _ & _ & Hcount); [done|done|done|done| |rewrite Hlen; lia|lia|].
  { rewrite Hnames. apply (bool_decide_unpack _). vm_compute. exact I. }
  exists votes. eexists. split; [unfold SignEventVotes; by rewrite Hd|]. split.
  - unfold Confirm. rewrite Hd. cbn [mbind result_bind]. rewrite Hform. cbn [mbind result_bind]. unfold Verify.
    rewrite Hd. cbn [mbind result_bind]. rewrite Hb, String.eqb_refl, Hver. reflexivity.
  - cbn. by rewrite Hcount, Hlen.
Qed.

(** What the run records of a bundle's custody, whatever the suite and the clock. *)
Definition custody_of (env : Envelope) : CustodyEventEvidence :=
  mkCustodyEvidence (ev_BundleID env) (ev_TransactionID env)
    (match Envelope_Digest env with
     | Ok d => match Event_Digest (custody_event env d) with Ok digest => digest | Err _ => "" end
     | Err _ => ""
     end) 5 true.

Definition custody_key (env : Envelope) : string := SnapshotPrefix ++ ev_BundleID env.

Lemma take_custody_ok now env store : take 5 DefaultValidatorIDs ⊆ l -> (5 <= size ids)%nat ->
  ms_idempotency store !! custody_key env = None ->
  exists store', take_custody now s ids env store = Ok (store', custody_of env) /\
    forall k, k <> custody_key env -> ms_idempotency store' !! k = ms_idempotency store !! k.
Proof.
  intros Hsub Hsize Hnew. unfold take_custody, custody_of, Envelope_Digest, CanonicalBytes, CanonicalJSON.
  cbv zeta. cbn [mbind result_bind].
  set (d := HashBytes _). set (event := custody_event env d).
  destruct (confirmed now event (HashBytes (Marshal (eventToDigest_json event)))) as (votes & c & -> & Hc & He & Hd & Hok & Hq);
    [done|apply HashBytes_nonempty|done|done|].
  cbn [mbind result_bind]. rewrite Hc. cbn [mbind result_bind]. unfold ApplyConfirmation. rewrite Hok. cbn [negb].
  cbn [RecordIdempotency memory_store]. unfold Memory.RecordIdempotency. rewrite He.
  change (ce_BundleID (set_certificate (cf_Certificate c) event)) with (ev_BundleID env).
  unfold custody_key in *. rewrite Hnew. cbn [mbind result_bind]. eexists. split; [by rewrite Hd, Hq|].
  intros k Hk. cbn. by rewrite lookup_insert_ne.
Qed.

Lemma custody_loop_ok now envs store : take 5 DefaultValidatorIDs ⊆ l -> (5 <= size ids)%nat ->
  NoDup (map custody_key envs) -> (forall env, env ∈ envs -> ms_idempotency store !! custody_key env = None) ->
  custody_loop now s ids envs store = Ok (map custody_of envs).
Proof.
  intros Hsub Hsize. revert store. induction envs as [|env envs IH]; intros store Hnd Hnew; [done|].
  apply NoDup_cons in Hnd as [Hout Hnd]. cbn [custody_loop map].
  destruct (take_custody_ok now env store) as (store' & -> & Hother); [done|done|apply Hnew; left|].
  cbn [mbind result_bind]. rewrite (IH store'); [done|done|]. intros e He. rewrite Hother; [by apply Hnew; right|].
  intros E. apply Hout. rewrite <-E. by apply list_elem_of_fmap_2.
Qed.
End custody.

(** ** Delivery in whatever order maps are ranged over *)

Section order.
Context (order order' : gmap string Envelope -> list (string * Envelope)) (same : forall m, order m = order' m).
Implicit Types (q : Queue MemoryStore).
#[local] Set Default Proof Using "All".

Lemma drainReady_same fuel now key t q : drainReady order fuel now key t q = drainReady order' fuel now key t q.
Proof.
  revert q. induction fuel as [|fuel IH]; intros q; [done|]. cbn [drainReady]. destruct (expected key q) as [q1 next].
  unfold pick_ready. rewrite same. destruct (List.find _ _) as [[id e]|]; [|done]. destruct (String.eqb id ""); [done|].
  destruct (Envelope_Validate e t); [|apply IH]. destruct (apply_envelope now e _) as [q2 r]. apply IH.
Qed.

Lemma Submit_same now e t q : Submit order now e t q = Submit order' now e t q.
Proof.
  unfold Submit. destruct (Envelope_Validate e t); [|done]. destruct (expected _ q) as [q1 next].
  destruct (next <? _); [done|]. destruct (apply_envelope now e q1) as [q2 r]. unfold drain.
  by rewrite drainReady_same.
Qed.

Lemma deliver_same now i envs q : deliver order now i envs q = deliver order' now i envs q.
Proof.
  revert i q. induction envs as [|e envs IH]; intros i q; [done|]. cbn [deliver]. rewrite Submit_same.
  destruct (Submit order' now e _ q) as [q1 r]. destruct i; [rewrite Submit_same; destruct (Submit order' now e _ _) as [q2 r2]|];
    by rewrite IH.
Qed.

Lemma retransmit_same now envs q : retransmit order now envs q = retransmit order' now envs q.
Proof.
  revert q. induction envs as [|e envs IH]; intros q; [done|]. cbn [retransmit]. rewrite Submit_same.
  destruct (Submit order' now e _ q) as [q1 r]. by rewrite IH.
Qed.
End order.

(** A comparison by a string first. *)
Definition lex_le {A} (f : A -> string) (R : A -> A -> Prop) (a b : A) : Prop :=
  if negb (String.eqb (f a) (f b)) then String.le (f a) (f b) else R a b.

Lemma lex_trans {A} (f : A -> string) (R : A -> A -> Prop) : Transitive R -> Transitive (lex_le f R).
Proof.
  intros HR a b c. unfold lex_le.
  destruct (String.eqb_spec (f a) (f b)) as [E1|E1], (String.eqb_spec (f b) (f c)) as [E2|E2],
    (String.eqb_spec (f a) (f c)) as [E3|E3]; cbn [negb]; intros H1 H2; try congruence.
  - by etransitivity.
  - exfalso. apply E1, (anti_symm String.le); [done|by rewrite E3].
  - by etransitivity.
Qed.

Lemma lex_anti {A} (f : A -> string) (R : A -> A -> Prop) a b :
  lex_le f R a b -> lex_le f R b a -> f a = f b /\ R a b /\ R b a.
Proof.
  unfold lex_le. rewrite (String.eqb_sym (f b)). destruct (String.eqb_spec (f a) (f b)) as [E|E]; cbn [negb]; [done|].
  intros H1 H2. destruct E. by apply (anti_symm String.le).
Qed.

Lemma lex_total {A} (f : A -> string) (R : A -> A -> Prop) : Total R -> Total (lex_le f R).
Proof.
  intros HR a b. unfold lex_le. rewrite (String.eqb_sym (f b)). destruct (String.eqb (f a) (f b)); cbn [negb]; [apply HR|].
  apply (total String.le).
Qed.

Lemma envelope_le_lex : envelope_le =
  lex_le ev_SourceNodeID (lex_le ev_DestinationNodeID (lex_le ev_ChannelID (fun a b => ev_SequenceNumber a <= ev_SequenceNumber b))).
Proof. done. Qed.

#[export] Instance envelope_le_trans : Transitive envelope_le.
Proof. rewrite envelope_le_lex. repeat apply lex_trans. intros a b c. lia. Qed.

#[export] Instance envelope_le_total : Total envelope_le.
Proof. rewrite envelope_le_lex. repeat apply lex_total. intros a b. lia. Qed.

(** What is left to retransmit does not depend on the order of the maps, when nothing
    is held and no two bundles are alike in the order. *)
Lemma PendingForRetransmit_order (order : gmap string Envelope -> list (string * Envelope)) (q : Queue MemoryStore) :
  (forall m, order m ≡ₚ map_to_list m) -> q_gapPending q = ∅ ->
  (forall a b, a ∈ map snd (map_to_list (q_unconfirmed q)) -> b ∈ map snd (map_to_list (q_unconfirmed q)) ->
     envelope_le a b -> envelope_le b a -> a = b) ->
  PendingForRetransmit order q = PendingForRetransmit map_to_list q.
Proof.
  intros Hperm Hgap Hanti. unfold PendingForRetransmit. rewrite Hgap.
  assert (Hempty : order ∅ = []) by (apply Permutation_nil_r; by rewrite (Hperm ∅), map_to_list_empty).
  rewrite Hempty, map_to_list_empty, !app_nil_r.
  assert (Hp : map snd (order (q_unconfirmed q)) ≡ₚ map snd (map_to_list (q_unconfirmed q))) by (by apply Permutation_map).
  apply (sorted_unique_on envelope_le).
  - apply StronglySorted_merge_sort; apply _.
  - apply StronglySorted_merge_sort; apply _.
  - by rewrite !merge_sort_Permutation.
  - intros a b. rewrite !merge_sort_Permutation, Hp. apply Hanti.
Qed.

(** ** The run, evaluated *)

Definition prepared : Manager * Frame * list Envelope := Eval vm_compute in
  match prepare Ok Ok with Ok p => p | Err _ => (Channel.mkManager ∅ [] 0 [], mkFrame [] "", []) end.

Definition consulted : string * string * string := Eval vm_compute in
  match consult Ok Ok prepared.1.1 with Ok p => p | Err _ => ("", "", "") end.

Lemma prepare_ok gzip gunzip : prepare gzip gunzip = Ok prepared.
Proof. vm_compute. reflexivity. Qed.

Lemma consult_ok gzip gunzip : consult gzip gunzip prepared.1.1 = Ok consulted.
Proof. vm_compute. reflexivity. Qed.

Lemma reconcile_count : (r ← reconcile_all prepared.2; Ok r.2) = Ok 3.
Proof. vm_compute. reflexivity. Qed.

Lemma reconcile_ok : exists s, reconcile_all prepared.2 = Ok (s, 3).
Proof. pose proof reconcile_count as H. apply bind_ok in H as ([s n] & -> & [= ->]). by exists s. Qed.

(** The queue after the first loop, and what it leaves to retransmit. *)
Definition delivered : Queue MemoryStore * Z := Eval vm_compute in
  deliver map_to_list (mkTime 0 "") 0 prepared.2 (NewQueue NewLedger).

Definition undelivered : list Envelope := Eval vm_compute in PendingForRetransmit map_to_list delivered.1.

(** An order that is a permutation of a map's elements is nothing on an empty map. *)
Definition on_nonempty (order : gmap string Envelope -> list (string * Envelope)) (m : gmap string Envelope)
    : list (string * Envelope) := match map_to_list m with [] => [] | _ => order m end.

Lemma on_nonempty_same order m : (forall m, order m ≡ₚ map_to_list m) -> order m = on_nonempty order m.
Proof.
  intros Hperm. unfold on_nonempty. destruct (map_to_list m) eqn:E; [|done]. apply Permutation_nil_r. by rewrite Hperm, E.
Qed.

Lemma deliver_ok order now : deliver (on_nonempty order) now 0 prepared.2 (NewQueue NewLedger) = delivered.
Proof. vm_compute. reflexivity. Qed.

Lemma retransmit_ok order now : (retransmit (on_nonempty order) now undelivered delivered.1).2 = 3.
Proof. vm_compute. reflexivity. Qed.

Lemma envelope_le_channel a b : envelope_le a b -> envelope_le b a -> ev_ChannelID a = ev_ChannelID b.
Proof.
  rewrite envelope_le_lex. intros H1 H2. apply lex_anti in H1 as [_ [H1 H2']]; [|done].
  apply lex_anti in H1 as [_ [H1 H2'']]; [|done]. by apply lex_anti in H1 as [E _].
Qed.

Lemma delivered_channels : NoDup (map ev_ChannelID (map snd (map_to_list (q_unconfirmed delivered.1)))).
Proof. apply (bool_decide_eq_true_1 _). vm_compute. reflexivity. Qed.

Lemma undelivered_ok order : (forall m, order m ≡ₚ map_to_list m) ->
  PendingForRetransmit order delivered.1 = undelivered.
Proof.
  intros Hperm. transitivity (PendingForRetransmit map_to_list delivered.1); [|vm_compute; reflexivity].
  apply PendingForRetransmit_order; [done|vm_compute; reflexivity|].
  intros a b Ha Hb H1 H2. pose proof (envelope_le_channel _ _ H1 H2) as E. pose proof delivered_channels as Hnd.
  pose proof (proj2 (lookup_keyed ev_ChannelID _ (ev_ChannelID b) a Hnd) (conj Ha E)) as Hka.
  pose proof (proj2 (lookup_keyed ev_ChannelID _ (ev_ChannelID b) b Hnd) (conj Hb eq_refl)) as Hkb.
  by rewrite Hka in Hkb; injection Hkb.
Qed.

Lemma deliver_all_ok order now : (forall m, order m ≡ₚ map_to_list m) -> deliver_all order now prepared.2 = (3, 4).
Proof.
  intros Hperm. unfold deliver_all. rewrite (deliver_same order (on_nonempty order)), deliver_ok
    by (intros m; by apply on_nonempty_same).
  destruct delivered as [q first] eqn:Ed.
  replace q with delivered.1 by by rewrite Ed. rewrite undelivered_ok by done.
  rewrite (retransmit_same order (on_nonempty order)), retransmit_ok by (intros m; by apply on_nonempty_same).
  replace first with delivered.2 by by rewrite Ed. reflexivity.
Qed.

Lemma custody_keys : NoDup (map custody_key prepared.2).
Proof. apply (bool_decide_eq_true_1 _). vm_compute. reflexivity. Qed.

(** What the run finds. *)
Definition scenario_evidence : Evidence :=
  let '(m, frame, envelopes) := prepared in
  let '(reqDigest, respDigest, finalDigest) := consulted in
  mkEvidence (Policies m) (imap decision (zip (fr_Items frame) envelopes))
    (map ev_BundleID envelopes) (map ev_SequenceNumber envelopes) (map ev_TransactionID envelopes)
    (map custody_of envelopes) 5 "confirmed" 3 4 3 (count (mg_evictions m)) finalDigest
    reqDigest respDigest limitations "" "".

(** C14: the bundle scenario succeeds and its evidence is deterministic.  For every lawful
    suite, clock and order of the maps, the run finds one and the same evidence: the four
    context items go out by priority as four bundles, each taken into custody once by five
    validators, the three that were not confirmed are retransmitted and recognised as
    duplicates with the one sent twice, the peer's three missing bundles are reconciled,
    and nothing is evicted.  With an output directory it also writes that evidence, and
    fails only when a write does. *)
Theorem bundle_scenario :
  map sd_ItemID (be_SchedulingDecisions scenario_evidence) = ["exec-1"; "mem-1"; "conv-1"; "ret-1"] /\
  NoDup (be_BundleIDs scenario_evidence) /\
  map cv_BundleID (be_CustodyEvents scenario_evidence) = be_BundleIDs scenario_evidence /\
  Forall (fun c => cv_Confirmed c = true /\ cv_QuorumSize c = 5) (be_CustodyEvents scenario_evidence) /\
  be_RetransmissionCount scenario_evidence = 3 /\ be_DuplicateTransactionCount scenario_evidence = 4 /\
  be_ReconciledBundleCount scenario_evidence = 3 /\ be_EvictedContextItemCount scenario_evidence = 0 /\
  forall gzip gunzip order fs now s outputDir, LawfulSuite s -> (forall m, order m ≡ₚ map_to_list m) ->
    RunScenario gzip gunzip order fs now (Ok s) outputDir =
    if String.eqb outputDir "" then Ok scenario_evidence
    else _ ← WriteArtifacts fs outputDir scenario_evidence;
         Ok (set_outputs (bf_Join fs outputDir "bundle-evidence.json") (bf_Join fs outputDir "bundle-evidence.txt")
               scenario_evidence).
Proof.
  split_and!; [vm_compute; reflexivity|apply (bool_decide_eq_true_1 _); vm_compute; reflexivity|
    vm_compute; reflexivity|vm_compute; repeat constructor|reflexivity..|].
  intros gzip gunzip order fs now s outputDir Hs Hperm. unfold RunScenario. cbn [mbind result_bind].
  rewrite prepare_ok. cbn [mbind result_bind].
  destruct (ValidatorIdentitiesForSuite_ok s ∅) as (ids & Hids & Hof). rewrite Hids. cbn [mbind result_bind].
  pose proof (deliver_all_ok order now Hperm) as Hd. pose proof (consult_ok gzip gunzip) as Hc.
  destruct reconcile_ok as [rs Hr]. pose proof custody_keys as Hkeys. unfold scenario_evidence in *.
  destruct prepared as [[m frame] envelopes]. cbn [fst snd] in Hd, Hc, Hr, Hkeys.
  assert (Hsize : (5 <= size ids)%nat) by (rewrite <-size_dom, (proj2 Hof); apply (bool_decide_eq_true_1 _); vm_compute; reflexivity).
  rewrite (custody_loop_ok s ids DefaultValidatorIDs Hof) by (done || set_solver). cbn [mbind result_bind].
  rewrite Hd, Hr. cbn [mbind result_bind]. rewrite Hc. cbn [mbind result_bind].
  destruct consulted as [[reqDigest respDigest] finalDigest]. by destruct (String.eqb outputDir "").
Qed.

(** Every write succeeds. *)
Definition demo_files : Files :=
  mkFiles (fun _ => Ok tt) (fun _ _ => Ok tt) (fun dir name => dir ++ "/" ++ name).

Lemma bundle_scenario_witness :
  RunScenario Ok Ok map_to_list demo_files (mkTime 7 "") (Ok demo_pq) "" = Ok scenario_evidence /\
  RunScenario Ok Ok map_to_list demo_files (mkTime 7 "") (Ok demo_pq) "out"
  = Ok (set_outputs "out/bundle-evidence.json" "out/bundle-evidence.txt" scenario_evidence).
Proof.
  destruct bundle_scenario as (_ & _ & _ & _ & _ & _ & _ & _ & H).
  split; [apply (H Ok Ok map_to_list demo_files _ demo_pq ""); [apply demo_pq_lawful|done]|].
  rewrite (H Ok Ok map_to_list demo_files _ demo_pq "out"); [reflexivity|apply demo_pq_lawful|done].
Defined.
