(* ===== verification/FileStore.v ===== *)
(** * The file store: core/storage/file.go

    A validator's records in a directory: the state in one file that is replaced
    atomically, the others appended to logs of one JSON object a line, synced
    before the record is kept in memory, and read back when the store is opened.
    The disk is a map from file names to contents; each write of it may fail, and
    may leave a part of what it was to write. *)

From S2P Require Import Prelude Sha256 Json JsonParse JsonDecode JsonIndent Identity State Protocol Codec Store.
Local Open Scope Z_scope.

(** ** The disk *)

(** How a write ends: done, or with an error when [written] bytes were written. *)
Inductive outcome := IoOk | IoErr (written : nat) (e : error).

(** The outcomes to come; every write succeeds once the list is used up. *)
Record Disk := mkDisk { dk_files : gmap string string; dk_outcomes : list outcome }.

Definition next_outcome (d : Disk) : outcome * Disk :=
  match dk_outcomes d with
  | [] => (IoOk, d)
  | o :: os => (o, mkDisk (dk_files d) os)
  end.

Definition contents (name : string) (d : Disk) : string := default ""%string (dk_files d !! name).

Definition put (name text : string) (d : Disk) : Disk := mkDisk (<[name := text]> (dk_files d)) (dk_outcomes d).

(** Opening for appending, writing, syncing: a failure may come after a part of the line. *)
Definition appendJSONLine (name : string) (value : json) (d : Disk) : Disk * result unit :=
  let data := (Marshal value ++ newline)%string in
  let '(o, d) := next_outcome d in
  match o with
  | IoOk => (put name (contents name d ++ data) d, Ok tt)
  | IoErr O e => (d, Err e)
  | IoErr n e => (put name (contents name d ++ prefix n data) d, Err e)
  end.

(** Writing a temporary file and renaming it, then syncing the directory: the
    file is the old one or the new one, also when an error is reported. *)
Definition atomicWriteFile (name data : string) (d : Disk) : Disk * result unit :=
  let '(o, d) := next_outcome d in
  match o with
  | IoOk => (put name data d, Ok tt)
  | IoErr O e => (d, Err e)
  | IoErr _ e => (put name data d, Err e)
  end.

(** ** The records as JSON *)

Definition ValidatorState_json (s : ValidatorState) : json :=
  JObj ([("node_id", JStr (st_NodeID s)); ("region", JStr (st_Region s)); ("height", JInt (st_Height s));
         ("round", JInt (st_Round s)); ("last_hash", JStr (st_LastHash s));
         ("state_digest", JStr (st_StateDigest s))] ++
        omit_int "locked_height" (st_LockedHeight s) ++ omit_int "locked_round" (st_LockedRound s) ++
        omit_str "locked_block_hash" (st_LockedBlockHash s) ++
        [("commit_count", JInt (st_CommitCount s)); ("identity_key_id", JStr (st_IdentityKeyID s));
         ("signature_algorithm", JStr (st_SignatureAlgorithm s));
         ("kem_algorithm", JStr (st_KEMAlgorithm s));
         ("updated_at_unix_milli", JInt (st_UpdatedAtUnixMilli s))])%list.

Definition ValidatorState_of (fs : list (string * json)) : result ValidatorState :=
  node_id ← get_string "node_id" fs;
  region ← get_string "region" fs;
  height ← get_uint64 "height" fs;
  round ← get_uint64 "round" fs;
  last_hash ← get_string "last_hash" fs;
  digest ← get_string "state_digest" fs;
  locked_height ← get_uint64 "locked_height" fs;
  locked_round ← get_uint64 "locked_round" fs;
  locked_hash ← get_string "locked_block_hash" fs;
  count ← get_int "commit_count" fs;
  key ← get_string "identity_key_id" fs;
  algorithm ← get_string "signature_algorithm" fs;
  kem ← get_string "kem_algorithm" fs;
  updated ← get_int "updated_at_unix_milli" fs;
  Ok (mkValidatorState node_id region height round last_hash digest locked_height locked_round
        locked_hash count key algorithm kem updated).

Definition CommitRecord_json (r : CommitRecord) : json :=
  JObj [("height", JInt (cr_Height r)); ("round", JInt (cr_Round r)); ("block_hash", JStr (cr_BlockHash r));
        ("state_digest", JStr (cr_StateDigest r)); ("commit_json", bytes_json (cr_CommitJSON r));
        ("certificate_json", bytes_json (cr_CertificateJSON r));
        ("identity_key_id", JStr (cr_IdentityKeyID r));
        ("created_at_unix_milli", JInt (cr_CreatedAtUnixMilli r))].

Definition CommitRecord_of (fs : list (string * json)) : result CommitRecord :=
  height ← get_uint64 "height" fs;
  round ← get_uint64 "round" fs;
  hash ← get_string "block_hash" fs;
  digest ← get_string "state_digest" fs;
  commit ← get_bytes "commit_json" fs;
  certificate ← get_bytes "certificate_json" fs;
  key ← get_string "identity_key_id" fs;
  created ← get_int "created_at_unix_milli" fs;
  Ok (mkCommitRecord height round hash digest commit certificate key created).

Definition IdempotencyRecord_json (r : IdempotencyRecord) : json :=
  JObj [("id", JStr (ir_ID r)); ("result_hash", JStr (ir_ResultHash r));
        ("applied_at_unix_milli", JInt (ir_AppliedAtUnixMilli r))].

Definition IdempotencyRecord_of (fs : list (string * json)) : result IdempotencyRecord :=
  id ← get_string "id" fs;
  hash ← get_string "result_hash" fs;
  applied ← get_int "applied_at_unix_milli" fs;
  Ok (mkIdempotencyRecord id hash applied).

Definition SnapshotRecord_json (r : SnapshotRecord) : json :=
  JObj [("id", JStr (sr_ID r)); ("height", JInt (sr_Height r)); ("last_hash", JStr (sr_LastHash r));
        ("snapshot_json", bytes_json (sr_SnapshotJSON r));
        ("created_at_unix_milli", JInt (sr_CreatedAtUnixMilli r))].

Definition SnapshotRecord_of (fs : list (string * json)) : result SnapshotRecord :=
  id ← get_string "id" fs;
  height ← get_uint64 "height" fs;
  hash ← get_string "last_hash" fs;
  snapshot ← get_bytes "snapshot_json" fs;
  created ← get_int "created_at_unix_milli" fs;
  Ok (mkSnapshotRecord id height hash snapshot created).

Definition EvidenceRecord_json (r : EvidenceRecord) : json :=
  JObj [("evidence_id", JStr (er_EvidenceID r)); ("receipt_id", JStr (er_ReceiptID r));
        ("event_hash", JStr (er_EventHash r)); ("qc_hash", JStr (er_QCHash r));
        ("commit_height", JInt (er_CommitHeight r));
        ("submitting_organization", JStr (er_SubmittingOrg r));
        ("idempotency_key", JStr (er_IdempotencyKey r)); ("receipt_json", bytes_json (er_ReceiptJSON r));
        ("created_at_unix_milli", JInt (er_CreatedAtUnixMilli r))].

Definition EvidenceRecord_of (fs : list (string * json)) : result EvidenceRecord :=
  id ← get_string "evidence_id" fs;
  receipt ← get_string "receipt_id" fs;
  event ← get_string "event_hash" fs;
  qc ← get_string "qc_hash" fs;
  height ← get_uint64 "commit_height" fs;
  org ← get_string "submitting_organization" fs;
  key ← get_string "idempotency_key" fs;
  json ← get_bytes "receipt_json" fs;
  created ← get_int "created_at_unix_milli" fs;
  Ok (mkEvidenceRecord id receipt event qc height org key json created).

Definition AuditRecord_json (r : AuditRecord) : json :=
  JObj ([("request_id", JStr (ar_RequestID r)); ("timestamp_unix_milli", JInt (ar_TimestampUnixMilli r))] ++
        omit_str "principal_id" (ar_PrincipalID r) ++ omit_str "organization" (ar_Organization r) ++
        [("method", JStr (ar_Method r)); ("path", JStr (ar_Path r));
         ("status_code", JInt (ar_StatusCode r)); ("duration_millis", JInt (ar_DurationMillis r))] ++
        omit_str "client_addr" (ar_ClientAddr r) ++ omit_str "denied_reason" (ar_DeniedReason r))%list.

Definition AuditRecord_of (fs : list (string * json)) : result AuditRecord :=
  id ← get_string "request_id" fs;
  timestamp ← get_int "timestamp_unix_milli" fs;
  principal ← get_string "principal_id" fs;
  organization ← get_string "organization" fs;
  method ← get_string "method" fs;
  path ← get_string "path" fs;
  status ← get_int "status_code" fs;
  duration ← get_int "duration_millis" fs;
  client ← get_string "client_addr" fs;
  denied ← get_string "denied_reason" fs;
  Ok (mkAuditRecord id timestamp principal organization method path status duration client denied).

(** ** Reading a log back *)

(** [bufio.MaxScanTokenSize]: a line must leave room for its line break. *)
Definition MaxScanTokenSize : Z := 65536.

(** The scanner's lines; what follows the last line break is one if it is not empty. *)
Definition scan_lines (data : string) : list string :=
  match rev (SplitByte "010" data) with
  | EmptyString :: lines => rev lines
  | lines => rev lines
  end.

Definition drop_cr (line : string) : string :=
  match rev (list_ascii_of_string line) with
  | "013"%char :: r => string_of_list_ascii (rev r)
  | _ => line
  end.

Section load_lines.
Context {T A : Type} (path : string) (dec : list (string * json) -> result T)
  (handle : Z -> T -> A -> result A).

Fixpoint load_from (line : Z) (lines : list string) (a : A) : result A :=
  match lines with
  | [] => Ok a
  | raw :: lines =>
      if MaxScanTokenSize <=? len raw then fail "bufio.Scanner: token too long"
      else
        let line := line + 1 in
        let token := drop_cr raw in
        if String.eqb token "" then load_from line lines a
        else
          match Unmarshal dec token with
          | Err e => Err (prefix_err ("parse " ++ path ++ " line " ++ itoa line) e)
          | Ok record =>
              match handle line record a with
              | Err e => Err (prefix_err ("validate " ++ path ++ " line " ++ itoa line) e)
              | Ok a => load_from line lines a
              end
          end
  end.

(** A file that does not exist has no lines. *)
Definition loadJSONLines (data : result (option string)) (a : A) : result A :=
  data ← data; load_from 0 (scan_lines (default ""%string data)) a.
End load_lines.

Definition load_commit (line : Z) (record : CommitRecord) (commits : gmap Z CommitRecord)
    : result (gmap Z CommitRecord) :=
  if cr_Height record =? 0 then Err (errorf ["commit line "; itoa line; " has zero height"])
  else if String.eqb (cr_BlockHash record) "" then Err (errorf ["commit line "; itoa line; " missing block hash"])
  else if String.eqb (cr_CommitJSON record) "" then Err (errorf ["commit line "; itoa line; " missing commit JSON"])
  else if match commits !! cr_Height record with
          | Some existing => negb (String.eqb (cr_BlockHash existing) (cr_BlockHash record))
          | None => false
          end then Err (errorf ["conflicting commit records at height "; itoa (cr_Height record)])
  else Ok (<[cr_Height record := record]> commits).

Definition load_idempotency (line : Z) (record : IdempotencyRecord) (m : gmap string IdempotencyRecord)
    : result (gmap string IdempotencyRecord) :=
  if String.eqb (ir_ID record) "" then Err (errorf ["idempotency line "; itoa line; " missing id"])
  else if String.eqb (ir_ResultHash record) "" then
    Err (errorf ["idempotency line "; itoa line; " missing result hash"])
  else if match m !! ir_ID record with
          | Some existing => negb (String.eqb (ir_ResultHash existing) (ir_ResultHash record))
          | None => false
          end then Err (errorf ["conflicting idempotency records for "; ir_ID record])
  else Ok (<[ir_ID record := record]> m).

Definition load_snapshot (line : Z) (record : SnapshotRecord) (l : list SnapshotRecord)
    : result (list SnapshotRecord) :=
  if String.eqb (sr_ID record) "" then Err (errorf ["snapshot line "; itoa line; " missing id"])
  else Ok (l ++ [record])%list.

(** The four maps of the evidence. *)
Record EvidenceIndex := mkEvidenceIndex {
  ei_evidence : gmap string EvidenceRecord;
  ei_receipts : gmap string string;
  ei_byQ : gmap string string;
  ei_byI : gmap string string
}.

Definition indexEvidenceLocked (record : EvidenceRecord) (i : EvidenceIndex) : EvidenceIndex :=
  mkEvidenceIndex
    (<[er_EvidenceID record := record]> (ei_evidence i))
    (<[er_ReceiptID record := er_EvidenceID record]> (ei_receipts i))
    (if negb (String.eqb (er_QCHash record) "")
     then <[er_QCHash record := er_EvidenceID record]> (ei_byQ i) else ei_byQ i)
    (if negb (String.eqb (er_IdempotencyKey record) "")
     then <[er_IdempotencyKey record := er_EvidenceID record]> (ei_byI i) else ei_byI i).

Definition load_evidence (line : Z) (record : EvidenceRecord) (i : EvidenceIndex) : result EvidenceIndex :=
  if String.eqb (er_EvidenceID record) "" then Err (errorf ["evidence line "; itoa line; " missing evidence id"])
  else if String.eqb (er_ReceiptID record) "" then Err (errorf ["evidence line "; itoa line; " missing receipt id"])
  else if String.eqb (er_ReceiptJSON record) "" then
    Err (errorf ["evidence line "; itoa line; " missing receipt JSON"])
  else if match ei_evidence i !! er_EvidenceID record with
          | Some existing => negb (String.eqb (er_ReceiptID existing) (er_ReceiptID record))
          | None => false
          end then Err (errorf ["conflicting evidence records for "; er_EvidenceID record])
  else if match ei_receipts i !! er_ReceiptID record with
          | Some existingID => negb (String.eqb existingID (er_EvidenceID record))
          | None => false
          end then Err (errorf ["conflicting receipt id "; er_ReceiptID record])
  else if negb (String.eqb (er_IdempotencyKey record) "") &&
          match ei_byI i !! er_IdempotencyKey record with
          | Some existingID => negb (String.eqb existingID (er_EvidenceID record))
          | None => false
          end then Err (errorf ["conflicting idempotency key "; er_IdempotencyKey record])
  else Ok (indexEvidenceLocked record i).

Definition load_audit (line : Z) (record : AuditRecord) (l : list AuditRecord) : result (list AuditRecord) :=
  if String.eqb (ar_RequestID record) "" then Err (errorf ["audit line "; itoa line; " missing request id"])
  else if String.eqb (ar_Method record) "" || String.eqb (ar_Path record) "" then
    Err (errorf ["audit line "; itoa line; " missing method or path"])
  else if ar_StatusCode record =? 0 then Err (errorf ["audit line "; itoa line; " missing status code"])
  else Ok (l ++ [record])%list.

(** ** Opening a store *)

Definition stateFile : string := "validator_state.json".
Definition commitLogFile : string := "commits.jsonl".
Definition idempotencyFile : string := "idempotency.jsonl".
Definition snapshotFile : string := "snapshots.jsonl".
Definition evidenceFile : string := "evidence.jsonl".
Definition auditFile : string := "audit.jsonl".

(** The records in memory are those of [MemoryStore]: the two types have the
    same fields. *)
Record FileStore := mkFileStore { fl_memory : MemoryStore; fl_disk : Disk; fl_closed : bool }.

Definition loadState (data : result (option string)) : result (ValidatorState * bool) :=
  match data with
  | Err e => Err (prefix_err "read durable validator state" e)
  | Ok None => Ok (zero_state, false)
  | Ok (Some text) =>
      match Unmarshal ValidatorState_of text with
      | Err e => Err (prefix_err "parse durable validator state" e)
      | Ok state => Ok (state, true)
      end
  end.

Section open.
(* [filepath.Join] with the data directory, and the reading of a file *)
Context (path : string -> string) (read : string -> result (option string)).

Definition load : result MemoryStore :=
  state ← loadState (read stateFile);
  commits ← loadJSONLines (path commitLogFile) CommitRecord_of load_commit (read commitLogFile) ∅;
  idempotency ← loadJSONLines (path idempotencyFile) IdempotencyRecord_of load_idempotency
                  (read idempotencyFile) ∅;
  snapshots ← loadJSONLines (path snapshotFile) SnapshotRecord_of load_snapshot (read snapshotFile) [];
  i ← loadJSONLines (path evidenceFile) EvidenceRecord_of load_evidence (read evidenceFile)
        (mkEvidenceIndex ∅ ∅ ∅ ∅);
  audit ← loadJSONLines (path auditFile) AuditRecord_of load_audit (read auditFile) [];
  Ok (mkMemoryStore state.1 state.2 commits idempotency snapshots (ei_evidence i) (ei_receipts i)
        (ei_byQ i) (ei_byI i) audit).

Definition OpenFileStore (dataDir : string) (mkdir : result unit) (d : Disk) : result FileStore :=
  if String.eqb dataDir "" then fail "durable storage data dir is required"
  else
    match mkdir with
    | Err e => Err (prefix_err "create durable storage data dir" e)
    | Ok _ => memory ← load; Ok (mkFileStore memory d false)
    end.
End open.

(** Reading the files of a disk. *)
Definition read_disk (d : Disk) (name : string) : result (option string) := Ok (dk_files d !! name).

(** ** Operations *)

Definition closed_error : error := errors_New "durable store is closed".

Definition set_memory (m : MemoryStore) (s : FileStore) : FileStore := mkFileStore m (fl_disk s) (fl_closed s).
Definition set_disk (d : Disk) (s : FileStore) : FileStore := mkFileStore (fl_memory s) d (fl_closed s).

(** Reading the memory of an open store. *)
Definition reading {A} (f : MemoryStore -> result A) (s : FileStore) : result A :=
  if fl_closed s then Err closed_error else f (fl_memory s).

(** Changing an open store. *)
Definition writing {A} (m : M FileStore A) : M FileStore A := fun s =>
  if fl_closed s then (s, Err closed_error) else m s.

Definition append_line (name : string) (value : json) : M FileStore unit := fun s =>
  let '(d, r) := appendJSONLine name value (fl_disk s) in (set_disk d s, r).

Definition writeStateLocked (state : ValidatorState) : M FileStore unit := fun s =>
  let '(d, r) := atomicWriteFile stateFile (MarshalIndent (ValidatorState_json state) ++ newline)
                   (fl_disk s) in (set_disk d s, r).

Definition in_memory (f : MemoryStore -> MemoryStore) : M FileStore unit := fun s =>
  (set_memory (f (fl_memory s)) s, Ok tt).

Module File.

Definition SaveValidatorState (s : FileStore) (state : ValidatorState) : FileStore * result unit :=
  writing (_ ← writeStateLocked state; in_memory (set_state state)) s.

Definition SaveCommit (s : FileStore) (record : CommitRecord) (state : ValidatorState)
    : FileStore * result unit :=
  writing
    (commits ← gets (fun s => ms_commits (fl_memory s));
     match commits !! cr_Height record with
     | Some existing =>
         _ ← guard_err (negb (String.eqb (cr_BlockHash existing) (cr_BlockHash record)))
               (errorf ["conflicting durable commit at height "; itoa (cr_Height record)]);
         _ ← writeStateLocked state;
         in_memory (set_state state)
     | None =>
         _ ← append_line commitLogFile (CommitRecord_json record);
         _ ← in_memory (set_commits (<[cr_Height record := record]> commits));
         _ ← writeStateLocked state;
         in_memory (set_state state)
     end) s.

Definition RecordIdempotency (s : FileStore) (now : Time) (id resultHash : string)
    : FileStore * result (bool * string) :=
  writing
    (m ← gets (fun s => ms_idempotency (fl_memory s));
     match m !! id with
     | Some existing => mret (false, ir_ResultHash existing)
     | None =>
         let record := mkIdempotencyRecord id resultHash (UnixMilli now) in
         _ ← append_line idempotencyFile (IdempotencyRecord_json record);
         _ ← in_memory (set_idempotency (<[id := record]> m));
         mret (true, resultHash)
     end) s.

Definition SaveSnapshot (s : FileStore) (record : SnapshotRecord) : FileStore * result unit :=
  writing
    (_ ← append_line snapshotFile (SnapshotRecord_json record);
     in_memory (fun m => set_snapshots (ms_snapshots m ++ [record])%list m)) s.

Definition index_of (m : MemoryStore) : EvidenceIndex :=
  mkEvidenceIndex (ms_evidence m) (ms_receipts m) (ms_evidenceByQ m) (ms_evidenceByI m).

Definition set_index (i : EvidenceIndex) (m : MemoryStore) : MemoryStore :=
  set_evidence (ei_evidence i) (ei_receipts i) (ei_byQ i) (ei_byI i) m.

(** The checks of [SaveEvidence]: the answer to give when the record is not to be saved. *)
Definition evidence_answer (m : MemoryStore) (record : EvidenceRecord)
    : option (EvidenceRecord * option error) :=
  match ms_evidence m !! er_EvidenceID record with
  | Some existing =>
      Some (existing,
            if negb (String.eqb (er_ReceiptID existing) (er_ReceiptID record))
            then Some (errors_New ("conflicting evidence record for " ++ er_EvidenceID record)%string)
            else None)
  | None =>
      match (if negb (String.eqb (er_IdempotencyKey record) "")
             then ms_evidenceByI m !! er_IdempotencyKey record else None) with
      | Some evidenceID => Some (Memory.evidence_at m evidenceID, None)
      | None =>
          match ms_receipts m !! er_ReceiptID record with
          | Some existingID =>
              if negb (String.eqb existingID (er_EvidenceID record)) then
                Some (Memory.evidence_at m existingID,
                      Some (errors_New ("conflicting receipt id " ++ er_ReceiptID record)%string))
              else None
          | None => None
          end
      end
  end.

Definition SaveEvidence (s : FileStore) (record : EvidenceRecord)
    : FileStore * (bool * EvidenceRecord * option error) :=
  if fl_closed s then (s, (false, zero_evidence, Some closed_error))
  else
    match evidence_answer (fl_memory s) record with
    | Some (existing, err) => (s, (false, existing, err))
    | None =>
        match append_line evidenceFile (EvidenceRecord_json record) s with
        | (s, Err e) => (s, (false, zero_evidence, Some e))
        | (s, Ok _) =>
            (set_memory (set_index (indexEvidenceLocked record (index_of (fl_memory s))) (fl_memory s)) s,
             (true, record, None))
        end
    end.

Definition SaveAudit (s : FileStore) (record : AuditRecord) : FileStore * result unit :=
  writing
    (_ ← append_line auditFile (AuditRecord_json record);
     in_memory (fun m => set_audit (ms_audit m ++ [record])%list m)) s.

Definition LoadValidatorState : FileStore -> result (option ValidatorState) := reading Memory.LoadValidatorState.
Definition ListCommits : FileStore -> result (list CommitRecord) :=
  reading (fun m => Ok (sortedCommitRecords (ms_commits m) true 0)).
Definition RecentCommits (s : FileStore) (limit : Z) : result (list CommitRecord) :=
  reading (fun m => Ok (sortedCommitRecords (ms_commits m) false limit)) s.
Definition Commit (s : FileStore) (height : Z) : result (option CommitRecord) :=
  reading (fun m => Ok (ms_commits m !! height)) s.
Definition IdempotencyResult (s : FileStore) (id : string) : result (option string) :=
  reading (fun m => Ok (ir_ResultHash <$> ms_idempotency m !! id)) s.
Definition IdempotencyCount : FileStore -> result Z :=
  reading (fun m => Ok (Z.of_nat (size (ms_idempotency m)))).
Definition ListSnapshots : FileStore -> result (list SnapshotRecord) := reading (fun m => Ok (ms_snapshots m)).
Definition EvidenceByID (s : FileStore) (evidenceID : string) : result (option EvidenceRecord) :=
  reading (fun m => Ok (ms_evidence m !! evidenceID)) s.
Definition EvidenceByReceiptID (s : FileStore) (receiptID : string) : result (option EvidenceRecord) :=
  reading (fun m => Ok (evidenceID ← ms_receipts m !! receiptID; ms_evidence m !! evidenceID)) s.
Definition EvidenceByIdempotencyKey (s : FileStore) (key : string) : result (option EvidenceRecord) :=
  reading (fun m => Ok (evidenceID ← ms_evidenceByI m !! key; ms_evidence m !! evidenceID)) s.
Definition EvidenceByQCHash (s : FileStore) (qcHash : string) : result (option EvidenceRecord) :=
  reading (fun m => Ok (evidenceID ← ms_evidenceByQ m !! qcHash; ms_evidence m !! evidenceID)) s.
Definition ListEvidence : FileStore -> result (list EvidenceRecord) :=
  reading (fun m => Ok (sorted_values (ms_evidence m))).
Definition RecentEvidence (s : FileStore) (limit : Z) : result (list EvidenceRecord) :=
  reading (fun m => Ok (limited limit (merge_sort evidence_before (map_to_list (ms_evidence m)).*2))) s.
Definition ListAudit (s : FileStore) (limit : Z) : result (list AuditRecord) :=
  reading (fun m => Memory.ListAudit m limit) s.
Definition Close (s : FileStore) : FileStore := mkFileStore (fl_memory s) (fl_disk s) true.
End File.

#[export] Instance file_store : ValidatorStore FileStore := {
  LoadValidatorState := File.LoadValidatorState;
  SaveValidatorState := File.SaveValidatorState;
  SaveCommit := File.SaveCommit;
  ListCommits := File.ListCommits;
  RecentCommits := File.RecentCommits;
  Commit := File.Commit;
  RecordIdempotency := File.RecordIdempotency;
  IdempotencyResult := File.IdempotencyResult;
  IdempotencyCount := File.IdempotencyCount;
  SaveSnapshot := File.SaveSnapshot;
  ListSnapshots := File.ListSnapshots;
  SaveEvidence := File.SaveEvidence;
  EvidenceByID := File.EvidenceByID;
  EvidenceByReceiptID := File.EvidenceByReceiptID;
  EvidenceByIdempotencyKey := File.EvidenceByIdempotencyKey;
  EvidenceByQCHash := File.EvidenceByQCHash;
  ListEvidence := File.ListEvidence;
  RecentEvidence := File.RecentEvidence;
  SaveAudit := File.SaveAudit;
  ListAudit := File.ListAudit
}.

(** ** A log is read back as it was written *)

(** No line break in a string. *)
Definition one_line (s : string) : Prop := no_break (bytes_of_string s).

Fixpoint lines_text (lines : list string) : string :=
  match lines with
  | [] => ""
  | line :: lines => line ++ (newline ++ lines_text lines)
  end.

Lemma lines_text_snoc lines line :
  lines_text (lines ++ [line]) = (lines_text lines ++ (line ++ newline))%string.
Proof.
  induction lines as [|l lines IH]; cbn [app lines_text].
  - by rewrite append_empty_r.
  - by rewrite IH, !append_assoc.
Qed.

Lemma SplitByte_line line rest :
  one_line line -> SplitByte "010" (line ++ (newline ++ rest)) = line :: SplitByte "010" rest.
Proof.
  unfold one_line. induction line as [|a line IH]; intros Hl; [done|].
  change (bytes_of_string (String a line)) with (code a :: bytes_of_string line) in Hl.
  apply Forall_cons in Hl as [Ha Hl].
  change (String a line ++ (newline ++ rest))%string with (String a (line ++ (newline ++ rest))).
  cbn [SplitByte]. rewrite IH by done.
  destruct (Ascii.eqb_spec a "010"); [by subst|done].
Qed.

Lemma scan_lines_text lines : Forall one_line lines -> scan_lines (lines_text lines) = lines.
Proof.
  intros Hl. unfold scan_lines.
  assert (Hs : SplitByte "010" (lines_text lines) = (lines ++ [""%string])%list).
  { induction Hl as [|l lines Hl _ IH]; [done|]. cbn [lines_text]. by rewrite SplitByte_line, IH. }
  rewrite Hs, rev_app_distr. cbn. by rewrite rev_involutive.
Qed.

Section log.
Context {T A : Type} (dec : list (string * json) -> result T) (handle : Z -> T -> A -> result A).

Lemma load_from_cons path line raw lines a :
  load_from path dec handle line (raw :: lines) a
  = if MaxScanTokenSize <=? len raw then fail "bufio.Scanner: token too long"
    else if String.eqb (drop_cr raw) "" then load_from path dec handle (line + 1) lines a
    else match Unmarshal dec (drop_cr raw) with
         | Err e => Err (prefix_err ("parse " ++ path ++ " line " ++ itoa (line + 1)) e)
         | Ok record =>
             match handle (line + 1) record a with
             | Err e => Err (prefix_err ("validate " ++ path ++ " line " ++ itoa (line + 1)) e)
             | Ok a => load_from path dec handle (line + 1) lines a
             end
         end.
Proof. reflexivity. Qed.

Lemma load_from_snoc path line lines raw a :
  load_from path dec handle line (lines ++ [raw]) a
  = (a' ← load_from path dec handle line lines a;
     load_from path dec handle (line + Z.of_nat (length lines)) [raw] a').
Proof.
  revert line a. induction lines as [|l lines IH]; intros line a.
  - cbn [app length]. by rewrite Z.add_0_r.
  - rewrite <-app_comm_cons, (load_from_cons path line l (lines ++ [raw])), (load_from_cons path line l lines).
    replace (line + Z.of_nat (length (l :: lines))) with (line + 1 + Z.of_nat (length lines)) by (cbn [length]; lia).
    destruct (MaxScanTokenSize <=? len l); [done|]. destruct (String.eqb (drop_cr l) ""); [apply IH|].
    destruct (Unmarshal dec (drop_cr l)) as [record|]; [|done].
    destruct (handle (line + 1) record a); [apply IH|done].
Qed.

(** The line of a record, read back by the handler of its log. *)
Lemma drop_cr_object fs : drop_cr (Marshal (JObj fs)) = Marshal (JObj fs).
Proof using Type.
  unfold drop_cr. destruct (rev (list_ascii_of_string (Marshal (JObj fs)))) as [|c r] eqn:E; [done|].
  assert (Hc : code c = 125).
  { pose proof (text_obj fs) as Ht. unfold text, bytes_of_string in Ht.
    apply (f_equal (@rev Z)) in Ht. rewrite <-map_rev, E in Ht. cbn [rev map] in Ht.
    rewrite rev_app_distr in Ht. cbn in Ht. by injection Ht. }
  destruct (ascii_dec c "013") as [->|Hne]; [by vm_compute in Hc|].
  destruct c as [[] [] [] [] [] [] [] []]; try reflexivity. by destruct Hne.
Qed.

Lemma load_line path n fs record a a' :
  Unmarshal dec (Marshal (JObj fs)) = Ok record -> len (Marshal (JObj fs)) < MaxScanTokenSize ->
  handle (n + 1) record a = Ok a' ->
  load_from path dec handle n [Marshal (JObj fs)] a = Ok a'.
Proof.
  intros Hu Hlen Hh. cbn [load_from]. rewrite (proj2 (Z.leb_gt _ _) Hlen). cbv zeta.
  rewrite drop_cr_object. destruct (String.eqb_spec (Marshal (JObj fs)) "") as [E|].
  - exfalso. pose proof (text_obj fs) as Ht. unfold text in Ht. rewrite E in Ht. done.
  - rewrite Hu. by rewrite Hh.
Qed.

(** The file [name] of the disk is the log of [a]. *)
Definition holds (name : string) (a0 : A) (d : Disk) (a : A) : Prop :=
  exists lines, contents name d = lines_text lines /\ Forall one_line lines /\
                forall path, load_from path dec handle 0 lines a0 = Ok a.

Lemma holds_read name a0 d a path :
  holds name a0 d a -> loadJSONLines path dec handle (read_disk d name) a0 = Ok a.
Proof.
  intros (lines & Hc & Hl & Hload). unfold loadJSONLines, read_disk. cbn [mbind result_bind].
  change (default ""%string (dk_files d !! name)) with (contents name d).
  rewrite Hc, scan_lines_text by done. apply Hload.
Qed.

Lemma holds_put name name' text a0 d a :
  name' <> name -> holds name a0 d a -> holds name a0 (put name' text d) a.
Proof.
  intros Hne (lines & Hc & Hl). exists lines. unfold contents, put in *. cbn [dk_files].
  by rewrite lookup_insert_ne.
Qed.

Lemma holds_append name fs record a0 d a a' :
  holds name a0 d a -> json_ok (JObj fs) = true -> Unmarshal dec (Marshal (JObj fs)) = Ok record ->
  len (Marshal (JObj fs)) < MaxScanTokenSize -> (forall n, handle n record a = Ok a') ->
  holds name a0 (put name (contents name d ++ (Marshal (JObj fs) ++ newline)) d) a'.
Proof.
  intros (lines & Hc & Hl & Hload) Hok Hu Hlen Hh. exists (lines ++ [Marshal (JObj fs)])%list. split_and!.
  - unfold contents at 1. cbn [put dk_files]. rewrite lookup_insert_eq. cbn. by rewrite Hc, lines_text_snoc.
  - apply Forall_app. split; [done|]. constructor; [|done]. by apply text_no_break.
  - intros path. rewrite load_from_snoc, Hload. cbn [mbind result_bind]. by eapply load_line.
Qed.

Lemma holds_empty name a0 outcomes : holds name a0 (mkDisk ∅ outcomes) a0.
Proof. exists []. split_and!; [|done|done]. unfold contents. cbn. by rewrite lookup_empty. Qed.
End log.

(** ** The records survive their encoding *)

Definition state_wf (s : ValidatorState) : Prop :=
  (utf8 (st_NodeID s) = true /\ utf8 (st_Region s) = true /\ utf8 (st_LastHash s) = true /\
   utf8 (st_StateDigest s) = true /\ utf8 (st_LockedBlockHash s) = true /\
   utf8 (st_IdentityKeyID s) = true /\ utf8 (st_SignatureAlgorithm s) = true /\
   utf8 (st_KEMAlgorithm s) = true) /\
  is_u64 (st_Height s) /\ is_u64 (st_Round s) /\ is_u64 (st_LockedHeight s) /\
  is_u64 (st_LockedRound s) /\ is_int64 (st_CommitCount s) /\ is_int64 (st_UpdatedAtUnixMilli s).

Definition commit_wf (r : CommitRecord) : Prop :=
  (utf8 (cr_BlockHash r) = true /\ utf8 (cr_StateDigest r) = true /\ utf8 (cr_IdentityKeyID r) = true) /\
  is_u64 (cr_Height r) /\ is_u64 (cr_Round r) /\ is_int64 (cr_CreatedAtUnixMilli r).

Definition idempotency_wf (r : IdempotencyRecord) : Prop :=
  (utf8 (ir_ID r) = true /\ utf8 (ir_ResultHash r) = true) /\ is_int64 (ir_AppliedAtUnixMilli r).

Definition snapshot_wf (r : SnapshotRecord) : Prop :=
  (utf8 (sr_ID r) = true /\ utf8 (sr_LastHash r) = true) /\ is_u64 (sr_Height r) /\
  is_int64 (sr_CreatedAtUnixMilli r).

Definition evidence_wf (r : EvidenceRecord) : Prop :=
  (utf8 (er_EvidenceID r) = true /\ utf8 (er_ReceiptID r) = true /\ utf8 (er_EventHash r) = true /\
   utf8 (er_QCHash r) = true /\ utf8 (er_SubmittingOrg r) = true /\ utf8 (er_IdempotencyKey r) = true) /\
  is_u64 (er_CommitHeight r) /\ is_int64 (er_CreatedAtUnixMilli r).

Definition audit_wf (r : AuditRecord) : Prop :=
  (utf8 (ar_RequestID r) = true /\ utf8 (ar_PrincipalID r) = true /\ utf8 (ar_Organization r) = true /\
   utf8 (ar_Method r) = true /\ utf8 (ar_Path r) = true /\ utf8 (ar_ClientAddr r) = true /\
   utf8 (ar_DeniedReason r) = true) /\
  is_int64 (ar_TimestampUnixMilli r) /\ is_int64 (ar_StatusCode r) /\ is_int64 (ar_DurationMillis r).

Lemma CommitRecord_json_ok r : commit_wf r -> json_ok (CommitRecord_json r) = true.
Proof. intros [(? & ? & ?) _]. unfold CommitRecord_json. json_ok_tac; apply bytes_json_ok. Qed.

Lemma CommitRecord_read r :
  commit_wf r -> Unmarshal CommitRecord_of (Marshal (CommitRecord_json r)) = Ok r.
Proof.
  intros Hwf. apply Unmarshal_Marshal; [by apply CommitRecord_json_ok|]. destruct Hwf as [_ (? & ? & ?)].
  destruct r as [h rd bh sd cj ce k t]. cbn in * |-. unfold CommitRecord_json, dec_struct, CommitRecord_of.
  cbn [cr_Height cr_Round cr_BlockHash cr_StateDigest cr_CommitJSON cr_CertificateJSON cr_IdentityKeyID
       cr_CreatedAtUnixMilli]. by read_struct.
Qed.

Lemma IdempotencyRecord_json_ok r : idempotency_wf r -> json_ok (IdempotencyRecord_json r) = true.
Proof. intros [(? & ?) _]. unfold IdempotencyRecord_json. json_ok_tac. Qed.

Lemma IdempotencyRecord_read r :
  idempotency_wf r -> Unmarshal IdempotencyRecord_of (Marshal (IdempotencyRecord_json r)) = Ok r.
Proof.
  intros Hwf. apply Unmarshal_Marshal; [by apply IdempotencyRecord_json_ok|]. destruct Hwf as [_ ?].
  destruct r as [i h t]. cbn in * |-. unfold IdempotencyRecord_json, dec_struct, IdempotencyRecord_of.
  cbn [ir_ID ir_ResultHash ir_AppliedAtUnixMilli]. by read_struct.
Qed.

Lemma SnapshotRecord_json_ok r : snapshot_wf r -> json_ok (SnapshotRecord_json r) = true.
Proof. intros [(? & ?) _]. unfold SnapshotRecord_json. json_ok_tac; apply bytes_json_ok. Qed.

Lemma SnapshotRecord_read r :
  snapshot_wf r -> Unmarshal SnapshotRecord_of (Marshal (SnapshotRecord_json r)) = Ok r.
Proof.
  intros Hwf. apply Unmarshal_Marshal; [by apply SnapshotRecord_json_ok|]. destruct Hwf as [_ (? & ?)].
  destruct r as [i h l j t]. cbn in * |-. unfold SnapshotRecord_json, dec_struct, SnapshotRecord_of.
  cbn [sr_ID sr_Height sr_LastHash sr_SnapshotJSON sr_CreatedAtUnixMilli]. by read_struct.
Qed.

Lemma EvidenceRecord_json_ok r : evidence_wf r -> json_ok (EvidenceRecord_json r) = true.
Proof. intros [(? & ? & ? & ? & ? & ?) _]. unfold EvidenceRecord_json. json_ok_tac; apply bytes_json_ok. Qed.

Lemma EvidenceRecord_read r :
  evidence_wf r -> Unmarshal EvidenceRecord_of (Marshal (EvidenceRecord_json r)) = Ok r.
Proof.
  intros Hwf. apply Unmarshal_Marshal; [by apply EvidenceRecord_json_ok|]. destruct Hwf as [_ (? & ?)].
  destruct r as [i rc e q h o k j t]. cbn in * |-. unfold EvidenceRecord_json, dec_struct, EvidenceRecord_of.
  cbn [er_EvidenceID er_ReceiptID er_EventHash er_QCHash er_CommitHeight er_SubmittingOrg er_IdempotencyKey
       er_ReceiptJSON er_CreatedAtUnixMilli]. by read_struct.
Qed.

Lemma AuditRecord_json_ok r : audit_wf r -> json_ok (AuditRecord_json r) = true.
Proof. intros [(? & ? & ? & ? & ? & ? & ?) _]. unfold AuditRecord_json. json_ok_tac. Qed.

Lemma AuditRecord_read r :
  audit_wf r -> Unmarshal AuditRecord_of (Marshal (AuditRecord_json r)) = Ok r.
Proof.
  intros Hwf. apply Unmarshal_Marshal; [by apply AuditRecord_json_ok|]. destruct Hwf as [_ (? & ? & ?)].
  destruct r as [i t p o m pa s d c dr]. cbn in * |-. unfold AuditRecord_json, dec_struct, AuditRecord_of.
  cbn [ar_RequestID ar_TimestampUnixMilli ar_PrincipalID ar_Organization ar_Method ar_Path ar_StatusCode
       ar_DurationMillis ar_ClientAddr ar_DeniedReason].
  rewrite <-(app_nil_r (omit_str "denied_reason" dr)). by read_struct.
Qed.

Lemma ValidatorState_read s :
  state_wf s -> Unmarshal ValidatorState_of (MarshalIndent (ValidatorState_json s) ++ newline) = Ok s.
Proof.
  intros [(? & ? & ? & ? & ? & ? & ? & ?) (? & ? & ? & ? & ? & ?)].
  unfold Unmarshal, ValidatorState_json. rewrite parse_indent.
  - cbn [mbind result_bind]. destruct s as [n r h rd lh sd lkh lkr lkb c k a ke u]. cbn in * |-.
    unfold dec_struct, ValidatorState_of.
    cbn [st_NodeID st_Region st_Height st_Round st_LastHash st_StateDigest st_LockedHeight st_LockedRound
         st_LockedBlockHash st_CommitCount st_IdentityKeyID st_SignatureAlgorithm st_KEMAlgorithm
         st_UpdatedAtUnixMilli]. by read_struct.
  - done.
  - unfold omit_int, omit_str. rewrite !forallb_app. unfold flat_field.
    repeat (apply andb_true_iff; split); repeat case_match; cbn [forallb fst snd json_ok scalar utf8];
      rewrite ?andb_true_r; try done.
Qed.

(** ** What is saved is loaded again *)

Definition fits (v : json) : Prop := len (Marshal v) < MaxScanTokenSize.

(** The files of the disk are those of the memory. *)
Record durable (s : FileStore) : Prop := {
  du_open : fl_closed s = false;
  du_reliable : dk_outcomes (fl_disk s) = [];
  du_state : loadState (read_disk (fl_disk s) stateFile)
             = Ok (ms_state (fl_memory s), ms_hasState (fl_memory s));
  du_commits : holds CommitRecord_of load_commit commitLogFile ∅ (fl_disk s) (ms_commits (fl_memory s));
  du_idempotency : holds IdempotencyRecord_of load_idempotency idempotencyFile ∅ (fl_disk s)
                     (ms_idempotency (fl_memory s));
  du_snapshots : holds SnapshotRecord_of load_snapshot snapshotFile [] (fl_disk s) (ms_snapshots (fl_memory s));
  du_evidence : holds EvidenceRecord_of load_evidence evidenceFile (mkEvidenceIndex ∅ ∅ ∅ ∅) (fl_disk s)
                  (File.index_of (fl_memory s));
  du_audit : holds AuditRecord_of load_audit auditFile [] (fl_disk s) (ms_audit (fl_memory s))
}.

Lemma durable_opens path dir s :
  durable s -> dir <> ""%string ->
  OpenFileStore path (read_disk (fl_disk s)) dir (Ok tt) (fl_disk s) = Ok s.
Proof.
  intros [Ho Hr Hs Hc Hi Hn He Ha] Hdir. unfold OpenFileStore, load.
  rewrite (proj2 (String.eqb_neq _ _) Hdir), Hs. cbn [mbind result_bind].
  rewrite (holds_read _ _ _ _ _ _ _ Hc). cbn [mbind result_bind].
  rewrite (holds_read _ _ _ _ _ _ _ Hi). cbn [mbind result_bind].
  rewrite (holds_read _ _ _ _ _ _ _ Hn). cbn [mbind result_bind].
  rewrite (holds_read _ _ _ _ _ _ _ He). cbn [mbind result_bind].
  rewrite (holds_read _ _ _ _ _ _ _ Ha). cbn. destruct s as [[] d c]. cbn in *. by subst.
Qed.

Lemma fresh_durable : durable (mkFileStore NewMemoryStore (mkDisk ∅ []) false).
Proof. constructor; try done; apply holds_empty. Qed.

(** On a disk that does not fail. *)
Lemma append_reliable name v s :
  dk_outcomes (fl_disk s) = [] ->
  append_line name v s
  = (set_disk (put name (contents name (fl_disk s) ++ (Marshal v ++ newline)) (fl_disk s)) s, Ok tt).
Proof. intros Hr. unfold append_line, appendJSONLine, next_outcome. by rewrite Hr. Qed.

Lemma write_state_reliable state s :
  dk_outcomes (fl_disk s) = [] ->
  writeStateLocked state s
  = (set_disk (put stateFile (MarshalIndent (ValidatorState_json state) ++ newline) (fl_disk s)) s, Ok tt).
Proof. intros Hr. unfold writeStateLocked, atomicWriteFile, next_outcome. by rewrite Hr. Qed.

Lemma state_written state d :
  state_wf state ->
  loadState (read_disk (put stateFile (MarshalIndent (ValidatorState_json state) ++ newline) d) stateFile)
  = Ok (state, true).
Proof.
  intros Hwf. unfold read_disk. cbn [put dk_files]. rewrite lookup_insert_eq. unfold loadState.
  by rewrite ValidatorState_read.
Qed.

(** The state file after it is written. *)
Lemma saved_state_durable state s :
  durable s -> state_wf state ->
  durable (set_memory (set_state state (fl_memory s))
             (set_disk (put stateFile (MarshalIndent (ValidatorState_json state) ++ newline) (fl_disk s)) s)).
Proof.
  intros [Ho Hr Hs Hc Hi Hn He Ha] Hwf.
  constructor; cbn [fl_closed fl_disk fl_memory set_memory set_disk]; try done; try (by apply holds_put).
  by apply state_written.
Qed.

(** What a client asks a store to save, and the answer, without the texts of errors. *)
Inductive update :=
  | USaveState (state : ValidatorState)
  | USaveCommit (record : CommitRecord) (state : ValidatorState)
  | URecordIdempotency (now : Time) (id resultHash : string)
  | USaveSnapshot (record : SnapshotRecord)
  | USaveEvidence (record : EvidenceRecord)
  | USaveAudit (record : AuditRecord).

Inductive answer :=
  | ASaved (ok : bool)
  | ARecorded (r : option (bool * string))
  | AEvidence (created : bool) (existing : EvidenceRecord) (ok : bool).

Definition apply_update {S} `{ValidatorStore S} (s : S) (u : update) : S * answer :=
  match u with
  | USaveState state => let '(s, r) := SaveValidatorState s state in (s, ASaved (is_ok r))
  | USaveCommit record state => let '(s, r) := SaveCommit s record state in (s, ASaved (is_ok r))
  | URecordIdempotency now id hash =>
      let '(s, r) := RecordIdempotency s now id hash in
      (s, ARecorded match r with Ok x => Some x | Err _ => None end)
  | USaveSnapshot record => let '(s, r) := SaveSnapshot s record in (s, ASaved (is_ok r))
  | USaveEvidence record =>
      let '(s, (created, existing, err)) := SaveEvidence s record in
      (s, AEvidence created existing match err with None => true | Some _ => false end)
  | USaveAudit record => let '(s, r) := SaveAudit s record in (s, ASaved (is_ok r))
  end.

Fixpoint apply_updates {S} `{ValidatorStore S} (s : S) (us : list update) : S * list answer :=
  match us with
  | [] => (s, [])
  | u :: us =>
      let '(s, a) := apply_update s u in
      let '(s, answers) := apply_updates s us in (s, a :: answers)
  end.

(** The records the program saves: printable, in range, with the fields that
    loading requires, and short enough for the scanner. *)
Definition update_ok (u : update) : Prop :=
  match u with
  | USaveState state => state_wf state
  | USaveCommit r state =>
      commit_wf r /\ cr_Height r <> 0 /\ cr_BlockHash r <> ""%string /\ cr_CommitJSON r <> ""%string /\
      fits (CommitRecord_json r) /\ state_wf state
  | URecordIdempotency now id hash =>
      idempotency_wf (mkIdempotencyRecord id hash (UnixMilli now)) /\ id <> ""%string /\ hash <> ""%string /\
      fits (IdempotencyRecord_json (mkIdempotencyRecord id hash (UnixMilli now)))
  | USaveSnapshot r => snapshot_wf r /\ sr_ID r <> ""%string /\ fits (SnapshotRecord_json r)
  | USaveEvidence r =>
      evidence_wf r /\ er_EvidenceID r <> ""%string /\ er_ReceiptID r <> ""%string /\
      er_ReceiptJSON r <> ""%string /\ fits (EvidenceRecord_json r)
  | USaveAudit r =>
      audit_wf r /\ ar_RequestID r <> ""%string /\ ar_Method r <> ""%string /\ ar_Path r <> ""%string /\
      ar_StatusCode r <> 0 /\ fits (AuditRecord_json r)
  end.

Lemma read_put name name' text d : name' <> name -> read_disk (put name' text d) name = read_disk d name.
Proof. intros Hne. unfold read_disk. cbn. by rewrite lookup_insert_ne. Qed.

(** A log that grew by a line, the others as they were. *)
Ltac other_logs Hd :=
  destruct Hd as [Ho Hr Hs Hc Hi Hn He Ha]; constructor;
  cbn [fl_closed fl_disk fl_memory set_memory set_disk];
  try done; try (by apply holds_put); try (by rewrite read_put).

Lemma commit_durable record s :
  durable s -> commit_wf record -> cr_Height record <> 0 -> cr_BlockHash record <> ""%string ->
  cr_CommitJSON record <> ""%string -> fits (CommitRecord_json record) ->
  ms_commits (fl_memory s) !! cr_Height record = None ->
  durable (set_memory (set_commits (<[cr_Height record := record]> (ms_commits (fl_memory s))) (fl_memory s))
    (set_disk (put commitLogFile (contents commitLogFile (fl_disk s) ++
                (Marshal (CommitRecord_json record) ++ newline)) (fl_disk s)) s)).
Proof.
  intros Hd Hwf Hh Hb Hj Hfit Hnew. other_logs Hd.
  apply (holds_append _ _ _ _ record) with (a := ms_commits (fl_memory s));
    [done|by apply CommitRecord_json_ok|by apply CommitRecord_read|done|].
  intros n. unfold load_commit. cbn [ms_commits set_commits].
  rewrite (proj2 (Z.eqb_neq _ _) Hh), (proj2 (String.eqb_neq _ _) Hb), (proj2 (String.eqb_neq _ _) Hj).
  by rewrite Hnew.
Qed.

Lemma idempotency_durable record s :
  durable s -> idempotency_wf record -> ir_ID record <> ""%string -> ir_ResultHash record <> ""%string ->
  fits (IdempotencyRecord_json record) -> ms_idempotency (fl_memory s) !! ir_ID record = None ->
  durable (set_memory (set_idempotency (<[ir_ID record := record]> (ms_idempotency (fl_memory s))) (fl_memory s))
    (set_disk (put idempotencyFile (contents idempotencyFile (fl_disk s) ++
                (Marshal (IdempotencyRecord_json record) ++ newline)) (fl_disk s)) s)).
Proof.
  intros Hd Hwf Hh Hb Hfit Hnew. other_logs Hd.
  apply (holds_append _ _ _ _ record) with (a := ms_idempotency (fl_memory s));
    [done|by apply IdempotencyRecord_json_ok|by apply IdempotencyRecord_read|done|].
  intros n. unfold load_idempotency. cbn [ms_idempotency set_idempotency].
  rewrite (proj2 (String.eqb_neq _ _) Hh), (proj2 (String.eqb_neq _ _) Hb). by rewrite Hnew.
Qed.

Lemma snapshot_durable record s :
  durable s -> snapshot_wf record -> sr_ID record <> ""%string -> fits (SnapshotRecord_json record) ->
  durable (set_memory (set_snapshots (ms_snapshots (fl_memory s) ++ [record])%list (fl_memory s))
    (set_disk (put snapshotFile (contents snapshotFile (fl_disk s) ++
                (Marshal (SnapshotRecord_json record) ++ newline)) (fl_disk s)) s)).
Proof.
  intros Hd Hwf Hh Hfit. other_logs Hd.
  apply (holds_append _ _ _ _ record) with (a := ms_snapshots (fl_memory s));
    [done|by apply SnapshotRecord_json_ok|by apply SnapshotRecord_read|done|].
  intros n. unfold load_snapshot. by rewrite (proj2 (String.eqb_neq _ _) Hh).
Qed.

Lemma audit_durable record s :
  durable s -> audit_wf record -> ar_RequestID record <> ""%string -> ar_Method record <> ""%string ->
  ar_Path record <> ""%string -> ar_StatusCode record <> 0 -> fits (AuditRecord_json record) ->
  durable (set_memory (set_audit (ms_audit (fl_memory s) ++ [record])%list (fl_memory s))
    (set_disk (put auditFile (contents auditFile (fl_disk s) ++
                (Marshal (AuditRecord_json record) ++ newline)) (fl_disk s)) s)).
Proof.
  intros Hd Hwf Hid Hm Hp Hst Hfit. other_logs Hd.
  apply (holds_append _ _ _ _ record) with (a := ms_audit (fl_memory s));
    [done|by apply AuditRecord_json_ok|by apply AuditRecord_read|done|].
  intros n. unfold load_audit.
  by rewrite (proj2 (String.eqb_neq _ _) Hid), (proj2 (String.eqb_neq _ _) Hm),
    (proj2 (String.eqb_neq _ _) Hp), (proj2 (Z.eqb_neq _ _) Hst).
Qed.

Lemma evidence_durable record s :
  durable s -> evidence_wf record -> er_EvidenceID record <> ""%string -> er_ReceiptID record <> ""%string ->
  er_ReceiptJSON record <> ""%string -> fits (EvidenceRecord_json record) ->
  evidence_fresh (fl_memory s) record ->
  durable (set_memory (File.set_index (indexEvidenceLocked record (File.index_of (fl_memory s))) (fl_memory s))
    (set_disk (put evidenceFile (contents evidenceFile (fl_disk s) ++
                (Marshal (EvidenceRecord_json record) ++ newline)) (fl_disk s)) s)).
Proof.
  intros Hd Hwf Hid Hrc Hj Hfit (Hnew & Hkey & Hreceipt). other_logs Hd.
  apply (holds_append _ _ _ _ record) with (a := File.index_of (fl_memory s));
    [done|by apply EvidenceRecord_json_ok|by apply EvidenceRecord_read|done|].
  intros n. unfold load_evidence. cbn [ei_evidence ei_receipts ei_byI File.index_of].
  rewrite (proj2 (String.eqb_neq _ _) Hid), (proj2 (String.eqb_neq _ _) Hrc), (proj2 (String.eqb_neq _ _) Hj).
  rewrite Hnew. destruct (ms_receipts (fl_memory s) !! er_ReceiptID record) as [id|] eqn:Er.
  - rewrite (Hreceipt id eq_refl), String.eqb_refl. cbn [negb].
    destruct (String.eqb_spec (er_IdempotencyKey record) ""); cbn [negb andb]; [done|].
    by rewrite Hkey.
  - destruct (String.eqb_spec (er_IdempotencyKey record) ""); cbn [negb andb]; [done|]. by rewrite Hkey.
Qed.

Lemma evidence_answer_memory m r :
  match File.evidence_answer m r with
  | Some (existing, err) => Memory.SaveEvidence m r = (m, (false, existing, err))
  | None =>
      evidence_fresh m r /\
      Memory.SaveEvidence m r
      = (File.set_index (indexEvidenceLocked r (File.index_of m)) m, (true, r, None))
  end.
Proof.
  unfold File.evidence_answer, Memory.SaveEvidence, evidence_fresh. cbv zeta.
  destruct (ms_evidence m !! er_EvidenceID r) as [old|]; [by destruct (negb _)|].
  destruct (String.eqb_spec (er_IdempotencyKey r) "") as [Hk|Hk]; cbn [negb];
    [|destruct (ms_evidenceByI m !! er_IdempotencyKey r) as [id|] eqn:E2; [done|]];
  (destruct (ms_receipts m !! er_ReceiptID r) as [id|] eqn:E3;
    [destruct (String.eqb_spec id (er_EvidenceID r)); cbn [negb]; [|done]|]);
  (split; [naive_solver|]); unfold File.set_index, indexEvidenceLocked; cbn;
  by rewrite ?(proj2 (String.eqb_neq _ _) Hk), ?Hk.
Qed.

Lemma in_memory_run f s : in_memory f s = (set_memory (f (fl_memory s)) s, Ok tt).
Proof. done. Qed.

(** One update: the file store answers as the memory store does, and stays the
    image of its files. *)
Lemma update_step s u :
  durable s -> update_ok u ->
  let '(s', a) := apply_update s u in
  let '(m', b) := apply_update (fl_memory s) u in
  durable s' /\ fl_memory s' = m' /\ a = b.
Proof.
  intros Hd Hu. pose proof (du_open _ Hd) as Ho. pose proof (du_reliable _ Hd) as Hr.
  destruct u as [state|record state|now id hash|record|record|record]; cbn [apply_update update_ok] in *;
    cbn [SaveValidatorState SaveCommit RecordIdempotency SaveSnapshot SaveEvidence SaveAudit file_store memory_store].
  - unfold File.SaveValidatorState, writing. rewrite Ho, run_bind, write_state_reliable, in_memory_run by done.
    split_and!; [by exact (saved_state_durable state s Hd ltac:(done))|done|done].
  - destruct Hu as (Hwf & Hh & Hb & Hj & Hfit & Hstate).
    unfold File.SaveCommit, writing, Memory.SaveCommit. rewrite Ho, run_gets.
    destruct (ms_commits (fl_memory s) !! cr_Height record) as [old|] eqn:E.
    + rewrite run_guard. destruct (negb _); [done|].
      rewrite run_bind, write_state_reliable, in_memory_run by done.
      split_and!; [by exact (saved_state_durable state s Hd ltac:(done))|done|done].
    + pose proof (commit_durable record s Hd Hwf Hh Hb Hj Hfit E) as Hd1.
      rewrite run_bind, append_reliable, run_bind, in_memory_run, run_bind by done.
      cbn [fl_memory set_disk fl_disk set_memory].
      match type of Hd1 with durable ?s1 => rewrite (write_state_reliable state s1) by apply (du_reliable _ Hd1) end.
      rewrite in_memory_run. split_and!; [exact (saved_state_durable state _ Hd1 Hstate)|done|done].
  - destruct Hu as (Hwf & Hid & Hhash & Hfit).
    unfold File.RecordIdempotency, writing, Memory.RecordIdempotency. rewrite Ho, run_gets.
    destruct (ms_idempotency (fl_memory s) !! id) as [old|] eqn:E; [done|].
    pose proof (idempotency_durable _ s Hd Hwf Hid Hhash Hfit E) as Hd1.
    by rewrite run_bind, append_reliable, run_bind, in_memory_run by done.
  - destruct Hu as (Hwf & Hid & Hfit). unfold File.SaveSnapshot, writing. rewrite Ho.
    pose proof (snapshot_durable record s Hd Hwf Hid Hfit) as Hd1.
    by rewrite run_bind, append_reliable, in_memory_run by done.
  - destruct Hu as (Hwf & Hid & Hrc & Hj & Hfit). unfold File.SaveEvidence. rewrite Ho.
    pose proof (evidence_answer_memory (fl_memory s) record) as Hm.
    destruct (File.evidence_answer _ _) as [[existing err]|]; [by rewrite Hm|].
    destruct Hm as [Hfresh ->]. rewrite append_reliable by done.
    pose proof (evidence_durable record s Hd Hwf Hid Hrc Hj Hfit Hfresh) as Hd1. by split_and!.
  - destruct Hu as (Hwf & Hid & Hm & Hp & Hst & Hfit). unfold File.SaveAudit, writing. rewrite Ho.
    pose proof (audit_durable record s Hd Hwf Hid Hm Hp Hst Hfit) as Hd1.
    by rewrite run_bind, append_reliable, in_memory_run by done.
Qed.

Lemma updates_run us s :
  durable s -> Forall update_ok us ->
  let '(s', answers) := apply_updates s us in
  durable s' /\ apply_updates (fl_memory s) us = (fl_memory s', answers).
Proof.
  intros Hd Hus. revert s Hd. induction Hus as [|u us Hu _ IH]; intros s Hd; cbn; [done|].
  pose proof (update_step s u Hd Hu) as Hstep.
  destruct (apply_update s u) as [s1 a], (apply_update (fl_memory s) u) as [m1 b].
  destruct Hstep as (Hd1 & <- & ->). specialize (IH s1 Hd1).
  destruct (apply_updates s1 us) as [s2 answers]. destruct IH as [Hd2 Hm]. by rewrite Hm.
Qed.

(** C30: the file store implements the store it stands for, across restarts.  On
    a disk that does not fail, and for records of the kind the program saves
    (printable, in range, their lines within the scanner's limit), any sequence
    of updates of a new store is answered as the in-memory store answers it and
    leaves the same records; and opening the files it wrote gives back the same
    store, whatever the directory. *)
Theorem file_store_refines us dir path :
  Forall update_ok us -> dir <> ""%string ->
  let s0 := mkFileStore NewMemoryStore (mkDisk ∅ []) false in
  OpenFileStore path (read_disk (mkDisk ∅ [])) dir (Ok tt) (mkDisk ∅ []) = Ok s0 /\
  let '(s, answers) := apply_updates s0 us in
  apply_updates NewMemoryStore us = (fl_memory s, answers) /\
  OpenFileStore path (read_disk (fl_disk s)) dir (Ok tt) (fl_disk s) = Ok s.
Proof.
  intros Hus Hdir s0. split; [by apply (durable_opens path dir s0 fresh_durable)|].
  pose proof (updates_run us s0 fresh_durable Hus) as Hrun.
  destruct (apply_updates s0 us) as [s answers]. destruct Hrun as [Hd Hm].
  split; [done|by apply durable_opens].
Qed.

(** ** What the log cannot hold *)

Lemma load_too_long {T A} path (dec : list (string * json) -> result T) handle line raw (a : A) :
  MaxScanTokenSize <= len raw -> load_from path dec handle line [raw] a = fail "bufio.Scanner: token too long".
Proof. intros Hlen. by rewrite load_from_cons, (proj2 (Z.leb_le _ _) Hlen). Qed.

Lemma long_line_fails {T A} (dec : list (string * json) -> result T) handle name (a0 a : A) d fs path :
  holds dec handle name a0 d a -> json_ok (JObj fs) = true -> MaxScanTokenSize <= len (Marshal (JObj fs)) ->
  loadJSONLines path dec handle
    (read_disk (put name (contents name d ++ (Marshal (JObj fs) ++ newline)) d) name) a0
  = fail "bufio.Scanner: token too long".
Proof.
  intros (lines & Hc & Hl & Hload) Hok Hlong. unfold loadJSONLines, read_disk. cbn [put dk_files mbind result_bind].
  rewrite lookup_insert_eq. cbn [default from_option id].
  rewrite Hc, <-lines_text_snoc, scan_lines_text, load_from_snoc, Hload; cbn [mbind result_bind].
  - by apply load_too_long.
  - apply Forall_app. split; [done|]. constructor; [|done]. by apply text_no_break.
Qed.

(** C39: a commit whose record takes 64 KiB or more is saved, and the store it is
    saved to cannot be opened again: the line is longer than the scanner that
    reads the log back accepts. *)
Theorem long_commit_unreadable path dir record state s :
  durable s -> ms_commits (fl_memory s) !! cr_Height record = None -> commit_wf record -> state_wf state ->
  MaxScanTokenSize <= len (Marshal (CommitRecord_json record)) -> dir <> ""%string ->
  let '(s', saved) := SaveCommit s record state in
  saved = Ok tt /\ Commit s' (cr_Height record) = Ok (Some record) /\
  OpenFileStore path (read_disk (fl_disk s')) dir (Ok tt) (fl_disk s') = fail "bufio.Scanner: token too long".
Proof.
  intros Hd E Hwf Hstate Hlong Hdir. pose proof (du_open _ Hd) as Ho. pose proof (du_reliable _ Hd) as Hr.
  cbn [SaveCommit file_store]. unfold File.SaveCommit, writing. rewrite Ho, run_gets, E.
  rewrite run_bind, append_reliable, run_bind, in_memory_run, run_bind by done.
  rewrite write_state_reliable by done. rewrite in_memory_run.
  split_and!; [done| |].
  - cbn [Commit file_store]. unfold File.Commit, reading.
    cbn [fl_closed fl_memory set_memory set_disk ms_commits set_state set_commits]. rewrite Ho.
    by rewrite lookup_insert_eq.
  - unfold OpenFileStore, load. rewrite (proj2 (String.eqb_neq _ _) Hdir).
    cbn [fl_disk set_memory set_disk fl_memory]. rewrite state_written by done. cbn [mbind result_bind].
    rewrite (read_put commitLogFile stateFile) by done.
    pose proof (long_line_fails CommitRecord_of load_commit commitLogFile ∅ _ (fl_disk s) _ (path commitLogFile)
                  (du_commits _ Hd) (CommitRecord_json_ok record Hwf) Hlong) as Hfail.
    change (JObj _) with (CommitRecord_json record) in Hfail. rewrite Hfail. done.
Qed.

(** The laws the node's theorems need of a store. *)
#[export] Instance file_store_laws : StoreLaws FileStore.
Proof.
  refine {| committed s := ms_commits (fl_memory s);
            saved_state s := if ms_hasState (fl_memory s) then Some (ms_state (fl_memory s)) else None |}.
  - intros s record state s'. cbn. unfold File.SaveCommit, writing. destruct (fl_closed s); [done|].
    rewrite run_gets. destruct (ms_commits (fl_memory s) !! cr_Height record) as [old|] eqn:E.
    + rewrite run_guard. destruct (String.eqb_spec (cr_BlockHash old) (cr_BlockHash record)); [|done].
      cbn [negb]. rewrite run_bind. unfold writeStateLocked.
      destruct (atomicWriteFile _ _ _) as [d [[]|err0]]; [|done]. intros [= <-].
      split_and!; [by intros ? [= <-]|done|done].
    + rewrite run_bind. unfold append_line. destruct (appendJSONLine _ _ _) as [d [[]|err0]]; [|done].
      rewrite run_bind, in_memory_run, run_bind. unfold writeStateLocked.
      destruct (atomicWriteFile _ _ _) as [d' [[]|err0]]; [|done]. intros [= <-]. done.
  - intros s l. cbn. unfold File.ListCommits, reading. destruct (fl_closed s); [done|]. intros [= <-] Hwf.
    by apply sortedCommitRecords_ascending.
  - intros s v. cbn. unfold File.LoadValidatorState, reading. destruct (fl_closed s); [done|]. by intros [= <-].
  - intros s record. cbn. unfold File.SaveEvidence. destruct (fl_closed s); [done|].
    destruct (File.evidence_answer _ _) as [[existing err]|]; [done|].
    unfold append_line. destruct (appendJSONLine _ _ _) as [d [[]|err0]]; done.
  - intros s record. cbn. unfold File.SaveAudit, writing. destruct (fl_closed s); [done|].
    rewrite run_bind. unfold append_line. destruct (appendJSONLine _ _ _) as [d [[]|err0]]; done.
Defined.

(** ** A store on a disk *)

Definition demo_state : ValidatorState :=
  mkValidatorState "v1" "us" 1 0 "h1" "d1" 1 0 "h1" 1 "k1" "demo" "demo" 9.

Definition demo_commit : CommitRecord := mkCommitRecord 1 0 "h1" "d1" "{commit}" "{qc}" "k1" 9.

Definition demo_updates : list update :=
  [USaveState demo_state; USaveCommit demo_commit demo_state; URecordIdempotency (mkTime 7 "") "tx-1" "r1";
   URecordIdempotency (mkTime 8 "") "tx-1" "r2";
   USaveSnapshot (mkSnapshotRecord "s1" 1 "h1" "{<&>}" 9);
   USaveEvidence (mkEvidenceRecord "e1" "rc1" "eh" "qc" 1 "org" "key" "{receipt}" 9);
   USaveAudit (mkAuditRecord "req" 9 "" "" "POST" "/evidence" 201 4 "" "")].

Lemma file_store_refines_witness :
  let s0 := mkFileStore NewMemoryStore (mkDisk ∅ []) false in
  OpenFileStore id (read_disk (mkDisk ∅ [])) "data" (Ok tt) (mkDisk ∅ []) = Ok s0 /\
  let '(s, answers) := apply_updates s0 demo_updates in
  apply_updates NewMemoryStore demo_updates = (fl_memory s, answers) /\
  OpenFileStore id (read_disk (fl_disk s)) "data" (Ok tt) (fl_disk s) = Ok s.
Proof.
  apply (file_store_refines demo_updates "data" id); [|done].
  repeat (apply Forall_cons; split); try apply Forall_nil; try exact I;
    cbn [update_ok demo_updates]; repeat split; vm_compute; congruence.
Defined.

(** A block hash of 64 KiB stands for a large commit. *)
Definition big_commit : CommitRecord :=
  mkCommitRecord 1 0 (string_of_list_ascii (repeat "a"%char (Z.to_nat 65536))) "d1" "{commit}" "{qc}" "k1" 9.

Lemma long_commit_unreadable_witness :
  let '(s', saved) := SaveCommit (mkFileStore NewMemoryStore (mkDisk ∅ []) false) big_commit demo_state in
  saved = Ok tt /\ Commit s' 1 = Ok (Some big_commit) /\
  OpenFileStore id (read_disk (fl_disk s')) "data" (Ok tt) (fl_disk s') = fail "bufio.Scanner: token too long".
Proof.
  apply (long_commit_unreadable id "data" big_commit demo_state); [apply fresh_durable|done| | | |done].
  - repeat split; vm_compute; congruence.
  - repeat split; vm_compute; congruence.
  - vm_compute. congruence.
Defined.

(** A line cut short by a write that failed joins the next one: the store that
    reported the error, and saved the next record, does not open again. *)
Example demo_torn_line :
  let s := mkFileStore NewMemoryStore (mkDisk ∅ [IoErr 10 (errors_New "no space left on device")]) false in
  let '(s, first) := SaveSnapshot s (mkSnapshotRecord "s1" 1 "h1" "x" 9) in
  let '(s, second) := SaveSnapshot s (mkSnapshotRecord "s2" 2 "h2" "y" 9) in
  is_ok first = false /\ is_ok second = true /\
  is_ok (OpenFileStore id (read_disk (fl_disk s)) "data" (Ok tt) (fl_disk s)) = false.
Proof. repeat split; vm_compute; reflexivity. Qed.
