(* ===== verification/Sql.v ===== *)
(** * The SQL of the SQLite store

    The store hands statements to database/sql and the SQLite driver, which are not
    part of the repository.  This file says what the statements it uses mean, as the
    documentation of SQLite has it: tables of rows, primary keys and unique indexes,
    the conflict clauses of INSERT, and SELECT with a condition, an order and a limit.
    The engine itself is a parameter, a class, whose laws say that it either does what
    a statement means or fails and changes nothing; an engine that is nothing but the
    meaning shows that the laws can hold. *)

From S2P Require Import Prelude.
Local Open Scope string_scope.
Local Open Scope Z_scope.

Inductive value := VNull | VInt (z : Z) | VText (s : string) | VBlob (s : string).

#[export] Instance value_eq_dec : EqDecision value.
Proof. solve_decision. Defined.

(** The columns of a row in the order of the table's declaration. *)
Definition row := list (string * value).

Fixpoint column (r : row) (c : string) : value :=
  match r with
  | [] => VNull
  | (k, v) :: r => if String.eqb k c then v else column r c
  end.

Definition set_column (c : string) (v : value) (r : row) : row :=
  map (fun '(k, w) => if String.eqb k c then (k, v) else (k, w)) r.

(** A primary key or a unique index; a partial one leaves out the empty text. *)
Record unique := mkUnique { ux_column : string; ux_partial : bool }.

Record table := mkTable {
  t_columns : list string;
  t_unique : list unique;
  t_auto : option string;        (* INTEGER PRIMARY KEY AUTOINCREMENT *)
  t_rows : list row
}.

Definition database := list (string * table).

Fixpoint table_named (name : string) (db : database) : option table :=
  match db with
  | [] => None
  | (k, t) :: db => if String.eqb k name then Some t else table_named name db
  end.

Definition put_table (name : string) (t : table) (db : database) : database :=
  map (fun '(k, u) => if String.eqb k name then (k, t) else (k, u)) db.

Definition with_rows (rows : list row) (t : table) : table :=
  mkTable (t_columns t) (t_unique t) (t_auto t) rows.

(** ** Statements *)

Inductive on_conflict :=
| Abort
| OrIgnore
| OrReplace
| DoUpdate (key : string) (columns : list string)
| DoNothing (key : string).

Inductive stmt :=
| CreateTable (name : string) (columns : list string) (uniques : list unique) (auto : option string)
| CreateIndex (table column : string) (index : option unique)   (* [None]: not unique *)
| Insert (how : on_conflict) (table : string) (fixed : list (string * value)) (columns : list string)
| Pragma (text : string).

Record select := mkSelect {
  sl_columns : list string;
  sl_from : string;
  sl_where : option (string * option value);   (* column = ?, or a literal *)
  sl_order : list (string * bool);       (* descending? *)
  sl_limit : bool                        (* LIMIT ? *)
}.

Inductive query :=
| QSelect (s : select)
| QCount (table : string)
| QMax (column table : string)
| QTableExists (name : string)
| QPragma (text : string).

(** The text of a statement. *)
Definition marks (n : nat) : list string := repeat "?" n.

Definition literal (v : value) : string := match v with VInt z => itoa z | _ => "?" end.

Definition insert_text (how : on_conflict) (table : string) (fixed : list (string * value))
    (columns : list string) : string :=
  (match how with OrIgnore => "INSERT OR IGNORE INTO " | OrReplace => "INSERT OR REPLACE INTO " | _ => "INSERT INTO " end) ++
  table ++ " (" ++ String.concat ", " (fixed.*1 ++ columns)%list ++ ") VALUES (" ++
  String.concat ", " (map literal fixed.*2 ++ marks (length columns))%list ++ ")" ++
  match how with
  | DoUpdate key cols => " ON CONFLICT(" ++ key ++ ") DO UPDATE SET " ++
                         String.concat ", " (map (fun c => c ++ "=excluded." ++ c) cols)
  | DoNothing key => " ON CONFLICT(" ++ key ++ ") DO NOTHING"
  | _ => ""
  end.

Definition select_text (s : select) : string :=
  "SELECT " ++ String.concat ", " (sl_columns s) ++ " FROM " ++ sl_from s ++
  match sl_where s with
  | Some (c, v) => " WHERE " ++ c ++ " = " ++ match v with Some v => literal v | None => "?" end
  | None => ""
  end ++
  match sl_order s with
  | [] => ""
  | l => " ORDER BY " ++ String.concat ", " (map (fun '(c, desc) => c ++ if desc : bool then " DESC" else " ASC") l)
  end ++ (if sl_limit s then " LIMIT ?" else "").

(** ** Their meaning *)

(** The two rows are not allowed together. *)
Definition clash_on (u : unique) (r r' : row) : bool :=
  bool_decide (column r (ux_column u) = column r' (ux_column u)) &&
  negb (bool_decide (column r (ux_column u) = VNull)) &&
  negb (ux_partial u && bool_decide (column r (ux_column u) = VText "")).

Definition clash (t : table) (r r' : row) : bool := existsb (fun u => clash_on u r r') (t_unique t).

Definition max_of (c : string) (rows : list row) : option Z :=
  foldr (fun r acc => match column r c with
                      | VInt z => Some (match acc with Some m => Z.max z m | None => z end)
                      | _ => acc end) None rows.

(** A new row of a table: columns that are not given are NULL, the automatic key is the
    next one (no row of such a table is ever deleted). *)
Definition new_row (t : table) (given : row) : row :=
  map (fun c => (c, if bool_decide (t_auto t = Some c)
                    then VInt (match max_of c (t_rows t) with Some m => m + 1 | None => 1 end)
                    else column given c)) (t_columns t).

Definition same_key (key : string) (r r' : row) : bool := bool_decide (column r key = column r' key).

(** The rows after an INSERT, and how many it affected. *)
Definition insert_row (how : on_conflict) (r : row) (t : table) : option (list row * Z) :=
  let clashing := List.filter (clash t r) (t_rows t) in
  let abort := if is_nil clashing then Some (t_rows t ++ [r], 1)%list else None in
  match how with
  | Abort => abort
  | OrIgnore => if is_nil clashing then abort else Some (t_rows t, 0)
  | OrReplace => Some (List.filter (fun r' => negb (clash t r r')) (t_rows t) ++ [r], 1)%list
  | DoUpdate key cols =>
      if existsb (same_key key r) (t_rows t) then
        Some (map (fun r' => if same_key key r r'
                             then foldl (fun r' c => set_column c (column r c) r') r' cols
                             else r') (t_rows t), 1)
      else abort
  | DoNothing key => if existsb (same_key key r) (t_rows t) then Some (t_rows t, 0) else abort
  end.

Definition run_insert (how : on_conflict) (name : string) (fixed : list (string * value)) (columns : list string)
    (args : list value) (db : database) : option (database * Z) :=
  t ← table_named name db;
  if Nat.eqb (length args) (length columns) then
    '(rows, n) ← insert_row how (new_row t (fixed ++ zip columns args)%list) t;
    Some (put_table name (with_rows rows t) db, n)
  else None.

(** [None]: the statement fails, a constraint is violated or a table does not exist. *)
Definition run (s : stmt) (args : list value) (db : database) : option (database * Z) :=
  match s with
  | Pragma _ => Some (db, 0)
  | CreateTable name columns uniques auto =>
      match table_named name db with
      | Some _ => Some (db, 0)
      | None => Some (db ++ [(name, mkTable columns uniques auto [])], 0)%list
      end
  | CreateIndex name _ index =>
      t ← table_named name db;
      Some (match index with
            | None => db
            | Some u =>
                if existsb (fun v => String.eqb (ux_column v) (ux_column u)) (t_unique t) then db
                else put_table name (mkTable (t_columns t) (t_unique t ++ [u])%list (t_auto t) (t_rows t)) db
            end, 0)
  | Insert how name fixed columns => run_insert how name fixed columns args db
  end.

(** NULL before numbers before text before blobs. *)
Definition compare_values (v w : value) : comparison :=
  let rank v := match v with VNull => 0 | VInt _ => 1 | VText _ => 2 | VBlob _ => 3 end in
  match v, w with
  | VInt a, VInt b => Z.compare a b
  | VText a, VText b | VBlob a, VBlob b => String.compare a b
  | _, _ => Z.compare (rank v) (rank w)
  end.

Fixpoint compare_rows (order : list (string * bool)) (r r' : row) : comparison :=
  match order with
  | [] => Eq
  | (c, desc) :: order =>
      match compare_values (column r c) (column r' c) with
      | Eq => compare_rows order r r'
      | o => if desc : bool then CompOpp o else o
      end
  end.

Definition row_le (order : list (string * bool)) (r r' : row) : Prop := compare_rows order r r' <> Gt.

#[export] Instance row_le_dec order : RelDecision (row_le order).
Proof. intros r r'. unfold row_le. apply _. Defined.

Definition selected (s : select) (args : list value) (r : row) : bool :=
  match sl_where s, args with
  | Some (c, Some v), _ | Some (c, None), v :: _ => bool_decide (column r c = v)
  | Some (_, None), [] => false
  | None, _ => true
  end.

Definition limit_rows {A} (s : select) (args : list value) (l : list A) : list A :=
  if sl_limit s then
    match last args with Some (VInt n) => if n <? 0 then l else take (Z.to_nat n) l | _ => l end
  else l.

Definition project (columns : list string) (r : row) : list value := map (column r) columns.

(** Rows that the order does not tell apart may come in any order. *)
Definition selects (s : select) (args : list value) (rows : list row) (out : list (list value)) : Prop :=
  exists l, l ≡ₚ List.filter (selected s args) rows /\ StronglySorted (row_le (sl_order s)) l /\
            out = map (project (sl_columns s)) (limit_rows s args l).

Definition answers (q : query) (args : list value) (db : database) (out : list (list value)) : Prop :=
  match q with
  | QSelect s => exists t, table_named (sl_from s) db = Some t /\ selects s args (t_rows t) out
  | QCount name => exists t, table_named name db = Some t /\ out = [[VInt (Z.of_nat (length (t_rows t)))]]
  | QMax c name => exists t, table_named name db = Some t /\
      out = [[match max_of c (t_rows t) with Some z => VInt z | None => VNull end]]
  | QTableExists name => out = [[VInt (match table_named name db with Some _ => 1 | None => 0 end)]]
  | QPragma _ => True
  end.

(** ** The engine

    [DB] is a database handle and what is stored behind it, [Tx] a transaction and the
    handle it was begun on. *)
Class Engine (DB Tx : Type) := {
  Exec : DB -> stmt -> list value -> DB * result Z;
  Query : DB -> query -> list value -> result (list (list value));
  BeginTx : DB -> result Tx;
  TxExec : Tx -> stmt -> list value -> Tx * result Z;
  TxQuery : Tx -> query -> list value -> result (list (list value));
  TxCommit : Tx -> DB * result unit;
  Rollback : Tx -> DB
}.

Class EngineLaws (DB Tx : Type) `{Engine DB Tx} := {
  view : DB -> database;
  tx_view : Tx -> database;
  tx_base : Tx -> database;
  Exec_law db s args :
    match Exec db s args with
    | (db', Ok n) => run s args (view db) = Some (view db', n)
    | (db', Err _) => view db' = view db
    end;
  Query_law db q args out : Query db q args = Ok out -> answers q args (view db) out;
  Begin_law db tx : BeginTx db = Ok tx -> tx_view tx = view db /\ tx_base tx = view db;
  TxExec_law tx s args :
    let '(tx', r) := TxExec tx s args in
    tx_base tx' = tx_base tx /\
    match r with
    | Ok n => run s args (tx_view tx) = Some (tx_view tx', n)
    | Err _ => tx_view tx' = tx_view tx
    end;
  TxQuery_law tx q args out : TxQuery tx q args = Ok out -> answers q args (tx_view tx) out;
  TxCommit_law tx :
    match TxCommit tx with
    | (db, Ok _) => view db = tx_view tx
    | (db, Err _) => view db = tx_base tx
    end;
  Rollback_law tx : view (Rollback tx) = tx_base tx
}.

(** The query reads a table there is. *)
Definition answerable (q : query) (db : database) : bool :=
  let known name := match table_named name db with Some _ => true | None => false end in
  match q with
  | QSelect s => known (sl_from s)
  | QCount name | QMax _ name => known name
  | QTableExists _ | QPragma _ => true
  end.

(** An engine that fails only where a statement's meaning does. *)
Class ReliableEngine (DB Tx : Type) `{EngineLaws DB Tx} := {
  Exec_total db s args p : run s args (view db) = Some p -> is_ok (Exec db s args).2 = true;
  Query_total db q args : answerable q (view db) = true -> is_ok (Query db q args) = true;
  BeginTx_total db : is_ok (BeginTx db) = true;
  TxExec_total tx s args p : run s args (tx_view tx) = Some p -> is_ok (TxExec tx s args).2 = true;
  TxQuery_total tx q args : answerable q (tx_view tx) = true -> is_ok (TxQuery tx q args) = true;
  TxCommit_total tx : is_ok (TxCommit tx).2 = true
}.

(** ** The meaning as an engine *)

Definition exec_ref (db : database) (s : stmt) (args : list value) : database * result Z :=
  match run s args db with
  | Some (db', n) => (db', Ok n)
  | None => (db, fail "constraint failed")
  end.

Definition query_ref (db : database) (q : query) (args : list value) : result (list (list value)) :=
  let on name (f : table -> list (list value)) :=
    match table_named name db with Some t => Ok (f t) | None => fail ("no such table: " ++ name) end in
  match q with
  | QSelect s => on (sl_from s) (fun t =>
      map (project (sl_columns s))
        (limit_rows s args (merge_sort (row_le (sl_order s)) (List.filter (selected s args) (t_rows t)))))
  | QCount name => on name (fun t => [[VInt (Z.of_nat (length (t_rows t)))]])
  | QMax c name => on name (fun t => [[match max_of c (t_rows t) with Some z => VInt z | None => VNull end]])
  | QTableExists name => Ok [[VInt (match table_named name db with Some _ => 1 | None => 0 end)]]
  | QPragma _ => Ok [[VText "ok"]]
  end.

#[export] Instance reference_engine : Engine database (database * database) := {
  Exec := exec_ref;
  Query := query_ref;
  BeginTx db := Ok (db, db);
  TxExec tx s args := let '(db, r) := exec_ref tx.2 s args in ((tx.1, db), r);
  TxQuery tx := query_ref tx.2;
  TxCommit tx := (tx.2, Ok tt);
  Rollback tx := tx.1
}.

(** *** The order of rows *)

Lemma compare_values_eq v w : compare_values v w = Eq -> v = w.
Proof.
  destruct v, w; cbn; try done; [intros ->%Z.compare_eq_iff|intros ->%String.compare_eq_iff..]; done.
Qed.

Lemma string_compare_refl s : String.compare s s = Eq.
Proof. pose proof (String.compare_antisym s s). by destruct (String.compare s s). Qed.

Lemma compare_values_refl v : compare_values v v = Eq.
Proof. destruct v; cbn; try done; [apply Z.compare_refl|apply string_compare_refl..]. Qed.

Lemma compare_values_opp v w : compare_values w v = CompOpp (compare_values v w).
Proof.
  destruct v, w; cbn; try done;
    [apply Z.compare_antisym|apply String.compare_antisym..].
Qed.

Lemma string_lt_trans s t u :
  String.compare s t = Lt -> String.compare t u = Lt -> String.compare s u = Lt.
Proof.
  intros Hst Htu. assert (Hle : String.le s u).
  { assert (H1 : String.le s t) by (unfold String.le, String.leb; by rewrite Hst).
    assert (H2 : String.le t u) by (unfold String.le, String.leb; by rewrite Htu). by transitivity t. }
  destruct (String.compare s u) eqn:E; [|done|].
  - apply String.compare_eq_iff in E as ->. rewrite String.compare_antisym, Hst in Htu. done.
  - unfold String.le, String.leb in Hle. by rewrite E in Hle.
Qed.

Lemma compare_values_lt u v w :
  compare_values u v = Lt -> compare_values v w = Lt -> compare_values u w = Lt.
Proof.
  destruct u, v, w; cbn; try done; [rewrite !Z.compare_lt_iff; lia|apply string_lt_trans..].
Qed.

Lemma compare_rows_opp order r r' : compare_rows order r' r = CompOpp (compare_rows order r r').
Proof.
  induction order as [|[c desc] order IH]; [done|]. cbn. rewrite (compare_values_opp (column r c) (column r' c)).
  destruct (compare_values (column r c) (column r' c)); cbn; [done|by destruct desc..].
Qed.

Definition directed (desc : bool) (v w : value) : comparison :=
  if desc then CompOpp (compare_values v w) else compare_values v w.

Lemma directed_lt desc u v w : directed desc u v = Lt -> directed desc v w = Lt -> directed desc u w = Lt.
Proof.
  destruct desc; cbn; [|apply compare_values_lt]. rewrite <-!compare_values_opp. intros H1 H2.
  by apply (compare_values_lt _ v).
Qed.

Lemma compare_rows_cons c desc order r r' :
  compare_rows ((c, desc) :: order) r r' =
  match directed desc (column r c) (column r' c) with Eq => compare_rows order r r' | o => o end.
Proof. cbn. unfold directed. by destruct desc, (compare_values _ _). Qed.

Lemma directed_eq desc v w : directed desc v w = Eq -> v = w.
Proof.
  unfold directed. destruct desc; [|apply compare_values_eq]. rewrite <-compare_values_opp.
  intros E. by apply compare_values_eq in E.
Qed.

#[export] Instance row_le_trans order : Transitive (row_le order).
Proof.
  unfold row_le. induction order as [|[c desc] order IH]; intros r1 r2 r3; [done|].
  rewrite !compare_rows_cons. intros H12 H23.
  destruct (directed desc (column r1 c) (column r2 c)) eqn:E12; [| |done].
  - apply directed_eq in E12 as ->.
    destruct (directed desc (column r2 c) (column r3 c)); [by eapply IH|done..].
  - destruct (directed desc (column r2 c) (column r3 c)) eqn:E23; [| |done].
    + apply directed_eq in E23 as <-. by rewrite E12.
    + by rewrite (directed_lt _ _ _ _ E12 E23).
Qed.

#[export] Instance row_le_total order : Total (row_le order).
Proof.
  intros r r'. unfold row_le. rewrite (compare_rows_opp order r r'). destruct (compare_rows order r r'); by (left + right).
Qed.

#[export] Instance reference_laws : EngineLaws database (database * database).
Proof.
  assert (Hquery : forall db q args out, query_ref db q args = Ok out -> answers q args db out).
  { intros db [s|name|c name|name|text] args out; cbn [query_ref answers];
      [destruct (table_named (sl_from s) db) as [t|] eqn:E
      |destruct (table_named name db) as [t|] eqn:E..|]; try done; intros [= <-]; try (by eexists); try done.
    eexists. split; [done|]. eexists. split_and!; [|apply StronglySorted_merge_sort; apply _|done].
    apply merge_sort_Permutation. }
  refine {| view db := db; tx_view tx := tx.2; tx_base tx := tx.1 |}.
  - intros db s args. cbn. unfold exec_ref. by destruct (run s args db) as [[db' n]|] eqn:E.
  - exact Hquery.
  - by intros db tx [= <-].
  - intros [b db] s args. cbn. unfold exec_ref. by destruct (run s args db) as [[db' n]|] eqn:E.
  - intros tx. exact (Hquery tx.2).
  - done.
  - done.
Defined.

Lemma query_ref_total db q args : answerable q db = true -> is_ok (query_ref db q args) = true.
Proof.
  destruct q as [s|name|c name|name|text]; cbn; try done;
    [destruct (table_named (sl_from s) db)|destruct (table_named name db)..]; done.
Qed.

#[export] Instance reference_reliable : ReliableEngine database (database * database).
Proof.
  constructor; cbn.
  - intros db s args p E. unfold exec_ref. rewrite E. by destruct p.
  - apply query_ref_total.
  - done.
  - intros [b db] s args p E. cbn in *. unfold exec_ref. rewrite E. by destruct p.
  - intros tx. apply query_ref_total.
  - done.
Qed.
