(* ===== verification/Sqlite.v ===== *)
(** * The SQLite store: core/storage/sqlite.go

    The store's methods as the statements they run, in a transaction or on their own;
    the schema and its migration; and what the store promises whatever engine runs the
    statements.  A nil [[]byte] and an empty one are not told apart. *)

From S2P Require Import Prelude Store FileStore Sql.
Local Open Scope string_scope.
Local Open Scope Z_scope.

Definition SQLiteSchemaVersion : Z := 1.

(** ** Arguments and results: database/sql *)

Inductive arg := AUint (z : Z) | AInt (z : Z) | AText (s : string) | ABytes (s : string).

Fixpoint bind_from (i : Z) (args : list arg) : result (list value) :=
  match args with
  | [] => Ok []
  | a :: args =>
      v ← match a with
          | AUint z =>
              if z <? 2 ^ 63 then Ok (VInt z)
              else Err (errorf ["sql: converting argument $"; itoa i;
                                " type: uint64 values with high bit set are not supported"])
          | AInt z => Ok (VInt z)
          | AText s => Ok (VText s)
          | ABytes s => Ok (VBlob s)
          end;
      vs ← bind_from (i + 1) args; Ok (v :: vs)
  end.

(** The arguments as the driver is given them; a [uint64] must fit an [int64]. *)
Definition bind_args (args : list arg) : result (list value) := bind_from 1 args.

(** The text of a failed [Scan] is not modelled. *)
Definition scan_error : error := errors_New "sql: Scan error".

Definition scan_uint (v : value) : result Z :=
  match v with VInt z => if 0 <=? z then Ok z else Err scan_error | _ => Err scan_error end.

Definition scan_int (v : value) : result Z := match v with VInt z => Ok z | _ => Err scan_error end.

Definition scan_text (v : value) : result string :=
  match v with VText s | VBlob s => Ok s | VInt z => Ok (itoa z) | VNull => Err scan_error end.

Definition scan_bytes (v : value) : result string :=
  match v with VText s | VBlob s => Ok s | VInt z => Ok (itoa z) | VNull => Ok "" end.

Definition scanValidatorState (vs : list value) : result ValidatorState :=
  match vs with
  | [node; region; height; round; hash; digest; lheight; lround; lhash; count; key; sig; kem; at_] =>
      node ← scan_text node; region ← scan_text region; height ← scan_uint height; round ← scan_uint round;
      hash ← scan_text hash; digest ← scan_text digest; lheight ← scan_uint lheight; lround ← scan_uint lround;
      lhash ← scan_text lhash; count ← scan_int count; key ← scan_text key; sig ← scan_text sig;
      kem ← scan_text kem; at_ ← scan_int at_;
      Ok (mkValidatorState node region height round hash digest lheight lround lhash count key sig kem at_)
  | _ => Err scan_error
  end.

Definition scanCommit (vs : list value) : result CommitRecord :=
  match vs with
  | [height; round; hash; digest; commit; certificate; key; at_] =>
      height ← scan_uint height; round ← scan_uint round; hash ← scan_text hash; digest ← scan_text digest;
      commit ← scan_bytes commit; certificate ← scan_bytes certificate; key ← scan_text key; at_ ← scan_int at_;
      Ok (mkCommitRecord height round hash digest commit certificate key at_)
  | _ => Err scan_error
  end.

Definition scanSnapshot (vs : list value) : result SnapshotRecord :=
  match vs with
  | [id; height; hash; snapshot; at_] =>
      id ← scan_text id; height ← scan_uint height; hash ← scan_text hash; snapshot ← scan_bytes snapshot;
      at_ ← scan_int at_; Ok (mkSnapshotRecord id height hash snapshot at_)
  | _ => Err scan_error
  end.

Definition scanEvidence (vs : list value) : result EvidenceRecord :=
  match vs with
  | [id; receipt; event; qc; height; org; key; json; at_] =>
      id ← scan_text id; receipt ← scan_text receipt; event ← scan_text event; qc ← scan_text qc;
      height ← scan_uint height; org ← scan_text org; key ← scan_text key; json ← scan_bytes json;
      at_ ← scan_int at_; Ok (mkEvidenceRecord id receipt event qc height org key json at_)
  | _ => Err scan_error
  end.

Definition scanAudit (vs : list value) : result AuditRecord :=
  match vs with
  | [id; time; principal; org; method; path; status; duration; client; denied] =>
      id ← scan_text id; time ← scan_int time; principal ← scan_text principal; org ← scan_text org;
      method ← scan_text method; path ← scan_text path; status ← scan_int status; duration ← scan_int duration;
      client ← scan_text client; denied ← scan_text denied;
      Ok (mkAuditRecord id time principal org method path status duration client denied)
  | _ => Err scan_error
  end.

(** [rows.Next] and [Scan] to the end. *)
Fixpoint scan_rows {A} (scan : list value -> result A) (rows : list (list value)) : result (list A) :=
  match rows with
  | [] => Ok []
  | r :: rows => a ← scan r; l ← scan_rows scan rows; Ok (a :: l)
  end.

(** [QueryRow] and [Scan]: [sql.ErrNoRows] is [None], further rows are not read. *)
Definition scan_row {A} (scan : list value -> result A) (rows : list (list value)) : result (option A) :=
  match rows with [] => Ok None | r :: _ => a ← scan r; Ok (Some a) end.

(** ** The statements *)

Definition state_columns : list string :=
  ["node_id"; "region"; "height"; "round"; "last_hash"; "state_digest"; "locked_height"; "locked_round";
   "locked_block_hash"; "commit_count"; "identity_key_id"; "signature_algorithm"; "kem_algorithm";
   "updated_at_unix_milli"].
Definition commit_columns : list string :=
  ["height"; "round"; "block_hash"; "state_digest"; "commit_json"; "certificate_json"; "identity_key_id";
   "created_at_unix_milli"].
Definition idempotency_columns : list string := ["id"; "result_hash"; "applied_at_unix_milli"].
Definition snapshot_columns : list string :=
  ["id"; "height"; "last_hash"; "snapshot_json"; "created_at_unix_milli"].
Definition evidence_columns : list string :=
  ["evidence_id"; "receipt_id"; "event_hash"; "qc_hash"; "commit_height"; "submitting_org"; "idempotency_key";
   "receipt_json"; "created_at_unix_milli"].
Definition audit_columns : list string :=
  ["request_id"; "timestamp_unix_milli"; "principal_id"; "organization"; "method"; "path"; "status_code";
   "duration_millis"; "client_addr"; "denied_reason"].

Definition select_state : query := QSelect (mkSelect state_columns "validator_state" (Some ("id", Some (VInt 1))) [] false).
Definition insert_state : stmt := Insert (DoUpdate "id" state_columns) "validator_state" [("id", VInt 1)] state_columns.
Definition insert_commit : stmt := Insert Abort "commits" [] commit_columns.
Definition select_commit : query := QSelect (mkSelect commit_columns "commits" (Some ("height", None)) [] false).
Definition select_commits (desc limit : bool) : query :=
  QSelect (mkSelect commit_columns "commits" None [("height", desc)] limit).
Definition insert_idempotency : stmt := Insert OrIgnore "idempotency" [] idempotency_columns.
Definition select_idempotency : query := QSelect (mkSelect ["result_hash"] "idempotency" (Some ("id", None)) [] false).
Definition insert_snapshot : stmt := Insert OrReplace "snapshots" [] snapshot_columns.
Definition select_snapshots : query :=
  QSelect (mkSelect snapshot_columns "snapshots" None [("created_at_unix_milli", false); ("id", false)] false).
Definition insert_evidence : stmt := Insert Abort "evidence" [] evidence_columns.
Definition select_evidence (column : string) : query :=
  QSelect (mkSelect evidence_columns "evidence" (Some (column, None)) [] false).
Definition list_evidence : query :=
  QSelect (mkSelect evidence_columns "evidence" None [("evidence_id", false)] false).
Definition recent_evidence (limit : bool) : query :=
  QSelect (mkSelect evidence_columns "evidence" None [("created_at_unix_milli", true); ("evidence_id", true)] limit).
Definition insert_audit : stmt := Insert Abort "audit" [] audit_columns.
Definition list_audit (limit : bool) : query :=
  QSelect (mkSelect audit_columns "audit" None [("timestamp_unix_milli", true); ("row_id", true)] limit).

(** The arguments of the INSERTs. *)
Definition state_args (s : ValidatorState) : list arg :=
  [AText (st_NodeID s); AText (st_Region s); AUint (st_Height s); AUint (st_Round s); AText (st_LastHash s);
   AText (st_StateDigest s); AUint (st_LockedHeight s); AUint (st_LockedRound s); AText (st_LockedBlockHash s);
   AInt (st_CommitCount s); AText (st_IdentityKeyID s); AText (st_SignatureAlgorithm s); AText (st_KEMAlgorithm s);
   AInt (st_UpdatedAtUnixMilli s)].
Definition commit_args (r : CommitRecord) : list arg :=
  [AUint (cr_Height r); AUint (cr_Round r); AText (cr_BlockHash r); AText (cr_StateDigest r);
   ABytes (cr_CommitJSON r); ABytes (cr_CertificateJSON r); AText (cr_IdentityKeyID r); AInt (cr_CreatedAtUnixMilli r)].
Definition idempotency_args (r : IdempotencyRecord) : list arg :=
  [AText (ir_ID r); AText (ir_ResultHash r); AInt (ir_AppliedAtUnixMilli r)].
Definition snapshot_args (r : SnapshotRecord) : list arg :=
  [AText (sr_ID r); AUint (sr_Height r); AText (sr_LastHash r); ABytes (sr_SnapshotJSON r); AInt (sr_CreatedAtUnixMilli r)].
Definition evidence_args (r : EvidenceRecord) : list arg :=
  [AText (er_EvidenceID r); AText (er_ReceiptID r); AText (er_EventHash r); AText (er_QCHash r); AUint (er_CommitHeight r);
   AText (er_SubmittingOrg r); AText (er_IdempotencyKey r); ABytes (er_ReceiptJSON r); AInt (er_CreatedAtUnixMilli r)].
Definition audit_args (r : AuditRecord) : list arg :=
  [AText (ar_RequestID r); AInt (ar_TimestampUnixMilli r); AText (ar_PrincipalID r); AText (ar_Organization r);
   AText (ar_Method r); AText (ar_Path r); AInt (ar_StatusCode r); AInt (ar_DurationMillis r); AText (ar_ClientAddr r);
   AText (ar_DeniedReason r)].

(** *** The schema *)

Definition sqliteV1Statements : list stmt :=
  [CreateTable "schema_migrations" ["version"; "name"; "applied_at_unix_milli"] [mkUnique "version" false] None;
   CreateTable "validator_state" ("id" :: state_columns) [mkUnique "id" false] None;
   CreateTable "commits" commit_columns [mkUnique "height" false] None;
   CreateIndex "commits" "block_hash" (Some (mkUnique "block_hash" false));
   CreateTable "idempotency" idempotency_columns [mkUnique "id" false] None;
   CreateTable "snapshots" snapshot_columns [mkUnique "id" false] None;
   CreateTable "evidence" evidence_columns [mkUnique "evidence_id" false; mkUnique "receipt_id" false] None;
   CreateIndex "evidence" "event_hash" None;
   CreateIndex "evidence" "qc_hash" (Some (mkUnique "qc_hash" true));
   CreateIndex "evidence" "idempotency_key" (Some (mkUnique "idempotency_key" true));
   CreateIndex "evidence" "submitting_org" None;
   CreateIndex "evidence" "commit_height" None;
   CreateTable "audit" ("row_id" :: audit_columns) [mkUnique "row_id" false] (Some "row_id");
   CreateIndex "audit" "timestamp_unix_milli" None].

Definition insert_migration : stmt :=
  Insert (DoNothing "version") "schema_migrations" [] ["version"; "name"; "applied_at_unix_milli"].

(** ** The store *)

Section store.
Context {DB Tx : Type} `{Engine DB Tx}.

(** [SQLiteStore] is its database handle. *)
Definition exec_args (db : DB) (s : stmt) (args : list arg) : DB * result Z :=
  match bind_args args with Ok vs => Exec db s vs | Err e => (db, Err e) end.

Definition tx_exec_args (tx : Tx) (s : stmt) (args : list arg) : Tx * result Z :=
  match bind_args args with Ok vs => TxExec tx s vs | Err e => (tx, Err e) end.

Definition query_args (db : DB) (q : query) (args : list arg) : result (list (list value)) :=
  vs ← bind_args args; Query db q vs.

Definition tx_query_args (tx : Tx) (q : query) (args : list arg) : result (list (list value)) :=
  vs ← bind_args args; TxQuery tx q vs.

(** [BeginTx], the body, and [Commit], or [Rollback] when the body fails. *)
Definition in_tx {A} (db : DB) (body : Tx -> Tx * result A) : DB * result A :=
  match BeginTx db with
  | Err e => (db, Err e)
  | Ok tx =>
      match body tx with
      | (tx, Err e) => (Rollback tx, Err e)
      | (tx, Ok a) => match TxCommit tx with
                      | (db, Ok _) => (db, Ok a)
                      | (db, Err e) => (db, Err e)
                      end
      end
  end.

Definition without_count (p : DB * result Z) : DB * result unit := (p.1, _ ← p.2; Ok tt).

Definition errOrNotFound (ok : bool) : result unit := if ok then Ok tt else Err ErrNotFound.

Definition sqliteCommitTx (tx : Tx) (height : Z) : result (option CommitRecord) :=
  rows ← tx_query_args tx select_commit [AUint height]; scan_row scanCommit rows.

Definition sqliteCommitQuery (db : DB) (height : Z) : result (option CommitRecord) :=
  rows ← query_args db select_commit [AUint height]; scan_row scanCommit rows.

Definition sqliteEvidenceByColumn (db : DB) (column value : string) : result (option EvidenceRecord) :=
  rows ← query_args db (select_evidence column) [AText value]; scan_row scanEvidence rows.

Definition sqliteEvidenceByColumnTx (tx : Tx) (column value : string) : result (option EvidenceRecord) :=
  rows ← tx_query_args tx (select_evidence column) [AText value]; scan_row scanEvidence rows.

Definition sqliteSaveStateTx (tx : Tx) (state : ValidatorState) : Tx * result Z :=
  tx_exec_args tx insert_state (state_args state).

Definition save_commit_body (record : CommitRecord) (state : ValidatorState) (tx : Tx) : Tx * result unit :=
  match sqliteCommitTx tx (cr_Height record) with
  | Err e => (tx, Err e)
  | Ok (Some existing) =>
      if negb (String.eqb (cr_BlockHash existing) (cr_BlockHash record))
      then (tx, Err (errorf ["conflicting sqlite commit at height "; itoa (cr_Height record)]))
      else match sqliteSaveStateTx tx state with
           | (tx, Err e) => (tx, Err e)
           | (tx, Ok _) => (tx, Ok tt)
           end
  | Ok None =>
      match tx_exec_args tx insert_commit (commit_args record) with
      | (tx, Err e) => (tx, Err e)
      | (tx, Ok _) => match sqliteSaveStateTx tx state with
                      | (tx, Err e) => (tx, Err e)
                      | (tx, Ok _) => (tx, Ok tt)
                      end
      end
  end.

(** What [SaveEvidence] answers when it does not store the record: an error, or the
    record it found and whether that is a conflict. *)
Definition evidence_found (record : EvidenceRecord) (tx : Tx)
    : result (option (EvidenceRecord * option error)) :=
  byID ← sqliteEvidenceByColumnTx tx "evidence_id" (er_EvidenceID record);
  match byID with
  | Some existing =>
      Ok (Some (existing, if negb (String.eqb (er_ReceiptID existing) (er_ReceiptID record))
                          then Some (errorf ["conflicting evidence record for "; er_EvidenceID record]) else None))
  | None =>
      byKey ← (if negb (String.eqb (er_IdempotencyKey record) "")
               then sqliteEvidenceByColumnTx tx "idempotency_key" (er_IdempotencyKey record) else Ok None);
      match byKey with
      | Some existing => Ok (Some (existing, None))
      | None =>
          byReceipt ← sqliteEvidenceByColumnTx tx "receipt_id" (er_ReceiptID record);
          match byReceipt with
          | Some existing =>
              if negb (String.eqb (er_EvidenceID existing) (er_EvidenceID record))
              then Ok (Some (existing, Some (errorf ["conflicting receipt id "; er_ReceiptID record])))
              else Ok None
          | None => Ok None
          end
      end
  end.

(** [return ..., tx.Commit()]. *)
Definition commit_with {A} (tx : Tx) (a : A) : DB * (A * option error) :=
  match TxCommit tx with
  | (db, Ok _) => (db, (a, None))
  | (db, Err e) => (db, (a, Some e))
  end.

Definition SQLite_SaveEvidence (db : DB) (record : EvidenceRecord) : DB * (bool * EvidenceRecord * option error) :=
  match BeginTx db with
  | Err e => (db, (false, zero_evidence, Some e))
  | Ok tx =>
      match evidence_found record tx with
      | Err e => (Rollback tx, (false, zero_evidence, Some e))
      | Ok (Some (existing, Some e)) => (Rollback tx, (false, existing, Some e))
      | Ok (Some (existing, None)) => commit_with tx (false, existing)
      | Ok None =>
          match tx_exec_args tx insert_evidence (evidence_args record) with
          | (tx, Err e) => (Rollback tx, (false, zero_evidence, Some e))
          | (tx, Ok _) => commit_with tx (true, record)
          end
      end
  end.

Definition SQLite_LoadValidatorState (db : DB) : result (option ValidatorState) :=
  rows ← query_args db select_state []; scan_row scanValidatorState rows.

Definition SQLite_SaveValidatorState (db : DB) (state : ValidatorState) : DB * result unit :=
  without_count (exec_args db insert_state (state_args state)).

Definition SQLite_SaveCommit (db : DB) (record : CommitRecord) (state : ValidatorState) : DB * result unit :=
  in_tx db (save_commit_body record state).

Definition SQLite_ListCommits (db : DB) : result (list CommitRecord) :=
  rows ← query_args db (select_commits false false) []; scan_rows scanCommit rows.

(** A list query whose limit is an argument when it is positive. *)
Definition limited_query {A} (db : DB) (q : bool -> query) (limit : Z) (scan : list value -> result A) : result (list A) :=
  rows ← (if 0 <? limit then query_args db (q true) [AInt limit] else query_args db (q false) []);
  scan_rows scan rows.

Definition SQLite_RecentCommits (db : DB) (limit : Z) : result (list CommitRecord) :=
  limited_query db (select_commits true) limit scanCommit.

Definition SQLite_Commit (db : DB) (height : Z) : result (option CommitRecord) := sqliteCommitQuery db height.

Definition SQLite_IdempotencyResult (db : DB) (id : string) : result (option string) :=
  rows ← query_args db select_idempotency [AText id];
  scan_row (fun vs => match vs with [v] => scan_text v | _ => Err scan_error end) rows.

Definition SQLite_RecordIdempotency (db : DB) (now : Time) (id resultHash : string)
    : DB * result (bool * string) :=
  let record := mkIdempotencyRecord id resultHash (UnixMilli now) in
  match exec_args db insert_idempotency (idempotency_args record) with
  | (db, Err e) => (db, Err e)
  | (db, Ok rows) =>
      if rows =? 1 then (db, Ok (true, resultHash))
      else (db, existing ← SQLite_IdempotencyResult db id;
                _ ← errOrNotFound (match existing with Some _ => true | None => false end);
                Ok (false, default "" existing))
  end.

Definition SQLite_IdempotencyCount (db : DB) : result Z :=
  rows ← query_args db (QCount "idempotency") [];
  match rows with [v] :: _ => scan_int v | _ => Err scan_error end.

Definition SQLite_SaveSnapshot (db : DB) (record : SnapshotRecord) : DB * result unit :=
  without_count (exec_args db insert_snapshot (snapshot_args record)).

Definition SQLite_ListSnapshots (db : DB) : result (list SnapshotRecord) :=
  rows ← query_args db select_snapshots []; scan_rows scanSnapshot rows.

Definition SQLite_EvidenceByID (db : DB) (id : string) := sqliteEvidenceByColumn db "evidence_id" id.
Definition SQLite_EvidenceByReceiptID (db : DB) (id : string) := sqliteEvidenceByColumn db "receipt_id" id.
Definition SQLite_EvidenceByIdempotencyKey (db : DB) (key : string) := sqliteEvidenceByColumn db "idempotency_key" key.
Definition SQLite_EvidenceByQCHash (db : DB) (hash : string) := sqliteEvidenceByColumn db "qc_hash" hash.

Definition SQLite_ListEvidence (db : DB) : result (list EvidenceRecord) :=
  rows ← query_args db list_evidence []; scan_rows scanEvidence rows.

Definition SQLite_RecentEvidence (db : DB) (limit : Z) : result (list EvidenceRecord) :=
  limited_query db recent_evidence limit scanEvidence.

Definition SQLite_SaveAudit (db : DB) (record : AuditRecord) : DB * result unit :=
  without_count (exec_args db insert_audit (audit_args record)).

Definition SQLite_ListAudit (db : DB) (limit : Z) : result (list AuditRecord) :=
  limited_query db list_audit limit scanAudit.

(** *** Opening a database *)

Definition sqliteCurrentVersion (db : DB) : result Z :=
  rows ← Query db (QTableExists "schema_migrations") [];
  count ← match rows with [v] :: _ => scan_int v | _ => Err scan_error end;
  if count =? 0 then Ok 0
  else
    rows ← Query db (QMax "version" "schema_migrations") [];
    match rows with
    | [VNull] :: _ => Ok 0
    | [v] :: _ => scan_int v
    | _ => Err scan_error
    end.

Fixpoint exec_all (tx : Tx) (statements : list stmt) : Tx * result unit :=
  match statements with
  | [] => (tx, Ok tt)
  | s :: statements =>
      match TxExec tx s [] with
      | (tx, Err e) => (tx, Err e)
      | (tx, Ok _) => exec_all tx statements
      end
  end.

Definition migrate_body (now : Time) (tx : Tx) : Tx * result unit :=
  match exec_all tx sqliteV1Statements with
  | (tx, Err e) => (tx, Err e)
  | (tx, Ok _) =>
      match tx_exec_args tx insert_migration
              [AInt SQLiteSchemaVersion; AText "initial evidence fabric sqlite schema"; AInt (UnixMilli now)] with
      | (tx, Err e) => (tx, Err e)
      | (tx, Ok _) => (tx, Ok tt)
      end
  end.

Definition newer_version (current : Z) : error :=
  errorf ["sqlite schema version "; itoa current; " is newer than supported version "; itoa SQLiteSchemaVersion].

(** The versions applied, or pending in a dry run. *)
Definition migrateSQLite (now : Time) (dryRun : bool) (db : DB) : DB * result (list Z) :=
  if dryRun then
    (db, current ← sqliteCurrentVersion db;
         if SQLiteSchemaVersion <? current then Err (newer_version current)
         else if current <? SQLiteSchemaVersion then Ok [SQLiteSchemaVersion]
         else Ok [])
  else
    match Exec db (Pragma "PRAGMA journal_mode=WAL") [] with
    | (db, Err e) => (db, Err e)
    | (db, Ok _) =>
        match Exec db (Pragma "PRAGMA foreign_keys=ON") [] with
        | (db, Err e) => (db, Err e)
        | (db, Ok _) =>
            match sqliteCurrentVersion db with
            | Err e => (db, Err e)
            | Ok current =>
                if SQLiteSchemaVersion <? current then (db, Err (newer_version current))
                else if SQLiteSchemaVersion <=? current then (db, Ok [])
                else let '(db, r) := in_tx db (migrate_body now) in (db, _ ← r; Ok [SQLiteSchemaVersion])
            end
        end
    end.

Definition simpleSQLitePath (dsn : string) : bool := negb (HasPrefix dsn "file:") && negb (Contains dsn "?").

(** What the operating system answers: making the directory of a file, whether a file
    exists; and [sql.Open]. *)
Context (make_dir : string -> result unit) (fileExists : string -> bool) (sql_Open : string -> result DB).

Definition ensureSQLiteDir (dsn : string) : result unit :=
  if simpleSQLitePath dsn then make_dir dsn else Ok tt.

Definition url_required : error := errors_New "sqlite database URL is required".

Definition OpenSQLiteStore (now : Time) (dsn : string) : result DB :=
  let dsn := TrimSpace dsn in
  if String.eqb dsn "" then Err url_required
  else
    _ ← ensureSQLiteDir dsn;
    db ← sql_Open dsn;
    match migrateSQLite now false db with
    | (db, Ok _) => Ok db
    | (_, Err e) => Err e
    end.

Record SQLiteMigrationReport := mkMigrationReport {
  mr_Status : string;
  mr_DatabaseURL : string;
  mr_CurrentVersion : Z;
  mr_TargetVersion : Z;
  mr_DryRun : bool;
  mr_PendingVersions : list Z;
  mr_AppliedVersions : list Z;
  mr_GeneratedAtUnixMilli : Z;
  mr_Message : string
}.

(** The report of a dry run of a database that can be read. *)
Definition dry_run_report (now : Time) (dsn : string) (current : Z) : SQLiteMigrationReport :=
  let report status pending message :=
    mkMigrationReport status dsn current SQLiteSchemaVersion true pending [] (UnixMilli now) message in
  if SQLiteSchemaVersion <? current then
    report "fail" [] ("database schema version " ++ itoa current ++ " is newer than supported version " ++
                      itoa SQLiteSchemaVersion)
  else if current <? SQLiteSchemaVersion then
    report "pass" [SQLiteSchemaVersion] "pending sqlite schema migration"
  else report "pass" [] "sqlite schema is current".

Definition CheckSQLiteMigrations (now : Time) (dsn : string) (dryRun : bool) : result SQLiteMigrationReport :=
  let dsn := TrimSpace dsn in
  if String.eqb dsn "" then Err url_required
  else if dryRun && simpleSQLitePath dsn && negb (fileExists dsn) then
    Ok (mkMigrationReport "pass" dsn 0 SQLiteSchemaVersion dryRun [SQLiteSchemaVersion] [] (UnixMilli now)
          "database does not exist; schema version 1 would be created")
  else
    _ ← (if negb dryRun then ensureSQLiteDir dsn else Ok tt);
    let openDSN := if dryRun && simpleSQLitePath dsn then "file:" ++ dsn ++ "?mode=ro" else dsn in
    db ← sql_Open openDSN;
    if dryRun then current ← sqliteCurrentVersion db; Ok (dry_run_report now dsn current)
    else
      let '(db, applied) := migrateSQLite now false db in
      applied ← applied;
      current ← sqliteCurrentVersion db;
      Ok (mkMigrationReport "pass" dsn current SQLiteSchemaVersion dryRun [] applied (UnixMilli now)
            (if is_nil applied then "sqlite schema is current" else "sqlite schema migrations applied")).

(** The answer of the check is returned next to the error that it is not [ok]. *)
Definition SQLiteIntegrityCheck (dsn : string) : string * option error :=
  match sql_Open dsn with
  | Err e => ("", Some e)
  | Ok db =>
      match (rows ← Query db (QPragma "PRAGMA quick_check") [];
             match rows with [v] :: _ => scan_text v | _ => Err scan_error end) with
      | Err e => ("", Some e)
      | Ok r => (r, if String.eqb r "ok" then None
                    else Some (errors_New ("sqlite integrity check failed: " ++ r)))
      end
  end.
End store.

#[export] Instance sqlite_store {DB Tx : Type} `{Engine DB Tx} : ValidatorStore DB := {
  LoadValidatorState := SQLite_LoadValidatorState;
  SaveValidatorState := SQLite_SaveValidatorState;
  SaveCommit := SQLite_SaveCommit;
  ListCommits := SQLite_ListCommits;
  RecentCommits := SQLite_RecentCommits;
  Commit := SQLite_Commit;
  RecordIdempotency := SQLite_RecordIdempotency;
  IdempotencyResult := SQLite_IdempotencyResult;
  IdempotencyCount := SQLite_IdempotencyCount;
  SaveSnapshot := SQLite_SaveSnapshot;
  ListSnapshots := SQLite_ListSnapshots;
  SaveEvidence := SQLite_SaveEvidence;
  EvidenceByID := SQLite_EvidenceByID;
  EvidenceByReceiptID := SQLite_EvidenceByReceiptID;
  EvidenceByIdempotencyKey := SQLite_EvidenceByIdempotencyKey;
  EvidenceByQCHash := SQLite_EvidenceByQCHash;
  ListEvidence := SQLite_ListEvidence;
  RecentEvidence := SQLite_RecentEvidence;
  SaveAudit := SQLite_SaveAudit;
  ListAudit := SQLite_ListAudit
}.

(** *** The texts of the statements *)

Definition text_of (s : stmt) : string :=
  match s with Insert how t fixed columns => insert_text how t fixed columns | _ => "" end.

Definition query_text (q : query) : string := match q with QSelect s => select_text s | _ => "" end.

Example insert_state_text : text_of insert_state =
  "INSERT INTO validator_state (id, node_id, region, height, round, last_hash, state_digest, locked_height, locked_round, locked_block_hash, commit_count, identity_key_id, signature_algorithm, kem_algorithm, updated_at_unix_milli) VALUES (1, ?, ?, ?, ?, ?, ?, ?, ?, ?, ?, ?, ?, ?, ?) ON CONFLICT(id) DO UPDATE SET node_id=excluded.node_id, region=excluded.region, height=excluded.height, round=excluded.round, last_hash=excluded.last_hash, state_digest=excluded.state_digest, locked_height=excluded.locked_height, locked_round=excluded.locked_round, locked_block_hash=excluded.locked_block_hash, commit_count=excluded.commit_count, identity_key_id=excluded.identity_key_id, signature_algorithm=excluded.signature_algorithm, kem_algorithm=excluded.kem_algorithm, updated_at_unix_milli=excluded.updated_at_unix_milli".
Proof. vm_compute. reflexivity. Qed.

Example select_state_text : query_text select_state =
  "SELECT node_id, region, height, round, last_hash, state_digest, locked_height, locked_round, locked_block_hash, commit_count, identity_key_id, signature_algorithm, kem_algorithm, updated_at_unix_milli FROM validator_state WHERE id = 1".
Proof. vm_compute. reflexivity. Qed.

Example insert_commit_text : text_of insert_commit =
  "INSERT INTO commits (height, round, block_hash, state_digest, commit_json, certificate_json, identity_key_id, created_at_unix_milli) VALUES (?, ?, ?, ?, ?, ?, ?, ?)".
Proof. vm_compute. reflexivity. Qed.

Example insert_idempotency_text : text_of insert_idempotency =
  "INSERT OR IGNORE INTO idempotency (id, result_hash, applied_at_unix_milli) VALUES (?, ?, ?)".
Proof. vm_compute. reflexivity. Qed.

Example recent_evidence_text : query_text (recent_evidence true) =
  "SELECT evidence_id, receipt_id, event_hash, qc_hash, commit_height, submitting_org, idempotency_key, receipt_json, created_at_unix_milli FROM evidence ORDER BY created_at_unix_milli DESC, evidence_id DESC LIMIT ?".
Proof. vm_compute. reflexivity. Qed.

Example select_evidence_text : query_text (select_evidence "qc_hash") =
  "SELECT evidence_id, receipt_id, event_hash, qc_hash, commit_height, submitting_org, idempotency_key, receipt_json, created_at_unix_milli FROM evidence WHERE qc_hash = ?".
Proof. vm_compute. reflexivity. Qed.
