(* ===== verification/SqliteTables.v ===== *)
(** * The tables of the SQLite store

    The records of the in-memory store as rows, and what the queries of
    core/storage/sqlite.go answer over them: the answers of the in-memory store,
    whatever engine answers the queries, as long as it answers what they mean. *)

From S2P Require Import Prelude Store FileStore Sql Sqlite.
Local Open Scope string_scope.
Local Open Scope Z_scope.

(** ** Typed tables *)

Definition arg_value (a : arg) : value :=
  match a with AUint z | AInt z => VInt z | AText s => VText s | ABytes s => VBlob s end.

Definition arg_ok (a : arg) : bool := match a with AUint z => z <? 2 ^ 63 | _ => true end.

Lemma bind_args_ok args : forallb arg_ok args = true -> bind_args args = Ok (map arg_value args).
Proof.
  unfold bind_args. generalize 1. induction args as [|a args IH]; intros i; [done|]. cbn [forallb bind_from map].
  intros [Ha Hl]%andb_true_iff. rewrite (IH _ Hl). destruct a; cbn in *; [by rewrite Ha|done..].
Qed.

Definition row_of (columns : list string) (args : list arg) : row := zip columns (map arg_value args).

Definition state_row (s : ValidatorState) : row := ("id", VInt 1) :: row_of state_columns (state_args s).
Definition commit_row (r : CommitRecord) : row := row_of commit_columns (commit_args r).
Definition idempotency_row (r : IdempotencyRecord) : row := row_of idempotency_columns (idempotency_args r).
Definition snapshot_row (r : SnapshotRecord) : row := row_of snapshot_columns (snapshot_args r).
Definition evidence_row (r : EvidenceRecord) : row := row_of evidence_columns (evidence_args r).
Definition audit_row (p : Z * AuditRecord) : row := ("row_id", VInt p.1) :: row_of audit_columns (audit_args p.2).

(** The records in the tables; the rows of the audit table are numbered from one. *)
Record Tables := mkTables {
  tb_migrations : list row;
  tb_state : option ValidatorState;
  tb_commits : list CommitRecord;
  tb_idempotency : list IdempotencyRecord;
  tb_snapshots : list SnapshotRecord;
  tb_evidence : list EvidenceRecord;
  tb_audit : list AuditRecord
}.

Definition numbered {A} (l : list A) : list (Z * A) := imap (fun i a => (Z.of_nat i + 1, a)) l.

Definition migrations_table (rows : list row) : table :=
  mkTable ["version"; "name"; "applied_at_unix_milli"] [mkUnique "version" false] None rows.
Definition state_table (s : option ValidatorState) : table :=
  mkTable ("id" :: state_columns) [mkUnique "id" false] None (map state_row (option_list s)).
Definition commits_table (l : list CommitRecord) : table :=
  mkTable commit_columns [mkUnique "height" false; mkUnique "block_hash" false] None (map commit_row l).
Definition idempotency_table (l : list IdempotencyRecord) : table :=
  mkTable idempotency_columns [mkUnique "id" false] None (map idempotency_row l).
Definition snapshots_table (l : list SnapshotRecord) : table :=
  mkTable snapshot_columns [mkUnique "id" false] None (map snapshot_row l).
Definition evidence_table (l : list EvidenceRecord) : table :=
  mkTable evidence_columns
    [mkUnique "evidence_id" false; mkUnique "receipt_id" false; mkUnique "qc_hash" true;
     mkUnique "idempotency_key" true] None (map evidence_row l).
Definition audit_table (l : list AuditRecord) : table :=
  mkTable ("row_id" :: audit_columns) [mkUnique "row_id" false] (Some "row_id") (map audit_row (numbered l)).

Definition encode (tb : Tables) : database :=
  [("schema_migrations", migrations_table (tb_migrations tb));
   ("validator_state", state_table (tb_state tb));
   ("commits", commits_table (tb_commits tb));
   ("idempotency", idempotency_table (tb_idempotency tb));
   ("snapshots", snapshots_table (tb_snapshots tb));
   ("evidence", evidence_table (tb_evidence tb));
   ("audit", audit_table (tb_audit tb))].

Lemma selects_typed {A} (enc : A -> row) s args l out :
  selects s args (map enc l) out ->
  exists l', l' ≡ₚ List.filter (fun a => selected s args (enc a)) l /\
             StronglySorted (fun a b => row_le (sl_order s) (enc a) (enc b)) l' /\
             out = map (fun a => project (sl_columns s) (enc a)) (limit_rows s args l').
Proof.
  intros (rows & Hp & Hs & ->).
  assert (Hf : List.filter (selected s args) (map enc l) = map enc (List.filter (fun a => selected s args (enc a)) l)).
  { clear. induction l as [|a l IH]; [done|]. cbn. by destruct (selected s args (enc a)); cbn; rewrite IH. }
  rewrite Hf in Hp. apply Permutation_map_inv in Hp as (l' & -> & Hp). symmetry in Hp. exists l'. split_and!.
  - done.
  - clear -Hs. induction l' as [|a l' IH]; [constructor|]. cbn in Hs. inversion Hs as [|? ? Hs' Ha]; subst.
    constructor; [by apply IH|]. exact (proj1 (List.Forall_map _ _ _) Ha).
  - unfold limit_rows. destruct (sl_limit s); [|by rewrite map_map].
    destruct (last args) as [[]|]; try (by rewrite map_map). destruct (z <? 0); [by rewrite map_map|].
    by rewrite firstn_map, map_map.
Qed.

(** Something that answers queries about a database: a handle or a transaction. *)
Definition asks (ask : query -> list value -> result (list (list value))) (db : database) : Prop :=
  forall q args, answerable q db = true -> exists out, ask q args = Ok out /\ answers q args db out.

Lemma scan_rows_ok {A B} (scan : list value -> result B) (f : A -> list value) (dec : A -> B) l :
  Forall (fun a => scan (f a) = Ok (dec a)) l -> scan_rows scan (map f l) = Ok (map dec l).
Proof. induction 1 as [|a l Ha _ IH]; [done|]. cbn. by rewrite Ha, IH. Qed.

Lemma Forall_take {A} (P : A -> Prop) n l : Forall P l -> Forall P (take n l).
Proof. rewrite !Forall_forall. intros Hl a Ha. apply Hl. by eapply subseteq_take. Qed.

Lemma limit_rows_Forall {A} (P : A -> Prop) s args l : Forall P l -> Forall P (limit_rows s args l).
Proof.
  intros Hl. unfold limit_rows. destruct (sl_limit s); [|done]. destruct (last args) as [[]|]; try done.
  destruct (z <? 0); [done|]. by apply Forall_take.
Qed.

Section asking.
Context {A B : Type} (enc : A -> row) (dec : A -> B) (scan : list value -> result B) (db : database).
Context (ask : query -> list value -> result (list (list value))) (Hask : asks ask db).
Context (s : select) (t : table) (l : list A).
Context (Ht : table_named (sl_from s) db = Some t) (Hl : t_rows t = map enc l).
Context (Hscan : Forall (fun a => scan (project (sl_columns s) (enc a)) = Ok (dec a)) l).
#[local] Set Default Proof Using "All".

Lemma ask_rows args :
  exists l', l' ≡ₚ List.filter (fun a => selected s args (enc a)) l /\
             StronglySorted (fun a b => row_le (sl_order s) (enc a) (enc b)) l' /\
             (rows ← ask (QSelect s) args; scan_rows scan rows) = Ok (map dec (limit_rows s args l')).
Proof.
  destruct (Hask (QSelect s) args) as (out & -> & t' & Ht' & Hsel); [cbn; by rewrite Ht|].
  rewrite Ht in Ht'. injection Ht' as <-. rewrite Hl in Hsel. apply selects_typed in Hsel as (l' & Hp & Hs & ->).
  exists l'. split_and!; [done|done|]. cbn. apply scan_rows_ok. apply limit_rows_Forall. rewrite Hp.
  apply Forall_forall. intros a Ha%list_elem_of_In%filter_In. rewrite Forall_forall in Hscan.
  apply Hscan, list_elem_of_In, Ha.
Qed.

(** A condition that at most one element meets. *)
Lemma ask_row args o :
  sl_limit s = false -> List.filter (fun a => selected s args (enc a)) l = option_list o ->
  (rows ← ask (QSelect s) args; scan_row scan rows) = Ok (dec <$> o).
Proof.
  intros Hlim Ho. destruct (Hask (QSelect s) args) as (out & -> & t' & Ht' & Hsel); [cbn; by rewrite Ht|].
  rewrite Ht in Ht'. injection Ht' as <-. rewrite Hl in Hsel. apply selects_typed in Hsel as (l' & Hp & _ & ->).
  rewrite Ho in Hp. unfold limit_rows. rewrite Hlim. destruct o as [a|]; cbn [option_list] in *.
  - apply Permutation_singleton_r in Hp as ->. cbn.
    assert (Ha : a ∈ l).
    { apply list_elem_of_In. eapply proj1. apply filter_In. rewrite Ho. by left. }
    rewrite Forall_forall in Hscan. by rewrite (Hscan a Ha).
  - apply Permutation_nil_r in Hp as ->. done.
Qed.
End asking.

(** ** Records that fit the columns *)

(** A [uint64] column holds what fits an [int64]. *)
Definition fits63 (z : Z) : Prop := 0 <= z < 2 ^ 63.

Definition state_fits (s : ValidatorState) : Prop :=
  fits63 (st_Height s) /\ fits63 (st_Round s) /\ fits63 (st_LockedHeight s) /\ fits63 (st_LockedRound s).
Definition commit_fits (r : CommitRecord) : Prop := fits63 (cr_Height r) /\ fits63 (cr_Round r).
Definition snapshot_fits (r : SnapshotRecord) : Prop := fits63 (sr_Height r).
Definition evidence_fits (r : EvidenceRecord) : Prop := fits63 (er_CommitHeight r).

Ltac fits_tac :=
  repeat match goal with Hf : _ /\ _ |- _ => destruct Hf end;
  repeat match goal with Hf : fits63 ?z |- _ =>
    let Hlo := fresh in let Hhi := fresh in
    assert (Hlo : (0 <=? z) = true) by (apply Z.leb_le; apply Hf);
    assert (Hhi : (z <? 2 ^ 63) = true) by (apply Z.ltb_lt; apply Hf);
    clear Hf end.

Ltac by_computing := repeat (cbn -[Z.leb Z.ltb Z.pow]; match goal with E : (_ = true) |- _ => rewrite E end);
  cbn -[Z.leb Z.ltb Z.pow]; reflexivity.

Lemma state_args_ok s : state_fits s -> forallb arg_ok (state_args s) = true.
Proof. destruct s. unfold state_fits. cbn. intros Hf. fits_tac. by_computing. Qed.

Lemma commit_args_ok r : commit_fits r -> forallb arg_ok (commit_args r) = true.
Proof. destruct r. unfold commit_fits. cbn. intros Hf. fits_tac. by_computing. Qed.

Lemma snapshot_args_ok r : snapshot_fits r -> forallb arg_ok (snapshot_args r) = true.
Proof. destruct r. unfold snapshot_fits. cbn. intros Hf. fits_tac. by_computing. Qed.

Lemma evidence_args_ok r : evidence_fits r -> forallb arg_ok (evidence_args r) = true.
Proof. destruct r. unfold evidence_fits. cbn. intros Hf. fits_tac. by_computing. Qed.

Lemma scan_state s : state_fits s -> scanValidatorState (project state_columns (state_row s)) = Ok s.
Proof. destruct s. unfold state_fits. cbn. intros Hf. fits_tac. by_computing. Qed.

Lemma scan_commit r : commit_fits r -> scanCommit (project commit_columns (commit_row r)) = Ok r.
Proof. destruct r. unfold commit_fits. cbn. intros Hf. fits_tac. by_computing. Qed.

Lemma scan_snapshot r : snapshot_fits r -> scanSnapshot (project snapshot_columns (snapshot_row r)) = Ok r.
Proof. destruct r. unfold snapshot_fits. cbn. intros Hf. fits_tac. by_computing. Qed.

Lemma scan_evidence r : evidence_fits r -> scanEvidence (project evidence_columns (evidence_row r)) = Ok r.
Proof. destruct r. unfold evidence_fits. cbn. intros Hf. fits_tac. by_computing. Qed.

Lemma scan_audit p : scanAudit (project audit_columns (audit_row p)) = Ok p.2.
Proof. destruct p as [i []]. reflexivity. Qed.

(** ** The tables of an in-memory store *)

Definition with_key (l : list EvidenceRecord) : list EvidenceRecord :=
  List.filter (fun r => negb (String.eqb (er_IdempotencyKey r) "")) l.
Definition with_qc (l : list EvidenceRecord) : list EvidenceRecord :=
  List.filter (fun r => negb (String.eqb (er_QCHash r) "")) l.

(** The order of the snapshots, strictly: by time, then by id. *)
Definition snapshot_before (a b : SnapshotRecord) : Prop :=
  sr_CreatedAtUnixMilli a < sr_CreatedAtUnixMilli b \/
  (sr_CreatedAtUnixMilli a = sr_CreatedAtUnixMilli b /\ String.compare (sr_ID a) (sr_ID b) = Lt).

Record tables_ok (tb : Tables) : Prop := {
  to_version : max_of "version" (tb_migrations tb) = Some 1;
  to_state s : tb_state tb = Some s -> state_fits s;
  to_commits : Forall commit_fits (tb_commits tb);
  to_heights : NoDup (map cr_Height (tb_commits tb));
  to_hashes : NoDup (map cr_BlockHash (tb_commits tb));
  to_ids : NoDup (map ir_ID (tb_idempotency tb));
  to_snapshots : Forall snapshot_fits (tb_snapshots tb);
  to_snapshot_ids : NoDup (map sr_ID (tb_snapshots tb));
  to_snapshot_order : StronglySorted snapshot_before (tb_snapshots tb);
  to_evidence : Forall evidence_fits (tb_evidence tb);
  to_evidence_ids : NoDup (map er_EvidenceID (tb_evidence tb));
  to_receipts : NoDup (map er_ReceiptID (tb_evidence tb));
  to_keys : NoDup (map er_IdempotencyKey (with_key (tb_evidence tb)));
  to_qcs : NoDup (map er_QCHash (with_qc (tb_evidence tb)));
  to_times : StronglySorted (fun a b => ar_TimestampUnixMilli a <= ar_TimestampUnixMilli b) (tb_audit tb)
}.

(** The tables hold the records of the store. *)
Record agrees (tb : Tables) (m : MemoryStore) : Prop := {
  ag_state : tb_state tb = if ms_hasState m then Some (ms_state m) else None;
  ag_commits : ms_commits m = keyed cr_Height (tb_commits tb);
  ag_idempotency : ms_idempotency m = keyed ir_ID (tb_idempotency tb);
  ag_snapshots : ms_snapshots m = tb_snapshots tb;
  ag_evidence : ms_evidence m = keyed er_EvidenceID (tb_evidence tb);
  ag_receipts : ms_receipts m = er_EvidenceID <$> keyed er_ReceiptID (tb_evidence tb);
  ag_keys : ms_evidenceByI m = er_EvidenceID <$> keyed er_IdempotencyKey (with_key (tb_evidence tb));
  ag_qcs : ms_evidenceByQ m = er_EvidenceID <$> keyed er_QCHash (with_qc (tb_evidence tb));
  ag_audit : ms_audit m = tb_audit tb
}.

Lemma filter_ext {A} (p q : A -> bool) l : (forall a, a ∈ l -> p a = q a) -> List.filter p l = List.filter q l.
Proof.
  induction l as [|a l IH]; intros He; [done|]. cbn. rewrite (He a) by left.
  rewrite IH; [done|]. intros b Hb. apply He. by right.
Qed.

(** The rows with a value in a column that is a key. *)
Lemma selected_key {A} `{Countable K} (enc : A -> row) (f : A -> K) (val : K -> value) `{!Inj (=) (=) val} s c k l :
  sl_where s = Some (c, None) -> (forall a, column (enc a) c = val (f a)) -> NoDup (map f l) ->
  List.filter (fun a => selected s [val k] (enc a)) l = option_list (keyed f l !! k).
Proof.
  intros Hw Hc Hnd. rewrite <-(filter_key f l k Hnd). apply filter_ext. intros a _. unfold selected.
  rewrite Hw, Hc. apply bool_decide_ext. split; [by intros ?%(inj val)|by intros ->].
Qed.

#[export] Instance VText_inj : Inj (=) (=) VText.
Proof. by intros s t [= ->]. Qed.
#[export] Instance VInt_inj : Inj (=) (=) VInt.
Proof. by intros s t [= ->]. Qed.


Lemma NoDup_map_eq {A B} (f : A -> B) l a b : NoDup (map f l) -> a ∈ l -> b ∈ l -> f a = f b -> a = b.
Proof.
  induction l as [|x l IH]; cbn; intros Hnd Ha Hb E; [by apply elem_of_nil in Ha|].
  apply NoDup_cons in Hnd as [Hx Hnd].
  apply elem_of_cons in Ha as [->|Ha], Hb as [->|Hb]; [done| | |by apply IH];
    exfalso; apply Hx; [rewrite E|rewrite <-E]; by apply list_elem_of_fmap_2.
Qed.

Lemma NoDup_of_map {A B} (f : A -> B) l : NoDup (map f l) -> NoDup l.
Proof. intros Hnd. by eapply NoDup_fmap_1. Qed.

Lemma StronglySorted_rev {A} (R : A -> A -> Prop) l : StronglySorted R l -> StronglySorted (flip R) (rev l).
Proof.
  induction 1 as [|a l _ IH Ha]; [constructor|]. cbn. clear -IH Ha.
  apply Forall_rev in Ha. induction IH as [|b l' IH' IHs Hb]; cbn; [by repeat constructor|].
  apply Forall_cons in Ha as [Hab Ha]. constructor; [by apply IHs|]. apply Forall_app. split; [done|].
  by repeat constructor.
Qed.

Lemma StronglySorted_map {A B} (R : B -> B -> Prop) (f : A -> B) l :
  StronglySorted R (map f l) <-> StronglySorted (fun a b => R (f a) (f b)) l.
Proof.
  induction l as [|a l IH]; [by split; constructor|]. cbn. split; intros Hs; inversion Hs; subst; constructor.
  - by apply IH.
  - by apply List.Forall_map.
  - by apply IH.
  - by apply List.Forall_map.
Qed.

Lemma StronglySorted_weaken {A} (R S : A -> A -> Prop) l :
  (forall a b, R a b -> S a b) -> StronglySorted R l -> StronglySorted S l.
Proof. intros HRS. induction 1 as [|a l _ IH Ha]; constructor; [done|]. eapply Forall_impl; [exact Ha|]. auto. Qed.

(** The rows of a sorted query are a list that is sorted that way, when a key tells the
    rows apart. *)
Lemma sorted_by_key {A B} (f : A -> B) (R : A -> A -> Prop) l1 l2 :
  StronglySorted R l1 -> StronglySorted R l2 -> l1 ≡ₚ l2 -> NoDup (map f l2) ->
  (forall a b, R a b -> R b a -> f a = f b) -> l1 = l2.
Proof.
  intros H1 H2 Hp Hnd Hanti. apply (sorted_unique_on R); [done..|]. intros a b. rewrite Hp. intros Ha Hb Hab Hba.
  apply (NoDup_map_eq f l2); auto.
Qed.

(** *** What the orders of the queries mean *)

Lemma row_le_heights a b : row_le [("height", false)] (commit_row a) (commit_row b) <-> cr_Height a <= cr_Height b.
Proof. unfold row_le. cbn. destruct (Z.compare_spec (cr_Height a) (cr_Height b)); split; (done || lia). Qed.

Lemma row_le_heights_desc a b :
  row_le [("height", true)] (commit_row a) (commit_row b) <-> cr_Height b <= cr_Height a.
Proof. unfold row_le. cbn. destruct (Z.compare_spec (cr_Height a) (cr_Height b)); cbn; split; (done || lia). Qed.

Lemma row_le_evidence_ids a b :
  row_le [("evidence_id", false)] (evidence_row a) (evidence_row b) <-> String.le (er_EvidenceID a) (er_EvidenceID b).
Proof.
  unfold row_le, String.le, String.leb. cbn. by destruct (String.compare (er_EvidenceID a) (er_EvidenceID b)).
Qed.

Lemma row_le_recent a b :
  row_le [("created_at_unix_milli", true); ("evidence_id", true)] (evidence_row a) (evidence_row b) <->
  evidence_before a b.
Proof.
  unfold row_le, evidence_before, String.le, String.leb. cbn. rewrite (String.compare_antisym (er_EvidenceID b)).
  destruct (Z.compare_spec (er_CreatedAtUnixMilli a) (er_CreatedAtUnixMilli b)) as [->|Hlt|Hgt]; cbn.
  - rewrite Z.eqb_refl. by destruct (String.compare (er_EvidenceID a) (er_EvidenceID b)).
  - rewrite (proj2 (Z.eqb_neq _ _)) by lia. split; [done|lia].
  - rewrite (proj2 (Z.eqb_neq _ _)) by lia. split; [done|]. by intros _.
Qed.

Lemma string_compare_eq s t : String.compare s t = Eq <-> s = t.
Proof. split; [apply String.compare_eq_iff|]. intros ->. apply string_compare_refl. Qed.

Lemma row_le_snapshots a b :
  row_le [("created_at_unix_milli", false); ("id", false)] (snapshot_row a) (snapshot_row b) <->
  snapshot_before a b \/
  (sr_CreatedAtUnixMilli a = sr_CreatedAtUnixMilli b /\ sr_ID a = sr_ID b).
Proof.
  unfold row_le, snapshot_before. cbn. rewrite <-string_compare_eq.
  destruct (Z.compare_spec (sr_CreatedAtUnixMilli a) (sr_CreatedAtUnixMilli b)) as [->|Hlt|Hgt]; cbn.
  - destruct (String.compare (sr_ID a) (sr_ID b)); split; (done || naive_solver lia).
  - split; [by left; left|done].
  - split; [done|lia].
Qed.

Lemma row_le_audit p q :
  row_le [("timestamp_unix_milli", true); ("row_id", true)] (audit_row p) (audit_row q) <->
  ar_TimestampUnixMilli q.2 < ar_TimestampUnixMilli p.2 \/
  (ar_TimestampUnixMilli p.2 = ar_TimestampUnixMilli q.2 /\ q.1 <= p.1).
Proof.
  unfold row_le. cbn.
  destruct (Z.compare_spec (ar_TimestampUnixMilli p.2) (ar_TimestampUnixMilli q.2)) as [->|Hlt|Hgt]; cbn.
  - destruct (Z.compare_spec p.1 q.1); cbn; split; (done || lia).
  - split; [done|lia].
  - split; [by left|done].
Qed.

(** *** The memory's lists *)

Lemma omap_rev {A B} (f : A -> option B) l : omap f (rev l) = rev (omap f l).
Proof.
  induction l as [|a l IH]; [done|]. cbn [rev]. rewrite omap_app, IH. cbn. destruct (f a); cbn; [done|].
  by rewrite app_nil_r.
Qed.

Lemma omap_limited {A B} (f : A -> option B) limit l :
  Forall (fun a => is_Some (f a)) l -> omap f (limited limit l) = limited limit (omap f l).
Proof.
  intros Hl. assert (Hlen : length (omap f l) = length l /\ forall n, omap f (take n l) = take n (omap f l)).
  { induction Hl as [|a l [b Hb] _ [IH1 IH2]]; [split; [done|intros [|n]; done]|]. cbn. rewrite Hb. cbn. split; [congruence|].
    intros [|n]; [done|]. cbn. by rewrite Hb, IH2. }
  destruct Hlen as [Hlen Htake]. unfold limited. rewrite Hlen. destruct (_ && _); [apply Htake|done].
Qed.

Lemma recent_commits_rev c limit : commits_wf c ->
  sortedCommitRecords c false limit = limited limit (rev (sortedCommitRecords c true 0)).
Proof.
  intros Hwf. unfold sortedCommitRecords. cbv zeta. rewrite limited_all, omap_limited, omap_rev; [done|].
  apply Forall_rev. eapply Forall_impl; [apply (heights_good c Hwf)|]. cbn. intros h [r Hr].
  destruct (Hwf h r Hr). rewrite u64_small by (unfold is_u64, two64; lia). by exists r.
Qed.

Lemma values_perm {K A} `{Countable K} (f : A -> K) l : NoDup (map f l) -> (map_to_list (keyed f l)).*2 ≡ₚ l.
Proof.
  intros Hnd. unfold keyed. rewrite map_to_list_to_map by (by rewrite keyed_fst).
  clear Hnd. induction l as [|a l IH]; [done|]. cbn. by rewrite IH.
Qed.

#[export] Instance evidence_before_trans : Transitive evidence_before.
Proof. intros a b c. rewrite <-!row_le_recent. apply row_le_trans. Qed.

#[export] Instance evidence_before_total : Total evidence_before.
Proof. intros a b. rewrite <-!row_le_recent. apply row_le_total. Qed.

Lemma limited_take {A} limit (l : list A) :
  limited limit l = if 0 <? limit then take (Z.to_nat limit) l else l.
Proof.
  unfold limited. destruct (Z.ltb_spec 0 limit); [|done]. cbn. destruct (Z.ltb_spec limit (Z.of_nat (length l))); [done|].
  symmetry. apply take_ge. lia.
Qed.

Lemma commits_wf_keyed l :
  Forall commit_fits l -> NoDup (map cr_Height l) -> commits_wf (keyed cr_Height l).
Proof.
  intros Hl Hnd h r [Hr <-]%lookup_keyed; [|done]. rewrite Forall_forall in Hl. by destruct (Hl r Hr).
Qed.

Lemma ascending_commits l :
  Forall commit_fits l -> NoDup (map cr_Height l) ->
  StronglySorted (fun a b => cr_Height a <= cr_Height b) (sortedCommitRecords (keyed cr_Height l) true 0) /\
  sortedCommitRecords (keyed cr_Height l) true 0 ≡ₚ l.
Proof.
  intros Hl Hnd. destruct (sortedCommitRecords_ascending _ (commits_wf_keyed l Hl Hnd)) as (Hs & Hnd' & Hin).
  split; [by apply StronglySorted_map|]. apply NoDup_Permutation; [by eapply NoDup_of_map..|].
  intros r. rewrite Hin. split.
  - by intros (h & [Hr _]%lookup_keyed).
  - intros Hr. exists (cr_Height r). by apply lookup_keyed.
Qed.

(** A limit bound to the statement, or none. *)
Lemma limit_rows_none {A} s args (l : list A) : sl_limit s = false -> limit_rows s args l = l.
Proof. unfold limit_rows. by intros ->. Qed.

Lemma limit_rows_some {A} s limit (l : list A) :
  sl_limit s = true -> 0 < limit -> limit_rows s [VInt limit] l = take (Z.to_nat limit) l.
Proof. unfold limit_rows. intros -> Hl. cbn. by rewrite (proj2 (Z.ltb_ge _ _)) by lia. Qed.

Lemma filter_sub {A} (p : A -> bool) l r : r ∈ List.filter p l -> r ∈ l.
Proof. intros Hr%list_elem_of_In%filter_In. apply list_elem_of_In, Hr. Qed.

(** *** The answers of the queries *)

Section reading.
Context (tb : Tables) (m : MemoryStore) (Hok : tables_ok tb) (Hag : agrees tb m).
Context (ask : query -> list value -> result (list (list value))) (Hask : asks ask (encode tb)).
#[local] Set Default Proof Using "All".


Lemma all_selected {A} (enc : A -> row) s args l :
  sl_where s = None -> List.filter (fun a => selected s args (enc a)) l = l.
Proof. intros Hw. unfold selected. rewrite Hw. induction l as [|a l IH]; [done|]. cbn. by rewrite IH. Qed.

Lemma ask_state : (rows ← ask select_state []; scan_row scanValidatorState rows) = Memory.LoadValidatorState m.
Proof.
  unfold Memory.LoadValidatorState. rewrite <-(ag_state _ _ Hag).
  replace (tb_state tb) with (Datatypes.id <$> tb_state tb) at 1 by (by destruct (tb_state tb)).
  apply (ask_row state_row Datatypes.id _ (encode tb) ask Hask _ (state_table (tb_state tb)) (option_list (tb_state tb)));
    [done|done| |done|].
  - apply Forall_forall. intros s Hs. apply scan_state. destruct (tb_state tb) as [s'|] eqn:E; [|by apply elem_of_nil in Hs].
    apply list_elem_of_singleton in Hs as ->. by apply (to_state _ Hok).
  - by destruct (tb_state tb).
Qed.

Lemma commits_scan : Forall (fun r => scanCommit (project commit_columns (commit_row r)) = Ok r) (tb_commits tb).
Proof. eapply Forall_impl; [apply (to_commits _ Hok)|]. exact scan_commit. Qed.

Lemma ask_commit h : (rows ← ask select_commit [VInt h]; scan_row scanCommit rows) = Memory.Commit m h.
Proof.
  unfold Memory.Commit. rewrite (ag_commits _ _ Hag), <-(option_fmap_id (keyed _ _ !! h)).
  apply (ask_row commit_row Datatypes.id _ (encode tb) ask Hask _ (commits_table (tb_commits tb)) (tb_commits tb));
    [done|done|apply commits_scan|done|].
  by apply (selected_key commit_row cr_Height VInt _ "height"); [| |apply (to_heights _ Hok)].
Qed.

Lemma ask_list_commits :
  (rows ← ask (select_commits false false) []; scan_rows scanCommit rows) = Memory.ListCommits m.
Proof.
  unfold select_commits.
  destruct (ask_rows commit_row Datatypes.id scanCommit (encode tb) ask Hask
    (mkSelect commit_columns "commits" None [("height", false)] false)
    (commits_table (tb_commits tb)) (tb_commits tb) eq_refl eq_refl commits_scan []) as (l' & Hp & Hs & ->).
  rewrite all_selected in Hp by done. rewrite limit_rows_none, map_id by done.
  unfold Memory.ListCommits. rewrite (ag_commits _ _ Hag).
  destruct (ascending_commits _ (to_commits _ Hok) (to_heights _ Hok)) as [Hs2 Hp2].
  f_equal. apply (sorted_by_key cr_Height (fun a b => cr_Height a <= cr_Height b)).
  - eapply StronglySorted_weaken; [|exact Hs]. intros a b. apply row_le_heights.
  - exact Hs2.
  - by rewrite Hp, Hp2.
  - rewrite Hp2. apply (to_heights _ Hok).
  - lia.
Qed.

Lemma ask_recent_commits limit :
  (rows ← (if 0 <? limit then ask (select_commits true true) [VInt limit] else ask (select_commits true false) []);
   scan_rows scanCommit rows) = Memory.RecentCommits m limit.
Proof.
  assert (Hall : forall (lim : bool) args, (lim = true -> args = [VInt limit] /\ 0 < limit) ->
    (rows ← ask (select_commits true lim) args; scan_rows scanCommit rows) =
    Ok (if lim then take (Z.to_nat limit) (rev (sortedCommitRecords (ms_commits m) true 0))
        else rev (sortedCommitRecords (ms_commits m) true 0))).
  { intros lim args Hargs.
    destruct (ask_rows commit_row Datatypes.id scanCommit (encode tb) ask Hask
      (mkSelect commit_columns "commits" None [("height", true)] lim)
      (commits_table (tb_commits tb)) (tb_commits tb) eq_refl eq_refl commits_scan args) as (l' & Hp & Hs & E).
    unfold select_commits. rewrite E. rewrite all_selected in Hp by done. rewrite map_id. rewrite (ag_commits _ _ Hag).
    destruct (ascending_commits _ (to_commits _ Hok) (to_heights _ Hok)) as [Hs2 Hp2].
    assert (l' = rev (sortedCommitRecords (keyed cr_Height (tb_commits tb)) true 0)) as ->.
    { apply (sorted_by_key cr_Height (fun a b => cr_Height b <= cr_Height a)).
      - eapply StronglySorted_weaken; [|exact Hs]. intros a b. apply row_le_heights_desc.
      - eapply StronglySorted_weaken; [|apply StronglySorted_rev, Hs2]. done.
      - by rewrite <-Permutation_rev, Hp, Hp2.
      - rewrite <-Permutation_rev, Hp2. apply (to_heights _ Hok).
      - lia. }
    destruct lim; [|by rewrite limit_rows_none]. destruct (Hargs eq_refl) as [-> Hl]. by rewrite limit_rows_some. }
  unfold Memory.RecentCommits. rewrite recent_commits_rev, limited_take.
  - destruct (Z.ltb_spec 0 limit); rewrite Hall; done.
  - rewrite (ag_commits _ _ Hag). apply commits_wf_keyed; [apply (to_commits _ Hok)|apply (to_heights _ Hok)].
Qed.

Lemma ask_idempotency id :
  (rows ← ask select_idempotency [VText id];
   scan_row (fun vs => match vs with [v] => scan_text v | _ => Err scan_error end) rows) = Memory.IdempotencyResult m id.
Proof.
  unfold Memory.IdempotencyResult. rewrite (ag_idempotency _ _ Hag).
  apply (ask_row idempotency_row ir_ResultHash _ (encode tb) ask Hask _ (idempotency_table (tb_idempotency tb)) (tb_idempotency tb));
    [done|done| |done|].
  - apply Forall_forall. by intros [].
  - by apply (selected_key idempotency_row ir_ID VText _ "id"); [| |apply (to_ids _ Hok)].
Qed.

Lemma ask_count :
  (rows ← ask (QCount "idempotency") []; match rows with [v] :: _ => scan_int v | _ => Err scan_error end)
  = Memory.IdempotencyCount m.
Proof.
  destruct (Hask (QCount "idempotency") [] eq_refl) as (out & -> & t & Ht & ->). injection Ht as <-. cbn.
  unfold Memory.IdempotencyCount. by rewrite (ag_idempotency _ _ Hag), size_keyed, length_map by apply (to_ids _ Hok).
Qed.

Lemma ask_snapshots :
  (rows ← ask select_snapshots []; scan_rows scanSnapshot rows) = Memory.ListSnapshots m.
Proof.
  unfold select_snapshots.
  destruct (ask_rows snapshot_row Datatypes.id scanSnapshot (encode tb) ask Hask
    (mkSelect snapshot_columns "snapshots" None [("created_at_unix_milli", false); ("id", false)] false)
    (snapshots_table (tb_snapshots tb)) (tb_snapshots tb) eq_refl eq_refl) with (args := @nil value) as (l' & Hp & Hs & ->).
  { eapply Forall_impl; [apply (to_snapshots _ Hok)|]. exact scan_snapshot. }
  rewrite all_selected in Hp by done. rewrite limit_rows_none, map_id by done.
  unfold Memory.ListSnapshots. rewrite (ag_snapshots _ _ Hag). f_equal.
  apply (sorted_by_key sr_ID _ _ _ Hs).
  - eapply StronglySorted_weaken; [|apply (to_snapshot_order _ Hok)]. intros a b Hab. apply row_le_snapshots. by left.
  - done.
  - apply (to_snapshot_ids _ Hok).
  - intros a b. rewrite !row_le_snapshots. unfold snapshot_before.
    intros [[?|[? H1]]|[_ ?]] [[?|[? H2]]|[_ ?]]; try lia; try done.
    rewrite String.compare_antisym, H1 in H2. discriminate H2.
Qed.

Lemma evidence_scan :
  Forall (fun r => scanEvidence (project evidence_columns (evidence_row r)) = Ok r) (tb_evidence tb).
Proof. eapply Forall_impl; [apply (to_evidence _ Hok)|]. exact scan_evidence. Qed.

Lemma ask_evidence column o v :
  List.filter (fun r => selected (mkSelect evidence_columns "evidence" (Some (column, None)) [] false) [VText v]
                          (evidence_row r)) (tb_evidence tb) = option_list o ->
  (rows ← ask (select_evidence column) [VText v]; scan_row scanEvidence rows) = Ok o.
Proof.
  intros Ho. rewrite <-(option_fmap_id o).
  apply (ask_row evidence_row Datatypes.id _ (encode tb) ask Hask _ (evidence_table (tb_evidence tb)) (tb_evidence tb));
    [done|done|apply evidence_scan|done|exact Ho].
Qed.

Lemma ask_evidence_id id :
  (rows ← ask (select_evidence "evidence_id") [VText id]; scan_row scanEvidence rows) = Memory.EvidenceByID m id.
Proof.
  unfold Memory.EvidenceByID. rewrite (ag_evidence _ _ Hag). apply ask_evidence.
  by apply (selected_key evidence_row er_EvidenceID VText _ "evidence_id"); [| |apply (to_evidence_ids _ Hok)].
Qed.

(** An index of the memory leads to the record itself. *)
Lemma by_index (f : EvidenceRecord -> string) l k :
  NoDup (map f l) -> (forall r, r ∈ l -> r ∈ tb_evidence tb) ->
  (id ← (er_EvidenceID <$> keyed f l) !! k; ms_evidence m !! id) = keyed f l !! k.
Proof.
  intros Hnd Hsub. rewrite lookup_fmap. destruct (keyed f l !! k) as [r|] eqn:E; [|done]. cbn.
  apply lookup_keyed in E as [Hr _]; [|done]. rewrite (ag_evidence _ _ Hag).
  apply lookup_keyed; [apply (to_evidence_ids _ Hok)|]. split; [by apply Hsub|done].
Qed.

Lemma ask_receipt id :
  (rows ← ask (select_evidence "receipt_id") [VText id]; scan_row scanEvidence rows) = Memory.EvidenceByReceiptID m id.
Proof.
  unfold Memory.EvidenceByReceiptID. rewrite (ag_receipts _ _ Hag), by_index; [|apply (to_receipts _ Hok)|done].
  apply ask_evidence.
  by apply (selected_key evidence_row er_ReceiptID VText _ "receipt_id"); [| |apply (to_receipts _ Hok)].
Qed.

(** The rows with a value that is not empty are among those that have one. *)
Lemma filter_nonempty (f : EvidenceRecord -> string) l v : v <> "" ->
  List.filter (fun r => bool_decide (f r = v)) l =
  List.filter (fun r => bool_decide (f r = v)) (List.filter (fun r => negb (String.eqb (f r) "")) l).
Proof.
  intros Hv. induction l as [|r l IH]; [done|]. cbn. destruct (String.eqb_spec (f r) "") as [E|E]; cbn.
  - rewrite E. rewrite bool_decide_false by congruence. exact IH.
  - by rewrite IH.
Qed.

Lemma ask_partial column (f : EvidenceRecord -> string) v :
  (forall r, Sql.column (evidence_row r) column = VText (f r)) -> v <> "" ->
  NoDup (map f (List.filter (fun r => negb (String.eqb (f r) "")) (tb_evidence tb))) ->
  (rows ← ask (select_evidence column) [VText v]; scan_row scanEvidence rows)
  = Ok (keyed f (List.filter (fun r => negb (String.eqb (f r) "")) (tb_evidence tb)) !! v).
Proof.
  intros Hc Hv Hnd. apply ask_evidence. rewrite <-(filter_key f _ v Hnd), <-filter_nonempty by done.
  apply filter_ext. intros r _. unfold selected. cbn [sl_where]. rewrite Hc. apply bool_decide_ext.
  split; [by intros [= ->]|by intros ->].
Qed.

Lemma ask_key k : k <> "" ->
  (rows ← ask (select_evidence "idempotency_key") [VText k]; scan_row scanEvidence rows)
  = Memory.EvidenceByIdempotencyKey m k.
Proof.
  intros Hk. unfold Memory.EvidenceByIdempotencyKey. rewrite (ag_keys _ _ Hag), by_index;
    [|apply (to_keys _ Hok)|intros r; apply filter_sub].
  apply (ask_partial "idempotency_key" er_IdempotencyKey); [done|done|apply (to_keys _ Hok)].
Qed.

Lemma ask_qc q : q <> "" ->
  (rows ← ask (select_evidence "qc_hash") [VText q]; scan_row scanEvidence rows) = Memory.EvidenceByQCHash m q.
Proof.
  intros Hq. unfold Memory.EvidenceByQCHash. rewrite (ag_qcs _ _ Hag), by_index;
    [|apply (to_qcs _ Hok)|intros r; apply filter_sub].
  apply (ask_partial "qc_hash" er_QCHash); [done|done|apply (to_qcs _ Hok)].
Qed.

Lemma ask_list_evidence :
  (rows ← ask list_evidence []; scan_rows scanEvidence rows) = Memory.ListEvidence m.
Proof.
  unfold list_evidence.
  destruct (ask_rows evidence_row Datatypes.id scanEvidence (encode tb) ask Hask
    (mkSelect evidence_columns "evidence" None [("evidence_id", false)] false)
    (evidence_table (tb_evidence tb)) (tb_evidence tb) eq_refl eq_refl evidence_scan []) as (l' & Hp & Hs & ->).
  rewrite all_selected in Hp by done. rewrite limit_rows_none, map_id by done.
  unfold Memory.ListEvidence. rewrite (ag_evidence _ _ Hag). f_equal.
  set (e := keyed er_EvidenceID (tb_evidence tb)).
  assert (Hkeys : map er_EvidenceID (sorted_values e) = sorted_keys e).
  { apply sorted_values_keys. intros k r [_ ->]%lookup_keyed; [done|apply (to_evidence_ids _ Hok)]. }
  assert (Hnd : NoDup (map er_EvidenceID (sorted_values e))) by (rewrite Hkeys; apply NoDup_sorted_keys).
  apply (sorted_by_key er_EvidenceID _ _ _ Hs).
  - apply (StronglySorted_weaken (fun a b => String.le (er_EvidenceID a) (er_EvidenceID b))).
    + intros a b. apply row_le_evidence_ids.
    + apply StronglySorted_map. rewrite Hkeys. apply sorted_keys_sorted.
  - rewrite Hp. apply NoDup_Permutation; [apply (NoDup_of_map er_EvidenceID), (to_evidence_ids _ Hok)|by eapply NoDup_of_map|].
    intros r. rewrite elem_of_sorted_values. split.
    + intros Hr. exists (er_EvidenceID r). apply lookup_keyed; [apply (to_evidence_ids _ Hok)|done].
    + by intros (k & [Hr _]%lookup_keyed); [|apply (to_evidence_ids _ Hok)].
  - done.
  - intros a b. rewrite !row_le_evidence_ids. apply (anti_symm String.le).
Qed.

(** A query with an optional limit answers the limited list. *)
Lemma ask_limited {A B} (enc : A -> row) (dec : A -> B) scan columns name order t l (full : list A) limit :
  table_named name (encode tb) = Some t -> t_rows t = map enc l ->
  Forall (fun a => scan (project columns (enc a)) = Ok (dec a)) l ->
  (forall l', l' ≡ₚ l -> StronglySorted (fun a b => row_le order (enc a) (enc b)) l' -> l' = full) ->
  (rows ← (if 0 <? limit then ask (QSelect (mkSelect columns name None order true)) [VInt limit]
           else ask (QSelect (mkSelect columns name None order false)) []);
   scan_rows scan rows) = Ok (map dec (limited limit full)).
Proof.
  intros Ht Hl Hscan Hfull. rewrite limited_take. destruct (Z.ltb_spec 0 limit) as [Hlim|Hlim].
  - destruct (ask_rows enc dec scan (encode tb) ask Hask (mkSelect columns name None order true) t l Ht Hl Hscan [VInt limit])
      as (l' & Hp & Hs & ->). rewrite all_selected in Hp by done. by rewrite limit_rows_some, (Hfull l').
  - destruct (ask_rows enc dec scan (encode tb) ask Hask (mkSelect columns name None order false) t l Ht Hl Hscan [])
      as (l' & Hp & Hs & ->). rewrite all_selected in Hp by done. by rewrite limit_rows_none, (Hfull l').
Qed.

Lemma ask_recent_evidence limit :
  (rows ← (if 0 <? limit then ask (recent_evidence true) [VInt limit] else ask (recent_evidence false) []);
   scan_rows scanEvidence rows) = Memory.RecentEvidence m limit.
Proof.
  unfold Memory.RecentEvidence, recent_evidence.
  rewrite (ask_limited evidence_row Datatypes.id _ _ _ _ (evidence_table (tb_evidence tb)) (tb_evidence tb)
             (merge_sort evidence_before (map_to_list (ms_evidence m)).*2)).
  - by rewrite map_id.
  - done.
  - done.
  - apply evidence_scan.
  - intros l' Hp Hs. rewrite (ag_evidence _ _ Hag).
    pose proof (values_perm er_EvidenceID (tb_evidence tb) (to_evidence_ids _ Hok)) as Hv.
    apply (sorted_by_key er_EvidenceID evidence_before).
    + eapply StronglySorted_weaken; [|exact Hs]. intros a b. apply row_le_recent.
    + apply StronglySorted_merge_sort; apply _.
    + by rewrite merge_sort_Permutation, Hv.
    + rewrite merge_sort_Permutation, Hv. apply (to_evidence_ids _ Hok).
    + intros a b. unfold evidence_before. rewrite (Z.eqb_sym (er_CreatedAtUnixMilli b)).
      destruct (Z.eqb_spec (er_CreatedAtUnixMilli a) (er_CreatedAtUnixMilli b)); [|lia].
      intros H1 H2. by apply (anti_symm String.le).
Qed.

Lemma numbered_snd {A} (l : list A) : map snd (numbered l) = l.
Proof.
  unfold numbered. generalize 0%nat as n.
  enough (forall n, map snd (imap (fun i a => (Z.of_nat (n + i) + 1, a)) l) = l) as Hn by (intros _; exact (Hn 0%nat)).
  induction l as [|a l IH]; intros n; [done|]. cbn. f_equal. etransitivity; [|apply (IH (S n))]. f_equal. apply imap_ext.
  intros i x _. cbn. do 2 f_equal. lia.
Qed.

(** Later rows have larger numbers and no earlier time. *)
Lemma numbered_sorted l :
  StronglySorted (fun a b => ar_TimestampUnixMilli a <= ar_TimestampUnixMilli b) l ->
  StronglySorted (fun p q => ar_TimestampUnixMilli p.2 <= ar_TimestampUnixMilli q.2 /\ p.1 < q.1) (numbered l).
Proof.
  unfold numbered. intros Hs.
  enough (Hn : forall n, StronglySorted (fun p q : Z * AuditRecord => ar_TimestampUnixMilli p.2 <= ar_TimestampUnixMilli q.2 /\ p.1 < q.1)
    (imap (fun i a => (Z.of_nat (n + i) + 1, a)) l)) by exact (Hn 0%nat).
  induction Hs as [|a l _ IH Ha]; intros n; [constructor|]. cbn. constructor.
  - rewrite (imap_ext _ (fun i a => (Z.of_nat (S n + i) + 1, a))); [apply IH|]. intros i x _. cbn. do 2 f_equal. lia.
  - apply Forall_forall. intros [i b] Hb%elem_of_lookup_imap_1. destruct Hb as (j & x & [= -> ->] & Hx).
    cbn. split; [|lia]. rewrite Forall_lookup in Ha. by eapply Ha.
Qed.

Lemma ask_audit limit :
  (rows ← (if 0 <? limit then ask (list_audit true) [VInt limit] else ask (list_audit false) []);
   scan_rows scanAudit rows) = Memory.ListAudit m limit.
Proof.
  unfold list_audit. pose proof (numbered_sorted _ (to_times _ Hok)) as Hnum.
  rewrite (ask_limited audit_row snd _ _ _ _ (audit_table (tb_audit tb)) (numbered (tb_audit tb))
             (rev (numbered (tb_audit tb)))).
  - unfold Memory.ListAudit. cbv zeta. rewrite (ag_audit _ _ Hag). f_equal.
    assert (Hrev : map snd (rev (numbered (tb_audit tb))) = rev (tb_audit tb)) by (by rewrite map_rev, numbered_snd).
    rewrite limited_take. destruct (Z.ltb_spec 0 limit) as [Hl|Hl].
    + rewrite <-firstn_map, Hrev, (proj2 (Z.leb_gt _ _)) by done. cbn [orb].
      destruct (Z.ltb_spec (Z.of_nat (length (tb_audit tb))) limit); [|done].
      rewrite !take_ge; [done|rewrite length_rev; lia..].
    + rewrite Hrev, (proj2 (Z.leb_le _ _)) by done. cbn [orb]. rewrite take_ge; [done|rewrite length_rev; lia].
  - done.
  - done.
  - apply Forall_forall. intros p _. apply scan_audit.
  - intros l' Hp Hs. apply (sorted_by_key fst _ _ _ Hs).
    + eapply StronglySorted_weaken; [|apply StronglySorted_rev, Hnum]. intros p q [Ht Hi]. apply row_le_audit. lia.
    + by rewrite <-Permutation_rev.
    + rewrite <-Permutation_rev. apply NoDup_ListNoDup.
      clear -Hnum. induction Hnum as [|p l _ IH Hp]; cbn; constructor; [|done].
      intros Hin%list_elem_of_In%list_elem_of_fmap. destruct Hin as (q & E & Hq). rewrite Forall_forall in Hp.
      destruct (Hp q Hq). lia.
    + intros p q. rewrite !row_le_audit. lia.
Qed.
End reading.
