(* ===== verification/SqliteRefine.v ===== *)
(** * The SQLite store implements the in-memory store

    What the updates do to the tables, one by one, and the refinement: over any engine
    that keeps the laws of [Sql], the store of core/storage/sqlite.go answers as the
    in-memory store, from the creation of the database on and across restarts. *)

From S2P Require Import Prelude Store FileStore Sql Sqlite SqliteTables.
Local Open Scope string_scope.
Local Open Scope Z_scope.

(** ** What the INSERTs do to the tables *)

Lemma filter_none {A} (p : A -> bool) l : (forall a, a ∈ l -> p a = false) -> List.filter p l = [].
Proof.
  induction l as [|a l IH]; intros Hp; [done|]. cbn. rewrite (Hp a) by left. apply IH. intros b Hb. apply Hp. by right.
Qed.

Lemma filter_all {A} (p : A -> bool) l : (forall a, a ∈ l -> p a = true) -> List.filter p l = l.
Proof.
  induction l as [|a l IH]; intros Hp; [done|]. cbn. rewrite (Hp a) by left. f_equal. apply IH. intros b Hb.
  apply Hp. by right.
Qed.

Lemma insert_abort {A} (enc : A -> row) t l r :
  t_rows t = map enc l -> (forall b, b ∈ l -> clash t r (enc b) = false) ->
  insert_row Abort r t = Some (map enc l ++ [r], 1)%list.
Proof.
  intros Hl Hc. unfold insert_row. rewrite Hl, filter_none; [done|].
  intros x (b & -> & Hb)%list_elem_of_fmap. by apply Hc.
Qed.

Lemma clash_on_false u r r' : column r (ux_column u) <> column r' (ux_column u) -> clash_on u r r' = false.
Proof. intros Hne. unfold clash_on. by rewrite bool_decide_false. Qed.

Lemma clash_on_empty c r r' : column r c = VText "" -> clash_on (mkUnique c true) r r' = false.
Proof. intros E. unfold clash_on. cbn. rewrite E. cbn. by rewrite !andb_false_r. Qed.

Lemma clash_on_true c r r' : column r c = column r' c -> column r c <> VNull -> clash_on (mkUnique c false) r r' = true.
Proof. intros E Hn. unfold clash_on. cbn. by rewrite E, bool_decide_true, bool_decide_false by congruence. Qed.

Definition with_commits l tb := mkTables (tb_migrations tb) (tb_state tb) l (tb_idempotency tb) (tb_snapshots tb)
  (tb_evidence tb) (tb_audit tb).
Definition with_state s tb := mkTables (tb_migrations tb) s (tb_commits tb) (tb_idempotency tb) (tb_snapshots tb)
  (tb_evidence tb) (tb_audit tb).
Definition with_idempotency l tb := mkTables (tb_migrations tb) (tb_state tb) (tb_commits tb) l (tb_snapshots tb)
  (tb_evidence tb) (tb_audit tb).
Definition with_snapshots l tb := mkTables (tb_migrations tb) (tb_state tb) (tb_commits tb) (tb_idempotency tb) l
  (tb_evidence tb) (tb_audit tb).
Definition with_evidence l tb := mkTables (tb_migrations tb) (tb_state tb) (tb_commits tb) (tb_idempotency tb)
  (tb_snapshots tb) l (tb_audit tb).
Definition with_audit l tb := mkTables (tb_migrations tb) (tb_state tb) (tb_commits tb) (tb_idempotency tb)
  (tb_snapshots tb) (tb_evidence tb) l.

Lemma run_insert_commit tb r :
  cr_Height r ∉ map cr_Height (tb_commits tb) -> cr_BlockHash r ∉ map cr_BlockHash (tb_commits tb) ->
  run insert_commit (map arg_value (commit_args r)) (encode tb) =
  Some (encode (with_commits (tb_commits tb ++ [r])%list tb), 1).
Proof.
  intros Hh Hb. unfold run, insert_commit, run_insert.
  change (table_named "commits" (encode tb)) with (Some (commits_table (tb_commits tb))). cbn [mbind option_bind].
  change (Nat.eqb (length (map arg_value (commit_args r))) (length commit_columns)) with true. cbv iota.
  change (new_row (commits_table (tb_commits tb)) ([] ++ zip commit_columns (map arg_value (commit_args r)))%list)
    with (commit_row r).
  rewrite (insert_abort commit_row _ (tb_commits tb)); [|done|].
  - cbn [mbind option_bind]. unfold encode, with_commits, commits_table. cbn [tb_commits]. by rewrite map_app.
  - intros b Hin. unfold clash. cbn [commits_table t_unique existsb]. rewrite !clash_on_false; [done|..]; cbn.
    + intros [= E]. apply Hb. rewrite E. by apply list_elem_of_fmap_2.
    + intros [= E]. apply Hh. rewrite E. by apply list_elem_of_fmap_2.
Qed.

Lemma run_insert_state tb s :
  run insert_state (map arg_value (state_args s)) (encode tb) = Some (encode (with_state (Some s) tb), 1).
Proof.
  unfold run, insert_state, run_insert.
  change (table_named "validator_state" (encode tb)) with (Some (state_table (tb_state tb))). cbn [mbind option_bind].
  change (Nat.eqb (length (map arg_value (state_args s))) (length state_columns)) with true. cbv iota.
  change (new_row (state_table (tb_state tb)) ([("id", VInt 1)] ++ zip state_columns (map arg_value (state_args s)))%list)
    with (state_row s).
  destruct (tb_state tb) as [old|] eqn:E; unfold insert_row, state_table.
  - change (map state_row (option_list (Some old))) with [state_row old]. cbn [t_rows map existsb].
    change (same_key "id" (state_row s) (state_row old)) with true. cbn [orb].
    assert (foldl (fun r' c => set_column c (column (state_row s) c) r') (state_row old) state_columns = state_row s) as ->
      by reflexivity.
    cbn [mbind option_bind]. unfold encode, with_state. reflexivity.
  - change (map state_row (option_list None)) with (@nil row). cbn [t_rows existsb List.filter is_nil].
    cbn [mbind option_bind]. unfold encode, with_state. reflexivity.
Qed.

Lemma run_insert_idempotency tb r :
  run insert_idempotency (map arg_value (idempotency_args r)) (encode tb) =
  Some (if decide (ir_ID r ∈ map ir_ID (tb_idempotency tb)) then (encode tb, 0)
        else (encode (with_idempotency (tb_idempotency tb ++ [r])%list tb), 1)).
Proof.
  unfold run, insert_idempotency, run_insert.
  change (table_named "idempotency" (encode tb)) with (Some (idempotency_table (tb_idempotency tb))).
  cbn [mbind option_bind].
  change (Nat.eqb (length (map arg_value (idempotency_args r))) (length idempotency_columns)) with true. cbv iota.
  change (new_row (idempotency_table (tb_idempotency tb)) ([] ++ zip idempotency_columns (map arg_value (idempotency_args r)))%list)
    with (idempotency_row r).
  unfold insert_row. cbn [idempotency_table t_rows]. destruct (decide _) as [Hin|Hout].
  - assert (is_nil (List.filter (clash (idempotency_table (tb_idempotency tb)) (idempotency_row r))
                      (map idempotency_row (tb_idempotency tb))) = false) as ->; [|done].
    apply list_elem_of_fmap in Hin as (b & E & Hb). destruct (List.filter _ _) eqn:Hf; [exfalso|done].
    assert (Hx : In (idempotency_row b) (List.filter (clash (idempotency_table (tb_idempotency tb)) (idempotency_row r))
                   (map idempotency_row (tb_idempotency tb)))).
    { apply filter_In. split; [by apply list_elem_of_In, list_elem_of_fmap_2|]. unfold clash.
      cbn [idempotency_table t_unique existsb]. rewrite clash_on_true; [done|cbn; by rewrite E|done]. }
    rewrite Hf in Hx. destruct Hx.
  - rewrite filter_none; [cbn [is_nil mbind option_bind]; unfold encode, with_idempotency, idempotency_table; cbn [tb_idempotency]; by rewrite map_app|].
    intros x (b & -> & Hb)%list_elem_of_fmap. unfold clash. cbn [idempotency_table t_unique existsb].
    rewrite clash_on_false; [done|]. cbn. intros [= E]. apply Hout. rewrite E. by apply list_elem_of_fmap_2.
Qed.

Lemma run_insert_snapshot tb r :
  sr_ID r ∉ map sr_ID (tb_snapshots tb) ->
  run insert_snapshot (map arg_value (snapshot_args r)) (encode tb) =
  Some (encode (with_snapshots (tb_snapshots tb ++ [r])%list tb), 1).
Proof.
  intros Hid. unfold run, insert_snapshot, run_insert.
  change (table_named "snapshots" (encode tb)) with (Some (snapshots_table (tb_snapshots tb))). cbn [mbind option_bind].
  change (Nat.eqb (length (map arg_value (snapshot_args r))) (length snapshot_columns)) with true. cbv iota.
  change (new_row (snapshots_table (tb_snapshots tb)) ([] ++ zip snapshot_columns (map arg_value (snapshot_args r)))%list)
    with (snapshot_row r).
  unfold insert_row. cbn [snapshots_table t_rows]. rewrite filter_all.
  - cbn [mbind option_bind]. unfold encode, with_snapshots, snapshots_table. cbn [tb_snapshots]. by rewrite map_app.
  - intros x (b & -> & Hb)%list_elem_of_fmap. unfold clash. cbn [snapshots_table t_unique existsb].
    rewrite clash_on_false; [done|]. cbn. intros [= E]. apply Hid. rewrite E. by apply list_elem_of_fmap_2.
Qed.

Lemma run_insert_evidence tb r :
  er_EvidenceID r ∉ map er_EvidenceID (tb_evidence tb) -> er_ReceiptID r ∉ map er_ReceiptID (tb_evidence tb) ->
  (er_QCHash r <> "" -> er_QCHash r ∉ map er_QCHash (with_qc (tb_evidence tb))) ->
  (er_IdempotencyKey r <> "" -> er_IdempotencyKey r ∉ map er_IdempotencyKey (with_key (tb_evidence tb))) ->
  run insert_evidence (map arg_value (evidence_args r)) (encode tb) =
  Some (encode (with_evidence (tb_evidence tb ++ [r])%list tb), 1).
Proof.
  intros Hid Hrec Hqc Hkey. unfold run, insert_evidence, run_insert.
  change (table_named "evidence" (encode tb)) with (Some (evidence_table (tb_evidence tb))). cbn [mbind option_bind].
  change (Nat.eqb (length (map arg_value (evidence_args r))) (length evidence_columns)) with true. cbv iota.
  change (new_row (evidence_table (tb_evidence tb)) ([] ++ zip evidence_columns (map arg_value (evidence_args r)))%list)
    with (evidence_row r).
  rewrite (insert_abort evidence_row _ (tb_evidence tb)); [|done|].
  - cbn [mbind option_bind]. unfold encode, with_evidence, evidence_table. cbn [tb_evidence]. by rewrite map_app.
  - intros b Hb. unfold clash. cbn [evidence_table t_unique existsb].
    assert (Hpart : forall c (f : EvidenceRecord -> string), (forall x, column (evidence_row x) c = VText (f x)) ->
      (f r <> "" -> f r ∉ map f (List.filter (fun x => negb (String.eqb (f x) "")) (tb_evidence tb))) ->
      clash_on (mkUnique c true) (evidence_row r) (evidence_row b) = false).
    { intros c f Hc Hf. destruct (decide (f r = "")) as [E|E]; [by apply clash_on_empty; rewrite Hc, E|].
      apply clash_on_false. cbn [ux_column]. rewrite !Hc. intros [= E']. apply (Hf E). rewrite E'. apply list_elem_of_fmap_2.
      apply list_elem_of_In, filter_In. split; [by apply list_elem_of_In|].
      by rewrite (proj2 (String.eqb_neq _ _)) by congruence. }
    rewrite (Hpart "qc_hash" er_QCHash), (Hpart "idempotency_key" er_IdempotencyKey) by done.
    rewrite !clash_on_false; [done|..]; cbn.
    + intros [= E]. apply Hrec. rewrite E. by apply list_elem_of_fmap_2.
    + intros [= E]. apply Hid. rewrite E. by apply list_elem_of_fmap_2.
Qed.

Lemma max_numbered l :
  max_of "row_id" (map audit_row (numbered l)) =
  match l with [] => None | _ => Some (Z.of_nat (length l)) end.
Proof.
  assert (Hn : forall n, max_of "row_id" (map audit_row (imap (fun i a => (Z.of_nat (n + i) + 1, a)) l)) =
    match l with [] => None | _ => Some (Z.of_nat (n + length l)) end); [|exact (Hn 0%nat)].
  induction l as [|a l IH]; intros n; [done|]. cbn [imap map max_of foldr].
  rewrite (imap_ext _ (fun i a => (Z.of_nat (S n + i) + 1, a)));
    [|intros i x _; cbn; do 2 f_equal; lia].
  change (foldr _ None ?x) with (max_of "row_id" x). rewrite IH. cbn. destruct l; cbn; f_equal; lia.
Qed.

Lemma run_insert_audit tb r :
  run insert_audit (map arg_value (audit_args r)) (encode tb) =
  Some (encode (with_audit (tb_audit tb ++ [r])%list tb), 1).
Proof.
  unfold run, insert_audit, run_insert.
  change (table_named "audit" (encode tb)) with (Some (audit_table (tb_audit tb))). cbn [mbind option_bind].
  change (Nat.eqb (length (map arg_value (audit_args r))) (length audit_columns)) with true. cbv iota.
  set (n := Z.of_nat (length (tb_audit tb)) + 1).
  assert (new_row (audit_table (tb_audit tb)) ([] ++ zip audit_columns (map arg_value (audit_args r)))%list
          = audit_row (n, r)) as ->.
  { unfold new_row. cbn [audit_table t_columns map]. unfold audit_row. cbn [fst snd]. f_equal.
    f_equal. cbn [audit_table t_auto t_rows]. rewrite bool_decide_true by done. rewrite max_numbered.
    unfold n. destruct (tb_audit tb); [done|]. done. }
  rewrite (insert_abort audit_row _ (numbered (tb_audit tb))); [|done|].
  - cbn [mbind option_bind]. unfold encode, with_audit, audit_table. cbn [tb_audit]. unfold numbered.
    rewrite imap_app, map_app. cbn. unfold n. by rewrite Nat.add_0_r.
  - intros [i b] Hb. unfold clash. cbn [audit_table t_unique existsb]. rewrite clash_on_false; [done|]. cbn.
    intros [= E]. apply elem_of_lookup_imap_1 in Hb as (j & x & [= -> ->] & Hx). apply lookup_lt_Some in Hx. lia.
Qed.

(** ** The store over an engine *)

Section engine.
Context {DB Tx : Type} `{ReliableEngine DB Tx}.
#[local] Set Default Proof Using "All".
Implicit Types (db : DB) (tx : Tx).

Lemma asks_db db : asks (Query db) (view db).
Proof.
  intros q args Ha. pose proof (Query_total db q args Ha) as Ht. destruct (Query db q args) as [out|e] eqn:E; [|done].
  exists out. split; [done|]. by eapply Query_law.
Qed.

Lemma asks_tx tx : asks (TxQuery tx) (tx_view tx).
Proof.
  intros q args Ha. pose proof (TxQuery_total tx q args Ha) as Ht. destruct (TxQuery tx q args) as [out|e] eqn:E; [|done].
  exists out. split; [done|]. by eapply TxQuery_law.
Qed.

Lemma exec_run db s args d n :
  forallb arg_ok args = true -> run s (map arg_value args) (view db) = Some (d, n) ->
  exists db', exec_args db s args = (db', Ok n) /\ view db' = d.
Proof.
  intros Ha Hr. unfold exec_args. rewrite bind_args_ok by done.
  pose proof (Exec_total db s (map arg_value args) _ Hr) as Ht. pose proof (Exec_law db s (map arg_value args)) as Hl.
  destruct (Exec db s (map arg_value args)) as [db' [k|e]]; [|done]. rewrite Hr in Hl. injection Hl as -> ->. by exists db'.
Qed.

Lemma tx_run tx s args d n :
  forallb arg_ok args = true -> run s (map arg_value args) (tx_view tx) = Some (d, n) ->
  exists tx', tx_exec_args tx s args = (tx', Ok n) /\ tx_view tx' = d /\ tx_base tx' = tx_base tx.
Proof.
  intros Ha Hr. unfold tx_exec_args. rewrite bind_args_ok by done.
  pose proof (TxExec_total tx s (map arg_value args) _ Hr) as Ht. pose proof (TxExec_law tx s (map arg_value args)) as Hl.
  destruct (TxExec tx s (map arg_value args)) as [tx' [k|e]]; [|done]. destruct Hl as [Hb Hl].
  rewrite Hr in Hl. injection Hl as -> ->. by exists tx'.
Qed.

Lemma begin_run db : exists tx, BeginTx db = Ok tx /\ tx_view tx = view db /\ tx_base tx = view db.
Proof.
  pose proof (BeginTx_total db) as Ht. destruct (BeginTx db) as [tx|e] eqn:E; [|done].
  exists tx. split; [done|]. by apply Begin_law.
Qed.

Lemma commit_run tx : exists db', TxCommit tx = (db', Ok tt) /\ view db' = tx_view tx.
Proof.
  pose proof (TxCommit_total tx) as Ht. pose proof (TxCommit_law tx) as Hl.
  destruct (TxCommit tx) as [db' [[]|e]]; [|done]. by exists db'.
Qed.

(** The handle holds the tables of [m]. *)
Definition holds_memory (db : DB) (m : MemoryStore) : Prop :=
  exists tb, view db = encode tb /\ tables_ok tb /\ agrees tb m.

(** An update whose numbers fit the columns, that does not give a block hash two
    heights or a certificate two records, and that follows the earlier ones in time. *)
Definition update_fits (m : MemoryStore) (u : update) : Prop :=
  match u with
  | USaveState state => state_fits state
  | USaveCommit r state =>
      commit_fits r /\ state_fits state /\
      forall h old, ms_commits m !! h = Some old -> cr_BlockHash old = cr_BlockHash r -> h = cr_Height r
  | URecordIdempotency _ _ _ => True
  | USaveSnapshot r =>
      snapshot_fits r /\ Forall (fun s => snapshot_before s r /\ sr_ID s <> sr_ID r) (ms_snapshots m)
  | USaveEvidence r =>
      evidence_fits r /\
      (er_QCHash r <> "" -> forall id old, ms_evidence m !! id = Some old -> er_QCHash old = er_QCHash r ->
         id = er_EvidenceID r)
  | USaveAudit r => Forall (fun a => ar_TimestampUnixMilli a <= ar_TimestampUnixMilli r) (ms_audit m)
  end.

Lemma StronglySorted_snoc {A} (R : A -> A -> Prop) l a :
  StronglySorted R l -> Forall (fun b => R b a) l -> StronglySorted R (l ++ [a])%list.
Proof.
  induction 1 as [|b l _ IH Hb]; intros Ha; cbn; [by repeat constructor|].
  apply Forall_cons in Ha as [Hba Ha]. constructor; [by apply IH|]. apply Forall_app. split; [done|by repeat constructor].
Qed.

Lemma NoDup_snoc {A} (l : list A) a : NoDup l -> a ∉ l -> NoDup (l ++ [a])%list.
Proof. intros Hl Ha. apply NoDup_app. split_and!; [done| |apply NoDup_singleton]. intros x Hx ->%list_elem_of_singleton. done. Qed.

Lemma keyed_elem {K A} `{Countable K} (f : A -> K) l a : NoDup (map f l) -> a ∈ l -> keyed f l !! f a = Some a.
Proof. intros Hnd Ha. by apply lookup_keyed. Qed.

Lemma keyed_in {K A} `{Countable K} (f : A -> K) l k : k ∈ map f l <-> is_Some (keyed f l !! k).
Proof. rewrite <-not_eq_None_Some, keyed_None. split; [by intros ? ?|]. intros Hn. by destruct (decide (k ∈ map f l)). Qed.

(** *** The updates one by one *)

Lemma step_state db m s : holds_memory db m -> state_fits s ->
  exists db', SQLite_SaveValidatorState db s = (db', Ok tt) /\ holds_memory db' (Memory.SaveValidatorState m s).1.
Proof.
  intros (tb & Hv & Hok & Hag) Hs. unfold SQLite_SaveValidatorState.
  destruct (exec_run db insert_state (state_args s) (encode (with_state (Some s) tb)) 1) as (db' & -> & Hv');
    [by apply state_args_ok|by rewrite Hv, run_insert_state|].
  exists db'. split; [done|]. exists (with_state (Some s) tb). split_and!; [done| |].
  - destruct Hok. constructor; cbn; try done. by intros ? [= <-].
  - destruct Hag. by constructor.
Qed.

Lemma tables_with_commit tb r :
  tables_ok tb -> commit_fits r -> cr_Height r ∉ map cr_Height (tb_commits tb) ->
  cr_BlockHash r ∉ map cr_BlockHash (tb_commits tb) -> tables_ok (with_commits (tb_commits tb ++ [r])%list tb).
Proof.
  intros [] Hr Hh Hb. constructor; cbn; try done.
  - apply Forall_app. split; [done|by apply Forall_singleton].
  - rewrite map_app. by apply NoDup_snoc.
  - rewrite map_app. by apply NoDup_snoc.
Qed.

Lemma tables_with_state tb s : tables_ok tb -> state_fits s -> tables_ok (with_state (Some s) tb).
Proof. intros [] Hs. constructor; cbn; try done. by intros ? [= <-]. Qed.

(** A transaction over the tables of a store. *)
Lemma tx_commit_row tx tb m h :
  tx_view tx = encode tb -> tables_ok tb -> agrees tb m -> fits63 h ->
  sqliteCommitTx tx h = Ok (ms_commits m !! h).
Proof.
  intros Hv Hok Hag Hh. unfold sqliteCommitTx, tx_query_args. rewrite bind_args_ok.
  - cbn [mbind result_bind map arg_value]. apply (ask_commit tb m Hok Hag (TxQuery tx)). rewrite <-Hv. apply asks_tx.
  - cbn. rewrite (proj2 (Z.ltb_lt _ _)); [done|apply Hh].
Qed.

Lemma step_commit db m r s : holds_memory db m -> update_fits m (USaveCommit r s) ->
  exists db' res, SQLite_SaveCommit db r s = (db', res) /\ is_ok res = is_ok (Memory.SaveCommit m r s).2 /\
    holds_memory db' (Memory.SaveCommit m r s).1.
Proof.
  intros (tb & Hv & Hok & Hag) (Hr & Hs & Hhash). unfold SQLite_SaveCommit, in_tx.
  destruct (begin_run db) as (tx & -> & Htv & Htb). unfold save_commit_body, sqliteSaveStateTx.
  rewrite (tx_commit_row tx tb m) by (done || (by rewrite Htv) || apply Hr). unfold Memory.SaveCommit.
  assert (Hsave : forall tx1 tb1 m1, tx_view tx1 = encode tb1 -> tables_ok tb1 -> agrees tb1 m1 ->
    exists tx2, tx_exec_args tx1 insert_state (state_args s) = (tx2, Ok 1) /\
      exists db', TxCommit tx2 = (db', Ok tt) /\ holds_memory db' (set_state s m1)).
  { intros tx1 tb1 m1 Hv1 Hok1 Hag1.
    destruct (tx_run tx1 insert_state (state_args s) (encode (with_state (Some s) tb1)) 1) as (tx2 & -> & Hv2 & _);
      [by apply state_args_ok|by rewrite Hv1, run_insert_state|].
    exists tx2. split; [done|]. destruct (commit_run tx2) as (db' & -> & Hv'). exists db'. split; [done|].
    exists (with_state (Some s) tb1). split_and!; [by rewrite Hv', Hv2|by apply tables_with_state|].
    destruct Hag1. by constructor. }
  destruct (ms_commits m !! cr_Height r) as [old|] eqn:Hold.
  - destruct (String.eqb (cr_BlockHash old) (cr_BlockHash r)); cbn [negb].
    + destruct (Hsave tx tb m) as (tx2 & -> & db' & -> & Hm); [by rewrite Htv|done|done|]. by exists db', (Ok tt).
    + eexists _, _. split; [reflexivity|]. split; [done|]. exists tb. by rewrite Rollback_law, Htb.
  - assert (Hh : cr_Height r ∉ map cr_Height (tb_commits tb)) by (apply keyed_None; by rewrite <-(ag_commits _ _ Hag)).
    assert (Hb : cr_BlockHash r ∉ map cr_BlockHash (tb_commits tb)).
    { intros (old & E & Ho)%list_elem_of_fmap. pose proof (keyed_elem cr_Height _ old (to_heights _ Hok) Ho) as Hk.
      rewrite <-(ag_commits _ _ Hag) in Hk. apply Hhash in Hk as Hk'; [|done]. congruence. }
    destruct (tx_run tx insert_commit (commit_args r) (encode (with_commits (tb_commits tb ++ [r])%list tb)) 1)
      as (tx1 & -> & Hv1 & _); [by apply commit_args_ok|by rewrite Htv, Hv, run_insert_commit|].
    destruct (Hsave tx1 (with_commits (tb_commits tb ++ [r])%list tb) (set_commits (<[cr_Height r := r]> (ms_commits m)) m))
      as (tx2 & -> & db' & -> & Hm); [done|by apply tables_with_commit| |by exists db', (Ok tt)].
    pose proof (ag_commits _ _ Hag) as Hc. destruct Hag. constructor; cbn; try done. by rewrite keyed_snoc, Hc.
Qed.

Lemma step_idempotency db m now id hash : holds_memory db m ->
  exists db', SQLite_RecordIdempotency db now id hash = (db', (Memory.RecordIdempotency m now id hash).2) /\
    holds_memory db' (Memory.RecordIdempotency m now id hash).1.
Proof.
  intros (tb & Hv & Hok & Hag). unfold SQLite_RecordIdempotency. set (r := mkIdempotencyRecord id hash (UnixMilli now)).
  pose proof (run_insert_idempotency tb r) as Hrun. rewrite <-Hv in Hrun. unfold Memory.RecordIdempotency.
  destruct (decide (ir_ID r ∈ map ir_ID (tb_idempotency tb))) as [Hin|Hout].
  - destruct (exec_run db insert_idempotency (idempotency_args r) (view db) 0 eq_refl Hrun) as (db' & -> & Hv').
    change (0 =? 1) with false. cbv iota.
    assert (Hres : SQLite_IdempotencyResult db' id = Memory.IdempotencyResult m id).
    { unfold SQLite_IdempotencyResult, query_args. rewrite bind_args_ok by done.
      apply (ask_idempotency tb m Hok Hag). rewrite <-Hv, <-Hv'. apply asks_db. }
    apply keyed_in in Hin as [old Hold]. rewrite Hres. unfold Memory.IdempotencyResult.
    rewrite (ag_idempotency _ _ Hag). cbn [r ir_ID] in Hold. rewrite Hold. cbn. exists db'. split; [done|].
    exists tb. by rewrite Hv', Hv.
  - destruct (exec_run db insert_idempotency (idempotency_args r) (encode (with_idempotency (tb_idempotency tb ++ [r])%list tb)) 1)
      as (db' & -> & Hv'); [done|by rewrite Hrun|]. change (1 =? 1) with true. cbv iota.
    apply (keyed_None ir_ID) in Hout as Hnone. cbn [r ir_ID] in Hnone. rewrite (ag_idempotency _ _ Hag), Hnone.
    exists db'. split; [done|]. exists (with_idempotency (tb_idempotency tb ++ [r])%list tb). split_and!; [done| |].
    + destruct Hok. constructor; cbn; try done. rewrite map_app. by apply NoDup_snoc.
    + destruct Hag. constructor; cbn; try done. by rewrite keyed_snoc.
Qed.

Lemma step_snapshot db m r : holds_memory db m -> update_fits m (USaveSnapshot r) ->
  exists db', SQLite_SaveSnapshot db r = (db', Ok tt) /\ holds_memory db' (Memory.SaveSnapshot m r).1.
Proof.
  intros (tb & Hv & Hok & Hag) [Hr Hbefore]. unfold SQLite_SaveSnapshot. rewrite (ag_snapshots _ _ Hag) in Hbefore.
  assert (Hid : sr_ID r ∉ map sr_ID (tb_snapshots tb)).
  { intros (s & E & Hs)%list_elem_of_fmap. rewrite Forall_forall in Hbefore. by destruct (Hbefore s Hs) as [_ []]. }
  destruct (exec_run db insert_snapshot (snapshot_args r) (encode (with_snapshots (tb_snapshots tb ++ [r])%list tb)) 1)
    as (db' & -> & Hv'); [by apply snapshot_args_ok|by rewrite Hv, run_insert_snapshot|].
  exists db'. split; [done|]. exists (with_snapshots (tb_snapshots tb ++ [r])%list tb). split_and!; [done| |].
  - destruct Hok. constructor; cbn; try done.
    + apply Forall_app. split; [done|by apply Forall_singleton].
    + rewrite map_app. by apply NoDup_snoc.
    + apply StronglySorted_snoc; [done|]. eapply Forall_impl; [exact Hbefore|]. by intros s [].
  - pose proof (ag_snapshots _ _ Hag) as Hc. destruct Hag. constructor; cbn; try done. by rewrite Hc.
Qed.

Lemma step_audit db m r : holds_memory db m -> update_fits m (USaveAudit r) ->
  exists db', SQLite_SaveAudit db r = (db', Ok tt) /\ holds_memory db' (Memory.SaveAudit m r).1.
Proof.
  intros (tb & Hv & Hok & Hag) Htime. unfold SQLite_SaveAudit. cbn [update_fits] in Htime. rewrite (ag_audit _ _ Hag) in Htime.
  destruct (exec_run db insert_audit (audit_args r) (encode (with_audit (tb_audit tb ++ [r])%list tb)) 1)
    as (db' & -> & Hv'); [done|by rewrite Hv, run_insert_audit|].
  exists db'. split; [done|]. exists (with_audit (tb_audit tb ++ [r])%list tb). split_and!; [done| |].
  - destruct Hok. constructor; cbn; try done. by apply StronglySorted_snoc.
  - pose proof (ag_audit _ _ Hag) as Hc. destruct Hag. constructor; cbn; try done. by rewrite Hc.
Qed.

(** *** Evidence *)

(** What the queries of [SaveEvidence] find, in the records of the tables. *)
Definition found_in (tb : Tables) (r : EvidenceRecord) : option (EvidenceRecord * option error) :=
  match keyed er_EvidenceID (tb_evidence tb) !! er_EvidenceID r with
  | Some old => Some (old, if negb (String.eqb (er_ReceiptID old) (er_ReceiptID r))
                           then Some (errorf ["conflicting evidence record for "; er_EvidenceID r]) else None)
  | None =>
      match (if negb (String.eqb (er_IdempotencyKey r) "")
             then keyed er_IdempotencyKey (with_key (tb_evidence tb)) !! er_IdempotencyKey r else None) with
      | Some old => Some (old, None)
      | None =>
          match keyed er_ReceiptID (tb_evidence tb) !! er_ReceiptID r with
          | Some old => if negb (String.eqb (er_EvidenceID old) (er_EvidenceID r))
                        then Some (old, Some (errorf ["conflicting receipt id "; er_ReceiptID r])) else None
          | None => None
          end
      end
  end.

Lemma evidence_found_run tx tb m r :
  tx_view tx = encode tb -> tables_ok tb -> agrees tb m -> evidence_found r tx = Ok (found_in tb r).
Proof.
  intros Hv Hok Hag. pose proof (asks_tx tx) as Hask. rewrite Hv in Hask. unfold evidence_found, found_in.
  assert (E1 : sqliteEvidenceByColumnTx tx "evidence_id" (er_EvidenceID r) =
               Ok (keyed er_EvidenceID (tb_evidence tb) !! er_EvidenceID r)).
  { rewrite <-(ag_evidence _ _ Hag). exact (ask_evidence_id tb m Hok Hag (TxQuery tx) Hask (er_EvidenceID r)). }
  rewrite E1. cbn [mbind result_bind].
  destruct (keyed er_EvidenceID (tb_evidence tb) !! er_EvidenceID r) as [old|]; [done|].
  assert (E2 : (if negb (String.eqb (er_IdempotencyKey r) "")
                then sqliteEvidenceByColumnTx tx "idempotency_key" (er_IdempotencyKey r) else Ok None) =
               Ok (if negb (String.eqb (er_IdempotencyKey r) "")
                   then keyed er_IdempotencyKey (with_key (tb_evidence tb)) !! er_IdempotencyKey r else None)).
  { destruct (String.eqb_spec (er_IdempotencyKey r) "") as [Ek|Ek]; cbn [negb]; [done|].
    by apply (ask_partial tb m Hok Hag (TxQuery tx) Hask "idempotency_key" er_IdempotencyKey); [|done|apply (to_keys _ Hok)]. }
  rewrite E2. cbn [mbind result_bind]. destruct (if negb (String.eqb (er_IdempotencyKey r) "") then _ else None) as [old|]; [done|].
  assert (E3 : sqliteEvidenceByColumnTx tx "receipt_id" (er_ReceiptID r) =
               Ok (keyed er_ReceiptID (tb_evidence tb) !! er_ReceiptID r)).
  { apply (ask_evidence tb m Hok Hag (TxQuery tx) Hask).
    by apply (selected_key evidence_row er_ReceiptID VText _ "receipt_id"); [| |apply (to_receipts _ Hok)]. }
  rewrite E3. cbn [mbind result_bind].
  destruct (keyed er_ReceiptID (tb_evidence tb) !! er_ReceiptID r) as [old|]; [|done]. by destruct (String.eqb (er_EvidenceID old) (er_EvidenceID r)).
Qed.

Lemma index_snoc (f : EvidenceRecord -> string) p (index : gmap string string) l r :
  index = er_EvidenceID <$> keyed f (List.filter p l) -> (p r = true -> f r ∉ map f (List.filter p l)) ->
  (if p r then <[f r := er_EvidenceID r]> index else index) =
  er_EvidenceID <$> keyed f (List.filter p (l ++ [r])%list).
Proof.
  intros -> Hf. rewrite List.filter_app. cbn [List.filter]. destruct (p r) eqn:E; [|by rewrite app_nil_r].
  rewrite keyed_snoc by auto. by rewrite fmap_insert.
Qed.

(** The memory finds the same, and stores the record when there is nothing to find. *)
Lemma memory_found tb m r : tables_ok tb -> agrees tb m ->
  (er_QCHash r <> "" -> er_QCHash r ∉ map er_QCHash (with_qc (tb_evidence tb))) ->
  match found_in tb r with
  | Some (old, err) => exists err', Memory.SaveEvidence m r = (m, (false, old, err')) /\ (err = None <-> err' = None)
  | None =>
      er_EvidenceID r ∉ map er_EvidenceID (tb_evidence tb) /\ er_ReceiptID r ∉ map er_ReceiptID (tb_evidence tb) /\
      (er_IdempotencyKey r <> "" -> er_IdempotencyKey r ∉ map er_IdempotencyKey (with_key (tb_evidence tb))) /\
      exists m', Memory.SaveEvidence m r = (m', (true, r, None)) /\
        agrees (with_evidence (tb_evidence tb ++ [r])%list tb) m'
  end.
Proof.
  intros Hok Hag Hqc. unfold found_in, Memory.SaveEvidence. rewrite (ag_evidence _ _ Hag).
  assert (Hat : forall old, old ∈ tb_evidence tb -> Memory.evidence_at m (er_EvidenceID old) = old).
  { intros old Ho. unfold Memory.evidence_at. rewrite (ag_evidence _ _ Hag).
    by rewrite (keyed_elem er_EvidenceID _ old (to_evidence_ids _ Hok) Ho). }
  destruct (keyed er_EvidenceID (tb_evidence tb) !! er_EvidenceID r) as [old|] eqn:E1.
  { destruct (negb _); (eexists; split; [reflexivity|done]). }
  rewrite (ag_keys _ _ Hag), (ag_receipts _ _ Hag), !lookup_fmap.
  set (byKey := if negb (String.eqb (er_IdempotencyKey r) "")
                then keyed er_IdempotencyKey (with_key (tb_evidence tb)) !! er_IdempotencyKey r else None).
  assert (Hkey : (if negb (String.eqb (er_IdempotencyKey r) "")
                  then er_EvidenceID <$> keyed er_IdempotencyKey (with_key (tb_evidence tb)) !! er_IdempotencyKey r
                  else None) = er_EvidenceID <$> byKey) by (unfold byKey; by destruct (negb _)).
  rewrite Hkey. destruct byKey as [old|] eqn:E2; cbn [fmap option_fmap option_map].
  { unfold byKey in E2. destruct (negb _); [|done]. apply lookup_keyed in E2 as [Ho _]; [|apply (to_keys _ Hok)].
    rewrite (Hat old) by (by eapply filter_sub). by exists None. }
  destruct (keyed er_ReceiptID (tb_evidence tb) !! er_ReceiptID r) as [old|] eqn:E3; cbn [fmap option_fmap option_map].
  { apply lookup_keyed in E3 as [Ho Hr]; [|apply (to_receipts _ Hok)].
    assert (Hne : er_EvidenceID old <> er_EvidenceID r).
    { intros E. apply (keyed_None er_EvidenceID) in E1. apply E1. rewrite <-E. by apply list_elem_of_fmap_2. }
    apply String.eqb_neq in Hne as Hne'. rewrite Hne'. cbn [negb]. rewrite (Hat old Ho). eexists. split; [reflexivity|done]. }
  assert (Hk : er_IdempotencyKey r <> "" -> er_IdempotencyKey r ∉ map er_IdempotencyKey (with_key (tb_evidence tb))).
  { intros Hk%String.eqb_neq. unfold byKey in E2. rewrite Hk in E2. by apply (keyed_None er_IdempotencyKey) in E2. }
  apply (keyed_None er_EvidenceID) in E1. apply (keyed_None er_ReceiptID) in E3.
  split_and!; [done|done|done|]. eexists. split; [reflexivity|]. destruct Hag.
  constructor; cbn [with_evidence tb_state tb_commits tb_idempotency tb_snapshots tb_evidence tb_audit set_evidence
    ms_state ms_hasState ms_commits ms_idempotency ms_snapshots ms_evidence ms_receipts ms_evidenceByI ms_evidenceByQ ms_audit];
    try done.
  - by rewrite keyed_snoc.
  - by rewrite keyed_snoc, fmap_insert.
  - apply (index_snoc er_IdempotencyKey (fun x => negb (String.eqb (er_IdempotencyKey x) ""))); [done|]. intros Hp%negb_true_iff%String.eqb_neq. by apply Hk.
  - apply (index_snoc er_QCHash (fun x => negb (String.eqb (er_QCHash x) ""))); [done|]. intros Hp%negb_true_iff%String.eqb_neq. by apply Hqc.
Qed.

Lemma tables_with_evidence tb r :
  tables_ok tb -> evidence_fits r -> er_EvidenceID r ∉ map er_EvidenceID (tb_evidence tb) ->
  er_ReceiptID r ∉ map er_ReceiptID (tb_evidence tb) ->
  (er_QCHash r <> "" -> er_QCHash r ∉ map er_QCHash (with_qc (tb_evidence tb))) ->
  (er_IdempotencyKey r <> "" -> er_IdempotencyKey r ∉ map er_IdempotencyKey (with_key (tb_evidence tb))) ->
  tables_ok (with_evidence (tb_evidence tb ++ [r])%list tb).
Proof.
  intros [] Hr Hid Hrec Hqc Hkey. constructor; cbn; try done.
  - apply Forall_app. split; [done|by apply Forall_singleton].
  - rewrite map_app. by apply NoDup_snoc.
  - rewrite map_app. by apply NoDup_snoc.
  - unfold with_key. rewrite List.filter_app, map_app. cbn [List.filter].
    destruct (String.eqb_spec (er_IdempotencyKey r) "") as [E|E]; cbn [negb]; [by rewrite app_nil_r|].
    cbn [map]. apply NoDup_snoc; [done|by apply Hkey].
  - unfold with_qc. rewrite List.filter_app, map_app. cbn [List.filter].
    destruct (String.eqb_spec (er_QCHash r) "") as [E|E]; cbn [negb]; [by rewrite app_nil_r|].
    cbn [map]. apply NoDup_snoc; [done|by apply Hqc].
Qed.

Lemma step_evidence db m r : holds_memory db m -> update_fits m (USaveEvidence r) ->
  let '(m', (created, old, err)) := Memory.SaveEvidence m r in
  exists db' err', SQLite_SaveEvidence db r = (db', (created, old, err')) /\ (err = None <-> err' = None) /\
    holds_memory db' m'.
Proof.
  intros (tb & Hv & Hok & Hag) [Hr Hfresh].
  assert (Hqc : er_QCHash r <> "" -> er_EvidenceID r ∉ map er_EvidenceID (tb_evidence tb) ->
                er_QCHash r ∉ map er_QCHash (with_qc (tb_evidence tb))).
  { intros Hne Hid (old & E & Ho)%list_elem_of_fmap. apply filter_sub in Ho.
    apply Hid. rewrite <-(Hfresh Hne (er_EvidenceID old) old); [by apply list_elem_of_fmap_2| |done].
    rewrite (ag_evidence _ _ Hag). by apply keyed_elem; [apply (to_evidence_ids _ Hok)|]. }
  unfold SQLite_SaveEvidence. destruct (begin_run db) as (tx & -> & Htv & Htb).
  rewrite (evidence_found_run tx tb m r) by (done || by rewrite Htv).
  destruct (decide (er_EvidenceID r ∈ map er_EvidenceID (tb_evidence tb))) as [Hin|Hout].
  - apply keyed_in in Hin as [old Hold]. unfold found_in, Memory.SaveEvidence. rewrite (ag_evidence _ _ Hag), Hold.
    destruct (negb (String.eqb (er_ReceiptID old) (er_ReceiptID r))).
    + eexists _, _. split; [reflexivity|]. split; [done|]. exists tb. by rewrite Rollback_law, Htb.
    + unfold commit_with. destruct (commit_run tx) as (db' & -> & Hv'). exists db', None. split; [done|].
      split; [done|]. exists tb. by rewrite Hv', Htv.
  - pose proof (memory_found tb m r Hok Hag (fun Hne => Hqc Hne Hout)) as Hm.
    destruct (found_in tb r) as [[old err]|].
    + destruct Hm as (err' & -> & Herr). destruct err as [e|].
      * eexists _, _. split; [reflexivity|]. split; [naive_solver|]. exists tb. by rewrite Rollback_law, Htb.
      * unfold commit_with. destruct (commit_run tx) as (db' & -> & Hv'). exists db', None. split; [done|].
        split; [naive_solver|]. exists tb. by rewrite Hv', Htv.
    + destruct Hm as (Hid & Hrec & Hkey & m' & -> & Hag').
      destruct (tx_run tx insert_evidence (evidence_args r) (encode (with_evidence (tb_evidence tb ++ [r])%list tb)) 1)
        as (tx1 & -> & Hv1 & _); [by apply evidence_args_ok|rewrite Htv, Hv; apply run_insert_evidence; auto|].
      unfold commit_with. destruct (commit_run tx1) as (db' & -> & Hv'). exists db', None. split; [done|]. split; [done|].
      exists (with_evidence (tb_evidence tb ++ [r])%list tb). split_and!; [by rewrite Hv', Hv1| |done].
      apply tables_with_evidence; auto.
Qed.

Lemma update_run db m u : holds_memory db m -> update_fits m u ->
  exists db', apply_update db u = (db', (apply_update m u).2) /\ holds_memory db' (apply_update m u).1.
Proof.
  intros Hm Hu. destruct u as [s|r s|now id hash|r|r|r]; cbn [apply_update].
  - destruct (step_state db m s Hm Hu) as (db' & Hrun & Hm').
    cbn [SaveValidatorState sqlite_store memory_store]. rewrite Hrun. by exists db'.
  - destruct (step_commit db m r s Hm Hu) as (db' & res & Hrun & Hres & Hm').
    cbn [SaveCommit sqlite_store memory_store]. rewrite Hrun, Hres. exists db'.
    destruct (Memory.SaveCommit m r s) as [m' res']. done.
  - destruct (step_idempotency db m now id hash Hm) as (db' & Hrun & Hm').
    cbn [RecordIdempotency sqlite_store memory_store]. rewrite Hrun. exists db'.
    destruct (Memory.RecordIdempotency m now id hash) as [m' res']. done.
  - destruct (step_snapshot db m r Hm Hu) as (db' & Hrun & Hm').
    cbn [SaveSnapshot sqlite_store memory_store]. rewrite Hrun. by exists db'.
  - pose proof (step_evidence db m r Hm Hu) as Hs.
    cbn [SaveEvidence sqlite_store memory_store]. destruct (Memory.SaveEvidence m r) as [m' [[created old] err]].
    destruct Hs as (db' & err' & -> & Herr & Hm'). exists db'. split; [|done]. cbn [snd]. do 2 f_equal.
    destruct err as [e|], err' as [e'|]; (done || naive_solver).
  - destruct (step_audit db m r Hm Hu) as (db' & Hrun & Hm').
    cbn [SaveAudit sqlite_store memory_store]. rewrite Hrun. by exists db'.
Qed.

Fixpoint updates_fit (m : MemoryStore) (us : list update) : Prop :=
  match us with
  | [] => True
  | u :: us => update_fits m u /\ updates_fit (apply_update m u).1 us
  end.

Lemma updates_simulated us : forall db m, holds_memory db m -> updates_fit m us ->
  exists db', apply_updates db us = (db', (apply_updates m us).2) /\ holds_memory db' (apply_updates m us).1.
Proof.
  induction us as [|u us IH]; intros db m Hm Hus; cbn [apply_updates]; [by exists db|]. destruct Hus as [Hu Hus].
  destruct (update_run db m u Hm Hu) as (db1 & -> & Hm1). destruct (apply_update m u) as [m1 a]. cbn [fst snd] in *.
  destruct (IH db1 m1 Hm1 Hus) as (db2 & -> & Hm2). exists db2. by destruct (apply_updates m1 us) as [m2 answers].
Qed.
End engine.

(** Two stores answer every question alike; the two keys that are not indexed when they
    are empty are not asked for empty. *)
Record reads_agree {S T} `{ValidatorStore S} `{ValidatorStore T} (s : S) (t : T) : Prop := {
  ra_state : LoadValidatorState s = LoadValidatorState t;
  ra_commits : ListCommits s = ListCommits t;
  ra_recent limit : RecentCommits s limit = RecentCommits t limit;
  ra_commit h : fits63 h -> Commit s h = Commit t h;
  ra_idempotency id : IdempotencyResult s id = IdempotencyResult t id;
  ra_count : IdempotencyCount s = IdempotencyCount t;
  ra_snapshots : ListSnapshots s = ListSnapshots t;
  ra_id id : EvidenceByID s id = EvidenceByID t id;
  ra_receipt id : EvidenceByReceiptID s id = EvidenceByReceiptID t id;
  ra_key k : k <> "" -> EvidenceByIdempotencyKey s k = EvidenceByIdempotencyKey t k;
  ra_qc q : q <> "" -> EvidenceByQCHash s q = EvidenceByQCHash t q;
  ra_evidence : ListEvidence s = ListEvidence t;
  ra_recent_evidence limit : RecentEvidence s limit = RecentEvidence t limit;
  ra_audit limit : ListAudit s limit = ListAudit t limit
}.

Section opening.
Context {DB Tx : Type} `{ReliableEngine DB Tx}.
#[local] Set Default Proof Using "All".

Lemma reads_run (db : DB) m : holds_memory db m -> reads_agree db m.
Proof.
  intros (tb & Hv & Hok & Hag). pose proof (asks_db db) as Hask. rewrite Hv in Hask.
  pose proof (fun v => eq_refl : bind_args [AText v] = Ok [VText v]) as Hbind.
  constructor; cbn [sqlite_store memory_store LoadValidatorState ListCommits RecentCommits Commit IdempotencyResult
    IdempotencyCount ListSnapshots EvidenceByID EvidenceByReceiptID EvidenceByIdempotencyKey EvidenceByQCHash
    ListEvidence RecentEvidence ListAudit].
  - exact (ask_state tb m Hok Hag (Query db) Hask).
  - exact (ask_list_commits tb m Hok Hag (Query db) Hask).
  - exact (ask_recent_commits tb m Hok Hag (Query db) Hask).
  - intros h Hh. unfold SQLite_Commit, sqliteCommitQuery, query_args. rewrite bind_args_ok.
    + exact (ask_commit tb m Hok Hag (Query db) Hask h).
    + cbn. rewrite (proj2 (Z.ltb_lt _ _)); [done|apply Hh].
  - exact (ask_idempotency tb m Hok Hag (Query db) Hask).
  - exact (ask_count tb m Hok Hag (Query db) Hask).
  - exact (ask_snapshots tb m Hok Hag (Query db) Hask).
  - exact (ask_evidence_id tb m Hok Hag (Query db) Hask).
  - exact (ask_receipt tb m Hok Hag (Query db) Hask).
  - exact (ask_key tb m Hok Hag (Query db) Hask).
  - exact (ask_qc tb m Hok Hag (Query db) Hask).
  - exact (ask_list_evidence tb m Hok Hag (Query db) Hask).
  - exact (ask_recent_evidence tb m Hok Hag (Query db) Hask).
  - exact (ask_audit tb m Hok Hag (Query db) Hask).
Qed.

(** *** Opening a database *)

Lemma exec_view (db : DB) s args d n :
  run s args (view db) = Some (d, n) -> exists db', Exec db s args = (db', Ok n) /\ view db' = d.
Proof.
  intros Hr. pose proof (Exec_total db s args _ Hr) as Ht. pose proof (Exec_law db s args) as Hl.
  destruct (Exec db s args) as [db' [k|e]]; [|done]. rewrite Hr in Hl. injection Hl as -> ->. by exists db'.
Qed.

Fixpoint run_all (statements : list stmt) (d : database) : option database :=
  match statements with
  | [] => Some d
  | s :: statements => '(d, _) ← run s [] d; run_all statements d
  end.

Lemma exec_all_run statements : forall (tx : Tx) d,
  run_all statements (tx_view tx) = Some d ->
  exists tx', exec_all tx statements = (tx', Ok tt) /\ tx_view tx' = d.
Proof.
  induction statements as [|s statements IH]; intros tx d Hr; cbn [exec_all run_all] in *.
  - injection Hr as <-. by exists tx.
  - destruct (run s [] (tx_view tx)) as [[d1 n]|] eqn:E; [|done]. cbn in Hr.
    destruct (tx_run tx s [] d1 n eq_refl E) as (tx1 & Hx & Hv1 & _).
    change (tx_exec_args tx s []) with (TxExec tx s []) in Hx. rewrite Hx. apply IH. by rewrite Hv1.
Qed.

Definition fresh_tables (now : Time) : Tables :=
  mkTables [[("version", VInt 1); ("name", VText "initial evidence fabric sqlite schema");
             ("applied_at_unix_milli", VInt (UnixMilli now))]] None [] [] [] [] [].

Lemma current_version_run (db : DB) v :
  (exists t, table_named "schema_migrations" (view db) = Some t /\ max_of "version" (t_rows t) = Some v) ->
  sqliteCurrentVersion db = Ok v.
Proof.
  intros (t & Ht & Hmax). unfold sqliteCurrentVersion.
  destruct (asks_db db (QTableExists "schema_migrations") [] eq_refl) as (out & -> & ->). rewrite Ht. cbn.
  destruct (asks_db db (QMax "version" "schema_migrations") []) as (out & -> & t' & Ht' & ->); [cbn; by rewrite Ht|].
  rewrite Ht in Ht'. injection Ht' as <-. by rewrite Hmax.
Qed.

(** An empty database gets the schema. *)
Lemma migrate_fresh (db : DB) now : view db = [] ->
  exists db', migrateSQLite now false db = (db', Ok [1]) /\ view db' = encode (fresh_tables now).
Proof.
  intros Hv. unfold migrateSQLite.
  destruct (exec_view db (Pragma "PRAGMA journal_mode=WAL") [] (view db) 0 eq_refl) as (db1 & -> & Hv1).
  destruct (exec_view db1 (Pragma "PRAGMA foreign_keys=ON") [] (view db1) 0 eq_refl) as (db2 & -> & Hv2).
  assert (Hcur : sqliteCurrentVersion db2 = Ok 0).
  { unfold sqliteCurrentVersion. destruct (asks_db db2 (QTableExists "schema_migrations") [] eq_refl) as (out & -> & ->).
    by rewrite Hv2, Hv1, Hv. }
  rewrite Hcur. change (SQLiteSchemaVersion <? 0) with false. change (SQLiteSchemaVersion <=? 0) with false. cbv iota.
  unfold in_tx, migrate_body. destruct (begin_run db2) as (tx & -> & Htv & _).
  destruct (exec_all_run sqliteV1Statements tx (encode (mkTables [] None [] [] [] [] []))) as (tx1 & -> & Hv3).
  { by rewrite Htv, Hv2, Hv1, Hv. }
  destruct (tx_run tx1 insert_migration
    [AInt SQLiteSchemaVersion; AText "initial evidence fabric sqlite schema"; AInt (UnixMilli now)]
    (encode (fresh_tables now)) 1 eq_refl) as (tx2 & -> & Hv4 & _); [by rewrite Hv3|].
  destruct (commit_run tx2) as (db' & -> & Hv5). exists db'. split; [done|]. by rewrite Hv5.
Qed.

(** A database with the schema is left alone. *)
Lemma migrate_current (db : DB) now tb : view db = encode tb -> tables_ok tb ->
  exists db', migrateSQLite now false db = (db', Ok []) /\ view db' = view db.
Proof.
  intros Hv Hok. unfold migrateSQLite.
  destruct (exec_view db (Pragma "PRAGMA journal_mode=WAL") [] (view db) 0 eq_refl) as (db1 & -> & Hv1).
  destruct (exec_view db1 (Pragma "PRAGMA foreign_keys=ON") [] (view db1) 0 eq_refl) as (db2 & -> & Hv2).
  rewrite (current_version_run db2 1).
  - exists db2. split; [done|]. by rewrite Hv2.
  - exists (migrations_table (tb_migrations tb)). rewrite Hv2, Hv1, Hv. split; [done|]. apply (to_version _ Hok).
Qed.

Lemma fresh_holds (db : DB) now : view db = encode (fresh_tables now) -> holds_memory db NewMemoryStore.
Proof.
  intros Hv. exists (fresh_tables now). split_and!; [done| |].
  - constructor; cbn; try done; by constructor.
  - by constructor.
Qed.

(** C31: the SQLite store implements the in-memory store, across restarts.  Whatever
    engine runs the statements, if it does what they mean and fails only where they do,
    a store opened over an empty database answers any sequence of updates as the
    in-memory store does, and every read after it alike (reads by an empty idempotency
    key, an empty certificate hash or a height beyond an [int64] excepted).  That holds of
    updates whose numbers fit an [int64], where no block hash comes with two heights, no
    certificate hash with two records and no snapshot id twice, snapshots come in the order
    of their times, those of one time in the order of their ids, and audit records in the
    order of their times.  Opening the database again, by any handle that sees the same
    tables, changes none of the reads. *)
Theorem sqlite_store_refines us now make_dir sql_Open dsn (db0 : DB) :
  TrimSpace dsn <> "" -> ensureSQLiteDir make_dir (TrimSpace dsn) = Ok tt ->
  sql_Open (TrimSpace dsn) = Ok db0 -> view db0 = [] -> updates_fit NewMemoryStore us ->
  exists db, OpenSQLiteStore make_dir sql_Open now dsn = Ok db /\
    let '(db', answers) := apply_updates db us in
    let '(m, expected) := apply_updates NewMemoryStore us in
    answers = expected /\ reads_agree db' m /\
    forall now2 sql_Open2 db2, sql_Open2 (TrimSpace dsn) = Ok db2 -> view db2 = view db' ->
      exists db3, OpenSQLiteStore make_dir sql_Open2 now2 dsn = Ok db3 /\ reads_agree db3 m.
Proof.
  intros Hdsn%String.eqb_neq Hdir Hopen Hv Hus.
  destruct (migrate_fresh db0 now Hv) as (db & Hm & Hdb). exists db. split.
  - unfold OpenSQLiteStore. rewrite Hdsn, Hdir. cbn [mbind result_bind]. rewrite Hopen. cbn [mbind result_bind].
    by rewrite Hm.
  - destruct (updates_simulated us db NewMemoryStore (fresh_holds db now Hdb) Hus) as (db' & -> & Hholds).
    destruct (apply_updates NewMemoryStore us) as [m expected]. cbn [fst snd] in Hholds |- *.
    split_and!; [done|by apply reads_run|]. intros now2 sql_Open2 db2 Hopen2 Hv2.
    destruct Hholds as (tb & Htb & Hok & Hag).
    destruct (migrate_current db2 now2 tb) as (db3 & Hm2 & Hv3); [by rewrite Hv2|done|]. exists db3. split.
    + unfold OpenSQLiteStore. rewrite Hdsn, Hdir. cbn [mbind result_bind]. rewrite Hopen2. cbn [mbind result_bind].
      by rewrite Hm2.
    + apply reads_run. exists tb. by rewrite Hv3, Hv2.
Qed.
End opening.

(** ** A store over the reference engine *)

Definition demo_sqlite_updates : list update :=
  [USaveState demo_state; USaveCommit demo_commit demo_state; URecordIdempotency (mkTime 7 "") "tx-1" "r1";
   URecordIdempotency (mkTime 8 "") "tx-1" "r2"; USaveSnapshot (mkSnapshotRecord "s1" 1 "h1" "{}" 9);
   USaveEvidence (mkEvidenceRecord "e1" "rc1" "eh" "qc" 1 "org" "key" "{receipt}" 9);
   USaveEvidence (mkEvidenceRecord "e2" "rc1" "eh" "qc2" 1 "org" "key2" "{receipt}" 9);
   USaveAudit (mkAuditRecord "req" 9 "" "" "POST" "/evidence" 201 4 "" "")].

Lemma demo_updates_fit : updates_fit NewMemoryStore demo_sqlite_updates.
Proof.
  assert (Hst : state_fits demo_state) by (repeat split; vm_compute; congruence).
  cbn -[state_fits commit_fits]. split_and!; try done; try (by constructor); try (repeat split; vm_compute; congruence).
  all: intros _ id old E Hq; apply elem_of_map_to_list, list_elem_of_In in E; vm_compute in E.
  all: repeat (destruct E as [E|E]; [injection E as <- <-; discriminate Hq|]); destruct E.
Qed.

Lemma sqlite_store_refines_witness :
  exists db, OpenSQLiteStore (fun _ => Ok tt) (fun _ => Ok []) (mkTime 1 "") "validator.db" = Ok db /\
    (apply_updates db demo_sqlite_updates).2 = (apply_updates NewMemoryStore demo_sqlite_updates).2 /\
    EvidenceByReceiptID (apply_updates db demo_sqlite_updates).1 "rc1" =
      Ok (Some (mkEvidenceRecord "e1" "rc1" "eh" "qc" 1 "org" "key" "{receipt}" 9)).
Proof.
  destruct (sqlite_store_refines demo_sqlite_updates (mkTime 1 "") (fun _ => Ok tt) (fun _ => Ok []) "validator.db" []
    ltac:(vm_compute; congruence) eq_refl eq_refl eq_refl demo_updates_fit) as (db & Hopen & Hrun).
  exists db. split; [exact Hopen|]. destruct (apply_updates db demo_sqlite_updates) as [db' answers].
  destruct (apply_updates NewMemoryStore demo_sqlite_updates) as [m expected] eqn:E.
  destruct Hrun as (Ha & Hr & _). split; [exact Ha|]. cbn [fst].
  rewrite (ra_receipt _ _ Hr). injection E as <- _. vm_compute. reflexivity.
Defined.

(** The SQLite store holds a certificate hash once: a second record with it is refused
    although the in-memory store saves it. *)
Example certificate_hash_once :
  let r1 := mkEvidenceRecord "e1" "rc1" "eh" "qc" 1 "org" "key" "{receipt}" 9 in
  let r2 := mkEvidenceRecord "e2" "rc2" "eh" "qc" 1 "org" "key2" "{receipt}" 9 in
  let us := [USaveEvidence r1; USaveEvidence r2] in
  (apply_updates (encode (fresh_tables (mkTime 1 ""))) us).2 =
    [AEvidence true r1 true; AEvidence false zero_evidence false] /\
  (apply_updates NewMemoryStore us).2 = [AEvidence true r1 true; AEvidence true r2 true].
Proof. split; vm_compute; reflexivity. Qed.

(** A snapshot saved again under its id takes the place of the first, where the in-memory
    store lists both: the working memory and the bundle state are saved under fixed ids. *)
Example snapshot_id_once :
  let r1 := mkSnapshotRecord "working_memory" 0 "h1" "{}" 0 in
  let r2 := mkSnapshotRecord "working_memory" 0 "h2" "{}" 0 in
  let us := [USaveSnapshot r1; USaveSnapshot r2] in
  ListSnapshots (apply_updates (encode (fresh_tables (mkTime 1 ""))) us).1 = Ok [r2] /\
  ListSnapshots (apply_updates NewMemoryStore us).1 = Ok [r1; r2].
Proof. split; vm_compute; reflexivity. Qed.
