(* ===== verification/Stores.v ===== *)
(** * Opening a store: core/storage/store.go

    [OpenValidatorStore] chooses one of the three stores by the storage mode.  What it
    returns is one of them behind the interface; over a disk and a database that do not
    fail, a client cannot tell which. *)

From S2P Require Import Prelude Sha256 Json Identity Store NodeInit FileStore Sql Sqlite SqliteTables SqliteRefine.
Local Open Scope string_scope.
Local Open Scope Z_scope.

(** ** The three stores behind the interface *)

Inductive OpenedStore (DB : Type) :=
  | InMemory (m : MemoryStore)
  | InFiles (s : FileStore)
  | InDatabase (db : DB).

Arguments InMemory {DB}.
Arguments InFiles {DB}.
Arguments InDatabase {DB}.

Section stores.
Context {DB Tx : Type} `{Engine DB Tx}.

(** A method that reads, or changes, whichever store it is. *)
Definition asking {A} (f : forall S, ValidatorStore S -> S -> A) (s : OpenedStore DB) : A :=
  match s with
  | InMemory m => f MemoryStore memory_store m
  | InFiles s => f FileStore file_store s
  | InDatabase db => f DB sqlite_store db
  end.

Definition telling {A} (f : forall S, ValidatorStore S -> S -> S * A) (s : OpenedStore DB) : OpenedStore DB * A :=
  match s with
  | InMemory m => let '(m, a) := f MemoryStore memory_store m in (InMemory m, a)
  | InFiles s => let '(s, a) := f FileStore file_store s in (InFiles s, a)
  | InDatabase db => let '(db, a) := f DB sqlite_store db in (InDatabase db, a)
  end.

#[export] Instance opened_store : ValidatorStore (OpenedStore DB) := {
  LoadValidatorState := asking (fun S _ => LoadValidatorState);
  SaveValidatorState s state := telling (fun S _ s => SaveValidatorState s state) s;
  SaveCommit s record state := telling (fun S _ s => SaveCommit s record state) s;
  ListCommits := asking (fun S _ => ListCommits);
  RecentCommits s limit := asking (fun S _ s => RecentCommits s limit) s;
  Commit s height := asking (fun S _ s => Commit s height) s;
  RecordIdempotency s now id hash := telling (fun S _ s => RecordIdempotency s now id hash) s;
  IdempotencyResult s id := asking (fun S _ s => IdempotencyResult s id) s;
  IdempotencyCount := asking (fun S _ => IdempotencyCount);
  SaveSnapshot s record := telling (fun S _ s => SaveSnapshot s record) s;
  ListSnapshots := asking (fun S _ => ListSnapshots);
  SaveEvidence s record := telling (fun S _ s => SaveEvidence s record) s;
  EvidenceByID s id := asking (fun S _ s => EvidenceByID s id) s;
  EvidenceByReceiptID s id := asking (fun S _ s => EvidenceByReceiptID s id) s;
  EvidenceByIdempotencyKey s key := asking (fun S _ s => EvidenceByIdempotencyKey s key) s;
  EvidenceByQCHash s hash := asking (fun S _ s => EvidenceByQCHash s hash) s;
  ListEvidence := asking (fun S _ => ListEvidence);
  RecentEvidence s limit := asking (fun S _ s => RecentEvidence s limit) s;
  SaveAudit s record := telling (fun S _ s => SaveAudit s record) s;
  ListAudit s limit := asking (fun S _ s => ListAudit s limit) s
}.

(** The files of the data directory, the answer of making it, and the database driver. *)
Context (path : string -> string) (disk : Disk) (mkdir : result unit).
Context (make_dir : string -> result unit) (sql_Open : string -> result DB).

(** [databaseURL] is the optional last argument; without it, or empty, a database is
    opened at [dataDir]. *)
Definition OpenValidatorStore (now : Time) (mode dataDir : string) (databaseURL : list string)
    : result (OpenedStore DB) :=
  if String.eqb mode "" || String.eqb mode ModeMemory then Ok (InMemory NewMemoryStore)
  else if String.eqb mode ModeDurable then
    s ← OpenFileStore path (read_disk disk) dataDir mkdir disk; Ok (InFiles s)
  else if String.eqb mode ModeSQLite then
    let dsn := match databaseURL with url :: _ => if negb (String.eqb url "") then url else dataDir | [] => dataDir end in
    db ← OpenSQLiteStore make_dir sql_Open now dsn; Ok (InDatabase db)
  else Err (errors_New ("unsupported storage mode: " ++ mode)).
End stores.

(** ** Which store it is does not matter *)

Lemma reads_memory (m : MemoryStore) : reads_agree m m.
Proof. by constructor. Qed.

Lemma reads_files s : fl_closed s = false -> reads_agree s (fl_memory s).
Proof.
  intros Ho. constructor; intros; cbn [LoadValidatorState ListCommits RecentCommits Commit IdempotencyResult IdempotencyCount
    ListSnapshots EvidenceByID EvidenceByReceiptID EvidenceByIdempotencyKey EvidenceByQCHash ListEvidence RecentEvidence
    ListAudit file_store memory_store]; unfold File.LoadValidatorState, File.ListCommits, File.RecentCommits, File.Commit,
    File.IdempotencyResult, File.IdempotencyCount, File.ListSnapshots, File.EvidenceByID, File.EvidenceByReceiptID,
    File.EvidenceByIdempotencyKey, File.EvidenceByQCHash, File.ListEvidence, File.RecentEvidence, File.ListAudit, reading;
    by rewrite Ho.
Qed.

Section alike.
Context {DB Tx : Type} `{ReliableEngine DB Tx}.
#[local] Set Default Proof Using "All".

(** The updates of an opened store are those of the store it is. *)
Lemma updates_opened us :
  (forall m, apply_updates (InMemory m) us = (let '(m, answers) := apply_updates m us in (InMemory m, answers))) /\
  (forall s, apply_updates (InFiles s) us = (let '(s, answers) := apply_updates s us in (InFiles s, answers))) /\
  (forall db, apply_updates (InDatabase db) us = (let '(db, answers) := apply_updates db us in (InDatabase db, answers))).
Proof.
  induction us as [|u us IH]; [done|]. destruct IH as (IHm & IHf & IHd).
  assert (Hstep : forall S (st : ValidatorStore S) (inj : S -> OpenedStore DB) (s : S),
    (forall s, apply_updates (inj s) us = (let '(s, answers) := apply_updates s us in (inj s, answers))) ->
    apply_update (inj s) u = (let '(s, a) := apply_update s u in (inj s, a)) ->
    apply_updates (inj s) (u :: us) = (let '(s, answers) := apply_updates s (u :: us) in (inj s, answers))).
  { intros S st inj s IH Hu. cbn [apply_updates]. rewrite Hu. destruct (apply_update s u) as [s' a]. rewrite IH.
    by destruct (apply_updates s' us). }
  split_and!; intros s; apply Hstep; try done.
  all: destruct u; cbn [apply_update opened_store SaveValidatorState SaveCommit RecordIdempotency SaveSnapshot SaveEvidence
    SaveAudit telling]; repeat case_match; simplify_eq; done.
Qed.

Lemma reads_opened {S} `{ValidatorStore S} (s : S) (m : MemoryStore) : reads_agree s m ->
  forall inj : S -> OpenedStore DB,
  (forall A (f : forall S, ValidatorStore S -> S -> A), asking f (inj s) = f S _ s) -> reads_agree (inj s) m.
Proof.
  intros [] inj Hask. constructor; intros; cbn [LoadValidatorState ListCommits RecentCommits Commit IdempotencyResult
    IdempotencyCount ListSnapshots EvidenceByID EvidenceByReceiptID EvidenceByIdempotencyKey EvidenceByQCHash
    ListEvidence RecentEvidence ListAudit opened_store]; rewrite Hask; auto.
Qed.

(** C21: the storage mode does not matter to a client.  A store that is opened answers
    any sequence of updates as the in-memory store does, and every read after it alike
    (reads by an empty idempotency key, an empty certificate hash or a height beyond an
    [int64] excepted): in memory mode, or without a mode, always; in durable mode over an
    empty data directory that has a name, with files that do not fail, for records that
    carry the fields their kind requires, are UTF-8, have numbers in range and fit a line
    of the log; in SQLite mode over an empty database that can be opened and whose engine
    does what the statements mean, for numbers that fit an [int64], no block hash with two
    heights, no certificate hash with two records, no snapshot id twice, and snapshots and
    audit records that come in the order of their times (snapshots of one time in that of
    their ids).  Any other mode is refused, whatever the directory and the URL. *)
Theorem any_store_alike path make_dir sql_Open now mode dataDir databaseURL us :
  let opened := OpenValidatorStore path (mkDisk ∅ []) (Ok tt) make_dir sql_Open now mode dataDir databaseURL in
  let dsn := match databaseURL with url :: _ => if negb (String.eqb url "") then url else dataDir | [] => dataDir end in
  let alike := exists s, opened = Ok s /\
      let '(s', answers) := apply_updates s us in
      let '(m, expected) := apply_updates NewMemoryStore us in answers = expected /\ reads_agree s' m in
  (mode ∈ [""; ModeMemory] -> alike) /\
  (mode = ModeDurable -> dataDir <> "" -> Forall update_ok us -> alike) /\
  (mode = ModeSQLite -> forall db0 : DB, TrimSpace dsn <> "" -> ensureSQLiteDir make_dir (TrimSpace dsn) = Ok tt ->
     sql_Open (TrimSpace dsn) = Ok db0 -> view db0 = [] -> updates_fit NewMemoryStore us -> alike) /\
  (mode ∉ [""; ModeMemory; ModeDurable; ModeSQLite] ->
     opened = Err (errors_New ("unsupported storage mode: " ++ mode))).
Proof.
  intros opened dsn alike. subst opened alike. unfold OpenValidatorStore. fold dsn.
  destruct (updates_opened us) as (Hm & Hf & Hd). split_and!.
  - intros Hmode. assert (E : String.eqb mode "" || String.eqb mode ModeMemory = true).
    { apply elem_of_cons in Hmode as [->| ->%list_elem_of_singleton]; reflexivity. }
    rewrite E. eexists. split; [done|]. rewrite Hm.
    destruct (apply_updates NewMemoryStore us) as [m answers]. split; [done|]. by apply (reads_opened m m (reads_memory m)).
  - intros -> Hdir Hok. change (String.eqb ModeDurable "" || String.eqb ModeDurable ModeMemory) with false.
    change (String.eqb ModeDurable ModeDurable) with true. cbv iota.
    pose proof (durable_opens path dataDir _ fresh_durable Hdir) as Hload. cbn [fl_disk] in Hload. rewrite Hload.
    eexists. split; [done|]. rewrite Hf. pose proof (updates_run us _ fresh_durable Hok) as Hrun.
    destruct (apply_updates _ us) as [s answers]. destruct Hrun as [Hdur Hmem]. cbn [fl_memory] in Hmem. rewrite Hmem.
    split; [done|]. apply (reads_opened s _ (reads_files s (du_open _ Hdur))). done.
  - intros -> db0 Hdsn%String.eqb_neq Hmk Hopen Hv Hfit.
    change (String.eqb ModeSQLite "" || String.eqb ModeSQLite ModeMemory) with false.
    change (String.eqb ModeSQLite ModeDurable) with false. change (String.eqb ModeSQLite ModeSQLite) with true. cbv iota.
    unfold OpenSQLiteStore. rewrite Hdsn, Hmk. cbn [mbind result_bind]. rewrite Hopen. cbn [mbind result_bind].
    destruct (migrate_fresh db0 now Hv) as (db & -> & Hdb). eexists. split; [done|]. rewrite Hd.
    destruct (updates_simulated us db NewMemoryStore (fresh_holds db now Hdb) Hfit) as (db' & -> & Hholds).
    destruct (apply_updates NewMemoryStore us) as [m expected]. split; [done|].
    by apply (reads_opened db' m (reads_run db' m Hholds)).
  - intros Hmode. destruct (String.eqb_spec mode "") as [->|_]; [set_solver|].
    destruct (String.eqb_spec mode ModeMemory) as [->|_]; [set_solver|].
    destruct (String.eqb_spec mode ModeDurable) as [->|_]; [set_solver|].
    destruct (String.eqb_spec mode ModeSQLite) as [->|_]; [set_solver|]. done.
Qed.
End alike.

(** *** Witness: the same updates through every mode *)

Lemma demo_updates_storable : Forall update_ok demo_sqlite_updates.
Proof.
  repeat (apply Forall_cons; split); try apply Forall_nil; try exact I;
    cbn [update_ok demo_sqlite_updates]; repeat split; vm_compute; congruence.
Qed.

Definition demo_open (mode : string) : result (OpenedStore database) :=
  OpenValidatorStore id (mkDisk ∅ []) (Ok tt) (fun _ => Ok tt) (fun _ => Ok []) (mkTime 1 "") mode "data" ["validator.db"].

Lemma any_store_alike_witness :
  (forall us, exists s, demo_open "" = Ok s /\ (apply_updates s us).2 = (apply_updates NewMemoryStore us).2) /\
  (exists s, demo_open "durable" = Ok s /\
    (apply_updates s demo_sqlite_updates).2 = (apply_updates NewMemoryStore demo_sqlite_updates).2) /\
  (exists s, demo_open "sqlite" = Ok s /\
    (apply_updates s demo_sqlite_updates).2 = (apply_updates NewMemoryStore demo_sqlite_updates).2) /\
  demo_open "postgres" = Err (errors_New "unsupported storage mode: postgres").
Proof.
  pose proof (fun mode => any_store_alike id (fun _ => Ok tt) (fun _ => Ok []) (mkTime 1 "") mode "data" ["validator.db"])
    as Hall.
  assert (Hanswers : forall mode us, (exists s, demo_open mode = Ok s /\
      let '(s', answers) := apply_updates s us in
      let '(m, expected) := apply_updates NewMemoryStore us in answers = expected /\ reads_agree s' m) ->
    exists s, demo_open mode = Ok s /\ (apply_updates s us).2 = (apply_updates NewMemoryStore us).2).
  { intros mode us (s & Hs & Hrun). exists s. split; [exact Hs|].
    destruct (apply_updates s us), (apply_updates NewMemoryStore us). exact (proj1 Hrun). }
  split_and!.
  - intros us. apply Hanswers. apply (proj1 (Hall "" us)). left.
  - apply Hanswers. destruct (Hall "durable" demo_sqlite_updates) as (_ & Hd & _).
    exact (Hd eq_refl ltac:(discriminate) demo_updates_storable).
  - apply Hanswers. destruct (Hall "sqlite" demo_sqlite_updates) as (_ & _ & Hs & _).
    exact (Hs eq_refl [] ltac:(vm_compute; discriminate) eq_refl eq_refl eq_refl demo_updates_fit).
  - destruct (Hall "postgres" []) as (_ & _ & _ & Hp). apply Hp. apply (bool_decide_unpack _). vm_compute. exact I.
Defined.
