(* ===== verification/Backup.v ===== *)
(** * Backing up a SQLite store: core/backup/sqlite.go

    [BackupSQLite] copies a validator's database with VACUUM INTO and checks the copy;
    [CheckSQLiteRestore] opens a working copy of a database as the validator would and
    verifies the receipts of its latest evidence.  The files are a map from paths to
    their bytes; how the SQLite driver reads and writes them is a parameter, and so are
    the directories and the temporary names of the operating system.  The clock is read
    once. *)

From S2P Require Import Prelude Sha256 Json JsonParse JsonDecode JsonIndent Identity Crypto State Protocol Codec Store Consortium Evidence FileStore Sql Sqlite.
Local Open Scope string_scope.
Local Open Scope Z_scope.

Definition reportLimitations : string :=
  "Local SQLite backup and restore evidence only; no managed backup service, cloud snapshot, secret-manager fetch, Kubernetes apply, image signing, or certification claim.".

Record SQLiteOptions := mkOptions {
  so_SourceDatabase : string;
  so_BackupDatabase : string;
  so_ManifestPath : string;
  so_ManifestHistory : string;
  so_ReceiptLimit : Z;
  so_Force : bool
}.

Record ReceiptCheck := mkReceiptCheck {
  rk_ReceiptID : string;
  rk_EvidenceID : string;
  rk_CommitHeight : Z;
  rk_SignerCount : Z;
  rk_MembershipVersion : Z;
  rk_ValidatorSetHash : string;
  rk_Valid : bool;
  rk_Status : string;
  rk_QuorumStatus : string;
  rk_Reason : string
}.

Record SQLiteReport := mkReport {
  sq_Status : string;
  sq_GeneratedAtUnixMilli : Z;
  sq_SourceDatabase : string;
  sq_BackupDatabase : string;
  sq_SourceSHA256 : string;
  sq_BackupSHA256 : string;
  sq_IntegrityCheck : string;
  sq_Migration : SQLiteMigrationReport;
  sq_SchemaVersion : Z;
  sq_CommitCount : Z;
  sq_EvidenceCount : Z;
  sq_AuditCount : Z;
  sq_IdempotencyCount : Z;
  sq_VerificationMode : string;
  sq_VerificationStatus : string;
  sq_VerifiedReceipts : Z;
  sq_InvalidReceipts : Z;
  sq_ReceiptChecks : list ReceiptCheck;
  sq_Message : string;
  sq_Limitations : string
}.

Definition zero_migration : SQLiteMigrationReport := mkMigrationReport "" "" 0 0 false [] [] 0 "".

(** The report both operations start from. *)
Definition new_report (now : Time) (source backup : string) : SQLiteReport :=
  mkReport "fail" (UnixMilli now) source backup "" "" "" zero_migration SQLiteSchemaVersion 0 0 0 0 "" "" 0 0 [] ""
    reportLimitations.

(** *** Assignments to the fields of a report *)

Definition set_message (message : string) (r : SQLiteReport) : SQLiteReport :=
  mkReport (sq_Status r) (sq_GeneratedAtUnixMilli r) (sq_SourceDatabase r) (sq_BackupDatabase r) (sq_SourceSHA256 r)
    (sq_BackupSHA256 r) (sq_IntegrityCheck r) (sq_Migration r) (sq_SchemaVersion r) (sq_CommitCount r)
    (sq_EvidenceCount r) (sq_AuditCount r) (sq_IdempotencyCount r) (sq_VerificationMode r)
    (sq_VerificationStatus r) (sq_VerifiedReceipts r) (sq_InvalidReceipts r) (sq_ReceiptChecks r) message
    (sq_Limitations r).

Definition set_migration (m : SQLiteMigrationReport) (r : SQLiteReport) : SQLiteReport :=
  mkReport (sq_Status r) (sq_GeneratedAtUnixMilli r) (sq_SourceDatabase r) (sq_BackupDatabase r) (sq_SourceSHA256 r)
    (sq_BackupSHA256 r) (sq_IntegrityCheck r) m (sq_SchemaVersion r) (sq_CommitCount r)
    (sq_EvidenceCount r) (sq_AuditCount r) (sq_IdempotencyCount r) (sq_VerificationMode r)
    (sq_VerificationStatus r) (sq_VerifiedReceipts r) (sq_InvalidReceipts r) (sq_ReceiptChecks r) (sq_Message r)
    (sq_Limitations r).

Definition set_integrity (integrity : string) (r : SQLiteReport) : SQLiteReport :=
  mkReport (sq_Status r) (sq_GeneratedAtUnixMilli r) (sq_SourceDatabase r) (sq_BackupDatabase r) (sq_SourceSHA256 r)
    (sq_BackupSHA256 r) integrity (sq_Migration r) (sq_SchemaVersion r) (sq_CommitCount r)
    (sq_EvidenceCount r) (sq_AuditCount r) (sq_IdempotencyCount r) (sq_VerificationMode r)
    (sq_VerificationStatus r) (sq_VerifiedReceipts r) (sq_InvalidReceipts r) (sq_ReceiptChecks r) (sq_Message r)
    (sq_Limitations r).

Definition set_hashes (source sourceHash backupHash : string) (r : SQLiteReport) : SQLiteReport :=
  mkReport (sq_Status r) (sq_GeneratedAtUnixMilli r) source (sq_BackupDatabase r) sourceHash
    backupHash (sq_IntegrityCheck r) (sq_Migration r) (sq_SchemaVersion r) (sq_CommitCount r)
    (sq_EvidenceCount r) (sq_AuditCount r) (sq_IdempotencyCount r) (sq_VerificationMode r)
    (sq_VerificationStatus r) (sq_VerifiedReceipts r) (sq_InvalidReceipts r) (sq_ReceiptChecks r) (sq_Message r)
    (sq_Limitations r).

Definition set_counts (commits evidence audit idempotency : Z) (r : SQLiteReport) : SQLiteReport :=
  mkReport (sq_Status r) (sq_GeneratedAtUnixMilli r) (sq_SourceDatabase r) (sq_BackupDatabase r) (sq_SourceSHA256 r)
    (sq_BackupSHA256 r) (sq_IntegrityCheck r) (sq_Migration r) (sq_SchemaVersion r) commits
    evidence audit idempotency (sq_VerificationMode r)
    (sq_VerificationStatus r) (sq_VerifiedReceipts r) (sq_InvalidReceipts r) (sq_ReceiptChecks r) (sq_Message r)
    (sq_Limitations r).

Definition set_checks (mode : string) (checks : list ReceiptCheck) (r : SQLiteReport) : SQLiteReport :=
  let valid := List.filter rk_Valid checks in
  mkReport (sq_Status r) (sq_GeneratedAtUnixMilli r) (sq_SourceDatabase r) (sq_BackupDatabase r) (sq_SourceSHA256 r)
    (sq_BackupSHA256 r) (sq_IntegrityCheck r) (sq_Migration r) (sq_SchemaVersion r) (sq_CommitCount r)
    (sq_EvidenceCount r) (sq_AuditCount r) (sq_IdempotencyCount r) mode
    (sq_VerificationStatus r) (Z.of_nat (length valid)) (Z.of_nat (length checks) - Z.of_nat (length valid)) checks
    (sq_Message r) (sq_Limitations r).

Definition set_outcome (status verification message : string) (r : SQLiteReport) : SQLiteReport :=
  mkReport status (sq_GeneratedAtUnixMilli r) (sq_SourceDatabase r) (sq_BackupDatabase r) (sq_SourceSHA256 r)
    (sq_BackupSHA256 r) (sq_IntegrityCheck r) (sq_Migration r) (sq_SchemaVersion r) (sq_CommitCount r)
    (sq_EvidenceCount r) (sq_AuditCount r) (sq_IdempotencyCount r) (sq_VerificationMode r)
    verification (sq_VerifiedReceipts r) (sq_InvalidReceipts r) (sq_ReceiptChecks r) message
    (sq_Limitations r).

(** A report returned with the error whose text it holds. *)
Definition failed (e : error) (r : SQLiteReport) : SQLiteReport * option error :=
  (set_message (err_text e) r, Some e).

(** ** Helpers *)

Fixpoint firstNonEmpty (values : list string) : string :=
  match values with
  | [] => ""
  | value :: values => if negb (String.eqb (TrimSpace value) "") then value else firstNonEmpty values
  end.

Definition normalizeLimit (limit : Z) : Z :=
  if limit <=? 0 then 20 else if 500 <? limit then 500 else limit.

Definition short (value : string) : string := if len value <=? 12 then value else prefix 12 value.

(** Every quote is doubled. *)
Fixpoint escapeSQLiteString (value : string) : string :=
  match value with
  | EmptyString => EmptyString
  | String c value =>
      if Ascii.eqb c "'" then String c (String c (escapeSQLiteString value)) else String c (escapeSQLiteString value)
  end.

(** ** The environment *)

(** The bytes of the files, by path. *)
Abbreviation Disk := (gmap string string).

Record Host (DB : Type) := mkHost {
  ho_Open : Disk -> string -> result DB;                         (* sql.Open("sqlite", dsn) *)
  ho_Exec : option error -> Disk -> DB -> string -> Disk * result unit;   (* db.ExecContext *)
  ho_Flush : Disk -> string -> DB -> Disk;                       (* the files after the handle's writes *)
  ho_make_dir : string -> result unit;                           (* MkdirAll of a path's directory *)
  ho_Remove : string -> bool;                                    (* os.Remove succeeds *)
  ho_working_path : Disk -> string -> result string;             (* a name in a new temporary directory *)
  ho_read_file : string -> result string;
  ho_unquote : string -> option string
}.
Arguments ho_Open {DB}.
Arguments ho_Exec {DB}.
Arguments ho_Flush {DB}.
Arguments ho_make_dir {DB}.
Arguments ho_Remove {DB}.
Arguments ho_working_path {DB}.
Arguments ho_read_file {DB}.
Arguments ho_unquote {DB}.

Definition fileExists (disk : Disk) (path : string) : bool := bool_decide (is_Some (disk !! path)).

Definition no_such_file {A} (path : string) : result A :=
  Err (mkError (Some ErrNotExist) ("open " ++ path ++ ": no such file or directory")).

Definition fileSHA256 (disk : Disk) (path : string) : result string :=
  match disk !! path with
  | Some bytes => Ok (Hex.EncodeToString (Sha256.Sum256 bytes))
  | None => no_such_file path
  end.

(** The hash when the error is dropped. *)
Definition hash_or_empty (r : result string) : string := match r with Ok h => h | Err _ => "" end.

Section backup.
Context {DB Tx : Type} `{Engine DB Tx} `{Ed25519} `{Mldsa87}.
Implicit Types (host : Host DB) (disk : Disk).

(** ** Receipts *)

Definition invalidReceipt (receipt : EvidenceReceipt) (reason : string) : VerificationResult :=
  mkVerification false VerificationInvalid reason (re_ReceiptID receipt) (re_EvidenceID receipt) "" "" "invalid"
    (re_AnchorStatus receipt) (re_SignerCount receipt) 0 0.

Definition verifierForManifest (manifest : Manifest) : result SignatureVerifier :=
  match ActiveValidators manifest with
  | [] => fail "manifest has no active validators"
  | record :: _ =>
      if String.eqb (vr_SignatureAlgorithm record) DevSignatureAlgorithm then Ok DevSignatureVerifier
      else if String.eqb (vr_SignatureAlgorithm record) MldsaAlgorithm then Ok mldsa_NewVerifier
      else fail ("unsupported receipt signature algorithm " ++ Quote (vr_SignatureAlgorithm record))
  end.

(** The set and the version a receipt was issued under. *)
Definition receipt_set (receipt : EvidenceReceipt) : string :=
  firstNonEmpty [re_ValidatorSetHash receipt; b_ValidatorSetHash (c_Block (re_Commit receipt))].

Definition receipt_version (receipt : EvidenceReceipt) : Z :=
  if re_MembershipVersion receipt =? 0 then b_MembershipVersion (c_Block (re_Commit receipt))
  else re_MembershipVersion receipt.

Definition verifyReceipt (receipt : EvidenceReceipt) (history : History) (manifestBacked : bool) : VerificationResult :=
  if negb manifestBacked then VerifyReceipt receipt ∅ None 0
  else
    let hash := receipt_set receipt in
    let version := receipt_version receipt in
    match ManifestByHash history hash with
    | None => invalidReceipt receipt ("unknown validator set hash " ++ hash)
    | Some manifest =>
        if negb (mf_MembershipVersion manifest =? version) then
          invalidReceipt receipt ("validator set hash " ++ hash ++ " belongs to version " ++
            itoa (mf_MembershipVersion manifest) ++ ", not " ++ itoa version)
        else
          match ActiveIdentities manifest with
          | Err e => invalidReceipt receipt (err_text e)
          | Ok identities =>
              match verifierForManifest manifest with
              | Err e => invalidReceipt receipt (err_text e)
              | Ok verifier => VerifyReceipt receipt identities (Some verifier) (mf_QuorumThreshold manifest)
              end
          end
    end.

(** One turn of the loop over the latest evidence. *)
Definition check_record (history : History) (manifestBacked : bool) (record : EvidenceRecord) : ReceiptCheck :=
  match UnmarshalReceipt (er_ReceiptJSON record) with
  | Err e =>
      mkReceiptCheck (er_ReceiptID record) (er_EvidenceID record) 0 0 0 "" false VerificationInvalid "" (err_text e)
  | Ok receipt =>
      let v := verifyReceipt receipt history manifestBacked in
      mkReceiptCheck (re_ReceiptID receipt) (re_EvidenceID receipt) (re_CommitHeight receipt) (re_SignerCount receipt)
        (re_MembershipVersion receipt) (re_ValidatorSetHash receipt) (vf_Valid v) (vf_Status v) (vf_QuorumStatus v)
        (vf_Reason v)
  end.

Definition loadManifestHistory (read_file : string -> result string) (unquote : string -> option string)
    (manifestPath historyRaw : string) : result (History * bool) :=
  let manifestPath := TrimSpace manifestPath in
  let historyRaw := TrimSpace historyRaw in
  if String.eqb manifestPath "" && String.eqb historyRaw "" then Ok (empty_history, false)
  else
    history ← (if negb (String.eqb historyRaw "") then LoadManifestHistory read_file unquote historyRaw
               else Ok empty_history);
    if negb (String.eqb manifestPath "") then
      manifest ← LoadManifest read_file manifestPath;
      history ← WithManifest history manifest;
      Ok (history, true)
    else Ok (history, true).

(** ** Checking that a database restores *)

(** The path to open and the files it is opened on: a working copy, or the database of a
    URL itself. *)
Definition restoreWorkingCopy host disk (path : string) : result (string * Disk) :=
  if HasPrefix path "file:" || Prelude.Contains path "?" then Ok (path, disk)
  else
    match disk !! path with
    | None => no_such_file path
    | Some bytes =>
        dstPath ← ho_working_path host disk path;
        if fileExists disk dstPath then Err (mkError None ("open " ++ dstPath ++ ": file exists"))
        else Ok (dstPath, <[dstPath := bytes]> disk)
    end.

(** The number of commits, of evidence records, of audit records and of idempotency ids. *)
Definition read_counts (store : DB) : result (Z * Z * Z * Z) :=
  commits ← SQLite_ListCommits store;
  evidenceRecords ← SQLite_ListEvidence store;
  audit ← SQLite_ListAudit store 0;
  idempotencyCount ← SQLite_IdempotencyCount store;
  Ok (Z.of_nat (length commits), Z.of_nat (length evidenceRecords), Z.of_nat (length audit), idempotencyCount).

(** The verdict over the checked receipts. *)
Definition conclude (recent : list EvidenceRecord) (r : SQLiteReport) : SQLiteReport * option error :=
  if 0 <? sq_InvalidReceipts r then
    let message := "one or more restored receipts failed verification" in
    (set_outcome "fail" "invalid" message r, Some (errors_New message))
  else
    match recent with
    | [] =>
        (set_outcome "pass" "no_receipts"
           "SQLite database opened and integrity check passed; no receipts were available for spot-check verification" r,
         None)
    | _ => (set_outcome "pass" "valid" "SQLite restore verification completed" r, None)
    end.

(** The checks before the store is opened: the schema's version and SQLite's own check. *)
Definition precheck host disk (now : Time) (path : string) (r : SQLiteReport) : SQLiteReport * result unit :=
  match CheckSQLiteMigrations (ho_make_dir host) (fileExists disk) (ho_Open host disk) now path true with
  | Err e => (r, Err e)
  | Ok migration =>
      let r := set_migration migration r in
      if String.eqb (mr_Status migration) "fail" then (r, Err (errors_New (mr_Message migration)))
      else
        let '(integrity, err) := SQLiteIntegrityCheck (ho_Open host disk) path in
        (set_integrity integrity r, match err with Some e => Err e | None => Ok tt end)
  end.

(** The part of the check that reads the store. *)
Definition check_store host (opts : SQLiteOptions) (limit : Z) (store : DB) (r : SQLiteReport)
    : SQLiteReport * option error :=
  match read_counts store with
  | Err e => failed e r
  | Ok (commits, evidenceRecords, audit, idempotencyCount) =>
      let r := set_counts commits evidenceRecords audit idempotencyCount r in
      match loadManifestHistory (ho_read_file host) (ho_unquote host) (so_ManifestPath opts)
              (so_ManifestHistory opts) with
      | Err e => failed e r
      | Ok (history, manifestBacked) =>
          let mode := if manifestBacked then "manifest-history" else "structural" in
          match SQLite_RecentEvidence store limit with
          | Err e => failed e (set_checks mode [] r)
          | Ok recent => conclude recent (set_checks mode (map (check_record history manifestBacked) recent) r)
          end
      end
  end.

Definition CheckSQLiteRestore host (now : Time) (opts : SQLiteOptions) disk : Disk * (SQLiteReport * option error) :=
  let limit := normalizeLimit (so_ReceiptLimit opts) in
  let dbPath := firstNonEmpty [so_BackupDatabase opts; so_SourceDatabase opts] in
  let r := new_report now "" dbPath in
  if String.eqb (TrimSpace dbPath) "" then (disk, failed (errors_New "database is required") r)
  else
    match precheck host disk now dbPath r with
    | (r, Err e) => (disk, failed e r)
    | (r, Ok _) =>
        let r := set_hashes "" "" (hash_or_empty (fileSHA256 disk dbPath)) r in
        match restoreWorkingCopy host disk dbPath with
        | Err e => (disk, failed e r)
        | Ok (openPath, files) =>
            match OpenSQLiteStore (ho_make_dir host) (ho_Open host files) now openPath with
            | Err e => (disk, failed e r)
            | Ok store =>
                (* the temporary directory is removed, a database opened in place stays *)
                let disk := if String.eqb openPath dbPath then ho_Flush host disk dbPath store else disk in
                (disk, check_store host opts limit store r)
            end
        end
    end.

(** *** Making a backup *)

Definition vacuumSQLiteInto host (ctx : option error) (source destination : string) disk : Disk * result unit :=
  match ho_Open host disk source with
  | Err e => (disk, Err e)
  | Ok db =>
      match ho_Exec host ctx disk db "PRAGMA wal_checkpoint(FULL)" with
      | (disk, Err e) => (disk, Err e)
      | (disk, Ok _) => ho_Exec host ctx disk db ("VACUUM INTO '" ++ escapeSQLiteString destination ++ "'")
      end
  end.

(** An error of [os.Remove] is dropped. *)
Definition remove_file host (path : string) disk : Disk := if ho_Remove host path then delete path disk else disk.

Definition remove_old host (backup : string) disk : Disk :=
  remove_file host (backup ++ "-shm") (remove_file host (backup ++ "-wal") (remove_file host backup disk)).

Definition BackupSQLite host (ctx : option error) (now : Time) (opts : SQLiteOptions) disk
    : Disk * (SQLiteReport * option error) :=
  let source := TrimSpace (so_SourceDatabase opts) in
  let backup := TrimSpace (so_BackupDatabase opts) in
  let r := new_report now source backup in
  if String.eqb source "" then (disk, failed (errors_New "source database is required") r)
  else if String.eqb backup "" then (disk, failed (errors_New "backup database is required") r)
  else if negb (so_Force opts) && fileExists disk backup then
    (disk, failed (errors_New "backup database already exists; pass --force to replace it") r)
  else
    match precheck host disk now source r with
    | (r, Err e) => (disk, failed e r)
    | (r, Ok _) =>
        let disk := if so_Force opts then remove_old host backup disk else disk in
        match ho_make_dir host backup with
        | Err e => (disk, failed e r)
        | Ok _ =>
            match vacuumSQLiteInto host ctx source backup disk with
            | (disk, Err e) => (disk, failed e r)
            | (disk, Ok _) =>
                let sourceHash := hash_or_empty (fileSHA256 disk source) in
                let backupHash := hash_or_empty (fileSHA256 disk backup) in
                let '(disk, (checked, err)) :=
                  CheckSQLiteRestore host now
                    (mkOptions "" backup (so_ManifestPath opts) (so_ManifestHistory opts)
                       (normalizeLimit (so_ReceiptLimit opts)) false) disk in
                let checked := set_hashes source sourceHash
                                 (if String.eqb (sq_BackupSHA256 checked) "" then backupHash else sq_BackupSHA256 checked)
                                 checked in
                match err with
                | Some e => (disk, (checked, Some e))
                | None =>
                    (disk, (set_message "SQLite backup created and restored receipt verification completed" checked, None))
                end
            end
        end
    end.
End backup.

(** ** The text report *)

Definition check_line (check : ReceiptCheck) : string :=
  "receipt=" ++ short (rk_ReceiptID check) ++ " valid=" ++ show_bool (rk_Valid check) ++ " quorum=" ++
  rk_QuorumStatus check ++ " signers=" ++ itoa (rk_SignerCount check) ++ " height=" ++ itoa (rk_CommitHeight check) ++
  newline.

Definition Text (r : SQLiteReport) : string :=
  "pq-fabric sqlite backup report" ++ newline ++
  "status=" ++ sq_Status r ++ " schema=" ++ itoa (mr_CurrentVersion (sq_Migration r)) ++ " integrity=" ++
  sq_IntegrityCheck r ++ " verification=" ++ sq_VerificationStatus r ++ " mode=" ++ sq_VerificationMode r ++ newline ++
  (if negb (String.eqb (sq_SourceDatabase r) "")
   then "source=" ++ sq_SourceDatabase r ++ " sha256=" ++ short (sq_SourceSHA256 r) ++ newline else "") ++
  (if negb (String.eqb (sq_BackupDatabase r) "")
   then "backup=" ++ sq_BackupDatabase r ++ " sha256=" ++ short (sq_BackupSHA256 r) ++ newline else "") ++
  "counts commits=" ++ itoa (sq_CommitCount r) ++ " evidence=" ++ itoa (sq_EvidenceCount r) ++ " audit=" ++
  itoa (sq_AuditCount r) ++ " idempotency=" ++ itoa (sq_IdempotencyCount r) ++ newline ++
  "receipts verified=" ++ itoa (sq_VerifiedReceipts r) ++ " invalid=" ++ itoa (sq_InvalidReceipts r) ++ newline ++
  String.concat "" (map check_line (sq_ReceiptChecks r)) ++
  "message=" ++ sq_Message r ++ newline ++ "limitations=" ++ sq_Limitations r ++ newline.
