(* ===== verification/BackupProps.v ===== *)
(** * What a backup and a restore check show

    A restore check that passes has verified every receipt it looked at; a backup holds
    what its source held, whatever the paths, over any engine and driver that keep their
    laws; and a source that does not exist is backed up as an empty one. *)

From S2P Require Import Prelude Sha256 Json JsonParse JsonDecode JsonIndent Identity Crypto State Protocol Codec Store Consortium Evidence FileStore Sql Sqlite SqliteTables SqliteRefine Backup.
Local Open Scope string_scope.
Local Open Scope Z_scope.

(** ** A restore check that passes *)

Section sound.
Context {DB Tx : Type} `{Engine DB Tx} `{Ed25519} `{Mldsa87}.
Implicit Types (host : Host DB) (disk : Disk).

(** The certificate of the receipt verifies for the manifest whose hash and version the
    receipt names. *)
Definition quorum_confirmed (history : History) (receipt : EvidenceReceipt) : Prop :=
  exists manifest identities verifier,
    ManifestByHash history (receipt_set receipt) = Some manifest /\
    mf_MembershipVersion manifest = receipt_version receipt /\
    ActiveIdentities manifest = Ok identities /\ verifierForManifest manifest = Ok verifier /\
    VerifyQuorumCertificate (c_Certificate (re_Commit receipt)) identities verifier = Ok tt.

Lemma ActiveIdentities_nonempty m ids : ActiveIdentities m = Ok ids -> ids <> ∅.
Proof.
  intros Hids. assert (Hval : Validate m = Ok tt).
  { unfold ActiveIdentities, identities in Hids. by apply bind_ok in Hids as ([] & ? & _). }
  destruct (ActiveIdentities_spec m Hval) as (ids' & E & Hle & _). assert (ids' = ids) as -> by congruence.
  pose proof Hval as (_ & _ & _ & Ht & _)%Validate_ok. intros ->. rewrite map_size_empty in Hle. lia.
Qed.

Lemma check_record_sound history backed record : rk_Valid (check_record history backed record) = true ->
  exists receipt, UnmarshalReceipt (er_ReceiptJSON record) = Ok receipt /\
    vf_Valid (verifyReceipt receipt history backed) = true /\
    (backed = true -> receipt_matches receipt /\ quorum_confirmed history receipt).
Proof.
  unfold check_record. destruct (UnmarshalReceipt _) as [receipt|]; [|done]. cbn [rk_Valid].
  intros Hv. exists receipt. split_and!; [done..|]. intros ->. unfold verifyReceipt in Hv. cbn [negb] in Hv.
  unfold quorum_confirmed. destruct (ManifestByHash _ _) as [manifest|]; [|done].
  destruct (Z.eqb_spec (mf_MembershipVersion manifest) (receipt_version receipt)); [|done]. cbn [negb] in Hv.
  destruct (ActiveIdentities manifest) as [ids|] eqn:Ei; [|done].
  destruct (verifierForManifest manifest) as [ver|] eqn:Ev; [|done].
  apply VerifyReceipt_valid in Hv as (Hm & Hq & _); [|by eapply ActiveIdentities_nonempty].
  split; [done|]. by exists manifest, ids, ver.
Qed.

Lemma filter_length_all {A} (p : A -> bool) l : (length l - length (List.filter p l) <= 0)%nat -> Forall (fun a => p a = true) l.
Proof.
  induction l as [|a l IH]; cbn; intros Hl; [constructor|].
  assert (Hle : (length (List.filter p l) <= length l)%nat) by apply List.filter_length_le.
  destruct (p a) eqn:E; cbn in Hl; [constructor; [done|apply IH; lia]|lia].
Qed.

Lemma conclude_ok recent mode checks r r' : conclude recent (set_checks mode checks r) = (r', None) ->
  Forall (fun c => rk_Valid c = true) checks /\ sq_Status r' = "pass" /\ sq_ReceiptChecks r' = checks /\
  sq_VerifiedReceipts r' = Z.of_nat (length checks) /\ sq_InvalidReceipts r' = 0.
Proof.
  unfold conclude. cbn [sq_InvalidReceipts set_checks].
  destruct (Z.ltb_spec 0 (Z.of_nat (length checks) - Z.of_nat (length (List.filter rk_Valid checks)))) as [|Hle]; [done|].
  assert (Hlen : (length (List.filter rk_Valid checks) <= length checks)%nat) by apply List.filter_length_le.
  intros E. split; [apply filter_length_all; lia|].
  destruct recent; injection E as <-; cbn; split_and!; (done || lia).
Qed.

(** What the check opens: for a plain file, a new file with its bytes, and for a URL the
    database itself. *)
Definition opened disk (dbPath openPath : string) (files : Disk) : Prop :=
  if simpleSQLitePath dbPath then
    disk !! openPath = None /\ exists bytes, disk !! dbPath = Some bytes /\ files = <[openPath := bytes]> disk
  else openPath = dbPath /\ files = disk.

Lemma restoreWorkingCopy_opened host disk dbPath openPath files :
  restoreWorkingCopy host disk dbPath = Ok (openPath, files) -> opened disk dbPath openPath files.
Proof.
  unfold restoreWorkingCopy, opened, simpleSQLitePath.
  destruct (HasPrefix dbPath "file:"), (Prelude.Contains dbPath "?"); cbn [orb andb negb]; [by intros [= <- <-]..|].
  destruct (disk !! dbPath) as [bytes|] eqn:Eb; [|done]. intros (copy & _ & Hc)%bind_ok.
  destruct (fileExists disk copy) eqn:Ef; [done|]. injection Hc as <- <-. split; [|by exists bytes].
  unfold fileExists in Ef. apply bool_decide_eq_false in Ef. by apply eq_None_not_Some.
Qed.

(** C16: a restore check that passes vouches for the receipts.  When the check of a
    database reports no error, it opened a file with the bytes of the database's file (or,
    for a URL, the database itself), and every one of the latest evidence records it read
    there, up to the limit, has a receipt that is valid; with manifests, each receipt is the one its submission and commit
    determine, and its certificate verifies for the validators of the manifest whose hash
    and version the receipt names. *)
Theorem restore_check_sound host now opts disk disk' r :
  CheckSQLiteRestore host now opts disk = (disk', (r, None)) ->
  exists openPath files store recent history backed,
    opened disk (firstNonEmpty [so_BackupDatabase opts; so_SourceDatabase opts]) openPath files /\
    OpenSQLiteStore (ho_make_dir host) (ho_Open host files) now openPath = Ok store /\
    SQLite_RecentEvidence store (normalizeLimit (so_ReceiptLimit opts)) = Ok recent /\
    loadManifestHistory (ho_read_file host) (ho_unquote host) (so_ManifestPath opts) (so_ManifestHistory opts)
    = Ok (history, backed) /\
    sq_Status r = "pass" /\ sq_VerifiedReceipts r = Z.of_nat (length recent) /\ sq_InvalidReceipts r = 0 /\
    Forall (fun record => exists receipt, UnmarshalReceipt (er_ReceiptJSON record) = Ok receipt /\
              vf_Valid (verifyReceipt receipt history backed) = true /\
              (backed = true -> receipt_matches receipt /\ quorum_confirmed history receipt)) recent.
Proof.
  unfold CheckSQLiteRestore. destruct (String.eqb _ _); [done|].
  destruct (precheck _ _ _ _ _) as [r1 [[]|]]; [|done]. destruct (restoreWorkingCopy _ _ _) as [[path files]|] eqn:Ecopy; [|done].
  apply restoreWorkingCopy_opened in Ecopy.
  destruct (OpenSQLiteStore _ _ _ _) as [store|] eqn:Eo; [|done]. unfold check_store.
  destruct (read_counts store) as [[[[commits evs] audit] ids]|]; [|done].
  destruct (loadManifestHistory _ _ _ _) as [[history backed]|]; [|done].
  destruct (SQLite_RecentEvidence _ _) as [recent|] eqn:Er; [|done].
  intros E. injection E as _ Ec. apply conclude_ok in Ec as (Hall & Hs & _ & Hv & Hi).
  exists path, files, store, recent, history, backed. rewrite length_map in Hv. split_and!; [done..|].
  apply List.Forall_map in Hall. eapply Forall_impl; [exact Hall|]. intros record. apply check_record_sound.
Qed.
End sound.

(** ** What the driver does with the files *)

(** The rest of a string literal of SQL after its opening quote: its value, a doubled
    quote standing for one, and what follows the closing quote. *)
Fixpoint read_literal (s : string) : option (string * string) :=
  match s with
  | EmptyString => None
  | String c rest =>
      if Ascii.eqb c "'" then
        match rest with
        | String d rest' =>
            if Ascii.eqb d "'" then '(v, r) ← read_literal rest'; Some (String c v, r) else Some ("", rest)
        | EmptyString => Some ("", "")
        end
      else '(v, r) ← read_literal rest; Some (String c v, r)
  end.

Lemma read_escaped path : read_literal (escapeSQLiteString path ++ "'") = Some (path, "").
Proof.
  induction path as [|c path IH]; [done|]. cbn [escapeSQLiteString]. destruct (Ascii.eqb c "'") eqn:E.
  - change (String c (String c (escapeSQLiteString path)) ++ "'") with (String c (String c (escapeSQLiteString path ++ "'"))).
    cbn [read_literal]. by rewrite E, IH.
  - change (String c (escapeSQLiteString path) ++ "'") with (String c (escapeSQLiteString path ++ "'")).
    cbn [read_literal]. by rewrite E, IH.
Qed.

(** The path of a database file, not a URL, that reads the same in a URL: a "#" in a
    "file:" URL begins its fragment and a "%" an escape. *)
Definition plain (path : string) : Prop :=
  simpleSQLitePath path = true /\ TrimSpace path = path /\ path <> "" /\
  Prelude.Contains path "#" = false /\ Prelude.Contains path "%" = false.

Definition own_files (path : string) : list string := [path; path ++ "-wal"; path ++ "-shm"].

Section laws.
Context {DB Tx : Type} `{ReliableEngine DB Tx} (host : Host DB).

(** Opening the path sees the tables [d]. *)
Definition holds (disk : Disk) (path : string) (d : database) : Prop :=
  exists db, ho_Open host disk path = Ok db /\ view db = d.

(** The bytes are a whole database: so is every file made of them that has no log beside it. *)
Definition whole (bytes : string) (d : database) : Prop :=
  forall disk path, plain path -> disk !! path = Some bytes -> disk !! (path ++ "-wal") = None -> holds disk path d.

(** No database is lost, and no file appears but the ones named. *)
Definition kept (appear : list string) (disk disk' : Disk) : Prop :=
  (forall path d, plain path -> path ∉ appear -> holds disk path d -> holds disk' path d) /\
  (forall path, path ∉ appear -> disk !! path = None -> disk' !! path = None).

Class HostLaws : Prop := {
  law_readonly disk path d : plain path -> holds disk path d -> holds disk ("file:" ++ path ++ "?mode=ro") d;
  law_check db : exists rows, Query db (QPragma "PRAGMA quick_check") [] = Ok ([VText "ok"] :: rows);
  law_checkpoint disk source db : ho_Open host disk source = Ok db ->
    exists disk', ho_Exec host None disk db "PRAGMA wal_checkpoint(FULL)" = (disk', Ok tt) /\
      holds disk' source (view db) /\ kept (own_files source) disk disk';
  law_vacuum disk source db body path : plain source -> holds disk source (view db) ->
    read_literal body = Some (path, "") -> plain path -> disk !! path = None -> path ∉ own_files source ->
    exists disk' bytes, ho_Exec host None disk db ("VACUUM INTO '" ++ body) = (disk', Ok tt) /\
      disk' !! path = Some bytes /\ whole bytes (view db) /\
      holds disk' source (view db) /\ kept (path :: own_files source) disk disk';
  law_working disk path : plain path -> exists copy, ho_working_path host disk path = Ok copy /\ plain copy /\ copy <> path /\
    disk !! copy = None /\ disk !! (copy ++ "-wal") = None;
  law_own disk disk' path : plain path -> (forall f, f ∈ own_files path -> disk' !! f = disk !! f) ->
    ho_Open host disk' path = ho_Open host disk path;
  law_dir path : ho_make_dir host path = Ok tt
}.
End laws.

(** ** What an opened copy holds *)

(** Tables the validator reads as [m]: a store's, or none at all. *)
Inductive content : database -> MemoryStore -> Prop :=
| content_tables tb m : tables_ok tb -> agrees tb m -> content (encode tb) m
| content_empty : content [] NewMemoryStore.

Section content.
Context {DB Tx : Type} `{ReliableEngine DB Tx}.
#[local] Set Default Proof Using "All".

Lemma content_version (db : DB) m : content (view db) m ->
  exists v, sqliteCurrentVersion db = Ok v /\ 0 <= v <= SQLiteSchemaVersion.
Proof.
  intros Hc. remember (view db) as d eqn:Hv. destruct Hc as [tb m Hok _|].
  - exists 1. split; [|done]. apply current_version_run. exists (migrations_table (tb_migrations tb)).
    rewrite <-Hv. split; [done|]. apply (to_version _ Hok).
  - exists 0. split; [|done]. unfold sqliteCurrentVersion.
    destruct (asks_db db (QTableExists "schema_migrations") [] eq_refl) as (out & -> & ->). by rewrite <-Hv.
Qed.

Lemma content_migrates (db : DB) m now : content (view db) m ->
  exists db' applied, migrateSQLite now false db = (db', Ok applied) /\ holds_memory db' m.
Proof.
  intros Hc. remember (view db) as d eqn:Hv. destruct Hc as [tb m Hok Hag|].
  - destruct (migrate_current db now tb) as (db' & Hm & Hv'); [done|done|]. exists db', []. split; [done|].
    exists tb. by rewrite Hv', <-Hv.
  - destruct (migrate_fresh db now) as (db' & Hm & Hv'); [done|]. exists db', [1]. split; [done|].
    by apply (fresh_holds db' now).
Qed.
End content.

(** What the check counts, of any store. *)
Definition store_counts {S} `{ValidatorStore S} (s : S) : result (Z * Z * Z * Z) :=
  commits ← ListCommits s;
  evidenceRecords ← ListEvidence s;
  audit ← ListAudit s 0;
  idempotencyCount ← IdempotencyCount s;
  Ok (Z.of_nat (length commits), Z.of_nat (length evidenceRecords), Z.of_nat (length audit), idempotencyCount).

Lemma store_counts_agree {S T} `{ValidatorStore S} `{ValidatorStore T} (s : S) (t : T) :
  reads_agree s t -> store_counts s = store_counts t.
Proof. intros Hr. unfold store_counts. by rewrite (ra_commits _ _ Hr), (ra_evidence _ _ Hr), (ra_audit _ _ Hr), (ra_count _ _ Hr). Qed.

Section restore.
Context {DB Tx : Type} `{ReliableEngine DB Tx} `{Ed25519} `{Mldsa87} (host : Host DB) `{!HostLaws host}.
Implicit Types (disk : Disk).
#[local] Set Default Proof Using "All".

Lemma plain_named path : plain path -> String.eqb (TrimSpace path) "" = false.
Proof. intros (_ & -> & Hne & _). by apply String.eqb_neq. Qed.

Lemma quick_check disk path d : holds host disk path d -> SQLiteIntegrityCheck (ho_Open host disk) path = ("ok", None).
Proof.
  intros (db & Hopen & _). unfold SQLiteIntegrityCheck. rewrite Hopen. by destruct (law_check host db) as (rows & ->).
Qed.

(** The path can be checked: it holds tables the validator reads, or is not there. *)
Definition checkable disk (path : string) (m : MemoryStore) : Prop :=
  exists d, holds host disk path d /\ content d m.

Lemma precheck_run disk now path r m : plain path -> checkable disk path m ->
  exists migration, precheck host disk now path r = (set_integrity "ok" (set_migration migration r), Ok tt).
Proof.
  intros Hp (d & Hd & Hc). unfold precheck, CheckSQLiteMigrations. pose proof Hp as (Hsimple & -> & Hne & _).
  apply String.eqb_neq in Hne as ->. rewrite Hsimple. cbn [andb negb].
  rewrite (quick_check _ _ _ Hd). destruct (fileExists disk path); cbn [negb]; [|by eexists].
  cbn [mbind result_bind]. destruct (law_readonly host disk path d Hp Hd) as (db & Hopen & Hv).
  rewrite Hopen. cbn [mbind result_bind]. subst d. destruct (content_version db m Hc) as (v & -> & Hle).
  cbn [mbind result_bind]. unfold dry_run_report. rewrite (proj2 (Z.ltb_ge _ _)) by lia.
  destruct (v <? SQLiteSchemaVersion); by eexists.
Qed.

Lemma working_copy disk path bytes : plain path -> disk !! path = Some bytes ->
  exists copy, restoreWorkingCopy host disk path = Ok (copy, <[copy := bytes]> disk) /\ plain copy /\ copy <> path /\
    disk !! (copy ++ "-wal") = None.
Proof.
  intros Hpath Hb. pose proof Hpath as (Hsimple & _). unfold restoreWorkingCopy. unfold simpleSQLitePath in Hsimple.
  apply andb_true_iff in Hsimple as [Hf%negb_true_iff Hq%negb_true_iff]. rewrite Hf, Hq, Hb. cbn [orb].
  destruct (law_working host disk path Hpath) as (copy & -> & Hp & Hne & Hnone & Hwal). cbn [mbind result_bind].
  unfold fileExists. rewrite Hnone, bool_decide_false by (by intros []). by exists copy.
Qed.

Lemma append_wal_ne p : p ++ "-wal" <> p.
Proof.
  intros E. apply (f_equal String.length) in E. rewrite length_append in E. cbn in E. lia.
Qed.

(** The check of a whole database: it reads a store like [m], and changes nothing. *)
Lemma restore_run now opts disk bytes d m :
  let path := firstNonEmpty [so_BackupDatabase opts; so_SourceDatabase opts] in
  plain path -> disk !! path = Some bytes -> disk !! (path ++ "-wal") = None -> whole host bytes d -> content d m ->
  exists store r, CheckSQLiteRestore host now opts disk
    = (disk, check_store host opts (normalizeLimit (so_ReceiptLimit opts)) store r) /\
    reads_agree store m /\ sq_Status r = "fail".
Proof.
  intros path Hp Hb Hwal Hwhole Hc. unfold CheckSQLiteRestore. cbv zeta. fold path. rewrite (plain_named path Hp).
  destruct (precheck_run disk now path (new_report now "" path) m Hp) as (migration & ->); [exists d; split; [by apply Hwhole|done]|].
  destruct (working_copy disk path bytes Hp Hb) as (copy & -> & Hcopy & Hne & Hcwal).
  destruct (Hwhole (<[copy := bytes]> disk) copy) as (db & Hopen & Hv); [done|by rewrite lookup_insert_eq| |].
  { rewrite lookup_insert_ne; [done|]. intros E. symmetry in E. by apply append_wal_ne in E. }
  subst d. destruct (content_migrates db m now Hc) as (store & applied & Hm & Hholds).
  assert (Hstore : OpenSQLiteStore (ho_make_dir host) (ho_Open host (<[copy := bytes]> disk)) now copy = Ok store).
  { unfold OpenSQLiteStore, ensureSQLiteDir. pose proof Hcopy as (Hs & -> & Hcne & _). apply String.eqb_neq in Hcne as ->.
    rewrite Hs, (law_dir host). cbn [mbind result_bind]. rewrite Hopen. cbn [mbind result_bind]. by rewrite Hm. }
  rewrite Hstore. apply String.eqb_neq in Hne as ->. eexists store, _. split; [reflexivity|].
  split; [by apply reads_run|done].
Qed.

Definition report_counts (r : SQLiteReport) : Z * Z * Z * Z :=
  (sq_CommitCount r, sq_EvidenceCount r, sq_AuditCount r, sq_IdempotencyCount r).

(** What a report says of a store, whatever the error it comes with. *)
Definition reports (opts : SQLiteOptions) (m : MemoryStore) (r : SQLiteReport) (err : option error) : Prop :=
  Ok (report_counts r) = store_counts m /\ (sq_Status r = "pass" <-> err = None) /\
  forall history backed, loadManifestHistory (ho_read_file host) (ho_unquote host) (so_ManifestPath opts)
                           (so_ManifestHistory opts) = Ok (history, backed) ->
    exists recent, RecentEvidence m (normalizeLimit (so_ReceiptLimit opts)) = Ok recent /\
      sq_ReceiptChecks r = map (check_record history backed) recent /\
      (err = None <-> Forall (fun c => rk_Valid c = true) (sq_ReceiptChecks r)).

Lemma filter_shorter {A} (p : A -> bool) l : Forall (fun a => p a = true) l -> length (List.filter p l) = length l.
Proof. induction 1 as [|a l Ha _ IH]; cbn; [done|]. rewrite Ha. cbn. by rewrite IH. Qed.

Lemma conclude_reports recent mode checks r r' err : sq_Status r = "fail" ->
  conclude recent (set_checks mode checks r) = (r', err) ->
  report_counts r' = report_counts r /\ (sq_Status r' = "pass" <-> err = None) /\ sq_ReceiptChecks r' = checks /\
  (err = None <-> Forall (fun c => rk_Valid c = true) checks).
Proof.
  intros Hs. unfold conclude. cbn [sq_InvalidReceipts set_checks].
  destruct (Z.ltb_spec 0 (Z.of_nat (length checks) - Z.of_nat (length (List.filter rk_Valid checks)))) as [Hlt|Hle].
  - intros [= <- <-]. split_and!; [done|done|done|]. split; [done|]. intros Hall%filter_shorter. lia.
  - assert (Hall : Forall (fun c => rk_Valid c = true) checks).
    { apply filter_length_all. pose proof (List.filter_length_le rk_Valid checks). lia. }
    by destruct recent; intros [= <- <-].
Qed.

Lemma check_store_reports opts store m r r' err : reads_agree store m -> sq_Status r = "fail" ->
  check_store host opts (normalizeLimit (so_ReceiptLimit opts)) store r = (r', err) -> reports opts m r' err.
Proof.
  intros Hra Hs. unfold check_store. change (read_counts store) with (store_counts store).
  rewrite (store_counts_agree store m Hra). unfold reports.
  destruct (store_counts m) as [[[[commits evs] audit] ids]|e] eqn:Ec; [|cbv [store_counts] in Ec; done].
  destruct (loadManifestHistory _ _ _ _) as [[history backed]|e].
  - change (SQLite_RecentEvidence store) with (RecentEvidence store). rewrite (ra_recent_evidence _ _ Hra).
    destruct (RecentEvidence m _) as [recent|e] eqn:Er; [|done]. intros Hc.
    apply conclude_reports in Hc as (Hcount & Hpass & Hchecks & Hvalid); [|done].
    split; [by rewrite Hcount|]. split; [done|]. intros ? ? [= <- <-]. exists recent. by rewrite Hchecks.
  - intros [= <- <-]. split_and!; [done|cbn; by rewrite Hs|done].
Qed.

(** *** A backup *)

(** The destination is free, or is to be replaced and can be removed. *)
Definition replaceable (opts : SQLiteOptions) (dest : string) disk : Prop :=
  if so_Force opts then forall path, ho_Remove host path = true
  else disk !! dest = None /\ disk !! (dest ++ "-wal") = None.

Lemma remove_old_removed dest disk : (forall path, ho_Remove host path = true) ->
  remove_old host dest disk = delete (dest ++ "-shm") (delete (dest ++ "-wal") (delete dest disk)).
Proof. intros Hr. unfold remove_old, remove_file. by rewrite !Hr. Qed.

(** The files of the two databases are different ones. *)
Definition apart (source dest : string) : Prop := forall f, f ∈ own_files dest -> f ∉ own_files source.

Lemma cleared disk source dest d opts : plain source -> apart source dest -> holds host disk source d ->
  replaceable opts dest disk ->
  let disk1 := if so_Force opts then remove_old host dest disk else disk in
  holds host disk1 source d /\ disk1 !! dest = None /\ disk1 !! (dest ++ "-wal") = None /\
  forall path d', plain path -> apart path dest -> holds host disk path d' -> holds host disk1 path d'.
Proof.
  intros Hs Hap Hd Hrep disk1. unfold replaceable in Hrep. unfold disk1. destruct (so_Force opts); [|by destruct Hrep].
  rewrite remove_old_removed by done.
  assert (Hkeep : forall path d', plain path -> apart path dest -> holds host disk path d' ->
    holds host (delete (dest ++ "-shm") (delete (dest ++ "-wal") (delete dest disk))) path d').
  { intros path d' Hp Happ (db & Hopen & Hv). exists db. split; [|done]. rewrite <-Hopen. apply (law_own host); [done|].
    intros f Hf. rewrite !lookup_delete_ne; [done|..]; intros <-; refine (Happ _ _ Hf); unfold own_files; set_solver. }
  split_and!; [by apply Hkeep| | |done].
  - rewrite !lookup_delete_None. auto.
  - rewrite !lookup_delete_None. auto.
Qed.

Lemma vacuum_run disk source dest d : plain source -> plain dest -> apart source dest -> holds host disk source d ->
  disk !! dest = None -> disk !! (dest ++ "-wal") = None ->
  exists disk' bytes, vacuumSQLiteInto host None source dest disk = (disk', Ok tt) /\ disk' !! dest = Some bytes /\
    disk' !! (dest ++ "-wal") = None /\ whole host bytes d /\ holds host disk' source d /\
    forall path d', plain path -> path ∉ dest :: own_files source -> holds host disk path d' -> holds host disk' path d'.
Proof.
  intros Hps Hp Hap (db & Hopen & <-) Hnone Hwal. unfold vacuumSQLiteInto. rewrite Hopen.
  assert (Hout : dest ∉ own_files source) by (apply Hap; unfold own_files; set_solver).
  assert (Hwout : dest ++ "-wal" ∉ own_files source) by (apply Hap; unfold own_files; set_solver).
  destruct (law_checkpoint host disk source db Hopen) as (disk1 & -> & Hs1 & Hk1 & Hn1).
  destruct (law_vacuum host disk1 source db (escapeSQLiteString dest ++ "'") dest) as (disk2 & bytes & -> & Hb & Hw & Hs2 & Hk2 & Hn2);
    [done|done|apply read_escaped|done|by apply Hn1|done|].
  exists disk2, bytes. split_and!; [done|done| |done|done|].
  - apply Hn2; [|by apply Hn1]. rewrite not_elem_of_cons. split; [apply append_wal_ne|done].
  - intros path d' Hpp Hout' Hd'. apply Hk2; [done|done|]. apply Hk1; [done| |done]. set_solver.
Qed.

Lemma normalizeLimit_idemp limit : normalizeLimit (normalizeLimit limit) = normalizeLimit limit.
Proof.
  unfold normalizeLimit. destruct (Z.leb_spec limit 0); [done|]. destruct (Z.ltb_spec 500 limit); [done|].
  rewrite (proj2 (Z.leb_gt _ _)), (proj2 (Z.ltb_ge _ _)) by lia. done.
Qed.

(** What a backup of a database that can be checked leaves and reports. *)
Lemma backup_run now opts disk source dest d m :
  TrimSpace (so_SourceDatabase opts) = source -> TrimSpace (so_BackupDatabase opts) = dest ->
  plain source -> plain dest -> apart source dest -> replaceable opts dest disk ->
  holds host disk source d -> content d m ->
  let '(disk', (r, err)) := BackupSQLite host None now opts disk in
  reports opts m r err /\ holds host disk' dest d /\ holds host disk' source d /\
  forall path d', plain path -> apart path dest -> path ∉ dest :: own_files source ->
    holds host disk path d' -> holds host disk' path d'.
Proof.
  intros Hsource Hdest Hps Hpd Hap Hrep Hd Hc. unfold BackupSQLite. rewrite Hsource, Hdest. cbv zeta.
  pose proof (plain_named source Hps) as Es. pose proof (plain_named dest Hpd) as Ed.
  destruct (precheck_run disk now source (new_report now source dest) m Hps) as (migration & ->); [by exists d|].
  destruct (cleared disk source dest d opts Hps Hap Hd Hrep) as (Hd1 & Hnone & Hwal & Hkeep).
  assert (Hexists : negb (so_Force opts) && fileExists disk dest = false).
  { unfold replaceable in Hrep. destruct (so_Force opts); [done|]. destruct Hrep as [Hn _]. cbn [negb andb].
    apply bool_decide_eq_false. rewrite Hn. by intros []. }
  pose proof Hps as (_ & Et & _). rewrite Et in Es. pose proof Hpd as (_ & Et' & _). rewrite Et' in Ed.
  rewrite Es, Ed, Hexists, (law_dir host).
  set (disk1 := if so_Force opts then remove_old host dest disk else disk) in *.
  destruct (vacuum_run disk1 source dest d Hps Hpd Hap Hd1 Hnone Hwal) as (disk2 & bytes & -> & Hb & Hwal2 & Hw & Hd2 & Hk2).
  set (opts' := mkOptions "" dest _ _ _ _).
  assert (Hfirst : firstNonEmpty [so_BackupDatabase opts'; so_SourceDatabase opts'] = dest).
  { cbn. by rewrite Et', Ed. }
  destruct (restore_run now opts' disk2 bytes d m) as (store & r & -> & Hra & Hst); [by rewrite Hfirst..|done|done|].
  destruct (check_store host opts' _ store r) as [r' err] eqn:Ecs.
  apply (check_store_reports opts' store m) in Ecs as (Hcount & Hpass & Hrec); [|done|done].
  unfold opts' in Hrec. cbn [so_ManifestPath so_ManifestHistory so_ReceiptLimit] in Hrec. rewrite normalizeLimit_idemp in Hrec.
  assert (Hrest : holds host disk2 dest d /\ holds host disk2 source d /\
    forall path d', plain path -> apart path dest -> path ∉ dest :: own_files source ->
      holds host disk path d' -> holds host disk2 path d').
  { split_and!; [by apply Hw|done|]. intros path d' Hp Hapart Hout Hd'. apply Hk2; [done|done|]. by apply Hkeep. }
  by destruct err as [e|]; split.
Qed.

(** C15: a backup holds what its source held.  Over a driver and an engine that keep their
    laws, backing up a database in which the validator reads the records of [m] to a free
    or replaceable destination leaves at the destination a database that reads as [m] does,
    leaves the source and every other database at a plain path as they were, and reports
    the counts of [m]; it passes exactly when every receipt it checked verifies.  The two
    paths are plain ones - not a URL, without "?", "#" or "%", with no spaces around them -
    and none of their files is of the other; quotes in them do no harm. *)
Theorem backup_roundtrip now opts disk source dest db m :
  TrimSpace (so_SourceDatabase opts) = source -> TrimSpace (so_BackupDatabase opts) = dest ->
  plain source -> plain dest -> apart source dest -> replaceable opts dest disk ->
  ho_Open host disk source = Ok db -> holds_memory db m ->
  let '(disk', (r, err)) := BackupSQLite host None now opts disk in
  reports opts m r err /\
  (exists db', ho_Open host disk' dest = Ok db' /\ reads_agree db' m) /\
  (exists db', ho_Open host disk' source = Ok db' /\ reads_agree db' m) /\
  forall path d, plain path -> apart path dest -> path ∉ dest :: own_files source ->
    holds host disk path d -> holds host disk' path d.
Proof.
  intros Hsource Hdest Hps Hpd Hap Hrep Hopen (tb & Hv & Hok & Hag).
  pose proof (backup_run now opts disk source dest (encode tb) m Hsource Hdest Hps Hpd Hap Hrep) as Hrun.
  destruct (BackupSQLite host None now opts disk) as [disk' [r err]].
  destruct Hrun as (Hr & (db1 & Ho1 & Hv1) & (db2 & Ho2 & Hv2) & Hk); [by exists db|by constructor|].
  split_and!; [done| | |done].
  - exists db1. split; [done|]. apply reads_run. by exists tb.
  - exists db2. split; [done|]. apply reads_run. by exists tb.
Qed.

(** What a backup that succeeds says. *)
Lemma backup_message now ctx opts disk disk' r : BackupSQLite host ctx now opts disk = (disk', (r, None)) ->
  sq_Message r = "SQLite backup created and restored receipt verification completed".
Proof.
  unfold BackupSQLite. cbv zeta. destruct (String.eqb _ _); [done|]. destruct (String.eqb _ _); [done|].
  destruct (_ && _); [done|]. destruct (precheck _ _ _ _ _) as [r1 [[]|]]; [|done].
  destruct (ho_make_dir _ _); [|done]. destruct (vacuumSQLiteInto _ _ _ _ _) as [d [[]|]]; [|done].
  destruct (CheckSQLiteRestore _ _ _ _) as [d' [checked [e|]]]; [done|]. by intros [= _ <-].
Qed.

(** C40: a backup of nothing passes.  Over a driver and an engine that keep their laws, with
    plain and separate paths, a destination that is free or replaceable and manifests that
    load: when the source is not there, SQLite creates it, empty, as it is opened; the
    backup of that reports no error and the status "pass", no commits, no evidence, no
    audit records and no receipts checked, and its message is that the backup was created
    and restored receipt verification completed. *)
Theorem missing_source_passes now opts disk source dest db history backed :
  TrimSpace (so_SourceDatabase opts) = source -> TrimSpace (so_BackupDatabase opts) = dest ->
  plain source -> plain dest -> apart source dest -> replaceable opts dest disk ->
  loadManifestHistory (ho_read_file host) (ho_unquote host) (so_ManifestPath opts) (so_ManifestHistory opts)
  = Ok (history, backed) ->
  disk !! source = None -> ho_Open host disk source = Ok db -> view db = [] ->
  exists disk' r, BackupSQLite host None now opts disk = (disk', (r, None)) /\
    sq_Status r = "pass" /\ report_counts r = (0, 0, 0, 0) /\ sq_ReceiptChecks r = [] /\
    sq_Message r = "SQLite backup created and restored receipt verification completed".
Proof.
  intros Hsource Hdest Hps Hpd Hap Hrep Hload _ Hopen Hv.
  pose proof (backup_run now opts disk source dest [] NewMemoryStore Hsource Hdest Hps Hpd Hap Hrep) as Hrun.
  pose proof (backup_message now None opts disk) as Hmsg.
  destruct (BackupSQLite host None now opts disk) as [disk' [r err]].
  destruct Hrun as ((Hc & Hpass & Hrec) & _); [by exists db|constructor|].
  destruct (Hrec history backed Hload) as (recent & Hrecent & Hchecks & Herr).
  assert (Hnone : recent = []).
  { injection Hrecent as <-. cbn [ms_evidence NewMemoryStore]. rewrite map_to_list_empty. unfold limited.
    case_match; [apply take_nil|done]. }
  rewrite Hnone in Hchecks. assert (err = None) as -> by (apply Herr; rewrite Hchecks; constructor).
  exists disk', r. split_and!; [done|by apply Hpass| |done|by eapply Hmsg].
  assert (Hzero : store_counts NewMemoryStore = Ok (0, 0, 0, 0)) by (vm_compute; reflexivity). congruence.
Qed.
End restore.

(** ** A host that keeps the laws

    One database of a validator is written as the byte ["V"], an empty one as no bytes;
    the engine is the meaning of the statements. *)

#[export] Instance table_eq_dec : EqDecision table.
Proof. assert (EqDecision unique) by solve_decision. solve_decision. Defined.

Definition letters (n : nat) : string := string_of_list_ascii (repeat "a"%char n).

(** Longer than the name of any file. *)
Definition unused_name (disk : Disk) (path : string) : string :=
  letters (S (String.length path) + list_max (map String.length (map_to_list disk).*1)).

Definition url_path (dsn : string) : string :=
  if HasPrefix dsn "file:" then string_of_list_ascii (take (String.length dsn - 13) (drop 5 (list_ascii_of_string dsn)))
  else dsn.

Section demo_host.
Context (known : database) (read_file : string -> result string).

Definition demo_open (disk : Disk) (dsn : string) : result database :=
  Ok (if bool_decide (disk !! url_path dsn = Some "V") then known else []).

Definition demo_exec (_ : option error) (disk : Disk) (db : database) (statement : string) : Disk * result unit :=
  match strip (list_ascii_of_string "VACUUM INTO '") (list_ascii_of_string statement) with
  | Some body =>
      match read_literal (string_of_list_ascii body) with
      | Some (path, _) => (<[path := if bool_decide (db = known) then "V" else ""]> disk, Ok tt)
      | None => (disk, fail "syntax error")
      end
  | None => (disk, Ok tt)
  end.

Definition demo_host : Host database :=
  mkHost database demo_open demo_exec (fun disk _ _ => disk) (fun _ => Ok tt) (fun _ => true)
    (fun disk path => Ok (unused_name disk path)) read_file (fun _ => None).
End demo_host.

Lemma trim_letters n : TrimSpace (letters n) = letters n.
Proof.
  apply TrimSpace_solid. unfold letters. rewrite list_ascii_of_string_of_list_ascii.
  apply Forall_forall. intros c ->%list_elem_of_In%repeat_spec. vm_compute. reflexivity.
Qed.

Lemma plain_letters n : plain (letters (S n)).
Proof.
  assert (Hno : forall c, Ascii.eqb c "a" = false -> Prelude.Contains (letters (S n)) (String c "") = false).
  { intros c Hc. generalize (S n) as k. intros k. unfold Prelude.Contains. induction k as [|k IH]; cbn; [by rewrite ?Hc|].
    by rewrite Hc. }
  split_and!; [|apply trim_letters|done|by apply Hno..]. unfold simpleSQLitePath. by rewrite Hno.
Qed.

Lemma unused_free disk path f : (String.length (unused_name disk path) <= String.length f)%nat -> disk !! f = None.
Proof.
  unfold unused_name, letters. rewrite length_string_of_list_ascii, repeat_length. intros Hlen.
  apply eq_None_not_Some. intros [bytes Hb%elem_of_map_to_list].
  assert (Hle : (String.length f <= list_max (map String.length (map_to_list disk).*1))%nat); [|lia].
  pose proof (proj1 (list_max_le (map String.length (map_to_list disk).*1) _) (le_n _)) as Hall.
  rewrite List.Forall_forall in Hall. apply Hall, in_map, list_elem_of_In, list_elem_of_fmap. by exists (f, bytes).
Qed.

Lemma url_plain path : plain path -> url_path path = path.
Proof.
  intros (Hs & _). unfold simpleSQLitePath in Hs. unfold url_path. by destruct (HasPrefix path "file:").
Qed.

Lemma url_readonly path : url_path ("file:" ++ path ++ "?mode=ro") = path.
Proof.
  unfold url_path. rewrite HasPrefix_app, !length_append. cbn [String.length].
  rewrite list_ascii_app. change (drop 5 _) with (list_ascii_of_string (path ++ "?mode=ro")).
  rewrite list_ascii_app, take_app_length'; [apply string_of_list_ascii_of_string|].
  rewrite length_list_ascii. lia.
Qed.

Lemma demo_holds known read_file disk path d : plain path ->
  holds (demo_host known read_file) disk path d <-> d = if bool_decide (disk !! path = Some "V") then known else [].
Proof.
  intros Hp. unfold holds. cbn [ho_Open demo_host]. unfold demo_open. rewrite (url_plain path Hp).
  split; [by intros (db & [= <-] & <-)|]. intros ->. by eexists.
Qed.

Lemma demo_host_laws known read_file : HostLaws (demo_host known read_file).
Proof.
  split.
  - intros disk path d Hp Hd%demo_holds; [|done]. unfold holds. cbn [ho_Open demo_host]. unfold demo_open.
    rewrite url_readonly. by eexists.
  - intros db. by exists [].
  - intros disk source db Hopen. exists disk. split_and!; [done|by exists db|done].
  - intros disk source db body path Hs Hd Hbody Hp Hnone Hout. cbn [ho_Exec demo_host]. unfold demo_exec.
    rewrite list_ascii_app. replace (strip _ _) with (Some (list_ascii_of_string body)) by done.
    rewrite string_of_list_ascii_of_string, Hbody. apply demo_holds in Hd; [|done].
    eexists _, _. split; [reflexivity|]. rewrite lookup_insert_eq. split; [done|].
    assert (Hne : path <> source) by (intros ->; apply Hout; unfold own_files; set_solver).
    split_and!; [|by apply demo_holds; [|rewrite lookup_insert_ne]|].
    + intros disk' path' Hp' Hb _. apply demo_holds; [done|]. rewrite Hb.
      change (view db) with db in *. case_bool_decide as E; [done|]. by destruct (bool_decide (disk !! source = _)).
    + split; [intros path' d Hp' Hout' Hd'%demo_holds; [apply demo_holds|]|intros path' Hout' Hn];
        rewrite ?lookup_insert_ne by set_solver; done.
  - intros disk path. eexists. split; [reflexivity|]. split_and!.
    + apply plain_letters.
    + intros E. apply (f_equal String.length) in E. unfold unused_name, letters in E.
      rewrite length_string_of_list_ascii, repeat_length in E. lia.
    + by apply (unused_free disk path).
    + apply (unused_free disk path). rewrite length_append. lia.
  - intros disk disk' path Hp Hsame. cbn [ho_Open demo_host]. unfold demo_open.
    rewrite (url_plain path Hp), Hsame; [done|]. unfold own_files. set_solver.
  - done.
Qed.

(** *** A store with one receipt of three validators *)

#[local] Existing Instances demo_ed25519 demo_x25519 demo_mldsa87.

Definition backup_ids : list string := ["v1"; "v2"; "v3"].

Definition backup_manifest : Manifest :=
  ManifestFromIdentities "demo" 1 2
    (list_to_map (omap (fun id => match ValidatorIdentityForSuite id "nyc" "https://v/" devSuite with
                                  | Ok v => Some (id, v) | Err _ => None end) backup_ids)) backup_ids.

Definition backup_set : string := hash_or_empty (Manifest_Hash backup_manifest).

Definition backup_vote (bh id : string) : option Vote :=
  match cs_NewSigner devSuite id with
  | Ok signer => match SignStageVote 1 0 StagePrecommit bh id signer with Ok v => Some v | Err _ => None end
  | Err _ => None
  end.

Definition backup_commit : CommitRequest :=
  let block := mkBlock 1 0 GenesisHash (payload_of demo_submission) [] "" "v1" 1 backup_set 0 in
  let bh := hash_of block in
  mkCommit block (mkQC 1 0 StagePrecommit bh DecisionCommit 3 1 backup_set 0 3 (omap (backup_vote bh) backup_ids)).

Definition backup_receipt : EvidenceReceipt :=
  match NewReceipt (mkTime 7 "") demo_submission backup_commit with Ok r => r | Err _ => demo_receipt [] end.

Definition backup_updates : list update :=
  [USaveEvidence (mkEvidenceRecord (re_EvidenceID backup_receipt) (re_ReceiptID backup_receipt) "hash" "qc" 1 "org"
     "key-1" match MarshalReceipt backup_receipt with Ok data => data | Err _ => "" end 7)].

Definition backup_database : database := (apply_updates (encode (fresh_tables (mkTime 1 ""))) backup_updates).1.

Definition backup_files (path : string) : result string :=
  if String.eqb path "manifest.json" then Ok (Marshal (Manifest_json backup_manifest)) else fail "no file".

Definition backup_host : Host database := demo_host backup_database backup_files.

Definition backup_options : SQLiteOptions :=
  mkOptions " validator.db" "o'brien/copy.db" "manifest.json" "" 0 true.

Lemma backup_updates_fit : updates_fit NewMemoryStore backup_updates.
Proof.
  unfold backup_updates. generalize backup_receipt. intros receipt. split; [|done].
  split; [split; vm_compute; congruence|]. intros _ name old. cbn [ms_evidence NewMemoryStore].
  by rewrite lookup_empty.
Qed.

Lemma backup_database_holds : holds_memory backup_database (apply_updates NewMemoryStore backup_updates).1.
Proof.
  destruct (updates_simulated backup_updates (encode (fresh_tables (mkTime 1 ""))) NewMemoryStore) as (db & E & Hdb).
  - by apply (fresh_holds _ (mkTime 1 "")).
  - apply backup_updates_fit.
  - unfold backup_database. rewrite E. exact Hdb.
Qed.

Definition backup_disk : Disk := {[ "validator.db" := "V" ]}.

Lemma restore_check_sound_witness :
  exists r, CheckSQLiteRestore backup_host (mkTime 9 "") (mkOptions "" "validator.db" "manifest.json" "" 0 false) backup_disk
            = (backup_disk, (r, None)) /\ sq_VerifiedReceipts r = 1 /\
    exists path files store recent history backed,
      opened backup_disk "validator.db" path files /\
      OpenSQLiteStore (ho_make_dir backup_host) (ho_Open backup_host files) (mkTime 9 "") path = Ok store /\
      SQLite_RecentEvidence store 20 = Ok recent /\ length recent = 1%nat /\
      Forall (fun record => exists receipt, UnmarshalReceipt (er_ReceiptJSON record) = Ok receipt /\
                vf_Valid (verifyReceipt receipt history backed) = true /\
                (backed = true -> receipt_matches receipt /\ quorum_confirmed history receipt)) recent.
Proof.
  set (opts := mkOptions _ _ _ _ _ _).
  assert (Hrun : match CheckSQLiteRestore backup_host (mkTime 9 "") opts backup_disk with
                 | (disk, (r, None)) => bool_decide (disk = backup_disk) && (sq_VerifiedReceipts r =? 1)
                 | _ => false
                 end = true) by (vm_compute; reflexivity).
  destruct (CheckSQLiteRestore _ _ _ _) as [disk [r [e|]]] eqn:E; [discriminate Hrun|].
  apply andb_true_iff in Hrun as [->%bool_decide_eq_true Hv%Z.eqb_eq]. exists r. split; [exact eq_refl|]. split; [exact Hv|].
  destruct (restore_check_sound backup_host (mkTime 9 "") opts backup_disk _ r E)
    as (path & files & store & recent & history & backed & Hopened & Ho & Hr & _ & _ & Hn & _ & Hall).
  assert (Hl : length recent = 1%nat) by (clear -Hn Hv; lia).
  exists path, files, store, recent, history, backed. split; [exact Hopened|]. split; [exact Ho|]. split; [exact Hr|]. split; [exact Hl|exact Hall].
Defined.

Lemma apart_check source dest :
  forallb (fun f => negb (existsb (String.eqb f) (own_files source))) (own_files dest) = true -> apart source dest.
Proof.
  rewrite List.forallb_forall. intros Hall f Hf%list_elem_of_In Hs%list_elem_of_In. apply Hall, negb_true_iff in Hf.
  assert (existsb (String.eqb f) (own_files source) = true); [|congruence].
  apply existsb_exists. exists f. split; [done|apply String.eqb_refl].
Qed.

(** The destination's name has a quote in it. *)
Lemma backup_roundtrip_witness :
  let '(disk, (r, err)) := BackupSQLite backup_host None (mkTime 9 "") backup_options backup_disk in
  err = None /\ sq_VerifiedReceipts r = 1 /\
  exists db, ho_Open backup_host disk "o'brien/copy.db" = Ok db /\
    reads_agree db (apply_updates NewMemoryStore backup_updates).1.
Proof.
  pose proof (demo_host_laws backup_database backup_files) as Hlaws.
  assert (Hplain : plain "validator.db" /\ plain "o'brien/copy.db") by (repeat split; vm_compute; congruence).
  pose proof (backup_roundtrip backup_host (mkTime 9 "") backup_options backup_disk "validator.db" "o'brien/copy.db"
    backup_database (apply_updates NewMemoryStore backup_updates).1) as Hrun.
  assert (Hpass : match BackupSQLite backup_host None (mkTime 9 "") backup_options backup_disk with
                  | (_, (r, None)) => sq_VerifiedReceipts r =? 1
                  | _ => false
                  end = true) by (vm_compute; reflexivity).
  destruct (BackupSQLite _ _ _ _ _) as [disk [r [e|]]]; [discriminate Hpass|].
  split; [reflexivity|]. split; [exact (proj1 (Z.eqb_eq _ _) Hpass)|]. apply Hrun.
  - by vm_compute.
  - by vm_compute.
  - apply Hplain.
  - apply Hplain.
  - by apply apart_check.
  - done.
  - reflexivity.
  - apply backup_database_holds.
Defined.

Lemma missing_source_passes_witness :
  exists disk r, BackupSQLite backup_host None (mkTime 9 "") (mkOptions "no-such.db" "copy.db" "manifest.json" "" 0 false) backup_disk
                 = (disk, (r, None)) /\ sq_Status r = "pass" /\ sq_ReceiptChecks r = [] /\
    sq_Message r = "SQLite backup created and restored receipt verification completed" /\
    backup_disk !! "no-such.db" = None.
Proof.
  pose proof (demo_host_laws backup_database backup_files) as Hlaws.
  assert (Hplain : plain "no-such.db" /\ plain "copy.db") by (repeat split; vm_compute; congruence).
  set (opts := mkOptions "no-such.db" "copy.db" "manifest.json" "" 0 false).
  destruct (loadManifestHistory (ho_read_file backup_host) (ho_unquote backup_host) (so_ManifestPath opts) (so_ManifestHistory opts))
    as [[history backed]|e] eqn:E; [|exfalso; assert (Hok : is_ok (loadManifestHistory (ho_read_file backup_host)
      (ho_unquote backup_host) (so_ManifestPath opts) (so_ManifestHistory opts)) = true) by (vm_compute; reflexivity);
      rewrite E in Hok; discriminate Hok].
  destruct (missing_source_passes backup_host (mkTime 9 "") opts backup_disk
    "no-such.db" "copy.db" [] history backed) as (disk & r & Erun & Hs & _ & Hc & Hm); try reflexivity; try apply Hplain.
  - by apply apart_check.
  - by split.
  - exact E.
  - exists disk, r. split; [exact Erun|]. split; [exact Hs|]. split; [exact Hc|]. split; [exact Hm|reflexivity].
Defined.
