(* ===== verification/Gcm.v ===== *)
(** * AES-256-GCM and HMAC-SHA256

    The pieces of the Go standard library that [routing/circuit] calls:
    [crypto/aes] with a 32-byte key (FIPS 197), the GCM mode of [crypto/cipher]
    (SP 800-38D) with its 12-byte nonce and 16-byte tag, and [crypto/hmac] over
    SHA-256.  Bytes are numbers below 256, a block is a list of sixteen.
    Everything is executable; known answers are checked at the end.  What the
    onion layers rely on is proved here of these definitions: opening what was
    sealed gives it back, and a wrong nonce length is a panic. *)

From S2P Require Import Prelude Sha256 JsonParse.
Local Open Scope Z_scope.

(** ** AES-256 *)

Definition xor8 (a b : Z) : Z := Z.land (Z.lxor a b) 255.

Definition xor_bytes (a b : list Z) : list Z := zip_with xor8 a b.

(** Multiplication by [x] in GF(2^8), and multiplication. *)
Definition xtime (a : Z) : Z := if a <? 128 then 2 * a else Z.lxor (2 * a) 0x11b.

Fixpoint gf_mul (n : nat) (a b : Z) : Z :=
  match n with
  | O => 0
  | S n => Z.lxor (if Z.odd b then a else 0) (gf_mul n (xtime a) (Z.div2 b))
  end.

Definition gf_square (a : Z) : Z := gf_mul 8 a a.

(** [a] to the power 254: its inverse, and zero for zero. *)
Definition gf_inv (a : Z) : Z :=
  foldl (fun acc _ => gf_square (gf_mul 8 acc a)) 1 (seq 0 7).

Definition rotl8 (a n : Z) : Z := Z.lor (Z.land (Z.shiftl a n) 255) (Z.shiftr a (8 - n)).

Definition sbox_at (a : Z) : Z :=
  let i := gf_inv a in
  foldl Z.lxor i [rotl8 i 1; rotl8 i 2; rotl8 i 3; rotl8 i 4; 0x63].

Definition sbox : list Z := Eval vm_compute in map (fun n => sbox_at (Z.of_nat n)) (seq 0 256).

Definition sub (b : Z) : Z := nth (Z.to_nat b) sbox 0.

(** The key schedule: the words so far, the latest first. *)
Definition schedule_word (i : nat) (temp : list Z) : list Z :=
  if Nat.eqb (i mod 8) 0 then
    let rcon := Nat.iter (i / 8 - 1) xtime 1 in
    match map sub temp with
    | [a; b; c; d] => [xor8 b rcon; c; d; a]
    | w => w
    end
  else if Nat.eqb (i mod 8) 4 then map sub temp
  else temp.

Fixpoint expand (n i : nat) (ws : list (list Z)) : list (list Z) :=
  match n with
  | O => ws
  | S n => expand n (S i) (xor_bytes (nth 7 ws []) (schedule_word i (nth 0 ws [])) :: ws)
  end.

Fixpoint chunks (fuel n : nat) (l : list Z) : list (list Z) :=
  match fuel, l with
  | O, _ | _, [] => []
  | S fuel, _ => take n l :: chunks fuel n (drop n l)
  end.

(** The fifteen round keys of a 32-byte key. *)
Definition round_keys (key : list Z) : list (list Z) :=
  let words := rev (expand 52 8 (rev (chunks 8 4 key))) in
  chunks 15 16 (concat words).

Definition ShiftRows (s : list Z) : list Z :=
  map (fun i => nth (i mod 4 + 4 * ((i / 4 + i mod 4) mod 4)) s 0) (seq 0 16).

Definition MixColumn (col : list Z) : list Z :=
  match col with
  | [a; b; c; d] =>
      let m2 := xtime in
      let m3 x := Z.lxor (xtime x) x in
      [foldl Z.lxor (m2 a) [m3 b; c; d]; foldl Z.lxor a [m2 b; m3 c; d];
       foldl Z.lxor a [b; m2 c; m3 d]; foldl Z.lxor (m3 a) [b; c; m2 d]]
  | _ => col
  end.

Definition MixColumns (s : list Z) : list Z := concat (map MixColumn (chunks 4 4 s)).

Definition aes_round (s k : list Z) : list Z := xor_bytes (MixColumns (ShiftRows (map sub s))) k.

Definition encrypt_block (keys : list (list Z)) (b : list Z) : list Z :=
  match keys with
  | k0 :: rest =>
      let s := foldl aes_round (xor_bytes b k0) (take 13 rest) in
      xor_bytes (ShiftRows (map sub s)) (nth 13 rest [])
  | [] => b
  end.

(** ** GCM *)

(** A block as a 128-bit number, the most significant byte first. *)
Definition of_block (b : list Z) : Z := foldl (fun a x => 256 * a + x) 0 b.

Definition to_block (z : Z) : list Z :=
  map (fun i => Z.land (Z.shiftr z (8 * (15 - Z.of_nat i))) 255) (seq 0 16).

(** Multiplication in GF(2^128), bit 127 being the first coefficient. *)
Fixpoint ghash_mul (n : nat) (x v acc : Z) : Z :=
  match n with
  | O => acc
  | S n =>
      ghash_mul n x
        (if Z.odd v then Z.lxor (Z.div2 v) (Z.shiftl 0xe1 120) else Z.div2 v)
        (if Z.testbit x (Z.of_nat n) then Z.lxor acc v else acc)
  end.

Definition pad16 (l : list Z) : list Z := (l ++ repeat 0%Z ((16 - length l mod 16) mod 16))%list.

Definition ghash (h : Z) (data : list Z) : Z :=
  foldl (fun acc b => ghash_mul 128 (Z.lxor acc (of_block b)) h 0) 0
    (chunks (length data) 16 data).

Definition be64 (z : Z) : list Z := drop 8 (to_block z).

(** The counter block [j0] advanced by [i]: its last 32 bits count. *)
Definition counter_block (nonce : list Z) (i : nat) : list Z :=
  (nonce ++ drop 12 (to_block ((1 + Z.of_nat i) mod 2 ^ 32)))%list.

(** The stream is generated by whole blocks: as many as cover the data. *)
Definition keystream (keys : list (list Z)) (nonce : list Z) (n : nat) : list Z :=
  concat (map (fun i => encrypt_block keys (counter_block nonce (S i))) (seq 0 (S (n / 16)))).

Definition ctr (keys : list (list Z)) (nonce data : list Z) : list Z :=
  xor_bytes data (keystream keys nonce (length data)).

Definition gcm_tag (keys : list (list Z)) (nonce cipher aad : list Z) : list Z :=
  let h := of_block (encrypt_block keys (repeat 0%Z 16)) in
  let lens := (be64 (8 * Z.of_nat (length aad)) ++ be64 (8 * Z.of_nat (length cipher)))%list in
  to_block (Z.lxor (ghash h (pad16 aad ++ pad16 cipher ++ lens)%list)
                   (of_block (encrypt_block keys (counter_block nonce 0)))).

Definition NonceSize : nat := 12.
Definition Overhead : nat := 16.

Definition nonce_panic {A} : result A :=
  panic "crypto/cipher: incorrect nonce length given to GCM".

(** [aead.Seal(nil, nonce, plaintext, aad)] under [aes.NewCipher(key)]. *)
Definition Seal (key nonce plaintext aad : string) : result string :=
  if negb (Nat.eqb (String.length nonce) NonceSize) then nonce_panic
  else
    let keys := round_keys (bytes_of_string key) in
    let nonce := bytes_of_string nonce in
    let cipher := ctr keys nonce (bytes_of_string plaintext) in
    Ok (string_of_bytes (cipher ++ gcm_tag keys nonce cipher (bytes_of_string aad))).

(** [aead.Open(nil, nonce, sealed, aad)]. *)
Definition Open (key nonce sealed aad : string) : result string :=
  if negb (Nat.eqb (String.length nonce) NonceSize) then nonce_panic
  else if Nat.ltb (String.length sealed) Overhead then fail "cipher: message authentication failed"
  else
    let keys := round_keys (bytes_of_string key) in
    let nonce := bytes_of_string nonce in
    let n := (String.length sealed - Overhead)%nat in
    let cipher := take n (bytes_of_string sealed) in
    let tag := drop n (bytes_of_string sealed) in
    if bool_decide (gcm_tag keys nonce cipher (bytes_of_string aad) = tag) then
      Ok (string_of_bytes (ctr keys nonce cipher))
    else fail "cipher: message authentication failed".

(** ** HMAC-SHA256 *)

Definition hmac_block (key : list Z) : list Z :=
  let key := if Nat.ltb 64 (length key) then Sha256.Sum256_bytes key else key in
  (key ++ repeat 0%Z (64 - length key))%list.

Definition HMAC_bytes (key message : list Z) : list Z :=
  let k := hmac_block key in
  Sha256.Sum256_bytes (map (Z.lxor 0x5c) k ++ Sha256.Sum256_bytes (map (Z.lxor 0x36) k ++ message))%list.

Definition HMAC (key message : string) : string :=
  string_of_bytes (HMAC_bytes (bytes_of_string key) (bytes_of_string message)).

(** ** Opening what was sealed *)

Section lengths.
Local Open Scope nat_scope.

Lemma length_xor_bytes a b : length (xor_bytes a b) = length a `min` length b.
Proof. apply length_zip_with. Qed.

Lemma length_schedule_word i temp : length temp = 4 -> length (schedule_word i temp) = 4.
Proof.
  intros Ht. unfold schedule_word. destruct (Nat.eqb _ _); [|destruct (Nat.eqb _ _); by rewrite ?length_map].
  destruct temp as [|a [|b [|c [|d [|]]]]]; done.
Qed.

Lemma expand_lengths n i ws :
  Forall (fun w => length w = 4) ws -> 8 <= length ws ->
  Forall (fun w => length w = 4) (expand n i ws) /\ length (expand n i ws) = n + length ws.
Proof.
  revert i ws. induction n as [|n IH]; intros i ws Hw Hl; [done|]. cbn [expand].
  assert (Hnth : forall k, k < 8 -> length (nth k ws []) = 4).
  { intros k Hk. rewrite Forall_forall in Hw. apply Hw, list_elem_of_In, nth_In. lia. }
  destruct (IH (S i) (xor_bytes (nth 7 ws []) (schedule_word i (nth 0 ws [])) :: ws)) as [? E].
  - constructor; [|done].
    rewrite length_xor_bytes, length_schedule_word by (apply Hnth; lia). rewrite Hnth by lia. done.
  - cbn. lia.
  - split; [done|]. rewrite E. cbn. lia.
Qed.

Lemma chunks_lengths k n l :
  n <> 0 -> length l = k * n ->
  length (chunks k n l) = k /\ Forall (fun c => length c = n) (chunks k n l).
Proof.
  intros Hn. revert l. induction k as [|k IH]; intros l Hl; [done|].
  destruct l as [|x l']; [cbn in Hl; lia|]. change (chunks (S k) n (x :: l')) with
    (take n (x :: l') :: chunks k n (drop n (x :: l'))).
  destruct (IH (drop n (x :: l'))) as [E F]; [rewrite length_drop; lia|].
  split; [cbn; lia|]. constructor; [|done]. rewrite length_take. lia.
Qed.

Lemma length_concat {A} k (l : list (list A)) :
  Forall (fun w => length w = k) l -> length (concat l) = length l * k.
Proof. induction 1 as [|w l Hw _ IH]; [done|]. cbn [concat length]. rewrite length_app, IH, Hw. lia. Qed.

Lemma round_keys_lengths key :
  length key = 32 -> length (round_keys key) = 15 /\ Forall (fun k => length k = 16) (round_keys key).
Proof.
  intros Hk. unfold round_keys.
  destruct (chunks_lengths 8 4 key) as [E8 F8]; [done|lia|].
  destruct (expand_lengths 52 8 (rev (chunks 8 4 key))) as [F E].
  - by apply Forall_rev.
  - rewrite length_rev. lia.
  - apply chunks_lengths; [done|]. rewrite (length_concat 4) by (by apply Forall_rev).
    rewrite length_rev, E, length_rev, E8. done.
Qed.

Lemma length_encrypt_block key b : length key = 32 -> length (encrypt_block (round_keys key) b) = 16.
Proof.
  intros [E F]%round_keys_lengths. unfold encrypt_block.
  destruct (round_keys key) as [|k0 rest]; [done|].
  rewrite length_xor_bytes. unfold ShiftRows. rewrite length_map, length_seq.
  apply Forall_cons in F as [_ F]. rewrite Forall_forall in F.
  rewrite (F (nth 13 rest [])); [done|]. apply list_elem_of_In, nth_In. cbn in E. lia.
Qed.

Lemma length_keystream key nonce n : length key = 32 -> n <= length (keystream (round_keys key) nonce n).
Proof.
  intros Hk. unfold keystream. rewrite (length_concat 16).
  - rewrite length_map, length_seq. pose proof (Nat.div_mod n 16). pose proof (Nat.mod_upper_bound n 16). lia.
  - apply Forall_forall. intros w (i & <- & _)%list_elem_of_In%in_map_iff. by apply length_encrypt_block.
Qed.

Lemma length_ctr key nonce data : length key = 32 -> length (ctr (round_keys key) nonce data) = length data.
Proof.
  intros Hk. unfold ctr. rewrite length_xor_bytes.
  pose proof (length_keystream key nonce (length data) Hk). lia.
Qed.

Lemma length_to_block z : length (to_block z) = 16.
Proof. reflexivity. Qed.
End lengths.

Lemma land_255_byte z : byte (Z.land z 255).
Proof. unfold byte. change 255 with (Z.ones 8). rewrite Z.land_ones by lia. apply Z.mod_pos_bound. lia. Qed.

Lemma xor8_involutive a k : byte a -> xor8 (xor8 a k) k = a.
Proof.
  intros Ha. unfold xor8. apply Z.bits_inj'. intros n Hn.
  rewrite !Z.land_spec, !Z.lxor_spec, Z.land_spec, Z.lxor_spec.
  change 255 with (Z.ones 8). destruct (decide (n < 8)) as [Hl|Hh].
  - rewrite Z.ones_spec_low by lia. by destruct (Z.testbit a n), (Z.testbit k n).
  - rewrite Z.ones_spec_high by lia. rewrite andb_false_r. symmetry.
    destruct (decide (a = 0)) as [->|Hz]; [apply Z.bits_0|].
    apply Z.bits_above_log2; [unfold byte in Ha; lia|].
    unfold byte in Ha. assert (Z.log2 a < 8) by (apply Z.log2_lt_pow2; lia). lia.
Qed.

Lemma xor_bytes_involutive d k :
  Forall byte d -> (length d <= length k)%nat -> xor_bytes (xor_bytes d k) k = d.
Proof.
  intros Hd. revert k. induction Hd as [|x d Hx _ IH]; intros [|y k] Hl; cbn in *; try done; [lia|].
  unfold xor_bytes in IH. rewrite xor8_involutive, IH by (done || lia). done.
Qed.

Lemma xor_bytes_byte d k : Forall byte (xor_bytes d k).
Proof.
  apply Forall_forall. intros z (i & Hz)%list_elem_of_lookup.
  apply lookup_zip_with_Some in Hz as (x & y & -> & _). apply land_255_byte.
Qed.

Lemma to_block_byte z : Forall byte (to_block z).
Proof. apply Forall_forall. intros b (i & <- & _)%list_elem_of_In%in_map_iff. apply land_255_byte. Qed.

Lemma ctr_involutive key nonce data :
  length key = 32%nat -> Forall byte data ->
  ctr (round_keys key) nonce (ctr (round_keys key) nonce data) = data.
Proof.
  intros Hk Hd. unfold ctr at 1. rewrite length_ctr by done.
  apply xor_bytes_involutive; [done|]. by apply length_keystream.
Qed.

Lemma Seal_length key nonce p aad s :
  String.length key = 32%nat -> Seal key nonce p aad = Ok s ->
  String.length s = (String.length p + Overhead)%nat.
Proof.
  intros Hk. unfold Seal. case_match; [done|]. intros [= <-].
  rewrite length_string_of_bytes, length_app, length_ctr by (by rewrite length_bytes_of_string).
  by rewrite length_bytes_of_string.
Qed.

Lemma Seal_ok key nonce p aad :
  String.length nonce = NonceSize -> exists s, Seal key nonce p aad = Ok s.
Proof. intros Hn. unfold Seal. rewrite Hn. cbn [Nat.eqb negb NonceSize]. by eexists. Qed.

(** What is opened with the key, nonce and additional data it was sealed with is
    the plaintext. *)
Lemma Open_Seal key nonce p aad s :
  String.length key = 32%nat -> Seal key nonce p aad = Ok s -> Open key nonce s aad = Ok p.
Proof.
  intros Hk Hs. pose proof (Seal_length _ _ _ _ _ Hk Hs) as Hl. revert Hs. unfold Seal, Open.
  case_match eqn:Hn; [done|]. rewrite Hl. unfold Overhead.
  replace (String.length p + 16 <? 16)%nat with false by (symmetry; apply Nat.ltb_ge; lia).
  replace (String.length p + 16 - 16)%nat with (String.length p) by lia.
  rewrite <-length_bytes_of_string in Hk.
  set (keys := round_keys (bytes_of_string key)). set (n := bytes_of_string nonce).
  set (c := ctr keys n (bytes_of_string p)). intros [= <-].
  assert (Hc : length c = String.length p).
  { unfold c, keys. rewrite length_ctr by done. apply length_bytes_of_string. }
  rewrite bytes_of_string_of_bytes by (apply Forall_app; split; [apply xor_bytes_byte|apply to_block_byte]).
  rewrite take_app_length', drop_app_length' by done.
  rewrite bool_decide_eq_true_2 by done. f_equal.
  unfold c, keys. rewrite ctr_involutive by (done || apply bytes_of_string_bytes).
  apply Base64.string_of_bytes_of_string.
Qed.

Lemma Open_nonce key nonce sealed aad :
  String.length nonce <> NonceSize -> Open key nonce sealed aad = nonce_panic.
Proof. intros Hn%Nat.eqb_neq. unfold Open. by rewrite Hn. Qed.

(** ** Known answers *)

Definition zeros (n : nat) : string := string_of_bytes (repeat 0%Z n).

Example gcm_known_answer_13 :
  Seal (zeros 32) (zeros 12) "" "" ≫= (fun s => Ok (Hex.EncodeToString s))
  = Ok "530f8afbc74536b9a963b4f1c4cb738b"%string.
Proof. vm_compute. reflexivity. Qed.

Example gcm_known_answer_14 :
  Seal (zeros 32) (zeros 12) (zeros 16) "" ≫= (fun s => Ok (Hex.EncodeToString s))
  = Ok "cea7403d4d606b6e074ec5d3baf39d18d0d1c8a799996bf0265b98b5d48ab919"%string.
Proof. vm_compute. reflexivity. Qed.

Example hmac_known_answer :
  Hex.EncodeToString (HMAC "Jefe" "what do ya want for nothing?")
  = "5bdcc146bf60754e6a042426089575c75a003f089d2739839dec58b964ec3843"%string.
Proof. vm_compute. reflexivity. Qed.
