(* ===== verification/Circuit.v ===== *)
(** * Circuits and onion cells: routing/circuit/circuit.go

    The client extends a circuit hop by hop: an extension carries a KEM
    ciphertext and a proof, and yields a layer key the relay derives too.  A
    payload is wrapped in one authenticated layer per hop, each relay removing
    its own.  A nil function or interface is [None]; randomness is an argument. *)

From S2P Require Import Prelude Sha256 Json JsonParse JsonDecode Identity Codec Gcm.
Local Open Scope Z_scope.
Local Open Scope string_scope.

(** A [HopRole] is a string; these are its declared values. *)
Definition Entry : string := "entry".
Definition Middle : string := "middle".
Definition Exit : string := "exit".

Record Hop := mkHop {
  hop_RelayID : string;
  hop_Role : string;
  hop_Ciphertext : string;
  hop_SecretHash : string
}.

Record Circuit := mkCircuit { cir_ID : string; cir_Hops : list Hop }.

Record ExtensionMessage := mkExtension {
  ext_CircuitID : string;
  ext_RelayID : string;
  ext_Role : string;
  ext_Nonce : string;
  ext_Ciphertext : string;
  ext_Proof : string
}.

Record LayerKey := mkLayerKey { lk_RelayID : string; lk_Key : string }.

Record Cell := mkCell {
  cl_CircuitID : string;
  cl_StreamID : Z;
  cl_PayloadType : string;
  cl_Sequence : Z;
  cl_RelayID : string;
  cl_Nonce : string;
  cl_Ciphertext : string;
  cl_Tag : string
}.

Definition Cell_json (c : Cell) : json :=
  JObj [("circuit_id", JStr (cl_CircuitID c)); ("stream_id", JInt (cl_StreamID c));
        ("payload_type", JStr (cl_PayloadType c)); ("sequence", JInt (cl_Sequence c));
        ("relay_id", JStr (cl_RelayID c)); ("nonce", bytes_json (cl_Nonce c));
        ("ciphertext", bytes_json (cl_Ciphertext c)); ("tag", bytes_json (cl_Tag c))].

Definition Cell_of (fs : list (string * json)) : result Cell :=
  circuit ← get_string "circuit_id" fs;
  stream ← get_uint64 "stream_id" fs;
  payload ← get_string "payload_type" fs;
  sequence ← get_uint64 "sequence" fs;
  relay ← get_string "relay_id" fs;
  nonce ← get_bytes "nonce" fs;
  ciphertext ← get_bytes "ciphertext" fs;
  tag ← get_bytes "tag" fs;
  Ok (mkCell circuit stream payload sequence relay nonce ciphertext tag).

Definition validRole (role : string) : bool :=
  String.eqb role Entry || String.eqb role Middle || String.eqb role Exit.

(** ** Derivations *)

Definition NewCircuitID (relayIDs : list string) : string :=
  prefix 24 (Hex.EncodeToString (Sha256.Sum256
    (foldl (fun acc id => acc ++ nul ++ id) "pq-fabric/routing/circuit-id/v1" relayIDs))).

Definition DeriveLayerKey (sharedSecret circuitID relayID role : string) : string :=
  Sha256.Sum256 ("pq-fabric/routing/layer-key/v1" ++ nul ++ sharedSecret ++ nul ++ circuitID ++ nul ++
                 relayID ++ nul ++ role).

Definition cellAAD (c : Cell) : string :=
  cl_CircuitID c ++ "|" ++ itoa (cl_StreamID c) ++ "|" ++ cl_PayloadType c ++ "|" ++
  itoa (cl_Sequence c) ++ "|" ++ cl_RelayID c.

Definition layerNonce (layer : LayerKey) (circuitID : string) (streamID : Z) (payloadType : string)
    (sequence : Z) : string :=
  prefix 12 (Sha256.Sum256
    ("pq-fabric/routing/nonce/v1" ++ nul ++ lk_Key layer ++ nul ++ lk_RelayID layer ++ nul ++
     circuitID ++ "|" ++ itoa streamID ++ "|" ++ payloadType ++ "|" ++ itoa sequence)).

Definition extensionNonce (circuitID relayID role ciphertext : string) : string :=
  prefix 24 (Hex.EncodeToString (Sha256.Sum256
    ("pq-fabric/routing/extension-nonce/v1" ++ nul ++ circuitID ++ nul ++ relayID ++ nul ++
     role ++ nul ++ ciphertext))).

Definition extensionProofPayload (e : ExtensionMessage) : json :=
  JObj [("circuit_id", JStr (ext_CircuitID e)); ("relay_id", JStr (ext_RelayID e));
        ("role", JStr (ext_Role e)); ("nonce", JStr (ext_Nonce e));
        ("ciphertext", bytes_json (ext_Ciphertext e))].

Definition extensionProof (sharedSecret : string) (e : ExtensionMessage) : result string :=
  payload ← CanonicalJSON (extensionProofPayload e);
  Ok (HMAC sharedSecret ("pq-fabric/routing/extension-proof/v1" ++ nul ++ payload)).

(** [ExtensionMessage.ID]: the proof is not part of it. *)
Definition Extension_ID (e : ExtensionMessage) : string :=
  match HashCanonical (extensionProofPayload e) with Ok hash => hash | Err _ => "" end.

#[global] Arguments Extension_ID : simpl never.
#[global] Arguments NewCircuitID : simpl never.
#[global] Arguments DeriveLayerKey : simpl never.
#[global] Arguments layerNonce : simpl never.
#[global] Arguments extensionNonce : simpl never.

(** ** Extending a circuit *)

Definition CreateExtension (circuitID relayID role relayPublicKey : string)
    (newPublic : option (string -> result KEMPublicKey)) (entropy : string)
    : result (ExtensionMessage * string) :=
  if blank circuitID then fail "circuit id is required"
  else if blank relayID then fail "relay id is required"
  else if negb (validRole role) then fail ("unsupported hop role: " ++ role)
  else
    match newPublic with
    | None => fail "KEM public key parser is required"
    | Some newPublic =>
        publicKey ← newPublic relayPublicKey;
        '(ciphertext, sharedSecret) ← kq_Encapsulate publicKey entropy;
        let extension := mkExtension circuitID relayID role
                           (extensionNonce circuitID relayID role ciphertext) ciphertext "" in
        proof ← extensionProof sharedSecret extension;
        Ok (mkExtension circuitID relayID role (ext_Nonce extension) ciphertext proof,
            DeriveLayerKey sharedSecret circuitID relayID role)
    end.

Definition VerifyExtension (extension : ExtensionMessage) (privateKey : option KEMPrivateKey)
    : result string :=
  match privateKey with
  | None => fail "relay KEM private key is required"
  | Some privateKey =>
      if blank (ext_CircuitID extension) then fail "extension circuit id is required"
      else if blank (ext_RelayID extension) then fail "extension relay id is required"
      else if negb (validRole (ext_Role extension)) then
        fail ("unsupported extension role: " ++ ext_Role extension)
      else if String.eqb (ext_Ciphertext extension) "" then fail "extension ciphertext is required"
      else if String.eqb (ext_Proof extension) "" then fail "extension proof is required"
      else
        sharedSecret ← kp_Decapsulate privateKey (ext_Ciphertext extension);
        expected ← extensionProof sharedSecret extension;
        if negb (String.eqb expected (ext_Proof extension)) then
          fail "extension proof verification failed"
        else Ok (DeriveLayerKey sharedSecret (ext_CircuitID extension) (ext_RelayID extension)
                   (ext_Role extension))
  end.

(** The loop over the hops; [roles] runs along. *)
Fixpoint build_hops (circuitID : string) (relayIDs roles entropy : list string)
    (relayPublicKeys : gmap string string) (newPublic : option (string -> result KEMPublicKey))
    : result (list Hop) :=
  match relayIDs, roles, entropy with
  | relayID :: relayIDs, role :: roles, drawn :: entropy =>
      match relayPublicKeys !! relayID with
      | None => fail ("missing relay public key for " ++ relayID)
      | Some publicBytes =>
          '(extension, layerKey) ← CreateExtension circuitID relayID role publicBytes newPublic drawn;
          hops ← build_hops circuitID relayIDs roles entropy relayPublicKeys newPublic;
          Ok (mkHop relayID role (ext_Ciphertext extension)
                (Hex.EncodeToString (Sha256.Sum256 layerKey)) :: hops)
      end
  | _, _, _ => Ok []
  end.

(** [drawn] is what the random source yields at the three hops. *)
Definition BuildPrivateTestbedCircuitWithKEM (relayIDs : list string)
    (relayPublicKeys : gmap string string) (newPublic : option (string -> result KEMPublicKey))
    (drawn : string * string * string) : result Circuit :=
  if negb (Nat.eqb (length relayIDs) 3) then
    Err (errorf ["private testbed circuit requires exactly 3 hops, got ";
                 itoa (Z.of_nat (length relayIDs))])
  else
    let circuitID := NewCircuitID relayIDs in
    hops ← build_hops circuitID relayIDs [Entry; Middle; Exit] [drawn.1.1; drawn.1.2; drawn.2]
             relayPublicKeys newPublic;
    Ok (mkCircuit circuitID hops).

(** [selected] is what [cryptosuite.FromEnv] yields. *)
Definition BuildPrivateTestbedCircuit (selected : result CryptoSuite) (relayIDs : list string)
    (relayPublicKeys : gmap string string) (drawn : string * string * string) : result Circuit :=
  selected ← selected;
  BuildPrivateTestbedCircuitWithKEM relayIDs relayPublicKeys (Some (cs_NewKEMPublic selected)) drawn.

(** ** Layers *)

(** [newAEAD]: the key of the cipher. *)
Definition aead_key (keyMaterial : string) : string :=
  Sha256.Sum256 ("pq-fabric/routing/aead/v1" ++ nul ++ keyMaterial).

Definition WrapLayer (layer : LayerKey) (circuitID : string) (streamID : Z) (payloadType : string)
    (sequence : Z) (plaintext : string) : result string :=
  if String.eqb (lk_Key layer) "" then fail "layer key is required"
  else
    let cell := mkCell circuitID streamID payloadType sequence (lk_RelayID layer)
                  (layerNonce layer circuitID streamID payloadType sequence) "" "" in
    sealed ← Seal (aead_key (lk_Key layer)) (cl_Nonce cell) plaintext (cellAAD cell);
    let n := (String.length sealed - Overhead)%nat in
    CanonicalJSON (Cell_json (mkCell circuitID streamID payloadType sequence (lk_RelayID layer)
      (cl_Nonce cell) (prefix n sealed) (String.substring n Overhead sealed))).

Definition DecodeCellMetadata (encoded : string) : result Cell := Unmarshal Cell_of encoded.

Definition UnwrapLayer (key encoded : string) : result (Cell * string) :=
  if String.eqb key "" then fail "layer key is required"
  else
    match Unmarshal Cell_of encoded with
    | Err e => Err (prefix_err "parse onion cell" e)
    | Ok cell =>
        if blank (cl_CircuitID cell) then fail "cell circuit id is required"
        else if String.eqb (cl_Nonce cell) "" || String.eqb (cl_Ciphertext cell) "" ||
                String.eqb (cl_Tag cell) "" then
          fail "cell encryption material is incomplete"
        else
          plaintext ← Open (aead_key key) (cl_Nonce cell) (cl_Ciphertext cell ++ cl_Tag cell) (cellAAD cell);
          Ok (cell, plaintext)
    end.

(** [layers] are in the order they are put on: the last one is the outermost. *)
Definition WrapLayers (layers : list LayerKey) (circuitID : string) (streamID : Z)
    (payloadType : string) (sequence : Z) (plaintext : string) : result string :=
  if is_nil layers then fail "at least one layer is required"
  else
    foldl (fun out layer => out ← out; WrapLayer layer circuitID streamID payloadType sequence out)
      (Ok plaintext) layers.

Definition UnwrapLayers (layers : list LayerKey) (encoded : string) : result string :=
  if is_nil layers then fail "at least one layer is required"
  else
    foldl (fun out layer => out ← out; '(_, plaintext) ← UnwrapLayer (lk_Key layer) out; Ok plaintext)
      (Ok encoded) (rev layers).

(** ** A layer is removed by the key it was put on with *)

Definition layer_wf (l : LayerKey) : Prop := utf8 (lk_RelayID l) = true /\ lk_Key l <> "".

Definition header_wf (circuitID : string) (streamID : Z) (payloadType : string) (sequence : Z) : Prop :=
  utf8 circuitID = true /\ blank circuitID = false /\ is_u64 streamID /\ utf8 payloadType = true /\
  is_u64 sequence.

Lemma Cell_of_json c :
  is_u64 (cl_StreamID c) -> is_u64 (cl_Sequence c) -> dec_struct Cell_of (Cell_json c) = Ok c.
Proof.
  destruct c as [ci st pt sq rl no ct tg]. intros ? ?. cbn in * |-. unfold Cell_json, dec_struct, Cell_of.
  cbn [cl_CircuitID cl_StreamID cl_PayloadType cl_Sequence cl_RelayID cl_Nonce cl_Ciphertext cl_Tag].
  by read_struct.
Qed.

Lemma Cell_json_ok c :
  utf8 (cl_CircuitID c) = true -> utf8 (cl_PayloadType c) = true -> utf8 (cl_RelayID c) = true ->
  json_ok (Cell_json c) = true.
Proof. intros ? ? ?. unfold Cell_json. json_ok_tac. Qed.

Lemma length_layerNonce layer ci st pt sq : String.length (layerNonce layer ci st pt sq) = NonceSize.
Proof. apply length_prefix. rewrite Sha256.length_Sum256. unfold NonceSize. lia. Qed.

Lemma length_aead_key k : String.length (aead_key k) = 32%nat.
Proof. apply Sha256.length_Sum256. Qed.

#[local] Hint Resolve length_layerNonce length_aead_key : go.

Lemma WrapLayer_ok layer ci st pt sq p :
  lk_Key layer <> "" -> exists e, WrapLayer layer ci st pt sq p = Ok e.
Proof.
  intros Hk%String.eqb_neq. unfold WrapLayer. rewrite Hk. cbn [cl_Nonce].
  edestruct Seal_ok as [s ->]; [apply length_layerNonce|]. by eexists.
Qed.

Lemma eqb_length_neq s n : String.length s = S n -> String.eqb s "" = false.
Proof. intros E. apply String.eqb_neq. by intros ->. Qed.

(** What one layer is: the cell a relay reads, that opens to the plaintext. *)
Lemma WrapLayer_spec layer ci st pt sq p e :
  layer_wf layer -> header_wf ci st pt sq -> p <> "" ->
  WrapLayer layer ci st pt sq p = Ok e ->
  exists cell, DecodeCellMetadata e = Ok cell /\ UnwrapLayer (lk_Key layer) e = Ok (cell, p) /\
    cl_CircuitID cell = ci /\ cl_StreamID cell = st /\ cl_PayloadType cell = pt /\
    cl_Sequence cell = sq /\ cl_RelayID cell = lk_RelayID layer.
Proof.
  intros (Hrel & Hk%String.eqb_neq) (Hci & Hb & Hst & Hpt & Hsq) Hp.
  unfold WrapLayer. rewrite Hk. cbn [cl_Nonce].
  set (nonce := layerNonce layer ci st pt sq).
  intros (sealed & Hs & [= <-])%bind_ok.
  pose proof (Seal_length _ _ _ _ _ (length_aead_key _) Hs) as Hl.
  assert (Hn : (String.length sealed - Overhead)%nat = String.length p) by lia. rewrite Hn.
  set (cell := mkCell ci st pt sq (lk_RelayID layer) nonce (prefix (String.length p) sealed)
                 (String.substring (String.length p) Overhead sealed)).
  assert (Hdec : Unmarshal Cell_of (Marshal (Cell_json cell)) = Ok cell).
  { apply Unmarshal_Marshal; [by apply Cell_json_ok|by apply Cell_of_json]. }
  exists cell. unfold DecodeCellMetadata, UnwrapLayer. rewrite Hk, Hdec. split_and!; try done.
  change (cl_CircuitID cell) with ci. rewrite Hb.
  rewrite (eqb_length_neq (cl_Nonce cell) 11) by apply length_layerNonce.
  rewrite (eqb_length_neq (cl_Ciphertext cell) (String.length p - 1)), (eqb_length_neq (cl_Tag cell) 15).
  - cbn [orb]. change (cl_Ciphertext cell ++ cl_Tag cell) with
      (prefix (String.length p) sealed ++ String.substring (String.length p) Overhead sealed).
    rewrite prefix_substring by done.
    pose proof (Open_Seal _ _ p _ _ (length_aead_key _) Hs) as Ho. unfold cellAAD in Ho |- *.
    cbn [cl_CircuitID cl_StreamID cl_PayloadType cl_Sequence cl_RelayID cl_Nonce cell] in Ho |- *.
    by rewrite Ho.
  - apply length_substring. unfold Overhead in *. lia.
  - unfold cell. cbn [cl_Ciphertext]. rewrite length_prefix by lia. destruct p; [done|]. cbn. lia.
Qed.

Lemma Marshal_nonempty v : json_ok v = true -> Marshal v <> "".
Proof. intros Hv E. apply parse_text in Hv. by rewrite E in Hv. Qed.

Lemma WrapLayer_nonempty layer ci st pt sq p e :
  layer_wf layer -> header_wf ci st pt sq -> WrapLayer layer ci st pt sq p = Ok e -> e <> "".
Proof.
  intros (Hrel & Hk%String.eqb_neq) (Hci & _ & _ & Hpt & _). unfold WrapLayer. rewrite Hk.
  intros (sealed & _ & [= <-])%bind_ok. apply Marshal_nonempty. by apply Cell_json_ok.
Qed.

Lemma wrap_fold layers ci st pt sq p :
  Forall layer_wf layers -> header_wf ci st pt sq -> p <> "" ->
  exists e, foldl (fun out layer => out ← out; WrapLayer layer ci st pt sq out) (Ok p) layers = Ok e /\
    e <> "" /\
    foldl (fun out layer => out ← out; '(_, q) ← UnwrapLayer (lk_Key layer) out; Ok q) (Ok e) (rev layers)
    = Ok p.
Proof.
  intros Hl Hh. revert p. induction Hl as [|layer layers Hw _ IH]; intros p Hp; [by exists p|].
  cbn [foldl mbind result_bind rev].
  destruct (WrapLayer_ok layer ci st pt sq p) as [e1 He1]; [apply Hw|].
  rewrite He1. destruct (IH e1) as (e & -> & Hne & Hun); [by eapply WrapLayer_nonempty|]. eapply WrapLayer_spec in He1 as (cell & _ & Hopen & _); [|done..].
  exists e. split_and!; try done. rewrite foldl_app, Hun. cbn [foldl mbind result_bind].
  by rewrite Hopen.
Qed.

Lemma is_nil_false {A} (l : list A) : is_nil l = false <-> l <> [].
Proof. by destruct l. Qed.

(** C9: layers come off in the reverse of the order they were put on.  For
    any non-empty list of layers, each with a key that is not empty and a
    relay id that is UTF-8, any circuit id that is UTF-8 and not blank, any
    payload type that is UTF-8, any stream id and sequence number in the range
    of their unsigned 64 bits and any payload of at least one byte, wrapping
    yields an onion whose unwrapping is the payload. *)
Theorem onion_roundtrip layers ci st pt sq p :
  layers <> [] -> Forall layer_wf layers -> header_wf ci st pt sq -> p <> "" ->
  exists e, WrapLayers layers ci st pt sq p = Ok e /\ UnwrapLayers layers e = Ok p.
Proof.
  intros Hn%is_nil_false Hl Hh Hp. unfold WrapLayers, UnwrapLayers. rewrite Hn.
  destruct (wrap_fold layers ci st pt sq p Hl Hh Hp) as (e & He & _ & Hu). by exists e.
Qed.

(** A payload without bytes is wrapped but cannot be unwrapped: its innermost
    ciphertext has no bytes, which [UnwrapLayer] takes for an incomplete cell. *)
Lemma empty_payload layer ci st pt sq e :
  layer_wf layer -> header_wf ci st pt sq ->
  WrapLayer layer ci st pt sq "" = Ok e ->
  UnwrapLayer (lk_Key layer) e = fail "cell encryption material is incomplete".
Proof.
  intros (Hrel & Hk%String.eqb_neq) (Hci & Hb & Hst & Hpt & Hsq).
  unfold WrapLayer. rewrite Hk. cbn [cl_Nonce]. intros (sealed & Hs & [= <-])%bind_ok.
  pose proof (Seal_length _ _ _ _ _ (length_aead_key _) Hs) as Hl.
  replace (String.length sealed - Overhead)%nat with 0%nat by (cbn in Hl; lia).
  unfold UnwrapLayer. rewrite Hk. rewrite Unmarshal_Marshal with (x := mkCell ci st pt sq (lk_RelayID layer)
    (layerNonce layer ci st pt sq) "" (String.substring 0 Overhead sealed)).
  - cbn [cl_CircuitID cl_Nonce cl_Ciphertext cl_Tag]. rewrite Hb. by rewrite orb_true_r.
  - by apply Cell_json_ok.
  - assert (Hpre : prefix 0 sealed = "") by (by destruct sealed). rewrite Hpre. by rewrite Cell_of_json.
Qed.

(** ** The handshake *)

Lemma length_HMAC k m : String.length (HMAC k m) = 32%nat.
Proof. unfold HMAC. rewrite length_string_of_bytes. apply Sha256.length_Sum256_bytes. Qed.

Lemma extensionProof_length s e p : extensionProof s e = Ok p -> String.length p = 32%nat.
Proof. unfold extensionProof. cbn [mbind result_bind CanonicalJSON]. intros [= <-]. apply length_HMAC. Qed.

Lemma length_DeriveLayerKey s ci rl ro : String.length (DeriveLayerKey s ci rl ro) = 32%nat.
Proof. apply Sha256.length_Sum256. Qed.

Lemma nonempty_length s n : String.length s = S n -> s <> "".
Proof. by intros E ->. Qed.

(** What an extension that was created carries. *)
Lemma CreateExtension_ok ci rl ro pk newPublic entropy ext key :
  CreateExtension ci rl ro pk (Some newPublic) entropy = Ok (ext, key) ->
  blank ci = false /\ blank rl = false /\ validRole ro = true /\
  exists p c s, newPublic pk = Ok p /\ kq_Encapsulate p entropy = Ok (c, s) /\
    ext_CircuitID ext = ci /\ ext_RelayID ext = rl /\ ext_Role ext = ro /\ ext_Ciphertext ext = c /\
    extensionProof s ext = Ok (ext_Proof ext) /\ key = DeriveLayerKey s ci rl ro.
Proof.
  unfold CreateExtension. intros Hc. run_ok Hc. revert Hc.
  intros (p & Hp & ([c s] & Hcs & (proof & Hproof & [= <- <-])%bind_ok)%bind_ok)%bind_ok.
  apply negb_false_iff in Hg1. split_and!; try done. exists p, c, s.
  cbn [ext_CircuitID ext_RelayID ext_Role ext_Ciphertext ext_Proof].
  split_and!; try done.
Qed.

Lemma VerifyExtension_ok k ext key :
  VerifyExtension ext (Some k) = Ok key ->
  exists s, kp_Decapsulate k (ext_Ciphertext ext) = Ok s /\ extensionProof s ext = Ok (ext_Proof ext) /\
    key = DeriveLayerKey s (ext_CircuitID ext) (ext_RelayID ext) (ext_Role ext).
Proof.
  unfold VerifyExtension. intros Hv. run_ok Hv. revert Hv.
  intros (s & Hs & (expected & He & Hv)%bind_ok)%bind_ok. run_ok Hv.
  apply negb_false_iff, String.eqb_eq in Hg4 as ->. injection Hv as <-. by exists s.
Qed.

(** Client and relay derive the same layer key.  An extension created for a
    relay's public key verifies under its private key, whatever the random source
    yields, and the relay obtains the client's key; the key has 32 bytes, so it is
    accepted as a layer.  Conversely a relay accepts an extension only with a
    proof made with the secret its ciphertext decapsulates to. *)
Theorem extension_handshake k newPublic ci rl ro entropy ext key :
  kem_pair k newPublic ->
  CreateExtension ci rl ro (kp_PublicKey k) (Some newPublic) entropy = Ok (ext, key) ->
  VerifyExtension ext (Some k) = Ok key /\ String.length key = 32%nat /\
  forall ext' key', VerifyExtension ext' (Some k) = Ok key' ->
    exists s, kp_Decapsulate k (ext_Ciphertext ext') = Ok s /\
      extensionProof s ext' = Ok (ext_Proof ext') /\
      key' = DeriveLayerKey s (ext_CircuitID ext') (ext_RelayID ext') (ext_Role ext').
Proof.
  intros (p & Hp & Hkem) (Hb & Hb' & Hr & p' & c & s & Hp' & Henc & E1 & E2 & E3 & E4 & Hproof & ->)%CreateExtension_ok.
  rewrite Hp in Hp'. injection Hp' as <-. destruct (Hkem _ _ _ Henc) as [Hc Hdec]. split_and!.
  - unfold VerifyExtension. rewrite E1, E2, E3, E4, Hb, Hb', Hr. apply String.eqb_neq in Hc. rewrite Hc.
    cbn [negb]. rewrite (eqb_length_neq _ 31), Hdec.
    + cbn [mbind result_bind]. rewrite Hproof. cbn [mbind result_bind]. by rewrite String.eqb_refl.
    + by eapply extensionProof_length.
  - apply length_DeriveLayerKey.
  - intros ext' key'. apply VerifyExtension_ok.
Qed.

(** ** Malformed cells *)

(** A malformed cell stops the relay.  A cell with any circuit id, and a
    nonce of any length but twelve, makes [UnwrapLayer] panic under every key: the
    length of the nonce is not checked before the cipher is called. *)
Theorem short_nonce_panics key cell :
  key <> "" -> utf8 (cl_CircuitID cell) = true -> blank (cl_CircuitID cell) = false ->
  is_u64 (cl_StreamID cell) -> utf8 (cl_PayloadType cell) = true -> is_u64 (cl_Sequence cell) ->
  utf8 (cl_RelayID cell) = true -> cl_Ciphertext cell <> "" -> cl_Tag cell <> "" ->
  cl_Nonce cell <> "" -> String.length (cl_Nonce cell) <> NonceSize ->
  UnwrapLayer key (Marshal (Cell_json cell)) = nonce_panic.
Proof.
  intros Hk%String.eqb_neq Hci Hb Hst Hpt Hsq Hrel Hc%String.eqb_neq Ht%String.eqb_neq Hn%String.eqb_neq Hlen.
  unfold UnwrapLayer. rewrite Hk, (Unmarshal_Marshal _ _ cell).
  - rewrite Hb, Hc, Ht, Hn. cbn [orb]. by rewrite Open_nonce.
  - by apply Cell_json_ok.
  - by apply Cell_of_json.
Qed.

(** ** Concrete circuits *)

Definition demo_layers : list LayerKey :=
  [mkLayerKey "relay-7" "k7"; mkLayerKey "relay-4" "k4"; mkLayerKey "relay-1" "k1"].

Lemma onion_roundtrip_witness :
  exists e, WrapLayers demo_layers "c1" 1 "data" 1 "hello" = Ok e /\ UnwrapLayers demo_layers e = Ok "hello".
Proof.
  apply (onion_roundtrip demo_layers "c1" 1 "data" 1 "hello").
  - done.
  - repeat constructor; done.
  - by repeat split.
  - done.
Defined.

Definition demo_kem : KEMPrivateKey := mkKEMPrivate "demo-kem" "kem-relay-1" (fun c => Ok c).

Definition demo_extension : ExtensionMessage * string :=
  match CreateExtension "c1" "relay-1" Entry "kem-relay-1" (Some (cs_NewKEMPublic demo_suite)) "r" with
  | Ok x => x
  | Err _ => (mkExtension "" "" "" "" "" "", "")
  end.

Lemma extension_handshake_witness :
  VerifyExtension demo_extension.1 (Some demo_kem) = Ok demo_extension.2.
Proof.
  apply (extension_handshake demo_kem (cs_NewKEMPublic demo_suite) "c1" "relay-1" Entry "r").
  - by apply (demo_kem_pair "relay-1").
  - reflexivity.
Defined.

Lemma short_nonce_panics_witness :
  is_panic (UnwrapLayer "k" (Marshal (Cell_json (mkCell "c1" 1 "data" 1 "relay-1" "n" "c" "t")))) = true.
Proof.
  rewrite (short_nonce_panics "k" (mkCell "c1" 1 "data" 1 "relay-1" "n" "c" "t")); done.
Defined.
