(* ===== verification/Stream.v ===== *)
(** * Streams of a circuit: routing/stream/stream.go

    A manager hands out the numbers of the streams that share a circuit.  A
    [uint64] counter wraps. *)

From S2P Require Import Prelude.
Local Open Scope Z_scope.

Record Manager := mkManager {
  sm_next : Z;
  sm_open : gset Z;
  sm_seen : gset Z;
  sm_closed : bool
}.

Definition NewManager : Manager := mkManager 1 ∅ ∅ false.

Definition closed_error : error := errors_New "stream manager is closed".

Definition unknown_stream (id : Z) : error := errorf ["unknown or closed stream id "; itoa id].

Definition Open (m : Manager) : Manager * result Z :=
  if sm_closed m then (m, Err closed_error)
  else
    let id := sm_next m in
    (mkManager (u64 (sm_next m + 1)) ({[id]} ∪ sm_open m) ({[id]} ∪ sm_seen m) (sm_closed m), Ok id).

Definition OpenWithID (id : Z) (m : Manager) : Manager * result unit :=
  if sm_closed m then (m, Err closed_error)
  else if id =? 0 then (m, fail "stream id must be positive")
  else if bool_decide (id ∈ sm_seen m) then (m, Err (errorf ["duplicate stream id "; itoa id]))
  else
    (mkManager (if sm_next m <=? id then u64 (id + 1) else sm_next m)
       ({[id]} ∪ sm_open m) ({[id]} ∪ sm_seen m) (sm_closed m), Ok tt).

Definition EnsureOpen (id : Z) (m : Manager) : Manager * result unit :=
  if bool_decide (id ∈ sm_open m) then (m, Ok tt) else (m, Err (unknown_stream id)).

Definition Close (id : Z) (m : Manager) : Manager * result unit :=
  if bool_decide (id ∈ sm_open m) then
    (mkManager (sm_next m) (sm_open m ∖ {[id]}) (sm_seen m) (sm_closed m), Ok tt)
  else (m, Err (unknown_stream id)).

Definition OpenCount (m : Manager) : Z := Z.of_nat (size (sm_open m)).

Definition SeenCount (m : Manager) : Z := Z.of_nat (size (sm_seen m)).

Definition CloseAll (m : Manager) : Manager := mkManager (sm_next m) ∅ (sm_seen m) true.

(** ** A manager's history *)

Inductive op := OpOpen | OpOpenWithID (id : Z) | OpClose (id : Z) | OpCloseAll.

(** The manager an operation leaves and the stream it opened. *)
Definition exec (o : op) (m : Manager) : Manager * list Z :=
  match o with
  | OpOpen => let '(m, r) := Open m in (m, match r with Ok id => [id] | Err _ => [] end)
  | OpOpenWithID id => let '(m, r) := OpenWithID id m in (m, match r with Ok _ => [id] | Err _ => [] end)
  | OpClose id => ((Close id m).1, [])
  | OpCloseAll => (CloseAll m, [])
  end.

Fixpoint run (ops : list op) (m : Manager) : Manager * list Z :=
  match ops with
  | [] => (m, [])
  | o :: ops => let '(m, ids) := exec o m in let '(m, ids') := run ops m in (m, (ids ++ ids')%list)
  end.

(** What holds between operations: the next number is above every one used, and
    below the limit up to which nothing wraps. *)
Record manager_inv (limit : Z) (m : Manager) : Prop := {
  mi_next : 0 < sm_next m <= limit;
  mi_seen : forall id, id ∈ sm_seen m -> 0 < id < sm_next m;
  mi_open : sm_open m ⊆ sm_seen m
}.

Definition op_below (limit : Z) (o : op) : Prop :=
  match o with OpOpenWithID id => 0 <= id < limit | _ => True end.

Lemma exec_inv limit o m :
  0 < limit -> limit + 1 < two64 -> manager_inv limit m -> op_below limit o ->
  let '(m', ids) := exec o m in
  manager_inv (limit + 1) m' /\ NoDup ids /\ (forall id, id ∈ ids -> 0 < id /\ id ∉ sm_seen m) /\
  sm_seen m' = list_to_set ids ∪ sm_seen m.
Proof.
  intros H0 Hlim [Hn Hs Ho] Hop. unfold two64 in *. destruct o as [|id|id|]; cbn [exec].
  - unfold Open. destruct (sm_closed m).
    + split_and!; [constructor; auto; lia|constructor|by intros ? ?%elem_of_nil|set_solver].
    + rewrite u64_small by (unfold is_u64, two64; lia). split_and!.
      * constructor; cbn; [lia| |set_solver].
        intros i [->%elem_of_singleton|Hi%Hs]%elem_of_union; lia.
      * apply NoDup_singleton.
      * intros i ->%list_elem_of_singleton. split; [lia|]. intros Hi%Hs. lia.
      * cbn. set_solver.
  - unfold OpenWithID. destruct (sm_closed m).
    + split_and!; [constructor; auto; lia|constructor|by intros ? ?%elem_of_nil|set_solver].
    + destruct (Z.eqb_spec id 0) as [|Hz].
      * split_and!; [constructor; auto; lia|constructor|by intros ? ?%elem_of_nil|set_solver].
      * case_bool_decide as Hd.
        { split_and!; [constructor; auto; lia|constructor|by intros ? ?%elem_of_nil|set_solver]. }
        cbn in Hop. rewrite u64_small by (unfold is_u64, two64; lia). split_and!.
        { constructor; cbn; [destruct (Z.leb_spec (sm_next m) id); lia| |set_solver].
          intros i [->%elem_of_singleton|Hi%Hs]%elem_of_union; destruct (Z.leb_spec (sm_next m) id); lia. }
        { apply NoDup_singleton. }
        { intros i ->%list_elem_of_singleton. split; [lia|done]. }
        cbn. set_solver.
  - unfold Close. split_and!; [|constructor|by intros ? ?%elem_of_nil|].
    + case_bool_decide; cbn [fst]; (constructor; cbn; [lia|done|set_solver]).
    + case_bool_decide; cbn [fst sm_seen]; set_solver.
  - split_and!; [constructor; cbn; [lia|done|set_solver]|constructor|by intros ? ?%elem_of_nil|].
    cbn. set_solver.
Qed.

Lemma run_inv ops limit m :
  0 < limit -> limit + Z.of_nat (length ops) < two64 -> manager_inv limit m -> Forall (op_below limit) ops ->
  let '(m', ids) := run ops m in
  manager_inv (limit + Z.of_nat (length ops)) m' /\ NoDup ids /\
  (forall id, id ∈ ids -> 0 < id /\ id ∉ sm_seen m).
Proof.
  revert limit m. induction ops as [|o ops IH]; intros limit m H0 Hlim Hm Hops.
  - cbn. rewrite Z.add_0_r. split_and!; [done|constructor|by intros ? ?%elem_of_nil].
  - apply Forall_cons in Hops as [Ho Hops]. cbn [length] in Hlim. cbn [run].
    pose proof (exec_inv limit o m H0 ltac:(lia) Hm Ho) as He.
    destruct (exec o m) as [m1 ids1]. destruct He as (Hm1 & Hnd & Hfresh & Hseen).
    specialize (IH (limit + 1) m1). destruct (run ops m1) as [m2 ids2].
    destruct IH as (Hm2 & Hnd2 & Hfresh2); [lia|lia|done| |].
    { eapply Forall_impl; [exact Hops|]. intros []; cbn; lia. }
    replace (limit + Z.of_nat (length (o :: ops))) with (limit + 1 + Z.of_nat (length ops)) by (cbn; lia).
    split_and!; [done| |].
    + apply NoDup_app. split_and!; [done| |done]. intros i Hi Hi2. apply Hfresh2 in Hi2 as [_ Hi2].
      apply Hi2. rewrite Hseen. set_solver.
    + intros i [Hi|Hi]%elem_of_app; [by apply Hfresh|]. apply Hfresh2 in Hi as [? Hi].
      split; [done|]. rewrite Hseen in Hi. set_solver.
Qed.

(** A stream number is used once.  Whatever is opened, closed and torn down,
    and in whatever order, the numbers under which streams are opened are positive
    and pairwise different, as long as the numbers asked for and the number of
    operations stay together below 2^64. *)
Theorem streams_unique limit ops :
  0 < limit -> Forall (op_below limit) ops -> limit + Z.of_nat (length ops) < two64 ->
  NoDup (run ops NewManager).2 /\ Forall (fun id => 0 < id) (run ops NewManager).2.
Proof.
  intros H0 Hops Hlim. pose proof (run_inv ops limit NewManager H0 Hlim) as Hr.
  destruct (run ops NewManager) as [m ids]. destruct Hr as (_ & Hnd & Hpos).
  - constructor; cbn; [lia|set_solver|set_solver].
  - done.
  - split; [done|]. apply Forall_forall. intros i Hi. by apply Hpos.
Qed.

Definition demo_ops : list op := [OpOpen; OpOpenWithID 3; OpOpenWithID 3; OpClose 1; OpOpen; OpOpen; OpCloseAll; OpOpen].

Lemma streams_unique_witness :
  (run demo_ops NewManager).2 = [1; 3; 4; 5] /\ NoDup (run demo_ops NewManager).2.
Proof.
  split; [vm_compute; reflexivity|]. apply (streams_unique 10 demo_ops); [lia| |vm_compute; reflexivity].
  repeat constructor; cbn; lia.
Defined.

(** The counter wraps without a check.  After the largest number has been asked
    for, [Open] hands out zero, which [OpenWithID] refuses, and then a number whose
    stream is still open. *)
Theorem stream_counter_wraps :
  (run [OpOpen; OpOpenWithID (two64 - 1); OpOpen; OpOpen] NewManager).2 = [1; two64 - 1; 0; 1].
Proof. vm_compute. reflexivity. Qed.
