(* ===== verification/Relay.v ===== *)
(** * Relays: routing/relay/relay.go

    A relay keeps a session per circuit, the extensions it has accepted, and the
    destinations it exits to.  A method holds the relay's mutex for its body and is
    one step, but for [ProcessCell]: it looks the session up, decrypts without the
    mutex, and writes the session back, in two steps. *)

From S2P Require Import Prelude Sha256 Json JsonParse JsonDecode Identity Codec Gcm Circuit.
Local Open Scope Z_scope.
Local Open Scope string_scope.

(** A set of destinations. *)
Definition ExitPolicy : Type := gset string.

Record SessionState := mkSession {
  ss_CircuitID : string;
  ss_RelayID : string;
  ss_Role : string;
  ss_PreviousHop : string;
  ss_NextHop : string;
  ss_LayerKey : string;
  ss_ExtensionID : string;
  ss_LastStreamID : Z;
  ss_LastCellType : string;
  ss_ForwardedCell : Z
}.

Record Relay := mkRelay {
  rl_ID : string;
  rl_Region : string;
  rl_KEM : KEMPrivateKey;
  rl_Running : bool;
  rl_sessions : gmap string SessionState;
  rl_seenExtensions : gset string;
  rl_streams : gmap string (gset Z);
  rl_exitPolicy : ExitPolicy;
  rl_lastDestination : string
}.

Record Visibility := mkVisibility {
  vs_RelayID : string;
  vs_Region : string;
  vs_Role : string;
  vs_PreviousHop : string;
  vs_NextHop : string;
  vs_KnowsClientConnection : bool;
  vs_KnowsFinalDestination : bool;
  vs_KnowsFullPath : bool;
  vs_FinalDestination : string;
  vs_LocalSessionKeyAvailable : bool;
  vs_LastStreamID : Z;
  vs_LastCellType : string
}.

Definition NewExitPolicy (allowed : list string) : ExitPolicy :=
  foldl (fun out destination => if String.eqb destination "" then out else {[destination]} ∪ out) ∅ allowed.

Definition Allows (p : ExitPolicy) (destination : string) : bool :=
  if Nat.eqb (size p) 0 then false else bool_decide (destination ∈ p).

Definition Destinations (p : ExitPolicy) : list string := sort_strings (elements p).

Definition NewRelayForSuite (id region : string) (selected : CryptoSuite) : result Relay :=
  kem ← cs_NewKEMPrivate selected id;
  Ok (mkRelay id region kem false ∅ ∅ ∅ (NewExitPolicy []) "").

(** [MustLookup] of the development suite, which is always found. *)
Definition NewDevelopmentRelay (devSuite : CryptoSuite) (id region : string) : result Relay :=
  NewRelayForSuite id region devSuite.

Definition PublicKey (r : Relay) : string := kp_PublicKey (rl_KEM r).

Definition set_running (b : bool) (r : Relay) : Relay :=
  mkRelay (rl_ID r) (rl_Region r) (rl_KEM r) b (rl_sessions r) (rl_seenExtensions r) (rl_streams r)
    (rl_exitPolicy r) (rl_lastDestination r).

Definition Start : Relay -> Relay := set_running true.
Definition Stop : Relay -> Relay := set_running false.

Definition SetExitPolicy (policy : ExitPolicy) (r : Relay) : Relay :=
  mkRelay (rl_ID r) (rl_Region r) (rl_KEM r) (rl_Running r) (rl_sessions r) (rl_seenExtensions r)
    (rl_streams r) policy (rl_lastDestination r).

Definition set_session (sessions : gmap string SessionState) (seen : gset string)
    (streams : gmap string (gset Z)) (r : Relay) : Relay :=
  mkRelay (rl_ID r) (rl_Region r) (rl_KEM r) (rl_Running r) sessions seen streams
    (rl_exitPolicy r) (rl_lastDestination r).

Definition set_destination (destination : string) (r : Relay) : Relay :=
  mkRelay (rl_ID r) (rl_Region r) (rl_KEM r) (rl_Running r) (rl_sessions r) (rl_seenExtensions r)
    (rl_streams r) (rl_exitPolicy r) destination.

Definition AllowsDestination (r : Relay) (destination : string) : bool :=
  Allows (rl_exitPolicy r) destination.

(** ** Sessions *)

Definition AcceptExtension (extension : ExtensionMessage) (previousHop nextHop : string)
    : M Relay SessionState :=
  r ← gets id;
  _ ← guard_err (negb (rl_Running r)) (errors_New (rl_ID r ++ " is not running"));
  _ ← guard_err (negb (String.eqb (ext_RelayID extension) (rl_ID r)))
        (errors_New ("extension relay id " ++ ext_RelayID extension ++ " does not match " ++ rl_ID r));
  let extensionID := Extension_ID extension in
  _ ← guard_err (String.eqb extensionID "") (errors_New "extension id could not be derived");
  _ ← guard_err (bool_decide (extensionID ∈ rl_seenExtensions r))
        (errors_New "replayed circuit extension rejected");
  layerKey ← lift (VerifyExtension extension (Some (rl_KEM r)));
  let state := mkSession (ext_CircuitID extension) (rl_ID r) (ext_Role extension) previousHop nextHop
                 layerKey extensionID 0 "" 0 in
  _ ← modify (fun r => set_session (<[ext_CircuitID extension := state]> (rl_sessions r))
                         ({[extensionID]} ∪ rl_seenExtensions r) (rl_streams r) r);
  mret state.

Definition unknown_circuit (circuitID : string) (r : Relay) : error :=
  errors_New ("unknown circuit id " ++ circuitID ++ " at relay " ++ rl_ID r).

(** The first critical section of [ProcessCell], and the decryption after it. *)
Definition process_begin (encoded : string) (r : Relay) : result (string * Cell * SessionState * string) :=
  meta ← DecodeCellMetadata encoded;
  match rl_sessions r !! cl_CircuitID meta with
  | None => Err (unknown_circuit (cl_CircuitID meta) r)
  | Some state =>
      if negb (String.eqb (cl_RelayID meta) (rl_ID r)) then
        fail ("cell for relay " ++ cl_RelayID meta ++ " reached relay " ++ rl_ID r)
      else
        '(cell, plaintext) ← UnwrapLayer (ss_LayerKey state) encoded;
        Ok (cl_CircuitID meta, cell, state, plaintext)
  end.

(** The second: the session read before is written back. *)
Definition process_end (circuitID : string) (cell : Cell) (state : SessionState) (r : Relay) : Relay :=
  let state := mkSession (ss_CircuitID state) (ss_RelayID state) (ss_Role state) (ss_PreviousHop state)
                 (ss_NextHop state) (ss_LayerKey state) (ss_ExtensionID state) (cl_StreamID cell)
                 (cl_PayloadType cell) (i64 (ss_ForwardedCell state + 1)) in
  set_session (<[circuitID := state]> (rl_sessions r)) (rl_seenExtensions r)
    (<[circuitID := {[cl_StreamID cell]} ∪ default ∅ (rl_streams r !! circuitID)]> (rl_streams r)) r.

Definition ProcessCell (encoded : string) : M Relay (string * Cell) :=
  r ← gets id;
  '(circuitID, cell, state, plaintext) ← lift (process_begin encoded r);
  _ ← modify (process_end circuitID cell state);
  mret (plaintext, cell).

Definition RecordExitDestination (circuitID destination : string) : M Relay unit :=
  r ← gets id;
  match rl_sessions r !! circuitID with
  | None => raise (unknown_circuit circuitID r)
  | Some state =>
      _ ← guard_err (negb (String.eqb (ss_Role state) Exit))
            (errors_New ("relay " ++ rl_ID r ++ " is not an exit relay for circuit " ++ circuitID));
      _ ← guard_err (negb (Allows (rl_exitPolicy r) destination))
            (errors_New ("destination " ++ destination ++ " is not allowed by exit policy"));
      modify (set_destination destination)
  end.

Definition Session (circuitID : string) (r : Relay) : option SessionState := rl_sessions r !! circuitID.

Definition zero_session : SessionState := mkSession "" "" "" "" "" "" "" 0 "" 0.

(** The value a missing session reads as has the empty role. *)
Definition Relay_Visibility (circuitID : string) (r : Relay) : Visibility :=
  let state := default zero_session (rl_sessions r !! circuitID) in
  let exits := String.eqb (ss_Role state) Exit in
  mkVisibility (rl_ID r) (rl_Region r) (ss_Role state) (ss_PreviousHop state) (ss_NextHop state)
    (String.eqb (ss_Role state) Entry && negb (String.eqb (ss_PreviousHop state) ""))
    (exits && negb (String.eqb (rl_lastDestination r) "")) false
    (if exits then rl_lastDestination r else "")
    (negb (String.eqb (ss_LayerKey state) "")) (ss_LastStreamID state) (ss_LastCellType state).

Definition Teardown (circuitID : string) (r : Relay) : Relay :=
  let r := set_session (delete circuitID (rl_sessions r)) (rl_seenExtensions r)
             (delete circuitID (rl_streams r)) r in
  if Nat.eqb (size (rl_sessions r)) 0 then set_destination "" r else r.

(** ** The states of a relay *)

Inductive relay_step : Relay -> Relay -> Prop :=
| step_start r : relay_step r (Start r)
| step_stop r : relay_step r (Stop r)
| step_policy policy r : relay_step r (SetExitPolicy policy r)
| step_accept e previous next r : relay_step r (AcceptExtension e previous next r).1
| step_cell encoded r : relay_step r (ProcessCell encoded r).1
| step_cell_end circuitID cell state r :      (* the state of an earlier [process_begin] *)
    ss_ExtensionID state ∈ rl_seenExtensions r -> ss_RelayID state = rl_ID r ->
    relay_step r (process_end circuitID cell state r)
| step_exit circuitID destination r : relay_step r (RecordExitDestination circuitID destination r).1
| step_teardown circuitID r : relay_step r (Teardown circuitID r).

Definition relay_steps : relation Relay := rtc relay_step.

Lemma AcceptExtension_ok e previous next r r' s :
  AcceptExtension e previous next r = (r', Ok s) ->
  rl_Running r = true /\ ext_RelayID e = rl_ID r /\ Extension_ID e ∉ rl_seenExtensions r /\
  VerifyExtension e (Some (rl_KEM r)) = Ok (ss_LayerKey s) /\
  s = mkSession (ext_CircuitID e) (rl_ID r) (ext_Role e) previous next (ss_LayerKey s) (Extension_ID e) 0 "" 0 /\
  r' = set_session (<[ext_CircuitID e := s]> (rl_sessions r)) ({[Extension_ID e]} ∪ rl_seenExtensions r)
         (rl_streams r) r.
Proof.
  unfold AcceptExtension. autorewrite with go_run. change (id r) with r.
  destruct (rl_Running r) eqn:Hr; [|done]. cbn [negb].
  destruct (String.eqb_spec (ext_RelayID e) (rl_ID r)); [|done]. cbn [negb].
  destruct (String.eqb (Extension_ID e) ""); [done|]. case_bool_decide; [done|].
  destruct (VerifyExtension _ _) as [key|] eqn:Hv; [|done]. autorewrite with go_run.
  intros [= <- <-]. by split_and!.
Qed.

Lemma AcceptExtension_err e previous next r r' err :
  AcceptExtension e previous next r = (r', Err err) -> r' = r.
Proof.
  unfold AcceptExtension. autorewrite with go_run. change (id r) with r.
  destruct (negb (rl_Running r)); [by intros [= <-]|].
  destruct (negb (String.eqb (ext_RelayID e) (rl_ID r))); [by intros [= <-]|].
  destruct (String.eqb (Extension_ID e) ""); [by intros [= <-]|].
  case_bool_decide; [by intros [= <-]|].
  destruct (VerifyExtension _ _); [done|]. by intros [= <-].
Qed.

Lemma Extension_ID_nonempty e : Extension_ID e <> "".
Proof.
  unfold Extension_ID. rewrite HashCanonical_ok.
  apply (nonempty_length _ 63), length_HashBytes.
Qed.

(** What a step keeps: the relay's identity, its key, and the extensions seen. *)
Record continues (r r' : Relay) : Prop := {
  co_ID : rl_ID r' = rl_ID r;
  co_KEM : rl_KEM r' = rl_KEM r;
  co_seen : rl_seenExtensions r ⊆ rl_seenExtensions r'
}.

#[export] Instance continues_preorder : PreOrder continues.
Proof.
  split; [by constructor|]. intros r1 r2 r3 [E1 E2 E3] [F1 F2 F3].
  constructor; [congruence..|set_solver].
Qed.

Lemma relay_step_continues r r' : relay_step r r' -> continues r r'.
Proof.
  destruct 1 as [| | |e previous next r| | | |]; try by constructor.
  - destruct (AcceptExtension e previous next r) as [r1 [s|err]] eqn:E; cbn [fst].
    + apply AcceptExtension_ok in E as (_ & _ & _ & _ & _ & ->). constructor; cbn; [done..|set_solver].
    + by apply AcceptExtension_err in E as ->.
  - unfold ProcessCell. autorewrite with go_run. destruct (process_begin _ _) as [[[[? ?] ?] ?]|]; by constructor.
  - unfold RecordExitDestination. autorewrite with go_run. destruct (_ !! _); [|by constructor].
    autorewrite with go_run. repeat case_match; by constructor.
  - unfold Teardown. case_match; by constructor.
Qed.

Lemma relay_steps_continues r r' : relay_steps r r' -> continues r r'.
Proof.
  induction 1 as [|r r1 r2 Hs%relay_step_continues _ IH]; [done|]. by transitivity r1.
Qed.

(** C10: an extension makes one session.  Once a relay has accepted an extension, no
    later state of it, reached by any of its operations, tearing the circuit down
    included, accepts an extension with that identity again, whatever its proof and
    whatever hops are named. *)
Theorem extension_once e previous next r r' s r2 :
  AcceptExtension e previous next r = (r', Ok s) -> relay_steps r' r2 ->
  forall e2 previous2 next2, Extension_ID e2 = Extension_ID e ->
    exists err, AcceptExtension e2 previous2 next2 r2 = (r2, Err err).
Proof.
  intros (_ & _ & _ & _ & _ & ->)%AcceptExtension_ok [_ _ Hseen]%relay_steps_continues e2 p2 n2 Hid.
  destruct (AcceptExtension e2 p2 n2 r2) as [r3 [s3|err]] eqn:E.
  - apply AcceptExtension_ok in E as (_ & _ & Hn & _). rewrite Hid in Hn.
    cbn [set_session rl_seenExtensions] in Hseen.
    exfalso. apply Hn, Hseen, elem_of_union_l. by apply elem_of_singleton.
  - apply AcceptExtension_err in E as ->. by exists err.
Qed.

(** ** Cells *)

Lemma process_begin_ok encoded r circuitID cell state plaintext :
  process_begin encoded r = Ok (circuitID, cell, state, plaintext) ->
  rl_sessions r !! circuitID = Some state /\ cl_CircuitID cell = circuitID /\ cl_RelayID cell = rl_ID r /\
  DecodeCellMetadata encoded = Ok cell /\ UnwrapLayer (ss_LayerKey state) encoded = Ok (cell, plaintext).
Proof.
  unfold process_begin. intros (meta & Hm & Hp)%bind_ok.
  destruct (rl_sessions r !! _) as [state'|] eqn:Hs; [|done].
  destruct (String.eqb_spec (cl_RelayID meta) (rl_ID r)) as [Hrel|]; [|done]. cbn [negb] in Hp.
  apply bind_ok in Hp as ([cell' p'] & Hu & Hp). injection Hp as <- <- <- <-.
  assert (meta = cell') as <-; [|by split_and!].
  unfold UnwrapLayer in Hu. destruct (String.eqb _ ""); [done|]. unfold DecodeCellMetadata in Hm.
  rewrite Hm in Hu. run_ok Hu. apply bind_ok in Hu as (? & _ & Hu). by injection Hu.
Qed.

(** What a relay does with its layer of an onion. *)
Lemma ProcessCell_layer r layer ci st pt sq p e state :
  rl_sessions r !! ci = Some state -> lk_Key layer = ss_LayerKey state -> lk_RelayID layer = rl_ID r ->
  layer_wf layer -> header_wf ci st pt sq -> p <> "" -> WrapLayer layer ci st pt sq p = Ok e ->
  exists cell, ProcessCell e r = (process_end ci cell state r, Ok (p, cell)) /\ cl_StreamID cell = st /\
    cl_PayloadType cell = pt.
Proof.
  intros Hs Hk Hrel Hw Hh Hp He.
  destruct (WrapLayer_spec _ _ _ _ _ _ _ Hw Hh Hp He) as (cell & Hdec & Hun & Hci & Hst & Hpt & _ & Hr).
  exists cell. split; [|done]. unfold ProcessCell. autorewrite with go_run. change (id r) with r.
  assert (process_begin e r = Ok (ci, cell, state, p)) as ->; [|done].
  unfold process_begin. rewrite Hdec. cbn [mbind result_bind]. rewrite Hci, Hs.
  replace (String.eqb (cl_RelayID cell) (rl_ID r)) with true by (symmetry; apply String.eqb_eq; congruence).
  cbn [negb]. by rewrite <-Hk, Hun.
Qed.

(** A cell in flight undoes a teardown.  When a circuit is torn down between the
    two critical sections of [ProcessCell], the second one puts the session back:
    the relay goes on serving the circuit that was torn down. *)
Theorem teardown_undone encoded r circuitID cell state plaintext :
  process_begin encoded r = Ok (circuitID, cell, state, plaintext) ->
  let r' := process_end circuitID cell state (Teardown circuitID r) in
  rl_sessions (Teardown circuitID r) !! circuitID = None /\
  (exists s, rl_sessions r' !! circuitID = Some s /\ ss_LayerKey s = ss_LayerKey state) /\
  is_ok (ProcessCell encoded r').2 = true.
Proof.
  intros (Hs & Hci & Hrel & Hdec & Hun)%process_begin_ok r'. split_and!.
  - unfold Teardown. case_match; apply lookup_delete_eq.
  - eexists. split; [apply lookup_insert_eq|done].
  - unfold ProcessCell. autorewrite with go_run. change (id r') with r'.
    unfold process_begin. rewrite Hdec. cbn [mbind result_bind]. rewrite Hci.
    unfold r' at 1. cbn [process_end set_session rl_sessions]. rewrite lookup_insert_eq.
    replace (rl_ID r') with (rl_ID r) by (unfold r', Teardown; by case_match).
    rewrite Hrel, String.eqb_refl. cbn [negb ss_LayerKey]. by rewrite Hun.
Qed.

(** ** What a relay shows *)

Lemma RecordExit_ok circuitID destination r r' :
  RecordExitDestination circuitID destination r = (r', Ok tt) <->
  (exists state, rl_sessions r !! circuitID = Some state /\ ss_Role state = Exit) /\
  Allows (rl_exitPolicy r) destination = true /\ r' = set_destination destination r.
Proof.
  unfold RecordExitDestination. autorewrite with go_run. change (id r) with r.
  destruct (rl_sessions r !! circuitID) as [state|]; [|naive_solver]. autorewrite with go_run.
  destruct (String.eqb_spec (ss_Role state) Exit) as [He|He]; cbn [negb].
  - destruct (Allows _ _); cbn [negb]; (split; [|intros (_ & Ha & ->)]); try done.
    intros [= <-]. split_and!; [by exists state|done..].
  - split; [done|]. intros ((state' & [= <-] & Hr) & _). done.
Qed.

Lemma Allows_spec p d : Allows p d = true <-> d ∈ p.
Proof.
  unfold Allows. destruct (Nat.eqb_spec (size p) 0) as [Hz|Hz].
  - apply size_empty_inv in Hz. split; [done|]. intros Hd. by apply Hz in Hd.
  - by rewrite bool_decide_eq_true.
Qed.

Lemma NewExitPolicy_spec allowed d : d ∈ NewExitPolicy allowed <-> d ∈ allowed /\ d <> "".
Proof.
  unfold NewExitPolicy.
  enough (forall acc, d ∈ foldl (fun out destination =>
      if String.eqb destination "" then out else {[destination]} ∪ out) acc allowed
      <-> d ∈ acc \/ (d ∈ allowed /\ d <> "")) as ->; [set_solver|].
  induction allowed as [|a allowed IH]; intros acc; cbn [foldl]; [set_solver|]. rewrite IH.
  destruct (String.eqb_spec a ""); set_solver.
Qed.

(** Only the exit of a circuit shows a destination.  A relay that is not an
    exit of the circuit shows none and no relay claims the full path; what an
    exit does show is the destination last recorded, and a recorded destination
    was allowed by the policy and belongs to a circuit the relay is the exit of. *)
Theorem visibility_limited circuitID r :
  let view := Relay_Visibility circuitID r in
  vs_KnowsFullPath view = false /\
  (vs_KnowsFinalDestination view = true <-> vs_Role view = Exit /\ rl_lastDestination r <> "") /\
  (vs_Role view <> Exit -> vs_FinalDestination view = "") /\
  (vs_KnowsClientConnection view = true -> vs_Role view = Entry) /\
  forall destination r', RecordExitDestination circuitID destination r = (r', Ok tt) ->
    destination ∈ rl_exitPolicy r /\ vs_Role view = Exit /\
    vs_FinalDestination (Relay_Visibility circuitID r') = destination.
Proof.
  cbv zeta. unfold Relay_Visibility. cbn [vs_KnowsFullPath vs_KnowsFinalDestination vs_Role
    vs_FinalDestination vs_KnowsClientConnection].
  set (s := default zero_session _). split_and!.
  - done.
  - by rewrite andb_true_iff, String.eqb_eq, negb_true_iff, String.eqb_neq.
  - intros Hne%String.eqb_neq. by rewrite Hne.
  - by intros [?%String.eqb_eq _]%andb_true_iff.
  - intros destination r' ((state & Hs & Hrole) & Ha%Allows_spec & ->)%RecordExit_ok.
    unfold s. cbn [set_destination rl_sessions rl_lastDestination]. rewrite Hs.
    change (default zero_session (Some state)) with state. by rewrite Hrole.
Qed.

(** An exit shows the destinations of other circuits.  The last destination is
    kept per relay and not per circuit: after a destination is recorded for one
    circuit, the relay shows it for every other circuit it is the exit of, also for
    one that never carried a cell. *)
Theorem destination_leaks c1 c2 destination r r' s2 :
  RecordExitDestination c1 destination r = (r', Ok tt) -> destination <> "" ->
  rl_sessions r !! c2 = Some s2 -> ss_Role s2 = Exit ->
  vs_FinalDestination (Relay_Visibility c2 r') = destination /\
  vs_KnowsFinalDestination (Relay_Visibility c2 r') = true.
Proof.
  intros (_ & _ & ->)%RecordExit_ok Hd%String.eqb_neq Hs Hr. unfold Relay_Visibility.
  cbn [set_destination rl_sessions rl_lastDestination vs_FinalDestination vs_KnowsFinalDestination].
  rewrite Hs. change (default zero_session (Some s2)) with s2. by rewrite Hr, Hd.
Qed.

(** ** A concrete relay *)

Definition demo_session (ci role : string) : SessionState :=
  mkSession ci "relay-7" role "relay-4" "" "k7" ("ext-" ++ ci) 0 "" 0.

Definition demo_exit : Relay :=
  mkRelay "relay-7" "singapore" (mkKEMPrivate "demo-kem" "kem-relay-7" (fun c => Ok c)) true
    {["c1" := demo_session "c1" Exit; "c2" := demo_session "c2" Exit]} {["ext-c1"; "ext-c2"]} ∅
    (NewExitPolicy ["local-echo:7000"]) "".

Definition demo_recorded : Relay := (RecordExitDestination "c1" "local-echo:7000" demo_exit).1.

Lemma visibility_limited_witness :
  vs_KnowsFullPath (Relay_Visibility "c1" demo_exit) = false /\
  vs_FinalDestination (Relay_Visibility "c1" demo_recorded) = "local-echo:7000".
Proof.
  split; [apply (visibility_limited "c1" demo_exit)|].
  apply (visibility_limited "c1" demo_exit). vm_compute. reflexivity.
Defined.

Lemma destination_leaks_witness :
  vs_FinalDestination (Relay_Visibility "c2" demo_recorded) = "local-echo:7000".
Proof.
  apply (destination_leaks "c1" "c2" "local-echo:7000" demo_exit demo_recorded (demo_session "c2" Exit)).
  - vm_compute. reflexivity.
  - done.
  - reflexivity.
  - reflexivity.
Defined.

Definition demo_entry : Relay :=
  mkRelay "relay-1" "nyc" demo_kem true ∅ ∅ ∅ ∅ "".

Definition demo_accepted : Relay * result SessionState :=
  AcceptExtension demo_extension.1 "client" "relay-4" demo_entry.

Lemma extension_once_witness :
  exists err, AcceptExtension demo_extension.1 "other" "relay-5" (Teardown "c1" demo_accepted.1)
              = (Teardown "c1" demo_accepted.1, Err err).
Proof.
  destruct (AcceptExtension demo_extension.1 "client" "relay-4" demo_entry) as [r' [s|e]] eqn:E.
  - replace demo_accepted with (r', Ok s) by (unfold demo_accepted; by rewrite E).
    apply (extension_once demo_extension.1 "client" "relay-4" demo_entry r' s (Teardown "c1" r') E).
    + apply rtc_once, step_teardown.
    + reflexivity.
  - exfalso. vm_compute in E. discriminate.
Defined.

Definition demo_cell_layer : LayerKey := mkLayerKey "relay-7" "k7".

Lemma teardown_undone_witness :
  exists e cell, WrapLayer demo_cell_layer "c1" 1 "data" 1 "hi" = Ok e /\
  is_ok (ProcessCell e (process_end "c1" cell (demo_session "c1" Exit) (Teardown "c1" demo_exit))).2 = true.
Proof.
  destruct (WrapLayer_ok demo_cell_layer "c1" 1 "data" 1 "hi") as [e He]; [done|].
  destruct (WrapLayer_spec demo_cell_layer "c1" 1 "data" 1 "hi" e) as (cell & Hdec & Hun & Hci & _ & _ & _ & Hr);
    [done|by repeat split|done|done|].
  exists e, cell. split; [done|].
  apply (teardown_undone e demo_exit "c1" cell (demo_session "c1" Exit) "hi").
  unfold process_begin. rewrite Hdec. cbn [mbind result_bind]. rewrite Hci.
  change (rl_sessions demo_exit !! "c1") with (Some (demo_session "c1" Exit)).
  rewrite Hr. cbn [lk_RelayID demo_cell_layer rl_ID demo_exit]. rewrite String.eqb_refl. cbn [negb].
  change (ss_LayerKey (demo_session "c1" Exit)) with (lk_Key demo_cell_layer). by rewrite Hun.
Defined.
