(* ===== verification/Socks5.v ===== *)
(** * The local SOCKS5 proxy: routing/socks5/socks5.go

    A connection is what the peer sends before it closes its side, the outcome of
    each write, and what was written.  The dialer is an operation on a state of the
    caller's; the state and the connection are threaded together. *)

From S2P Require Import Prelude Sha256 JsonDecode.
Local Open Scope string_scope.
Local Open Scope Z_scope.

Definition version5 : Z := 0x05.
Definition cmdConnect : Z := 0x01.
Definition atypIPv4 : Z := 0x01.
Definition atypDomain : Z := 0x03.

Record Request := mkRequest { rq_Command : Z; rq_Destination : string; rq_Payload : string }.

(** [cn_readErr] is what reading reports after the last byte, when it is not the
    end of the stream; [cn_writeErrs] are the outcomes of the next writes. *)
Record Conn := mkConn {
  cn_in : string;
  cn_readErr : option error;
  cn_writeErrs : list (option error);
  cn_out : string;
  cn_closed : bool
}.

Definition EOF : error := mkError (Some io_EOF) "EOF".
Definition ErrUnexpectedEOF : error := mkError (Some "io.ErrUnexpectedEOF") "unexpected EOF".

(** [io.ReadFull] into a buffer of [n] bytes. *)
Definition ReadFull (n : nat) : M Conn string := fun c =>
  let l := String.length (cn_in c) in
  if Nat.leb n l then
    (mkConn (String.substring n (l - n) (cn_in c)) (cn_readErr c) (cn_writeErrs c) (cn_out c) (cn_closed c),
     Ok (prefix n (cn_in c)))
  else
    (mkConn "" (cn_readErr c) (cn_writeErrs c) (cn_out c) (cn_closed c),
     Err (match cn_readErr c with
          | Some e => e
          | None => if String.eqb (cn_in c) "" then EOF else ErrUnexpectedEOF
          end)).

(** [io.ReadAll]. *)
Definition ReadAll : M Conn string := fun c =>
  (mkConn "" (cn_readErr c) (cn_writeErrs c) (cn_out c) (cn_closed c),
   match cn_readErr c with Some e => Err e | None => Ok (cn_in c) end).

Definition Write (data : string) : M Conn unit := fun c =>
  match cn_writeErrs c with
  | Some e :: errs => (mkConn (cn_in c) (cn_readErr c) errs (cn_out c) (cn_closed c), Err e)
  | None :: errs => (mkConn (cn_in c) (cn_readErr c) errs (cn_out c ++ data) (cn_closed c), Ok tt)
  | [] => (mkConn (cn_in c) (cn_readErr c) [] (cn_out c ++ data) (cn_closed c), Ok tt)
  end.

Definition CloseConn (c : Conn) : Conn :=
  mkConn (cn_in c) (cn_readErr c) (cn_writeErrs c) (cn_out c) true.

(** Byte [i] of a string that has one. *)
Definition byte_at (i : nat) (s : string) : Z :=
  match String.get i s with Some a => code a | None => 0 end.

(** The verb [%02x] on a byte. *)
Definition hex2 (b : Z) : string := Hex.EncodeToString (string_of_bytes [b]).

(** [net.IP.String] of four bytes, and [net.JoinHostPort]. *)
Definition ipv4_string (ip : string) : string :=
  itoa (byte_at 0 ip) ++ "." ++ itoa (byte_at 1 ip) ++ "." ++ itoa (byte_at 2 ip) ++ "." ++ itoa (byte_at 3 ip).

Definition JoinHostPort (host port : string) : string :=
  if contains_byte ":" host then "[" ++ host ++ "]:" ++ port else host ++ ":" ++ port.

Definition readGreeting : M Conn unit :=
  header ← ReadFull 2;
  _ ← guard_err (negb (byte_at 0 header =? version5))
        (errors_New ("unsupported SOCKS version 0x" ++ hex2 (byte_at 0 header)));
  _ ← ReadFull (Z.to_nat (byte_at 1 header));
  mret tt.

Definition readHost (atyp : Z) : M Conn string :=
  if atyp =? atypDomain then
    length ← ReadFull 1;
    ReadFull (Z.to_nat (byte_at 0 length))
  else if atyp =? atypIPv4 then
    ip ← ReadFull 4;
    mret (ipv4_string ip)
  else raise (errors_New ("unsupported SOCKS address type 0x" ++ hex2 atyp)).

Definition readConnectRequest : M Conn (Z * string) :=
  header ← ReadFull 4;
  _ ← guard_err (negb (byte_at 0 header =? version5))
        (errors_New ("unsupported SOCKS version 0x" ++ hex2 (byte_at 0 header)));
  host ← readHost (byte_at 3 header);
  portBytes ← ReadFull 2;
  mret (byte_at 1 header, JoinHostPort host (itoa (256 * byte_at 0 portBytes + byte_at 1 portBytes))).

Definition writeReply (status : Z) : M Conn unit :=
  Write (string_of_bytes [version5; status; 0x00; atypIPv4; 0; 0; 0; 0; 0; 0]).

Section proxy.
Context {S : Type}.

(** A nil dialer or policy is [None]. *)
Record Proxy := mkProxy {
  px_Dialer : option (option error -> string -> string -> M S string);
  px_Allow : option (S -> string -> bool)
}.

Definition unsupported_command (command : Z) : error :=
  errors_New ("unsupported SOCKS5 command 0x" ++ hex2 command).

Definition rejected (destination : string) : error :=
  errors_New ("destination " ++ destination ++ " rejected by local exit policy").

(** [p.Allow != nil && !p.Allow(destination)]. *)
Definition denied (p : Proxy) (destination : string) (s : S) : bool :=
  match px_Allow p with Some allow => negb (allow s destination) | None => false end.

Definition Handle (p : Proxy) (ctx : option error) (req : Request) : M S string :=
  _ ← guard_err (negb (rq_Command req =? cmdConnect)) (unsupported_command (rq_Command req));
  _ ← guard_err (String.eqb (rq_Destination req) "") (errors_New "SOCKS5 destination is required");
  no ← gets (denied p (rq_Destination req));
  _ ← guard_err no (rejected (rq_Destination req));
  match px_Dialer p with
  | None => raise (errors_New "SOCKS5 dialer is required")
  | Some dial => dial ctx (rq_Destination req) (rq_Payload req)
  end.

Definition on_conn {A} (m : M Conn A) : M (S * Conn) A := fun '(s, c) =>
  let '(c', a) := m c in ((s, c'), a).

Definition on_state {A} (m : M S A) : M (S * Conn) A := fun '(s, c) =>
  let '(s', a) := m s in ((s', c), a).

(** What [ServeConn] does between taking the connection and closing it. *)
Definition serve (p : Proxy) (ctx : option error) : M (S * Conn) unit :=
  _ ← on_conn readGreeting;
  _ ← on_conn (Write (string_of_bytes [version5; 0x00]));
  request ← on_conn (attempt readConnectRequest);
  match request with
  | Err e => _ ← on_conn (attempt (writeReply 0x01)); raise e
  | Ok (command, destination) =>
      if negb (command =? cmdConnect) then
        _ ← on_conn (attempt (writeReply 0x07)); raise (unsupported_command command)
      else
        no ← on_state (gets (denied p destination));
        if no : bool then
          _ ← on_conn (attempt (writeReply 0x02)); raise (rejected destination)
        else
          _ ← on_conn (writeReply 0x00);
          payload ← on_conn ReadAll;
          response ← on_state (Handle p ctx (mkRequest command destination payload));
          on_conn (Write response)
  end.

Definition ServeConn (p : Proxy) (ctx : option error) : M (S * Conn) unit := fun sc =>
  let '((s, c), r) := serve p ctx sc in ((s, CloseConn c), r).

(** ** What the proxy dials *)

(** Operations that leave the state alone, and operations that leave it as allowed. *)
Definition calm {A} (m : M (S * Conn) A) : Prop := forall s c, (m (s, c)).1.1 = s.

Definition dialed (p : Proxy) (ctx : option error) (s s' : S) : Prop :=
  s' = s \/
  exists dial destination payload, px_Dialer p = Some dial /\ destination <> "" /\
    denied p destination s = false /\ s' = (dial ctx destination payload s).1.

Definition safe {A} (p : Proxy) (ctx : option error) (s : S) (m : M (S * Conn) A) : Prop :=
  forall c, dialed p ctx s (m (s, c)).1.1.

Lemma calm_conn {A} (m : M Conn A) : calm (on_conn m).
Proof. intros s c. unfold on_conn. by destruct (m c). Qed.

Lemma calm_bind {A B} (m : M (S * Conn) A) (f : A -> M (S * Conn) B) :
  calm m -> (forall a, calm (f a)) -> calm (m ≫= f).
Proof.
  intros Hm Hf s c. rewrite run_bind. specialize (Hm s c).
  destruct (m (s, c)) as [[s1 c1] [a|e]]; cbn in Hm |- *; [|done]. subst s1. apply Hf.
Qed.

Lemma calm_raise {A} e : calm (raise e : M (S * Conn) A).
Proof. by intros s c. Qed.

Lemma calm_safe {A} p ctx s (m : M (S * Conn) A) : calm m -> safe p ctx s m.
Proof. intros Hm c. left. apply Hm. Qed.

Lemma safe_after {A B} p ctx s (m : M (S * Conn) A) (f : A -> M (S * Conn) B) :
  calm m -> (forall a, safe p ctx s (f a)) -> safe p ctx s (m ≫= f).
Proof.
  intros Hm Hf c. rewrite run_bind. specialize (Hm s c).
  destruct (m (s, c)) as [[s1 c1] [a|e]]; cbn in Hm |- *; [|by left]. subst s1. apply Hf.
Qed.

Lemma safe_before {A B} p ctx s (m : M (S * Conn) A) (f : A -> M (S * Conn) B) :
  safe p ctx s m -> (forall a, calm (f a)) -> safe p ctx s (m ≫= f).
Proof.
  intros Hm Hf c. rewrite run_bind. specialize (Hm c).
  destruct (m (s, c)) as [[s1 c1] [a|e]]; cbn in Hm |- *; [|done]. by rewrite Hf.
Qed.

Lemma safe_Handle p ctx req s : safe p ctx s (on_state (Handle p ctx req)).
Proof.
  intros c. unfold on_state. destruct (Handle p ctx req s) as [s' a] eqn:E. cbn [fst].
  unfold Handle in E. autorewrite with go_run in E.
  destruct (negb (rq_Command req =? cmdConnect)); [injection E as <- _; by left|].
  destruct (String.eqb_spec (rq_Destination req) "") as [|Hne]; [injection E as <- _; by left|].
  destruct (denied p _ s) eqn:Hd; [injection E as <- _; by left|].
  destruct (px_Dialer p) as [dial|] eqn:Hdial; [|injection E as <- _; by left].
  right. exists dial, (rq_Destination req), (rq_Payload req). by rewrite E.
Qed.

(** The proxy opens circuits for nothing else than allowed CONNECT requests.
    Whatever bytes a client sends, and whatever writes fail, the connection is
    closed, and either the state behind the proxy is untouched, or the dialer was
    called once, for a destination that is not empty and that the policy allows, with
    what the client sent after its request. *)
Theorem ServeConn_safe p ctx s c :
  let '((s', c'), r) := ServeConn p ctx (s, c) in cn_closed c' = true /\ dialed p ctx s s'.
Proof.
  unfold ServeConn. destruct (serve p ctx (s, c)) as [[s' c'] r] eqn:E. split; [done|].
  enough (Hs : safe p ctx s (serve p ctx)) by (specialize (Hs c); by rewrite E in Hs). clear.
  unfold serve. apply safe_after; [apply calm_conn|]. intros _.
  apply safe_after; [apply calm_conn|]. intros _. apply safe_after; [apply calm_conn|].
  intros [[command destination]|e]; [|apply calm_safe, calm_bind; [apply calm_conn|intros _; apply calm_raise]].
  destruct (negb _); [apply calm_safe, calm_bind; [apply calm_conn|intros _; apply calm_raise]|].
  apply safe_after; [by intros s0 c|]. intros [|]; [apply calm_safe, calm_bind; [apply calm_conn|intros _; apply calm_raise]|].
  apply safe_after; [apply calm_conn|]. intros _. apply safe_after; [apply calm_conn|]. intros payload.
  apply safe_before; [apply safe_Handle|]. intros response. apply calm_conn.
Qed.
End proxy.
