(* ===== verification/Testbed.v ===== *)
(** * The routing testbed: routing/testbed/testbed.go

    Seven relays in one process, circuits of three of them, and a client that
    sends payloads to local services through a circuit.  The relays are shared by
    the topology and the runtime of a circuit: the model threads their map.  A
    [context.Context] is the error it reports.  A nil relay is a panic. *)

From S2P Require Import Prelude Sha256 Json JsonParse JsonDecode Identity Codec Gcm Circuit Stream Relay.
Local Open Scope Z_scope.
Local Open Scope string_scope.

Definition DestinationEcho : string := "local-echo:7000".
Definition DestinationHTTP : string := "local-http:8080".

Record ServiceRequest := mkServiceRequest {
  sv_ExitRelayID : string;
  sv_Destination : string;
  sv_Payload : string
}.

Definition Service : Type := ServiceRequest -> result string.

Record Topology := mkTopology { tp_Suite : CryptoSuite; tp_Relays : gmap string Relay }.

Record Runtime := mkRuntime {
  rt_CircuitID : string;
  rt_Path : list string;
  rt_Relays : gmap string Relay;
  rt_Layers : list LayerKey;
  rt_Streams : Stream.Manager;
  rt_Services : gmap string Service;
  rt_Opened : Z;
  rt_Completed : Z
}.

Definition exitPayload_json (destination body : string) : json :=
  JObj [("destination", JStr destination); ("body", JBytes body)].

Definition exitPayload_of (fs : list (string * json)) : result (string * string) :=
  destination ← get_string "destination" fs;
  body ← get_bytes "body" fs;
  Ok (destination, body).

Definition regionForRelay (id : string) : string :=
  if bool_decide (id ∈ ["relay-1"; "relay-2"]) then "nyc"
  else if bool_decide (id ∈ ["relay-3"; "relay-4"]) then "london"
  else if bool_decide (id ∈ ["relay-5"; "relay-6"; "relay-7"]) then "singapore"
  else "unknown".

Definition relay_names : list string := map (fun i => "relay-" ++ itoa (Z.of_nat i)) (seq 1 7).

(** One turn of the loop of [NewSevenRelayTopology]. *)
Definition add_relay (selected : CryptoSuite) (acc : result (gmap string Relay)) (id : string)
    : result (gmap string Relay) :=
  relays ← acc;
  r ← NewRelayForSuite id (regionForRelay id) selected;
  let r := Start r in
  let r := if String.eqb id "relay-7"
           then SetExitPolicy (NewExitPolicy [DestinationEcho; DestinationHTTP]) r else r in
  Ok (<[id := r]> relays).

Definition NewSevenRelayTopology (selected : CryptoSuite) : result Topology :=
  relays ← foldl (add_relay selected) (Ok ∅) relay_names;
  Ok (mkTopology selected relays).

Definition NewSevenRelayTopologyFromEnv (selected : result CryptoSuite) : result Topology :=
  selected ← selected; NewSevenRelayTopology selected.

(** ** Services *)

Definition crlf : string := string_of_bytes [13; 10].

Definition echo_service : Service := fun req =>
  Ok ("echo from " ++ sv_ExitRelayID req ++ ": " ++ sv_Payload req).

Definition http_service : Service := fun req =>
  let body := "region-test exit=" ++ sv_ExitRelayID req ++ " destination=" ++ sv_Destination req ++
              string_of_bytes [10] in
  Ok ("HTTP/1.1 200 OK" ++ crlf ++ "X-Exit-Relay: " ++ sv_ExitRelayID req ++ crlf ++ "Content-Length: " ++
      itoa (len body) ++ crlf ++ crlf ++ body).

Definition defaultServices : gmap string Service :=
  {[DestinationEcho := echo_service; DestinationHTTP := http_service]}.

(** ** Building a circuit *)

(** A method call on a relay of the map. *)
Definition on_relay {A} (id : string) (m : M Relay A) : M (gmap string Relay) A := fun relays =>
  match relays !! id with
  | None => (relays, panic "runtime error: invalid memory address or nil pointer dereference")
  | Some r => let '(r', a) := m r in (<[id := r']> relays, a)
  end.

(** A hop of the path: its relay, role, neighbours, and what the random source
    yields for it. *)
Record PathHop := mkPathHop {
  ph_RelayID : string;
  ph_Role : string;
  ph_Previous : string;
  ph_Next : string;
  ph_Drawn : string
}.

Definition extend (suite : CryptoSuite) (circuitID : string) (hop : PathHop)
    : M (gmap string Relay) LayerKey :=
  relays ← gets id;
  match relays !! ph_RelayID hop with
  | None => raise (errors_New ("unknown relay " ++ ph_RelayID hop))
  | Some r =>
      '(extension, layerKey) ← lift (CreateExtension circuitID (ph_RelayID hop) (ph_Role hop) (PublicKey r)
                                       (Some (cs_NewKEMPublic suite)) (ph_Drawn hop));
      _ ← on_relay (ph_RelayID hop) (AcceptExtension extension (ph_Previous hop) (ph_Next hop));
      mret (mkLayerKey (ph_RelayID hop) layerKey)
  end.

Fixpoint extend_all (suite : CryptoSuite) (circuitID : string) (hops : list PathHop)
    : M (gmap string Relay) (list LayerKey) :=
  match hops with
  | [] => mret []
  | hop :: hops =>
      layer ← extend suite circuitID hop;
      layers ← extend_all suite circuitID hops;
      mret (layer :: layers)
  end.

(** [path] has three relays; the topology's relays change with the circuit's. *)
Definition BuildCircuit (path : list string) (drawn : string * string * string) (t : Topology)
    : Topology * result Runtime :=
  match path with
  | [p0; p1; p2] =>
      let circuitID := NewCircuitID path in
      let '(relays, layers) := extend_all (tp_Suite t) circuitID
        [mkPathHop p0 Entry "client" p1 drawn.1.1; mkPathHop p1 Middle p0 p2 drawn.1.2;
         mkPathHop p2 Exit p1 "" drawn.2] (tp_Relays t) in
      (mkTopology (tp_Suite t) relays,
       layers ← layers;
       Ok (mkRuntime circuitID path relays (rev layers) Stream.NewManager defaultServices 0 0))
  | _ => (t, Err (errorf ["testbed circuit requires exactly 3 relays, got ";
                          itoa (Z.of_nat (length path))]))
  end.

(** ** Sending through a circuit *)

Definition set_relays (relays : gmap string Relay) (r : Runtime) : Runtime :=
  mkRuntime (rt_CircuitID r) (rt_Path r) relays (rt_Layers r) (rt_Streams r) (rt_Services r)
    (rt_Opened r) (rt_Completed r).

Definition set_streams (streams : Stream.Manager) (opened : Z) (r : Runtime) : Runtime :=
  mkRuntime (rt_CircuitID r) (rt_Path r) (rt_Relays r) (rt_Layers r) streams (rt_Services r)
    opened (rt_Completed r).

Definition count_completed (r : Runtime) : Runtime :=
  mkRuntime (rt_CircuitID r) (rt_Path r) (rt_Relays r) (rt_Layers r) (rt_Streams r) (rt_Services r)
    (rt_Opened r) (i64 (rt_Completed r + 1)).

Definition with_relays {A} (m : M (gmap string Relay) A) : M Runtime A := fun r =>
  let '(relays, a) := m (rt_Relays r) in (set_relays relays r, a).

(** The loop over the path. *)
Fixpoint forward (path : list string) (encoded : string) : M (gmap string Relay) string :=
  match path with
  | [] => mret encoded
  | relayID :: path =>
      '(encoded, _) ← on_relay relayID (ProcessCell encoded);
      forward path encoded
  end.

(** What [Send] does with the destination that left the circuit. *)
Definition respond (streamID : Z) (dest body exitID : string) (r : Runtime) : M Runtime string :=
  service ← lift (match rt_Services r !! dest with
                  | Some service => Ok service
                  | None => fail ("no local test service registered for " ++ dest) end);
  exitName ← gets (fun r => default "" (rl_ID <$> rt_Relays r !! exitID));
  response ← lift (service (mkServiceRequest exitName dest body));
  wrapped ← lift (WrapLayers (rt_Layers r) (rt_CircuitID r) streamID "response" (u64 (rt_Opened r)) response);
  plaintext ← lift (UnwrapLayers (rt_Layers r) wrapped);
  _ ← modify count_completed;
  mret plaintext.

(** The body of [Send] once the stream is open. *)
Definition send_on (streamID : Z) (ctx : option error) (destination payload : string) : M Runtime string :=
  _ ← lift (match ctx with Some e => Err e | None => Ok tt end);
  r ← gets id;
  payloadJSON ← lift (CanonicalJSON (exitPayload_json destination payload));
  encoded ← lift (WrapLayers (rt_Layers r) (rt_CircuitID r) streamID "data" (u64 (rt_Opened r)) payloadJSON);
  encoded ← with_relays (forward (rt_Path r) encoded);
  '(dest, body) ← lift (Unmarshal exitPayload_of encoded);
  exitID ← lift (match nth_error (rt_Path r) 2 with
                 | Some id => Ok id | None => panic "runtime error: index out of range" end);
  _ ← with_relays (on_relay exitID (RecordExitDestination (rt_CircuitID r) dest));
  respond streamID dest body exitID r.

(** The stream is closed when the call returns. *)
Definition Send (ctx : option error) (destination payload : string) : M Runtime string := fun r =>
  match Stream.Open (rt_Streams r) with
  | (streams, Err e) => (set_streams streams (rt_Opened r) r, Err e)
  | (streams, Ok streamID) =>
      let r := set_streams streams (i64 (rt_Opened r + 1)) r in
      let '(r, res) := send_on streamID ctx destination payload r in
      (set_streams (Stream.Close streamID (rt_Streams r)).1 (rt_Opened r) r, res)
  end.

Definition DialThroughCircuit := Send.

Definition nil_relay : Visibility := mkVisibility "" "" "" "" "" false false false "" false 0 "".

(** The views of the path; a path has only relays of the map. *)
Definition Runtime_Visibility (r : Runtime) : list Visibility :=
  map (fun relayID => match rt_Relays r !! relayID with
                      | Some relay => Relay_Visibility (rt_CircuitID r) relay
                      | None => nil_relay end) (rt_Path r).

Definition Runtime_Teardown (r : Runtime) : Runtime :=
  let relays := foldl (fun relays relayID => alter (Teardown (rt_CircuitID r)) relayID relays)
                  (rt_Relays r) (rt_Path r) in
  set_streams (Stream.CloseAll (rt_Streams r)) (rt_Opened r) (set_relays relays r).

(** ** What sending amounts to

    The call a client means: the exit's policy, then the service, the onion layers
    and the circuit being of no consequence. *)

Definition direct_call (policy : ExitPolicy) (services : gmap string Service) (exitID destination payload : string)
    : result string :=
  if negb (Allows policy destination) then
    fail ("destination " ++ destination ++ " is not allowed by exit policy")
  else
    match services !! destination with
    | None => fail ("no local test service registered for " ++ destination)
    | Some service =>
        response ← service (mkServiceRequest exitID destination payload);
        if String.eqb response "" then fail "cell encryption material is incomplete" else Ok response
    end.

(** Two relays that serve the same circuits with the same keys under one policy. *)
Record alike (r r' : Relay) : Prop := {
  al_ID : rl_ID r' = rl_ID r;
  al_policy : rl_exitPolicy r' = rl_exitPolicy r;
  al_destination : rl_lastDestination r' = rl_lastDestination r;
  al_sessions : forall ci, (fun s => (ss_LayerKey s, ss_Role s)) <$> rl_sessions r' !! ci
                           = (fun s => (ss_LayerKey s, ss_Role s)) <$> rl_sessions r !! ci
}.

#[export] Instance alike_preorder : PreOrder alike.
Proof.
  split; [by constructor|]. intros r1 r2 r3 [E1 E2 E3 E4] [F1 F2 F3 F4].
  constructor; [congruence..|]. intros ci. by rewrite F4, E4.
Qed.

Definition all_alike (m m' : gmap string Relay) : Prop :=
  forall id, option_Forall2 alike (m !! id) (m' !! id).

#[export] Instance all_alike_preorder : PreOrder all_alike.
Proof.
  split; [intros m id; by destruct (m !! id); constructor|].
  intros m1 m2 m3 H12 H23 id. specialize (H12 id). specialize (H23 id).
  inversion H12 as [r1 r2 Ha E1 E2|E1 E2]; rewrite <-E2 in H23; inversion H23; constructor.
  by transitivity r2.
Qed.

(** The relay of a layer has the circuit's session, with its key. *)
Definition serves (ci role : string) (m : gmap string Relay) (l : LayerKey) : Prop :=
  exists r s, m !! lk_RelayID l = Some r /\ rl_ID r = lk_RelayID l /\ rl_sessions r !! ci = Some s /\
    ss_LayerKey s = lk_Key l /\ (role = "" \/ ss_Role s = role).

Lemma serves_alike ci role m m' l : all_alike m m' -> serves ci role m l -> serves ci role m' l.
Proof.
  intros Hm (r & s & Hr & Hid & Hs & Hk & Hro). specialize (Hm (lk_RelayID l)). rewrite Hr in Hm.
  inversion Hm as [x r' [E1 E2 E3 E4] Ex Er'|]; subst x. specialize (E4 ci). rewrite Hs in E4.
  destruct (rl_sessions r' !! ci) as [s'|] eqn:Es'; [|done]. injection E4 as E4 E5.
  exists r', s'. split_and!; congruence.
Qed.

Lemma process_end_alike ci cell s r :
  rl_sessions r !! ci = Some s -> alike r (process_end ci cell s r).
Proof.
  intros Hs. constructor; [done..|]. intros c. cbn [process_end set_session rl_sessions].
  destruct (decide (c = ci)) as [->|Hne]; [by rewrite lookup_insert_eq, Hs|by rewrite lookup_insert_ne].
Qed.

Lemma insert_alike m id r r' : m !! id = Some r -> alike r r' -> all_alike m (<[id := r']> m).
Proof.
  intros Hr Ha i. destruct (decide (i = id)) as [->|Hne].
  - rewrite Hr, lookup_insert_eq. by constructor.
  - rewrite lookup_insert_ne by done. destruct (m !! i); by constructor.
Qed.

(** One relay of the path takes its layer off. *)
Lemma on_relay_layer ci st pt sq p e l m :
  serves ci "" m l -> layer_wf l -> header_wf ci st pt sq -> p <> "" -> WrapLayer l ci st pt sq p = Ok e ->
  exists cell m', on_relay (lk_RelayID l) (ProcessCell e) m = (m', Ok (p, cell)) /\ all_alike m m'.
Proof.
  intros (r & s & Hr & Hid & Hs & Hk & _) Hw Hh Hp He.
  destruct (ProcessCell_layer r l ci st pt sq p e s) as (cell & Hc & _); try done.
  exists cell. eexists. unfold on_relay. rewrite Hr, Hc. split; [done|].
  apply (insert_alike _ _ r); [done|]. by apply process_end_alike.
Qed.

(** The path takes all the layers off. *)
Lemma forward_layers ci st pt sq ls : forall p e m,
  Forall (serves ci "" m) ls -> Forall layer_wf ls -> header_wf ci st pt sq -> p <> "" ->
  foldl (fun out layer => out ← out; WrapLayer layer ci st pt sq out) (Ok p) (rev ls) = Ok e ->
  exists m', forward (map lk_RelayID ls) e m = (m', Ok p) /\ all_alike m m'.
Proof.
  induction ls as [|l ls IH]; intros p e m Hserve Hwf Hh Hp He.
  - cbn in He |- *. injection He as <-. by exists m.
  - apply Forall_cons in Hserve as [Hl Hserve], Hwf as [Hw Hwf]. cbn [rev] in He. rewrite foldl_app in He.
    destruct (wrap_fold (rev ls) ci st pt sq p) as (e' & He' & Hne & _); [by apply Forall_rev|done..|].
    rewrite He' in He. cbn [foldl mbind result_bind] in He.
    destruct (on_relay_layer ci st pt sq e' e l m) as (cell & m1 & Hc & Hm1); try done.
    destruct (IH p e' m1) as (m2 & Hf & Hm2); try done.
    { eapply Forall_impl; [exact Hserve|]. intros l' Hl'. by eapply serves_alike. }
    exists m2. cbn [map forward]. rewrite run_bind, Hc. split; [done|by transitivity m1].
Qed.

(** A runtime whose relays agree with its layers. *)
Record runtime_ok (r : Runtime) : Prop := {
  ro_hops : exists l0 l1 l2, rt_Layers r = [l2; l1; l0] /\ rt_Path r = map lk_RelayID [l0; l1; l2] /\
    Forall layer_wf [l0; l1; l2] /\ Forall (serves (rt_CircuitID r) "" (rt_Relays r)) [l0; l1; l2] /\
    serves (rt_CircuitID r) Exit (rt_Relays r) l2;
  ro_circuit : utf8 (rt_CircuitID r) = true /\ blank (rt_CircuitID r) = false;
  ro_streams : sm_closed (rt_Streams r) = false /\ is_u64 (sm_next (rt_Streams r))
}.

Definition exit_relay (r : Runtime) : option Relay := id ← nth_error (rt_Path r) 2; rt_Relays r !! id.

Lemma exitPayload_roundtrip destination body :
  utf8 destination = true ->
  Unmarshal exitPayload_of (Marshal (exitPayload_json destination body)) = Ok (destination, body).
Proof.
  intros Hd. apply Unmarshal_Marshal.
  - unfold exitPayload_json. json_ok_tac. apply base64_utf8.
  - unfold exitPayload_json, dec_struct, exitPayload_of. read_struct. read_next; [|done].
    rewrite get_here by done. apply Base64.DecodeString_EncodeToString.
Qed.

Lemma exitPayload_nonempty destination body :
  utf8 destination = true -> Marshal (exitPayload_json destination body) <> "".
Proof. intros Hd. apply Marshal_nonempty. unfold exitPayload_json. json_ok_tac. apply base64_utf8. Qed.

(** Recording a destination changes no session. *)
Lemma serves_destination ci role m id r d l :
  m !! id = Some r -> serves ci role m l -> serves ci role (<[id := set_destination d r]> m) l.
Proof.
  intros Hr (r0 & s & Hr0 & Hrest). destruct (decide (id = lk_RelayID l)) as [->|Hne].
  - rewrite Hr in Hr0. injection Hr0 as <-. exists (set_destination d r), s. split; [apply lookup_insert_eq|done].
  - exists r0, s. by rewrite lookup_insert_ne.
Qed.

Lemma RecordExit_run ci destination r s :
  rl_sessions r !! ci = Some s -> ss_Role s = Exit ->
  RecordExitDestination ci destination r
  = if Allows (rl_exitPolicy r) destination then (set_destination destination r, Ok tt)
    else (r, Err (errors_New ("destination " ++ destination ++ " is not allowed by exit policy"))).
Proof.
  intros Hs Hr. unfold RecordExitDestination. autorewrite with go_run. change (id r) with r.
  rewrite Hs. autorewrite with go_run. rewrite Hr. by destruct (Allows _ _).
Qed.

(** The response comes back through the layers, unless it has no bytes. *)
Lemma response_layers l0 l1 l2 ci st pt sq p :
  Forall layer_wf [l0; l1; l2] -> header_wf ci st pt sq ->
  (wrapped ← WrapLayers [l2; l1; l0] ci st pt sq p; UnwrapLayers [l2; l1; l0] wrapped)
  = if String.eqb p "" then fail "cell encryption material is incomplete" else Ok p.
Proof.
  intros Hw%Forall_rev Hh. cbn [rev app] in Hw. destruct (String.eqb_spec p "") as [->|Hp].
  - apply Forall_cons in Hw as [W2 Hw].
    destruct (WrapLayer_ok l2 ci st pt sq "") as [e Hin]; [apply W2|].
    destruct (wrap_fold [l1; l0] ci st pt sq e) as (out & Hout & _ & Hun); [done|done| |].
    { by eapply WrapLayer_nonempty. }
    unfold WrapLayers, UnwrapLayers. cbn [is_nil foldl mbind result_bind rev app] in *.
    rewrite Hin. cbn [mbind result_bind] in *. rewrite Hout. cbn [mbind result_bind].
    rewrite Hun. cbn [mbind result_bind]. by rewrite (empty_payload l2 ci st pt sq e).
  - destruct (wrap_fold [l2; l1; l0] ci st pt sq p) as (e & He & _ & Hu); [done..|].
    unfold WrapLayers, UnwrapLayers. cbn [is_nil]. rewrite He. exact Hu.
Qed.

Lemma respond_run r r0 x streamID dest body exitID l0 l1 l2 :
  rt_Layers r = [l2; l1; l0] -> Forall layer_wf [l0; l1; l2] ->
  header_wf (rt_CircuitID r) streamID "response" (u64 (rt_Opened r)) -> rt_Relays r0 !! exitID = Some x ->
  let res := match rt_Services r !! dest with
             | None => fail ("no local test service registered for " ++ dest)
             | Some service =>
                 response ← service (mkServiceRequest (rl_ID x) dest body);
                 if String.eqb response "" then fail "cell encryption material is incomplete" else Ok response
             end in
  respond streamID dest body exitID r r0 = (if is_ok res then count_completed r0 else r0, res).
Proof.
  intros Hl Hwf Hh Hx res. unfold respond, res. autorewrite with go_run.
  destruct (rt_Services r !! dest) as [service|]; [|done]. autorewrite with go_run.
  rewrite Hx. change (default "" (rl_ID <$> Some x)) with (rl_ID x).
  destruct (service _) as [p|e]; [|done]. cbn [mbind result_bind]. rewrite Hl.
  pose proof (response_layers l0 l1 l2 _ _ _ _ p Hwf Hh) as Hres. autorewrite with go_run.
  destruct (WrapLayers _ _ _ _ _ p) as [w|e]; cbn [mbind result_bind] in Hres.
  - autorewrite with go_run. rewrite Hres. by destruct (String.eqb p "").
  - rewrite <-Hres. done.
Qed.

Definition after (relays : gmap string Relay) (ok : bool) (r : Runtime) : Runtime :=
  let r := set_relays relays r in if ok then count_completed r else r.

Lemma send_on_run r x streamID destination payload :
  runtime_ok r -> exit_relay r = Some x -> utf8 destination = true -> is_u64 streamID ->
  let res := direct_call (rl_exitPolicy x) (rt_Services r) (rl_ID x) destination payload in
  exists relays, send_on streamID None destination payload r = (after relays (is_ok res) r, res) /\
    (forall role l, serves (rt_CircuitID r) role (rt_Relays r) l -> serves (rt_CircuitID r) role relays l) /\
    exists x', (id ← nth_error (rt_Path r) 2; relays !! id) = Some x' /\ rl_ID x' = rl_ID x /\
      rl_exitPolicy x' = rl_exitPolicy x /\
      rl_lastDestination x' = if Allows (rl_exitPolicy x) destination then destination else rl_lastDestination x.
Proof.
  intros [(l0 & l1 & l2 & Hl & Hpath & Hwf & Hserve & Hexit) [Hci Hb] _] Hx Hd Hst res.
  assert (Hh : forall pt, utf8 pt = true -> header_wf (rt_CircuitID r) streamID pt (u64 (rt_Opened r))).
  { intros pt Hpt. split_and!; [done..|apply u64_range]. }
  unfold exit_relay in Hx. rewrite Hpath in Hx |- *. cbn [nth_error map] in Hx |- *.
  change (mbind ?f (Some ?y)) with (f y) in Hx |- *.
  set (p := Marshal (exitPayload_json destination payload)).
  assert (Hp : p <> "") by (by apply exitPayload_nonempty).
  pose proof (Forall_rev Hwf) as Hrev. cbn [rev app] in Hrev.
  destruct (wrap_fold [l2; l1; l0] (rt_CircuitID r) streamID "data" (u64 (rt_Opened r)) p)
    as (e & He & _ & _); [done|by apply Hh|done|].
  destruct (forward_layers (rt_CircuitID r) streamID "data" (u64 (rt_Opened r)) [l0; l1; l2] p e (rt_Relays r))
    as (m & Hf & Hm); [done|done|by apply Hh|done|done|].
  assert (exists x1, m !! lk_RelayID l2 = Some x1 /\ alike x x1) as (x1 & Hx1 & [A1 A2 A3 A4]).
  { specialize (Hm (lk_RelayID l2)). rewrite Hx in Hm. inversion Hm; subst; eauto. }
  pose proof (serves_alike _ _ _ _ _ Hm Hexit) as (x2 & s & Hx2 & _ & Hs & _ & [?|Hrole]); [done|].
  rewrite Hx1 in Hx2. injection Hx2 as <-.
  unfold send_on. autorewrite with go_run. change (id r) with r. rewrite Hl, Hpath.
  unfold CanonicalJSON. fold p.
  replace (WrapLayers _ _ _ _ _ p) with (Ok e) by (unfold WrapLayers; cbn [is_nil]; by rewrite He).
  autorewrite with go_run. rewrite run_bind. unfold with_relays at 1. rewrite Hf. unfold p. rewrite exitPayload_roundtrip by done.
  autorewrite with go_run. cbn [nth_error map]. autorewrite with go_run.
  rewrite run_bind. unfold with_relays at 1, on_relay. cbn [set_relays rt_Relays]. rewrite Hx1.
  rewrite (RecordExit_run _ _ _ s) by done. subst res. unfold direct_call. rewrite A2.
  destruct (Allows (rl_exitPolicy x) destination) eqn:Ha; cbn [negb].
  - set (relays := <[lk_RelayID l2:=set_destination destination x1]> m).
    exists relays. split; [|split].
    + rewrite (respond_run r _ (set_destination destination x1) _ _ _ _ l0 l1 l2 Hl Hwf);
        [|by apply Hh|apply lookup_insert_eq].
      cbn [set_destination rl_ID]. rewrite A1. by destruct (is_ok _).
    + intros role l Hrl. apply serves_destination; [done|]. by eapply serves_alike.
    + exists (set_destination destination x1). split; [apply lookup_insert_eq|]. by rewrite <-A1, <-A2.
  - exists m. rewrite insert_id by done. split; [done|]. split; [intros role l; by apply serves_alike|].
    exists x1. by rewrite A1, A2, A3.
Qed.

(** Sending through a circuit is calling the service through the exit's policy.
    On a runtime whose relays agree with its layers, [Send] yields for every
    destination and payload what the exit's policy and the registered service
    yield, errors included (a response without bytes is the one that is lost); the
    stream it opened is closed again, the call is counted as completed exactly when
    it succeeds, the exit has recorded the destination exactly when it allows it, and
    the runtime is as good as before for the next call. *)
Lemma Send_run r x destination payload :
  runtime_ok r -> exit_relay r = Some x -> utf8 destination = true ->
  let res := direct_call (rl_exitPolicy x) (rt_Services r) (rl_ID x) destination payload in
  exists r', Send None destination payload r = (r', res) /\ runtime_ok r' /\
    sm_open (rt_Streams r') = sm_open (rt_Streams r) ∖ {[sm_next (rt_Streams r)]} /\
    rt_Services r' = rt_Services r /\
    rt_Opened r' = i64 (rt_Opened r + 1) /\
    rt_Completed r' = (if is_ok res then i64 (rt_Completed r + 1) else rt_Completed r) /\
    exists x', exit_relay r' = Some x' /\ rl_ID x' = rl_ID x /\ rl_exitPolicy x' = rl_exitPolicy x /\
      rl_lastDestination x'
      = if Allows (rl_exitPolicy x) destination then destination else rl_lastDestination x.
Proof.
  intros Hok Hx Hd res. pose proof Hok as [(l0 & l1 & l2 & Hl & Hpath & Hwf & Hserve & Hexit) Hci [Hopen Hnext]].
  unfold Send, Stream.Open. rewrite Hopen.
  set (streams := Stream.mkManager _ _ _ _).
  set (r1 := set_streams streams (i64 (rt_Opened r + 1)) r).
  assert (Hok1 : runtime_ok r1).
  { constructor; [by exists l0, l1, l2|done|]. split; [done|apply u64_range]. }
  destruct (send_on_run r1 x (sm_next (rt_Streams r)) destination payload Hok1 Hx Hd Hnext)
    as (relays & Hs & Hkeep & x' & Hx').
  rewrite Hs. change (rt_Services r1) with (rt_Services r). fold res.
  assert (Hstreams : rt_Streams (after relays (is_ok res) r1) = streams) by (by destruct (is_ok res)).
  assert (Hclose : (Stream.Close (sm_next (rt_Streams r)) streams).1
                   = mkManager (sm_next streams) (sm_open streams ∖ {[sm_next (rt_Streams r)]}) (sm_seen streams) false).
  { unfold Stream.Close. rewrite bool_decide_eq_true_2; [done|]. cbn. set_solver. }
  eexists. split; [done|]. rewrite Hstreams, Hclose. split_and!.
  - constructor.
    + exists l0, l1, l2. assert (forall role l, serves (rt_CircuitID r) role (rt_Relays r) l ->
        serves (rt_CircuitID r) role relays l) as Hk by exact Hkeep.
      destruct (is_ok res); (split_and!; try done; [|by apply Hk]);
        (eapply Forall_impl; [exact Hserve|]; intros l; apply Hk).
    + by destruct (is_ok res).
    + split; [done|apply u64_range].
  - cbn. set_solver.
  - by destruct (is_ok res).
  - by destruct (is_ok res).
  - by destruct (is_ok res).
  - exists x'. unfold exit_relay. by destruct (is_ok res).
Qed.

(** A client's calls, one after the other. *)
Fixpoint send_all (calls : list (string * string)) (r : Runtime) : Runtime * list (result string) :=
  match calls with
  | [] => (r, [])
  | (destination, payload) :: calls =>
      let '(r, res) := Send None destination payload r in
      let '(r, ress) := send_all calls r in (r, res :: ress)
  end.

Lemma i64_count (ok : bool) c n :
  u64 ((if ok then i64 (c + 1) else c) + n) = u64 (c + if ok then 1 + n else n).
Proof.
  destruct ok; [|done]. unfold u64, i64. cbv zeta. destruct (Z.ltb _ _).
  - rewrite Zplus_mod_idemp_l. f_equal. lia.
  - replace ((c + 1) mod two64 - two64 + n) with ((c + 1) mod two64 + n + (-1) * two64) by lia.
    rewrite Z.mod_add by done. rewrite Zplus_mod_idemp_l. f_equal. lia.
Qed.

(** C7: a circuit is transparent.  For any sequence of calls to destinations that are valid
    UTF-8 (the header that carries a destination is JSON, which replaces other bytes), in a
    context that is not done, on a runtime whose relays agree with its layers, the results
    are, call by call, those of calling the services directly through the exit's policy,
    refusals and service errors included (a response without bytes is the one that is lost);
    no stream stays open that was not, and the runtime stays usable and counts the calls that
    succeeded, modulo 2^64. *)
Theorem circuit_calls calls r x :
  runtime_ok r -> exit_relay r = Some x -> Forall (fun c => utf8 c.1 = true) calls ->
  let served := send_all calls r in
  served.2 = map (fun c => direct_call (rl_exitPolicy x) (rt_Services r) (rl_ID x) c.1 c.2) calls /\
  runtime_ok served.1 /\ sm_open (rt_Streams served.1) ⊆ sm_open (rt_Streams r) /\
  u64 (rt_Completed served.1) = u64 (rt_Completed r + Z.of_nat (length (List.filter is_ok served.2))).
Proof.
  cbv zeta. intros Hok Hx Hutf. revert r x Hok Hx. induction Hutf as [|[destination payload] calls Hd _ IH]; intros r x Hok Hx.
  - cbn [send_all map List.filter length fst snd]. rewrite Z.add_0_r. by split_and!.
  - cbn [send_all fst snd] in *.
    destruct (Send_run r x destination payload Hok Hx Hd)
      as (r1 & -> & Hok1 & Hopen & Hserv & _ & Hcount & x1 & Hx1 & Hid & Hpol & _).
    specialize (IH r1 x1 Hok1 Hx1). destruct (send_all calls r1) as [r2 ress].
    cbn [fst snd] in *. destruct IH as (-> & Hok2 & Hopen2 & Hcount2). rewrite Hserv, Hpol, Hid. split_and!; [done|done| |].
    + set_solver.
    + rewrite Hserv, Hpol, Hid in Hcount2. rewrite Hcount2, Hcount. cbn [map List.filter fst snd]. rewrite i64_count.
      match goal with |- context [is_ok ?d] => destruct (is_ok d) end; [|done].
      cbn [length]. by rewrite Nat2Z.inj_succ, Z.add_1_l.
Qed.

(** ** Circuit identifiers *)

Definition hex_string (s : string) : Prop :=
  Forall (fun c => exists d, 0 <= d < 16 /\ c = Hex.digit d) (list_ascii_of_string s).

Lemma hex_digit_cases (P : Z -> Prop) d :
  0 <= d < 16 -> Forall P [0; 1; 2; 3; 4; 5; 6; 7; 8; 9; 10; 11; 12; 13; 14; 15] -> P d.
Proof. intros Hd Hall. rewrite Forall_forall in Hall. apply Hall. repeat rewrite elem_of_cons. lia. Qed.

Lemma hex_not_space d l : 0 <= d < 16 ->
  strip_any space_seqs (Hex.digit d :: l) = None /\
  strip_any (map (@rev ascii) space_seqs) (Hex.digit d :: l) = None /\ code (Hex.digit d) < 0x80.
Proof.
  intros Hd. apply (hex_digit_cases (fun d => strip_any space_seqs (Hex.digit d :: l) = None /\
  strip_any (map (@rev ascii) space_seqs) (Hex.digit d :: l) = None /\ code (Hex.digit d) < 0x80) d Hd).
  repeat constructor.
Qed.

Lemma hex_not_blank s : hex_string s -> s <> "" -> blank s = false.
Proof.
  intros Hh Hne. assert (Hid : TrimSpace s = s); [|unfold blank; rewrite Hid; by apply String.eqb_neq].
  unfold TrimSpace, trim_front, trim_back, hex_string in *. set (l := list_ascii_of_string s) in *.
  assert (Hl : forall l' ps, Forall (fun c => exists d, 0 <= d < 16 /\ c = Hex.digit d) l' ->
    ps = space_seqs \/ ps = map (@rev ascii) space_seqs -> trim_left (length l') ps l' = l').
  { intros [|c l'] ps Hc Hps; [done|]. apply Forall_cons in Hc as [(d & Hd & ->) _].
    apply trim_left_id. destruct (hex_not_space d l' Hd) as (S1 & S2 & _).
    destruct Hps as [->| ->]; [exact S1|exact S2]. }
  rewrite (Hl l) by auto. replace (length l) with (length (rev l)) by apply length_rev.
  rewrite (Hl (rev l)) by (auto || by apply Forall_rev).
  rewrite rev_involutive. apply string_of_list_ascii_of_string.
Qed.

Lemma hex_utf8 s : hex_string s -> utf8 s = true.
Proof.
  intros Hh. apply ascii_utf8. unfold bytes_of_string. apply Forall_map.
  eapply Forall_impl; [exact Hh|]. intros c (d & Hd & ->).
  by destruct (hex_not_space d [] Hd) as (_ & _ & ?).
Qed.

Lemma hex_EncodeToString s : hex_string (Hex.EncodeToString s).
Proof.
  unfold hex_string, Hex.EncodeToString. rewrite list_ascii_of_string_of_list_ascii.
  apply Forall_flat_map. apply Forall_forall. intros c _. pose proof (code_byte c) as Hc. unfold byte in Hc.
  repeat constructor; eexists; (split; [|reflexivity]).
  - rewrite Z.shiftr_div_pow2 by lia. split; [apply Z.div_pos; lia|apply Z.div_lt_upper_bound; lia].
  - change 15 with (Z.ones 4). rewrite Z.land_ones by lia. apply Z.mod_pos_bound. lia.
Qed.

Lemma list_ascii_prefix n s : list_ascii_of_string (prefix n s) = take n (list_ascii_of_string s).
Proof.
  unfold prefix. revert s. induction n as [|n IH]; intros [|a s]; cbn; [done..|]. by rewrite IH.
Qed.

Lemma hex_prefix n s : hex_string s -> hex_string (prefix n s).
Proof. unfold hex_string. rewrite list_ascii_prefix. apply Forall_take. Qed.

Lemma NewCircuitID_ok path : utf8 (NewCircuitID path) = true /\ blank (NewCircuitID path) = false.
Proof.
  unfold NewCircuitID. set (digest := Sha256.Sum256 _).
  assert (Hh : hex_string (prefix 24 (Hex.EncodeToString digest))) by apply hex_prefix, hex_EncodeToString.
  split; [by apply hex_utf8|]. apply hex_not_blank; [done|]. apply (nonempty_length _ 23), length_prefix.
  rewrite Hex.length_EncodeToString. unfold digest. rewrite Sha256.length_Sum256. lia.
Qed.

(** ** A circuit is established *)

(** What the KEM of a suite is relied on for. *)
Definition kem_works (suite : CryptoSuite) : Prop :=
  forall id k, cs_NewKEMPrivate suite id = Ok k -> kem_pair k (cs_NewKEMPublic suite).

(** The bytes drawn are bytes that a secret can be encapsulated with to the key of [id]:
    for X25519, 32 of them. *)
Definition encapsulates (suite : CryptoSuite) (id entropy : string) : bool :=
  is_ok (k ← cs_NewKEMPrivate suite id; p ← cs_NewKEMPublic suite (kp_PublicKey k); kq_Encapsulate p entropy).

(** A relay that has taken part in no circuit. *)
Definition idle (suite : CryptoSuite) (id : string) (m : gmap string Relay) : Prop :=
  exists r, m !! id = Some r /\ rl_ID r = id /\ rl_Running r = true /\ rl_seenExtensions r = ∅ /\
    cs_NewKEMPrivate suite id = Ok (rl_KEM r) /\
    rl_exitPolicy r = (if String.eqb id "relay-7" then NewExitPolicy [DestinationEcho; DestinationHTTP] else ∅).

Lemma idle_insert suite id id' m r : id <> id' -> idle suite id m -> idle suite id (<[id' := r]> m).
Proof. intros Hne (r' & Hr & Hrest). exists r'. by rewrite lookup_insert_ne. Qed.

Lemma CreateExtension_runs ci rl ro pk newPublic entropy p cs :
  blank ci = false -> blank rl = false -> validRole ro = true ->
  newPublic pk = Ok p -> kq_Encapsulate p entropy = Ok cs ->
  exists ext key, CreateExtension ci rl ro pk (Some newPublic) entropy = Ok (ext, key).
Proof.
  intros Hci Hrl Hro Hp He. unfold CreateExtension. rewrite Hci, Hrl, Hro, Hp. cbn [negb mbind result_bind].
  rewrite He. destruct cs as [c s]. by eexists _, _.
Qed.

(** One extension: the relay is left serving the circuit with the client's key. *)
Lemma extend_run suite ci hop m :
  kem_works suite -> blank ci = false -> blank (ph_RelayID hop) = false -> utf8 (ph_RelayID hop) = true ->
  validRole (ph_Role hop) = true -> encapsulates suite (ph_RelayID hop) (ph_Drawn hop) = true ->
  idle suite (ph_RelayID hop) m ->
  exists r layer, extend suite ci hop m = (<[ph_RelayID hop := r]> m, Ok layer) /\
    lk_RelayID layer = ph_RelayID hop /\ layer_wf layer /\ rl_ID r = ph_RelayID hop /\
    rl_exitPolicy r = (if String.eqb (ph_RelayID hop) "relay-7"
                       then NewExitPolicy [DestinationEcho; DestinationHTTP] else ∅) /\
    forall m', m' !! ph_RelayID hop = Some r -> serves ci (ph_Role hop) m' layer.
Proof.
  intros Hpair Hci Hb Hutf Hrole Hdrawn (r & Hr & Hid & Hrun & Hseen & Hkem & Hpol).
  destruct (Hpair _ _ Hkem) as (p & Hp & Hdec).
  assert (exists cs, kq_Encapsulate p (ph_Drawn hop) = Ok cs) as [cs Hcs].
  { unfold encapsulates in Hdrawn. rewrite Hkem in Hdrawn. cbn [mbind result_bind] in Hdrawn. rewrite Hp in Hdrawn.
    cbn [mbind result_bind] in Hdrawn. destruct (kq_Encapsulate p (ph_Drawn hop)) as [cs|]; [by exists cs|done]. }
  destruct (CreateExtension_runs ci (ph_RelayID hop) (ph_Role hop) _ _ _ p cs Hci Hb Hrole Hp Hcs)
    as (ext & key & Hext).
  destruct (extension_handshake _ _ _ _ _ _ _ _ (Hpair _ _ Hkem) Hext) as (Hver & Hlen & _).
  apply CreateExtension_ok in Hext as Hfields. destruct Hfields as (_ & _ & _ & _ & _ & _ & _ & _ & E1 & E2 & E3 & _).
  unfold extend. autorewrite with go_run. change (id m) with m. rewrite Hr. autorewrite with go_run.
  change (PublicKey r) with (kp_PublicKey (rl_KEM r)). rewrite Hext. autorewrite with go_run.
  rewrite run_bind. unfold on_relay. rewrite Hr. unfold AcceptExtension at 1. autorewrite with go_run.
  change (id r) with r. rewrite Hrun, E2, Hid, String.eqb_refl. cbn [negb].
  replace (String.eqb (Extension_ID ext) "") with false
    by (symmetry; apply String.eqb_neq, Extension_ID_nonempty).
  rewrite Hseen, bool_decide_eq_false_2 by apply not_elem_of_empty.
  rewrite Hver. autorewrite with go_run. eexists _, _. split; [reflexivity|].
  split_and!; [done| |done|done|].
  - split; [done|]. cbn [lk_Key]. by apply (nonempty_length _ 31).
  - intros m' Hm'. eexists _, _. split; [exact Hm'|]. cbn [set_session rl_ID rl_sessions lk_Key lk_RelayID].
    rewrite E1. split_and!; [done|apply lookup_insert_eq|done|by right].
Qed.

Lemma add_relay_idle suite m id m' :
  add_relay suite (Ok m) id = Ok m' -> idle suite id m' /\ forall id', idle suite id' m -> idle suite id' m'.
Proof.
  unfold add_relay, NewRelayForSuite. cbn [mbind result_bind].
  intros (r & (kem & Hk & [= <-])%bind_ok & [= <-])%bind_ok.
  assert (Hid : forall m0, idle suite id (<[id := if String.eqb id "relay-7"
    then SetExitPolicy (NewExitPolicy [DestinationEcho; DestinationHTTP])
           (Start (mkRelay id (regionForRelay id) kem false ∅ ∅ ∅ (NewExitPolicy []) ""))
    else Start (mkRelay id (regionForRelay id) kem false ∅ ∅ ∅ (NewExitPolicy []) "")]> m0)).
  { intros m0. eexists. split; [apply lookup_insert_eq|]. by destruct (String.eqb id "relay-7"). }
  split; [apply Hid|]. intros id' Hid'. destruct (decide (id' = id)) as [->|Hne]; [apply Hid|].
  by apply idle_insert.
Qed.

Lemma add_relays_idle suite ids : forall m m',
  foldl (add_relay suite) (Ok m) ids = Ok m' ->
  (forall id, idle suite id m -> idle suite id m') /\ forall id, id ∈ ids -> idle suite id m'.
Proof.
  induction ids as [|id ids IH]; intros m m' Hf; cbn [foldl] in Hf.
  - injection Hf as <-. split; [done|]. by intros id ?%elem_of_nil.
  - destruct (add_relay suite (Ok m) id) as [m1|e] eqn:E.
    + destruct (IH _ _ Hf) as [Hk Ha]. apply add_relay_idle in E as [Hid Hk1].
      split; [auto|]. intros i [->|Hi]%elem_of_cons; auto.
    + exfalso. revert Hf. clear. induction ids as [|i ids IH]; [done|]. exact IH.
Qed.

Lemma NewSevenRelayTopology_idle suite t id :
  NewSevenRelayTopology suite = Ok t -> id ∈ relay_names -> tp_Suite t = suite /\ idle suite id (tp_Relays t).
Proof.
  intros (relays & Hf & [= <-])%bind_ok Hid. split; [done|]. by apply (add_relays_idle _ _ _ _ Hf).
Qed.

Lemma relay_names_ok id : id ∈ relay_names -> blank id = false /\ utf8 id = true.
Proof.
  intros Hid. assert (Hall : forallb (fun id => negb (blank id) && utf8 id) relay_names = true)
    by (vm_compute; reflexivity).
  rewrite forallb_forall in Hall. specialize (Hall id). rewrite <-list_elem_of_In in Hall.
  apply Hall in Hid. by apply andb_true_iff in Hid as [?%negb_true_iff ?].
Qed.

(** A circuit can be built over any three relays of the testbed.  With a suite
    whose KEM works, and bytes it can use, a path of three different relays of a new topology yields a
    runtime in which every relay of the path holds the circuit's session with the key
    of the client's layer and the third one is its exit; the exit's policy is the
    testbed's when it is the seventh relay, and empty otherwise. *)
Lemma BuildCircuit_run suite t p0 p1 p2 drawn :
  kem_works suite -> NewSevenRelayTopology suite = Ok t ->
  p0 ∈ relay_names -> p1 ∈ relay_names -> p2 ∈ relay_names -> p0 <> p1 -> p0 <> p2 -> p1 <> p2 ->
  encapsulates suite p0 drawn.1.1 && encapsulates suite p1 drawn.1.2 && encapsulates suite p2 drawn.2 = true ->
  exists t' rt x, BuildCircuit [p0; p1; p2] drawn t = (t', Ok rt) /\
    runtime_ok rt /\ rt_Path rt = [p0; p1; p2] /\ rt_Services rt = defaultServices /\
    rt_Opened rt = 0%Z /\ rt_Completed rt = 0%Z /\ tp_Relays t' = rt_Relays rt /\ exit_relay rt = Some x /\ rl_ID x = p2 /\
    rl_exitPolicy x = (if String.eqb p2 "relay-7" then NewExitPolicy [DestinationEcho; DestinationHTTP] else ∅).
Proof.
  intros Hkem Ht In0 In1 In2 N01 N02 N12 [[D0 D1]%andb_true_iff D2]%andb_true_iff.
  destruct (NewSevenRelayTopology_idle _ _ p0 Ht In0) as [Hs I0].
  destruct (NewSevenRelayTopology_idle _ _ p1 Ht In1) as [_ I1].
  destruct (NewSevenRelayTopology_idle _ _ p2 Ht In2) as [_ I2].
  destruct (relay_names_ok p0 In0), (relay_names_ok p1 In1), (relay_names_ok p2 In2).
  destruct (NewCircuitID_ok [p0; p1; p2]) as [Hutf Hblank].
  unfold BuildCircuit. rewrite Hs. set (ci := NewCircuitID [p0; p1; p2]) in *. cbv zeta.
  destruct (extend_run suite ci (mkPathHop p0 Entry "client" p1 drawn.1.1) (tp_Relays t))
    as (r0 & l0 & E0 & L0 & W0 & R0 & _ & S0); try done.
  destruct (extend_run suite ci (mkPathHop p1 Middle p0 p2 drawn.1.2) (<[p0 := r0]> (tp_Relays t)))
    as (r1 & l1 & E1 & L1 & W1 & R1 & _ & S1); try done; [by apply idle_insert|].
  destruct (extend_run suite ci (mkPathHop p2 Exit p1 "" drawn.2) (<[p1 := r1]> (<[p0 := r0]> (tp_Relays t))))
    as (r2 & l2 & E2 & L2 & W2 & R2 & P2 & S2); try done; [by repeat apply idle_insert|].
  cbn [ph_RelayID ph_Role] in *. cbn [extend_all]. rewrite !run_bind, E0, !run_bind, E1, !run_bind, E2.
  set (m := <[p2 := r2]> (<[p1 := r1]> (<[p0 := r0]> (tp_Relays t)))).
  assert (M0 : m !! p0 = Some r0).
  { unfold m. rewrite !lookup_insert_ne by done. apply lookup_insert_eq. }
  assert (M1 : m !! p1 = Some r1).
  { unfold m. rewrite lookup_insert_ne by done. apply lookup_insert_eq. }
  assert (M2 : m !! p2 = Some r2) by apply lookup_insert_eq.
  assert (Hweak : forall role l, serves ci role m l -> serves ci "" m l).
  { intros role l (r & s & ? & ? & ? & ? & _). exists r, s. split_and!; auto. }
  eexists _, _, r2. split; [reflexivity|]. split_and!; try done.
  constructor; [|done|done].
  exists l0, l1, l2. cbn [rt_Layers rt_Path rt_Relays rt_CircuitID map]. rewrite L0, L1, L2.
  split_and!; try done; [| |by apply S2]; rewrite !Forall_cons, Forall_nil; [by split_and!|].
  apply S0, Hweak in M0. apply S1, Hweak in M1. apply S2, Hweak in M2. by split_and!.
Qed.

(** ** Concrete circuits *)

Definition demo_relay (id role key : string) (policy : ExitPolicy) : Relay :=
  mkRelay id "nyc" demo_kem true
    {["c1" := mkSession "c1" id role "" "" key "x" 0 "" 0]} {["x"]} ∅ policy "".

Definition demo_runtime : Runtime :=
  mkRuntime "c1" ["relay-1"; "relay-4"; "relay-7"]
    {["relay-1" := demo_relay "relay-1" Entry "k1" ∅; "relay-4" := demo_relay "relay-4" Middle "k4" ∅;
      "relay-7" := demo_relay "relay-7" Exit "k7" (NewExitPolicy [DestinationEcho; DestinationHTTP])]}
    demo_layers Stream.NewManager defaultServices 0 0.

Lemma demo_runtime_ok : runtime_ok demo_runtime.
Proof.
  constructor; [|done|by split].
  exists (mkLayerKey "relay-1" "k1"), (mkLayerKey "relay-4" "k4"), (mkLayerKey "relay-7" "k7").
  split_and!; [done|done|by repeat constructor| |].
  - repeat constructor; (eexists _, _; split; [reflexivity|]); split_and!; try reflexivity; by left.
  - eexists _, _. split; [reflexivity|]. split_and!; try reflexivity. by right.
Qed.

Lemma circuit_calls_witness :
  let calls := [(DestinationEcho, "hello"); ("example.com:80", "GET"); (DestinationEcho, "again")] in
  (send_all calls demo_runtime).2
  = [Ok "echo from relay-7: hello"; fail "destination example.com:80 is not allowed by exit policy";
     Ok "echo from relay-7: again"].
Proof.
  intros calls.
  destruct (circuit_calls calls demo_runtime
    (demo_relay "relay-7" Exit "k7" (NewExitPolicy [DestinationEcho; DestinationHTTP]))) as (Hres & _).
  - apply demo_runtime_ok.
  - vm_compute. reflexivity.
  - repeat constructor.
  - etransitivity; [exact Hres|]. vm_compute. reflexivity.
Defined.
