(* ===== verification/Scenario.v ===== *)
(** * The testbed's scenario: routing/testbed/testbed.go

    The SOCKS5 client, the round trip through the local proxy, and the scripted run
    that writes the evidence.  The loopback listener and dial are taken to succeed;
    writing a file is a parameter. *)

From S2P Require Import Prelude Sha256 Json JsonParse JsonDecode JsonIndent Identity Crypto Codec Gcm Circuit Stream Relay Socks5 Testbed.
Local Open Scope string_scope.
Local Open Scope Z_scope.

(** ** net.SplitHostPort and fmt.Sscanf *)

(** The parts of a string around the last [c]. *)
Fixpoint CutLast (c : ascii) (s : string) : option (string * string) :=
  match s with
  | EmptyString => None
  | String a s =>
      match CutLast c s with
      | Some (before, after) => Some (String a before, after)
      | None => if Ascii.eqb a c then Some ("", s) else None
      end
  end.

Definition addr_error {A} (addr why : string) : result A := fail ("address " ++ addr ++ ": " ++ why).

(** The bracketed form: [hostport] starts with a bracket. *)
Definition split_bracketed (hostport inside port : string) : result (string * string) :=
  match CutByte "]" inside with
  | None => addr_error hostport "missing ']' in address"
  | Some (host, rest) =>
      if String.eqb rest "" then addr_error hostport "missing port in address"
      else if String.eqb rest (":" ++ port) then
        if contains_byte "[" host || contains_byte "[" rest then
          addr_error hostport "unexpected '[' in address"
        else if contains_byte "]" rest then addr_error hostport "unexpected ']' in address"
        else Ok (host, port)
      else if HasPrefix rest ":" then addr_error hostport "too many colons in address"
      else addr_error hostport "missing port in address"
  end.

Definition SplitHostPort (hostport : string) : result (string * string) :=
  match CutLast ":" hostport with
  | None => addr_error hostport "missing port in address"
  | Some (host, port) =>
      if HasPrefix hostport "[" then split_bracketed hostport (TrimPrefix hostport "[") port
      else if contains_byte ":" host then addr_error hostport "too many colons in address"
      else if contains_byte "[" hostport then addr_error hostport "unexpected '[' in address"
      else if contains_byte "]" hostport then addr_error hostport "unexpected ']' in address"
      else Ok (host, port)
  end.

(** [fmt.Sscanf(s, "%d", &x)] for a [uint64]: leading spaces, then digits; what
    follows them is left. *)
Definition scan_uint64 (s : string) : result Z :=
  let l := list_ascii_of_string s in
  let rest := trim_front l in
  let skipped := take (length l - length rest) l in
  if existsb (Ascii.eqb "010") skipped then fail "unexpected newline"
  else
    let tok := (span is_digit (map code rest)).1 in
    if is_nil rest then Err ErrUnexpectedEOF
    else if is_nil tok then fail "expected integer"
    else if decimal 0 tok <? two64 then Ok (decimal 0 tok)
    else fail ("strconv.ParseUint: parsing " ++ Quote (string_of_bytes tok) ++ ": value out of range").

(** ** The client of the proxy *)

Definition client_hello : string := string_of_bytes [0x05; 0x01; 0x00].

(** The CONNECT request: the port is cut to its low sixteen bits. *)
Definition client_request (destination : string) : result string :=
  '(host, portRaw) ← SplitHostPort destination;
  port ← scan_uint64 portRaw;
  if 255 <? len host then fail "SOCKS5 host too long"
  else Ok (string_of_bytes [0x05; 0x01; 0x00; 0x03; len host] ++ host ++
           string_of_bytes [(port / 256) mod 256; port mod 256]).

(** What the client makes of what the proxy sends: the response after the greeting
    and the reply. *)
Definition client_view (out : string) : result string :=
  if Nat.ltb (String.length out) 2 then Err ErrUnexpectedEOF
  else if negb (byte_at 0 out =? 0x05) || negb (byte_at 1 out =? 0x00) then
    fail "SOCKS5 no-auth negotiation failed"
  else if Nat.ltb (String.length out) 12 then Err ErrUnexpectedEOF
  else if negb (byte_at 3 out =? 0x00) then
    fail ("SOCKS5 connect rejected with status 0x" ++ hex2 (byte_at 3 out))
  else Ok (String.substring 12 (String.length out - 12) out).

Definition client_conn (sent : string) : Conn := mkConn sent None [] "" false.

(** The proxy in front of a runtime. *)
Definition runtime_proxy : Proxy :=
  mkProxy (Some DialThroughCircuit)
    (Some (fun r destination =>
       match exit_relay r with Some x => AllowsDestination x destination | None => false end)).

(** [SOCKS5RoundTrip]: a client that cannot form its request closes after the
    greeting. *)
Definition SOCKS5RoundTrip (ctx : option error) (destination payload : string) : M Runtime bool := fun r =>
  match client_request destination with
  | Err e => let '((r, _), _) := ServeConn runtime_proxy ctx (r, client_conn client_hello) in (r, Err e)
  | Ok request =>
      let '((r, c), served) :=
        ServeConn runtime_proxy ctx (r, client_conn (client_hello ++ request ++ payload)) in
      (r, response ← client_view (cn_out c);
          _ ← served;
          Ok (Contains response "via socks5"))
  end.

(** ** The evidence *)

Record Options := mkOptions {
  op_EvidenceJSONPath : string;
  op_EvidenceTextPath : string;
  op_WriteArtifacts : bool
}.

Record Evidence := mkEvidence {
  ev_GeneratedAtUnixMilli : Z;
  ev_CircuitID : string;
  ev_EntryRelay : string;
  ev_MiddleRelay : string;
  ev_ExitRelay : string;
  ev_CryptoSuite : string;
  ev_HandshakeSuccess : bool;
  ev_StreamsOpened : Z;
  ev_StreamsCompleted : Z;
  ev_RejectedDestinationCount : Z;
  ev_MalformedHandshakeRejectionCount : Z;
  ev_FinalSuccess : bool;
  ev_SOCKS5RoundTrip : bool;
  ev_EchoResponse : string;
  ev_HTTPResponseStatus : string;
  ev_RelayVisibility : list Visibility;
  ev_Limitations : string;
  ev_EvidenceJSONPath : string;
  ev_EvidenceTextPath : string
}.

Definition Visibility_json (v : Visibility) : json :=
  JObj ([("relay_id", JStr (vs_RelayID v)); ("region", JStr (vs_Region v)); ("role", JStr (vs_Role v))] ++
        omit_str "previous_hop" (vs_PreviousHop v) ++ omit_str "next_hop" (vs_NextHop v) ++
        [("knows_client_connection", JBool (vs_KnowsClientConnection v));
         ("knows_final_destination", JBool (vs_KnowsFinalDestination v));
         ("knows_full_path", JBool (vs_KnowsFullPath v))] ++
        omit_str "final_destination" (vs_FinalDestination v) ++
        [("local_session_key_available", JBool (vs_LocalSessionKeyAvailable v))] ++
        omit_int "last_stream_id" (vs_LastStreamID v) ++ omit_str "last_cell_type" (vs_LastCellType v))%list.

Definition Evidence_json (e : Evidence) : json :=
  JObj ([("generated_at_unix_milli", JInt (ev_GeneratedAtUnixMilli e));
         ("circuit_id", JStr (ev_CircuitID e)); ("entry_relay", JStr (ev_EntryRelay e));
         ("middle_relay", JStr (ev_MiddleRelay e)); ("exit_relay", JStr (ev_ExitRelay e));
         ("crypto_suite", JStr (ev_CryptoSuite e)); ("handshake_success", JBool (ev_HandshakeSuccess e));
         ("streams_opened", JInt (ev_StreamsOpened e)); ("streams_completed", JInt (ev_StreamsCompleted e));
         ("rejected_destination_count", JInt (ev_RejectedDestinationCount e));
         ("malformed_handshake_rejection_count", JInt (ev_MalformedHandshakeRejectionCount e));
         ("final_success", JBool (ev_FinalSuccess e)); ("socks5_round_trip", JBool (ev_SOCKS5RoundTrip e))] ++
        omit_str "echo_response" (ev_EchoResponse e) ++
        omit_str "http_response_status" (ev_HTTPResponseStatus e) ++
        [("relay_visibility", list_json Visibility_json (ev_RelayVisibility e));
         ("limitations", JStr (ev_Limitations e))] ++
        omit_str "evidence_json_path" (ev_EvidenceJSONPath e) ++
        omit_str "evidence_text_path" (ev_EvidenceTextPath e))%list.

(** The first line, trimmed. *)
Definition parseHTTPStatus (response : string) : string :=
  match CutByte "010" response with
  | Some (line, _) => TrimSpace (line ++ newline)
  | None => TrimSpace response
  end.

Definition visibility_le (a b : Visibility) : Prop := String.le (vs_RelayID a) (vs_RelayID b).

#[export] Instance visibility_le_dec : RelDecision visibility_le.
Proof. intros a b. unfold visibility_le. apply _. Defined.

Definition render_view (view : Visibility) : string :=
  "  relay=" ++ vs_RelayID view ++ " role=" ++ vs_Role view ++ " previous=" ++ vs_PreviousHop view ++
  " next=" ++ vs_NextHop view ++ " knows_client=" ++ show_bool (vs_KnowsClientConnection view) ++
  " knows_destination=" ++ show_bool (vs_KnowsFinalDestination view) ++ " full_path=" ++
  show_bool (vs_KnowsFullPath view) ++ " destination=" ++ vs_FinalDestination view ++ newline.

Definition renderText (e : Evidence) : string :=
  "pq-fabric private routing testbed evidence" ++ newline ++
  "circuit_id=" ++ ev_CircuitID e ++ " suite=" ++ ev_CryptoSuite e ++ " entry=" ++ ev_EntryRelay e ++
  " middle=" ++ ev_MiddleRelay e ++ " exit=" ++ ev_ExitRelay e ++ newline ++
  "handshake_success=" ++ show_bool (ev_HandshakeSuccess e) ++ " streams_opened=" ++ itoa (ev_StreamsOpened e) ++
  " streams_completed=" ++ itoa (ev_StreamsCompleted e) ++ " socks5_round_trip=" ++
  show_bool (ev_SOCKS5RoundTrip e) ++ newline ++
  "rejected_destinations=" ++ itoa (ev_RejectedDestinationCount e) ++ " malformed_handshake_rejections=" ++
  itoa (ev_MalformedHandshakeRejectionCount e) ++ " final_success=" ++ show_bool (ev_FinalSuccess e) ++ newline ++
  "echo_response=" ++ ev_EchoResponse e ++ newline ++
  "http_response_status=" ++ ev_HTTPResponseStatus e ++ newline ++
  "relay_visibility:" ++ newline ++
  String.concat "" (map render_view (stable_sort visibility_le (ev_RelayVisibility e))) ++
  "limitations=" ++ ev_Limitations e ++ newline.

(** The files of the operating system: what creating a directory and writing a
    file report. *)
Record Files := mkFiles {
  fs_MkdirAll : string -> result unit;
  fs_WriteFile : string -> string -> result unit;
  fs_Dir : string -> string
}.

Definition writeArtifacts (fs : Files) (opts : Options) (e : Evidence) : result unit :=
  _ ← fs_MkdirAll fs (fs_Dir fs (op_EvidenceJSONPath opts));
  _ ← fs_MkdirAll fs (fs_Dir fs (op_EvidenceTextPath opts));
  _ ← fs_WriteFile fs (op_EvidenceJSONPath opts) (MarshalIndent (Evidence_json e) ++ newline);
  fs_WriteFile fs (op_EvidenceTextPath opts) (renderText e).

Definition limitations : string :=
  "private local testbed only; no public relay discovery, public exits, production anonymity, censorship resistance, FIPS certification, ACVTS validation, or production post-quantum security claims".

Definition with_defaults (opts : Options) : Options :=
  mkOptions
    (if String.eqb (op_EvidenceJSONPath opts) "" then "tmp/routing-evidence.json" else op_EvidenceJSONPath opts)
    (if String.eqb (op_EvidenceTextPath opts) "" then "tmp/routing-evidence.txt" else op_EvidenceTextPath opts)
    (op_WriteArtifacts opts).

Definition set_paths (opts : Options) (e : Evidence) : Evidence :=
  mkEvidence (ev_GeneratedAtUnixMilli e) (ev_CircuitID e) (ev_EntryRelay e) (ev_MiddleRelay e) (ev_ExitRelay e)
    (ev_CryptoSuite e) (ev_HandshakeSuccess e) (ev_StreamsOpened e) (ev_StreamsCompleted e)
    (ev_RejectedDestinationCount e) (ev_MalformedHandshakeRejectionCount e) (ev_FinalSuccess e)
    (ev_SOCKS5RoundTrip e) (ev_EchoResponse e) (ev_HTTPResponseStatus e) (ev_RelayVisibility e)
    (ev_Limitations e) (op_EvidenceJSONPath opts) (op_EvidenceTextPath opts).

Definition scenario_path : list string := ["relay-1"; "relay-4"; "relay-7"].

Definition malformed_extension (circuitID : string) : ExtensionMessage :=
  mkExtension circuitID "relay-1" Entry "" "malformed" "bad".

Definition http_request : string := "GET /region HTTP/1.1" ++ crlf ++ "Host: local-http" ++ crlf ++ crlf.

(** One of the counters of rejections. *)
Definition count_err {A} (r : result A) : Z := match r with Ok _ => 0 | Err _ => 1 end.

(** The calls of the scenario, on the runtime. *)
Definition run_script (ctx : option error) (now : Time) (suiteName : string) : M Runtime Evidence :=
  r ← gets id;
  malformed ← attempt (with_relays (on_relay "relay-1"
                         (AcceptExtension (malformed_extension (rt_CircuitID r)) "client" "relay-4")));
  echoResponse ← Send ctx DestinationEcho "hello over onion";
  httpResponse ← Send ctx DestinationHTTP http_request;
  rejected ← attempt (Send ctx "example.com:80" ("GET / HTTP/1.1" ++ crlf ++ crlf));
  _ ← Send ctx DestinationEcho "second stream";
  socksOK ← SOCKS5RoundTrip ctx DestinationEcho "via socks5";
  r ← gets id;
  mret (mkEvidence (UnixMilli now) (rt_CircuitID r) "relay-1" "relay-4" "relay-7" suiteName true
          (rt_Opened r) (rt_Completed r) (count_err rejected) (count_err malformed)
          (socksOK && (count_err rejected =? 1) && (count_err malformed =? 1)) socksOK echoResponse
          (parseHTTPStatus httpResponse) (Runtime_Visibility r) limitations "" "").

Definition RunScenario (fs : Files) (ctx : option error) (now : Time) (selected : result CryptoSuite)
    (drawn : string * string * string) (opts : Options) : result Evidence :=
  let opts := with_defaults opts in
  topology ← NewSevenRelayTopologyFromEnv selected;
  runtime ← (BuildCircuit scenario_path drawn topology).2;
  e ← (run_script ctx now (cs_Name (tp_Suite topology)) runtime).2;
  if op_WriteArtifacts opts then
    _ ← writeArtifacts fs opts e;
    Ok (set_paths opts e)
  else Ok e.

(** ** The proxy understands its client *)

Lemma CutLast_app c host port :
  contains_byte c port = false -> CutLast c (host ++ String c port) = Some (host, port).
Proof.
  intros Hp. assert (Hnone : CutLast c port = None).
  { unfold contains_byte in Hp. induction port as [|a port IH]; [done|]. cbn in Hp |- *.
    apply orb_false_iff in Hp as [Ha Hp]. rewrite IH by done. by rewrite Ascii.eqb_sym, Ha. }
  induction host as [|a host IH]; cbn.
  - change ("" ++ String c port) with (String c port). cbn. by rewrite Hnone, Ascii.eqb_refl.
  - change (String a host ++ String c port) with (String a (host ++ String c port)). cbn. by rewrite IH.
Qed.

Lemma contains_byte_app c s t : contains_byte c (s ++ t) = contains_byte c s || contains_byte c t.
Proof.
  unfold contains_byte. induction s as [|a s IH]; [done|].
  change (String a s ++ t) with (String a (s ++ t)). cbn. by rewrite IH, orb_assoc.
Qed.

Lemma itoa_digits z : 0 <= z ->
  let l := bytes_of_string (itoa z) in l <> [] /\ forallb is_digit l = true /\ decimal 0 l = z.
Proof.
  intros Hz l. unfold l, itoa. destruct (Z.ltb_spec z 0); [lia|]. rewrite Z.abs_eq by lia.
  destruct (number_digits (S (Z.to_nat (Z.log2 z))) z) as (? & _ & ? & ?); [|lia|by split_and!].
  split; [lia|]. by apply log2_fuel.
Qed.

Lemma itoa_contains c z : 0 <= z -> is_digit (code c) = false -> contains_byte c (itoa z) = false.
Proof.
  intros (_ & Hd & _)%itoa_digits Hc. unfold contains_byte, bytes_of_string in *.
  induction (list_ascii_of_string (itoa z)) as [|a l IH]; [done|]. cbn in *.
  apply andb_true_iff in Hd as [Ha Hd]. rewrite IH by done. rewrite orb_false_r.
  apply Ascii.eqb_neq. intros ->. congruence.
Qed.

Lemma digit_not_space a l : is_digit (code a) = true -> strip_any space_seqs (a :: l) = None.
Proof.
  intros Ha. unfold is_digit in Ha. apply in_range_spec in Ha.
  destruct (hex_not_space (code a - 48) l) as [Hs _]; [lia|].
  assert (E : Hex.digit (code a - 48) = a).
  { unfold Hex.digit. destruct (Z.ltb_spec (code a - 48) 10); [|lia].
    replace (48 + (code a - 48)) with (code a) by lia. apply Base64.char_of_code. }
  by rewrite E in Hs.
Qed.

Lemma scan_itoa z : 0 <= z < two64 -> scan_uint64 (itoa z) = Ok z.
Proof.
  intros Hz. destruct (itoa_digits z) as (Hne & Hd & Hdec); [lia|]. unfold scan_uint64.
  assert (Hb : map code (list_ascii_of_string (itoa z)) = bytes_of_string (itoa z)) by done.
  set (l := list_ascii_of_string (itoa z)) in *.
  assert (Ht : trim_front l = l).
  { apply trim_left_id. destruct l as [|a l']; [by rewrite <-Hb in Hne|].
    apply digit_not_space. rewrite <-Hb in Hd. cbn in Hd. by apply andb_true_iff in Hd as [? _]. }
  rewrite Ht, Nat.sub_diag. cbn [take existsb]. rewrite Hb.
  rewrite <-(app_nil_r (bytes_of_string (itoa z))), span_all by done. cbn [fst].
  rewrite Hdec. rewrite (proj2 (Z.ltb_lt z two64)) by lia.
  destruct l as [|a l']; [by rewrite <-Hb in Hne|]. cbn [is_nil].
  by destruct (bytes_of_string (itoa z)).
Qed.

(** A host name the testbed's destinations have. *)
Definition plain_host (host : string) : Prop :=
  contains_byte ":" host = false /\ contains_byte "[" host = false /\ contains_byte "]" host = false /\
  len host <= 255.

Lemma SplitHostPort_plain host z :
  plain_host host -> 0 <= z -> SplitHostPort (host ++ ":" ++ itoa z) = Ok (host, itoa z).
Proof.
  intros (H1 & H2 & H3 & _) Hz. unfold SplitHostPort.
  change (host ++ ":" ++ itoa z) with (host ++ String ":" (itoa z)).
  rewrite CutLast_app by (by apply itoa_contains).
  assert (HasPrefix (host ++ String ":" (itoa z)) "[" = false) as ->.
  { destruct host as [|a host]; [done|].
    change (Ascii.eqb "[" a || contains_byte "[" host = false) in H2. apply orb_false_iff in H2 as [Ha _].
    change (Ascii.eqb "[" a && HasPrefix (host ++ String ":" (itoa z)) "" = false). by rewrite Ha. }
  rewrite H1, !contains_byte_app, H2, H3.
  assert (forall c, contains_byte c (String ":" (itoa z)) = Ascii.eqb c ":" || contains_byte c (itoa z)) as Hc by done.
  by rewrite !Hc, !itoa_contains.
Qed.

Lemma ReadFull_app n a b c :
  cn_in c = a ++ b -> String.length a = n ->
  ReadFull n c = (mkConn b (cn_readErr c) (cn_writeErrs c) (cn_out c) (cn_closed c), Ok a).
Proof.
  intros Hin Hn. unfold ReadFull. rewrite Hin, length_append, Hn.
  rewrite (proj2 (Nat.leb_le _ _)) by lia. replace (n + String.length b - n)%nat with (String.length b) by lia.
  assert (Hcut : forall a b, prefix (String.length a) (a ++ b) = a /\
    String.substring (String.length a) (String.length b) (a ++ b) = b).
  { clear. intros a b. unfold prefix. induction a as [|x a [IH1 IH2]].
    - change ("" ++ b) with b. split; [by destruct b|apply substring_all].
    - change (String x a ++ b) with (String x (a ++ b)). cbn [String.length String.substring].
      by rewrite IH1, IH2. }
  destruct (Hcut a b) as [E1 E2]. rewrite Hn in E1, E2. by rewrite E1, E2.
Qed.

Lemma two_bytes p : 0 <= p < 65536 ->
  256 * byte_at 0 (string_of_bytes [(p / 256) mod 256; p mod 256])
  + byte_at 1 (string_of_bytes [(p / 256) mod 256; p mod 256]) = p.
Proof.
  intros Hp. unfold byte_at, string_of_bytes. cbn [map string_of_list_ascii String.get].
  assert (0 <= p / 256 < 256) by (split; [apply Z.div_pos; lia|apply Z.div_lt_upper_bound; lia]).
  rewrite (Z.mod_small (p / 256)) by done. rewrite !code_char_of by (unfold byte; [lia|apply Z.mod_pos_bound; lia] || unfold byte; lia || (unfold byte; apply Z.mod_pos_bound; lia)).
  pose proof (Z.div_mod p 256). lia.
Qed.

Section roundtrip.
Context {S : Type}.
Implicit Types (s : S) (p : @Proxy S).

(** The proxy takes from the connection what the client put on it. *)
Lemma readGreeting_hello c rest :
  cn_in c = client_hello ++ rest ->
  readGreeting c = (mkConn rest (cn_readErr c) (cn_writeErrs c) (cn_out c) (cn_closed c), Ok tt).
Proof.
  intros Hin. unfold readGreeting. rewrite run_bind.
  rewrite (ReadFull_app 2 (string_of_bytes [5; 1]) (string_of_bytes [0] ++ rest)) by done.
  autorewrite with go_run. change (negb (byte_at 0 (string_of_bytes [5; 1]) =? version5)) with false. cbv iota.
  rewrite run_bind. change (Z.to_nat (byte_at 1 (string_of_bytes [5; 1]))) with 1%nat.
  by rewrite (ReadFull_app 1 (string_of_bytes [0]) rest).
Qed.

Lemma string_of_bytes_app a b : string_of_bytes (a ++ b)%list = string_of_bytes a ++ string_of_bytes b.
Proof.
  induction a as [|x a IH]; [done|].
  change (String (char_of x) (string_of_bytes (a ++ b)%list)
          = String (char_of x) (string_of_bytes a ++ string_of_bytes b)). by rewrite IH.
Qed.

Lemma readConnectRequest_request c host z rest :
  plain_host host -> 0 <= z < 65536 ->
  cn_in c = (string_of_bytes [0x05; 0x01; 0x00; 0x03; len host] ++ host ++
             string_of_bytes [(z / 256) mod 256; z mod 256]) ++ rest ->
  readConnectRequest c
  = (mkConn rest (cn_readErr c) (cn_writeErrs c) (cn_out c) (cn_closed c), Ok (cmdConnect, host ++ ":" ++ itoa z)).
Proof.
  intros (Hcolon & _ & _ & Hlen) Hz Hin. unfold readConnectRequest. rewrite run_bind.
  rewrite (ReadFull_app 4 (string_of_bytes [5; 1; 0; 3]) (string_of_bytes [len host] ++ host ++
             string_of_bytes [(z / 256) mod 256; z mod 256] ++ rest)); [| |done].
  2:{ rewrite Hin, !append_assoc. change (string_of_bytes [5; 1; 0; 3; len host]) with
        (string_of_bytes ([5; 1; 0; 3] ++ [len host])%list). by rewrite string_of_bytes_app, append_assoc. }
  autorewrite with go_run. set (h := string_of_bytes [5; 1; 0; 3]).
  change (negb (byte_at 0 h =? version5)) with false. cbv iota.
  change (byte_at 3 h) with atypDomain. change (byte_at 1 h) with cmdConnect. unfold readHost.
  rewrite Z.eqb_refl, run_bind, run_bind.
  rewrite (ReadFull_app 1 (string_of_bytes [len host]) (host ++ string_of_bytes [(z / 256) mod 256; z mod 256] ++ rest))
    by done. cbn [cn_readErr cn_writeErrs cn_out cn_closed].
  assert (Hl : byte_at 0 (string_of_bytes [len host]) = len host).
  { cbn. apply code_char_of. unfold byte, len in *. lia. }
  rewrite Hl. unfold len at 1. rewrite Nat2Z.id.
  rewrite (ReadFull_app (String.length host) host (string_of_bytes [(z / 256) mod 256; z mod 256] ++ rest)) by done.
  cbn [cn_readErr cn_writeErrs cn_out cn_closed]. rewrite run_bind.
  rewrite (ReadFull_app 2 (string_of_bytes [(z / 256) mod 256; z mod 256]) rest) by done.
  cbn [cn_readErr cn_writeErrs cn_out cn_closed]. rewrite two_bytes by done.
  unfold JoinHostPort. by rewrite Hcolon.
Qed.

Lemma client_view_ok response :
  client_view (string_of_bytes [version5; 0x00] ++
               string_of_bytes [version5; 0x00; 0x00; atypIPv4; 0; 0; 0; 0; 0; 0] ++ response) = Ok response.
Proof.
  set (out := _ ++ _). assert (Hl : String.length out = (12 + String.length response)%nat).
  { unfold out. by rewrite !length_append. }
  unfold client_view. rewrite Hl. replace (12 + String.length response - 12)%nat with (String.length response) by lia.
  change (byte_at 0 out) with 5. change (byte_at 1 out) with 0. change (byte_at 3 out) with 0.
  change (String.substring 12 (String.length response) out)
    with (String.substring 0 (String.length response) response).
  by rewrite substring_all.
Qed.
Lemma client_request_ok host z :
  plain_host host -> 0 <= z < 65536 ->
  client_request (host ++ ":" ++ itoa z)
  = Ok (string_of_bytes [0x05; 0x01; 0x00; 0x03; len host] ++ host ++
        string_of_bytes [(z / 256) mod 256; z mod 256]).
Proof.
  intros Hh Hz. unfold client_request. rewrite SplitHostPort_plain by (done || lia).
  cbn [mbind result_bind]. rewrite scan_itoa by (unfold two64; lia). cbn [mbind result_bind].
  destruct Hh as (_ & _ & _ & Hl). by rewrite (proj2 (Z.ltb_ge 255 (len host))).
Qed.

Lemma host_port_nonempty host z : host ++ ":" ++ itoa z <> "".
Proof. by destruct host. Qed.

(** A connection on which every write succeeds. *)
Lemma ServeConn_run p ctx s host z payload dial :
  plain_host host -> 0 <= z < 65536 -> px_Dialer p = Some dial ->
  let destination := host ++ ":" ++ itoa z in
  denied p destination s = false ->
  exists request, client_request destination = Ok request /\
    let '(s', response) := dial ctx destination payload s in
    exists c, ServeConn p ctx (s, client_conn (client_hello ++ request ++ payload))
              = ((s', c), match response with Ok _ => Ok tt | Err e => Err e end) /\
      client_view (cn_out c) = Ok (match response with Ok r => r | Err _ => "" end).
Proof.
  intros Hh Hz Hdial destination Hallow. eexists. split; [by apply client_request_ok|].
  set (request := string_of_bytes _ ++ _). unfold ServeConn, serve. rewrite run_bind. unfold on_conn at 1.
  rewrite (readGreeting_hello _ (request ++ payload)) by done.
  rewrite run_bind. unfold on_conn at 1, Write at 1. cbn [client_conn cn_readErr cn_writeErrs cn_out cn_closed cn_in].
  rewrite run_bind. unfold on_conn at 1, attempt.
  rewrite (readConnectRequest_request _ host z payload) by done. fold destination.
  rewrite Z.eqb_refl. cbn [negb]. rewrite run_bind. unfold on_state at 1, gets. rewrite Hallow.
  rewrite run_bind. unfold on_conn at 1, writeReply, Write at 1.
  cbn [cn_readErr cn_writeErrs cn_out cn_closed cn_in].
  rewrite run_bind. unfold on_conn at 1, ReadAll at 1. cbn [cn_readErr cn_writeErrs cn_out cn_closed cn_in].
  rewrite run_bind. unfold on_state, Handle. autorewrite with go_run. cbn [rq_Command rq_Destination rq_Payload].
  rewrite Z.eqb_refl. cbn [negb]. rewrite (proj2 (String.eqb_neq destination "")) by apply host_port_nonempty.
  rewrite Hallow, Hdial. destruct (dial ctx destination payload s) as [s' [response|e]];
    (eexists; split; [reflexivity|]); cbn [CloseConn cn_out Write cn_writeErrs].
  - apply client_view_ok.
  - rewrite <-(append_empty_r (_ ++ _)), append_assoc. apply client_view_ok.
Qed.
End roundtrip.

(** A client's request reaches the dialer as it was meant.  For every host
    without colons and brackets, of at most 255 bytes, every 16-bit port and every
    payload, the bytes the client writes make the proxy dial exactly that
    destination with that payload; the client reads back the dialer's response, or
    an empty one when the dialer fails. *)
Theorem proxy_roundtrip {S} (p : @Proxy S) ctx s host port payload dial :
  plain_host host -> 0 <= port < 65536 -> px_Dialer p = Some dial ->
  let destination := host ++ ":" ++ itoa port in
  denied p destination s = false ->
  exists request, client_request destination = Ok request /\
    let served := ServeConn p ctx (s, client_conn (client_hello ++ request ++ payload)) in
    let dialed := dial ctx destination payload s in
    served.1.1 = dialed.1 /\ is_ok served.2 = is_ok dialed.2 /\
    client_view (cn_out served.1.2) = Ok (match dialed.2 with Ok r => r | Err _ => "" end).
Proof.
  intros Hh Hp Hd destination Ha.
  destruct (ServeConn_run p ctx s host port payload dial Hh Hp Hd Ha) as (request & Hr & Hs).
  exists request. split; [done|]. cbv zeta. fold destination in Hs.
  destruct (dial ctx destination payload s) as [s' res]. destruct Hs as (c & -> & Hv).
  by destruct res.
Qed.

Definition demo_proxy : @Proxy (list string) :=
  mkProxy (Some (fun _ destination payload s => (destination :: s, Ok ("got " ++ payload)))) None.

Lemma proxy_roundtrip_witness :
  exists request, client_request "local-echo:7000" = Ok request /\
    client_view (cn_out (ServeConn demo_proxy None ([], client_conn (client_hello ++ request ++ "hi"))).1.2) = Ok "got hi".
Proof.
  destruct (proxy_roundtrip demo_proxy None [] "local-echo" 7000 "hi"
    (fun _ destination payload s => (destination :: s, Ok ("got " ++ payload)))) as (request & Hr & _ & _ & Hv).
  - by repeat split.
  - lia.
  - done.
  - done.
  - exists request. split; [exact Hr|exact Hv].
Defined.

(** The port is cut silently: a destination with a port above 65535 dials another. *)
Example port_cut :
  exists request, client_request "local-echo:72536" = Ok request /\
    (ServeConn demo_proxy None ([], client_conn (client_hello ++ request ++ "hi"))).1.1 = ["local-echo:7000"].
Proof. eexists. split; [vm_compute; reflexivity|vm_compute; reflexivity]. Qed.

(** ** The scenario *)

Lemma malformed_rejected ci r previous next :
  exists e, AcceptExtension (malformed_extension ci) previous next r = (r, Err e).
Proof.
  destruct (AcceptExtension (malformed_extension ci) previous next r) as [r' [s|e]] eqn:E.
  - exfalso. apply AcceptExtension_ok in E as (_ & _ & _ & Hv & _). apply VerifyExtension_ok in Hv as (s' & _ & Hp & _).
    by apply extensionProof_length in Hp.
  - exists e. by apply AcceptExtension_err in E as ->.
Qed.

Lemma malformed_run r id :
  is_Some (rt_Relays r !! id) ->
  exists e, with_relays (on_relay id (AcceptExtension (malformed_extension (rt_CircuitID r)) "client" "relay-4")) r
            = (r, Err e).
Proof.
  intros [relay Hr]. destruct (malformed_rejected (rt_CircuitID r) relay "client" "relay-4") as [e He].
  exists e. unfold with_relays, on_relay. rewrite Hr, He, insert_id by done. by destruct r.
Qed.

Lemma runtime_entry r p0 p1 p2 :
  runtime_ok r -> rt_Path r = [p0; p1; p2] -> is_Some (rt_Relays r !! p0).
Proof.
  intros [(l0 & l1 & l2 & _ & Hp & _ & Hs & _) _ _] Hpath. rewrite Hpath in Hp. injection Hp as -> _ _.
  apply Forall_cons in Hs as [(relay & _ & Hr & _) _]. by exists relay.
Qed.

(** What the calls of the script yield at the exit's policy. *)
Definition testbed_policy : ExitPolicy := NewExitPolicy [DestinationEcho; DestinationHTTP].

Lemma script_calls :
  direct_call testbed_policy defaultServices "relay-7" DestinationEcho "hello over onion"
  = Ok "echo from relay-7: hello over onion" /\
  (exists p, direct_call testbed_policy defaultServices "relay-7" DestinationHTTP http_request = Ok p /\
             parseHTTPStatus p = "HTTP/1.1 200 OK") /\
  (exists e, direct_call testbed_policy defaultServices "relay-7" "example.com:80" ("GET / HTTP/1.1" ++ crlf ++ crlf)
             = Err e) /\
  direct_call testbed_policy defaultServices "relay-7" DestinationEcho "second stream"
  = Ok "echo from relay-7: second stream" /\
  direct_call testbed_policy defaultServices "relay-7" DestinationEcho "via socks5"
  = Ok "echo from relay-7: via socks5".
Proof.
  split_and!; [vm_compute; reflexivity|eexists; split; vm_compute; reflexivity
              |eexists; vm_compute; reflexivity|vm_compute; reflexivity|vm_compute; reflexivity].
Qed.

(** The runtime between two calls of the script. *)
Record between (opened completed : Z) (r : Runtime) : Prop := {
  bt_ok : runtime_ok r;
  bt_services : rt_Services r = defaultServices;
  bt_opened : rt_Opened r = opened;
  bt_completed : rt_Completed r = completed;
  bt_exit : exists x, exit_relay r = Some x /\ rl_ID x = "relay-7" /\ rl_exitPolicy x = testbed_policy
}.

Lemma between_Send o c r destination payload :
  between o c r -> utf8 destination = true ->
  let res := direct_call testbed_policy defaultServices "relay-7" destination payload in
  exists r', Send None destination payload r = (r', res) /\
    between (i64 (o + 1)) (if is_ok res then i64 (c + 1) else c) r'.
Proof.
  intros [Hok Hs Ho Hc (x & Hx & Hid & Hp)] Hd res.
  destruct (Send_run r x destination payload Hok Hx Hd)
    as (r' & Hr & Hok' & _ & Hs' & Ho' & Hc' & x' & Hx' & Hid' & Hp' & _).
  rewrite Hp, Hs, Hid in Hr, Hc'. subst o c. exists r'. split; [done|]. constructor; try congruence; [done|].
  exists x'. split_and!; congruence.
Qed.

Lemma between_SOCKS5 o c r :
  between o c r -> exists r', SOCKS5RoundTrip None DestinationEcho "via socks5" r = (r', Ok true) /\
    between (i64 (o + 1)) (i64 (c + 1)) r'.
Proof.
  intros Hb. destruct (between_Send o c r DestinationEcho "via socks5" Hb) as (r' & Hs & Hb'); [reflexivity|].
  destruct script_calls as (_ & _ & _ & _ & Hcall). rewrite Hcall in Hs, Hb'. cbn [is_ok] in Hb'.
  exists r'. split; [|done]. unfold SOCKS5RoundTrip.
  edestruct (ServeConn_run runtime_proxy None r "local-echo" 7000 "via socks5" DialThroughCircuit)
    as (request & Hreq & Hserve); [by repeat split|lia|done| |].
  - destruct Hb as [_ _ _ _ (x & Hx & _ & Hp)]. unfold denied. cbn [runtime_proxy px_Allow]. rewrite Hx.
    unfold AllowsDestination. rewrite Hp. vm_compute. reflexivity.
  - change ("local-echo" ++ ":" ++ itoa 7000) with DestinationEcho in Hreq, Hserve. rewrite Hreq.
    unfold DialThroughCircuit at 1 in Hserve. rewrite Hs in Hserve. destruct Hserve as (conn & -> & Hv).
    rewrite Hv. cbn [mbind result_bind]. done.
Qed.

(** The relays of the testbed can be made with a lawful suite. *)
Lemma NewSevenRelayTopology_total suite : LawfulSuite suite -> exists t, NewSevenRelayTopology suite = Ok t.
Proof.
  intros Hlaw. unfold NewSevenRelayTopology.
  assert (Hadd : forall ids m, exists m', foldl (add_relay suite) (Ok m) ids = Ok m').
  { induction ids as [|id ids IH]; intros m; [by exists m|]. cbn [foldl]. unfold add_relay at 2, NewRelayForSuite.
    destruct (suite_kem (s := suite) id) as (k & -> & _). cbn [mbind result_bind]. apply IH. }
  destruct (Hadd relay_names ∅) as [m E]. rewrite E. by eexists.
Qed.

Lemma lawful_kem_works suite : LawfulSuite suite -> kem_works suite.
Proof. intros Hlaw id k Hk. destruct (suite_kem (s := suite) id) as (k' & Hk' & _ & Hp). congruence. Qed.

(** C8: the scenario succeeds.  For every lawful suite, as long as the random source yields
    bytes the suite can encapsulate with to the three relays of the path, and in a context
    that is not done, the run builds its circuit, rejects the malformed extension and the
    foreign destination and nothing else, gets the echo and the HTTP status back, and
    reaches the echo service through the proxy: five streams are opened, four calls
    complete, and the evidence reports success.  When artifacts are asked for, the run
    returns that evidence with their paths once it is written, and the error of the write
    that fails otherwise; it always returns the evidence when they are not. *)
Theorem scenario_succeeds fs now suite drawn opts : LawfulSuite suite ->
  encapsulates suite "relay-1" drawn.1.1 && encapsulates suite "relay-4" drawn.1.2 && encapsulates suite "relay-7" drawn.2
    = true ->
  exists e, RunScenario fs None now (Ok suite) drawn opts
            = (if op_WriteArtifacts opts then
                 _ ← writeArtifacts fs (with_defaults opts) e; Ok (set_paths (with_defaults opts) e)
               else Ok e) /\
    ev_FinalSuccess e = true /\ ev_SOCKS5RoundTrip e = true /\
    ev_StreamsOpened e = 5 /\ ev_StreamsCompleted e = 4 /\
    ev_RejectedDestinationCount e = 1 /\ ev_MalformedHandshakeRejectionCount e = 1 /\
    ev_EchoResponse e = "echo from relay-7: hello over onion" /\
    ev_HTTPResponseStatus e = "HTTP/1.1 200 OK".
Proof.
  intros Hlaw Hdrawn. unfold RunScenario. cbv zeta. destruct (NewSevenRelayTopology_total suite Hlaw) as [t Ht].
  unfold NewSevenRelayTopologyFromEnv. cbn [mbind result_bind]. rewrite Ht. cbn [mbind result_bind].
  assert (Hin : forall id, bool_decide (id ∈ relay_names) = true -> id ∈ relay_names)
    by (intros id; apply bool_decide_eq_true_1).
  destruct (BuildCircuit_run suite t "relay-1" "relay-4" "relay-7" drawn (lawful_kem_works suite Hlaw))
    as (t' & rt & x & Hb & Hok & Hpath & Hserv & Ho & Hc & _ & Hx & Hid & Hpol); try done;
    try (apply Hin; vm_compute; reflexivity).
  unfold scenario_path. rewrite Hb. cbn [snd mbind result_bind].
  assert (B0 : between 0 0 rt) by (constructor; [done..|]; by exists x).
  destruct script_calls as (C1 & (page & C2 & Hstatus) & (refusal & C3) & C4 & C5).
  destruct (malformed_run rt "relay-1") as [e0 He0]; [by eapply runtime_entry|].
  destruct (between_Send 0 0 rt DestinationEcho "hello over onion" B0) as (r1 & S1 & B1); [reflexivity|].
  rewrite C1 in S1, B1. destruct (between_Send _ _ r1 DestinationHTTP http_request B1) as (r2 & S2 & B2); [reflexivity|].
  rewrite C2 in S2, B2.
  destruct (between_Send _ _ r2 "example.com:80" ("GET / HTTP/1.1" ++ crlf ++ crlf) B2) as (r3 & S3 & B3); [reflexivity|].
  rewrite C3 in S3, B3. destruct (between_Send _ _ r3 DestinationEcho "second stream" B3) as (r4 & S4 & B4); [reflexivity|].
  rewrite C4 in S4, B4. destruct (between_SOCKS5 _ _ r4 B4) as (r5 & S5 & B5).
  unfold run_script. autorewrite with go_run. change (id rt) with rt. rewrite He0.
  rewrite run_bind, S1, run_bind, S2. autorewrite with go_run. rewrite S3, run_bind, S4, run_bind, S5.
  autorewrite with go_run. change (id r5) with r5. cbn [mret M_ret snd mbind result_bind].
  change (op_WriteArtifacts (with_defaults opts)) with (op_WriteArtifacts opts).
  eexists. split; [reflexivity|]. cbn [ev_FinalSuccess ev_SOCKS5RoundTrip ev_StreamsOpened ev_StreamsCompleted
    ev_RejectedDestinationCount ev_MalformedHandshakeRejectionCount ev_EchoResponse ev_HTTPResponseStatus].
  destruct B5 as [_ _ -> -> _]. by split_and!.
Qed.

(** The development suite, over the demonstration primitives. *)
Definition demo_dev : CryptoSuite := @devSuite demo_ed25519 demo_x25519.

Lemma demo_dev_lawful : LawfulSuite demo_dev.
Proof. exact (@devSuite_lawful _ demo_ed25519_laws _ demo_x25519_laws _ demo_mldsa87_laws _ demo_mlkem768_laws). Qed.

Definition demo_bytes (c : ascii) : string := string_of_list_ascii (repeat c 32).

Lemma scenario_succeeds_witness :
  let fs := mkFiles (fun _ => Ok tt) (fun _ _ => Ok tt) id in
  let drawn := (demo_bytes "a", demo_bytes "b", demo_bytes "c") in
  exists e, RunScenario fs None (mkTime 5 "t") (Ok demo_dev) drawn (mkOptions "" "" true) = Ok e /\
    ev_FinalSuccess e = true.
Proof.
  intros fs drawn.
  destruct (scenario_succeeds fs (mkTime 5 "t") demo_dev drawn (mkOptions "" "" true) demo_dev_lawful)
    as (e & He & Hs & _); [vm_compute; reflexivity|].
  exists (set_paths (with_defaults (mkOptions "" "" true)) e). split; [exact He|exact Hs].
Defined.
