(* ===== verification/Ccsds.v ===== *)
(** * The frame scheduler: bundle/ccsds/channel.go and bundle/ai_context/context.go

    Frames wait in a binary heap of [container/heap], the heaviest channel first and,
    within a weight, in the order of arrival.  The heap operations of the Go library
    are modelled on a list by index, as the library writes them, and proved for any
    total preorder; the scheduler is then shown to be a sorted queue. *)

From S2P Require Import Prelude.
Local Open Scope string_scope.
Local Open Scope Z_scope.

(** ** container/heap *)

Section heap.
Context {A : Type} (less : A -> A -> bool).
Local Open Scope nat_scope.

Definition swap (i j : nat) (l : list A) : list A :=
  match l !! i, l !! j with
  | Some a, Some b => <[i := b]> (<[j := a]> l)
  | _, _ => l
  end.

(** [h.Less(i, j)]. *)
Definition less_at (l : list A) (i j : nat) : bool :=
  match l !! i, l !! j with Some a, Some b => less a b | _, _ => false end.

Definition parent (j : nat) : nat := (j - 1) / 2.

(** Each turn moves to a smaller index: [j] turns are enough. *)
Fixpoint heap_up (fuel j : nat) (l : list A) : list A :=
  match fuel with
  | O => l
  | S fuel =>
      let i := parent j in
      if Nat.eqb i j || negb (less_at l j i) then l else heap_up fuel i (swap i j l)
  end.

(** Each turn moves to a larger index below [n]: [n] turns are enough. *)
Fixpoint heap_down (fuel i n : nat) (l : list A) : list A :=
  match fuel with
  | O => l
  | S fuel =>
      let j1 := 2 * i + 1 in
      if Nat.leb n j1 then l
      else
        let j := if Nat.ltb (j1 + 1) n && less_at l (j1 + 1) j1 then j1 + 1 else j1 in
        if negb (less_at l j i) then l else heap_down fuel j n (swap i j l)
  end.

Definition heap_Push (x : A) (l : list A) : list A :=
  let l := (l ++ [x])%list in heap_up (length l) (length l - 1) l.

(** The element taken out and the heap it leaves. *)
Definition heap_Pop (l : list A) : option (A * list A) :=
  let n := length l - 1 in
  let l := heap_down n 0 n (swap 0 n l) in
  x ← l !! n; Some (x, take n l).

(** *** The heap order *)

Definition le (a b : A) : Prop := less b a = false.

Definition le_at (l : list A) (i j : nat) : Prop :=
  forall a b, l !! i = Some a -> l !! j = Some b -> le a b.

Definition exchanged (i j k : nat) : nat :=
  if decide (k = i) then j else if decide (k = j) then i else k.

Lemma lookup_swap i j l k :
  i < length l -> j < length l -> swap i j l !! k = l !! exchanged i j k.
Proof.
  intros Hi Hj. unfold swap, exchanged. destruct (lookup_lt_is_Some_2 l i Hi) as [a Ha].
  destruct (lookup_lt_is_Some_2 l j Hj) as [b Hb]. rewrite Ha, Hb.
  destruct (decide (k = i)) as [->|Hki].
  - rewrite list_lookup_insert_eq by (by rewrite length_insert). done.
  - rewrite list_lookup_insert_ne by done. destruct (decide (k = j)) as [->|Hkj].
    + by rewrite list_lookup_insert_eq.
    + by rewrite list_lookup_insert_ne.
Qed.

Lemma length_swap i j l : length (swap i j l) = length l.
Proof. unfold swap. by repeat case_match; rewrite ?length_insert. Qed.

Lemma swap_perm i j l : swap i j l ≡ₚ l.
Proof.
  unfold swap. destruct (l !! i) as [a|] eqn:Ha; [|done]. destruct (l !! j) as [b|] eqn:Hb; [|done].
  by apply Permutation_insert_swap.
Qed.

(** *** Indices *)

Lemma parent_lt k : 0 < k -> parent k < k.
Proof. intros Hk. unfold parent. apply Nat.Div0.div_lt_upper_bound. lia. Qed.

Lemma parent_children k i : 0 < k -> parent k = i <-> k = 2 * i + 1 \/ k = 2 * i + 2.
Proof.
  intros Hk. unfold parent. pose proof (Nat.div_mod (k - 1) 2). pose proof (Nat.mod_upper_bound (k - 1) 2). lia.
Qed.

Definition is_heap (l : list A) (n : nat) : Prop := forall k, 0 < k < n -> le_at l (parent k) k.

(** The heap order but at [j], whose children are in order with its parent. *)
Record up_inv (j : nat) (l : list A) : Prop := {
  ui_rest : forall k, 0 < k < length l -> k <> j -> le_at l (parent k) k;
  ui_skip : 0 < j -> forall c, 0 < c < length l -> parent c = j -> le_at l (parent j) c
}.

Lemma le_at_swap i j l p k :
  i < length l -> j < length l -> le_at (swap i j l) p k <-> le_at l (exchanged i j p) (exchanged i j k).
Proof. intros Hi Hj. unfold le_at. by rewrite !lookup_swap. Qed.

Lemma exchanged_l i j : exchanged i j i = j.
Proof. unfold exchanged. by destruct (decide (i = i)). Qed.

Lemma exchanged_r i j : exchanged i j j = i.
Proof. unfold exchanged. destruct (decide (j = i)) as [->|]; [done|]. by destruct (decide (j = j)). Qed.

Lemma exchanged_other i j k : k <> i -> k <> j -> exchanged i j k = k.
Proof. intros Hi Hj. unfold exchanged. by rewrite !decide_False. Qed.

Context (le_trans : forall a b c, le a b -> le b c -> le a c).
Context (less_le : forall a b, less a b = true -> le a b).

#[local] Set Default Proof Using "All".

Lemma le_at_trans l i j k : j < length l -> le_at l i j -> le_at l j k -> le_at l i k.
Proof.
  intros Hj Hij Hjk a c Ha Hc. destruct (lookup_lt_is_Some_2 l j Hj) as [b Hb].
  by apply (le_trans _ b); [apply Hij|apply Hjk].
Qed.

Lemma less_at_le l i j : less_at l i j = true -> le_at l i j.
Proof. unfold less_at, le_at. intros Hl a b Ha Hb. rewrite Ha, Hb in Hl. by apply less_le. Qed.

Lemma less_at_not l i j : less_at l i j = false -> le_at l j i.
Proof. unfold less_at, le_at. intros Hl b a Hb Ha. by rewrite Ha, Hb in Hl. Qed.

Lemma heap_refl a : le a a.
Proof.
  unfold le. destruct (less a a) eqn:E; [|done]. pose proof (less_le _ _ E) as E'. unfold le in E'. congruence.
Qed.

Lemma heap_min l n k : is_heap l n -> n <= length l -> k < n -> le_at l 0 k.
Proof.
  intros Hh Hn. induction k as [k IH] using lt_wf_ind. intros Hk.
  destruct (decide (k = 0)) as [->|Hne].
  - intros a b Ha Hb. rewrite Ha in Hb. injection Hb as <-. unfold le.
    destruct (less a a) eqn:E; [|done]. pose proof (less_le _ _ E) as E'. unfold le in E'. congruence.
  - pose proof (parent_lt k ltac:(lia)) as Hp. apply (le_at_trans _ _ (parent k)); [lia| |apply Hh; lia].
    apply IH; lia.
Qed.

Lemma up_step j l :
  0 < j < length l -> up_inv j l -> less_at l j (parent j) = true -> up_inv (parent j) (swap (parent j) j l).
Proof.
  intros Hj [Hrest Hskip] Hless%less_at_le. set (i := parent j) in *.
  assert (Hi : i < j) by (apply parent_lt; lia).
  constructor; rewrite ?length_swap.
  - intros k Hk Hki. rewrite le_at_swap by lia. destruct (decide (k = j)) as [->|Hkj].
    + fold i. by rewrite exchanged_l, exchanged_r.
    + rewrite (exchanged_other i j k) by done. destruct (decide (parent k = i)) as [Hpk|Hpi].
      * rewrite Hpk, exchanged_l. apply (le_at_trans _ _ i); [lia|done|]. rewrite <-Hpk. apply Hrest; lia.
      * destruct (decide (parent k = j)) as [Hpj|Hpj].
        { rewrite Hpj, exchanged_r. apply Hskip; [lia|lia|done]. }
        rewrite exchanged_other by done. apply Hrest; lia.
  - intros Hi0 c Hc Hpc. rewrite le_at_swap by lia. pose proof (parent_lt i Hi0) as Hpi.
    rewrite (exchanged_other i j (parent i)) by lia. destruct (decide (c = j)) as [->|Hcj].
    + rewrite exchanged_r. apply Hrest; lia.
    + pose proof (parent_lt c ltac:(lia)). rewrite exchanged_other by lia.
      apply (le_at_trans _ _ i); [lia|apply Hrest; lia|]. rewrite <-Hpc. apply Hrest; lia.
Qed.

Lemma heap_up_spec fuel : forall j l,
  j <= fuel -> j < length l -> up_inv j l ->
  is_heap (heap_up fuel j l) (length l) /\ heap_up fuel j l ≡ₚ l.
Proof.
  induction fuel as [|fuel IH]; intros j l Hf Hj Hinv; cbn [heap_up].
  - split; [|done]. intros k Hk. apply Hinv; lia.
  - destruct (Nat.eqb_spec (parent j) j) as [Hp|Hp]; cbn [orb].
    + assert (j = 0) as -> by (destruct (decide (j = 0)); [done|]; pose proof (parent_lt j); lia).
      split; [|done]. intros k Hk. apply Hinv; lia.
    + assert (0 < j) by (destruct (decide (j = 0)) as [->|]; [done|lia]).
      pose proof (parent_lt j ltac:(done)). destruct (less_at l j (parent j)) eqn:E; cbn [negb].
      * destruct (IH (parent j) (swap (parent j) j l)) as [Hh Hperm];
          [lia|rewrite length_swap; lia|by apply up_step|].
        rewrite length_swap in Hh. split; [done|]. by rewrite Hperm, swap_perm.
      * split; [|done]. intros k Hk. destruct (decide (k = j)) as [->|Hne]; [by apply less_at_not|].
        apply Hinv; lia.
Qed.

Lemma heap_Push_spec x l : is_heap l (length l) ->
  is_heap (heap_Push x l) (length (heap_Push x l)) /\ heap_Push x l ≡ₚ x :: l.
Proof.
  intros Hh. unfold heap_Push. cbv zeta. set (l' := (l ++ [x])%list).
  assert (Hl : length l' = S (length l)) by (unfold l'; rewrite length_app; cbn; lia).
  destruct (heap_up_spec (length l') (length l' - 1) l') as [H1 H2]; [lia|lia| |].
  - assert (Hold : forall k, k < length l -> l' !! k = l !! k).
    { intros k Hk. unfold l'. by rewrite lookup_app_l. }
    constructor.
    + intros k Hk Hne a b. pose proof (parent_lt k ltac:(lia)). rewrite !Hold by lia. apply Hh. lia.
    + intros _ c Hc Hp. pose proof (parent_lt c ltac:(lia)). lia.
  - split.
    + by rewrite (Permutation_length H2).
    + rewrite H2. unfold l'. by rewrite Permutation_app_comm.
Qed.

(** The heap order of the first [n] but below [i], whose children are in order with
    its parent. *)
Record down_inv (i n : nat) (l : list A) : Prop := {
  di_rest : forall k, 0 < k < n -> parent k <> i -> le_at l (parent k) k;
  di_skip : 0 < i -> forall c, 0 < c < n -> parent c = i -> le_at l (parent i) c
}.

Lemma down_step i j n l :
  n <= length l -> 0 < j < n -> parent j = i -> down_inv i n l -> less_at l j i = true ->
  (forall c, 0 < c < n -> parent c = i -> le_at l j c) -> down_inv j n (swap i j l).
Proof.
  intros Hn Hj Hpj [Hrest Hskip] Hless%less_at_le Hmin. pose proof (parent_lt j ltac:(lia)) as Hi.
  constructor.
  - intros k Hk Hkp. pose proof (parent_lt k ltac:(lia)). rewrite le_at_swap by lia.
    destruct (decide (k = j)) as [->|Hkj].
    + rewrite Hpj, exchanged_l, exchanged_r. done.
    + destruct (decide (parent k = i)) as [Hki|Hki].
      * rewrite Hki, exchanged_l, (exchanged_other i j k) by lia. by apply Hmin.
      * rewrite (exchanged_other i j (parent k)) by done. destruct (decide (k = i)) as [->|Hne].
        { rewrite exchanged_l. apply Hskip; lia. }
        rewrite exchanged_other by done. by apply Hrest.
  - intros _ c Hc Hpc. pose proof (parent_lt c ltac:(lia)). rewrite le_at_swap by lia.
    rewrite Hpj, exchanged_l, (exchanged_other i j c) by lia. rewrite <-Hpc. apply Hrest; lia.
Qed.

Lemma heap_down_spec fuel : forall i n l,
  n <= i + fuel -> n <= length l -> down_inv i n l ->
  is_heap (heap_down fuel i n l) n /\ heap_down fuel i n l ≡ₚ l /\
  (forall k, n <= k -> heap_down fuel i n l !! k = l !! k) /\ length (heap_down fuel i n l) = length l.
Proof.
  induction fuel as [|fuel IH]; intros i n l Hf Hn Hinv; cbn [heap_down].
  - split_and!; try done. intros k Hk. apply Hinv; [done|].
    intros E. apply parent_children in E; lia.
  - destruct (Nat.leb_spec n (2 * i + 1)) as [Hleaf|Hchild].
    + split_and!; try done. intros k Hk. apply Hinv; [done|]. intros E. apply parent_children in E; lia.
    + match goal with |- context [negb (less_at l ?x i)] => set (j := x) end.
      assert (Hj : 0 < j < n /\ parent j = i /\ i < j /\ forall c, 0 < c < n -> parent c = i -> le_at l j c).
      { subst j. destruct (Nat.ltb_spec (2 * i + 1 + 1) n) as [H2|H2]; cbn [andb].
        - destruct (less_at l (2 * i + 1 + 1) (2 * i + 1)) eqn:E; (split_and!; [lia|lia|apply parent_children; lia|lia|]);
            intros c Hc [->| ->]%parent_children; try lia.
          + by apply less_at_le.
          + replace (2 * i + 1 + 1) with (2 * i + 2) by lia. intros a b Ha Hb. rewrite Ha in Hb.
            injection Hb as <-. apply (heap_refl a).
          + intros a b Ha Hb. rewrite Ha in Hb. injection Hb as <-. apply (heap_refl a).
          + replace (2 * i + 2) with (2 * i + 1 + 1) by lia. by apply less_at_not.
        - split_and!; [lia|lia|apply parent_children; lia|lia|].
          intros c Hc [->| ->]%parent_children; try lia. intros a b Ha Hb. rewrite Ha in Hb.
          injection Hb as <-. apply (heap_refl a). }
      destruct Hj as (Hj & Hpj & Hij & Hmin). destruct (less_at l j i) eqn:E; cbn [negb].
      * destruct (IH j n (swap i j l)) as (H1 & H2 & H3 & H4); [lia|by rewrite length_swap|by apply down_step|].
        rewrite length_swap in H4. split_and!; [done|by rewrite H2, swap_perm| |done].
        intros k Hk. rewrite H3 by done. rewrite lookup_swap by lia. rewrite exchanged_other by lia. done.
      * split_and!; try done. intros k Hk. destruct (decide (parent k = i)) as [Hpk|Hpk]; [|by apply Hinv].
        rewrite Hpk. apply (le_at_trans _ _ j); [lia|by apply less_at_not|by apply Hmin].
Qed.

(** The element taken out is least, and what is left is a heap of the others. *)
Lemma heap_Pop_spec l : is_heap l (length l) ->
  match heap_Pop l with
  | None => l = []
  | Some (x, l') => l ≡ₚ x :: l' /\ is_heap l' (length l') /\ Forall (le x) l
  end.
Proof.
  intros Hh. unfold heap_Pop. destruct l as [|x0 l0]; [done|]. set (l := x0 :: l0) in *.
  set (n := length l - 1). assert (Hlen : length l = S n) by (unfold n; cbn; lia).
  destruct (heap_down_spec n 0 n (swap 0 n l)) as (H1 & H2 & H3 & H4); [lia|rewrite length_swap; lia| |].
  { constructor; [|lia]. intros k Hk Hp. pose proof (parent_lt k ltac:(lia)).
    rewrite le_at_swap by lia. rewrite !exchanged_other by lia. apply Hh. lia. }
  rewrite H3, lookup_swap, exchanged_r by lia. change (l !! 0) with (Some x0). cbn [mbind option_bind].
  set (d := heap_down n 0 n (swap 0 n l)) in *. rewrite length_swap in H4.
  assert (Hd : d = (take n d ++ [x0])%list).
  { rewrite <-(take_drop n d) at 1. f_equal.
    assert (Hx : d !! n = Some x0).
    { rewrite H3 by done. rewrite lookup_swap, exchanged_r by lia. done. }
    rewrite (drop_S d x0 n Hx). f_equal. apply drop_ge. lia. }
  split_and!.
  - assert (Hp : d ≡ₚ l) by (by rewrite H2, swap_perm). rewrite <-Hp, Hd at 1. by rewrite Permutation_app_comm.
  - rewrite length_take, H4. replace (n `min` length l) with n by lia. intros k Hk a b.
    pose proof (parent_lt k ltac:(lia)). rewrite !lookup_take_lt by lia. apply H1. lia.
  - apply Forall_lookup. intros k b Hk. apply (heap_min l (length l) k Hh); [done| |done|done].
    by eapply lookup_lt_Some.
Qed.
End heap.

(** ** The scheduler *)

(** A [ChannelID] is a string. *)
Definition Conversation : string := "conversation".
Definition WorkingMemory : string := "working_memory".
Definition Execution : string := "execution".
Definition Retrieval : string := "retrieval".

Record ChannelPolicy := mkPolicy {
  cp_ID : string;
  cp_PriorityWeight : Z;
  cp_CompressionProfile : string;
  cp_EvictionPolicy : string
}.

Record Frame := mkFrame {
  fm_Channel : string;
  fm_Sequence : Z;
  fm_Payload : string;
  fm_Enqueued : Z;
  fm_weight : Z;
  fm_insertion : Z
}.

Record Scheduler := mkScheduler {
  sc_policies : gmap string ChannelPolicy;
  sc_queue : list Frame;
  sc_next : Z
}.

Definition DefaultPolicies : gmap string ChannelPolicy :=
  {[ Execution := mkPolicy Execution 100 "none" "never-drop-running-tool-call";
     Retrieval := mkPolicy Retrieval 70 "zstd-placeholder" "drop-stale-results-first";
     WorkingMemory := mkPolicy WorkingMemory 50 "semantic-summary-placeholder" "summarize-oldest";
     Conversation := mkPolicy Conversation 40 "token-aware-placeholder" "summarize-oldest" ]}.

Definition NewScheduler (policies : gmap string ChannelPolicy) : Scheduler :=
  mkScheduler (if Nat.eqb (size policies) 0 then DefaultPolicies else policies) [] 0.

(** [frameHeap.Less]. *)
Definition Less (a b : Frame) : bool :=
  if fm_weight a =? fm_weight b then fm_insertion a <? fm_insertion b else fm_weight b <? fm_weight a.

Definition Enqueue (now : Time) (channel : string) (sequence : Z) (payload : string) (s : Scheduler)
    : Scheduler * result unit :=
  match sc_policies s !! channel with
  | None => (s, Err (errorf ["unknown virtual channel: "; channel]))
  | Some policy =>
      let next := u64 (sc_next s + 1) in
      let frame := mkFrame channel sequence payload (UnixMilli now) (cp_PriorityWeight policy) next in
      (mkScheduler (sc_policies s) (heap_Push Less frame (sc_queue s)) next, Ok tt)
  end.

Definition Next (s : Scheduler) : Scheduler * option Frame :=
  if Nat.eqb (length (sc_queue s)) 0 then (s, None)
  else
    match heap_Pop Less (sc_queue s) with
    | None => (s, None)
    | Some (frame, queue) => (mkScheduler (sc_policies s) queue (sc_next s), Some frame)
    end.

Definition Scheduler_Len (s : Scheduler) : Z := Z.of_nat (length (sc_queue s)).

(** [ai_context.DefaultContextWindow]. *)
Record ContextWindow := mkWindow { cw_MaxTokens : Z; cw_Policies : gmap string ChannelPolicy }.

Definition DefaultContextWindow : ContextWindow := mkWindow 128000 DefaultPolicies.

(** *** The order of service *)

Definition frame_le (a b : Frame) : Prop :=
  fm_weight b < fm_weight a \/ (fm_weight a = fm_weight b /\ fm_insertion a <= fm_insertion b).

#[export] Instance frame_le_dec : RelDecision frame_le.
Proof. intros a b. unfold frame_le. apply _. Defined.

#[export] Instance frame_le_trans : Transitive frame_le.
Proof. unfold frame_le. intros a b c. lia. Qed.

#[export] Instance frame_le_total : Total frame_le.
Proof. unfold frame_le. intros a b. lia. Qed.

Lemma heap_le_frame a b : le Less a b <-> frame_le a b.
Proof.
  unfold le, Less, frame_le. destruct (Z.eqb_spec (fm_weight b) (fm_weight a)).
  - rewrite Z.ltb_ge. lia.
  - rewrite Z.ltb_ge. lia.
Qed.

Lemma Less_trans a b c : le Less a b -> le Less b c -> le Less a c.
Proof. rewrite !heap_le_frame. apply frame_le_trans. Qed.

Lemma Less_le a b : Less a b = true -> le Less a b.
Proof.
  rewrite heap_le_frame. unfold Less, frame_le.
  destruct (Z.eqb_spec (fm_weight a) (fm_weight b)); rewrite Z.ltb_lt; lia.
Qed.

(** The queue as it will be served. *)
Definition queue_of (s : Scheduler) : list Frame := merge_sort frame_le (sc_queue s).

Record sched_inv (s : Scheduler) : Prop := {
  sv_heap : is_heap Less (sc_queue s) (length (sc_queue s));
  sv_unique : NoDup (map fm_insertion (sc_queue s));
  sv_below : Forall (fun f => fm_insertion f <= sc_next s) (sc_queue s);
  sv_next : 0 <= sc_next s
}.

Lemma unique_frames (l : list Frame) a b :
  NoDup (map fm_insertion l) -> a ∈ l -> b ∈ l -> frame_le a b -> frame_le b a -> a = b.
Proof.
  intros Hnd Ha Hb Hab Hba. assert (E : fm_insertion a = fm_insertion b) by (unfold frame_le in *; lia).
  clear Hab Hba. induction l as [|x l IH]; [by apply elem_of_nil in Ha|].
  cbn in Hnd. apply NoDup_cons in Hnd as [Hx Hnd].
  assert (Hno : forall y, y ∈ l -> fm_insertion y <> fm_insertion x).
  { intros y Hy Ey. apply Hx. rewrite <-Ey. by apply list_elem_of_fmap_2. }
  apply elem_of_cons in Ha as [->|Ha], Hb as [->|Hb]; [done| | |by apply IH].
  - exfalso. by apply (Hno b).
  - exfalso. by apply (Hno a).
Qed.

Lemma queue_of_unique s l :
  NoDup (map fm_insertion (sc_queue s)) -> StronglySorted frame_le l -> l ≡ₚ sc_queue s -> queue_of s = l.
Proof.
  intros Hnd Hs Hp. apply (sorted_unique_on frame_le).
  - apply StronglySorted_merge_sort; apply _.
  - done.
  - unfold queue_of. by rewrite merge_sort_Permutation.
  - intros a b. unfold queue_of. rewrite merge_sort_Permutation. by apply unique_frames.
Qed.

Lemma Forall_filter_keep {A} (P Q : A -> Prop) `{!forall x, Decision (Q x)} (l : list A) :
  Forall P l -> Forall P (filter Q l).
Proof. rewrite !Forall_forall. intros Hl x Hx. apply list_elem_of_filter in Hx as [_ Hx]. by apply Hl. Qed.

Lemma StronglySorted_snoc_filter (w : Z) (f : Frame) l :
  StronglySorted frame_le l -> fm_weight f = w ->
  Forall (fun g => fm_insertion g <= fm_insertion f) l ->
  StronglySorted frame_le (filter (fun g => w <= fm_weight g) l ++ f :: filter (fun g => fm_weight g < w) l)%list.
Proof.
  intros Hs Hw. induction Hs as [|g l Hs IH Hg]; intros Hb.
  - cbn. by repeat constructor.
  - apply Forall_cons in Hb as [Hgf Hb]. specialize (IH Hb). rewrite !filter_cons.
    destruct (decide (w <= fm_weight g)) as [Hle|Hlt].
    + rewrite decide_False by lia. cbn [app]. constructor; [done|].
      apply Forall_app. split; [by apply Forall_filter_keep|].
      constructor; [unfold frame_le; lia|by apply Forall_filter_keep].
    + rewrite decide_True by lia. assert (Hnil : filter (fun g0 => w <= fm_weight g0) l = []).
      { clear -Hg Hlt. induction Hg as [|h l Hh _ IHl]; [done|]. rewrite filter_cons, decide_False; [done|].
        unfold frame_le in Hh. lia. }
      rewrite Hnil in IH |- *. cbn [app] in *. inversion IH as [|? ? Hsl Hfl]; subst. constructor.
      * constructor; [done|by apply Forall_filter_keep].
      * constructor; [unfold frame_le; lia|done].
Qed.

Lemma filter_split_perm (w : Z) (f : Frame) l :
  (filter (fun g => w <= fm_weight g) l ++ f :: filter (fun g => fm_weight g < w) l)%list ≡ₚ f :: l.
Proof.
  rewrite <-Permutation_middle. constructor. induction l as [|g l IH]; [done|]. rewrite !filter_cons.
  destruct (decide (w <= fm_weight g)).
  - rewrite decide_False by lia. cbn. by rewrite IH.
  - rewrite decide_True by lia. by rewrite <-Permutation_middle, IH.
Qed.

Lemma queue_sorted s : StronglySorted frame_le (queue_of s).
Proof. apply StronglySorted_merge_sort; apply _. Qed.

Lemma queue_perm s : queue_of s ≡ₚ sc_queue s.
Proof. apply merge_sort_Permutation. Qed.

Lemma NewScheduler_inv policies : sched_inv (NewScheduler policies).
Proof. constructor; cbn; [intros k Hk; lia|constructor|constructor|lia]. Qed.

(** What a call of [Next] takes is the first of the queue. *)
Lemma Next_spec s : sched_inv s ->
  sched_inv (Next s).1 /\
  match queue_of s with
  | [] => (Next s) = (s, None)
  | f :: rest => (Next s).2 = Some f /\ queue_of (Next s).1 = rest
  end.
Proof.
  intros [Hh Hnd Hb Hn]. unfold Next. destruct (Nat.eqb_spec (length (sc_queue s)) 0) as [E|E].
  { split; [by constructor|]. apply nil_length_inv in E. unfold queue_of. by rewrite E. }
  pose proof (heap_Pop_spec Less Less_trans Less_le (sc_queue s) Hh) as Hpop.
  destruct (heap_Pop Less (sc_queue s)) as [[f q]|]; [|by rewrite Hpop in E].
  destruct Hpop as (Hp & Hq & Hmin). cbn [fst snd].
  rewrite Hp in Hnd, Hb. cbn [map] in Hnd. apply NoDup_cons in Hnd as [Hf Hnd].
  apply Forall_cons in Hb as [_ Hb]. split; [by constructor|].
  assert (Hqueue : queue_of s = f :: merge_sort frame_le q).
  { apply queue_of_unique.
    - rewrite Hp. by constructor.
    - constructor; [apply StronglySorted_merge_sort; apply _|]. rewrite merge_sort_Permutation.
      rewrite Hp in Hmin. apply Forall_cons in Hmin as [_ Hmin].
      eapply Forall_impl; [exact Hmin|]. intros g. apply heap_le_frame.
    - by rewrite merge_sort_Permutation. }
  rewrite Hqueue. done.
Qed.

(** A frame of a known channel goes behind those of its weight or more. *)
Lemma Enqueue_spec now channel sequence payload policy s :
  sched_inv s -> sc_policies s !! channel = Some policy -> sc_next s + 1 < 2 ^ 64 ->
  let s' := (Enqueue now channel sequence payload s).1 in
  let w := cp_PriorityWeight policy in
  sched_inv s' /\ (Enqueue now channel sequence payload s).2 = Ok tt /\
  queue_of s' =
    (filter (fun g => (w <= fm_weight g)%Z) (queue_of s) ++
     mkFrame channel sequence payload (UnixMilli now) w (sc_next s + 1) ::
     filter (fun g => (fm_weight g < w)%Z) (queue_of s))%list.
Proof.
  intros [Hh Hnd Hb Hn] Hpol Hlt. cbv zeta. unfold Enqueue. rewrite Hpol. cbv zeta.
  assert (Hu : u64 (sc_next s + 1) = sc_next s + 1) by (apply u64_small; unfold is_u64, two64; lia).
  rewrite Hu. set (f := mkFrame _ _ _ _ _ _). cbn [fst snd].
  destruct (heap_Push_spec Less Less_trans Less_le f (sc_queue s) Hh) as [Hh' Hp].
  assert (Hnew : NoDup (map fm_insertion (heap_Push Less f (sc_queue s)))).
  { rewrite Hp. cbn. constructor; [|done]. intros Hin. apply list_elem_of_fmap in Hin as (g & Hg & Hgin).
    rewrite Forall_forall in Hb. specialize (Hb g Hgin). lia. }
  split_and!; [|done|].
  - constructor; cbn; [done|done| |lia]. rewrite Hp. constructor; [cbn; lia|].
    eapply Forall_impl; [exact Hb|]. cbn. lia.
  - apply queue_of_unique; [done| |].
    + apply StronglySorted_snoc_filter; [apply queue_sorted|done|]. rewrite queue_perm.
      eapply Forall_impl; [exact Hb|]. cbn. lia.
    + rewrite filter_split_perm, queue_perm. cbn. by rewrite Hp.
Qed.

(** The frames in the order a queue of its own would serve them: what a reader of the
    code expects the heap to implement. *)
Inductive request := ReqEnqueue (now : Time) (channel : string) (sequence : Z) (payload : string) | ReqNext.

(** What the caller sees: [Enqueue]'s error or its absence, [Next]'s frame or its absence. *)
Inductive answer := AnsEnqueue (r : result unit) | AnsNext (frame : option Frame).

Definition serve_request (r : request) (s : Scheduler) : Scheduler * answer :=
  match r with
  | ReqEnqueue now channel sequence payload => let '(s, r) := Enqueue now channel sequence payload s in (s, AnsEnqueue r)
  | ReqNext => let '(s, frame) := Next s in (s, AnsNext frame)
  end.

(** The specification: a list kept sorted, and the number of frames accepted so far. *)
Definition spec_request (policies : gmap string ChannelPolicy) (r : request) (q : list Frame * Z)
    : (list Frame * Z) * answer :=
  match r with
  | ReqEnqueue now channel sequence payload =>
      match policies !! channel with
      | None => (q, AnsEnqueue (Err (errorf ["unknown virtual channel: "; channel])))
      | Some p =>
          let w := cp_PriorityWeight p in
          ((filter (fun g => (w <= fm_weight g)%Z) q.1 ++
            mkFrame channel sequence payload (UnixMilli now) w (q.2 + 1) ::
            filter (fun g => (fm_weight g < w)%Z) q.1, q.2 + 1)%list, AnsEnqueue (Ok tt))
      end
  | ReqNext => match q.1 with [] => (q, AnsNext None) | f :: rest => ((rest, q.2), AnsNext (Some f)) end
  end.

Fixpoint serve_requests (rs : list request) (s : Scheduler) : list answer :=
  match rs with
  | [] => []
  | r :: rs => let '(s, out) := serve_request r s in out :: serve_requests rs s
  end.

Fixpoint spec_requests (policies : gmap string ChannelPolicy) (rs : list request) (q : list Frame * Z)
    : list answer :=
  match rs with
  | [] => []
  | r :: rs => let '(q, out) := spec_request policies r q in out :: spec_requests policies rs q
  end.

Lemma serve_simulation rs : forall s,
  sched_inv s -> sc_next s + Z.of_nat (length rs) < 2 ^ 64 ->
  serve_requests rs s = spec_requests (sc_policies s) rs (queue_of s, sc_next s).
Proof.
  induction rs as [|r rs IH]; intros s Hs Hlt; [done|]. cbn [length] in Hlt. cbn [serve_requests spec_requests].
  destruct r as [now channel sequence payload|]; cbn [serve_request spec_request fst snd].
  - destruct (sc_policies s !! channel) as [p|] eqn:Hpol.
    + destruct (Enqueue_spec now channel sequence payload p s) as (Hs' & _ & Hq); [done|done|lia|].
      cbv zeta in Hq, Hs'. unfold Enqueue in *. rewrite Hpol in *. cbv zeta in *. cbn [fst snd] in *.
      assert (Hu : u64 (sc_next s + 1) = sc_next s + 1) by (apply u64_small; unfold is_u64, two64; destruct Hs; lia).
      rewrite Hu in *. f_equal. rewrite IH; [|exact Hs'|cbn [sc_next]; lia]. by rewrite Hq.
    + unfold Enqueue. rewrite Hpol. f_equal. apply IH; [done|lia].
  - destruct (Next_spec s Hs) as [Hs' Hq]. pose proof (sv_next s Hs).
    assert (Hkeep : sc_policies (Next s).1 = sc_policies s /\ sc_next (Next s).1 = sc_next s).
    { unfold Next. destruct (Nat.eqb _ 0); [done|]. by destruct (heap_Pop Less (sc_queue s)) as [[f q]|]. }
    destruct Hkeep as [Hk1 Hk2].
    destruct (queue_of s) as [|f rest] eqn:E.
    + rewrite Hq. f_equal. rewrite IH by (done || lia). by rewrite E.
    + destruct Hq as [Hq1 Hq2]. destruct (Next s) as [s' out]. cbn [fst snd] in *. rewrite Hq1. f_equal.
      rewrite IH; [|done|lia]. by rewrite Hk1, Hk2, Hq2.
Qed.

(** C34: The frame scheduler is a priority queue.  Whatever calls of [Enqueue] and [Next]
    are made on a new scheduler, fewer than 2^64 of them, every call answers as a list
    does in which each accepted frame is put behind every waiting frame of its channel's
    weight or more and before the lighter ones: [Next] hands out the first frame, heavier
    channels first, first come first served within a weight, nothing lost or repeated, and
    nothing when none waits; [Enqueue] returns no error when the channel has a policy, and
    otherwise the error that names the channel, with nothing changed.  The binary heap
    underneath is [container/heap]'s. *)
Theorem scheduler_refines policies rs :
  Z.of_nat (length rs) < 2 ^ 64 ->
  serve_requests rs (NewScheduler policies) =
  spec_requests (sc_policies (NewScheduler policies)) rs ([], 0).
Proof. intros Hlt. exact (serve_simulation rs (NewScheduler policies) (NewScheduler_inv policies) Hlt). Qed.

Lemma scheduler_refines_witness :
  let rs := [ReqEnqueue (mkTime 0 "") Conversation 1 "a"; ReqEnqueue (mkTime 0 "") Execution 1 "b"; ReqEnqueue (mkTime 0 "") Conversation 2 "c";
             ReqEnqueue (mkTime 0 "") "nowhere" 1 "d"; ReqNext; ReqNext; ReqNext; ReqNext] in
  let seen a := match a with
                | AnsEnqueue (Ok _) => "accepted"
                | AnsEnqueue (Err e) => err_text e
                | AnsNext frame => from_option fm_Payload "none" frame
                end in
  serve_requests rs (NewScheduler ∅) = spec_requests (sc_policies (NewScheduler ∅)) rs ([], 0) /\
  map seen (serve_requests rs (NewScheduler ∅)) =
    ["accepted"; "accepted"; "accepted"; "unknown virtual channel: nowhere"; "b"; "a"; "c"; "none"].
Proof. split; [apply (scheduler_refines ∅); reflexivity|vm_compute; reflexivity]. Defined.
