(* ===== verification/Health.v ===== *)
(** * The health monitor: consensus/health/health.go

    A detector keeps what it last heard of each validator, compares heartbeats with a
    reference and counts the ticks since the last one.  Every change of status is
    reported once.  Ticks and heights are [uint64]s and wrap. *)

From S2P Require Import Prelude Sha256 Json Identity State Protocol.
Local Open Scope string_scope.
Local Open Scope Z_scope.

(** A [Status] is a string. *)
Definition Status := string.
Definition StatusHealthy : Status := "healthy".
Definition StatusDegraded : Status := "degraded".
Definition StatusSuspectedFailed : Status := "suspected_failed".
Definition StatusFailed : Status := "failed".
Definition StatusRecovering : Status := "recovering".
Definition StatusRecovered : Status := "recovered".

Definition EventStatusChanged : string := "status_changed".
Definition EventFailureDetected : string := "failure_detected".
Definition EventLaggingDetected : string := "lagging_detected".
Definition EventInconsistentDetected : string := "inconsistent_state_detected".
Definition EventRemediationStarted : string := "remediation_started".
Definition EventRemediationCompleted : string := "remediation_completed".

Record HeartbeatRecord := mkHeartbeat {
  hb_ValidatorID : string;
  hb_Region : string;
  hb_Height : Z;
  hb_Round : Z;
  hb_BlockHash : string;
  hb_StateDigest : string;
  hb_LogicalTick : Z;
  hb_TimestampUnixMilli : Z;
  hb_Status : Status
}.

Record ValidatorHealth := mkHealth {
  vh_ValidatorID : string;
  vh_Region : string;
  vh_CurrentHeight : Z;
  vh_CurrentRound : Z;
  vh_LatestCommittedBlockHash : string;
  vh_LatestStateDigest : string;
  vh_LastHeartbeatTick : Z;
  vh_LastHeartbeatUnixMilli : Z;
  vh_Status : Status;
  vh_FailureDetectedTick : Z;
  vh_RemediationStartedTick : Z;
  vh_RemediationCompletedTick : Z;
  vh_RecoveryCompletedTick : Z;
  vh_LastStatusChangeTick : Z;
  vh_Reason : string
}.

(** The value a map gives for an id it does not have. *)
Definition zero_health : ValidatorHealth := mkHealth "" "" 0 0 "" "" 0 0 "" 0 0 0 0 0 "".

Record EvidenceRecord := mkHealthEvent {
  ev_EventType : string;
  ev_ValidatorID : string;
  ev_ObservedStatus : Status;
  ev_PreviousStatus : Status;
  ev_Height : Z;
  ev_Round : Z;
  ev_BlockHash : string;
  ev_StateDigest : string;
  ev_LogicalTick : Z;
  ev_TimestampUnixMilli : Z;
  ev_Reason : string
}.

Record DetectorConfig := mkDetectorConfig {
  dc_SuspectAfterTicks : Z;
  dc_FailAfterTicks : Z;
  dc_LagHeightThreshold : Z
}.

Record Detector := mkDetector { dt_cfg : DetectorConfig; dt_states : gmap string ValidatorHealth }.

Definition NewDetector (cfg : DetectorConfig) : Detector :=
  let suspect := if dc_SuspectAfterTicks cfg =? 0 then 2 else dc_SuspectAfterTicks cfg in
  let fail := if dc_FailAfterTicks cfg =? 0 then u64 (suspect + 1) else dc_FailAfterTicks cfg in
  let fail := if fail <? suspect then suspect else fail in
  mkDetector (mkDetectorConfig suspect fail (dc_LagHeightThreshold cfg)) ∅.

Definition HeartbeatFromSnapshot (now : Time) (snapshot : StateSnapshot) (logicalTick : Z) (status : Status)
    : HeartbeatRecord :=
  let status := if String.eqb status "" then StatusHealthy else status in
  mkHeartbeat (ss_NodeID snapshot) (ss_Region snapshot) (ss_Height snapshot) (ss_Round snapshot)
    (ss_LastHash snapshot) (ss_StateDigest snapshot) logicalTick (UnixMilli now) status.

Definition isUnhealthy (status : Status) : bool :=
  String.eqb status StatusDegraded || String.eqb status StatusSuspectedFailed ||
  String.eqb status StatusFailed || String.eqb status StatusRecovering.

Definition hash_differs : string := "reported block hash differs from reference committed hash".
Definition digest_differs : string := "reported state digest differs from reference committed state digest".

(** The event type [setStatus] reports a new status under. *)
Definition event_type (next : Status) (reason : string) : string :=
  if String.eqb next StatusFailed then
    if String.eqb reason hash_differs || String.eqb reason digest_differs
    then EventInconsistentDetected else EventFailureDetected
  else if String.eqb next StatusDegraded then EventLaggingDetected
  else EventStatusChanged.

(** The status fields of a record. *)
Definition with_status (status : Status) (failureTick changeTick : Z) (s : ValidatorHealth) : ValidatorHealth :=
  mkHealth (vh_ValidatorID s) (vh_Region s) (vh_CurrentHeight s) (vh_CurrentRound s)
    (vh_LatestCommittedBlockHash s) (vh_LatestStateDigest s) (vh_LastHeartbeatTick s)
    (vh_LastHeartbeatUnixMilli s) status failureTick (vh_RemediationStartedTick s)
    (vh_RemediationCompletedTick s) (vh_RecoveryCompletedTick s) changeTick (vh_Reason s).

Definition with_reason (reason : string) (s : ValidatorHealth) : ValidatorHealth :=
  mkHealth (vh_ValidatorID s) (vh_Region s) (vh_CurrentHeight s) (vh_CurrentRound s)
    (vh_LatestCommittedBlockHash s) (vh_LatestStateDigest s) (vh_LastHeartbeatTick s)
    (vh_LastHeartbeatUnixMilli s) (vh_Status s) (vh_FailureDetectedTick s) (vh_RemediationStartedTick s)
    (vh_RemediationCompletedTick s) (vh_RecoveryCompletedTick s) (vh_LastStatusChangeTick s) reason.

(** An event about the validator of record [s]. *)
Definition event_of (eventType validatorID : string) (observed previous : Status) (tick unixMilli : Z)
    (reason : string) (s : ValidatorHealth) : EvidenceRecord :=
  mkHealthEvent eventType validatorID observed previous (vh_CurrentHeight s) (vh_CurrentRound s)
    (vh_LatestCommittedBlockHash s) (vh_LatestStateDigest s) tick unixMilli reason.

Definition setStatus (state : ValidatorHealth) (previous next : Status) (logicalTick unixMilli : Z)
    (reason : string) : ValidatorHealth * list EvidenceRecord :=
  let next := if String.eqb next "" then StatusHealthy else next in
  if String.eqb previous next && negb (vh_LastStatusChangeTick state =? 0) then
    (with_status next (vh_FailureDetectedTick state) (vh_LastStatusChangeTick state) state, [])
  else
    let failureTick := if String.eqb next StatusFailed && (vh_FailureDetectedTick state =? 0)
                       then logicalTick else vh_FailureDetectedTick state in
    let state := with_status next failureTick logicalTick state in
    (state, [event_of (event_type next reason) (vh_ValidatorID state) next previous logicalTick unixMilli
               reason state]).

Definition or_healthy (s : Status) : Status := if String.eqb s "" then StatusHealthy else s.

(** What a heartbeat means: its status and the reason, compared with a reference if
    there is one. *)
Definition judge (cfg : DetectorConfig) (previous : Status) (hb : HeartbeatRecord)
    (reference : option HeartbeatRecord) : Status * string :=
  match reference with
  | None => (hb_Status hb, "heartbeat received")
  | Some r =>
      if (hb_Height hb =? hb_Height r) && negb (String.eqb (hb_BlockHash hb) "") &&
         negb (String.eqb (hb_BlockHash r) "") && negb (String.eqb (hb_BlockHash hb) (hb_BlockHash r))
      then (StatusFailed, hash_differs)
      else if (hb_Height hb =? hb_Height r) && negb (String.eqb (hb_StateDigest hb) "") &&
              negb (String.eqb (hb_StateDigest r) "") &&
              negb (String.eqb (hb_StateDigest hb) (hb_StateDigest r))
      then (StatusFailed, digest_differs)
      else if u64 (hb_Height hb + dc_LagHeightThreshold cfg) <? hb_Height r
      then (StatusDegraded, "validator is lagging behind committed height")
      else if isUnhealthy previous && (hb_Height hb =? hb_Height r) &&
              String.eqb (hb_BlockHash hb) (hb_BlockHash r) &&
              String.eqb (hb_StateDigest hb) (hb_StateDigest r)
      then (StatusRecovered, "validator heartbeat converged to reference state")
      else (StatusHealthy, "heartbeat received")
  end.

Definition with_default_status (hb : HeartbeatRecord) : HeartbeatRecord :=
  mkHeartbeat (hb_ValidatorID hb) (hb_Region hb) (hb_Height hb) (hb_Round hb) (hb_BlockHash hb)
    (hb_StateDigest hb) (hb_LogicalTick hb) (hb_TimestampUnixMilli hb) (or_healthy (hb_Status hb)).

Definition health_of (id : string) (d : Detector) : ValidatorHealth := default zero_health (dt_states d !! id).

Definition put_health (id : string) (s : ValidatorHealth) (d : Detector) : Detector :=
  mkDetector (dt_cfg d) (<[id := s]> (dt_states d)).

Definition Observe (hb : HeartbeatRecord) (reference : option HeartbeatRecord) (d : Detector)
    : Detector * list EvidenceRecord :=
  let hb := with_default_status hb in
  let state := health_of (hb_ValidatorID hb) d in
  let previous := or_healthy (vh_Status state) in
  let '(next, reason) := judge (dt_cfg d) previous hb reference in
  let state := mkHealth (hb_ValidatorID hb) (hb_Region hb) (hb_Height hb) (hb_Round hb) (hb_BlockHash hb)
    (hb_StateDigest hb) (hb_LogicalTick hb) (hb_TimestampUnixMilli hb) (vh_Status state)
    (vh_FailureDetectedTick state) (vh_RemediationStartedTick state) (vh_RemediationCompletedTick state)
    (vh_RecoveryCompletedTick state) (vh_LastStatusChangeTick state) reason in
  let '(state, events) := setStatus state previous next (hb_LogicalTick hb) (hb_TimestampUnixMilli hb) reason in
  (put_health (hb_ValidatorID hb) state d, events).

(** What the ticks since the last heartbeat mean for a status. *)
Definition overdue (cfg : DetectorConfig) (missed : Z) (previous : Status) : Status * string :=
  if dc_FailAfterTicks cfg <=? missed then (StatusFailed, "heartbeat failure threshold exceeded")
  else if dc_SuspectAfterTicks cfg <=? missed then (StatusSuspectedFailed, "heartbeat suspect threshold exceeded")
  else (previous, "").

(** One turn of the loop of [Evaluate]. *)
Definition evaluate_one (logicalTick unixMilli : Z) (acc : Detector * list EvidenceRecord) (id : string)
    : Detector * list EvidenceRecord :=
  let '(d, events) := acc in
  let state := health_of id d in
  if (vh_LastHeartbeatTick state =? 0) || (logicalTick <=? vh_LastHeartbeatTick state) then (d, events)
  else
    let missed := u64 (logicalTick - vh_LastHeartbeatTick state) in
    let previous := vh_Status state in
    let '(next, reason) := overdue (dt_cfg d) missed previous in
    if String.eqb next previous || String.eqb next "" then (d, events)
    else
      let '(state, more) := setStatus (with_reason reason state) previous next logicalTick unixMilli reason in
      (put_health id state d, (events ++ more)%list).

Definition Evaluate (logicalTick unixMilli : Z) (d : Detector) : Detector * list EvidenceRecord :=
  foldl (evaluate_one logicalTick unixMilli) (d, []) (sorted_keys (dt_states d)).

Definition MarkRecovering (validatorID : string) (logicalTick unixMilli : Z) (reason : string) (d : Detector)
    : Detector * EvidenceRecord :=
  let s := health_of validatorID d in
  let previous := or_healthy (vh_Status s) in
  let s := mkHealth (vh_ValidatorID s) (vh_Region s) (vh_CurrentHeight s) (vh_CurrentRound s)
    (vh_LatestCommittedBlockHash s) (vh_LatestStateDigest s) (vh_LastHeartbeatTick s)
    (vh_LastHeartbeatUnixMilli s) StatusRecovering (vh_FailureDetectedTick s) logicalTick
    (vh_RemediationCompletedTick s) (vh_RecoveryCompletedTick s) logicalTick reason in
  (put_health validatorID s d,
   event_of EventRemediationStarted validatorID StatusRecovering previous logicalTick unixMilli reason s).

Definition MarkRemediationCompleted (validatorID : string) (logicalTick unixMilli : Z) (reason : string)
    (d : Detector) : Detector * EvidenceRecord :=
  let s := health_of validatorID d in
  let previous := if String.eqb (vh_Status s) "" then StatusRecovering else vh_Status s in
  let s := mkHealth (vh_ValidatorID s) (vh_Region s) (vh_CurrentHeight s) (vh_CurrentRound s)
    (vh_LatestCommittedBlockHash s) (vh_LatestStateDigest s) (vh_LastHeartbeatTick s)
    (vh_LastHeartbeatUnixMilli s) StatusRecovered (vh_FailureDetectedTick s) (vh_RemediationStartedTick s)
    logicalTick logicalTick logicalTick reason in
  (put_health validatorID s d,
   event_of EventRemediationCompleted validatorID StatusRecovered previous logicalTick unixMilli reason s).

Definition Detector_State (validatorID : string) (d : Detector) : option ValidatorHealth :=
  dt_states d !! validatorID.

Definition States (d : Detector) : list ValidatorHealth := sorted_values (dt_states d).

(** ** What is kept of a validator *)

Definition cfg_ok (cfg : DetectorConfig) : Prop :=
  0 < dc_SuspectAfterTicks cfg /\ dc_SuspectAfterTicks cfg <= dc_FailAfterTicks cfg.

Record health_ok (id : string) (s : ValidatorHealth) : Prop := {
  ho_tick : is_u64 (vh_LastHeartbeatTick s);
  ho_id : vh_LastHeartbeatTick s <> 0 -> vh_ValidatorID s = id;
  ho_status : vh_Status s <> ""
}.

Record detector_ok (d : Detector) : Prop := {
  do_cfg : cfg_ok (dt_cfg d);
  do_states id s : dt_states d !! id = Some s -> health_ok id s
}.

Inductive op :=
| OpObserve (hb : HeartbeatRecord) (reference : option HeartbeatRecord)
| OpEvaluate (tick unixMilli : Z)
| OpRecovering (id : string) (tick unixMilli : Z) (reason : string)
| OpCompleted (id : string) (tick unixMilli : Z) (reason : string).

Definition op_ok (o : op) : Prop :=
  match o with
  | OpObserve hb _ => is_u64 (hb_LogicalTick hb)
  | OpEvaluate tick _ => is_u64 tick
  | _ => True
  end.

Definition run_op (o : op) (d : Detector) : Detector :=
  match o with
  | OpObserve hb reference => (Observe hb reference d).1
  | OpEvaluate tick unixMilli => (Evaluate tick unixMilli d).1
  | OpRecovering id tick unixMilli reason => (MarkRecovering id tick unixMilli reason d).1
  | OpCompleted id tick unixMilli reason => (MarkRemediationCompleted id tick unixMilli reason d).1
  end.

Definition run_ops (ops : list op) (d : Detector) : Detector := foldl (fun d o => run_op o d) d ops.

(** The record a call of [setStatus] leaves. *)
Lemma setStatus_record s previous next tick ms reason :
  exists failed changed,
    (setStatus s previous next tick ms reason).1 = with_status (or_healthy next) failed changed s.
Proof.
  unfold setStatus, or_healthy. cbv zeta. set (n := if String.eqb next "" then _ else _).
  destruct (String.eqb previous n && negb (vh_LastStatusChangeTick s =? 0)); cbn [fst]; by do 2 eexists.
Qed.

Lemma or_healthy_nonempty s : or_healthy s <> "".
Proof. unfold or_healthy. by destruct (String.eqb_spec s ""). Qed.

Lemma or_healthy_id s : s <> "" -> or_healthy s = s.
Proof. unfold or_healthy. by destruct (String.eqb_spec s ""). Qed.

Lemma put_ok id s d : detector_ok d -> health_ok id s -> detector_ok (put_health id s d).
Proof.
  intros [Hc Hs] Ho. constructor; [done|]. cbn. intros i t. rewrite lookup_insert_Some. naive_solver.
Qed.

Lemma NewDetector_ok cfg :
  is_u64 (dc_SuspectAfterTicks cfg) -> is_u64 (dc_FailAfterTicks cfg) -> detector_ok (NewDetector cfg).
Proof.
  unfold is_u64. intros Hs Hf. constructor; [|done]. unfold NewDetector, cfg_ok. cbn.
  destruct (Z.eqb_spec (dc_SuspectAfterTicks cfg) 0); match goal with |- context [?a <? ?b] => destruct (Z.ltb_spec a b) end; lia.
Qed.

Lemma Observe_ok hb reference d :
  is_u64 (hb_LogicalTick hb) -> detector_ok d -> detector_ok (Observe hb reference d).1.
Proof.
  intros Ht Hd. unfold Observe. cbv zeta. destruct (judge _ _ _ _) as [next reason].
  match goal with |- context [setStatus ?s ?p ?n ?t ?m ?r] =>
    destruct (setStatus_record s p n t m r) as (f & c & E); destruct (setStatus s p n t m r) as [s' ev] end.
  cbn [fst] in *. subst s'. apply put_ok; [done|]. constructor; cbn; [done|done|apply or_healthy_nonempty].
Qed.

(** ** One evaluation *)

Definition heard (tick : Z) (s : ValidatorHealth) : bool :=
  negb (vh_LastHeartbeatTick s =? 0) && (vh_LastHeartbeatTick s <? tick).

(** The status an evaluation gives a validator. *)
Definition expected_status (cfg : DetectorConfig) (tick : Z) (s : ValidatorHealth) : Status :=
  if negb (heard tick s) then vh_Status s
  else if dc_FailAfterTicks cfg <=? tick - vh_LastHeartbeatTick s then StatusFailed
  else if dc_SuspectAfterTicks cfg <=? tick - vh_LastHeartbeatTick s then StatusSuspectedFailed
  else vh_Status s.

Lemma expected_nonempty cfg tick s : vh_Status s <> "" -> expected_status cfg tick s <> "".
Proof.
  unfold expected_status. destruct (negb _); [done|]. destruct (_ <=? _); [done|]. by destruct (_ <=? _).
Qed.

(** The status depends on the heartbeat and the status only. *)
Lemma expected_stable cfg tick s s' :
  vh_Status s' = expected_status cfg tick s -> vh_LastHeartbeatTick s' = vh_LastHeartbeatTick s ->
  expected_status cfg tick s' = vh_Status s'.
Proof.
  unfold expected_status, heard. intros E ->. rewrite E. destruct (negb _); [done|].
  destruct (_ <=? _); [done|]. by destruct (_ <=? _).
Qed.

Definition event_view (e : EvidenceRecord) : string * Status * Status :=
  (ev_ValidatorID e, ev_PreviousStatus e, ev_ObservedStatus e).

(** What one turn of the loop does to a validator the detector knows. *)
Lemma evaluate_one_spec tick ms d events id s :
  is_u64 tick -> detector_ok d -> dt_states d !! id = Some s ->
  let next := expected_status (dt_cfg d) tick s in
  (next = vh_Status s /\ evaluate_one tick ms (d, events) id = (d, events)) \/
  (next <> vh_Status s /\ exists s' e,
     evaluate_one tick ms (d, events) id = (put_health id s' d, (events ++ [e])%list) /\
     event_view e = (id, vh_Status s, next) /\
     vh_Status s' = next /\ vh_LastHeartbeatTick s' = vh_LastHeartbeatTick s /\ health_ok id s').
Proof.
  intros Ht Hd Hs next. destruct (do_states d Hd id s Hs) as [Htick Hid Hne].
  pose proof (expected_nonempty (dt_cfg d) tick s Hne) as Hnext. fold next in Hnext.
  unfold evaluate_one, health_of. rewrite Hs. cbn [default from_option Datatypes.id].
  unfold next, expected_status, heard, overdue in *.
  destruct (Z.eqb_spec (vh_LastHeartbeatTick s) 0) as [E0|E0]; cbn [negb orb andb] in *; [by left|].
  rewrite (Z.leb_antisym (vh_LastHeartbeatTick s) tick).
  destruct (Z.ltb_spec (vh_LastHeartbeatTick s) tick) as [Hlt|Hge]; cbn [negb] in *; [|by left].
  rewrite u64_small by (unfold is_u64 in *; lia). cbv zeta.
  set (m := tick - vh_LastHeartbeatTick s) in *.
  assert (Hrun : forall (n : Status) (reason : string), n <> "" ->
    (n = vh_Status s /\ (if String.eqb n (vh_Status s) || String.eqb n "" then (d, events)
       else let '(state, more) := setStatus (with_reason reason s) (vh_Status s) n tick ms reason in
            (put_health id state d, (events ++ more)%list)) = (d, events)) \/
    (n <> vh_Status s /\ exists s' e,
      (if String.eqb n (vh_Status s) || String.eqb n "" then (d, events)
       else let '(state, more) := setStatus (with_reason reason s) (vh_Status s) n tick ms reason in
            (put_health id state d, (events ++ more)%list)) = (put_health id s' d, (events ++ [e])%list) /\
      event_view e = (id, vh_Status s, n) /\ vh_Status s' = n /\
      vh_LastHeartbeatTick s' = vh_LastHeartbeatTick s /\ health_ok id s')).
  { intros n reason Hn. destruct (String.eqb_spec n (vh_Status s)) as [->|Hns]; [by left|]. right. split; [done|].
    rewrite (proj2 (String.eqb_neq n "") Hn). cbn [orb]. unfold setStatus.
    rewrite (proj2 (String.eqb_neq n "") Hn). rewrite (proj2 (String.eqb_neq (vh_Status s) n)) by congruence.
    cbn [andb]. do 2 eexists. split; [reflexivity|]. cbn. unfold event_view. cbn. rewrite Hid by done.
    split_and!; try done; by constructor. }
  destruct (dc_FailAfterTicks (dt_cfg d) <=? m); [by apply Hrun|].
  destruct (dc_SuspectAfterTicks (dt_cfg d) <=? m); [by apply Hrun|].
  left. by rewrite String.eqb_refl.
Qed.

Definition changed (tick : Z) (d : Detector) (id : string) : option (string * Status * Status) :=
  s ← dt_states d !! id;
  let next := expected_status (dt_cfg d) tick s in
  if String.eqb next (vh_Status s) then None else Some (id, vh_Status s, next).

(** [d'] is [d] with the validators of [ids] evaluated. *)
Record evaluated (tick : Z) (ids : list string) (d d' : Detector) : Prop := {
  ev_cfg : dt_cfg d' = dt_cfg d;
  ev_ok : detector_ok d';
  ev_same id : dt_states d !! id = None \/ id ∉ ids -> dt_states d' !! id = dt_states d !! id;
  ev_new id s : dt_states d !! id = Some s -> id ∈ ids ->
    exists s', dt_states d' !! id = Some s' /\ vh_Status s' = expected_status (dt_cfg d) tick s /\
               vh_LastHeartbeatTick s' = vh_LastHeartbeatTick s /\ (vh_Status s' = vh_Status s -> s' = s)
}.

Lemma evaluate_loop tick ms ids : forall d events,
  is_u64 tick -> detector_ok d -> NoDup ids ->
  let '(d', out) := foldl (evaluate_one tick ms) (d, events) ids in
  evaluated tick ids d d' /\
  map event_view out = (map event_view events ++ omap (changed tick d) ids)%list /\
  (omap (changed tick d) ids = [] -> out = events /\ d' = d).
Proof.
  induction ids as [|id ids IH]; intros d events Ht Hd Hnd; cbn [foldl].
  { split_and!; [|by rewrite app_nil_r|done]. constructor; [done..|]. by intros id s _ ?%elem_of_nil. }
  apply NoDup_cons in Hnd as [Hnotin Hnd].
  destruct (dt_states d !! id) as [s|] eqn:Hs.
  2: { assert (Hone : evaluate_one tick ms (d, events) id = (d, events)) by (unfold evaluate_one, health_of; by rewrite Hs).
       rewrite Hone. specialize (IH d events Ht Hd Hnd). destruct (foldl _ _ ids) as [d' out].
       destruct IH as ([H1 H2 H3 H4] & Hout & Hnone). assert (Hc : changed tick d id = None) by (unfold changed; by rewrite Hs).
       cbn [omap list_omap]. rewrite Hc. split_and!; [|done|done]. constructor; [done|done| |].
       - intros i [Hi|Hi]; apply H3; [by left|right; intros ?; apply Hi; by right].
       - intros i t Hi [->|Hin]%elem_of_cons; [congruence|]. by apply H4. }
  destruct (evaluate_one_spec tick ms d events id s Ht Hd Hs) as [[Hsame Hone]|(Hdiff & s' & e & Hone & He & Hst & Htk & Hok)];
    rewrite Hone.
  - specialize (IH d events Ht Hd Hnd). destruct (foldl _ _ ids) as [d' out].
    destruct IH as ([H1 H2 H3 H4] & Hout & Hnone).
    assert (Hc : changed tick d id = None) by (unfold changed; rewrite Hs; cbn; by rewrite Hsame, String.eqb_refl).
    cbn [omap list_omap]. rewrite Hc. split_and!; [|done|done]. constructor; [done|done| |].
    + intros i [Hi|Hi]; apply H3; [by left|right; intros ?; apply Hi; by right].
    + intros i t Hi [->|Hin]%elem_of_cons; [|by apply H4]. rewrite Hs in Hi. injection Hi as <-.
      exists s. rewrite H3 by (by right). by rewrite Hsame.
  - specialize (IH (put_health id s' d) (events ++ [e])%list Ht (put_ok _ _ _ Hd Hok) Hnd).
    destruct (foldl _ _ ids) as [d' out]. destruct IH as ([H1 H2 H3 H4] & Hout & Hnone).
    assert (Hc : changed tick d id = Some (id, vh_Status s, expected_status (dt_cfg d) tick s)).
    { unfold changed. rewrite Hs. cbn. by rewrite (proj2 (String.eqb_neq _ _) Hdiff). }
    assert (Hrest : omap (changed tick (put_health id s' d)) ids = omap (changed tick d) ids).
    { clear -Hnotin. induction ids as [|i ids IHi]; [done|]. cbn [omap list_omap].
      assert (changed tick (put_health id s' d) i = changed tick d i) as ->.
      { unfold changed, put_health. cbn. rewrite lookup_insert_ne; [done|]. intros ->. apply Hnotin. by left. }
      rewrite IHi; [done|]. intros Hin. apply Hnotin. by right. }
    cbn [omap list_omap]. rewrite Hc. cbn [put_health dt_cfg dt_states] in *. split_and!.
    + constructor; [done|done| |].
      * intros i Hi. assert (i <> id) by (intros ->; destruct Hi as [Hi|Hi]; [congruence|apply Hi; by left]).
        rewrite H3; [by rewrite lookup_insert_ne|]. rewrite lookup_insert_ne by done.
        destruct Hi as [Hi|Hi]; [by left|right; intros ?; apply Hi; by right].
      * intros i t Hi Hin. destruct (decide (i = id)) as [->|Hne].
        { rewrite Hs in Hi. injection Hi as <-. exists s'. rewrite H3 by (by right). rewrite lookup_insert_eq.
          split_and!; try done. congruence. }
        apply elem_of_cons in Hin as [?|Hin]; [done|]. apply H4; [by rewrite lookup_insert_ne|done].
    + rewrite Hout, Hrest, map_app. cbn [map]. rewrite He, <-app_assoc. done.
    + done.
Qed.

Lemma Evaluate_spec tick ms d :
  is_u64 tick -> detector_ok d ->
  let '(d', out) := Evaluate tick ms d in
  evaluated tick (sorted_keys (dt_states d)) d d' /\
  map event_view out = omap (changed tick d) (sorted_keys (dt_states d)) /\
  (omap (changed tick d) (sorted_keys (dt_states d)) = [] -> out = [] /\ d' = d).
Proof. intros Ht Hd. apply (evaluate_loop tick ms _ d [] Ht Hd). apply NoDup_sorted_keys. Qed.

Lemma mark_ok id s d failed started completed recovered changed status reason :
  detector_ok d -> s = health_of id d -> status <> "" ->
  detector_ok (put_health id (mkHealth (vh_ValidatorID s) (vh_Region s) (vh_CurrentHeight s) (vh_CurrentRound s)
    (vh_LatestCommittedBlockHash s) (vh_LatestStateDigest s) (vh_LastHeartbeatTick s)
    (vh_LastHeartbeatUnixMilli s) status failed started completed recovered changed reason) d).
Proof.
  intros Hd -> Hst. apply put_ok; [done|]. unfold health_of. destruct (dt_states d !! id) as [s|] eqn:E; cbn.
  - destruct (do_states d Hd id s E). by constructor.
  - by constructor.
Qed.

Lemma run_op_ok o d : op_ok o -> detector_ok d -> detector_ok (run_op o d).
Proof.
  intros Ho Hd. destruct o as [hb reference|tick ms|id tick ms reason|id tick ms reason]; cbn [run_op].
  - by apply Observe_ok.
  - pose proof (Evaluate_spec tick ms d Ho Hd) as He. destruct (Evaluate tick ms d) as [d' out]. apply He.
  - by apply mark_ok.
  - by apply mark_ok.
Qed.

Lemma run_ops_ok ops d : Forall op_ok ops -> detector_ok d -> detector_ok (run_ops ops d).
Proof. intros Ho. revert d. induction Ho as [|o ops Ho _ IH]; intros d Hd; [done|]. by apply IH, run_op_ok. Qed.

Lemma changed_none tick d d' : evaluated tick (sorted_keys (dt_states d)) d d' ->
  omap (changed tick d') (sorted_keys (dt_states d')) = [].
Proof.
  intros [Hcfg _ Hsame Hnew]. generalize (sorted_keys (dt_states d')) as ids.
  induction ids as [|id ids IH]; [done|]. cbn [omap list_omap]. rewrite IH.
  assert (changed tick d' id = None) as ->; [|done]. unfold changed.
  destruct (dt_states d !! id) as [s|] eqn:Hs.
  - destruct (Hnew id s Hs) as (s' & -> & Hst & Htk & _); [apply elem_of_sorted_keys; by eexists|]. cbn.
    rewrite Hcfg, (expected_stable _ _ s s'), String.eqb_refl; done.
  - by rewrite Hsame, Hs by (by left).
Qed.

(** Silent validators are found, and reported once.  After any sequence of
    operations on a new detector, an evaluation leaves every validator whose last
    heartbeat is [FailAfterTicks] or more ticks old as failed, every other one that is
    [SuspectAfterTicks] or more behind as suspected, and no other record changed at all;
    the events it returns are exactly one for each validator whose status changed, in
    the order of the ids, with the old and the new status; and evaluating again at that
    tick changes and reports nothing. *)
Theorem silence_detected cfg ops tick ms :
  is_u64 (dc_SuspectAfterTicks cfg) -> is_u64 (dc_FailAfterTicks cfg) -> Forall op_ok ops -> is_u64 tick ->
  let d := run_ops ops (NewDetector cfg) in
  let '(d', events) := Evaluate tick ms d in
  (forall id s, dt_states d !! id = Some s ->
     exists s', dt_states d' !! id = Some s' /\ vh_Status s' = expected_status (dt_cfg d) tick s /\
                (vh_Status s' = vh_Status s -> s' = s)) /\
  (forall id, dt_states d !! id = None -> dt_states d' !! id = None) /\
  map event_view events = omap (changed tick d) (sorted_keys (dt_states d)) /\
  forall ms', Evaluate tick ms' d' = (d', []).
Proof.
  intros Hs Hf Hops Ht d.
  assert (Hd : detector_ok d) by (by apply run_ops_ok, NewDetector_ok).
  pose proof (Evaluate_spec tick ms d Ht Hd) as He. destruct (Evaluate tick ms d) as [d' events].
  destruct He as (Hev & Hout & _). split_and!.
  - intros id s E. destruct (ev_new _ _ _ _ Hev id s E) as (s' & H1 & H2 & _ & H3);
      [apply elem_of_sorted_keys; by eexists|]. by exists s'.
  - intros id E. rewrite (ev_same _ _ _ _ Hev) by (by left). done.
  - done.
  - intros ms'. pose proof (Evaluate_spec tick ms' d' Ht (ev_ok _ _ _ _ Hev)) as He.
    destruct (Evaluate tick ms' d') as [d2 out]. destruct He as (_ & _ & Hnone).
    by destruct (Hnone (changed_none _ _ _ Hev)) as [-> ->].
Qed.

(** ** Concrete detectors *)

Definition demo_heartbeat (id : string) (height tick : Z) : HeartbeatRecord :=
  mkHeartbeat id "us" height 0 "h" "d" tick 0 "".

Definition demo_ops : list op :=
  [OpObserve (demo_heartbeat "v1" 3 4) None; OpObserve (demo_heartbeat "v2" 3 7) None;
   OpObserve (demo_heartbeat "v3" 3 5) None; OpRecovering "v1" 5 0 "restart"].

Definition demo_detector : Detector := run_ops demo_ops (NewDetector (mkDetectorConfig 0 0 0)).

Lemma silence_detected_witness :
  map event_view (Evaluate 7 0 demo_detector).2 =
    [("v1", StatusRecovering, StatusFailed); ("v3", StatusHealthy, StatusSuspectedFailed)] /\
  (forall ms', Evaluate 7 ms' (Evaluate 7 0 demo_detector).1 = ((Evaluate 7 0 demo_detector).1, [])).
Proof.
  split; [vm_compute; reflexivity|].
  assert (Hops : Forall op_ok demo_ops) by (repeat (apply Forall_cons; split); try apply Forall_nil; vm_compute; repeat split; congruence).
  pose proof (silence_detected (mkDetectorConfig 0 0 0) demo_ops 7 0 ltac:(vm_compute; repeat split; congruence)
                ltac:(vm_compute; repeat split; congruence) Hops ltac:(vm_compute; repeat split; congruence)) as He.
  fold demo_detector in He. cbv zeta in He. destruct (Evaluate 7 0 demo_detector) as [d' events]. apply He.
Defined.

(** The lag is compared after an addition that wraps: with a threshold meant to switch
    the comparison off, a validator at the height of the reference counts as lagging. *)
Example lag_wraps :
  let d := NewDetector (mkDetectorConfig 0 0 (2 ^ 64 - 1)) in
  map ev_EventType (Observe (demo_heartbeat "v1" 3 4) (Some (demo_heartbeat "v2" 3 4)) d).2
  = [EventLaggingDetected].
Proof. vm_compute. reflexivity. Qed.

(** A heartbeat that agrees with the reference ends a recovery, and the next one makes
    the validator healthy; one with another block hash at the same height fails it. *)
Example recovery :
  let d := demo_detector in
  let '(d, e1) := Observe (demo_heartbeat "v1" 3 8) (Some (demo_heartbeat "v2" 3 8)) d in
  let '(d, e2) := Observe (demo_heartbeat "v1" 3 9) (Some (demo_heartbeat "v2" 3 9)) d in
  let '(d, e3) := Observe (mkHeartbeat "v1" "us" 3 0 "other" "d" 10 0 "") (Some (demo_heartbeat "v2" 3 10)) d in
  map event_view (e1 ++ e2 ++ e3)%list =
    [("v1", StatusRecovering, StatusRecovered); ("v1", StatusRecovered, StatusHealthy);
     ("v1", StatusHealthy, StatusFailed)].
Proof. vm_compute. reflexivity. Qed.
