(* ===== verification/Deployment.v ===== *)
(** * Deployment profiles: core/deployment/profile.go, and the configuration of
    cmd/validator/main.go

    A profile check reads a set of environment values and reports what a deployment of
    that kind must have.  The validator reads its environment on its own: the second
    part models how, and what a passed check says of the node that starts. *)

From S2P Require Import Prelude Sha256 Json JsonParse JsonDecode JsonIndent Identity State Protocol Codec Store Consortium Anchors Evidence Auth Observability RateLimit Signing Node NodeApi NodeInit FileStore.
Local Open Scope string_scope.
Local Open Scope Z_scope.

Definition ProfileLocal : string := "local".
Definition ProfileStaging : string := "staging".
Definition ProfileProductionPilot : string := "production-pilot".

(** [Values] lists the entries of the map in the order Go ranges over it. *)
Record ValidationInput := mkInput {
  vi_Profile : string;
  vi_Values : list (string * string);
  vi_AllowPlaceholders : bool
}.

Record Check := mkCheck { ck_Name : string; ck_OK : bool; ck_Message : string }.

Record Report := mkReport {
  rp_GeneratedAtUnixMilli : Z;
  rp_Profile : string;
  rp_Status : string;
  rp_Checks : list Check
}.

Local Abbreviation Values := (gmap string string).

(** ** The values *)

Definition normalizeValues (values : list (string * string)) : Values :=
  foldl (fun out '(key, value) => <[TrimSpace key := TrimSpace value]> out) ∅ values.

Definition MergeValues (base : list (string * string)) (overlays : list (list (string * string))) : Values :=
  foldl (fun out overlay =>
           foldl (fun out '(key, value) => <[TrimSpace key := TrimSpace value]> out) out overlay)
    (normalizeValues base) overlays.

Fixpoint first (values : Values) (keys : list string) : string :=
  match keys with
  | [] => ""
  | key :: rest => match values !! key with Some value => value | None => first values rest end
  end.

Definition parseBool (value : string) : bool :=
  let v := ToLower (TrimSpace value) in
  String.eqb v "1" || String.eqb v "true" || String.eqb v "yes" || String.eqb v "on".

Definition boolMessage (ok : bool) (yes no : string) : string := if ok then yes else no.

Definition quoted_by (c : ascii) (l : list ascii) : bool :=
  match l, rev l with
  | a :: _, b :: _ => Ascii.eqb a c && Ascii.eqb b c
  | _, _ => false
  end.

Definition trimEnvValue (value : string) : string :=
  let value := TrimSpace value in
  let l := list_ascii_of_string value in
  if (2 <=? len value) && (quoted_by "034"%char l || quoted_by "'"%char l)
  then TrimSpace (String.substring 1 (String.length value - 2) value)
  else value.

(** One line of an environment file: no key for a blank line or a comment. *)
Definition env_line (raw : string) : result (option (string * string)) :=
  let line := TrimSpace raw in
  if String.eqb line "" || HasPrefix line "#" then Ok None
  else match CutByte "="%char line with
       | None => Err (errorf ["invalid env line "; Quote line])
       | Some (key, value) =>
           let key := TrimSpace key in
           if String.eqb key "" then Err (errorf ["invalid env line "; Quote line])
           else Ok (Some (key, trimEnvValue value))
       end.

Fixpoint env_lines (lines : list string) (values : Values) : result Values :=
  match lines with
  | [] => Ok values
  | raw :: lines =>
      if MaxScanTokenSize <=? len raw then fail "bufio.Scanner: token too long"
      else
        entry ← env_line (drop_cr raw);
        env_lines lines (match entry with Some (key, value) => <[key := value]> values | None => values end)
  end.

Definition ParseEnvFile (read_file : string -> result string) (path : string) : result Values :=
  data ← read_file path; env_lines (scan_lines data) ∅.

(** ** The checks *)

Definition checkRequired (name value : string) : Check :=
  let ok := negb (String.eqb (TrimSpace value) "") in
  mkCheck name ok (boolMessage ok "configured" "missing").

Definition checkEquals (name value want : string) : Check :=
  let got := ToLower (TrimSpace value) in
  mkCheck name (String.eqb got (ToLower (TrimSpace want))) ("got=" ++ Quote got ++ " want=" ++ Quote want).

Definition checkOneOf (name value : string) (allowed : list string) : Check :=
  let got := ToLower (TrimSpace value) in
  mkCheck name (existsb (fun item => String.eqb got (ToLower (TrimSpace item))) allowed) ("got=" ++ Quote got).

Definition checkIntEquals (name value : string) (want : Z) : Check :=
  match Atoi (TrimSpace value) with
  | None => mkCheck name false "missing or not an integer"
  | Some got => mkCheck name (got =? want) ("got=" ++ itoa got ++ " want=" ++ itoa want)
  end.

Definition checkBoolTrue (name value : string) : Check :=
  let ok := parseBool value in mkCheck name ok (boolMessage ok "true" "must be true").

Definition checkBoolFalse (name value : string) (allowEmpty : bool) : Check :=
  let trimmed := TrimSpace value in
  let ok := (negb (parseBool trimmed) && negb (String.eqb trimmed "")) ||
            (allowEmpty && String.eqb trimmed "") in
  mkCheck name ok (boolMessage ok "false" "must be false").

Definition checkOTEL (values : Values) : Check :=
  let enabled := parseBool (first values ["PQFABRIC_OTEL_ENABLED"]) in
  let endpoint := TrimSpace (first values ["PQFABRIC_OTEL_EXPORTER_OTLP_ENDPOINT"]) in
  if enabled && String.eqb endpoint "" then
    mkCheck "otel_endpoint_when_enabled" false "OTEL is enabled but endpoint is empty"
  else mkCheck "otel_endpoint_when_enabled" true "OTEL disabled or endpoint configured".

Definition isKnownProfile (profile : string) : bool :=
  String.eqb profile ProfileLocal || String.eqb profile ProfileStaging || String.eqb profile ProfileProductionPilot.

Section profile.
Context (read_file : string -> result string).

(** The count the environment declares, when there is no manifest to read. *)
Definition declared_validators (values : Values) (allowPlaceholders : bool) : Check :=
  let want := Z.of_nat (length DefaultValidatorIDs) in
  let raw := first values ["PQFABRIC_ACTIVE_VALIDATORS"; "VALIDATOR_COUNT"] in
  if negb (String.eqb raw "") then
    match Atoi (TrimSpace raw) with
    | None => mkCheck "active_validators" false "active validator count is not an integer"
    | Some got => mkCheck "active_validators" (got =? want)
                    ("declared active=" ++ itoa got ++ " expected=" ++ itoa want)
    end
  else if allowPlaceholders then
    mkCheck "active_validators" false
      "production-pilot placeholder config must declare PQFABRIC_ACTIVE_VALIDATORS=7 or provide a readable manifest"
  else mkCheck "active_validators" false "readable consortium manifest is required".

Definition checkManifestActiveValidators (values : Values) (allowPlaceholders : bool) : Check :=
  let path := TrimSpace (first values ["PQFABRIC_CONSORTIUM_MANIFEST"]) in
  if String.eqb path "" then declared_validators values allowPlaceholders
  else match LoadManifest read_file path with
       | Ok manifest =>
           let got := Z.of_nat (length (ActiveValidatorIDs manifest)) in
           let want := Z.of_nat (length DefaultValidatorIDs) in
           mkCheck "active_validators" (got =? want) ("manifest active=" ++ itoa got ++ " expected=" ++ itoa want)
       | Err e =>
           if negb (errors_Is e ErrNotExist) && negb allowPlaceholders
           then mkCheck "active_validators" false (err_text e)
           else declared_validators values allowPlaceholders
       end.

Definition validateLocal (values : Values) : list Check :=
  [checkBoolFalse "production_mode_local" (first values ["PQ_FABRIC_PRODUCTION_MODE"; "PQFABRIC_PRODUCTION_MODE"]) true;
   checkOneOf "storage_local" (first values ["STORAGE"; "PQFABRIC_STORAGE"]) [""; "memory"; "durable"; "sqlite"];
   checkIntEquals "quorum_threshold" (first values ["THRESHOLD"; "QUORUM_THRESHOLD"]) 5;
   checkBoolFalse "public_exits_disabled" (first values ["PUBLIC_EXIT_ROUTING"; "ENABLE_PUBLIC_EXITS"]) true].

Definition validateProductionLike (values : Values) (allowPlaceholders : bool) : list Check :=
  [checkBoolTrue "production_mode" (first values ["PQ_FABRIC_PRODUCTION_MODE"; "PQFABRIC_PRODUCTION_MODE"]);
   checkEquals "crypto_suite_pq" (first values ["PQ_FABRIC_CRYPTO_SUITE"]) "pq";
   checkEquals "storage_sqlite" (first values ["STORAGE"; "PQFABRIC_STORAGE"]) "sqlite";
   checkRequired "database_url" (first values ["PQFABRIC_DATABASE_URL"]);
   checkRequired "scoped_api_keys_file" (first values ["PQFABRIC_API_KEYS_FILE"]);
   checkRequired "manifest_current" (first values ["PQFABRIC_CONSORTIUM_MANIFEST"]);
   checkRequired "manifest_history" (first values ["PQFABRIC_CONSORTIUM_MANIFEST_HISTORY"]);
   checkEquals "signer_provider_cloud_kms" (first values ["PQFABRIC_SIGNER_PROVIDER"]) "cloud-kms";
   checkRequired "kms_endpoint" (first values ["PQFABRIC_KMS_ENDPOINT"]);
   checkRequired "kms_key_id_or_ref" (first values ["PQFABRIC_KMS_KEY_ID"; "PQFABRIC_KMS_KEY_REF"]);
   checkRequired "peer_tls_cert_file" (first values ["PQFABRIC_PEER_TLS_CERT_FILE"]);
   checkRequired "peer_tls_key_file" (first values ["PQFABRIC_PEER_TLS_KEY_FILE"]);
   checkRequired "peer_tls_ca_file" (first values ["PQFABRIC_PEER_TLS_CA_FILE"]);
   checkEquals "log_format_json" (first values ["PQFABRIC_LOG_FORMAT"]) "json";
   checkIntEquals "quorum_threshold" (first values ["THRESHOLD"; "QUORUM_THRESHOLD"]) 5;
   checkBoolFalse "public_exits_disabled" (first values ["PUBLIC_EXIT_ROUTING"; "ENABLE_PUBLIC_EXITS"]) false;
   checkOTEL values;
   checkManifestActiveValidators values allowPlaceholders].

Definition validateStaging (values : Values) (allowPlaceholders : bool) : list Check :=
  (validateProductionLike values allowPlaceholders ++
   [checkOneOf "anchor_backend_staging" (first values ["ANCHOR_BACKEND"]) ["mock"; "polygon-testnet"; ""];
    checkBoolFalse "mainnet_anchoring_disabled"
      (first values ["POLYGON_MAINNET_ENABLED"; "MAINNET_ANCHORING_ENABLED"]) true])%list.

Definition validateProductionPilot (values : Values) (allowPlaceholders : bool) : list Check :=
  (validateProductionLike values allowPlaceholders ++
   [checkOneOf "anchor_backend_production_pilot" (first values ["ANCHOR_BACKEND"]) ["mock"; "disabled"; ""];
    checkBoolFalse "mainnet_anchoring_disabled"
      (first values ["POLYGON_MAINNET_ENABLED"; "MAINNET_ANCHORING_ENABLED"]) true])%list.

Definition ValidateProfile (now : Time) (input : ValidationInput) : Report :=
  let profile := ToLower (TrimSpace (vi_Profile input)) in
  let profile := if String.eqb profile "" then ProfileLocal else profile in
  let values := normalizeValues (vi_Values input) in
  let checks :=
    (mkCheck "profile_known" (isKnownProfile profile) profile ::
     (if String.eqb profile ProfileLocal then validateLocal values
      else if String.eqb profile ProfileStaging then validateStaging values (vi_AllowPlaceholders input)
      else if String.eqb profile ProfileProductionPilot
           then validateProductionPilot values (vi_AllowPlaceholders input)
      else []))%list in
  mkReport (UnixMilli now) profile (if forallb ck_OK checks then "pass" else "fail") checks.
End profile.

Definition Report_OK (r : Report) : bool := String.eqb (rp_Status r) "pass".

Definition MarshalText (r : Report) : string :=
  String.concat ""
    ("pq-fabric pilot deployment profile check" :: newline ::
     "profile=" :: rp_Profile r :: " status=" :: rp_Status r :: " generated_at_unix_milli=" ::
     itoa (rp_GeneratedAtUnixMilli r) :: newline ::
     flat_map (fun c => [ck_Name c; "="; if ck_OK c then "pass" else "fail"; " "; ck_Message c; newline])
       (rp_Checks r)).

Definition Check_json (c : Check) : json :=
  JObj ([("name", JStr (ck_Name c)); ("ok", JBool (ck_OK c))] ++ omit_str "message" (ck_Message c))%list.

Definition Report_json (r : Report) : json :=
  JObj [("generated_at_unix_milli", JInt (rp_GeneratedAtUnixMilli r)); ("profile", JStr (rp_Profile r));
        ("status", JStr (rp_Status r)); ("checks", JArr (map Check_json (rp_Checks r)))].

(** What is written to [w]: the encoder ends a value with a line break. *)
Definition MarshalJSONIndented (r : Report) : string := MarshalIndent (Report_json r) ++ newline.

(** ** The validator's environment: cmd/validator/main.go

    The flags default to the environment; the deployments start the validator without
    arguments. *)

Section environment.
Context (env : gmap string string).

(** [os.Getenv]. *)
Definition os_Getenv (key : string) : string := default "" (env !! key).

Definition getenv (key fallback : string) : string :=
  let value := TrimSpace (os_Getenv key) in if negb (String.eqb value "") then value else fallback.

Definition getenvInt (key : string) (fallback : Z) : Z :=
  let raw := TrimSpace (os_Getenv key) in
  if String.eqb raw "" then fallback else default fallback (Atoi raw).

Definition getenvBool (key : string) (fallback : bool) : bool :=
  let raw := ToLower (TrimSpace (os_Getenv key)) in
  if String.eqb raw "" then fallback
  else String.eqb raw "1" || String.eqb raw "true" || String.eqb raw "yes" || String.eqb raw "on".

(** The number [strconv.Atoi] returns, next to an error or not: the nearest [int] for
    digits out of range, zero for anything else. *)
Definition Atoi_value (s : string) : Z :=
  match Atoi s with
  | Some z => z
  | None =>
      let '(clamped, ds) := match bytes_of_string s with
                            | 45 :: ds => (- 2 ^ 63, ds)
                            | 43 :: ds => (2 ^ 63 - 1, ds)
                            | ds => (2 ^ 63 - 1, ds)
                            end in
      match ds with
      | [] => 0
      | _ => match decimal_digits 0 ds with Some _ => clamped | None => 0 end
      end
  end.

Definition parsePeers (raw : string) : gmap string string :=
  foldl (fun out item =>
           let item := TrimSpace item in
           if String.eqb item "" then out
           else match CutByte "="%char item with
                | None => out
                | Some (id, url) => <[TrimSpace id := TrimRightSlash (TrimSpace url)]> out
                end) ∅ (SplitByte ","%char raw).

(** The arguments of [NewNode] in [main]. *)
Definition validator_config : NodeConfig :=
  let nodeID := getenv "NODE_ID" "validator-1" in
  let port := getenv "PORT" "8080" in
  let peers := parsePeers (os_Getenv "PEERS") in
  let peers := if Nat.eqb (size peers) 0
               then foldl (fun m id => <[id := "http://" ++ id ++ ":" ++ port]> m) peers DefaultValidatorIDs
               else peers in
  mkNodeConfig nodeID (getenv "REGION" (DefaultRegionFor nodeID))
    (getenv "PUBLIC_URL" ("http://" ++ nodeID ++ ":" ++ port)) peers
    (Atoi_value (getenv "THRESHOLD" (getenv "QUORUM_THRESHOLD" "5")))
    (u64 (getenvInt "MAX_ROUNDS" (Z.of_nat (length DefaultValidatorIDs))))
    (getenv "STORAGE" ModeMemory) (getenv "DATA_DIR" "") (getenv "PQFABRIC_DATABASE_URL" "")
    (getenvBool "PQ_FABRIC_PRODUCTION_MODE" false) (getenv "API_BEARER_TOKEN" "")
    (getenv "PQFABRIC_API_KEYS_FILE" "") (getenvInt "PQFABRIC_RATE_LIMIT_PER_MINUTE" 60)
    (getenvInt "PQFABRIC_RATE_LIMIT_BURST" 20) (getenv "PQFABRIC_CONSORTIUM_MANIFEST" "")
    (getenv "PQFABRIC_CONSORTIUM_MANIFEST_HISTORY" "") (getenv "PQFABRIC_SIGNER_PROVIDER" "local")
    (getenvBool "PQFABRIC_ALLOW_LOCAL_SIGNER" false)
    (mkKMS (getenv "PQFABRIC_KMS_ENDPOINT" "") (getenv "PQFABRIC_KMS_KEY_ID" "")
       (getenv "PQFABRIC_KMS_TOKEN" "") (getenv "PQFABRIC_KMS_CA_FILE" "")
       (getenvBool "PQFABRIC_KMS_ALLOW_INSECURE" false))
    (getenv "PQFABRIC_PEER_TLS_CERT_FILE" "") (getenv "PQFABRIC_PEER_TLS_KEY_FILE" "")
    (getenv "PQFABRIC_PEER_TLS_CA_FILE" "").
End environment.

(** ** What a passed check says of the node *)

Lemma normalize_union l (m : Values) :
  NoDup l.*1 -> (forall k v, (k, v) ∈ l -> TrimSpace k = k) ->
  foldl (fun out '(key, value) => <[TrimSpace key := TrimSpace value]> out) m l =
  list_to_map (prod_map Datatypes.id TrimSpace <$> l) ∪ m.
Proof.
  revert m. induction l as [|[k v] l IH]; intros m Hnd Htrim; [by rewrite left_id_L by apply _|].
  cbn [foldl fmap list_fmap fst] in *. apply NoDup_cons in Hnd as [Hk Hnd].
  rewrite IH; [|done|by intros; apply (Htrim _ v0); right]. rewrite (Htrim k v) by left.
  assert (list_to_map (prod_map Datatypes.id TrimSpace (k, v) :: (prod_map Datatypes.id TrimSpace <$> l)) =
          <[k := TrimSpace v]> (list_to_map (prod_map Datatypes.id TrimSpace <$> l) : Values)) as -> by reflexivity.
  rewrite <-insert_union_l, <-insert_union_r; [done|].
  apply not_elem_of_list_to_map_1. rewrite <-list_fmap_compose. intros Hin. apply Hk.
  apply list_elem_of_fmap in Hin as ([k' v'] & E & Hin). cbn in E. subst k'.
  apply list_elem_of_fmap. by exists (k, v').
Qed.

Section profile_values.
Context (env : gmap string string) (entries : list (string * string)).
Hypothesis Hentries : entries ≡ₚ map_to_list env.
Hypothesis Htrimmed : forall k v, env !! k = Some v -> TrimSpace k = k.
#[local] Set Default Proof Using "All".

Lemma normalize_lookup k : normalizeValues entries !! k = TrimSpace <$> env !! k.
Proof.
  assert (Hnd : NoDup entries.*1) by (rewrite Hentries; apply NoDup_fst_map_to_list).
  unfold normalizeValues. rewrite normalize_union; [|done|].
  - rewrite right_id_L by apply _. rewrite list_to_map_fmap, lookup_fmap.
    rewrite (list_to_map_proper entries (map_to_list env)), list_to_map_to_list by done. done.
  - intros k' v Hin. apply (Htrimmed k' v). rewrite Hentries in Hin. by apply elem_of_map_to_list in Hin.
Qed.

Lemma first_value k rest v : env !! k = Some v ->
  first (normalizeValues entries) (k :: rest) = TrimSpace (os_Getenv env k).
Proof. intros E. cbn [first]. rewrite normalize_lookup. unfold os_Getenv. by rewrite E. Qed.

Lemma first_absent k rest : env !! k = None ->
  first (normalizeValues entries) (k :: rest) = first (normalizeValues entries) rest.
Proof. intros E. cbn [first]. rewrite normalize_lookup. by rewrite E. Qed.

Lemma first_one k : first (normalizeValues entries) [k] = TrimSpace (os_Getenv env k).
Proof.
  destruct (env !! k) as [v|] eqn:E; [by apply (first_value k [] v)|]. rewrite first_absent by done.
  unfold os_Getenv. rewrite E. reflexivity.
Qed.

Lemma getenv_set k fallback : TrimSpace (os_Getenv env k) <> "" -> getenv env k fallback = TrimSpace (os_Getenv env k).
Proof. intros Hk%String.eqb_neq. unfold getenv. by rewrite Hk. Qed.

Lemma required_set name k fallback :
  ck_OK (checkRequired name (first (normalizeValues entries) [k])) = true -> blank (getenv env k fallback) = false.
Proof.
  rewrite first_one. cbn [checkRequired ck_OK]. rewrite TrimSpace_idemp. intros Hk%negb_true_iff%String.eqb_neq.
  rewrite getenv_set by done. unfold blank. rewrite TrimSpace_idemp. by apply String.eqb_neq.
Qed.

Lemma equals_set name k want fallback :
  ck_OK (checkEquals name (first (normalizeValues entries) [k]) want) = true -> ToLower (TrimSpace want) <> "" ->
  ToLower (TrimSpace (os_Getenv env k)) = ToLower (TrimSpace want) /\ getenv env k fallback = TrimSpace (os_Getenv env k).
Proof.
  rewrite first_one. cbn [checkEquals ck_OK]. rewrite TrimSpace_idemp. intros Hk%String.eqb_eq Hw. split; [done|].
  apply getenv_set. intros E. rewrite E in Hk. apply Hw. by rewrite <-Hk.
Qed.

Lemma bool_set name k rest v fallback :
  env !! k = Some v -> ck_OK (checkBoolTrue name (first (normalizeValues entries) (k :: rest))) = true ->
  getenvBool env k fallback = true.
Proof.
  intros E. rewrite (first_value k rest v E). cbn [checkBoolTrue ck_OK]. unfold parseBool, getenvBool.
  rewrite TrimSpace_idemp. set (raw := ToLower _). intros Hraw.
  destruct (String.eqb_spec raw "") as [E0|]; [by rewrite E0 in Hraw|done].
Qed.

Lemma Atoi_set k fallback n :
  Atoi (TrimSpace (TrimSpace (os_Getenv env k))) = Some n -> Atoi_value (getenv env k fallback) = n.
Proof.
  rewrite TrimSpace_idemp. intros Ha. rewrite getenv_set; [unfold Atoi_value; by rewrite Ha|].
  intros E. rewrite E in Ha. discriminate Ha.
Qed.

Lemma int_set name want k1 k2 fallback :
  ck_OK (checkIntEquals name (first (normalizeValues entries) [k1; k2]) want) = true ->
  Atoi_value (getenv env k1 (getenv env k2 fallback)) = want.
Proof.
  unfold checkIntEquals. intros Hc. destruct (Atoi _) as [got|] eqn:Ha; [|done].
  cbn [ck_OK] in Hc. apply Z.eqb_eq in Hc as ->. destruct (env !! k1) as [v|] eqn:E.
  - rewrite (first_value k1 [k2] v E) in Ha. by apply Atoi_set.
  - rewrite first_absent, first_one in Ha by done.
    assert (getenv env k1 (getenv env k2 fallback) = getenv env k2 fallback) as ->; [|by apply Atoi_set].
    unfold getenv at 1, os_Getenv at 1 2. by rewrite E.
Qed.
End profile_values.

(** A passed production profile has passed each of its checks. *)
Lemma production_passed read_file now entries placeholders :
  rp_Status (ValidateProfile read_file now (mkInput ProfileProductionPilot entries placeholders)) = "pass" ->
  forallb ck_OK (validateProductionLike read_file (normalizeValues entries) placeholders) = true.
Proof.
  unfold ValidateProfile. cbn [rp_Status vi_Profile vi_Values vi_AllowPlaceholders].
  set (checks := (_ :: _)%list). destruct (forallb ck_OK checks) eqn:E; [|done]. intros _. revert E.
  unfold checks. cbn [forallb]. change (String.eqb (ToLower (TrimSpace ProfileProductionPilot)) "") with false.
  intros [_ E]%andb_true_iff. cbv iota in E.
  change (ToLower (TrimSpace ProfileProductionPilot)) with ProfileProductionPilot in E.
  change (String.eqb ProfileProductionPilot ProfileLocal) with false in E.
  change (String.eqb ProfileProductionPilot ProfileStaging) with false in E.
  change (String.eqb ProfileProductionPilot ProfileProductionPilot) with true in E. cbv iota in E.
  unfold validateProductionPilot in E. rewrite forallb_app in E. by apply andb_true_iff in E as [E _].
Qed.

(** C35: a passed production check holds of the node that starts.  Let the values checked
    be the environment of the validator, with names without surrounding spaces, and let
    it set PQ_FABRIC_PRODUCTION_MODE and STORAGE themselves, the latter in lower case.
    If the production-pilot profile passes, the configuration the validator reads from
    that environment is in production mode, has a threshold of five and a cloud signer,
    selects the post-quantum suite, and passes every check [NewNode] makes before it
    reads a file. *)
Theorem profile_guards_production read_file now env entries placeholders mode storage devSuite pqSuite :
  entries ≡ₚ map_to_list env -> (forall k v, env !! k = Some v -> TrimSpace k = k) ->
  env !! "PQ_FABRIC_PRODUCTION_MODE" = Some mode ->
  env !! "STORAGE" = Some storage -> ToLower (TrimSpace storage) = TrimSpace storage ->
  cs_Name pqSuite = PQ ->
  rp_Status (ValidateProfile read_file now (mkInput ProfileProductionPilot entries placeholders)) = "pass" ->
  let cfg := validator_config env in
  nc_ProductionMode cfg = true /\ nc_Threshold cfg = 5 /\
  NormalizeProvider (nc_SignerProvider cfg) = ProviderCloudKMS /\
  Lookup devSuite pqSuite (os_Getenv env "PQ_FABRIC_CRYPTO_SUITE") = Ok pqSuite /\
  production_checks cfg (nc_StorageMode cfg) pqSuite = Ok tt.
Proof.
  intros He Ht Hmode Hstorage Hlower Hname Hpass%production_passed. cbv zeta.
  unfold validateProductionLike in Hpass. cbn [forallb] in Hpass.
  repeat (apply andb_true_iff in Hpass as [? Hpass]).
  assert (Hprod : nc_ProductionMode (validator_config env) = true) by (by eapply bool_set).
  assert (Hthr : nc_Threshold (validator_config env) = 5) by (by eapply int_set).
  destruct (equals_set env entries He Ht "crypto_suite_pq" "PQ_FABRIC_CRYPTO_SUITE" "pq" "") as [Hsuite _]; [eassumption|done|].
  destruct (equals_set env entries He Ht "signer_provider_cloud_kms" "PQFABRIC_SIGNER_PROVIDER" "cloud-kms" "local") as [Hsigner Hsignerenv];
    [eassumption|done|].
  assert (Hst : getenv env "STORAGE" ModeMemory = ModeSQLite).
  { match goal with Hs : ck_OK (checkEquals "storage_sqlite" _ _) = true |- _ => revert Hs end.
    rewrite (first_value env entries He Ht "STORAGE" _ storage) by done. cbn [checkEquals ck_OK].
    rewrite TrimSpace_idemp. unfold os_Getenv. rewrite Hstorage. cbn [default from_option Datatypes.id].
    rewrite Hlower. intros Hs%String.eqb_eq. rewrite (getenv_set env entries He Ht); unfold os_Getenv; rewrite Hstorage;
      cbn [default from_option Datatypes.id]; [exact Hs|]. rewrite Hs. discriminate. }
  assert (Hprovider : NormalizeProvider (nc_SignerProvider (validator_config env)) = ProviderCloudKMS).
  { cbn [validator_config nc_SignerProvider]. rewrite Hsignerenv. unfold NormalizeProvider.
    rewrite TrimSpace_idemp, Hsigner. reflexivity. }
  split_and!; try done.
  - unfold Lookup. rewrite Hsuite. reflexivity.
  - unfold production_checks. rewrite Hprod, Hprovider, Hname. cbn [negb].
    change (String.eqb PQ Dev) with false. change (String.eqb ProviderCloudKMS ProviderLocal) with false.
    cbn [validator_config nc_APIKeysFile nc_ConsortiumManifest nc_ManifestHistory nc_StorageMode nc_DatabaseURL
         nc_PeerTLSCertFile nc_PeerTLSKeyFile nc_PeerTLSCAFile].
    rewrite Hst. change (String.eqb ModeSQLite ModeSQLite) with true. cbn [negb].
    do 7 (erewrite (required_set env entries He Ht) by eassumption). reflexivity.
Qed.

(** ** Concrete environments *)

Definition demo_pilot : gmap string string :=
  list_to_map
    [("PQ_FABRIC_CRYPTO_SUITE", "pq"); ("PQ_FABRIC_PRODUCTION_MODE", "true"); ("STORAGE", "sqlite");
     ("PQFABRIC_API_KEYS_FILE", "/keys.json"); ("PQFABRIC_CONSORTIUM_MANIFEST", "/current.json");
     ("PQFABRIC_CONSORTIUM_MANIFEST_HISTORY", "/current.json"); ("PQFABRIC_ACTIVE_VALIDATORS", "7");
     ("PQFABRIC_SIGNER_PROVIDER", "cloud-kms"); ("PQFABRIC_KMS_KEY_REF", "ref");
     ("PQFABRIC_KMS_ENDPOINT", "https://kms"); ("PQFABRIC_DATABASE_URL", "/data/validator.db");
     ("PQFABRIC_PEER_TLS_CERT_FILE", "/v.crt"); ("PQFABRIC_PEER_TLS_KEY_FILE", "/v.key");
     ("PQFABRIC_PEER_TLS_CA_FILE", "/ca.crt"); ("PQFABRIC_LOG_FORMAT", "json"); ("THRESHOLD", "5");
     ("PUBLIC_EXIT_ROUTING", "false"); ("ANCHOR_BACKEND", "mock")].

(** No file can be read. *)
Definition no_files (path : string) : result string :=
  Err (mkError (Some ErrNotExist) ("open " ++ path ++ ": no such file or directory")).

Definition demo_report (env : gmap string string) : Report :=
  ValidateProfile no_files (mkTime 1 "") (mkInput ProfileProductionPilot (map_to_list env) false).

Definition plain_keys (env : gmap string string) : bool :=
  forallb (fun kv => String.eqb (TrimSpace kv.1) kv.1) (map_to_list env).

Lemma plain_keys_spec env k v : plain_keys env = true -> env !! k = Some v -> TrimSpace k = k.
Proof.
  intros Hp Hk%elem_of_map_to_list%list_elem_of_In. unfold plain_keys in Hp. rewrite forallb_forall in Hp.
  by apply Hp, String.eqb_eq in Hk.
Qed.

Definition demo_pq_suite : CryptoSuite :=
  mkSuite PQ (cs_SignatureAlgorithm demo_suite) (cs_KEMAlgorithm demo_suite) (cs_NewSigner demo_suite)
    (cs_NewVerifier demo_suite) (cs_NewKEMPrivate demo_suite) (cs_NewKEMPublic demo_suite).

Lemma profile_guards_production_witness :
  nc_ProductionMode (validator_config demo_pilot) = true /\
  production_checks (validator_config demo_pilot) (nc_StorageMode (validator_config demo_pilot)) demo_pq_suite = Ok tt.
Proof.
  destruct (profile_guards_production no_files (mkTime 1 "") demo_pilot (map_to_list demo_pilot) false
              "true" "sqlite" demo_suite demo_pq_suite (Permutation_refl _)
              (fun k v => plain_keys_spec demo_pilot k v ltac:(vm_compute; reflexivity))
              ltac:(vm_compute; reflexivity) ltac:(vm_compute; reflexivity) ltac:(vm_compute; reflexivity)
              eq_refl ltac:(vm_compute; reflexivity)) as (Hp & _ & _ & _ & Hc).
  exact (conj Hp Hc).
Defined.

Definition demo_alias : gmap string string :=
  <["PQFABRIC_PRODUCTION_MODE" := "true"]> (<["PQFABRIC_STORAGE" := "sqlite"]>
    (delete "PQ_FABRIC_PRODUCTION_MODE" (delete "STORAGE" demo_pilot))).

(** A passed production check can be of a development node.  The profile also reads
    the production mode and the storage under names the validator does not read: with
    those it passes, and the validator started from the same environment runs without
    the production checks, over memory that a restart loses. *)
Theorem profile_alias_unread :
  rp_Status (demo_report demo_alias) = "pass" /\
  nc_ProductionMode (validator_config demo_alias) = false /\
  nc_StorageMode (validator_config demo_alias) = ModeMemory.
Proof. split_and!; vm_compute; reflexivity. Qed.

(** Two names that differ in spaces are one name to the check: its answer depends on the
    order in which Go ranges over the map. *)
Example order_matters :
  normalizeValues [("THRESHOLD", "5"); ("THRESHOLD ", "4")] !! "THRESHOLD" = Some "4" /\
  normalizeValues [("THRESHOLD ", "4"); ("THRESHOLD", "5")] !! "THRESHOLD" = Some "5".
Proof. split; vm_compute; reflexivity. Qed.

Example demo_env_file :
  ParseEnvFile (fun _ => Ok ("# pilot" ++ newline ++ "STORAGE = 'sqlite' " ++ newline ++ newline ++ "A=b=c")) "f"
  = Ok (list_to_map [("STORAGE", "sqlite"); ("A", "b=c")]).
Proof. vm_compute. reflexivity. Qed.
