(* ===== verification/Filepath.v ===== *)
(** * Paths of files: what the program uses of path/filepath

    [Clean], [Join], [Dir] and [IsAbs] on a Unix system, by the components of a path;
    and where a path joined to a root leads. *)

From S2P Require Import Prelude.
Local Open Scope string_scope.

Definition slash : ascii := "/"%char.

(** One component of a path against the components kept so far, the last one first. *)
Definition clean_step (rooted : bool) (kept : list string) (part : string) : list string :=
  if String.eqb part "" || String.eqb part "." then kept
  else if String.eqb part ".." then
    match kept with
    | [] => if rooted then [] else [".."]
    | last :: rest => if String.eqb last ".." then ".." :: kept else rest
    end
  else part :: kept.

Definition clean_parts (rooted : bool) (path : string) : list string :=
  rev (foldl (clean_step rooted) [] (SplitByte slash path)).

Definition IsAbs (path : string) : bool := HasPrefix path "/".

Definition Clean (path : string) : string :=
  let text := String.concat "/" (clean_parts (IsAbs path) path) in
  if IsAbs path then "/" ++ text else if String.eqb text "" then "." else text.

(** The empty elements at the front are left out. *)
Fixpoint Join (elem : list string) : string :=
  match elem with
  | [] => ""
  | e :: rest => if String.eqb e "" then Join rest else Clean (String.concat "/" elem)
  end.

(** Up to and with the last slash. *)
Fixpoint through_slash (path : string) : string :=
  match path with
  | EmptyString => ""
  | String c rest =>
      let tail := through_slash rest in
      if String.eqb tail "" && negb (Ascii.eqb c slash) then "" else String c tail
  end.

Definition Dir (path : string) : string := Clean (through_slash path).

(** The path of a file mounted at [mounted] in a tree of files under [root]. *)
Definition under (root mounted : string) : string := Join [root; TrimPrefix (Clean mounted) "/"].

Example clean_examples :
  map Clean [""; "."; "/"; "a//b/./c/.."; "/../a"; "../../a/.."; "a/../../b"; "/a/b/"]
  = ["."; "."; "/"; "a/b"; "/a"; "../.."; "../b"; "/a/b"] /\
  map Dir ["spec.yaml"; "/etc/x/spec.yaml"; "a/b/"] = ["."; "/etc/x"; "a/b"] /\
  Join [""; ""] = "" /\ under "/tree" "/etc/../key" = "/tree/key" /\ under "/tree" "../key" = "/key".
Proof. repeat split; vm_compute; reflexivity. Qed.

(** ** Where a joined path leads *)

(** A component that names an entry of a directory. *)
Definition entry (part : string) : Prop :=
  part <> "" /\ part <> "." /\ part <> ".." /\ SplitByte slash part = [part].

Lemma split_not_nil c s : SplitByte c s <> [].
Proof. destruct s as [|x s]; [done|]. cbn. destruct (Ascii.eqb x c); [done|]. by destruct (SplitByte c s). Qed.

Lemma split_app c a b : SplitByte c (a ++ String c b) = (SplitByte c a ++ SplitByte c b)%list.
Proof.
  induction a as [|x a IH]; [change ("" ++ String c b) with (String c b); cbn; by rewrite Ascii.eqb_refl|].
  change (String x a ++ String c b) with (String x (a ++ String c b)). cbn [SplitByte]. rewrite IH.
  destruct (Ascii.eqb x c); [done|]. pose proof (split_not_nil c a). by destruct (SplitByte c a).
Qed.

(** A part of a split has nothing left to split. *)
Lemma split_parts c s : Forall (fun part => SplitByte c part = [part]) (SplitByte c s).
Proof.
  induction s as [|x s IH]; [by repeat constructor|]. cbn. destruct (Ascii.eqb x c) eqn:Ex; [by constructor|].
  pose proof (split_not_nil c s) as Hne. destruct (SplitByte c s) as [|part parts]; [done|].
  apply Forall_cons in IH as [Hp IH]. constructor; [cbn; by rewrite Ex, Hp|done].
Qed.

Lemma split_concat parts : Forall entry parts -> parts <> [] -> SplitByte slash (String.concat "/" parts) = parts.
Proof.
  induction 1 as [|part parts (_ & _ & _ & Hp) Hall IH]; [done|]. intros _. destruct parts as [|part' parts]; [exact Hp|].
  change (String.concat "/" (part :: part' :: parts)) with (part ++ String slash (String.concat "/" (part' :: parts))).
  by rewrite split_app, Hp, IH.
Qed.

Lemma clean_step_entries part kept : SplitByte slash part = [part] -> Forall entry kept ->
  Forall entry (clean_step true kept part).
Proof.
  intros Hp Hk. unfold clean_step. destruct (String.eqb_spec part ""); [done|]. destruct (String.eqb_spec part "."); [done|].
  cbn [orb]. destruct (String.eqb_spec part ".."); [|constructor; [by repeat split|done]].
  destruct Hk as [|last rest (_ & _ & Hlast%String.eqb_neq & _) Hk]; [constructor|]. by rewrite Hlast.
Qed.

Lemma clean_parts_entries path : Forall entry (clean_parts true path).
Proof.
  unfold clean_parts. apply Forall_rev. assert (Hgen : forall parts kept, Forall (fun p => SplitByte slash p = [p]) parts ->
    Forall entry kept -> Forall entry (foldl (clean_step true) kept parts)).
  { intros parts kept Hp. revert kept. induction Hp as [|p parts Hp Hps IH]; intros kept Hk; [done|].
    cbn [foldl]. by apply IH, clean_step_entries. }
  apply Hgen; [apply split_parts|constructor].
Qed.

Lemma clean_entries rooted parts : forall kept, Forall entry parts ->
  foldl (clean_step rooted) kept parts = (rev parts ++ kept)%list.
Proof.
  induction parts as [|part parts IH]; intros kept Hall; [done|]. apply Forall_cons in Hall as [Hp Hall].
  destruct Hp as (H1%String.eqb_neq & H2%String.eqb_neq & H3%String.eqb_neq & _).
  cbn [foldl rev]. rewrite IH by done. unfold clean_step. rewrite H1, H2, H3. cbn [orb].
  by rewrite <-(assoc_L (++)%list).
Qed.

(** An absolute path mounted under an absolute root leads below that root, by names of
    entries only, whatever [..] it is written with. *)
Theorem under_root root mounted : IsAbs root = true -> IsAbs mounted = true ->
  under root mounted = "/" ++ String.concat "/" (clean_parts true root ++ clean_parts true mounted) /\
  Forall entry (clean_parts true mounted).
Proof.
  intros Hroot Hm. pose proof (clean_parts_entries mounted) as Hall. split; [|done].
  unfold under. assert (Hc : Clean mounted = "/" ++ String.concat "/" (clean_parts true mounted)).
  { unfold Clean. by rewrite Hm. }
  rewrite Hc, TrimPrefix_app. set (parts := clean_parts true mounted) in *.
  assert (Hj : Join [root; String.concat "/" parts] = Clean (root ++ String slash (String.concat "/" parts))).
  { cbn [Join]. by destruct (String.eqb_spec root "") as [->|]. }
  assert (Habs : IsAbs (root ++ String slash (String.concat "/" parts)) = true).
  { unfold IsAbs in *. destruct root as [|c root]; [done|]. cbn in *. by destruct root. }
  rewrite Hj. unfold Clean. rewrite Habs. do 2 f_equal. unfold clean_parts at 1 2. rewrite split_app, foldl_app.
  set (kept := foldl (clean_step true) [] (SplitByte slash root)).
  assert (Hparts : foldl (clean_step true) kept (SplitByte slash (String.concat "/" parts)) = (rev parts ++ kept)%list).
  { destruct parts as [|part parts']; [done|]. rewrite split_concat by done. by apply clean_entries. }
  by rewrite Hparts, rev_app_distr, rev_involutive.
Qed.
