(* ===== verification/Bootstrap.v ===== *)
(** * The pilot bootstrap check: core/deployment/bootstrap/bootstrap.go

    A bootstrap specification names the secrets a deployment needs and where they come
    from; [Validate] reads them and reports which checks pass, which fail and which are
    left to an external provider, without their values.  Files, YAML and certificates
    are parameters. *)

From S2P Require Import Prelude Sha256 Json JsonParse JsonDecode JsonIndent Identity Consortium Auth Deployment Filepath.
Local Open Scope string_scope.
Local Open Scope Z_scope.

Definition SchemaVersion : string := "pq-fabric.bootstrap.v1".
Definition SecretModeFileTree : string := "file-tree".
Definition SecretModeKubernetesSecret : string := "kubernetes-secret-manifest".
Definition SecretModeExternalSecretContract : string := "external-secret-contract".
Definition StatusPass : string := "pass".
Definition StatusFail : string := "fail".
Definition StatusUnresolved : string := "unresolved".
Definition SensitivityAPIKeys : string := "api-key-config".
Definition SensitivityManifestCurrent : string := "manifest-current".
Definition SensitivityManifestHistory : string := "manifest-history".
Definition SensitivityPeerTLSCert : string := "peer-tls-cert".
Definition SensitivityPeerTLSKey : string := "peer-tls-key".
Definition SensitivityPeerTLSCA : string := "peer-tls-ca".
Definition SensitivityKMSToken : string := "kms-token".
Definition SensitivityKMSKeyID : string := "kms-key-id".
Definition SensitivityKMSCA : string := "kms-ca".
Definition SensitivityOTELHeaders : string := "otel-headers".

Record SecretSourceSpec := mkSource {
  so_Mode : string;
  so_Provider : string;
  so_Path : string;
  so_FileTreeRoot : string
}.

Record SecretReference := mkReference {
  sr_Name : string;
  sr_Key : string;
  sr_MountPath : string;
  sr_Sensitivity : string;
  sr_Required : bool;
  sr_ValidatorID : string;
  sr_RemoteRef : string
}.

Record KMSBootstrapSpec := mkKMSSpec {
  kb_Provider : string;
  kb_Endpoint : string;
  kb_KeyIDTemplate : string;
  kb_TokenRef : string;
  kb_CAFile : string;
  kb_AllowInsecure : bool
}.

Record OTELBootstrapSpec := mkOTELSpec {
  ot_Enabled : bool;
  ot_Endpoint : string;
  ot_HeadersRef : string;
  ot_Insecure : bool
}.

Record BootstrapSpec := mkSpec {
  bs_SchemaVersion : string;
  bs_Profile : string;
  bs_ConsortiumID : string;
  bs_ValidatorCount : Z;
  bs_QuorumThreshold : Z;
  bs_SecretSource : SecretSourceSpec;
  bs_SecretReferences : list SecretReference;
  bs_DatabaseURLTemplate : string;
  bs_KMS : KMSBootstrapSpec;
  bs_OTEL : OTELBootstrapSpec;
  bs_PublicExitRouting : bool;
  bs_MainnetAnchoring : bool
}.

Record Check := mkCheck { ck_Name : string; ck_Status : string; ck_OK : bool; ck_Message : string }.

Record ManifestSummary := mkManifestSummary {
  ms_ConsortiumID : string;
  ms_MembershipVersion : Z;
  ms_ValidatorSetHash : string;
  ms_QuorumThreshold : Z;
  ms_ActiveValidators : list string;
  ms_HistoryVersions : list Z
}.

Definition no_manifest : ManifestSummary := mkManifestSummary "" 0 "" 0 [] [].

Record SecretSourceSummary := mkSourceSummary {
  su_Mode : string;
  su_Provider : string;
  su_Path : string;
  su_FileTreeRoot : string;
  su_ResolvedSecrets : Z;
  su_ResolvedKeys : Z;
  su_UnresolvedKeys : Z;
  su_SecretNames : list string;
  su_SecretStoreRefs : list string;
  su_RawValuesRedacted : bool
}.

Record SecretMaterialEvidence := mkMaterialEvidence {
  se_Name : string;
  se_Key : string;
  se_MountPath : string;
  se_Sensitivity : string;
  se_ValidatorID : string;
  se_Required : bool;
  se_Source : string;
  se_StoreRef : string;
  se_RemoteRef : string;
  se_Resolved : bool;
  se_Status : string;
  se_SizeBytes : Z;
  se_SafeFingerprint : string;
  se_ContentStatus : string;
  se_Redaction : string
}.

Record SmokeEvidence := mkSmoke {
  sm_ReceiptID : string;
  sm_EvidenceID : string;
  sm_VerificationStatus : string;
  sm_SignerCount : Z;
  sm_CommitHeight : Z;
  sm_RestoredDatabase : string;
  sm_Message : string
}.

Definition no_smoke : SmokeEvidence := mkSmoke "" "" "" 0 0 "" "".

Record BootstrapReport := mkReport {
  br_GeneratedAtUnixMilli : Z;
  br_Profile : string;
  br_Status : string;
  br_Checks : list Check;
  br_Manifest : ManifestSummary;
  br_SecretSource : SecretSourceSummary;
  br_SecretEvidence : list SecretMaterialEvidence;
  br_Smoke : SmokeEvidence;
  br_Limitations : string
}.

(** ** Names *)

(** One underscore for every rune that is not a letter or a digit; [bs] are bytes of
    UTF-8, or not. *)
Fixpoint safe_runes (fuel : nat) (bs : list Z) : list Z :=
  match fuel, bs with
  | S n, b :: rest =>
      if in_range 97 122 b || in_range 48 57 b then b :: safe_runes n rest
      else 95 :: safe_runes n (drop (pred (rune_width bs)) rest)
  | _, _ => []
  end.

(** [strings.Trim(s, "_")]. *)
Definition trim_underscores (l : list ascii) : list ascii :=
  let front := trim_left (length l) [["_"%char]] l in
  rev (trim_left (length front) [["_"%char]] (rev front)).

Definition safeName (value : string) : string :=
  let bs := bytes_of_string (ToLower (TrimSpace value)) in
  string_of_list_ascii (trim_underscores (map char_of (safe_runes (length bs) bs))).

Fixpoint firstNonEmpty (values : list string) : string :=
  match values with
  | [] => "unknown"
  | value :: values => if negb (String.eqb (TrimSpace value) "") then value else firstNonEmpty values
  end.

Definition short (value : string) : string := if len value <=? 12 then value else prefix 12 value.

Definition redactPath (path : string) : string :=
  let path := TrimSpace path in
  if String.eqb path "" then ""
  else if Prelude.Contains (ToLower path) "secret" || Prelude.Contains (ToLower path) "token" then "[redacted-path]"
  else path.

Definition normalizeSecretReference (ref : SecretReference) : SecretReference :=
  mkReference (TrimSpace (sr_Name ref)) (TrimSpace (sr_Key ref)) (TrimSpace (sr_MountPath ref))
    (TrimSpace (sr_Sensitivity ref)) (sr_Required ref) (TrimSpace (sr_ValidatorID ref)) (TrimSpace (sr_RemoteRef ref)).

(** ** Checks *)

(** The closures [add] and [unresolved]: each appends its check. *)
Definition add (name : string) (ok : bool) (msg : string) : Check :=
  mkCheck name (if ok then StatusPass else StatusFail) ok msg.

Definition unresolved (name msg : string) : Check := mkCheck name StatusUnresolved true msg.

Definition failing (check : Check) : bool := String.eqb (ck_Status check) StatusFail || negb (ck_OK check).

Definition reportStatus (checks : list Check) : string :=
  if existsb failing checks then StatusFail
  else if existsb (fun c => String.eqb (ck_Status c) StatusUnresolved) checks then "pass_with_unresolved"
  else StatusPass.

Definition Report_OK (r : BootstrapReport) : bool := negb (existsb failing (br_Checks r)).

(** ** Secrets *)

Record secretMaterial := mkMaterial {
  mt_Value : string;
  mt_Resolved : bool;
  mt_RemoteRef : string;
  mt_StoreRef : string;
  mt_Source : string
}.

Abbreviation secretMap := (gmap string (gmap string secretMaterial)).

Definition Material (m : secretMap) (name key : string) : option secretMaterial := secrets ← m !! name; secrets !! key.

Definition materials (m : secretMap) : list secretMaterial :=
  map_to_list m ≫= (fun '(_, secrets) => (map_to_list secrets).*2).

Definition HasResolvedContent (m : secretMap) : bool := existsb mt_Resolved (materials m).

Definition putSecret (m : secretMap) (name key : string) (material : secretMaterial) : secretMap :=
  <[name := <[key := material]> (default ∅ (m !! name))]> m.

Definition secretProvider (source : SecretSourceSpec) : string :=
  if negb (String.eqb (TrimSpace (so_Provider source)) "") then TrimSpace (so_Provider source)
  else
    let mode := TrimSpace (so_Mode source) in
    if String.eqb mode SecretModeFileTree then "mounted-file-tree"
    else if String.eqb mode SecretModeKubernetesSecret then "kubernetes-secret"
    else if String.eqb mode SecretModeExternalSecretContract then "external-secrets-operator"
    else "".

Definition source_mode (source : SecretSourceSpec) : string :=
  if String.eqb (TrimSpace (so_Mode source)) "" then SecretModeExternalSecretContract else TrimSpace (so_Mode source).

Definition Summary (m : secretMap) (source : SecretSourceSpec) : SecretSourceSummary :=
  let all := materials m in
  mkSourceSummary (source_mode source) (secretProvider source) (redactPath (so_Path source))
    (redactPath (so_FileTreeRoot source)) (Z.of_nat (size m))
    (Z.of_nat (length (List.filter mt_Resolved all)))
    (Z.of_nat (length (List.filter (fun t => negb (mt_Resolved t)) all)))
    (sorted_keys m)
    (sort_strings (elements (list_to_set (C := gset string)
       (List.filter (fun ref => negb (String.eqb ref "")) (map mt_StoreRef all)))))
    true.

(** ** The environment *)

(** A YAML document of a Kubernetes Secret, its maps listed in the order Go ranges over
    them, and one of an ExternalSecret. *)
Record kubeSecretDoc := mkKubeDoc {
  kd_Kind : string;
  kd_Name : string;
  kd_Data : list (string * string);
  kd_StringData : list (string * string)
}.

Record externalItem := mkItem { ei_SecretKey : string; ei_RemoteKey : string; ei_Property : string }.

Record externalSecretDoc := mkExternalDoc {
  ed_Kind : string;
  ed_Name : string;
  ed_StoreName : string;
  ed_StoreKind : string;
  ed_TargetName : string;
  ed_Data : list externalItem
}.

(** What the program reads of an x509 certificate; times in nanoseconds. *)
Record Certificate := mkCertificate {
  ce_NotBefore : Z;
  ce_NotAfter : Z;
  ce_URIs : list string;
  ce_IsCA : bool
}.

(** The documents a YAML decoder yields before it ends or fails. *)
Abbreviation Documents A := (list A * option error)%type.

Record Tools := mkTools {
  to_read_file : string -> result string;                (* os.ReadFile *)
  to_spec : string -> result BootstrapSpec;              (* yaml.Unmarshal *)
  to_kube : string -> Documents kubeSecretDoc;           (* yaml.Decoder *)
  to_external : string -> Documents externalSecretDoc;
  to_pem : string -> option (string * string);           (* pem.Decode: the type and the bytes of the first block *)
  to_certificate : string -> result Certificate;         (* x509.ParseCertificate *)
  to_pkcs1 : string -> result unit;                      (* x509.ParsePKCS1PrivateKey *)
  to_ec : string -> result unit;                         (* x509.ParseECPrivateKey *)
  to_pkcs8 : string -> result unit                       (* x509.ParsePKCS8PrivateKey *)
}.

Section tools.
Context (tools : Tools).

Definition relative_to (path p : string) : string :=
  if negb (String.eqb p "") && negb (IsAbs p) then Clean (Join [Dir path; p]) else p.

Definition LoadSpec (path : string) : result BootstrapSpec :=
  data ← to_read_file tools path;
  match to_spec tools data with
  | Err e => Err (prefix_err ("parse bootstrap spec " ++ path) e)
  | Ok spec =>
      let source := bs_SecretSource spec in
      Ok (mkSpec (bs_SchemaVersion spec) (bs_Profile spec) (bs_ConsortiumID spec) (bs_ValidatorCount spec)
            (bs_QuorumThreshold spec)
            (mkSource (so_Mode source) (so_Provider source) (relative_to path (so_Path source))
               (relative_to path (so_FileTreeRoot source)))
            (bs_SecretReferences spec) (bs_DatabaseURLTemplate spec) (bs_KMS spec) (bs_OTEL spec)
            (bs_PublicExitRouting spec) (bs_MainnetAnchoring spec))
  end.

Definition parseCertificate (data : string) : result Certificate :=
  match to_pem tools data with
  | None => fail "certificate PEM block not found"
  | Some (_, bytes) => to_certificate tools bytes
  end.

Definition parsePrivateKeyPEM (data : string) : result unit :=
  match to_pem tools data with
  | None => fail "private key PEM block not found"
  | Some (type, bytes) =>
      if negb (Prelude.Contains type "PRIVATE KEY") then fail ("PEM block " ++ Quote type ++ " is not a private key")
      else if String.eqb type "RSA PRIVATE KEY" then to_pkcs1 tools bytes
      else if String.eqb type "EC PRIVATE KEY" then to_ec tools bytes
      else to_pkcs8 tools bytes
  end.

(** ** Where secrets come from *)

Definition file_tree_ref (root : string) (acc : secretMap * list Check) (ref : SecretReference) : secretMap * list Check :=
  let '(out, checks) := acc in
  let ref := normalizeSecretReference ref in
  if String.eqb (sr_Name ref) "" || String.eqb (sr_Key ref) "" || String.eqb (sr_MountPath ref) "" then acc
  else
    match to_read_file tools (under root (sr_MountPath ref)) with
    | Err e =>
        (out, if sr_Required ref
              then (checks ++ [add ("file_tree_" ++ safeName (sr_Name ref ++ "_" ++ sr_Key ref)) false (err_text e)])%list
              else checks)
    | Ok data => (putSecret out (sr_Name ref) (sr_Key ref) (mkMaterial data true "" "" SecretModeFileTree), checks)
    end.

Definition resolveFileTree (source : SecretSourceSpec) (refs : list SecretReference) : secretMap * list Check :=
  let checks := [add "secret_source_mode" true SecretModeFileTree] in
  if String.eqb (TrimSpace (so_FileTreeRoot source)) "" then
    (∅, (checks ++ [add "file_tree_root" false "file_tree_root is required"])%list)
  else foldl (file_tree_ref (so_FileTreeRoot source)) (∅, checks) refs.

Definition kube_string (name : string) (acc : secretMap * list Check) (entry : string * string) : secretMap * list Check :=
  (putSecret acc.1 name entry.1 (mkMaterial entry.2 true "" "" SecretModeKubernetesSecret), acc.2).

Definition kube_data (name : string) (acc : secretMap * list Check) (entry : string * string) : secretMap * list Check :=
  match Base64.DecodeString entry.2 with
  | Err _ =>
      (acc.1, (acc.2 ++ [add ("kubernetes_secret_data_" ++ safeName (name ++ "_" ++ entry.1)) false
                           "data value is not base64"])%list)
  | Ok decoded => (putSecret acc.1 name entry.1 (mkMaterial decoded true "" "" SecretModeKubernetesSecret), acc.2)
  end.

Definition kube_doc (acc : secretMap * list Check) (doc : kubeSecretDoc) : secretMap * list Check :=
  if negb (String.eqb (kd_Kind doc) "Secret") || String.eqb (kd_Name doc) "" then acc
  else foldl (kube_data (kd_Name doc)) (foldl (kube_string (kd_Name doc)) acc (kd_StringData doc)) (kd_Data doc).

(** The documents read into the map, and the error the decoder stopped at. *)
Definition read_documents {A} (step : secretMap * list Check -> A -> secretMap * list Check) (parse_check : string)
    (checks : list Check) (docs : Documents A) : secretMap * list Check :=
  let '(out, checks) := foldl step (∅, checks) docs.1 in
  (out, match docs.2 with Some e => (checks ++ [add parse_check false (err_text e)])%list | None => checks end).

Definition resolveKubernetesSecrets (source : SecretSourceSpec) : secretMap * list Check :=
  let checks := [add "secret_source_mode" true SecretModeKubernetesSecret] in
  if String.eqb (so_Path source) "" then
    (∅, (checks ++ [add "kubernetes_secret_manifest" false "path is required"])%list)
  else
    match to_read_file tools (so_Path source) with
    | Err e => (∅, (checks ++ [add "kubernetes_secret_manifest" false (err_text e)])%list)
    | Ok data => read_documents kube_doc "kubernetes_secret_parse" checks (to_kube tools data)
    end.

Definition external_item (target storeRef : string) (acc : secretMap * list Check) (item : externalItem)
    : secretMap * list Check :=
  let '(out, checks) := acc in
  if String.eqb (ei_SecretKey item) "" then acc
  else if String.eqb (ei_RemoteKey item) "" then
    (out, (checks ++ [add ("external_secret_remote_ref_" ++ safeName (target ++ "_" ++ ei_SecretKey item)) false
                        "remoteRef.key is required"])%list)
  else
    let remote := ei_RemoteKey item ++ (if String.eqb (ei_Property item) "" then "" else "#" ++ ei_Property item) in
    (putSecret out target (ei_SecretKey item) (mkMaterial "" false remote storeRef SecretModeExternalSecretContract),
     checks).

Definition external_doc (acc : secretMap * list Check) (doc : externalSecretDoc) : secretMap * list Check :=
  let '(out, checks) := acc in
  if String.eqb (ed_Kind doc) "" || String.eqb (ed_Name doc) "" then acc
  else
    let storeRef := if negb (String.eqb (ed_StoreKind doc) "") && negb (String.eqb (ed_StoreName doc) "")
                    then TrimSpace (ed_StoreKind doc ++ "/" ++ ed_StoreName doc) else "" in
    let checks := if String.eqb (ed_StoreName doc) ""
                  then (checks ++ [add ("external_secret_store_ref_" ++ safeName (ed_Name doc)) false
                                     "secretStoreRef.name is required"])%list else checks in
    let checks := if String.eqb (ed_StoreKind doc) ""
                  then (checks ++ [add ("external_secret_store_kind_" ++ safeName (ed_Name doc)) false
                                     "secretStoreRef.kind is required"])%list else checks in
    let target := if String.eqb (ed_TargetName doc) "" then ed_Name doc else ed_TargetName doc in
    foldl (external_item target storeRef) (out, checks) (ed_Data doc).

Definition resolveExternalSecrets (source : SecretSourceSpec) : secretMap * list Check :=
  let checks := [add "secret_source_mode" true SecretModeExternalSecretContract] in
  if String.eqb (so_Path source) "" then
    (∅, (checks ++ [add "external_secret_contract" false "path is required"])%list)
  else
    match to_read_file tools (so_Path source) with
    | Err e => (∅, (checks ++ [add "external_secret_contract" false (err_text e)])%list)
    | Ok data => read_documents external_doc "external_secret_parse" checks (to_external tools data)
    end.

Definition resolveSecretSource (spec : BootstrapSpec) : secretMap * list Check :=
  let source := bs_SecretSource spec in
  let mode := source_mode source in
  let source := mkSource mode (so_Provider source) (so_Path source) (so_FileTreeRoot source) in
  if String.eqb mode SecretModeFileTree then resolveFileTree source (bs_SecretReferences spec)
  else if String.eqb mode SecretModeKubernetesSecret then resolveKubernetesSecrets source
  else if String.eqb mode SecretModeExternalSecretContract then resolveExternalSecrets source
  else (∅, [add "secret_source_mode" false ("unsupported mode " ++ Quote mode)]).

(** ** What a report shows of a secret *)

Definition safeSecretFingerprint (sensitivity value : string) : string :=
  if existsb (String.eqb sensitivity)
       [SensitivityManifestCurrent; SensitivityManifestHistory; SensitivityPeerTLSCert; SensitivityPeerTLSCA;
        SensitivityKMSCA]
  then "sha256:" ++ Hex.EncodeToString (Sha256.Sum256 value) else "".

Definition contentStatus (sensitivity value : string) : string :=
  if existsb (String.eqb sensitivity) [SensitivityManifestCurrent; SensitivityManifestHistory; SensitivityAPIKeys] then
    if is_ok (parse value) then "json" else "invalid-json"
  else if existsb (String.eqb sensitivity) [SensitivityPeerTLSCert; SensitivityPeerTLSCA; SensitivityKMSCA] then
    if is_ok (parseCertificate value) then "certificate-pem" else "invalid-certificate-pem"
  else if String.eqb sensitivity SensitivityPeerTLSKey then
    if is_ok (parsePrivateKeyPEM value) then "private-key-pem" else "invalid-private-key-pem"
  else if String.eqb sensitivity SensitivityKMSToken then
    if String.eqb (TrimSpace value) "" then "empty-token" else "non-empty-token"
  else if String.eqb value "" then "empty" else "present".

Definition material_evidence (source : secretMap) (ref : SecretReference) : SecretMaterialEvidence :=
  let ref := normalizeSecretReference ref in
  let evidence := mkMaterialEvidence (sr_Name ref) (sr_Key ref) (sr_MountPath ref) (sr_Sensitivity ref)
                    (sr_ValidatorID ref) (sr_Required ref) in
  match Material source (sr_Name ref) (sr_Key ref) with
  | None => evidence "" "" "" false (if sr_Required ref then "missing" else "optional_missing") 0 "" "" "raw_value_redacted"
  | Some material =>
      let evidence := evidence (firstNonEmpty [mt_Source material; "unknown"]) (mt_StoreRef material)
                        (mt_RemoteRef material) (mt_Resolved material) in
      if negb (mt_Resolved material) then evidence StatusUnresolved 0 "" "" "external_reference_only"
      else
        let size := len (mt_Value material) in
        let content := contentStatus (sr_Sensitivity ref) (mt_Value material) in
        if String.eqb (mt_Value material) "" then evidence StatusFail size "" content "raw_value_redacted"
        else
          let print := safeSecretFingerprint (sr_Sensitivity ref) (mt_Value material) in
          evidence StatusPass size print content
            (if String.eqb print "" then "secret_material_not_fingerprinted" else "raw_value_redacted")
  end.

Definition evidence_le (a b : SecretMaterialEvidence) : Prop :=
  if String.eqb (se_Name a) (se_Name b) then String.le (se_Key a) (se_Key b) else String.le (se_Name a) (se_Name b).

#[export] Instance evidence_le_dec : RelDecision evidence_le.
Proof. intros a b. unfold evidence_le. destruct (String.eqb _ _); apply _. Defined.

(** [sort.SliceStable]. *)
Definition buildSecretEvidence (source : secretMap) (refs : list SecretReference) : list SecretMaterialEvidence :=
  stable_sort evidence_le (map (material_evidence source) refs).

(** ** The checks of the referenced material *)

(** [bySensitivity]: the references of a kind, in order. *)
Definition of_kind (refs : list SecretReference) (sensitivity : string) : list SecretReference :=
  List.filter (fun ref => String.eqb (sr_Sensitivity ref) sensitivity) (map normalizeSecretReference refs).

(** The material of a reference, if it is there. *)
Definition material_of (source : secretMap) (ref : SecretReference) : option secretMaterial :=
  Material source (sr_Name ref) (sr_Key ref).

(** Its value, if it is there and resolved. *)
Definition value_of (source : secretMap) (ref : SecretReference) : option string :=
  match material_of source ref with
  | Some material => if mt_Resolved material then Some (mt_Value material) else None
  | None => None
  end.

Definition required_check (source : secretMap) (ref : SecretReference) : list Check :=
  let ref := normalizeSecretReference ref in
  let name := "secret_ref_" ++ safeName (sr_Name ref ++ "_" ++ sr_Key ref) in
  if negb (sr_Required ref) then []
  else match material_of source ref with
  | None => [add name false "required secret reference missing"]
  | Some material =>
      if negb (mt_Resolved material) then
        [unresolved name "external secret reference present; content validation deferred"]
      else if String.eqb (mt_Value material) "" then [add name false "resolved secret value is empty"]
      else [add name true "resolved"]
  end.

Definition historyVersions (history : History) : list Z := map mf_MembershipVersion (hi_Manifests history).

(** [fmt.Sprintf("%v", versions)]. *)
Definition show_versions (versions : list Z) : string := "[" ++ String.concat " " (map itoa versions) ++ "]".

Definition got_want (got want : string) : string := "got=" ++ got ++ " want=" ++ want.

(** The manifests of the history so far, the hashes seen and the checks. *)
Definition history_ref (source : secretMap) (acc : list Manifest * gset string * list Check) (ref : SecretReference)
    : list Manifest * gset string * list Check :=
  let '(manifests, seen, checks) := acc in
  let name := "manifest_history_" ++ safeName (sr_Key ref) in
  match value_of source ref with
  | None => (manifests, seen, (checks ++ [unresolved name "history content deferred to external secret provider"])%list)
  | Some value =>
      match (hist ← Unmarshal Manifest_of value; hash ← Manifest_Hash hist; Ok (hist, hash)) with
      | Err e => (manifests, seen, (checks ++ [add name false (err_text e)])%list)
      | Ok (hist, hash) =>
          if bool_decide (hash ∈ seen) then acc else ((manifests ++ [hist])%list, {[hash]} ∪ seen, checks)
      end
  end.

(** The checks of a current manifest that is valid, and its hash. *)
Definition manifest_checks (source : secretMap) (refs : list SecretReference) (consortiumID : string)
    (validatorCount quorumThreshold : Z) (manifest : Manifest) : list Check * ManifestSummary :=
  let active := ActiveValidatorIDs manifest in
  let '(hash, hash_check) :=
    match Manifest_Hash manifest with
    | Err e => ("", add "manifest_hash" false (err_text e))
    | Ok hash => (hash, add "manifest_hash" true "validator set hash computed")
    end in
  let first_checks :=
    [hash_check;
     add "manifest_consortium" (String.eqb (mf_ConsortiumID manifest) consortiumID)
       (got_want (Quote (mf_ConsortiumID manifest)) (Quote consortiumID));
     add "manifest_active_validators" (Z.of_nat (length active) =? validatorCount)
       (got_want (itoa (Z.of_nat (length active))) (itoa validatorCount));
     add "manifest_threshold" (mf_QuorumThreshold manifest =? quorumThreshold)
       (got_want (itoa (mf_QuorumThreshold manifest)) (itoa quorumThreshold))] in
  let seen := match Manifest_Hash manifest with Ok hash => {[hash]} | Err _ => ∅ end in
  let '(manifests, _, checks) :=
    foldl (history_ref source) ([manifest], seen, first_checks) (of_kind refs SensitivityManifestHistory) in
  let '(history, history_check) :=
    match NewHistory manifests with
    | Err e => (empty_history, add "manifest_history_validate" false (err_text e))
    | Ok history => (history, add "manifest_history_validate" true ("versions=" ++ show_versions (historyVersions history)))
    end in
  ((checks ++ [history_check])%list,
   mkManifestSummary (mf_ConsortiumID manifest) (mf_MembershipVersion manifest) hash (mf_QuorumThreshold manifest)
     active (historyVersions history)).

Definition validateManifestReferences (source : secretMap) (refs : list SecretReference) (consortiumID : string)
    (validatorCount quorumThreshold : Z) : list Check * ManifestSummary :=
  match of_kind refs SensitivityManifestCurrent with
  | [] => ([add "manifest_current_ref" false "current manifest secret reference required"], no_manifest)
  | ref :: _ =>
      match value_of source ref with
      | None =>
          ([unresolved "manifest_current_content" "current manifest content deferred to external secret provider"],
           no_manifest)
      | Some value =>
          match Unmarshal Manifest_of value with
          | Err e => ([add "manifest_current_parse" false (err_text e)], no_manifest)
          | Ok manifest =>
              match Consortium.Validate manifest with
              | Err e => ([add "manifest_current_validate" false (err_text e)], no_manifest)
              | Ok _ => manifest_checks source refs consortiumID validatorCount quorumThreshold manifest
              end
          end
      end
  end.

Definition requiredRoles : list string := [RoleAdminRead; RoleEvidenceSubmit; RoleEvidenceRead; RoleEvidenceVerify].

(** Some key that is not disabled has the role. *)
Definition have_role (keys : list APIKeyRecord) (role : string) : bool :=
  existsb (fun key => negb (ak_Disabled key) && existsb (String.eqb role) (ak_Roles key)) keys.

Definition api_key_checks (value : string) : list Check :=
  match Unmarshal APIKeyFile_of value with
  | Err e => [add "api_keys_parse" false (err_text e)]
  | Ok keys =>
      match NewAuthenticator keys with
      | Err e => [add "api_keys_validate" false (err_text e)]
      | Ok _ =>
          let missing := List.filter (fun role => negb (have_role keys role)) requiredRoles in
          [add "api_keys_roles" (is_nil missing) ("missing_roles=" ++ String.concat "," missing)]
      end
  end.

Definition validateAPIKeyReferences (source : secretMap) (refs : list SecretReference) : list Check :=
  match of_kind refs SensitivityAPIKeys with
  | [] => [add "api_keys_ref" false "API key config secret reference required"]
  | ref :: _ =>
      match value_of source ref with
      | None => [unresolved "api_keys_content" "API key content deferred to external secret provider"]
      | Some value => api_key_checks value
      end
  end.

Definition tls_cert_check (source : secretMap) (consortiumID : string) (nanos : Z) (ref : SecretReference) : Check :=
  let name := "peer_tls_cert_" ++ safeName (firstNonEmpty [sr_ValidatorID ref; sr_Key ref]) in
  match value_of source ref with
  | None => unresolved name "certificate content deferred to external secret provider"
  | Some value =>
      match parseCertificate value with
      | Err e => add name false (err_text e)
      | Ok cert =>
          if (nanos <? ce_NotBefore cert) || (ce_NotAfter cert <? nanos) then
            add name false "certificate is not currently valid"
          else if negb (String.eqb (sr_ValidatorID ref) "") then
            let expected := ExpectedTLSURISAN consortiumID (sr_ValidatorID ref) in
            add name (existsb (String.eqb expected) (ce_URIs cert)) ("expected_uri_san=" ++ expected)
          else add name (is_ok (ValidatorIDFromTLSURIs (ce_URIs cert) consortiumID)) "validator URI SAN present"
      end
  end.

Definition tls_key_check (source : secretMap) (ref : SecretReference) : Check :=
  let name := "peer_tls_key_" ++ safeName (firstNonEmpty [sr_ValidatorID ref; sr_Key ref]) in
  match value_of source ref with
  | None => unresolved name "private key content deferred to external secret provider"
  | Some value =>
      match parsePrivateKeyPEM value with
      | Err e => add name false (err_text e)
      | Ok _ => add name true "private key PEM present"
      end
  end.

Definition tls_ca_check (source : secretMap) (ref : SecretReference) : Check :=
  let name := "peer_tls_ca_" ++ safeName (sr_Key ref) in
  match value_of source ref with
  | None => unresolved name "CA content deferred to external secret provider"
  | Some value =>
      match parseCertificate value with
      | Err e => add name false (err_text e)
      | Ok cert => add name (ce_IsCA cert) "CA certificate PEM present"
      end
  end.

Definition validateTLSReferences (source : secretMap) (refs : list SecretReference) (consortiumID : string) (nanos : Z)
    : list Check :=
  let certRefs := of_kind refs SensitivityPeerTLSCert in
  let keyRefs := of_kind refs SensitivityPeerTLSKey in
  let caRefs := of_kind refs SensitivityPeerTLSCA in
  if is_nil certRefs then [add "peer_tls_cert_refs" false "peer TLS certificate references required"]
  else
    let unseen := List.filter (fun id => negb (existsb (fun ref => String.eqb (sr_ValidatorID ref) id) certRefs) &&
                                         HasResolvedContent source) DefaultValidatorIDs in
    (map (tls_cert_check source consortiumID nanos) certRefs ++
     map (fun id => add ("peer_tls_cert_" ++ safeName id) false "missing validator-specific peer TLS cert reference") unseen ++
     (if is_nil keyRefs then [add "peer_tls_key_refs" false "peer TLS private key references required"] else []) ++
     map (tls_key_check source) keyRefs ++
     (if is_nil caRefs then [add "peer_tls_ca_ref" false "peer TLS CA reference required"] else []) ++
     map (tls_ca_check source) caRefs)%list.

Definition kms_token_check (source : secretMap) (ref : SecretReference) : Check :=
  match material_of source ref with
  | None => add "kms_token_content" false "KMS token secret reference missing"
  | Some material =>
      if negb (mt_Resolved material) then
        unresolved "kms_token_content" "KMS token content deferred to external secret provider"
      else add "kms_token_content" (0 <? len (TrimSpace (mt_Value material))) "KMS token is non-empty and redacted"
  end.

Definition kms_ca_check (source : secretMap) (ref : SecretReference) : Check :=
  match material_of source ref with
  | None => add "kms_ca_content" false "KMS CA secret reference missing"
  | Some material =>
      if negb (mt_Resolved material) then unresolved "kms_ca_content" "KMS CA content deferred to external secret provider"
      else
        match parseCertificate (mt_Value material) with
        | Err e => add "kms_ca_content" false (err_text e)
        | Ok cert => add "kms_ca_content" true ("KMS CA certificate PEM present; is_ca=" ++ show_bool (ce_IsCA cert))
        end
  end.

Definition validateKMSReferences (source : secretMap) (refs : list SecretReference) : list Check :=
  [match of_kind refs SensitivityKMSToken with
   | [] => add "kms_token_ref" false "KMS token reference required"
   | ref :: _ => kms_token_check source ref
   end;
   match of_kind refs SensitivityKMSCA with
   | [] => add "kms_ca_ref" false "KMS CA reference required"
   | ref :: _ => kms_ca_check source ref
   end].

Definition overlayNames : list string :=
  ["pq-fabric-api-keys"; "pq-fabric-consortium-manifest"; "pq-fabric-peer-tls"; "pq-fabric-kms"; "pq-fabric-kms-ca"].

(** The names as they are written, not normalised. *)
Definition validateOverlayCompatibleSecretNames (refs : list SecretReference) : Check :=
  let missing := sort_strings (List.filter (fun name => negb (existsb (fun ref => String.eqb (sr_Name ref) name) refs))
                                 overlayNames) in
  add "k8s_overlay_secret_names" (is_nil missing) ("missing=" ++ String.concat "," missing).

(** ** The whole check *)

(** The specification with its defaults. *)
Definition with_defaults (spec : BootstrapSpec) : BootstrapSpec :=
  mkSpec (if String.eqb (TrimSpace (bs_SchemaVersion spec)) "" then SchemaVersion else bs_SchemaVersion spec)
    (if String.eqb (bs_Profile spec) "" then ProfileProductionPilot else bs_Profile spec) (bs_ConsortiumID spec)
    (if bs_ValidatorCount spec =? 0 then Z.of_nat (length DefaultValidatorIDs) else bs_ValidatorCount spec)
    (if bs_QuorumThreshold spec =? 0 then 5 else bs_QuorumThreshold spec) (bs_SecretSource spec)
    (bs_SecretReferences spec) (bs_DatabaseURLTemplate spec) (bs_KMS spec) (bs_OTEL spec) (bs_PublicExitRouting spec)
    (bs_MainnetAnchoring spec).

Definition given (value : string) : bool := negb (String.eqb (TrimSpace value) "").

Definition spec_checks (spec : BootstrapSpec) : list Check :=
  let wanted := Z.of_nat (length DefaultValidatorIDs) in
  ([add "schema_version" (String.eqb (bs_SchemaVersion spec) SchemaVersion)
      (got_want (Quote (bs_SchemaVersion spec)) (Quote SchemaVersion));
    add "profile" (String.eqb (bs_Profile spec) ProfileProductionPilot || String.eqb (bs_Profile spec) ProfileStaging)
      "bootstrap is intended for staging or production-pilot";
    add "validator_count" (bs_ValidatorCount spec =? wanted) (got_want (itoa (bs_ValidatorCount spec)) (itoa wanted));
    add "quorum_threshold" (bs_QuorumThreshold spec =? 5) (got_want (itoa (bs_QuorumThreshold spec)) "5");
    add "consortium_id" (given (bs_ConsortiumID spec)) "consortium id configured";
    add "public_exits_disabled" (negb (bs_PublicExitRouting spec)) "public exits must remain disabled";
    add "mainnet_anchoring_disabled" (negb (bs_MainnetAnchoring spec)) "mainnet anchoring must remain disabled";
    add "database_url_template" (given (bs_DatabaseURLTemplate spec)) "SQLite database URL template configured";
    add "kms_provider" (String.eqb (TrimSpace (kb_Provider (bs_KMS spec))) "cloud-kms")
      "cloud-kms provider required for production-pilot bootstrap";
    add "kms_endpoint" (given (kb_Endpoint (bs_KMS spec))) "KMS endpoint configured";
    add "kms_key_template" (given (kb_KeyIDTemplate (bs_KMS spec))) "KMS key id template configured";
    add "kms_insecure_disabled" (negb (kb_AllowInsecure (bs_KMS spec)))
      "KMS insecure mode must be false in bootstrap contracts"] ++
   (if ot_Enabled (bs_OTEL spec)
    then [add "otel_endpoint" (given (ot_Endpoint (bs_OTEL spec))) "OTEL endpoint required when enabled"] else []))%list.

Definition reportLimitations : string :=
  "Provider-neutral bootstrap validation only; no cloud resources, Kubernetes apply, Terraform apply, remote secret fetch, image signing, Polygon mainnet, public exits, payload custody, or certification claims.".

(** The report on the secrets that were read, and the checks of reading them.  The clock
    is read twice: in nanoseconds for the certificates, and for the report. *)
Definition report_on (nanos : Z) (now : Time) (spec : BootstrapSpec) (resolved : secretMap * list Check)
    : BootstrapReport :=
  let '(source, sourceChecks) := resolved in
  let refs := bs_SecretReferences spec in
  let '(manifestChecks, manifestSummary) :=
    validateManifestReferences source refs (bs_ConsortiumID spec) (bs_ValidatorCount spec) (bs_QuorumThreshold spec) in
  let checks :=
    (spec_checks spec ++ sourceChecks ++ (refs ≫= required_check source) ++
     (if is_nil refs then [add "secret_references" false "at least one secret reference is required"] else []) ++
     manifestChecks ++ validateAPIKeyReferences source refs ++
     validateTLSReferences source refs (bs_ConsortiumID spec) nanos ++ validateKMSReferences source refs ++
     [validateOverlayCompatibleSecretNames refs])%list in
  mkReport (UnixMilli now) (bs_Profile spec) (reportStatus checks) checks manifestSummary
    (Summary source (bs_SecretSource spec)) (buildSecretEvidence source refs) no_smoke reportLimitations.

Definition Validate (nanos : Z) (now : Time) (spec : BootstrapSpec) : BootstrapReport :=
  let spec := with_defaults spec in report_on nanos now spec (resolveSecretSource spec).
End tools.

(** ** The report as text and as JSON *)

Definition check_text (check : Check) : string :=
  ck_Name check ++ "=" ++ ck_Status check ++ " " ++ ck_Message check ++ newline.

Definition Report_MarshalText (r : BootstrapReport) : string :=
  let source := br_SecretSource r in
  let manifest := br_Manifest r in
  let smoke := br_Smoke r in
  "pq-fabric pilot bootstrap report" ++ newline ++
  "profile=" ++ br_Profile r ++ " status=" ++ br_Status r ++ " generated_at_unix_milli=" ++
  itoa (br_GeneratedAtUnixMilli r) ++ newline ++
  "secret_source=" ++ su_Mode source ++ " provider=" ++ su_Provider source ++ " resolved_keys=" ++
  itoa (su_ResolvedKeys source) ++ " unresolved_keys=" ++ itoa (su_UnresolvedKeys source) ++ " redacted=" ++
  show_bool (su_RawValuesRedacted source) ++ newline ++
  (if is_nil (su_SecretStoreRefs source) then ""
   else "secret_store_refs=" ++ String.concat "," (su_SecretStoreRefs source) ++ newline) ++
  (if is_nil (br_SecretEvidence r) then ""
   else "secret_evidence_entries=" ++ itoa (Z.of_nat (length (br_SecretEvidence r))) ++ newline) ++
  (if String.eqb (ms_ConsortiumID manifest) "" then ""
   else "manifest consortium=" ++ ms_ConsortiumID manifest ++ " version=" ++ itoa (ms_MembershipVersion manifest) ++
        " threshold=" ++ itoa (ms_QuorumThreshold manifest) ++ " active=" ++
        itoa (Z.of_nat (length (ms_ActiveValidators manifest))) ++ " set=" ++ short (ms_ValidatorSetHash manifest) ++
        newline) ++
  (if String.eqb (sm_ReceiptID smoke) "" then ""
   else "smoke receipt=" ++ short (sm_ReceiptID smoke) ++ " evidence=" ++ short (sm_EvidenceID smoke) ++
        " verification=" ++ sm_VerificationStatus smoke ++ " signers=" ++ itoa (sm_SignerCount smoke) ++
        " restored_db=" ++ sm_RestoredDatabase smoke ++ newline) ++
  String.concat "" (map check_text (br_Checks r)) ++
  "limitations: " ++ br_Limitations r ++ newline.

Definition omit_list {A} (enc : A -> json) (name : string) (l : list A) : list (string * json) :=
  if is_nil l then [] else [(name, JArr (map enc l))].

Definition Check_json (c : Check) : json :=
  JObj ([("name", JStr (ck_Name c)); ("status", JStr (ck_Status c)); ("ok", JBool (ck_OK c))] ++
        omit_str "message" (ck_Message c))%list.

Definition ManifestSummary_json (m : ManifestSummary) : json :=
  JObj (omit_str "consortium_id" (ms_ConsortiumID m) ++ omit_int "membership_version" (ms_MembershipVersion m) ++
        omit_str "validator_set_hash" (ms_ValidatorSetHash m) ++ omit_int "quorum_threshold" (ms_QuorumThreshold m) ++
        omit_list JStr "active_validators" (ms_ActiveValidators m) ++
        omit_list JInt "history_versions" (ms_HistoryVersions m))%list.

Definition SecretSourceSummary_json (s : SecretSourceSummary) : json :=
  JObj ([("mode", JStr (su_Mode s))] ++ omit_str "provider" (su_Provider s) ++ omit_str "path" (su_Path s) ++
        omit_str "file_tree_root" (su_FileTreeRoot s) ++
        [("resolved_secrets", JInt (su_ResolvedSecrets s)); ("resolved_keys", JInt (su_ResolvedKeys s));
         ("unresolved_keys", JInt (su_UnresolvedKeys s))] ++ omit_list JStr "secret_names" (su_SecretNames s) ++
        omit_list JStr "secret_store_refs" (su_SecretStoreRefs s) ++
        [("raw_values_redacted", JBool (su_RawValuesRedacted s))])%list.

Definition SecretMaterialEvidence_json (e : SecretMaterialEvidence) : json :=
  JObj ([("name", JStr (se_Name e)); ("key", JStr (se_Key e))] ++ omit_str "mount_path" (se_MountPath e) ++
        [("sensitivity", JStr (se_Sensitivity e))] ++ omit_str "validator_id" (se_ValidatorID e) ++
        [("required", JBool (se_Required e)); ("source", JStr (se_Source e))] ++ omit_str "store_ref" (se_StoreRef e) ++
        omit_str "remote_ref" (se_RemoteRef e) ++
        [("resolved", JBool (se_Resolved e)); ("status", JStr (se_Status e))] ++
        omit_int "size_bytes" (se_SizeBytes e) ++ omit_str "safe_fingerprint" (se_SafeFingerprint e) ++
        omit_str "content_status" (se_ContentStatus e) ++ [("redaction", JStr (se_Redaction e))])%list.

Definition SmokeEvidence_json (s : SmokeEvidence) : json :=
  JObj (omit_str "receipt_id" (sm_ReceiptID s) ++ omit_str "evidence_id" (sm_EvidenceID s) ++
        omit_str "verification_status" (sm_VerificationStatus s) ++ omit_int "signer_count" (sm_SignerCount s) ++
        omit_int "commit_height" (sm_CommitHeight s) ++ omit_str "restored_database" (sm_RestoredDatabase s) ++
        omit_str "message" (sm_Message s))%list.

(** A struct is never left out for being empty. *)
Definition BootstrapReport_json (r : BootstrapReport) : json :=
  JObj ([("generated_at_unix_milli", JInt (br_GeneratedAtUnixMilli r)); ("profile", JStr (br_Profile r));
         ("status", JStr (br_Status r)); ("checks", JArr (map Check_json (br_Checks r)));
         ("manifest", ManifestSummary_json (br_Manifest r));
         ("secret_source", SecretSourceSummary_json (br_SecretSource r))] ++
        omit_list SecretMaterialEvidence_json "secret_evidence" (br_SecretEvidence r) ++
        [("smoke", SmokeEvidence_json (br_Smoke r)); ("limitations", JStr (br_Limitations r))])%list.

Definition Report_MarshalJSONIndented (r : BootstrapReport) : string := MarshalIndent (BootstrapReport_json r) ++ newline.
