(* ===== verification/Smoke.v ===== *)
(** * The pilot smoke test: core/deployment/bootstrap/smoke.go

    The material the smoke test generates and the key service it runs.  The service is
    checked against the signer that calls it; starting seven validators over it, and the
    certificates it makes, are not modelled. *)

From S2P Require Import Prelude Sha256 Json JsonParse JsonDecode JsonIndent Identity Crypto Consortium Auth Signing Protocol Codec Evidence Deployment Filepath Bootstrap.
Local Open Scope string_scope.
Local Open Scope Z_scope.

Definition generatedSmokeToken : string := "bootstrap-smoke-admin-token".

(** ** The generated material *)

Definition reference (name key mount kind validatorID : string) : SecretReference :=
  mkReference name key mount kind true validatorID "".

Definition pilotSecretReferences : list SecretReference :=
  ([reference "pq-fabric-api-keys" "api-keys.json" "/etc/pq-fabric/secrets/api-keys.json" SensitivityAPIKeys "";
    reference "pq-fabric-consortium-manifest" "current.json" "/etc/pq-fabric/manifest/current.json"
      SensitivityManifestCurrent "";
    reference "pq-fabric-consortium-manifest" "v1.json" "/etc/pq-fabric/manifest/history/v1.json"
      SensitivityManifestHistory "";
    reference "pq-fabric-peer-tls" "ca.crt" "/etc/pq-fabric/tls/ca.crt" SensitivityPeerTLSCA "";
    reference "pq-fabric-kms" "token" "/etc/pq-fabric/kms/token" SensitivityKMSToken "";
    reference "pq-fabric-kms-ca" "ca.crt" "/etc/pq-fabric/kms/ca.crt" SensitivityKMSCA ""] ++
   flat_map (fun id =>
     [reference "pq-fabric-peer-tls" (id ++ ".crt") ("/etc/pq-fabric/tls/" ++ id ++ ".crt") SensitivityPeerTLSCert id;
      reference "pq-fabric-peer-tls" (id ++ ".key") ("/etc/pq-fabric/tls/" ++ id ++ ".key") SensitivityPeerTLSKey id])
     DefaultValidatorIDs)%list.

Definition smoke_consortium (base : BootstrapSpec) : string :=
  if String.eqb (TrimSpace (bs_ConsortiumID base)) "" then "bootstrap-smoke-consortium" else TrimSpace (bs_ConsortiumID base).

Definition generatedSmokeSpec (base : BootstrapSpec) (fileRoot kmsEndpoint : string) : BootstrapSpec :=
  mkSpec SchemaVersion (firstNonEmpty [bs_Profile base; "production-pilot"]) (smoke_consortium base) 7 5
    (mkSource SecretModeFileTree "" "" fileRoot) pilotSecretReferences "sqlite:///data/${NODE_ID}/validator.db"
    (mkKMSSpec "cloud-kms" kmsEndpoint "manifest-signing-key-ref" "" "/etc/pq-fabric/kms/ca.crt" false)
    (mkOTELSpec false "" "" false) false false.

Definition APIKeyRecord_json (k : APIKeyRecord) : json :=
  JObj ([("id", JStr (ak_ID k)); ("name", JStr (ak_Name k)); ("organization", JStr (ak_Organization k));
         ("token_hash", JStr (ak_TokenHash k)); ("roles", JArr (map JStr (ak_Roles k)))] ++
        omit_false "disabled" (ak_Disabled k) ++ omit_int "created_at_unix_milli" (ak_CreatedAtUnixMilli k) ++
        omit_int "expires_at_unix_milli" (ak_ExpiresAtUnixMilli k))%list.

Definition smokeAPIKeyFile (now : Time) : string :=
  MarshalIndent (JObj [("keys", JArr [APIKeyRecord_json
    (mkAPIKey "bootstrap-admin" "Bootstrap Smoke Admin" "bootstrap-smoke" (HashToken generatedSmokeToken)
       [RoleAdminRead; RoleAnchorRead; RoleEvidenceRead; RoleEvidenceSubmit; RoleEvidenceVerify] false
       (UnixMilli now) 0)])]).

Definition mountPath (root mounted : string) : string := under root mounted.

Definition smoke_manifest (consortiumID : string) (publicURLs : gmap string string) (selected : CryptoSuite)
    : result Manifest :=
  identities ← ValidatorIdentitiesForSuite publicURLs selected;
  Ok (ManifestFromIdentities consortiumID 1 5 identities DefaultValidatorIDs).

(** The files written before the specification is checked; the certificates and the keys
    are what crypto/x509 makes. *)
Definition smoke_files (fileRoot : string) (now : Time) (manifest : Manifest) (ca kmsCA : string)
    (cert key : string -> string) : list (string * string) :=
  let manifestBytes := MarshalIndent (Manifest_json manifest) in
  ([(mountPath fileRoot "/etc/pq-fabric/secrets/api-keys.json", smokeAPIKeyFile now);
    (mountPath fileRoot "/etc/pq-fabric/manifest/current.json", manifestBytes);
    (mountPath fileRoot "/etc/pq-fabric/manifest/history/v1.json", manifestBytes);
    (mountPath fileRoot "/etc/pq-fabric/tls/ca.crt", ca)] ++
   flat_map (fun id => [(mountPath fileRoot ("/etc/pq-fabric/tls/" ++ id ++ ".crt"), cert id);
                        (mountPath fileRoot ("/etc/pq-fabric/tls/" ++ id ++ ".key"), key id)]) DefaultValidatorIDs ++
   [(mountPath fileRoot "/etc/pq-fabric/kms/ca.crt", kmsCA);
    (mountPath fileRoot "/etc/pq-fabric/kms/token", "generated-smoke-token");
    (mountPath fileRoot "/etc/pq-fabric/kms/key-id", "manifest-signing-key-ref")])%list.

(** ** The key service *)

Definition hex_byte (a b : Z) : option Z := h ← hex_value a; l ← hex_value b; Some (16 * h + l).

(** [url.PathUnescape]. *)
Fixpoint unescape_bytes (fuel : nat) (bs : list Z) : option (list Z) :=
  match fuel, bs with
  | S n, b :: rest =>
      if b =? 37 then
        match rest with
        | x :: y :: rest => c ← hex_byte x y; l ← unescape_bytes n rest; Some (c :: l)
        | _ => None
        end
      else l ← unescape_bytes n rest; Some (b :: l)
  | _, _ => Some []
  end.

Definition PathUnescape (s : string) : option string :=
  l ← unescape_bytes (String.length s) (bytes_of_string s); Some (string_of_bytes l).

(** The signers by the id of their key. *)
Definition smoke_keys (selected : CryptoSuite) (validatorIDs : list string) : result (gmap string Signer) :=
  foldl (fun acc id =>
    signers ← acc;
    signer ← cs_NewSigner selected id;
    kemPrivate ← cs_NewKEMPrivate selected id;
    Ok (<[ValidatorKeyID id (sg_Algorithm signer) (sg_PublicKey signer) (cs_KEMAlgorithm selected)
            (kp_PublicKey kemPrivate) := signer]> signers)) (Ok ∅) validatorIDs.

Section kms.
Context (signers : gmap string Signer).

(** [json.NewEncoder(w).Encode] of a map: its keys are sorted. *)
Definition encoded (fields : list (string * json)) : Response := mkResponse 200 "200 OK" (Marshal (JObj fields) ++ newline).

Definition not_found : Response := mkResponse 404 "404 Not Found" ("404 page not found" ++ newline).

Definition http_error (status : string) (code : Z) (text : string) : Response := mkResponse code status (text ++ newline).

Definition key_fields (entry : Signer) (keyID : string) : list (string * json) :=
  [("algorithm", JStr (sg_Algorithm entry)); ("key_id", JStr keyID);
   ("public_key", JStr (Base64.EncodeToString (sg_PublicKey entry)))].

Definition signature_fields (entry : Signer) (keyID signature : string) : list (string * json) :=
  [("algorithm", JStr (sg_Algorithm entry)); ("key_id", JStr keyID);
   ("signature", JStr (Base64.EncodeToString signature))].

(** The handler of GET /v1/keys/. *)
Definition get_key (path : string) : Response :=
  let keyID := default "" (PathUnescape (TrimPrefix path "/v1/keys/")) in
  match signers !! keyID with
  | None => not_found
  | Some entry => encoded (key_fields entry keyID)
  end.

Definition kmsSignRequest_of (fs : list (string * json)) : result (string * string * string) :=
  key_id ← get_string "key_id" fs;
  algorithm ← get_string "algorithm" fs;
  message ← get_string "message" fs;
  Ok (key_id, algorithm, message).

(** The handler of POST /v1/sign. *)
Definition post_sign (body : string) : Response :=
  match Decode kmsSignRequest_of (limit_body body) with
  | Err e => http_error "400 Bad Request" 400 (err_text e)
  | Ok (keyID, algorithm, message64) =>
      match signers !! keyID with
      | None => not_found
      | Some entry =>
          if negb (String.eqb algorithm (sg_Algorithm entry)) then http_error "400 Bad Request" 400 "wrong algorithm"
          else match Base64.DecodeString message64 with
          | Err e => http_error "400 Bad Request" 400 (err_text e)
          | Ok message =>
              match sg_Sign entry message with
              | Err e => http_error "500 Internal Server Error" 500 (err_text e)
              | Ok signature => encoded (signature_fields entry keyID signature)
              end
          end
      end
  end.

(** The two routes; every other request has the mux's own answer. *)
Definition serve_kms (mux : string -> string -> Response) (method path body : string) : Response :=
  if String.eqb method "GET" && HasPrefix path "/v1/keys/" then get_key path
  else if String.eqb method "POST" && String.eqb path "/v1/sign" then post_sign body
  else mux method path.

(** What a client at the service's address gets: the path reaches the server unescaped,
    or the request is refused. *)
Definition smoke_kms (mux : string -> string -> Response) (endpoint method url token : string) (body : option json)
    : result Response :=
  match PathUnescape (TrimPrefix url endpoint) with
  | None => Ok (mkResponse 400 "400 Bad Request" "400 Bad Request")
  | Some path => Ok (serve_kms mux method path match body with Some v => Marshal v | None => "" end)
  end.
End kms.

(** ** The requests of the smoke test *)

Definition smoke_submission (nanos : string) : EvidenceSubmission :=
  mkSubmission Evidence.SchemaVersion "bootstrap-smoke" (HashBytes "bootstrap smoke artifact")
    (HashBytes "bootstrap smoke metadata") "bootstrap-smoke" ("bootstrap-smoke-" ++ nanos) false.

(** One attempt: the answer, whether the deadline has passed after it, and the context. *)
Record Attempt := mkAttempt { at_answer : result Response; at_expired : bool; at_ctx : option error }.

(** The loop of [doSmokeJSON]: attempts until one is answered, the deadline passes or the
    context ends. *)
Fixpoint doSmokeJSON {A} (method rawURL : string) (out : list (string * json) -> result A) (attempt : Attempt)
    (later : list Attempt) : result A :=
  let retry lastErr :=
    match at_ctx attempt with
    | Some e => Err e
    | None => if at_expired attempt then Err lastErr
              else match later with
                   | [] => Err lastErr
                   | next :: later => doSmokeJSON method rawURL out next later
                   end
    end in
  match at_answer attempt with
  | Err e => retry e
  | Ok resp =>
      if hr_StatusCode resp <? 300 then Decode out (limit_body (hr_Body resp))
      else
        let response := if len (hr_Body resp) <=? 1024 then hr_Body resp else prefix 1024 (hr_Body resp) in
        retry (errorf [method; " "; rawURL; " returned "; hr_Status resp; ": "; TrimSpace response])
  end.

(** ** The service and its clients *)

Lemma Decode_Marshal {A} (f : list (string * json) -> result A) v rest :
  json_ok v = true -> ends (bytes_of_string rest) -> len (Marshal v ++ rest) <= 2 ^ 20 ->
  Decode f (limit_body (Marshal v ++ rest)) = dec_struct f v.
Proof.
  intros Hok Hrest Hlen. unfold limit_body. rewrite (proj2 (Z.leb_le _ _) Hlen).
  by apply Decode_value_Marshal.
Qed.

Lemma hex_char d : 0 <= d < 16 -> path_unescaped (code (Hex.digit d)) = true /\ code (Hex.digit d) <> 37.
Proof.
  intros Hd. assert (Hall : forallb (fun n => path_unescaped (code (Hex.digit (Z.of_nat n))) &&
    negb (code (Hex.digit (Z.of_nat n)) =? 37)) (seq 0 16) = true) by (vm_compute; reflexivity).
  rewrite forallb_forall in Hall. specialize (Hall (Z.to_nat d)). rewrite in_seq, Z2Nat.id in Hall by lia.
  specialize (Hall ltac:(lia)). apply andb_true_iff in Hall as [? ?%negb_true_iff%Z.eqb_neq]. done.
Qed.

Lemma hex_path s : Forall (fun b => path_unescaped b = true /\ b <> 37) (bytes_of_string (Hex.EncodeToString s)).
Proof.
  unfold Hex.EncodeToString, bytes_of_string. rewrite list_ascii_of_string_of_list_ascii.
  induction s as [|c s IH]; [constructor|]. cbn. pose proof (Base64.code_range c).
  constructor; [|constructor; [|exact IH]]; apply hex_char.
  - rewrite Z.shiftr_div_pow2 by lia. change (2 ^ 4) with 16. zdiv.
  - change 15 with (Z.ones 4). rewrite Z.land_ones by lia. change (2 ^ 4) with 16. zdiv.
Qed.

Lemma PathEscape_hex s : PathEscape (Hex.EncodeToString s) = Hex.EncodeToString s.
Proof.
  unfold PathEscape. rewrite <-(Base64.string_of_bytes_of_string (Hex.EncodeToString s)) at 2. f_equal.
  induction (hex_path s) as [|b l [Hb _] _ IH]; [done|]. cbn [map concat]. rewrite Hb. cbn [app]. by rewrite IH.
Qed.

Lemma PathUnescape_plain s : Forall (fun b => b <> 37) (bytes_of_string s) -> PathUnescape s = Some s.
Proof.
  intros Hs. unfold PathUnescape.
  assert (Hun : forall n l, Forall (fun b => b <> 37) l -> (length l <= n)%nat -> unescape_bytes n l = Some l).
  { induction n as [|n IH]; intros [|b l] Hl Hn; cbn in *; try done; [lia|].
    apply Forall_cons in Hl as [Hb%Z.eqb_neq Hl]. rewrite Hb. by rewrite IH by (done || lia). }
  rewrite Hun; [cbn [mbind option_bind]; by rewrite Base64.string_of_bytes_of_string|done|].
  by rewrite length_bytes_of_string.
Qed.

(** The id of a validator's key. *)
Definition key_id (selected : CryptoSuite) (id : string) : string :=
  match cs_NewSigner selected id, cs_NewKEMPrivate selected id with
  | Ok signer, Ok k => ValidatorKeyID id (sg_Algorithm signer) (sg_PublicKey signer) (cs_KEMAlgorithm selected) (kp_PublicKey k)
  | _, _ => ""
  end.

Section lawful.
Context (selected : CryptoSuite) `{!LawfulSuite selected}.
#[local] Set Default Proof Using "All".

(** The service has the signer of each validator, under its key's id. *)
Lemma smoke_keys_lookup ids signers id :
  smoke_keys selected ids = Ok signers -> id ∈ ids ->
  (forall id', id' ∈ ids -> key_id selected id' = key_id selected id -> id' = id) ->
  exists signer, cs_NewSigner selected id = Ok signer /\ signers !! key_id selected id = Some signer.
Proof.
  destruct (suite_signer id) as (signer & Hs & _). destruct (suite_kem id) as (k & Hk & _). intros Hkeys Hin Hinj.
  exists signer. split; [done|]. revert Hkeys. unfold smoke_keys. generalize (∅ : gmap string Signer) as m.
  assert (Hgen : forall l m, (forall id', id' ∈ l -> key_id selected id' = key_id selected id -> id' = id) ->
    id ∈ l \/ m !! key_id selected id = Some signer ->
    foldl (fun acc id =>
      signers ← acc; signer ← cs_NewSigner selected id; kemPrivate ← cs_NewKEMPrivate selected id;
      Ok (<[ValidatorKeyID id (sg_Algorithm signer) (sg_PublicKey signer) (cs_KEMAlgorithm selected)
              (kp_PublicKey kemPrivate) := signer]> signers)) (Ok m) l = Ok signers ->
    signers !! key_id selected id = Some signer).
  { induction l as [|i l IH]; intros m Hl Hm; cbn [foldl]; [intros [= <-]; set_solver|].
    destruct (suite_signer i) as (si & Hsi & _). destruct (suite_kem i) as (ki & Hki & _).
    cbn [mbind result_bind]. rewrite Hsi. cbn [mbind result_bind]. rewrite Hki. cbn [mbind result_bind].
    assert (Hid : ValidatorKeyID i (sg_Algorithm si) (sg_PublicKey si) (cs_KEMAlgorithm selected) (kp_PublicKey ki)
                  = key_id selected i) by (unfold key_id; by rewrite Hsi, Hki).
    rewrite Hid. apply IH; [set_solver|]. destruct (decide (key_id selected i = key_id selected id)) as [E|Hne].
    - right. assert (i = id) as -> by (apply Hl; [set_solver|done]). rewrite lookup_insert_eq. congruence.
    - rewrite lookup_insert_ne by done. set_solver. }
  intros m. apply Hgen; [done|by left].
Qed.

Lemma identity_key id region url v : ValidatorIdentityForSuite id region url selected = Ok v ->
  vi_KeyID v = key_id selected id.
Proof.
  destruct (suite_signer id) as (signer & Hs & _ & Ha & _). destruct (suite_kem id) as (k & Hk & _).
  unfold ValidatorIdentityForSuite, key_id. rewrite Hs, Hk, Ha. by intros [= <-].
Qed.

Lemma key_id_hex id : exists digest, key_id selected id = Hex.EncodeToString digest.
Proof.
  destruct (suite_signer id) as (signer & Hs & _). destruct (suite_kem id) as (k & Hk & _).
  unfold key_id. rewrite Hs, Hk. by eexists.
Qed.

Lemma key_id_not_empty id : key_id selected id <> "".
Proof.
  destruct (suite_signer id) as (signer & Hs & _). destruct (suite_kem id) as (k & Hk & _).
  unfold key_id, ValidatorKeyID. rewrite Hs, Hk. intros E. apply (f_equal String.length) in E.
  rewrite Hex.length_EncodeToString, Sha256.length_Sum256 in E. discriminate E.
Qed.

(** A message that fits the limit of its reader. *)
Definition fits (v : json) : Prop := len (Marshal v) < 2 ^ 20.

(** What makes the requests of one validator and their answers fit, and its names text. *)
Record servable (id : string) (signer : Signer) : Prop := {
  se_algorithm : utf8 (sg_Algorithm signer) = true /\ sg_Algorithm signer <> "" /\
    TrimSpace (sg_Algorithm signer) = sg_Algorithm signer;
  se_public : sg_PublicKey signer <> "" /\ fits (JObj (key_fields signer (key_id selected id)));
  se_signature m sig : sg_Sign signer m = Ok sig -> sig <> "" /\ fits (JObj (signature_fields signer (key_id selected id) sig))
}.

Section served.
Context (signers : gmap string Signer) (mux : string -> string -> Response) (endpoint : string).
Context (id : string) (signer : Signer) (Hsigner : signers !! key_id selected id = Some signer).
Context (Hservable : servable id signer).

Lemma fields_fit fs : json_ok (JObj fs) = true -> fits (JObj fs) ->
  forall (A : Type) (f : list (string * json) -> result A), Decode f (limit_body (hr_Body (encoded fs))) = f fs.
Proof.
  intros Hok Hfit A f. unfold encoded. cbn [hr_Body].
  rewrite (Decode_Marshal f (JObj fs)); [done|done|done|]. unfold fits, len in *. rewrite length_append.
  change (String.length newline) with 1%nat. lia.
Qed.

Lemma key_answer token :
  doJSON (smoke_kms signers mux endpoint) (mkCloud id (sg_Algorithm signer) (sg_PublicKey signer) endpoint
    (key_id selected id) token) "GET" ("/v1/keys/" ++ PathEscape (key_id selected id)) None kmsKeyResponse_of
  = Ok (key_id selected id, sg_Algorithm signer, Base64.EncodeToString (sg_PublicKey signer), false).
Proof.
  destruct (key_id_hex id) as [digest Hhex]. destruct (se_algorithm _ _ Hservable) as (Hutf & _).
  destruct (se_public _ _ Hservable) as [_ Hfit]. unfold doJSON, smoke_kms. cbn [kc_endpoint].
  assert (Hplain : PathUnescape ("/v1/keys/" ++ PathEscape (key_id selected id)) = Some ("/v1/keys/" ++ key_id selected id)).
  { rewrite Hhex, PathEscape_hex. apply PathUnescape_plain. rewrite bytes_of_string_app. apply Forall_app. split.
    - repeat (constructor; [discriminate|]). constructor.
    - eapply Forall_impl; [apply hex_path|]. by intros b [_ Hb]. }
  rewrite TrimPrefix_app, Hplain. cbn [mbind result_bind]. unfold serve_kms. rewrite HasPrefix_app.
  change (String.eqb "GET" "GET") with true. cbn [andb]. unfold get_key. rewrite TrimPrefix_app.
  assert (Hun : PathUnescape (key_id selected id) = Some (key_id selected id)).
  { rewrite Hhex. apply PathUnescape_plain. eapply Forall_impl; [apply hex_path|]. by intros b [_ Hb]. }
  rewrite Hun. change (default "" (Some (key_id selected id))) with (key_id selected id). rewrite Hsigner. cbn [hr_StatusCode encoded].
  change (300 <=? 200) with false. cbv iota. rewrite fields_fit; [done| |exact Hfit].
  unfold key_fields. cbn [json_ok forallb]. rewrite Hutf, base64_utf8, Hhex, utf8_hex. done.
Qed.

Lemma sign_answer token m sig : sg_Sign signer m = Ok sig ->
  fits (kmsSignRequest_json (key_id selected id) (sg_Algorithm signer) (Base64.EncodeToString m)) ->
  kms_Sign (smoke_kms signers mux endpoint)
    (mkCloud id (sg_Algorithm signer) (sg_PublicKey signer) endpoint (key_id selected id) token) m = Ok sig.
Proof.
  intros Hsig Hrequest. destruct (key_id_hex id) as [digest Hhex]. destruct (se_algorithm _ _ Hservable) as (Hutf & _).
  destruct (se_signature _ _ Hservable m sig Hsig) as [Hne Hfit]. unfold kms_Sign, doJSON, smoke_kms.
  cbn [kc_endpoint kc_keyID kc_algorithm]. rewrite TrimPrefix_app.
  replace (PathUnescape "/v1/sign") with (Some "/v1/sign") by (vm_compute; reflexivity). cbn [mbind result_bind].
  unfold serve_kms. change (String.eqb "POST" "GET") with false. cbn [andb]. change (String.eqb "POST" "POST") with true.
  change (String.eqb "/v1/sign" "/v1/sign") with true. cbn [andb]. unfold post_sign.
  rewrite <-(append_nil (Marshal (kmsSignRequest_json _ _ _))).
  rewrite Decode_Marshal; [|unfold kmsSignRequest_json; cbn [json_ok forallb]; rewrite Hutf, base64_utf8, Hhex, utf8_hex; done|done|].
  2: { rewrite append_nil. unfold fits in Hrequest. lia. }
  replace (dec_struct kmsSignRequest_of _)
    with (Ok (key_id selected id, sg_Algorithm signer, Base64.EncodeToString m)) by reflexivity.
  rewrite Hsigner, String.eqb_refl. cbn [negb]. rewrite Base64.DecodeString_EncodeToString, Hsig.
  cbn [hr_StatusCode encoded]. change (300 <=? 200) with false. cbv iota.
  rewrite fields_fit; [|unfold signature_fields; cbn [json_ok forallb]; rewrite Hutf, base64_utf8, Hhex, utf8_hex; done|exact Hfit].
  replace (kmsSignResponse_of _)
    with (Ok (key_id selected id, sg_Algorithm signer, Base64.EncodeToString sig)) by reflexivity.
  cbn [mbind result_bind]. rewrite !String.eqb_refl. cbn [negb]. rewrite Base64.DecodeString_EncodeToString.
  apply String.eqb_neq in Hne. by rewrite Hne.
Qed.
End served.

(** C20: the smoke test's key service serves the validators' signers.  For a lawful suite
    whose key ids differ, the cloud signer that a validator builds for its identity over
    that service, through the requests, escaped paths, JSON and base64 of both sides, is
    accepted by [NewSigner], presents the identity's key, and signs every message that
    fits a request with a signature that the suite's verifier accepts. *)
Theorem smoke_kms_serves ids signers mux endpoint url_ok kms_client ca token id region url v signer :
  smoke_keys selected ids = Ok signers -> id ∈ ids -> TrimSpace id <> "" ->
  (forall id', id' ∈ ids -> key_id selected id' = key_id selected id -> id' = id) ->
  ValidatorIdentityForSuite id region url selected = Ok v -> cs_NewSigner selected id = Ok signer -> servable id signer ->
  TrimRightSlash (TrimSpace endpoint) = endpoint -> endpoint <> "" -> url_Scheme url_ok endpoint = Ok "https" ->
  kms_client ca = Ok tt ->
  exists cloud, NewSigner (smoke_kms signers mux endpoint) url_ok kms_client
      (mkSigning "cloud-kms" id selected (SignatureAlgorithmName v) (SignaturePublicKeyBytes v)
         (mkKMS endpoint (vi_KeyID v) token ca false)) = Ok (ProviderCloudKMS, cloud) /\
    sg_PublicKey cloud = SignaturePublicKeyBytes v /\
    forall m, fits (kmsSignRequest_json (vi_KeyID v) (sg_Algorithm signer) (Base64.EncodeToString m)) ->
      exists sig, sg_Sign cloud m = Ok sig /\
        ver_Verify (cs_NewVerifier selected) (SignaturePublicKeyBytes v) m sig = true.
Proof.
  intros Hkeys Hin Hid Hinj Hv Hs Hserve Htrim Hend Hscheme Hca.
  destruct (smoke_keys_lookup ids signers id Hkeys Hin Hinj) as (signer' & Hs' & Hlook). assert (signer' = signer) as -> by congruence.
  destruct (ValidatorIdentityForSuite_ok selected id region url) as (v' & signer' & Hv' & Hs'' & Halg & Hpk).
  assert (v' = v) as -> by congruence. assert (signer' = signer) as -> by congruence.
  destruct (suite_signer id) as (signer' & Hs3 & _ & _ & [_ Hverify] & Htotal). assert (signer' = signer) as -> by congruence.
  rewrite Halg, Hpk, (identity_key id region url v Hv). destruct (se_algorithm _ _ Hserve) as (_ & Hane & Hatrim).
  destruct (se_public _ _ Hserve) as [Hpne _]. destruct (key_id_hex id) as [digest Hhex].
  set (s := mkCloud id (sg_Algorithm signer) (sg_PublicKey signer) endpoint (key_id selected id) (TrimSpace token)).
  assert (Hkid : TrimSpace (key_id selected id) = key_id selected id /\ key_id selected id <> "").
  { split; [by rewrite Hhex, hex_solid|apply key_id_not_empty]. }
  exists (cloud_signer (smoke_kms signers mux endpoint) s). split.
  - unfold NewSigner. cbn [sc_Provider]. change (NormalizeProvider "cloud-kms") with "cloud-kms".
    change (String.eqb "cloud-kms" ProviderLocal) with false. change (String.eqb "cloud-kms" ProviderCloudKMS) with true.
    cbv iota. unfold NewCloudKMSSigner. cbn [sc_NodeID sc_KMS km_Endpoint km_KeyID sc_ExpectedAlgorithm sc_ExpectedPublicKey
      sc_Suite km_CAFile km_AuthToken km_AllowInsecure]. apply String.eqb_neq in Hid, Hend, Hane, Hpne.
    destruct Hkid as [Hkt Hkn%String.eqb_neq].
    rewrite Hid, Htrim, Hend, Hscheme, Hkt, Hkn, Hatrim, Hane. cbv iota. rewrite Hane, Hpne, Hca.
    change (String.eqb "https" "https") with true. cbn [negb andb mbind result_bind]. fold s.
    assert (Hval : validateKey (smoke_kms signers mux endpoint) s = Ok tt).
    { unfold validateKey. unfold s. cbn [kc_keyID].
      rewrite (key_answer signers mux endpoint id signer Hlook Hserve). cbn [mbind result_bind kc_keyID kc_algorithm kc_publicKey].
      rewrite !String.eqb_refl. cbn [negb]. rewrite Base64.DecodeString_EncodeToString, String.eqb_refl. done. }
    by rewrite Hval.
  - split; [done|]. intros m Hm. destruct (Htotal m) as (sig & Hsig). exists sig. split; [|by apply Hverify].
    by apply (sign_answer signers mux endpoint id signer Hlook Hserve).
Qed.
End lawful.

(** *** Witness: the service of the demonstration's suite *)

Lemma length_escape_rune rune : (length (escape_rune rune) <= 6 * length rune)%nat.
Proof.
  unfold escape_rune, escape_ascii, u00. destruct rune as [|b [|b' rune]]; cbn [length].
  - vm_compute. lia.
  - repeat case_match; cbn; lia.
  - repeat case_match; cbn [length]; lia.
Qed.

Lemma length_escape n : forall bs, (length (escape n bs) <= 6 * length bs)%nat.
Proof.
  induction n as [|n IH]; intros [|b bs]; cbn [escape length]; try lia.
  destruct (rune_width (b :: bs)) as [|w]; rewrite length_app.
  - specialize (IH (skipn 1 (b :: bs))). change (skipn 1 (b :: bs)) with bs in *. change (length replacement) with 6%nat. lia.
  - pose proof (length_escape_rune (firstn (S w) (b :: bs))). specialize (IH (skipn (S w) (b :: bs))).
    rewrite length_firstn in *. rewrite length_skipn in IH. cbn [length] in *. lia.
Qed.

Lemma length_quote s : (String.length (quote s) <= 6 * String.length s + 2)%nat.
Proof.
  unfold quote. cbn [String.length]. rewrite length_append, length_string_of_bytes. cbn [String.length].
  pose proof (length_escape (length (bytes_of_string s)) (bytes_of_string s)). rewrite length_bytes_of_string in *. lia.
Qed.

Lemma length_base64 s : (String.length (Base64.EncodeToString s) <= 2 * String.length s + 4)%nat.
Proof.
  unfold Base64.EncodeToString. rewrite length_string_of_list_ascii, <-(length_bytes_of_string s).
  generalize (bytes_of_string s). fix IH 1. intros [|b0 [|b1 [|b2 l]]]; cbn [Base64.encode_bytes length]; try (cbn; lia).
  rewrite length_app. specialize (IH l). cbn in *. lia.
Qed.

#[local] Existing Instances demo_ed25519 demo_x25519 demo_mldsa87 demo_mlkem768 demo_pq_lawful.

Lemma fits_three k1 v1 k2 v2 k3 v3 :
  len k1 + len v1 + len k2 + len v2 + len k3 + len v3 <= 10000 -> fits (JObj [(k1, JStr v1); (k2, JStr v2); (k3, JStr v3)]).
Proof.
  unfold fits, len. intros Hlen.
  change (Marshal _) with ("{" ++ ((quote k1 ++ ":" ++ quote v1) ++ "," ++ (quote k2 ++ ":" ++ quote v2) ++ "," ++
    (quote k3 ++ ":" ++ quote v3)) ++ "}").
  rewrite !length_append.
  pose proof (length_quote k1). pose proof (length_quote v1). pose proof (length_quote k2). pose proof (length_quote v2).
  pose proof (length_quote k3). pose proof (length_quote v3). cbn [String.length]. lia.
Qed.

Definition demo_seed : string := deterministicSeed ("pq-fabric/mldsa87/signer/" ++ "validator-2") 32.

Definition demo_signer : Signer :=
  mkSigner "validator-2" MldsaAlgorithm demo_seed (fun m => Ok (demo_hash demo_seed m)).

Lemma demo_servable : servable demo_pq "validator-2" demo_signer.
Proof.
  destruct (key_id_hex demo_pq "validator-2") as [digest Hid].
  assert (Hkey : String.length (key_id demo_pq "validator-2") = 64%nat) by (vm_compute; reflexivity).
  assert (Hseed : String.length demo_seed = 32%nat) by (vm_compute; reflexivity).
  split.
  - by vm_compute.
  - split; [intros E; change demo_seed with (sg_PublicKey demo_signer) in Hseed; rewrite E in Hseed; discriminate Hseed|].
    apply fits_three. unfold len. rewrite Hkey.
    pose proof (length_base64 demo_seed) as Hb. change (sg_PublicKey demo_signer) with demo_seed.
    change (String.length (sg_Algorithm demo_signer)) with 9%nat. cbn [String.length]. lia.
  - intros m sig [= <-]. assert (Hs : String.length (demo_hash demo_seed m) = 32%nat) by apply Sha256.length_Sum256.
    split; [intros E; rewrite E in Hs; discriminate Hs|]. apply fits_three. unfold len. rewrite Hkey.
    pose proof (length_base64 (demo_hash demo_seed m)). change (String.length (sg_Algorithm demo_signer)) with 9%nat.
    cbn [String.length]. lia.
Qed.

Definition demo_mux (method path : string) : Response := not_found.

Definition demo_identity_of (id : string) : ValidatorIdentity :=
  match ValidatorIdentityForSuite id "nyc" "" demo_pq with Ok v => v | Err _ => mkIdentity "" "" "" "" "" "" "" "" "" "" end.

Lemma smoke_kms_serves_witness : exists signers cloud,
  smoke_keys demo_pq DefaultValidatorIDs = Ok signers /\
  NewSigner (smoke_kms signers demo_mux "https://kms") (fun _ => true) (fun _ => Ok tt)
    (mkSigning "cloud-kms" "validator-2" demo_pq (SignatureAlgorithmName (demo_identity_of "validator-2"))
       (SignaturePublicKeyBytes (demo_identity_of "validator-2"))
       (mkKMS "https://kms" (vi_KeyID (demo_identity_of "validator-2")) "token" "ca.crt" false)) = Ok (ProviderCloudKMS, cloud) /\
  exists sig, sg_Sign cloud "block" = Ok sig /\
    ver_Verify (cs_NewVerifier demo_pq) (SignaturePublicKeyBytes (demo_identity_of "validator-2")) "block" sig = true.
Proof.
  assert (Hk : is_ok (smoke_keys demo_pq DefaultValidatorIDs) = true) by (vm_compute; reflexivity).
  apply is_ok_spec in Hk as [signers Hk].
  assert (Hv : is_ok (ValidatorIdentityForSuite "validator-2" "nyc" "" demo_pq) = true) by (vm_compute; reflexivity).
  assert (Hid : ValidatorIdentityForSuite "validator-2" "nyc" "" demo_pq = Ok (demo_identity_of "validator-2")).
  { apply is_ok_spec in Hv as [v Hv]. unfold demo_identity_of. rewrite Hv. exact eq_refl. }
  assert (Hinj : forallb (fun id' => negb (String.eqb (key_id demo_pq id') (key_id demo_pq "validator-2")) ||
    String.eqb id' "validator-2") DefaultValidatorIDs = true) by (vm_compute; reflexivity).
  destruct (smoke_kms_serves demo_pq DefaultValidatorIDs signers demo_mux "https://kms" (fun _ => true) (fun _ => Ok tt)
    "ca.crt" "token" "validator-2" "nyc" "" (demo_identity_of "validator-2") demo_signer) as (cloud & Hc & _ & Hsign).
  - exact Hk.
  - apply list_elem_of_In. right. left. exact eq_refl.
  - discriminate.
  - intros id' Hin E. rewrite List.forallb_forall in Hinj. specialize (Hinj id' (proj1 (list_elem_of_In _ _) Hin)).
    rewrite E, String.eqb_refl in Hinj. exact (proj1 (String.eqb_eq _ _) Hinj).
  - exact Hid.
  - exact eq_refl.
  - exact demo_servable.
  - vm_compute. exact eq_refl.
  - discriminate.
  - exact eq_refl.
  - exact eq_refl.
  - exists signers, cloud. split; [exact Hk|]. split; [exact Hc|]. apply Hsign. vm_compute. exact eq_refl.
Defined.
