(* ===== verification/BootstrapProps.v ===== *)
(** * What a bootstrap report guarantees and what it hides

    A report whose status is [pass] vouches for the material it read: the manifest, the
    API keys, the certificates, the keys and the token; a validator in production mode
    accepts that manifest and those keys.  Of a secret that is not public material a
    report shows no more than its size, what kind of content it is, and the checks it
    passes.  A file mounted at an absolute path is read under the root of its tree. *)

From S2P Require Import Prelude Sha256 Json JsonParse JsonDecode JsonIndent Identity Crypto Consortium Auth Store Signing Node NodeInit Deployment Filepath Bootstrap Smoke.
Local Open Scope string_scope.
Local Open Scope Z_scope.

(** ** The status of a report *)

Definition passes (c : Check) : bool := negb (failing c) && negb (String.eqb (ck_Status c) StatusUnresolved).

Lemma passes_add name ok msg : passes (add name ok msg) = ok.
Proof. by destruct ok. Qed.

Lemma passes_unresolved name msg : passes (unresolved name msg) = false.
Proof. done. Qed.

Lemma existsb_neither {A} (p q : A -> bool) l :
  existsb p l = false /\ existsb q l = false <-> forallb (fun a => negb (p a) && negb (q a)) l = true.
Proof.
  induction l as [|a l IH]; [done|]. cbn. rewrite !orb_false_iff, !andb_true_iff, !negb_true_iff, <-IH. tauto.
Qed.

Lemma reportStatus_pass checks : reportStatus checks = StatusPass <-> forallb passes checks = true.
Proof.
  change (forallb passes checks) with
    (forallb (fun c => negb (failing c) && negb (String.eqb (ck_Status c) StatusUnresolved)) checks).
  rewrite <-existsb_neither. unfold reportStatus.
  destruct (existsb failing checks); [naive_solver|]. destruct (existsb (fun c => _) checks); naive_solver.
Qed.

Create Rewrite HintDb checks.
#[local] Hint Rewrite passes_add passes_unresolved andb_true_r : checks.

(** Takes apart a test that every check passes. *)
Ltac split_checks H :=
  rewrite ?forallb_app in H; cbn [forallb] in H; autorewrite with checks go_bool in H; destruct_and? H.

Section pass.
Context (tools : Tools) (nanos : Z) (source : secretMap).

Lemma forallb_map_in {A B} (p : B -> bool) (f : A -> B) l a : forallb p (map f l) = true -> a ∈ l -> p (f a) = true.
Proof. rewrite List.forallb_forall. intros Hall Ha. by apply Hall, in_map, list_elem_of_In. Qed.

(** The value of a required reference is there. *)
Lemma required_pass refs ref : forallb passes (refs ≫= required_check source) = true -> ref ∈ refs ->
  sr_Required ref = true -> exists value, value_of source (normalizeSecretReference ref) = Some value /\ value <> "".
Proof.
  intros Hall Hin Hreq. assert (Hone : forallb passes (required_check source ref) = true).
  { apply List.forallb_forall. intros c Hc%list_elem_of_In. rewrite List.forallb_forall in Hall. apply Hall, list_elem_of_In.
    apply list_elem_of_bind. by exists ref. }
  unfold required_check in Hone. change (sr_Required (normalizeSecretReference ref)) with (sr_Required ref) in Hone.
  rewrite Hreq in Hone. cbn [negb] in Hone. unfold value_of.
  destruct (material_of source (normalizeSecretReference ref)) as [m|]; [|done].
  destruct (mt_Resolved m); cbn [negb] in Hone; [|done].
  destruct (String.eqb_spec (mt_Value m) ""); [done|]. by exists (mt_Value m).
Qed.

Lemma history_pass refs : forall acc, forallb passes (foldl (history_ref source) acc refs).2 = true ->
  forallb passes acc.2 = true.
Proof.
  induction refs as [|ref refs IH]; intros acc; [done|]. cbn [foldl]. intros H%IH. revert H.
  destruct acc as [[manifests seen] checks]. unfold history_ref. cbn [snd].
  repeat (case_match; cbn [snd]); rewrite ?forallb_app; intros Hacc; try apply andb_true_iff in Hacc as [Hacc _]; assumption.
Qed.

Lemma history_extends refs : forall acc, exists more, (foldl (history_ref source) acc refs).1.1 = (acc.1.1 ++ more)%list.
Proof.
  induction refs as [|ref refs IH]; intros acc; [exists []; cbn; by rewrite app_nil_r|]. cbn [foldl].
  destruct (IH (history_ref source acc ref)) as [more ->].
  assert (exists first, (history_ref source acc ref).1.1 = (acc.1.1 ++ first)%list) as [first ->].
  { destruct acc as [[manifests seen] checks]. unfold history_ref.
    repeat case_match; cbn; first [by exists []; rewrite app_nil_r|by eexists]. }
  exists (first ++ more)%list. by rewrite (assoc_L (++)%list).
Qed.

Lemma foldl_add_err consortiumID ms e : foldl (fun acc m => h ← acc; add_manifest consortiumID h m) (Err e) ms = Err e.
Proof. by induction ms. Qed.

(** A history that begins with the manifest can hold it alone. *)
Lemma NewHistory_first m ms h : NewHistory (m :: ms) = Ok h -> exists h1, NewHistory [m] = Ok h1 /\ hi_Manifests h1 = [m].
Proof.
  unfold NewHistory. cbn [foldl mbind result_bind].
  assert (Hsame : forall ms ms' : list Manifest, is_ok (add_manifest (TrimSpace (mf_ConsortiumID m)) (mkHistory ms ∅ ∅) m)
    = is_ok (add_manifest (TrimSpace (mf_ConsortiumID m)) (mkHistory ms' ∅ ∅) m)).
  { intros l l'. unfold add_manifest. destruct (Consortium.Validate m); cbn [mbind result_bind]; [|done].
    destruct (negb _); [done|]. by destruct (Manifest_Hash m). }
  specialize (Hsame (m :: ms) [m]). destruct (add_manifest _ (mkHistory (m :: ms) ∅ ∅) m) as [h0|e].
  - intros _. destruct (add_manifest _ (mkHistory [m] ∅ ∅) m) as [h1|]; [|done]. cbn [mbind result_bind].
    eexists. split; [reflexivity|]. reflexivity.
  - rewrite foldl_add_err. done.
Qed.

Lemma manifest_checks_pass refs consortiumID count threshold manifest :
  forallb passes (manifest_checks source refs consortiumID count threshold manifest).1 = true ->
  mf_ConsortiumID manifest = consortiumID /\ Z.of_nat (length (ActiveValidatorIDs manifest)) = count /\
  mf_QuorumThreshold manifest = threshold /\ exists h, NewHistory [manifest] = Ok h /\ hi_Manifests h = [manifest].
Proof.
  unfold manifest_checks. destruct (Manifest_Hash manifest) as [hash|e].
  all: match goal with |- context [foldl (history_ref source) ?acc ?rs] => destruct (history_extends rs acc) as [more Hm] end.
  all: destruct (foldl _ _ _) as [[manifests seen] checks] eqn:Ef; apply (f_equal snd) in Ef; cbn [fst snd app] in Ef, Hm.
  all: destruct (NewHistory manifests) as [h|] eqn:Eh; cbn [fst]; rewrite forallb_app, <-Ef; intros [Hc Hlast]%andb_true_iff.
  all: apply history_pass in Hc; cbn [snd] in Hc; split_checks Hc; try done.
  split_and!; [done..|]. subst manifests. by apply NewHistory_first in Eh.
Qed.

(** The current manifest is valid and is the consortium's. *)
Lemma manifest_pass refs consortiumID count threshold :
  forallb passes (validateManifestReferences source refs consortiumID count threshold).1 = true ->
  exists ref value manifest, head (of_kind refs SensitivityManifestCurrent) = Some ref /\
    value_of source ref = Some value /\ Unmarshal Manifest_of value = Ok manifest /\
    Consortium.Validate manifest = Ok tt /\ mf_ConsortiumID manifest = consortiumID /\
    Z.of_nat (length (ActiveValidatorIDs manifest)) = count /\ mf_QuorumThreshold manifest = threshold /\
    exists h, NewHistory [manifest] = Ok h /\ hi_Manifests h = [manifest].
Proof.
  unfold validateManifestReferences. destruct (of_kind refs _) as [|ref refs'] eqn:Er; [done|].
  destruct (value_of source ref) as [value|] eqn:Ev; [|done].
  destruct (Unmarshal Manifest_of value) as [manifest|] eqn:Em; [|done].
  destruct (Consortium.Validate manifest) as [[]|] eqn:Eval; [|done]. intros Hall%manifest_checks_pass.
  by exists ref, value, manifest.
Qed.

Lemma api_keys_pass refs : forallb passes (validateAPIKeyReferences source refs) = true ->
  exists ref value keys authn, head (of_kind refs SensitivityAPIKeys) = Some ref /\ value_of source ref = Some value /\
    Unmarshal APIKeyFile_of value = Ok keys /\ NewAuthenticator keys = Ok authn /\
    forall role, role ∈ requiredRoles -> have_role keys role = true.
Proof.
  unfold validateAPIKeyReferences. destruct (of_kind refs _) as [|ref refs'] eqn:Er; [done|].
  destruct (value_of source ref) as [value|] eqn:Ev; [|done]. unfold api_key_checks.
  destruct (Unmarshal APIKeyFile_of value) as [keys|] eqn:Ek; [|done].
  destruct (NewAuthenticator keys) as [authn|] eqn:Ea; [|done]. intros Hc. split_checks Hc.
  exists ref, value, keys, authn. split_and!; [done..|]. intros role Hrole.
  destruct (have_role keys role) eqn:Eh; [done|].
  assert (Hin : role ∈ List.filter (fun r => negb (have_role keys r)) requiredRoles).
  { apply list_elem_of_In, filter_In. split; [by apply list_elem_of_In|by rewrite Eh]. }
  destruct (List.filter _ _); [by apply elem_of_nil in Hin|done].
Qed.

(** A certificate for the validator, valid now, that names it. *)
Definition names_validator (consortiumID id : string) (value : string) : Prop :=
  exists cert, parseCertificate tools value = Ok cert /\ ce_NotBefore cert <= nanos <= ce_NotAfter cert /\
    ExpectedTLSURISAN consortiumID id ∈ ce_URIs cert.

Lemma tls_cert_pass consortiumID ref : passes (tls_cert_check tools source consortiumID nanos ref) = true ->
  exists value, value_of source ref = Some value /\
    (sr_ValidatorID ref <> "" -> names_validator consortiumID (sr_ValidatorID ref) value).
Proof.
  unfold tls_cert_check, names_validator. destruct (value_of source ref) as [value|]; [|done].
  destruct (parseCertificate tools value) as [cert|] eqn:Ec; [|done].
  destruct (_ || _) eqn:Et; [done|]. intros Hc. exists value. split; [done|]. intros Hid%String.eqb_neq.
  rewrite Hid in Hc. cbn [negb] in Hc. rewrite passes_add in Hc. exists cert. split; [done|].
  autorewrite with go_bool in Et. split; [lia|]. apply existsb_exists in Hc as (uri & Hin & ->%String.eqb_eq).
  by apply list_elem_of_In.
Qed.

(** The references of a kind are those of the specification, normalised. *)
Lemma of_kind_normal refs kind ref : ref ∈ of_kind refs kind -> exists r, r ∈ refs /\ ref = normalizeSecretReference r.
Proof. intros [Hin _]%list_elem_of_In%filter_In. apply in_map_iff in Hin as (r & <- & ?%list_elem_of_In). by exists r. Qed.

Lemma resolved_content ref value : value_of source ref = Some value -> HasResolvedContent source = true.
Proof.
  unfold value_of, material_of, Material. destruct (source !! sr_Name ref) as [secrets|] eqn:En; [|done].
  cbn [mbind option_bind]. destruct (secrets !! sr_Key ref) as [m|] eqn:Ek; [|done].
  destruct (mt_Resolved m) eqn:Em; [|done]. intros _. unfold HasResolvedContent, materials.
  apply existsb_exists. exists m. split; [|done]. apply list_elem_of_In, list_elem_of_bind.
  exists (sr_Name ref, secrets). split; [|by apply elem_of_map_to_list].
  apply list_elem_of_fmap. exists (sr_Key ref, m). split; [done|by apply elem_of_map_to_list].
Qed.

(** Every validator has its certificate, every key is one, the authorities too. *)
Lemma tls_pass refs consortiumID : forallb passes (validateTLSReferences tools source refs consortiumID nanos) = true ->
  HasResolvedContent source = true ->
  (forall id, id ∈ DefaultValidatorIDs -> exists ref value, ref ∈ of_kind refs SensitivityPeerTLSCert /\
     sr_ValidatorID ref = id /\ value_of source ref = Some value /\ names_validator consortiumID id value) /\
  (forall ref, ref ∈ of_kind refs SensitivityPeerTLSKey -> exists value, value_of source ref = Some value /\
     parsePrivateKeyPEM tools value = Ok tt) /\
  (forall ref, ref ∈ of_kind refs SensitivityPeerTLSCA -> exists value cert, value_of source ref = Some value /\
     parseCertificate tools value = Ok cert /\ ce_IsCA cert = true) /\
  of_kind refs SensitivityPeerTLSKey <> [] /\ of_kind refs SensitivityPeerTLSCA <> [].
Proof.
  intros Hall Hcontent. unfold validateTLSReferences in Hall.
  destruct (is_nil (of_kind refs SensitivityPeerTLSCert)); [done|].
  rewrite !forallb_app in Hall. apply andb_true_iff in Hall as (Hcerts & (Hunseen & (Hk & (Hkeys & (Ha & Hcas)%andb_true_iff)
    %andb_true_iff)%andb_true_iff)%andb_true_iff).
  split_and!.
  - intros id Hid. destruct (existsb (fun ref => String.eqb (sr_ValidatorID ref) id) (of_kind refs SensitivityPeerTLSCert)) eqn:Es.
    + apply existsb_exists in Es as (ref & Hin%list_elem_of_In & <-%String.eqb_eq).
      pose proof (tls_cert_pass consortiumID ref (forallb_map_in _ _ _ ref Hcerts Hin)) as (value & Hv & Hn).
      exists ref, value. split_and!; [done..|]. apply Hn. intros E. rewrite E in Hid.
      apply list_elem_of_In in Hid. cbn in Hid. naive_solver.
    + rewrite List.forallb_forall in Hunseen.
      assert (Hbad : passes (add ("peer_tls_cert_" ++ safeName id) false "missing validator-specific peer TLS cert reference") = true);
        [|done].
      apply Hunseen. apply in_map_iff. exists id. split; [done|]. apply filter_In.
      split; [by apply list_elem_of_In|]. by rewrite Es, Hcontent.
  - intros ref Hin. pose proof (forallb_map_in _ _ _ ref Hkeys Hin) as Hp. unfold tls_key_check in Hp.
    destruct (value_of source ref) as [value|]; [|done]. exists value. split; [done|].
    by destruct (parsePrivateKeyPEM tools value) as [[]|].
  - intros ref Hin. pose proof (forallb_map_in _ _ _ ref Hcas Hin) as Hp. unfold tls_ca_check in Hp.
    destruct (value_of source ref) as [value|]; [|done].
    destruct (parseCertificate tools value) as [cert|] eqn:Ec; [|done]. exists value, cert. by rewrite passes_add in Hp.
  - by destruct (of_kind refs SensitivityPeerTLSKey).
  - by destruct (of_kind refs SensitivityPeerTLSCA).
Qed.

Lemma kms_pass refs : forallb passes (validateKMSReferences tools source refs) = true ->
  (exists ref value, head (of_kind refs SensitivityKMSToken) = Some ref /\ value_of source ref = Some value /\
     TrimSpace value <> "") /\
  (exists ref value cert, head (of_kind refs SensitivityKMSCA) = Some ref /\ value_of source ref = Some value /\
     parseCertificate tools value = Ok cert).
Proof.
  unfold validateKMSReferences. intros Hall. cbn [forallb] in Hall.
  apply andb_true_iff in Hall as [Ht [Ha _]%andb_true_iff]. split.
  - destruct (of_kind refs SensitivityKMSToken) as [|ref refs']; [done|]. unfold kms_token_check in Ht. exists ref.
    unfold value_of. destruct (material_of source ref) as [m|]; [|done]. destruct (mt_Resolved m); [|done].
    cbn [negb] in Ht. exists (mt_Value m). split_and!; [done..|]. intros E. by rewrite passes_add, E in Ht.
  - destruct (of_kind refs SensitivityKMSCA) as [|ref refs']; [done|]. unfold kms_ca_check in Ha. exists ref.
    unfold value_of. destruct (material_of source ref) as [m|]; [|done]. destruct (mt_Resolved m); [|done].
    cbn [negb] in Ha. destruct (parseCertificate tools (mt_Value m)) as [cert|] eqn:Ec; [|done].
    by exists (mt_Value m), cert.
Qed.
End pass.

(** ** A report that passes *)

(** The first reference of a kind, and the value it leads to. *)
Definition first_value (source : secretMap) (refs : list SecretReference) (kind : string) : option string :=
  ref ← head (of_kind refs kind); value_of source ref.

(** What a report that passes vouches for. *)
Record vouched (tools : Tools) (nanos : Z) (spec : BootstrapSpec) (source : secretMap) (manifest : Manifest)
    (keys : list APIKeyRecord) : Prop := {
  vo_required ref : ref ∈ bs_SecretReferences spec -> sr_Required ref = true ->
    exists value, value_of source (normalizeSecretReference ref) = Some value /\ value <> "";
  vo_manifest : exists value, first_value source (bs_SecretReferences spec) SensitivityManifestCurrent = Some value /\
    Unmarshal Manifest_of value = Ok manifest;
  vo_valid : Consortium.Validate manifest = Ok tt /\ mf_ConsortiumID manifest = bs_ConsortiumID spec /\
    length (ActiveValidatorIDs manifest) = 7%nat /\ mf_QuorumThreshold manifest = 5;
  vo_history : exists h, NewHistory [manifest] = Ok h /\ hi_Manifests h = [manifest];
  vo_keys : exists value authn, first_value source (bs_SecretReferences spec) SensitivityAPIKeys = Some value /\
    Unmarshal APIKeyFile_of value = Ok keys /\ NewAuthenticator keys = Ok authn;
  vo_roles role : role ∈ requiredRoles -> exists key, key ∈ keys /\ ak_Disabled key = false /\ role ∈ ak_Roles key;
  vo_certificates id : id ∈ DefaultValidatorIDs ->
    exists ref value, ref ∈ of_kind (bs_SecretReferences spec) SensitivityPeerTLSCert /\ sr_ValidatorID ref = id /\
      value_of source ref = Some value /\ names_validator tools nanos (bs_ConsortiumID spec) id value;
  vo_tls_keys ref : ref ∈ of_kind (bs_SecretReferences spec) SensitivityPeerTLSKey ->
    exists value, value_of source ref = Some value /\ parsePrivateKeyPEM tools value = Ok tt;
  vo_authorities ref : ref ∈ of_kind (bs_SecretReferences spec) SensitivityPeerTLSCA ->
    exists value cert, value_of source ref = Some value /\ parseCertificate tools value = Ok cert /\ ce_IsCA cert = true;
  vo_some : of_kind (bs_SecretReferences spec) SensitivityPeerTLSKey <> [] /\
    of_kind (bs_SecretReferences spec) SensitivityPeerTLSCA <> [];
  vo_token : exists value, first_value source (bs_SecretReferences spec) SensitivityKMSToken = Some value /\
    TrimSpace value <> "";
  vo_switches : bs_PublicExitRouting spec = false /\ bs_MainnetAnchoring spec = false /\
    kb_AllowInsecure (bs_KMS spec) = false
}.

Lemma have_role_key keys role : have_role keys role = true ->
  exists key, key ∈ keys /\ ak_Disabled key = false /\ role ∈ ak_Roles key.
Proof.
  intros (key & Hin%list_elem_of_In & [Hd%negb_true_iff Hr]%andb_true_iff)%existsb_exists.
  apply existsb_exists in Hr as (r & Hr%list_elem_of_In & ->%String.eqb_eq). by exists key.
Qed.

Lemma validate_vouched tools nanos now spec : br_Status (Validate tools nanos now spec) = StatusPass ->
  exists manifest keys, vouched tools nanos spec (resolveSecretSource tools spec).1 manifest keys.
Proof.
  unfold Validate, report_on. change (resolveSecretSource tools (with_defaults spec)) with (resolveSecretSource tools spec).
  destruct (resolveSecretSource tools spec) as [source sourceChecks]. cbn [fst].
  change (bs_SecretReferences (with_defaults spec)) with (bs_SecretReferences spec).
  change (bs_ConsortiumID (with_defaults spec)) with (bs_ConsortiumID spec).
  set (refs := bs_SecretReferences spec).
  destruct (validateManifestReferences _ _ _ _ _) as [manifestChecks summary] eqn:Em. cbn [br_Status].
  rewrite reportStatus_pass, !forallb_app.
  intros (Hspec & (_ & (Hreq & (_ & (Hman & (Hapi & (Htls & (Hkms & _)%andb_true_iff)%andb_true_iff)%andb_true_iff)
    %andb_true_iff)%andb_true_iff)%andb_true_iff)%andb_true_iff)%andb_true_iff.
  apply (f_equal fst) in Em. cbn [fst] in Em. rewrite <-Em in Hman.
  apply manifest_pass in Hman as (mref & mvalue & manifest & Hmref & Hmv & Hdec & Hval & Hid & Hcount & Hth & Hhist).
  apply api_keys_pass in Hapi as (kref & kvalue & keys & authn & Hkref & Hkv & Hkdec & Hauth & Hroles).
  apply tls_pass in Htls as (Hcert & Hkey & Hca & Hsome); [|by eapply resolved_content].
  apply kms_pass in Hkms as [(tref & token & Htref & Htv & Htok) _].
  unfold spec_checks in Hspec. rewrite forallb_app in Hspec. apply andb_true_iff in Hspec as [Hspec _].
  split_checks Hspec. exists manifest, keys. split.
  - intros ref Hin Hr. by apply (required_pass source refs).
  - exists mvalue. unfold first_value. fold refs. by rewrite Hmref.
  - assert (Hseven : Z.of_nat (length DefaultValidatorIDs) = 7) by reflexivity. split_and!; [done|done|lia|congruence].
  - done.
  - exists kvalue, authn. unfold first_value. fold refs. by rewrite Hkref.
  - intros role Hrole. by apply have_role_key, Hroles.
  - done.
  - done.
  - done.
  - done.
  - exists token. unfold first_value. fold refs. by rewrite Htref.
  - by split_and!.
Qed.

(** C17: a bootstrap report that passes vouches for the deployment's material.  With
    status [pass] every required secret was read and is not empty; the current manifest
    is valid, is the consortium's, has seven active validators and the threshold five;
    the API keys are accepted and some enabled key has each role the pilot needs; every
    validator has a certificate that is valid now and carries its name; the private keys,
    the authorities and the key service's token are there; and public exits, mainnet
    anchoring and an insecure key service are switched off. *)
Theorem validate_pass_sound tools nanos now spec :
  br_Status (Validate tools nanos now spec) = StatusPass ->
  exists source checks manifest keys, resolveSecretSource tools spec = (source, checks) /\
    vouched tools nanos spec source manifest keys.
Proof.
  intros Hpass. destruct (validate_vouched tools nanos now spec Hpass) as (manifest & keys & Hv).
  exists (resolveSecretSource tools spec).1, (resolveSecretSource tools spec).2, manifest, keys.
  split; [by destruct (resolveSecretSource tools spec)|done].
Qed.

(** ** The validator that reads the same files *)

Section node.
Context {S : Type} `{ValidatorStore S} (env : NodeInit.Environment S) (cfg : NodeConfig).

Lemma trimmed_consortium m h : NewHistory [m] = Ok h -> TrimSpace (mf_ConsortiumID m) = mf_ConsortiumID m.
Proof.
  unfold NewHistory. cbn [foldl mbind result_bind]. by intros (h1 & (_ & Ht & _)%add_manifest_ok & _)%bind_ok.
Qed.

Lemma sets_of_valid h : (forall m, m ∈ hi_Manifests h -> Consortium.Validate m = Ok tt) ->
  is_ok (buildMembershipIdentitySets h) = true.
Proof.
  unfold buildMembershipIdentitySets. generalize (∅ : gmap string membershipIdentitySet) as sets.
  induction (hi_Manifests h) as [|m ms IH]; [done|]. intros sets Hv. cbn [foldl mbind result_bind].
  destruct (valid_hash m) as [hash ->]; [apply Hv; left|]. cbn [mbind result_bind].
  destruct (ActiveIdentities_spec m) as (ids & -> & _); [apply Hv; left|]. cbn [mbind result_bind].
  apply IH. intros m' Hm'. apply Hv. by right.
Qed.

(** What the validator brings itself: the suite, the switches of its configuration, its
    place in the manifest with the keys for it, the URLs of its peers and its TLS files. *)
Record own_material (order : gmap string string -> list (string * string)) (manifest : Manifest)
    (selected : CryptoSuite) (ids : gmap string ValidatorIdentity) (self : ValidatorIdentity) : Prop := {
  om_id : blank (nc_ID cfg) = false;
  om_suite : Lookup (en_dev env) (en_pq env) (en_suite env) = Ok selected;
  om_switches : production_checks cfg (if String.eqb (nc_StorageMode cfg) "" then ModeMemory else nc_StorageMode cfg)
                  selected = Ok tt;
  om_self : ActiveIdentities manifest = Ok ids /\ ids !! nc_ID cfg = Some self;
  om_listed : containsString (ActiveValidatorIDs manifest) (nc_ID cfg) = true;
  om_signer : exists provider signer,
    NewSigner (en_kms_do env) (en_url_ok env) (en_kms_client env)
      (mkSigning (NormalizeProvider (nc_SignerProvider cfg)) (nc_ID cfg) selected
         (SignatureAlgorithmName self) (SignaturePublicKeyBytes self) (kms_config cfg (Some manifest)))
    = Ok (provider, signer) /\ SignaturePublicKeyBytes self = sg_PublicKey signer;
  om_kem : validateLocalKEMIdentity (nc_ID cfg) self selected = Ok tt;
  om_urls : validateProductionPeerURLs env (order (public_urls cfg (Some manifest))) (nc_ID cfg) = Ok tt;
  om_tls : is_ok (loadPeerTLS env cfg) = true
}.

(** Members are worked out from a valid manifest that fits the history. *)
Lemma manifest_members_complete manifest ids history :
  Consortium.Validate manifest = Ok tt -> TrimSpace (mf_ConsortiumID manifest) = mf_ConsortiumID manifest ->
  ActiveIdentities manifest = Ok ids -> length (ActiveValidatorIDs manifest) = 7%nat -> mf_QuorumThreshold manifest = 5 ->
  LoadManifestHistory (en_read_file env) (en_unquote env) (nc_ManifestHistory cfg) = Ok history ->
  fits_history history manifest ->
  exists sets hash, manifest_members env cfg manifest
    = Ok (mkMembers (Some manifest) sets hash (mf_MembershipVersion manifest) ids (ActiveValidatorIDs manifest)).
Proof.
  intros Hval Htrim Hids Hseven Hfive Hload Hfit.
  destruct (valid_hash manifest Hval) as [hash Hhash]. unfold manifest_members. rewrite Hhash, Hids. cbn [mbind result_bind].
  rewrite Hseven, Hfive. change (Z.of_nat 7 =? Z.of_nat (length DefaultValidatorIDs)) with true.
  change (5 =? 5) with true. cbn [negb]. rewrite !andb_false_r.
  assert (Hh : exists h, (if blank (nc_ManifestHistory cfg) then Ok empty_history
      else LoadManifestHistory (en_read_file env) (en_unquote env) (nc_ManifestHistory cfg)) = Ok h /\
      history_ok h /\ fits_history h manifest).
  { destruct (blank _).
    - exists empty_history. split; [done|]. split; [by apply (NewHistory_ok [])|by intros ? ?%elem_of_nil].
    - exists history. split; [done|]. split; [|done]. apply bind_ok in Hload as (ms & _ & Hnew). by apply NewHistory_ok in Hnew as [? _]. }
  destruct Hh as (h & -> & Hok & Hfits). cbn [mbind result_bind].
  destruct (proj1 (is_ok_spec _) (WithManifest_complete h manifest Hok Hfits Hval Htrim)) as [h' Hh']. rewrite Hh'. cbn [mbind result_bind].
  destruct (proj1 (is_ok_spec _) (sets_of_valid h' (ho_valid _ (WithManifest_ok _ _ _ Hh')))) as [sets ->]. cbn [mbind result_bind]. by exists sets, hash.
Qed.

(** Configuring succeeds on material that is in order. *)
Lemma configure_complete order manifest selected ids self mb authn :
  blank (nc_APIKeysFile cfg) = false -> blank (nc_ConsortiumManifest cfg) = false ->
  LoadAPIKeyFile (en_read_file env) (nc_APIKeysFile cfg) = Ok authn ->
  LoadManifest (en_read_file env) (nc_ConsortiumManifest cfg) = Ok manifest ->
  manifest_members env cfg manifest = Ok mb -> mb_identities mb = ids ->
  mb_ids mb = ActiveValidatorIDs manifest -> mb_manifest mb = Some manifest ->
  own_material order manifest selected ids self ->
  exists c peers, configure env cfg order = Ok (c, peers) /\ n_authn c = Some authn /\ n_manifest c = Some manifest /\
    n_identities c = ids /\ n_validatorIDs c = ActiveValidatorIDs manifest.
Proof.
  intros Hbk Hbm Hkeys Hman Hmb Hmids Hids Hmm [Hid Hsuite Hsw [_ Hself] Hlisted (provider & signer & Hsigner & Hkey) Hkem Hurls Htls].
  apply is_ok_spec in Htls as [tls Htls]. unfold configure. cbv zeta.
  rewrite Hid, Hsuite. cbn [mbind result_bind]. rewrite Hsw. cbn [mbind result_bind].
  rewrite Hbk, Hkeys. cbn [mbind result_bind]. rewrite Hbm, Hman. cbn [mbind result_bind]. rewrite Hmb. cbn [mbind result_bind].
  rewrite Hmids, Hself, Hsigner. cbn [mbind result_bind]. rewrite <-Hkey, String.eqb_refl. cbn [negb].
  rewrite Hkem. cbn [mbind result_bind]. rewrite Hids, Hlisted. cbn [negb mbind result_bind].
  rewrite Hurls. assert (E : (if nc_ProductionMode cfg then Ok tt else Ok tt) = Ok tt) by by destruct (nc_ProductionMode cfg).
  rewrite E. cbn [mbind result_bind]. rewrite Htls. cbn [mbind result_bind]. eexists _, _. split_and!; [reflexivity|done..].
Qed.

(** C18: a validator accepts what a passed report vouches for.  The bootstrap check
    passes, and a validator finds at its two paths the manifest and the API keys that were
    checked; its manifest history loads and holds only manifests of the same consortium,
    with no other manifest at the current one's version.  Then, when the rest of what
    production mode asks of it is in order - its suite and switches, its own keys, its
    peers' URLs, its TLS files - it is configured, with those API keys and that manifest:
    its members are the manifest's seven active validators, each with its identity, under
    a manifest of threshold five. *)
Theorem pilot_node_accepts tools nanos now spec order value keysValue manifest history selected ids self :
  br_Status (Validate tools nanos now spec) = StatusPass ->
  first_value (resolveSecretSource tools spec).1 (bs_SecretReferences spec) SensitivityManifestCurrent = Some value ->
  first_value (resolveSecretSource tools spec).1 (bs_SecretReferences spec) SensitivityAPIKeys = Some keysValue ->
  en_read_file env (nc_ConsortiumManifest cfg) = Ok value -> en_read_file env (nc_APIKeysFile cfg) = Ok keysValue ->
  nc_ProductionMode cfg = true ->
  Unmarshal Manifest_of value = Ok manifest ->
  LoadManifestHistory (en_read_file env) (en_unquote env) (nc_ManifestHistory cfg) = Ok history ->
  fits_history history manifest ->
  own_material order manifest selected ids self ->
  exists authn c peers,
    LoadManifest (en_read_file env) (nc_ConsortiumManifest cfg) = Ok manifest /\
    LoadAPIKeyFile (en_read_file env) (nc_APIKeysFile cfg) = Ok authn /\
    configure env cfg order = Ok (c, peers) /\ n_authn c = Some authn /\ n_manifest c = Some manifest /\
    mf_QuorumThreshold manifest = 5 /\ n_validatorIDs c = ActiveValidatorIDs manifest /\
    length (n_validatorIDs c) = 7%nat /\ size (n_identities c) = 7%nat.
Proof.
  intros Hpass Hvalue Hkeys Hread Hreadk Hprod Hun Hload Hfit Hown.
  apply validate_vouched in Hpass as (manifest' & keys & Hv).
  destruct (vo_manifest _ _ _ _ _ _ Hv) as (v & Hfirst & Hdec). assert (v = value) as -> by congruence.
  assert (manifest' = manifest) as -> by congruence.
  destruct (vo_valid _ _ _ _ _ _ Hv) as (Hval & _ & Hseven & Hfive).
  destruct (vo_history _ _ _ _ _ _ Hv) as (h & Htrim%trimmed_consortium & _).
  destruct (vo_keys _ _ _ _ _ _ Hv) as (kv & authn & Hkfirst & Hkdec & Hauth). assert (kv = keysValue) as -> by congruence.
  destruct (om_self _ _ _ _ _ Hown) as [Hids _].
  destruct (ActiveIdentities_spec manifest Hval) as (ids' & Hids' & _ & Hsize & _). assert (ids' = ids) as -> by congruence.
  destruct (manifest_members_complete manifest ids history) as (sets & hash & Hmb); [done..|].
  assert (Hman : LoadManifest (en_read_file env) (nc_ConsortiumManifest cfg) = Ok manifest).
  { unfold LoadManifest. rewrite Hread. cbn [mbind result_bind]. by rewrite Hdec, Hval. }
  assert (Hapi : LoadAPIKeyFile (en_read_file env) (nc_APIKeysFile cfg) = Ok authn).
  { unfold LoadAPIKeyFile. rewrite Hreadk. cbn [mbind result_bind]. by rewrite Hkdec. }
  destruct (production_checks_ok _ _ _ Hprod (om_switches _ _ _ _ _ Hown)) as (_ & Hbk & Hbm & _).
  destruct (configure_complete order manifest selected ids self _ authn Hbk Hbm Hapi Hman Hmb) as (c & peers & Hc & Ha & Hm & Hi & Hn); [done..|].
  exists authn, c, peers. rewrite Hn, Hi. split_and!; try done. congruence.
Qed.
End node.

(** ** What a report hides *)

(** The material without its value. *)
Definition erase (t : secretMaterial) : secretMaterial :=
  mkMaterial "" (mt_Resolved t) (mt_RemoteRef t) (mt_StoreRef t) (mt_Source t).

(** Kinds whose values are public: manifests and certificates. *)
Definition public_kind (kind : string) : bool :=
  existsb (String.eqb kind)
    [SensitivityManifestCurrent; SensitivityManifestHistory; SensitivityPeerTLSCert; SensitivityPeerTLSCA;
     SensitivityKMSCA].

(** What a report may show of a value: its size and what kind of content it is; public
    material itself; of API keys the checks they pass, of a private key whether it parses. *)
Definition seen (tools : Tools) (kind value : string)
    : Z * string * option string * option (list Check) * option (result unit) :=
  (len value, contentStatus tools kind value, if public_kind kind then Some value else None,
   if String.eqb kind SensitivityAPIKeys then Some (api_key_checks value) else None,
   if String.eqb kind SensitivityPeerTLSKey then Some (parsePrivateKeyPEM tools value) else None).

(** Secrets that differ in their values only, and in those in nothing a report shows. *)
Record same_view (tools : Tools) (refs : list SecretReference) (m m' : secretMap) : Prop := {
  sv_erased : fmap (M := gmap string) (fmap (M := gmap string) erase) m
              = fmap (M := gmap string) (fmap (M := gmap string) erase) m';
  sv_seen ref t t' : ref ∈ map normalizeSecretReference refs ->
    material_of m ref = Some t -> material_of m' ref = Some t' ->
    seen tools (sr_Sensitivity ref) (mt_Value t) = seen tools (sr_Sensitivity ref) (mt_Value t')
}.

Lemma material_erased (s : secretMap) ref :
  material_of (fmap (M := gmap string) (fmap (M := gmap string) erase) s) ref = fmap (M := option) erase (material_of s ref).
Proof.
  unfold material_of, Material. rewrite lookup_fmap. destruct (s !! sr_Name ref) as [secrets|]; [|done].
  cbn [fmap option_fmap option_map mbind option_bind]. by rewrite lookup_fmap.
Qed.

Lemma erase_fields t t' : erase t = erase t' ->
  mt_Resolved t = mt_Resolved t' /\ mt_RemoteRef t = mt_RemoteRef t' /\ mt_StoreRef t = mt_StoreRef t' /\
  mt_Source t = mt_Source t'.
Proof. unfold erase. intros [=]. done. Qed.

Lemma len_empty v w : len v = len w -> String.eqb v "" = String.eqb w "".
Proof. unfold len. destruct v, w; cbn; (done || lia). Qed.

Lemma seen_public tools kind v w : public_kind kind = true -> seen tools kind v = seen tools kind w -> v = w.
Proof. unfold seen. intros ->. by intros [=]. Qed.

Lemma materials_erased (s : secretMap) :
  materials (fmap (M := gmap string) (fmap (M := gmap string) erase) s) = map erase (materials s).
Proof.
  unfold materials. rewrite map_to_list_fmap. induction (map_to_list s) as [|[name secrets] l IH]; [done|].
  cbn [fmap list_fmap mbind list_bind prod_map fst snd]. rewrite map_app. f_equal; [|exact IH].
  rewrite map_to_list_fmap. clear. by induction (map_to_list secrets) as [|[k t] l IH]; cbn; [|f_equal].
Qed.

Lemma filter_length {A} (p : A -> bool) (f : A -> A) l : (forall a, p (f a) = p a) ->
  length (List.filter p (map f l)) = length (List.filter p l).
Proof. intros Hf. induction l as [|a l IH]; [done|]. cbn. rewrite Hf. destruct (p a); cbn; by rewrite IH. Qed.

Lemma map_alike {A B} (f g : A -> B) l : (forall a, a ∈ l -> f a = g a) -> map f l = map g l.
Proof. intros Hfg. apply map_ext_in. intros a Ha%list_elem_of_In. by apply Hfg. Qed.

Lemma len_zero tools v w : contentStatus tools SensitivityKMSToken v = contentStatus tools SensitivityKMSToken w ->
  (0 <? len (TrimSpace v)) = (0 <? len (TrimSpace w)).
Proof.
  cbn. destruct (String.eqb_spec (TrimSpace v) "") as [->|Hv], (String.eqb_spec (TrimSpace w) "") as [->|Hw]; try done.
  intros _. assert (Hlen : forall u, u <> "" -> (0 <? len u) = true).
  { intros [|c u] Hu; [done|]. unfold len. apply Z.ltb_lt. cbn. lia. }
  by rewrite !Hlen.
Qed.

Section hiding.
Context (tools : Tools) (refs : list SecretReference) (m m' : secretMap) (Hview : same_view tools refs m m').
#[local] Set Default Proof Using "All".

(** A reference leads nowhere in both, or to material that looks the same. *)
Lemma materials_alike ref : ref ∈ map normalizeSecretReference refs ->
  (material_of m ref = None /\ material_of m' ref = None) \/
  exists t t', material_of m ref = Some t /\ material_of m' ref = Some t' /\ erase t = erase t' /\
    seen tools (sr_Sensitivity ref) (mt_Value t) = seen tools (sr_Sensitivity ref) (mt_Value t').
Proof.
  intros Hin. pose proof (material_erased m ref) as E. rewrite (sv_erased _ _ _ _ Hview), material_erased in E.
  destruct (material_of m ref) as [t|] eqn:Et, (material_of m' ref) as [t'|] eqn:Et'; try done; [right|by left].
  injection E as Er Es Eo Eu. exists t, t'. split_and!; [done..| |by eapply sv_seen]. unfold erase. congruence.
Qed.

Lemma public_value ref : ref ∈ map normalizeSecretReference refs -> public_kind (sr_Sensitivity ref) = true ->
  value_of m ref = value_of m' ref.
Proof.
  intros Hin Hp. unfold value_of. destruct (materials_alike ref Hin) as [[-> ->]|(t & t' & -> & -> & He & Hs)]; [done|].
  apply erase_fields in He as (-> & _). destruct (mt_Resolved t'); [|done]. f_equal. by eapply seen_public.
Qed.

Lemma of_kind_in kind ref : ref ∈ of_kind refs kind -> ref ∈ map normalizeSecretReference refs /\ sr_Sensitivity ref = kind.
Proof. intros [Hin ->%String.eqb_eq]%list_elem_of_In%filter_In. by split; [apply list_elem_of_In|]. Qed.

Lemma kind_value kind ref : ref ∈ of_kind refs kind -> public_kind kind = true -> value_of m ref = value_of m' ref.
Proof. intros [Hin <-]%of_kind_in. by apply public_value. Qed.

Lemma normal_in ref : ref ∈ refs -> normalizeSecretReference ref ∈ map normalizeSecretReference refs.
Proof. intros Hin. by apply list_elem_of_In, in_map, list_elem_of_In. Qed.

Lemma required_alike ref : ref ∈ refs -> required_check m ref = required_check m' ref.
Proof.
  unfold required_check. intros Hin%normal_in. revert Hin. generalize (normalizeSecretReference ref). intros n Hin.
  destruct (negb _); [done|]. destruct (materials_alike n Hin) as [[-> ->]|(t & t' & -> & -> & He & Hs)]; [done|].
  apply erase_fields in He as (-> & _). injection Hs as Hl _. by rewrite (len_empty _ _ Hl).
Qed.

Lemma evidence_alike ref : ref ∈ refs -> material_evidence tools m ref = material_evidence tools m' ref.
Proof.
  unfold material_evidence. intros Hin%normal_in. revert Hin. generalize (normalizeSecretReference ref). intros n Hin.
  change (Material m (sr_Name n) (sr_Key n)) with (material_of m n).
  change (Material m' (sr_Name n) (sr_Key n)) with (material_of m' n).
  destruct (materials_alike n Hin) as [[-> ->]|(t & t' & -> & -> & He & Hs)]; [done|].
  apply erase_fields in He as (-> & -> & -> & ->). injection Hs as Hl Hc Hp _ _.
  rewrite Hl, Hc, (len_empty _ _ Hl). unfold safeSecretFingerprint.
  change (existsb _ _) with (public_kind (sr_Sensitivity n)).
  destruct (public_kind _); [|done]. by injection Hp as ->.
Qed.

Lemma history_alike : forall kinds acc, (forall ref, ref ∈ kinds -> value_of m ref = value_of m' ref) ->
  foldl (history_ref m) acc kinds = foldl (history_ref m') acc kinds.
Proof.
  induction kinds as [|ref kinds IH]; intros acc Hall; [done|]. cbn [foldl].
  assert (history_ref m acc ref = history_ref m' acc ref) as ->.
  { unfold history_ref. rewrite (Hall ref) by set_solver. done. }
  apply IH. intros r Hr. apply Hall. set_solver.
Qed.

Lemma manifest_alike consortiumID count threshold :
  validateManifestReferences m refs consortiumID count threshold = validateManifestReferences m' refs consortiumID count threshold.
Proof.
  unfold validateManifestReferences.
  destruct (of_kind refs SensitivityManifestCurrent) as [|ref l] eqn:Ek; [done|].
  rewrite (kind_value SensitivityManifestCurrent ref) by (rewrite ?Ek; (done || set_solver)).
  destruct (value_of m' ref) as [value|]; [|done]. destruct (Unmarshal Manifest_of value) as [manifest|]; [|done].
  destruct (Consortium.Validate manifest); [|done]. unfold manifest_checks.
  destruct (Manifest_Hash manifest);
    by rewrite (history_alike _ _ (fun r Hr => kind_value SensitivityManifestHistory r Hr eq_refl)).
Qed.

Lemma api_keys_alike : validateAPIKeyReferences m refs = validateAPIKeyReferences m' refs.
Proof.
  unfold validateAPIKeyReferences. destruct (of_kind refs SensitivityAPIKeys) as [|ref l] eqn:Ek; [done|].
  destruct (of_kind_in SensitivityAPIKeys ref) as [Hin Hkind]; [rewrite Ek; set_solver|]. unfold value_of.
  destruct (materials_alike ref Hin) as [[-> ->]|(t & t' & -> & -> & He & Hs)]; [done|].
  apply erase_fields in He as (-> & _). destruct (mt_Resolved t'); [|done]. rewrite Hkind in Hs.
  injection Hs as _ _ Hs. exact Hs.
Qed.

(** Any list of what the materials have in common besides their values. *)
Lemma same_fields {A} (f : secretMaterial -> A) : (forall t, f (erase t) = f t) -> map f (materials m) = map f (materials m').
Proof.
  intros Hf. assert (E : map erase (materials m) = map erase (materials m')).
  { by rewrite <-!materials_erased, (sv_erased _ _ _ _ Hview). }
  apply (f_equal (map f)) in E. rewrite !map_map in E. rewrite !(map_ext (fun t => f (erase t)) f) in E by done. exact E.
Qed.

Lemma count_alike (p : bool -> bool) :
  length (List.filter (fun t => p (mt_Resolved t)) (materials m)) = length (List.filter (fun t => p (mt_Resolved t)) (materials m')).
Proof.
  assert (E : map erase (materials m) = map erase (materials m')).
  { by rewrite <-!materials_erased, (sv_erased _ _ _ _ Hview). }
  rewrite <-(filter_length (fun t => p (mt_Resolved t)) erase (materials m)) by done.
  rewrite <-(filter_length (fun t => p (mt_Resolved t)) erase (materials m')) by done. by rewrite E.
Qed.

Lemma summary_alike source : Summary m source = Summary m' source.
Proof.
  unfold Summary. pose proof (sv_erased _ _ _ _ Hview) as E.
  assert (Hsize : size m = size m').
  { by rewrite <-(map_size_fmap (fmap (M := gmap string) erase) m), E, map_size_fmap. }
  assert (Hkeys : sorted_keys m = sorted_keys m').
  { unfold sorted_keys, keys. assert (Hk : forall s : secretMap, (map_to_list s).*1
      = (map_to_list (fmap (M := gmap string) (fmap (M := gmap string) erase) s)).*1).
    { intros s. rewrite map_to_list_fmap, <-list_fmap_compose. by apply list_fmap_ext. }
    by rewrite (Hk m), E, <-(Hk m'). }
  rewrite Hsize, Hkeys, (same_fields mt_StoreRef) by done.
  pose proof (count_alike id) as Hr. pose proof (count_alike negb) as Hu. cbn [id] in Hr. unfold id in Hr.
  change (fun t => mt_Resolved t) with mt_Resolved in Hr. by rewrite Hr, Hu.
Qed.

Lemma content_alike : HasResolvedContent m = HasResolvedContent m'.
Proof.
  unfold HasResolvedContent. assert (Hm : forall l, existsb mt_Resolved l = existsb id (map mt_Resolved l)).
  { intros l. induction l as [|t l IH]; [done|]. cbn. by rewrite IH. }
  by rewrite !Hm, (same_fields mt_Resolved).
Qed.

Lemma tls_alike consortiumID nanos :
  validateTLSReferences tools m refs consortiumID nanos = validateTLSReferences tools m' refs consortiumID nanos.
Proof.
  unfold validateTLSReferences. rewrite content_alike. destruct (is_nil _); [done|].
  rewrite (map_alike (tls_cert_check tools m consortiumID nanos) (tls_cert_check tools m' consortiumID nanos)).
  2: { intros ref Hin. unfold tls_cert_check. by rewrite (kind_value SensitivityPeerTLSCert ref Hin). }
  rewrite (map_alike (tls_key_check tools m) (tls_key_check tools m')).
  2: { intros ref [Hin Hkind]%of_kind_in. unfold tls_key_check, value_of.
       destruct (materials_alike ref Hin) as [[-> ->]|(t & t' & -> & -> & He & Hs)]; [done|].
       apply erase_fields in He as (-> & _). destruct (mt_Resolved t'); [|done]. rewrite Hkind in Hs.
       injection Hs as _ _ Hs. by rewrite Hs. }
  rewrite (map_alike (tls_ca_check tools m) (tls_ca_check tools m')); [done|].
  intros ref Hin. unfold tls_ca_check. by rewrite (kind_value SensitivityPeerTLSCA ref Hin).
Qed.

Lemma kms_alike : validateKMSReferences tools m refs = validateKMSReferences tools m' refs.
Proof.
  unfold validateKMSReferences. f_equal; [|f_equal].
  - destruct (of_kind refs SensitivityKMSToken) as [|ref l] eqn:Ek; [done|].
    destruct (of_kind_in SensitivityKMSToken ref) as [Hin Hkind]; [rewrite Ek; set_solver|]. unfold kms_token_check.
    destruct (materials_alike ref Hin) as [[-> ->]|(t & t' & -> & -> & He & Hs)]; [done|].
    apply erase_fields in He as (-> & _). rewrite Hkind in Hs. injection Hs as _ Hc. by rewrite (len_zero tools _ _ Hc).
  - destruct (of_kind refs SensitivityKMSCA) as [|ref l] eqn:Ek; [done|].
    destruct (of_kind_in SensitivityKMSCA ref) as [Hin Hkind]; [rewrite Ek; set_solver|]. unfold kms_ca_check.
    destruct (materials_alike ref Hin) as [[-> ->]|(t & t' & -> & -> & He & Hs)]; [done|].
    apply erase_fields in He as (-> & _). rewrite Hkind in Hs. by rewrite (seen_public tools SensitivityKMSCA _ _ eq_refl Hs).
Qed.

(** The report is the same. *)
Lemma report_alike nanos now spec checks : bs_SecretReferences spec = refs ->
  report_on tools nanos now spec (m, checks) = report_on tools nanos now spec (m', checks).
Proof.
  intros Hrefs. unfold report_on. rewrite Hrefs, manifest_alike, api_keys_alike, tls_alike, kms_alike, summary_alike.
  assert (Hreq : refs ≫= required_check m = refs ≫= required_check m').
  { apply Forall_bind_ext, Forall_forall. intros ref. apply required_alike. }
  assert (Hev : buildSecretEvidence tools m refs = buildSecretEvidence tools m' refs).
  { unfold buildSecretEvidence. f_equal. apply map_alike. intros ref. apply evidence_alike. }
  by rewrite Hreq, Hev.
Qed.
End hiding.

(** The same tools over other files. *)
Definition with_files (read_file : string -> result string) (tools : Tools) : Tools :=
  mkTools read_file (to_spec tools) (to_kube tools) (to_external tools) (to_pem tools) (to_certificate tools)
    (to_pkcs1 tools) (to_ec tools) (to_pkcs8 tools).

(** Kinds of which nothing but the size and the presence is checked: the key service's
    token and key, the headers of the telemetry, and what has another name. *)
Definition opaque_kind (kind : string) : bool :=
  negb (public_kind kind || String.eqb kind SensitivityAPIKeys || String.eqb kind SensitivityPeerTLSKey).

Lemma seen_opaque tools kind v w : opaque_kind kind = true -> len v = len w ->
  String.eqb (TrimSpace v) "" = String.eqb (TrimSpace w) "" -> seen tools kind v = seen tools kind w.
Proof.
  unfold opaque_kind, seen. rewrite negb_true_iff. intros [[Hp Ha]%orb_false_iff Hk]%orb_false_iff Hl Hb.
  assert (Hc : contentStatus tools kind v = contentStatus tools kind w); [|by rewrite Hp, Ha, Hk, Hl, Hc].
  unfold contentStatus. rewrite Hk, Hb, (len_empty v w Hl). unfold public_kind in Hp. cbn [existsb] in Hp |- *.
  rewrite !orb_false_iff in Hp. destruct Hp as (-> & -> & -> & -> & -> & _). by rewrite Ha.
Qed.

(** C19: a report does not depend on the secrets.  If the files change so that the secrets
    that are read differ in their values only, and those only where a report may not look
    (the token and other opaque values of the same size, API keys with the same checks, a
    private key that still parses), the report is the same to the last field; of opaque
    values nothing but the size and whether they are blank matters. *)
Theorem report_hides_secrets tools read_file nanos now spec :
  let hidden := with_files read_file tools in
  (resolveSecretSource hidden spec).2 = (resolveSecretSource tools spec).2 ->
  same_view tools (bs_SecretReferences spec) (resolveSecretSource tools spec).1 (resolveSecretSource hidden spec).1 ->
  Validate hidden nanos now spec = Validate tools nanos now spec /\
  forall kind v w, opaque_kind kind = true -> len v = len w ->
    String.eqb (TrimSpace v) "" = String.eqb (TrimSpace w) "" -> seen tools kind v = seen tools kind w.
Proof.
  intros hidden Hchecks Hview. split; [|by intros; apply seen_opaque].
  unfold Validate. change (resolveSecretSource hidden (with_defaults spec)) with (resolveSecretSource hidden spec).
  change (resolveSecretSource tools (with_defaults spec)) with (resolveSecretSource tools spec).
  destruct (resolveSecretSource tools spec) as [m checks], (resolveSecretSource hidden spec) as [m' checks'].
  cbn [fst snd] in Hchecks, Hview. subst checks'.
  change (report_on hidden nanos now (with_defaults spec) (m', checks))
    with (report_on tools nanos now (with_defaults spec) (m', checks)).
  symmetry. by apply (report_alike tools (bs_SecretReferences spec) m m' Hview).
Qed.

(** ** The material of the smoke test as a demonstration

    The tree of files that the smoke test writes, read through toy parsers: a certificate
    is the name it is for, a private key has "-key" in it. *)

Definition demo_manifest_result : result Manifest := smoke_manifest "fabric" ∅ demo_pq.

Definition demo_manifest : Manifest :=
  match demo_manifest_result with Ok m => m | Err _ => mkManifest "" "" 0 0 [] end.

Definition demo_tree : list (string * string) :=
  smoke_files "/tree" (mkTime 7 "") demo_manifest "authority" "kms-authority" id (fun id => id ++ "-key").

Fixpoint read_tree (tree : list (string * string)) (path : string) : result string :=
  match tree with
  | [] => fail ("open " ++ path ++ ": no such file or directory")
  | (p, data) :: tree => if String.eqb p path then Ok data else read_tree tree path
  end.

Definition demo_certificate (name : string) : result Certificate :=
  if String.eqb name "authority" || String.eqb name "kms-authority" then Ok (mkCertificate 0 10 [] true)
  else Ok (mkCertificate 0 10 [ExpectedTLSURISAN "fabric" name] false).

Definition demo_tools (tree : list (string * string)) : Tools :=
  mkTools (read_tree tree) (fun _ => fail "no YAML") (fun _ => ([], None)) (fun _ => ([], None))
    (fun value => Some (if Prelude.Contains value "-key" then "PRIVATE KEY" else "CERTIFICATE", value)) demo_certificate
    (fun _ => Ok tt) (fun _ => Ok tt) (fun _ => Ok tt).

Definition demo_base : BootstrapSpec :=
  mkSpec "" "" "fabric" 0 0 (mkSource "" "" "" "") [] "" (mkKMSSpec "" "" "" "" "" false) (mkOTELSpec false "" "" false)
    false false.

Definition demo_spec : BootstrapSpec := generatedSmokeSpec demo_base "/tree" "https://kms".

Lemma demo_passes : br_Status (Validate (demo_tools demo_tree) 5 (mkTime 7 "") demo_spec) = StatusPass.
Proof. vm_compute. reflexivity. Qed.

Lemma validate_pass_sound_witness :
  exists source checks manifest keys, resolveSecretSource (demo_tools demo_tree) demo_spec = (source, checks) /\
    vouched (demo_tools demo_tree) 5 demo_spec source manifest keys.
Proof. exact (validate_pass_sound (demo_tools demo_tree) 5 (mkTime 7 "") demo_spec demo_passes). Defined.

(** *** A validator over the same files *)

Definition demo_mounted (path : string) : string := mountPath "/tree" path.

Definition demo_pilot_env : NodeInit.Environment MemoryStore :=
  NodeInit.mkEnvironment demo_pq demo_pq "pq" (read_tree demo_tree) (fun _ => None) (fun _ _ => Ok tt)
    (fun _ => true) (fun _ => true) (fun _ _ _ _ => fail "no key service") (fun _ => Ok tt)
    (fun _ _ _ => Ok NewMemoryStore) (Ok tt).

Definition demo_pilot_config : NodeConfig :=
  mkNodeConfig "validator-2" "" "" ∅ 5 0 "sqlite" "" "db" true "" (demo_mounted "/etc/pq-fabric/secrets/api-keys.json") 0 0
    (demo_mounted "/etc/pq-fabric/manifest/current.json") (demo_mounted "/etc/pq-fabric/manifest/history/v1.json") "" true
    (mkKMS "" "" "" "" false) "c" "k" (demo_mounted "/etc/pq-fabric/tls/ca.crt").

Lemma list_two {A} (a b c d : A) : [a; b] = [c; d] -> a = c /\ b = d.
Proof. by intros [= -> ->]. Qed.

Definition demo_value (mounted : string) : string :=
  match read_tree demo_tree (demo_mounted mounted) with Ok value => value | Err _ => "" end.

Lemma demo_first :
  map (first_value (resolveSecretSource (demo_tools demo_tree) demo_spec).1 (bs_SecretReferences demo_spec))
    [SensitivityManifestCurrent; SensitivityAPIKeys]
  = [Some (demo_value "/etc/pq-fabric/manifest/current.json"); Some (demo_value "/etc/pq-fabric/secrets/api-keys.json")].
Proof. vm_compute. reflexivity. Qed.

Lemma demo_read : map (fun mounted => read_tree demo_tree (demo_mounted mounted))
    ["/etc/pq-fabric/manifest/current.json"; "/etc/pq-fabric/secrets/api-keys.json"]
  = [Ok (demo_value "/etc/pq-fabric/manifest/current.json"); Ok (demo_value "/etc/pq-fabric/secrets/api-keys.json")].
Proof. vm_compute. reflexivity. Qed.

(** The manifest as the validator reads it, its history, its identities and its own. *)
Definition ok_or {A} (zero : A) (r : result A) : A := match r with Ok a => a | Err _ => zero end.

Lemma ok_or_ok {A} (zero : A) (r : result A) : is_ok r = true -> r = Ok (ok_or zero r).
Proof. by destruct r. Qed.

Definition demo_read_manifest : Manifest :=
  ok_or demo_manifest (Unmarshal Manifest_of (demo_value "/etc/pq-fabric/manifest/current.json")).
Definition demo_history : History :=
  ok_or empty_history
    (LoadManifestHistory (read_tree demo_tree) (fun _ => None) (demo_mounted "/etc/pq-fabric/manifest/history/v1.json")).
Definition demo_ids : gmap string ValidatorIdentity := ok_or ∅ (ActiveIdentities demo_read_manifest).

(** One manifest, which is its own history. *)
Lemma demo_fits : fits_history demo_history demo_read_manifest.
Proof.
  assert (E : hi_Manifests demo_history = [demo_read_manifest]) by (vm_compute; reflexivity).
  intros old. rewrite E. intros ->%list_elem_of_singleton. exact (conj eq_refl (fun _ => eq_refl)).
Qed.
Definition demo_self : ValidatorIdentity :=
  default (mkIdentity "" "" "" "" "" "" "" "" "" "") (demo_ids !! "validator-2").

Lemma demo_own : own_material demo_pilot_env demo_pilot_config map_to_list demo_read_manifest demo_pq demo_ids demo_self.
Proof.
  split.
  - vm_compute. reflexivity.
  - exact eq_refl.
  - vm_compute. reflexivity.
  - split; [apply ok_or_ok; vm_compute; reflexivity|vm_compute; reflexivity].
  - vm_compute. reflexivity.
  - destruct (NewSigner (en_kms_do demo_pilot_env) (en_url_ok demo_pilot_env) (en_kms_client demo_pilot_env)
      (mkSigning (NormalizeProvider (nc_SignerProvider demo_pilot_config)) (nc_ID demo_pilot_config) demo_pq
         (SignatureAlgorithmName demo_self) (SignaturePublicKeyBytes demo_self)
         (kms_config demo_pilot_config (Some demo_read_manifest)))) as [[provider signer]|e] eqn:E.
    + exists provider, signer. split; [reflexivity|]. apply (f_equal (fun r => match r with Ok (_, s) => String.eqb (SignaturePublicKeyBytes demo_self) (sg_PublicKey s) | Err _ => true end)) in E.
      apply String.eqb_eq. rewrite <-E. vm_compute. reflexivity.
    + exfalso. apply (f_equal is_ok) in E. vm_compute in E. discriminate E.
  - vm_compute. reflexivity.
  - vm_compute. reflexivity.
  - vm_compute. reflexivity.
Qed.

Lemma pilot_node_accepts_witness :
  exists authn c peers,
    LoadAPIKeyFile (en_read_file demo_pilot_env) (nc_APIKeysFile demo_pilot_config) = Ok authn /\
    configure demo_pilot_env demo_pilot_config map_to_list = Ok (c, peers) /\ n_authn c = Some authn /\
    length (n_validatorIDs c) = 7%nat /\ size (n_identities c) = 7%nat.
Proof.
  destruct (list_two _ _ _ _ demo_first) as [Hm Hk]. destruct (list_two _ _ _ _ demo_read) as [Hrm Hrk].
  assert (Hun : Unmarshal Manifest_of (demo_value "/etc/pq-fabric/manifest/current.json") = Ok demo_read_manifest)
    by (apply ok_or_ok; vm_compute; reflexivity).
  assert (Hh : LoadManifestHistory (en_read_file demo_pilot_env) (en_unquote demo_pilot_env)
      (nc_ManifestHistory demo_pilot_config) = Ok demo_history) by (apply ok_or_ok; vm_compute; reflexivity).
  destruct (pilot_node_accepts demo_pilot_env demo_pilot_config (demo_tools demo_tree) 5 (mkTime 7 "") demo_spec map_to_list
    (demo_value "/etc/pq-fabric/manifest/current.json") (demo_value "/etc/pq-fabric/secrets/api-keys.json")
    demo_read_manifest demo_history demo_pq demo_ids demo_self demo_passes Hm Hk Hrm Hrk eq_refl Hun Hh demo_fits demo_own)
    as (authn & c & peers & _ & Ha & Hc & Hca & _ & _ & _ & Hlen & Hsize).
  exists authn, c, peers. exact (conj Ha (conj Hc (conj Hca (conj Hlen Hsize)))).
Defined.

(** *** Another token *)

#[local] Instance secretMaterial_eq_dec : EqDecision secretMaterial.
Proof. solve_decision. Defined.

Definition other_token (path : string) : result string :=
  if String.eqb path (demo_mounted "/etc/pq-fabric/kms/token") then Ok "another-smoke-token!!" else read_tree demo_tree path.

Definition hidden_tools : Tools := with_files other_token (demo_tools demo_tree).

(** Two materials with the same view, by their values. *)
Definition alike (kind v w : string) : bool :=
  String.eqb v w ||
  opaque_kind kind && (len v =? len w) && Bool.eqb (String.eqb (TrimSpace v) "") (String.eqb (TrimSpace w) "").

Definition alike_at (m m' : secretMap) (ref : SecretReference) : bool :=
  match material_of m ref, material_of m' ref with
  | Some t, Some t' => alike (sr_Sensitivity ref) (mt_Value t) (mt_Value t')
  | _, _ => true
  end.

Lemma same_view_by tools refs m m' :
  fmap (M := gmap string) (fmap (M := gmap string) erase) m = fmap (M := gmap string) (fmap (M := gmap string) erase) m' ->
  forallb (alike_at m m') (map normalizeSecretReference refs) = true -> same_view tools refs m m'.
Proof.
  intros He Hall. split; [done|]. intros ref t t' Hin Ht Ht'. rewrite List.forallb_forall in Hall.
  specialize (Hall ref (proj1 (list_elem_of_In _ _) Hin)). unfold alike_at in Hall. rewrite Ht, Ht' in Hall.
  unfold alike in Hall. apply orb_true_iff in Hall as [->%String.eqb_eq|[[Ho Hl%Z.eqb_eq]%andb_true_iff Hb%eqb_prop]%andb_true_iff];
    [done|by apply seen_opaque].
Qed.

Lemma demo_hidden_checks :
  (resolveSecretSource hidden_tools demo_spec).2 = (resolveSecretSource (demo_tools demo_tree) demo_spec).2.
Proof. vm_compute. reflexivity. Qed.

Lemma demo_hidden_view :
  same_view (demo_tools demo_tree) (bs_SecretReferences demo_spec) (resolveSecretSource (demo_tools demo_tree) demo_spec).1
    (resolveSecretSource hidden_tools demo_spec).1.
Proof.
  apply same_view_by; [apply (bool_decide_unpack _)|]; vm_compute; [exact I|reflexivity].
Qed.

(** The reports are equal although the tokens are not. *)
Lemma report_hides_secrets_witness :
  Validate hidden_tools 5 (mkTime 7 "") demo_spec = Validate (demo_tools demo_tree) 5 (mkTime 7 "") demo_spec /\
  first_value (resolveSecretSource hidden_tools demo_spec).1 (bs_SecretReferences demo_spec) SensitivityKMSToken
    = Some "another-smoke-token!!" /\
  first_value (resolveSecretSource (demo_tools demo_tree) demo_spec).1 (bs_SecretReferences demo_spec) SensitivityKMSToken
    = Some "generated-smoke-token".
Proof.
  split; [|split; vm_compute; reflexivity].
  exact (proj1 (report_hides_secrets (demo_tools demo_tree) other_token 5 (mkTime 7 "") demo_spec
                  demo_hidden_checks demo_hidden_view)).
Defined.

(** ** Where a report says too little *)

Definition with_references (refs : list SecretReference) (spec : BootstrapSpec) : BootstrapSpec :=
  mkSpec (bs_SchemaVersion spec) (bs_Profile spec) (bs_ConsortiumID spec) (bs_ValidatorCount spec) (bs_QuorumThreshold spec)
    (bs_SecretSource spec) refs (bs_DatabaseURLTemplate spec) (bs_KMS spec) (bs_OTEL spec) (bs_PublicExitRouting spec)
    (bs_MainnetAnchoring spec).

Definition optional (ref : SecretReference) : SecretReference :=
  mkReference (sr_Name ref) (sr_Key ref) (sr_MountPath ref) (sr_Sensitivity ref) false (sr_ValidatorID ref) (sr_RemoteRef ref).

(** In a tree of files, where nothing is external, a manifest, keys and certificates whose
    files do not exist are reported as left to an external provider when they are not
    marked as required: with the key service's two files alone no check fails. *)
Example absent_is_deferred :
  let tree := List.filter (fun '(path, _) => Prelude.Contains path "/kms/") demo_tree in
  let report := Validate (demo_tools tree) 5 (mkTime 7 "")
                  (with_references (map optional pilotSecretReferences) demo_spec) in
  br_Status report = "pass_with_unresolved" /\ Report_OK report = true /\ br_Manifest report = no_manifest /\
  length (List.filter (fun c => String.eqb (ck_Status c) StatusUnresolved) (br_Checks report)) = 17%nat.
Proof. vm_compute. repeat split. Qed.

(** A relative mount path leads out of the tree. *)
Example mount_escapes :
  (resolveSecretSource (demo_tools [("/etc/shadow", "root")])
     (with_references [reference "n" "k" "../etc/shadow" SensitivityOTELHeaders ""] demo_spec)).1
  = {["n" := {["k" := mkMaterial "root" true "" "" SecretModeFileTree]}]}.
Proof. vm_compute. reflexivity. Qed.

(** The check passes over a manifest that occurs twice in the history; a validator that
    loads the two files refuses the history. *)
Example history_duplicate_passed_over :
  let path := demo_mounted "/etc/pq-fabric/manifest/current.json" in
  let history := demo_mounted "/etc/pq-fabric/manifest/history/v1.json" in
  is_ok (LoadManifestHistory (read_tree demo_tree) (fun _ => None) path) = true /\
  match LoadManifestHistory (read_tree demo_tree) (fun _ => None) (path ++ "," ++ history) with
  | Ok _ => false
  | Err e => Prelude.Contains (err_text e) "duplicate manifest hash"
  end = true.
Proof. vm_compute. split; reflexivity. Qed.
